(* ===== verification/_CoqProject ===== *)
-Q . S2P
Prelude.v
Mem.v
Mmu.v
Kernel.v
Spinlock.v
Kalloc.v
Vm.v
VmFacts.v
Kvm.v
Copy.v
Sched.v
Race.v
Runs.v
Live.v
Bio.v
Cache.v
Log.v
Crash.v
Fs.v
Recovery.v
Files.v
Mkfs.v
Mount.v
Uaccess.v
Pipe.v
File.v
Proc.v
Exec.v
Syscall.v
Console.v
Sysproc.v
Sysfile.v
Trap.v
Tty.v
Devices.v
Mp.v
Keyboard.v
Screen.v
Ide.v
Boot.v
Main.v
Asm.v
Umalloc.v
Heap.v
Client.v
Ulib.v
Grep.v
Programs.v
Shell.v
ShellPrint.v
ShellRun.v
