(* ===== verification/Prelude.v ===== *)
(** * A verification development for the xv6 huge-page kernel (solution/)

    The program is xv6 for x86, extended with 4 MB pages: a boot loader, a
    kernel (memory, processes, file system, pipes, system calls, console,
    devices), the tool that makes the file system image, a user library with an
    allocator over ordinary and huge pages, a shell and small programs.  This
    library translates it into functions on explicit states and proves what the
    parts promise.

    ** Conventions

    - A [uint] is a [Z] in [0, 2^32) and every operation that can leave the
      range is followed by [w32]; [s32] reads the bits as an [int] (Prelude.v).
      Memory is a function from addresses to bytes, and structures that live
      in pages (free lists, page tables) are words of that memory (Mem.v).
    - Kernel code is in the monad [K A = kstate -> result kstate A].  A result
      is [Ok], [Panic] (the kernel's panic), [Fault] (an access the hardware
      refuses), [Spin] (a lock that is taken, with interrupts off), [Switch]
      (swtch: the computation is suspended, and goes on from whatever state the
      rest of the system leaves) or [NoFuel] (the bound of a loop was too
      small).  [kstate] has one field for each global variable of the kernel,
      seen from one CPU (Kernel.v).  Pointers into static tables are indices.
    - Driver code is in the monad [D] over [devices] (Devices.v), which records
      every access to a port or a device register; what a device answers is a
      function of the accesses so far, the class [Hardware].
    - User code of umalloc.c is in the same monad over [ustate]; programs are
      functions on byte strings, or run over a class [Sys] of system calls
      (Programs.v).  Assembly is a list of instructions run on registers and
      memory (Asm.v).
    - Names are those of the source.  A definition that ends in [_loop] or
      [_scan] is a loop of the function it is named after.

    ** Files and what they show

    - Prelude.v: machine integers, the monad, shared lemmas and tactics.
    - Mem.v: byte memory; Module [Mem] is string.c.  memmove copies, strncpy and
      strncmp treat directory names as C strings.
    - Mmu.v: the macros of mmu.h and memlayout.h.
    - Kernel.v: the structures of the header files and the kernel state.
    - Spinlock.v: spinlock.c.  pushcli and popcli nest; Module [Protocol] has
      the memory accesses of acquire and release as a step relation between
      CPUs, with mutual exclusion for every interleaving.
    - Kalloc.v: kalloc.c.  Both allocators are instances of the interface
      [PageAllocator]; any sequence of operations conserves pages; the free
      lists at each stage of the boot; the guards of kfree and khugefree.
    - Vm.v, VmFacts.v, Kvm.v, Copy.v: vm.c.  [hw_translate] is the page walk of
      the MMU, and every theorem says what is seen through it: mappages with
      both page sizes, setupkvm, allocuvm (all or nothing), deallocuvm and
      freevm on small pages, copyuvm with both page sizes; and what
      deallocuvm does to a huge page.
    - Sched.v, Proc.v: proc.c.  Fresh processes, growing and shrinking, wait,
      kill.
    - Race.v: the statements of sleep and wakeup as steps of two CPUs; no
      interleaving loses a wakeup or ends in a deadlock.
    - Runs.v: a weakest precondition for code that sleeps, with the steps of
      the rest of the system as a relation (rely).
    - Live.v: the scheduler switches to every RUNNABLE process in the current or
      the next round over the table.
    - Bio.v, Log.v, Fs.v: sleeplock.c, ide.c, bio.c, log.c, fs.c.  The log
      header and inodes survive a round trip to disk, the inode cache holds no
      inode twice, path names are split correctly.
    - Cache.v, Crash.v, Recovery.v: the buffer cache implements an abstract
      cache; transactions of the log are atomic, whenever the machine stops
      between two disk writes, during recoveries too.
    - Files.v: what inodes, directories and paths mean on the disk; readi,
      dirlookup and namei compute it.
    - Mkfs.v, Mount.v: mkfs.c.  The image has the files it was given, with an
      exact bitmap; a kernel started from it reads them back by name.
    - Uaccess.v, Pipe.v, File.v: user memory, pipe.c, file.c.  Pipes deliver
      bytes in order for every interleaving of readers and writers.
    - Exec.v, Syscall.v, Sysproc.v, Sysfile.v, Console.v, Trap.v: exec.c,
      syscall.c, sysproc.c, sysfile.c, console.c, trap.c.  Pointer arguments
      are checked exactly; numbers are printed correctly; the interrupt table
      is open to user code for system calls only; a timer interrupt gives up
      the CPU.
    - Tty.v, Keyboard.v: line editing of console.c as a queue and a line, what a
      reader takes, and the way of a line from the scan codes of a US keyboard
      (kbd.c, or uart.c) to the reader.
    - Devices.v, Mp.v: lapic.c, ioapic.c, picirq.c, uart.c, kbd.c, mp.c, as
      accesses to registers; mpinit finds what the tables list.
    - Screen.v: the CGA screen of console.c, with its controller: it shows the
      last lines of what has been written, and blanks elsewhere.
    - Ide.v: the port accesses of ide.c and a drive that understands them; they
      do to the disk what Bio.v says.  Module [Memide] is memide.c.
    - Boot.v, Main.v: bootmain.c and main.c.  The loader leaves every segment of
      the kernel in its place; the first page directory maps what entry.S
      needs.  Main.v has the order of initialisation on kernel and devices.
    - Asm.v: swtch.S, vectors.S, trapasm.S, usys.S, initcode.S, entry.S,
      entryother.S, bootasm.S.  A context switch and back resumes the caller; a
      system call builds the frame that trap() reads, and returns to the
      program with what trap() has left in it.
    - Umalloc.v, Heap.v, Client.v: umalloc.c.  [pool_ok] is the invariant of a
      free list (address-ordered ring, no two free blocks touching, blocks
      apart); vfree, the search, morecore and the first use keep it; programs
      that allocate, free and write see an abstract heap (a refinement).
    - Ulib.v, Grep.v: ulib.c, printf.c, the matcher and the buffering of
      grep.c, the counters of wc.c.  The pattern matcher decides a reference
      semantics.
    - Programs.v: cat.c, echo.c, grep.c, init.c, kill.c, ln.c, ls.c, mkdir.c,
      rm.c, wc.c, zombie.c.  cat, wc, grep and ls print what the files they are
      given say, over any system calls with the laws of the class [Files].
    - Shell.v, ShellPrint.v, ShellRun.v: sh.c.  The parser ends on every line,
      reads back every printed command, and runcmd gives every program the
      descriptors that the command says.

    ** How the parts meet

    The page-table code is verified against [PageAllocator], which Kalloc.v
    implements.  [uspace] in VmFacts.v is the invariant of a process's address
    space; fork (copyuvm), sbrk (allocuvm, deallocuvm) and wait (freevm) are
    proved on it.  Code that sleeps (pipes, wait, the console) is verified with
    the rely relation of Runs.v.  The file system is built in layers: Ide.v
    implements the commands of Bio.v, Cache.v the abstract cache over them,
    Crash.v and Files.v work on the abstract cache, and Mount.v puts mkfs, the
    recovery and the look-up together.  Boot.v uses the drive of Ide.v, and
    Keyboard.v joins Devices.v to Tty.v.  Asm.v enters through the gates of
    Trap.v and builds the [trapframe] of Kernel.v.  The user allocator sees the
    kernel through the class [Grants], which says for each request whether more memory is given;
    ShellRun.v uses the parser of Shell.v and hands descriptors out as fdalloc
    of sysfile.c does.

    ** Bounds and fuel

    Loops that are not structural take fuel, and the callers pass a bound that
    the theorems show to be enough: walks of page tables have at most 1024
    entries per level, walks of a user free list at most as many nodes as the
    heap has units ([list_fuel]), the shell parser four steps for each byte of
    the line, the programs one read for each byte of a file.  Loops that sleep
    are bounded by [rounds], the number of wakeups in vain that a process
    survives; theorems about such calls hold for every bound and every
    behaviour of the rest of the system.  Loops that wait for a device take the
    number of polls; the theorems with a drive or a keyboard are about devices
    that are ready.

    The theorems on the disk are for one process that uses the file system
    while others leave it alone, with [rounds] at least 2 and a transaction of
    at most LOGSIZE blocks.  Those on mkfs are for at most 198 files whose
    directory does not end exactly at a block, which is where mkfs.c errs.  The
    theorem on the scheduler is about one CPU, and a system that comes back to
    it.

    ** What is not modelled

    - instruction-level interleaving of two CPUs, except in the lock protocol
      ([Protocol]) and, statement by statement, in sleep and wakeup (Race.v);
    - paging and segment limits in Asm.v, where addresses are linear; the
      descriptor tables in the boot code, and the code after the calls that
      should not return;
    - the call stacks recorded by acquire, which are for debugging;
    - timing: delays in drivers do nothing;
    - the test programs forktest.c, stressfs.c and usertests.c, which only
      exercise the system calls. *)

From Stdlib Require Import ZArith Lia FunctionalExtensionality.
From stdpp Require Import base list strings gmap.

#[global] Open Scope Z_scope.

(** ** 32-bit machine integers

    [uint] values are kept as [Z] in [0, 2^32); every C operation that can
    leave that range is followed by [w32].  [s32] reads the same bits as a
    signed [int]. *)

Definition W32 : Z := 4294967296.
Definition w32 (x : Z) : Z := x mod 4294967296.
Definition s32 (x : Z) : Z := let y := w32 x in if y <? 2147483648 then y else y - 4294967296.
Definition u32 (x : Z) : Prop := 0 <= x < 4294967296.

Ltac zdm := Z.div_mod_to_equations; lia.

Lemma w32_small x : u32 x -> w32 x = x.
Proof. unfold u32, w32. intros. apply Z.mod_small; lia. Qed.

Lemma w32_range x : u32 (w32 x).
Proof. unfold u32, w32. apply Z.mod_pos_bound; lia. Qed.

Lemma w32_idem x : w32 (w32 x) = w32 x.
Proof. apply w32_small, w32_range. Qed.

Lemma w32_add_l x y : w32 (w32 x + y) = w32 (x + y).
Proof. unfold w32. apply Z.add_mod_idemp_l; lia. Qed.

Lemma w32_sub_l x y : w32 (w32 x - y) = w32 (x - y).
Proof. unfold w32. rewrite Zminus_mod_idemp_l. reflexivity. Qed.

(** Rounding with a mask of high bits, the shape of [PGROUNDUP], [PTE_ADDR]
    and friends, is subtraction of a remainder. *)
Lemma land_himask x k :
  0 <= k <= 32 -> u32 x -> Z.land x (4294967296 - 2 ^ k) = x - x mod 2 ^ k.
Proof.
  intros Hk Hx. unfold u32 in Hx.
  assert (Hp : 0 < 2 ^ k) by (apply Z.pow_pos_nonneg; lia).
  replace (4294967296 - 2 ^ k) with (Z.shiftl (Z.ones (32 - k)) k).
  2: { rewrite Z.shiftl_mul_pow2, Z.ones_equiv by lia.
       change 4294967296 with (2 ^ 32).
       replace (2 ^ 32) with (2 ^ (32 - k) * 2 ^ k) by (rewrite <- Z.pow_add_r by lia; f_equal; lia).
       lia. }
  replace (x - x mod 2 ^ k) with (Z.shiftl (Z.shiftr x k) k).
  2: { rewrite Z.shiftl_mul_pow2, Z.shiftr_div_pow2 by lia.
       pose proof (Z.div_mod x (2 ^ k)). lia. }
  apply Z.bits_inj'. intros n Hn.
  rewrite Z.land_spec, !Z.shiftl_spec by lia.
  destruct (Z.lt_ge_cases n k).
  - rewrite !(Z.testbit_neg_r _ (n - k)) by lia. apply andb_false_r.
  - rewrite Z.shiftr_spec by lia. replace (n - k + k) with n by lia.
    destruct (Z.lt_ge_cases n 32).
    + rewrite Z.ones_spec_low by lia. apply andb_true_r.
    + rewrite Z.ones_spec_high by lia. rewrite andb_false_r.
      symmetry. rewrite <- (Z.mod_small x (2 ^ 32)) by lia.
      apply Z.mod_pow2_bits_high; lia.
Qed.

(** Or-ing flag bits below an aligned address adds them. *)
Lemma s32_small x : -2147483648 <= x < 2147483648 -> s32 x = x.
Proof. intros. unfold s32, w32. destruct (Z.ltb_spec (x mod 4294967296) 2147483648); zdm. Qed.

Lemma lor_range k a b : 0 <= a < 2 ^ k -> 0 <= b < 2 ^ k -> 0 <= Z.lor a b < 2 ^ k.
Proof.
  intros Ha Hb. destruct (Z.eq_dec a 0) as [-> | Hna]; [exact Hb|].
  destruct (Z.eq_dec b 0) as [-> | Hnb]; [rewrite Z.lor_0_r; exact Ha|].
  assert (0 <= Z.lor a b) by (apply Z.lor_nonneg; lia).
  split; [assumption|]. destruct (Z.eq_dec (Z.lor a b) 0) as [-> | Hz]; [lia|].
  apply Z.log2_lt_pow2; [lia|]. rewrite Z.log2_lor by lia.
  apply Z.max_lub_lt; apply Z.log2_lt_pow2; lia.
Qed.

Lemma lor_low_add a b k :
  0 <= k -> a mod 2 ^ k = 0 -> 0 <= b < 2 ^ k -> Z.lor a b = a + b.
Proof.
  intros Hk Ha Hb.
  assert (Hd : Z.land a b = 0).
  { apply Z.bits_inj'. intros n Hn. rewrite Z.land_spec, Z.bits_0.
    destruct (Z.lt_ge_cases n k).
    - rewrite <- (Z.mod_pow2_bits_low a k n) by lia.
      rewrite Ha, Z.bits_0. reflexivity.
    - rewrite <- (Z.mod_small b (2 ^ k)) by lia.
      rewrite Z.mod_pow2_bits_high by lia. apply andb_false_r. }
  rewrite <- Z.lxor_lor by assumption. symmetry. apply Z.add_nocarry_lxor, Hd.
Qed.

(** ** Results and the state monad of the kernel code

    A C function that runs on state [S] and returns an [A] is a value of
    [M S A].  Its outcomes:
    - [Ok a s]: it returned [a] in state [s];
    - [Panic msg]: it called [panic(msg)]; the machine stops;
    - [Fault]: it dereferenced a null pointer or left an array;
    - [Spin]: it waits on a spin lock that another CPU holds;
    - [Switch s k]: it called swtch() in state [s]; other processes run, and
      when the scheduler comes back in state [s'] it continues as [k s'];
    - [NoFuel]: a bounded loop of the model ran out of its bound.  Theorems
      that a function returns rule this outcome out. *)

Inductive result (S A : Type) : Type :=
| Ok (a : A) (s : S)
| Panic (msg : string)
| Fault
| Spin
| Switch (s : S) (k : S -> result S A)
| NoFuel.
Arguments Ok {S A} a s.
Arguments Panic {S A} msg.
Arguments Fault {S A}.
Arguments Spin {S A}.
Arguments Switch {S A} s k.
Arguments NoFuel {S A}.

Definition M (S A : Type) : Type := S -> result S A.

Definition ret {S A} (a : A) : M S A := fun s => Ok a s.

(** What happens after a computation that has been started. *)
Fixpoint andthen {S A B} (r : result S A) (k : A -> M S B) : result S B :=
  match r with
  | Ok a s => k a s
  | Panic msg => Panic msg
  | Fault => Fault
  | Spin => Spin
  | Switch s f => Switch s (fun s' => andthen (f s') k)
  | NoFuel => NoFuel
  end.
Definition bind {S A B} (m : M S A) (k : A -> M S B) : M S B := fun s =>
  match m s with
  | Ok a s' => k a s'
  | Panic msg => Panic msg
  | Fault => Fault
  | Spin => Spin
  | Switch s' f => Switch s' (fun s'' => andthen (f s'') k)
  | NoFuel => NoFuel
  end.
Definition panic {S A} (msg : string) : M S A := fun _ => Panic msg.
Definition fault {S A} : M S A := fun _ => Fault.
Definition nofuel {S A} : M S A := fun _ => NoFuel.
Definition gets {S A} (f : S -> A) : M S A := fun s => Ok (f s) s.
Definition modify {S} (f : S -> S) : M S unit := fun s => Ok tt (f s).
Definition when {S} (b : bool) (m : M S unit) : M S unit := if b then m else ret tt.

Declare Scope xv6_scope.
Delimit Scope xv6_scope with xv6.
Notation "'let!' x ':=' m 'in' k" := (bind m (fun x => k))
  (at level 10, x pattern, m at level 100, k at level 200,
   format "'[v' 'let!'  x  ':='  m  'in' '//' k ']'") : xv6_scope.
Notation "m ;; k" := (bind m (fun _ => k))
  (at level 100, k at level 200, right associativity) : xv6_scope.
#[global] Open Scope xv6_scope.

(** Total-correctness triples: from every state of [P] the computation
    returns, and the value and the final state satisfy [Q]. *)
Definition hoare {S A} (P : S -> Prop) (m : M S A) (Q : A -> S -> Prop) : Prop :=
  forall s, P s -> exists a s', m s = Ok a s' /\ Q a s'.

Section MonadLemmas.
Context {S : Type}.

Lemma bind_ok {A B} (m : M S A) (k : A -> M S B) s a s' :
  m s = Ok a s' -> bind m k s = k a s'.
Proof. unfold bind. intros ->. reflexivity. Qed.

Lemma bind_panic {A B} (m : M S A) (k : A -> M S B) s msg :
  m s = Panic msg -> bind m k s = Panic msg.
Proof. unfold bind. intros ->. reflexivity. Qed.

Lemma bind_inv {A B} (m : M S A) (k : A -> M S B) s b s' :
  bind m k s = Ok b s' -> exists a s1, m s = Ok a s1 /\ k a s1 = Ok b s'.
Proof. unfold bind. destruct (m s); try discriminate. eauto. Qed.

Lemma bind_andthen {A B} (m : M S A) (k : A -> M S B) s : bind m k s = andthen (m s) k.
Proof. unfold bind. destruct (m s); reflexivity. Qed.

Lemma andthen_assoc {A B C} (f : A -> M S B) (g : B -> M S C) (r : result S A) :
  andthen (andthen r f) g = andthen r (fun a => bind (f a) g).
Proof.
  induction r as [a s|msg| | |s k IH|]; cbn; try reflexivity.
  - symmetry. apply bind_andthen.
  - f_equal. extensionality s'. apply IH.
Qed.

Lemma bind_assoc {A B C} (m : M S A) (f : A -> M S B) (g : B -> M S C) s :
  bind (bind m f) g s = bind m (fun a => bind (f a) g) s.
Proof. rewrite !bind_andthen. apply andthen_assoc. Qed.

Lemma bind_ext {A B} (m : M S A) (k k' : A -> M S B) s :
  (forall a s', k a s' = k' a s') -> bind m k s = bind m k' s.
Proof.
  intros E. f_equal. extensionality a. extensionality s'. apply E.
Qed.

Lemma hoare_ret {A} (P : S -> Prop) (a : A) Q :
  (forall s, P s -> Q a s) -> hoare P (ret a) Q.
Proof. intros H s Hs. exists a, s. split; auto. Qed.

Lemma hoare_bind {A B} P (m : M S A) (k : A -> M S B) R Q :
  hoare P m R -> (forall a, hoare (R a) (k a) Q) -> hoare P (bind m k) Q.
Proof.
  intros Hm Hk s Hs. destruct (Hm s Hs) as (a & s1 & E & HR).
  destruct (Hk a s1 HR) as (b & s2 & E2 & HQ).
  exists b, s2. split; [|assumption]. erewrite bind_ok; eauto.
Qed.

Lemma hoare_conseq {A} (P P' : S -> Prop) (m : M S A) (Q Q' : A -> S -> Prop) :
  hoare P' m Q' -> (forall s, P s -> P' s) -> (forall a s, Q' a s -> Q a s) -> hoare P m Q.
Proof.
  intros H HP HQ s Hs. destruct (H s (HP s Hs)) as (a & s' & E & HQ').
  exists a, s'. auto.
Qed.

Lemma hoare_elim {A} P (m : M S A) Q s :
  hoare P m Q -> P s -> exists a s', m s = Ok a s' /\ Q a s'.
Proof. unfold hoare. auto. Qed.

(** A lower triple pins one start state; the frame-style proofs use it. *)
Lemma hoare_point {A} (P : S -> Prop) (m : M S A) Q :
  (forall s, P s -> hoare (eq s) m Q) -> hoare P m Q.
Proof. intros H s Hs. apply (H s Hs s eq_refl). Qed.
End MonadLemmas.

(** ** Function update, used for state indexed by identifiers *)

Definition fupd {K V} `{EqDecision K} (f : K -> V) (k : K) (v : V) : K -> V :=
  fun x => if decide (x = k) then v else f x.

Section FunctionUpdate.
Context {K V : Type} `{EqDecision K}.
Implicit Types (f : K -> V).

Lemma fupd_eq f k v : fupd f k v k = v.
Proof. unfold fupd. rewrite decide_True; auto. Qed.

Lemma fupd_ne f k v x : x <> k -> fupd f k v x = f x.
Proof. unfold fupd. intros. rewrite decide_False; auto. Qed.

Lemma fupd_fupd f k v w : fupd (fupd f k v) k w = fupd f k w.
Proof. extensionality x. unfold fupd. case_decide; auto. Qed.

Lemma fupd_id f k v : f k = v -> fupd f k v = f.
Proof. intros <-. extensionality x. unfold fupd. case_decide; subst; auto. Qed.
End FunctionUpdate.

(** ** Automation

    [run] executes a monadic computation symbolically: it unfolds the monad
    and rewrites with the hypotheses that give the outcome of a call. *)

Create HintDb xv6.
Create Rewrite HintDb xv6.
#[export] Hint Rewrite @fupd_eq @fupd_fupd w32_idem w32_add_l w32_sub_l : xv6.
#[export] Hint Resolve w32_range : xv6.

Ltac run := cbn [bind ret panic fault nofuel gets modify when].
Ltac mstep H := erewrite (bind_ok _ _ _ _ _ H); cbn beta iota.
Ltac invc H := inversion H; subst; clear H.

Lemma if_true {A} (b : bool) (x y : A) : b = true -> (if b then x else y) = x.
Proof. intros ->. reflexivity. Qed.

Lemma if_false {A} (b : bool) (x y : A) : b = false -> (if b then x else y) = y.
Proof. intros ->. reflexivity. Qed.
