(* ===== verification/Mem.v ===== *)
(** * Byte memory and the kernel's string routines

    Memory is a function from 32-bit addresses to bytes.  The kernel reaches
    all physical memory through the window at [KERNBASE], so kernel virtual
    addresses are the addresses of this memory.  Module [Mem] is
    solution/string.c with the two string instructions of solution/x86.h;
    its theorems relate each routine to a one-shot specification on memory. *)

From Stdlib Require Import ZArith Lia FunctionalExtensionality.
From stdpp Require Import base list strings.
From S2P Require Import Prelude.

(** ** Bytes and little-endian words *)

Definition mem : Type := Z -> Z.

Definition load8 (m : mem) (a : Z) : Z := m a mod 256.
Definition store8 (m : mem) (a v : Z) : mem := fun x => if x =? a then v mod 256 else m x.

(** Byte [i] of a word. *)
Definition byte_of (w i : Z) : Z := (w / 2 ^ (8 * i)) mod 256.

Definition load32 (m : mem) (a : Z) : Z :=
  load8 m a + 256 * load8 m (a + 1) + 65536 * load8 m (a + 2) + 16777216 * load8 m (a + 3).
Definition store32 (m : mem) (a v : Z) : mem := fun x =>
  if (a <=? x) && (x <? a + 4) then byte_of v (x - a) else m x.

(** One-shot specifications of the block operations. *)
Definition fill (m : mem) (dst c n : Z) : mem := fun x =>
  if (dst <=? x) && (x <? dst + n) then c mod 256 else m x.
Definition mcopy (m : mem) (dst src n : Z) : mem := fun x =>
  if (dst <=? x) && (x <? dst + n) then load8 m (src + (x - dst)) else m x.

Ltac zcase :=
  repeat match goal with
  | |- context [?a <=? ?b] => destruct (Z.leb_spec a b)
  | |- context [?a <? ?b] => destruct (Z.ltb_spec a b)
  | |- context [?a =? ?b] => destruct (Z.eqb_spec a b)
  end; cbn [andb orb negb]; try lia; try reflexivity.

Section Words.
Implicit Types (m : mem).

Lemma load8_range m a : 0 <= load8 m a < 256.
Proof. unfold load8. apply Z.mod_pos_bound. lia. Qed.

Lemma load32_range m a : u32 (load32 m a).
Proof.
  unfold u32, load32.
  pose proof (load8_range m a). pose proof (load8_range m (a + 1)).
  pose proof (load8_range m (a + 2)). pose proof (load8_range m (a + 3)). lia.
Qed.

Lemma load8_store8_same m a v : load8 (store8 m a v) a = v mod 256.
Proof. unfold load8, store8. rewrite Z.eqb_refl. apply Z.mod_mod. lia. Qed.

Lemma load8_store8_ne m a v x : x <> a -> load8 (store8 m a v) x = load8 m x.
Proof. unfold load8, store8. intros. zcase. Qed.

Lemma load8_store32_ne m a v x : x < a \/ a + 4 <= x -> load8 (store32 m a v) x = load8 m x.
Proof. unfold load8, store32. intros. zcase. Qed.

Lemma load8_store32_in m a v i : 0 <= i < 4 -> load8 (store32 m a v) (a + i) = byte_of v i.
Proof.
  unfold load8, store32. intros. zcase.
  replace (a + i - a) with i by lia. unfold byte_of. apply Z.mod_mod. lia.
Qed.

Lemma bytes_word v :
  byte_of v 0 + 256 * byte_of v 1 + 65536 * byte_of v 2 + 16777216 * byte_of v 3 = w32 v.
Proof.
  unfold byte_of, w32. cbn [Z.mul Z.pow Z.pow_pos Pos.iter Pos.mul].
  rewrite Z.div_1_r. zdm.
Qed.

Lemma load32_store32_same m a v : load32 (store32 m a v) a = w32 v.
Proof.
  unfold load32. replace (load8 (store32 m a v) a) with (load8 (store32 m a v) (a + 0))
    by (f_equal; lia).
  rewrite !load8_store32_in by lia. apply bytes_word.
Qed.

Lemma load32_store32_disj m a v b :
  b + 4 <= a \/ a + 4 <= b -> load32 (store32 m a v) b = load32 m b.
Proof. intros. unfold load32. rewrite !load8_store32_ne by lia. reflexivity. Qed.

(** Two memories that agree on four bytes hold the same word there. *)
Lemma load32_ext m m' a b :
  (forall i, 0 <= i < 4 -> load8 m (a + i) = load8 m' (b + i)) -> load32 m a = load32 m' b.
Proof.
  intros H. unfold load32. specialize (H 0) as H0. rewrite !Z.add_0_r in H0.
  rewrite H0, !H by lia. reflexivity.
Qed.

Lemma load8_fill_in m d c n x : d <= x < d + n -> load8 (fill m d c n) x = c mod 256.
Proof. unfold load8, fill. intros. zcase. apply Z.mod_mod. lia. Qed.

Lemma load8_fill_out m d c n x : x < d \/ d + n <= x -> load8 (fill m d c n) x = load8 m x.
Proof. unfold load8, fill. intros. zcase. Qed.

Lemma load32_fill_out m d c n x :
  x + 4 <= d \/ d + n <= x -> load32 (fill m d c n) x = load32 m x.
Proof. intros. apply load32_ext. intros. apply load8_fill_out. lia. Qed.

Lemma load32_fill_zero m d n x :
  d <= x -> x + 4 <= d + n -> load32 (fill m d 0 n) x = 0.
Proof. intros. unfold load32. rewrite !load8_fill_in by lia. reflexivity. Qed.

Lemma load8_mcopy_in m d s n x : d <= x < d + n -> load8 (mcopy m d s n) x = load8 m (s + (x - d)).
Proof. unfold mcopy. intros. unfold load8 at 1. zcase. unfold load8. apply Z.mod_mod. lia. Qed.

Lemma load8_mcopy_out m d s n x : x < d \/ d + n <= x -> load8 (mcopy m d s n) x = load8 m x.
Proof. unfold load8, mcopy. intros. zcase. Qed.

Lemma load32_mcopy_in m d s n x :
  d <= x -> x + 4 <= d + n -> load32 (mcopy m d s n) x = load32 m (s + (x - d)).
Proof.
  intros. apply load32_ext. intros. rewrite load8_mcopy_in by lia. f_equal. lia.
Qed.

Lemma load32_mcopy_out m d s n x :
  x + 4 <= d \/ d + n <= x -> load32 (mcopy m d s n) x = load32 m x.
Proof. intros. apply load32_ext. intros. apply load8_mcopy_out. lia. Qed.
End Words.

#[export] Hint Resolve load8_range load32_range : xv6.

(** ** solution/string.c *)

Module Mem.

(** x86.h: [rep stosb] and [rep stosl], forward (the direction flag is clear). *)
Definition stosb (m : mem) (addr data cnt : Z) : mem := fun x =>
  if (addr <=? x) && (x <? addr + cnt) then data mod 256 else m x.
Definition stosl (m : mem) (addr data cnt : Z) : mem := fun x =>
  if (addr <=? x) && (x <? addr + 4 * cnt) then byte_of data ((x - addr) mod 4) else m x.

Definition memset (m : mem) (dst c n : Z) : mem :=
  if (Z.rem (s32 dst) 4 =? 0) && (n mod 4 =? 0) then
    let c := Z.land c 255 in
    stosl m dst
      (w32 (Z.lor (Z.lor (Z.lor (Z.shiftl c 24) (Z.shiftl c 16)) (Z.shiftl c 8)) c)) (n / 4)
  else stosb m dst c n.

(** The loop of [memcmp], [n] bytes to go. *)
Fixpoint memcmp_loop (m : mem) (s1 s2 : Z) (n : nat) : Z :=
  match n with
  | O => 0
  | S n' =>
      if negb (load8 m s1 =? load8 m s2) then load8 m s1 - load8 m s2
      else memcmp_loop m (s1 + 1) (s2 + 1) n'
  end.
Definition memcmp (m : mem) (v1 v2 n : Z) : Z := memcmp_loop m v1 v2 (Z.to_nat n).

Fixpoint copy_fwd (m : mem) (d s : Z) (n : nat) : mem :=
  match n with
  | O => m
  | S n' => copy_fwd (store8 m d (load8 m s)) (d + 1) (s + 1) n'
  end.
Fixpoint copy_bwd (m : mem) (d s : Z) (n : nat) : mem :=
  match n with
  | O => m
  | S n' => copy_bwd (store8 m (d - 1) (load8 m (s - 1))) (d - 1) (s - 1) n'
  end.
Definition memmove (m : mem) (dst src n : Z) : mem :=
  if (src <? dst) && (dst <? w32 (src + n))
  then copy_bwd m (dst + n) (src + n) (Z.to_nat n)
  else copy_fwd m dst src (Z.to_nat n).

Fixpoint strncmp_loop (m : mem) (p q : Z) (n : nat) : Z :=
  match n with
  | O => 0
  | S n' =>
      if negb (load8 m p =? 0) && (load8 m p =? load8 m q)
      then strncmp_loop m (p + 1) (q + 1) n'
      else load8 m p - load8 m q
  end.
Definition strncmp (m : mem) (p q n : Z) : Z := strncmp_loop m p q (Z.to_nat n).

(** The second loop of [strncpy]: pad with NULs. *)
Fixpoint pad_zero (m : mem) (s : Z) (n : nat) : mem :=
  match n with
  | O => m
  | S n' => pad_zero (store8 m s 0) (s + 1) n'
  end.
Fixpoint strncpy_loop (m : mem) (s t : Z) (n : nat) : mem :=
  match n with
  | O => m
  | S n' =>
      let c := load8 m t in
      let m' := store8 m s c in
      if c =? 0 then pad_zero m' (s + 1) n' else strncpy_loop m' (s + 1) (t + 1) n'
  end.
Definition strncpy (m : mem) (s t n : Z) : mem := strncpy_loop m s t (Z.to_nat n).

(** [safestrcpy]: at most [n-1] bytes, then a NUL. *)
Fixpoint safestrcpy_loop (m : mem) (s t : Z) (n : nat) : mem :=
  match n with
  | O => store8 m s 0
  | S n' =>
      let c := load8 m t in
      let m' := store8 m s c in
      if c =? 0 then store8 m' (s + 1) 0 else safestrcpy_loop m' (s + 1) (t + 1) n'
  end.
Definition safestrcpy (m : mem) (s t n : Z) : mem :=
  if n <=? 0 then m else safestrcpy_loop m s t (Z.to_nat (n - 1)).

(** [strlen] with a bound on the bytes it may look at; [None] when no NUL
    is found within the bound. *)
Fixpoint strlen_loop (m : mem) (s n : Z) (fuel : nat) : option Z :=
  match fuel with
  | O => None
  | S f => if load8 m (s + n) =? 0 then Some n else strlen_loop m s (n + 1) f
  end.
Definition strlen (m : mem) (s : Z) (fuel : nat) : option Z := strlen_loop m s 0 fuel.

(** The bytes of the C string at [t], at most [n] of them. *)
Fixpoint cstr (m : mem) (t : Z) (n : nat) : list Z :=
  match n with
  | O => []
  | S n' => if load8 m t =? 0 then [] else load8 m t :: cstr m (t + 1) n'
  end.

End Mem.

Import Mem.

(** ** What the string routines compute *)

Section StringFacts.
Implicit Types (m : mem).

Lemma replicate_byte c i : 0 <= c < 256 -> 0 <= i < 4 -> byte_of (c * 16843009) i = c.
Proof.
  intros Hc Hi. unfold byte_of.
  assert (i = 0 \/ i = 1 \/ i = 2 \/ i = 3) as [-> | [-> | [-> | ->]]] by lia;
    cbn [Z.mul Z.pow Z.pow_pos Pos.iter Pos.mul]; zdm.
Qed.

Lemma splat_word c :
  0 <= c < 256 ->
  w32 (Z.lor (Z.lor (Z.lor (Z.shiftl c 24) (Z.shiftl c 16)) (Z.shiftl c 8)) c) = c * 16843009.
Proof.
  intros Hc. rewrite !Z.shiftl_mul_pow2 by lia.
  rewrite (lor_low_add (c * 2 ^ 24) (c * 2 ^ 16) 24) by (try apply Z_mod_mult; lia).
  rewrite (lor_low_add (_ + _) (c * 2 ^ 8) 16) by (try lia; zdm).
  rewrite (lor_low_add (_ + _) c 8) by (try lia; zdm).
  rewrite w32_small; [lia | unfold u32; lia].
Qed.

Lemma memset_fill m dst c n :
  u32 dst -> 0 <= n -> memset m dst c n = fill m dst c n.
Proof.
  intros Hd Hn. unfold memset.
  destruct ((Z.rem (s32 dst) 4 =? 0) && (n mod 4 =? 0)) eqn:E; [|reflexivity].
  apply andb_true_iff in E as [_ En]. apply Z.eqb_eq in En.
  assert (Hc : Z.land c 255 = c mod 256) by (apply (Z.land_ones c 8); lia).
  assert (0 <= c mod 256 < 256) by (apply Z.mod_pos_bound; lia).
  cbv zeta. rewrite Hc, splat_word by assumption.
  extensionality x. unfold stosl, fill.
  replace (4 * (n / 4)) with n by (pose proof (Z.div_mod n 4); lia).
  destruct (_ && _); [|reflexivity].
  apply replicate_byte; [assumption|]. apply Z.mod_pos_bound; lia.
Qed.

Lemma copy_fwd_spec n : forall m d s,
  d <= s \/ s + Z.of_nat n <= d -> copy_fwd m d s n = mcopy m d s (Z.of_nat n).
Proof.
  induction n as [|n IH]; intros m d s H; cbn [copy_fwd].
  - extensionality x. unfold mcopy. zcase.
  - rewrite IH by lia. extensionality x. unfold mcopy.
    rewrite !Nat2Z.inj_succ. unfold store8 at 2.
    zcase; subst; try reflexivity; try (f_equal; lia).
    + rewrite load8_store8_ne by lia. f_equal. lia.
    + replace (s + (d - d)) with s by lia.
      pose proof (load8_range m s). apply Z.mod_small; lia.
Qed.

Lemma copy_bwd_spec n : forall m d s,
  s <= d -> copy_bwd m d s n = mcopy m (d - Z.of_nat n) (s - Z.of_nat n) (Z.of_nat n).
Proof.
  induction n as [|n IH]; intros m d s H; cbn [copy_bwd].
  - extensionality x. unfold mcopy. zcase.
  - rewrite IH by lia. extensionality x. unfold mcopy.
    rewrite !Nat2Z.inj_succ. unfold store8 at 2.
    zcase; subst; try reflexivity.
    + rewrite load8_store8_ne by lia. f_equal. lia.
    + replace (s - Z.succ (Z.of_nat n) + (d - 1 - (d - Z.succ (Z.of_nat n)))) with (s - 1) by lia.
      pose proof (load8_range m (s - 1)). apply Z.mod_small; lia.
Qed.

Lemma memmove_mcopy m dst src n :
  u32 dst -> u32 src -> 0 <= n -> src + n < W32 -> memmove m dst src n = mcopy m dst src n.
Proof.
  unfold u32, W32. intros Hd Hs Hn Hb. unfold memmove. rewrite w32_small by (unfold u32; lia).
  destruct ((src <? dst) && (dst <? src + n)) eqn:E.
  - apply andb_true_iff in E as [?%Z.ltb_lt ?%Z.ltb_lt].
    rewrite copy_bwd_spec by lia. rewrite !Z2Nat.id by lia. f_equal; lia.
  - apply andb_false_iff in E. rewrite copy_fwd_spec; rewrite Z2Nat.id by lia; [reflexivity|].
    destruct E as [?%Z.ltb_ge | ?%Z.ltb_ge]; lia.
Qed.

Lemma strncmp_loop_cstr n : forall m p q,
  strncmp_loop m p q n = 0 <-> cstr m p n = cstr m q n.
Proof.
  induction n as [|n IH]; intros m p q; cbn [strncmp_loop cstr]; [tauto|].
  pose proof (load8_range m p). pose proof (load8_range m q).
  destruct (Z.eqb_spec (load8 m p) 0) as [Ep | Ep]; cbn [negb andb].
  - destruct (Z.eqb_spec (load8 m q) 0); split; intros; try lia; try congruence.
  - destruct (Z.eqb_spec (load8 m p) (load8 m q)) as [Eq | Eq].
    + rewrite <- Eq. rewrite (proj2 (Z.eqb_neq _ 0)) by assumption.
      rewrite IH. split; congruence.
    + destruct (Z.eqb_spec (load8 m q) 0); split; intros; try lia; congruence.
Qed.

Lemma memcmp_loop_zero n : forall m p q,
  memcmp_loop m p q n = 0 <-> forall i, 0 <= i < Z.of_nat n -> load8 m (p + i) = load8 m (q + i).
Proof.
  induction n as [|n IH]; intros m p q; cbn [memcmp_loop].
  - split; [intros; lia | reflexivity].
  - destruct (Z.eqb_spec (load8 m p) (load8 m q)) as [E | E]; cbn [negb].
    + rewrite IH. split; intros H i Hi.
      * destruct (Z.eq_dec i 0) as [-> | ]; [rewrite !Z.add_0_r; exact E|].
        specialize (H (i - 1)). replace (p + i) with (p + 1 + (i - 1)) by lia.
        replace (q + i) with (q + 1 + (i - 1)) by lia. apply H. lia.
      * specialize (H (i + 1)). replace (p + 1 + i) with (p + (i + 1)) by lia.
        replace (q + 1 + i) with (q + (i + 1)) by lia. apply H. lia.
    + split; intros H; [lia|]. exfalso. apply E. specialize (H 0).
      rewrite !Z.add_0_r in H. apply H. lia.
Qed.

Lemma load8_pad_zero n : forall m s x,
  load8 (pad_zero m s n) x = if (s <=? x) && (x <? s + Z.of_nat n) then 0 else load8 m x.
Proof.
  induction n as [|n IH]; intros m s x; cbn [pad_zero].
  - zcase.
  - rewrite IH. destruct (Z.eq_dec x s) as [-> | ].
    + rewrite load8_store8_same. zcase.
    + rewrite load8_store8_ne by assumption. zcase.
Qed.

Lemma cstr_ext n : forall m m' t,
  (forall x, t <= x < t + Z.of_nat n -> load8 m x = load8 m' x) -> cstr m t n = cstr m' t n.
Proof.
  induction n as [|n IH]; intros m m' t H; cbn [cstr]; [reflexivity|].
  rewrite (H t) by lia. rewrite (IH m m' (t + 1)) by (intros; apply H; lia). reflexivity.
Qed.

(** The bytes [strncpy] leaves at [s + i]: the string, then NULs. *)
Lemma strncpy_loop_bytes n : forall m s t x,
  s + Z.of_nat n <= t \/ t + Z.of_nat n <= s ->
  load8 (strncpy_loop m s t n) x =
    if (s <=? x) && (x <? s + Z.of_nat n)
    then nth (Z.to_nat (x - s)) (cstr m t n) 0 else load8 m x.
Proof.
  induction n as [|n IH]; intros m s t x H; cbn [strncpy_loop cstr].
  - zcase.
  - cbv zeta. destruct (Z.eqb_spec (load8 m t) 0) as [E | E].
    + rewrite load8_pad_zero. destruct (Z.eq_dec x s) as [-> | ].
      * rewrite load8_store8_same, E. replace (Z.to_nat (s - s)) with 0%nat by lia. cbn [nth]. zcase.
      * rewrite load8_store8_ne by assumption. destruct (Z.to_nat (x - s)); cbn [nth]; zcase.
    + rewrite IH by lia. rewrite (cstr_ext n _ m (t + 1))
        by (intros; apply load8_store8_ne; lia).
      destruct (Z.eq_dec x s) as [-> | ].
      * rewrite load8_store8_same. replace (Z.to_nat (s - s)) with 0%nat by lia. cbn [nth].
        pose proof (load8_range m t). rewrite Z.mod_small by lia. zcase.
      * rewrite load8_store8_ne by assumption. zcase.
        replace (Z.to_nat (x - s)) with (S (Z.to_nat (x - (s + 1)))) by lia. reflexivity.
Qed.

Lemma safestrcpy_loop_terminated n : forall m s t,
  exists i, 0 <= i <= Z.of_nat n /\ load8 (safestrcpy_loop m s t n) (s + i) = 0.
Proof.
  induction n as [|n IH]; intros m s t; cbn [safestrcpy_loop].
  - exists 0. rewrite Z.add_0_r, load8_store8_same. split; [lia | reflexivity].
  - cbv zeta. destruct (Z.eqb_spec (load8 m t) 0) as [E | E].
    + exists 1. rewrite load8_store8_same. split; [lia | reflexivity].
    + destruct (IH (store8 m s (load8 m t)) (s + 1) (t + 1)) as (i & Hi & Hz).
      exists (i + 1). split; [lia|]. replace (s + (i + 1)) with (s + 1 + i) by lia. exact Hz.
Qed.

Lemma safestrcpy_loop_frame n : forall m s t x,
  x < s \/ s + Z.of_nat n < x -> load8 (safestrcpy_loop m s t n) x = load8 m x.
Proof.
  induction n as [|n IH]; intros m s t x H; cbn [safestrcpy_loop].
  - apply load8_store8_ne. lia.
  - cbv zeta. destruct (load8 m t =? 0).
    + rewrite !load8_store8_ne by lia. reflexivity.
    + rewrite IH by lia. apply load8_store8_ne. lia.
Qed.

Lemma strlen_loop_spec fuel : forall m s n r,
  strlen_loop m s n fuel = Some r <->
  n <= r < n + Z.of_nat fuel /\ load8 m (s + r) = 0 /\
  (forall i, n <= i < r -> load8 m (s + i) <> 0).
Proof.
  induction fuel as [|f IH]; intros m s n r; cbn [strlen_loop].
  - split; [discriminate | lia].
  - destruct (Z.eqb_spec (load8 m (s + n)) 0) as [E | E].
    + split.
      * intros [= <-]. repeat split; [lia | lia | exact E | intros; lia].
      * intros (Hr & Hz & Hn). destruct (Z.eq_dec n r) as [-> | Hne]; [reflexivity|].
        exfalso. apply (Hn n); [lia | exact E].
    + rewrite IH. split; intros (Hr & Hz & Hn).
      * repeat split; try lia; auto. intros i Hi.
        destruct (Z.eq_dec i n) as [-> | ]; [exact E | apply Hn; lia].
      * repeat split; auto; [|lia|intros; apply Hn; lia].
        destruct (Z.eq_dec n r) as [-> | ]; [congruence | lia].
Qed.

End StringFacts.

(** ** Results *)

(** string.c, [memmove]: the [n] destination bytes are the source bytes
    as they were before the call, whether or not the two ranges overlap, and
    no other byte changes. *)
Lemma memmove_copies (m : mem) dst src n x :
  u32 dst -> u32 src -> 0 <= n -> src + n < W32 ->
  load8 (memmove m dst src n) x =
    if (dst <=? x) && (x <? dst + n) then load8 m (src + (x - dst)) else load8 m x.
Proof.
  intros Hd Hs Hn Hb. rewrite memmove_mcopy by assumption.
  destruct ((dst <=? x) && (x <? dst + n)) eqn:E.
  - apply andb_prop in E as [E1%Z.leb_le E2%Z.ltb_lt]. apply load8_mcopy_in; lia.
  - apply load8_mcopy_out. apply andb_false_iff in E as [E%Z.leb_gt | E%Z.ltb_ge]; lia.
Qed.

(** Overlapping ranges, the destination two bytes above the source. *)
Lemma memmove_copies_witness :
  load8 (memmove (fun x => x) 12 10 4) 14 = 12 /\ load8 (memmove (fun x => x) 12 10 4) 16 = 16.
Proof.
  split.
  - rewrite (memmove_copies (fun x => x) 12 10 4 14) by (unfold u32, W32; lia). reflexivity.
  - rewrite (memmove_copies (fun x => x) 12 10 4 16) by (unfold u32, W32; lia). reflexivity.
Defined.

Lemma cstr_nth n : forall m t l,
  (forall i, (i < n)%nat -> load8 m (t + Z.of_nat i) = nth i l 0) -> Forall (fun c => c <> 0) l ->
  (length l <= n)%nat -> cstr m t n = l.
Proof.
  induction n as [|n IH]; intros m t l Hb Hl Hn; cbn [cstr].
  - destruct l; [reflexivity | cbn in Hn; lia].
  - pose proof (Hb 0%nat ltac:(lia)) as H0. rewrite Z.add_0_r in H0. rewrite H0.
    destruct l as [|c l]; cbn [nth]; [reflexivity|]. invc Hl. rewrite (proj2 (Z.eqb_neq c 0)) by assumption.
    f_equal. apply IH; [|assumption | cbn in Hn; lia].
    intros i Hi. specialize (Hb (S i) ltac:(lia)). cbn [nth] in Hb. rewrite <- Hb. f_equal. lia.
Qed.

Lemma cstr_nonzero n : forall m t, Forall (fun c => c <> 0) (cstr m t n) /\ (length (cstr m t n) <= n)%nat.
Proof.
  induction n as [|n IH]; intros m t; cbn [cstr]; [split; [constructor | cbn; lia]|].
  destruct (Z.eqb_spec (load8 m t) 0); [split; [constructor | cbn; lia]|].
  destruct (IH m (t + 1)). split; [constructor; assumption | cbn; lia].
Qed.

(** string.c, [strncpy] and [strncmp]: [strncmp] returns 0 exactly when
    the two C strings agree up to [n] bytes.  After [strncpy] the destination
    field holds the source string, padded with NULs up to [n] bytes, so that
    [strncmp] finds the two equal; nothing outside the field changes.  This is
    how directory entries are written and searched. *)
Lemma strncpy_strncmp (m : mem) s t n p q :
  0 <= n -> s + n <= t \/ t + n <= s ->
  (strncmp m p q n = 0 <-> cstr m p (Z.to_nat n) = cstr m q (Z.to_nat n)) /\
  strncmp (strncpy m s t n) s t n = 0 /\
  (forall x, x < s \/ s + n <= x -> load8 (strncpy m s t n) x = load8 m x) /\
  (forall i, 0 <= i < n -> load8 (strncpy m s t n) (s + i) = nth (Z.to_nat i) (cstr m t (Z.to_nat n)) 0).
Proof.
  intros Hn Hd. unfold strncmp, strncpy. set (k := Z.to_nat n).
  assert (Hk : Z.of_nat k = n) by (unfold k; lia).
  assert (B : forall x, load8 (strncpy_loop m s t k) x =
    if (s <=? x) && (x <? s + n) then nth (Z.to_nat (x - s)) (cstr m t k) 0 else load8 m x)
    by (intros x; rewrite <- Hk; apply strncpy_loop_bytes; lia).
  split; [apply strncmp_loop_cstr|]. split; [|split].
  - apply strncmp_loop_cstr. rewrite (cstr_ext k (strncpy_loop m s t k) m t).
    + apply cstr_nth; [|apply cstr_nonzero | apply cstr_nonzero].
      intros i Hi. rewrite B. zcase. f_equal. lia.
    + intros x Hx. rewrite B. zcase.
  - intros x Hx. rewrite B. zcase.
  - intros i Hi. rewrite B. zcase. f_equal. lia.
Qed.

Lemma strncpy_strncmp_witness :
  strncmp (strncpy (fun x => if x <? 32 then 65 else 0) 100 30 14) 100 30 14 = 0.
Proof.
  apply (strncpy_strncmp (fun x => if x <? 32 then 65 else 0) 100 30 14 0 0); lia.
Defined.
