(* ===== verification/Mmu.v ===== *)
(** * Address arithmetic: solution/mmu.h, solution/memlayout.h, solution/param.h

    The macros of the two headers on 32-bit values, and the facts about
    them that the allocator and page-table code rely on. *)

From Stdlib Require Import ZArith Lia.
From stdpp Require Import base.
From S2P Require Import Prelude.

(** ** memlayout.h *)

Definition EXTMEM : Z := 0x100000.
Definition PHYSTOP : Z := 0xE000000.
Definition DEVSPACE : Z := 0xFE000000.
Definition KERNBASE : Z := 0x80000000.
Definition KERNLINK : Z := KERNBASE + EXTMEM.
Definition V2P (a : Z) : Z := w32 (a - KERNBASE).
Definition P2V (a : Z) : Z := w32 (a + KERNBASE).
Definition HUGE_PAGE_START : Z := 0x1E000000.
Definition HUGE_PAGE_END : Z := 0x3E000000.
Definition HUGE_PAGE_SIZE : Z := 0x400000.

(** proc.h *)
Definition HUGE_VA_OFFSET : Z := 0x1E000000.

(** ** mmu.h *)

Definition PGSIZE : Z := 4096.
Definition NPDENTRIES : Z := 1024.
Definition NPTENTRIES : Z := 1024.
Definition PTXSHIFT : Z := 12.
Definition PDXSHIFT : Z := 22.

Definition PDX (va : Z) : Z := Z.land (Z.shiftr va PDXSHIFT) 0x3FF.
Definition PTX (va : Z) : Z := Z.land (Z.shiftr va PTXSHIFT) 0x3FF.
Definition PGADDR (d t o : Z) : Z :=
  w32 (Z.lor (Z.lor (Z.shiftl d PDXSHIFT) (Z.shiftl t PTXSHIFT)) o).

Definition PGROUNDUP (sz : Z) : Z := Z.land (w32 (sz + PGSIZE - 1)) (w32 (Z.lnot (PGSIZE - 1))).
Definition PGROUNDDOWN (a : Z) : Z := Z.land a (w32 (Z.lnot (PGSIZE - 1))).
Definition HUGEPGROUNDUP (sz : Z) : Z :=
  Z.land (w32 (sz + Z.shiftl 1 22 - 1)) (w32 (Z.lnot (Z.shiftl 1 22 - 1))).
Definition HUGEPGROUNDDOWN (a : Z) : Z := Z.land a (w32 (Z.lnot (Z.shiftl 1 22 - 1))).

Definition PTE_P : Z := 0x001.
Definition PTE_W : Z := 0x002.
Definition PTE_U : Z := 0x004.
Definition PTE_PS : Z := 0x080.

Definition PTE_ADDR (pte : Z) : Z := Z.land pte (w32 (Z.lnot 0xFFF)).
Definition PTE_FLAGS (pte : Z) : Z := Z.land pte 0xFFF.

(** The C test [x & FLAG]. *)
Definition has (x flag : Z) : bool := negb (Z.land x flag =? 0).

(** ** param.h *)

Definition NPROC : nat := 64.
Definition KSTACKSIZE : Z := 4096.
Definition NOFILE : nat := 16.
Definition NFILE : nat := 100.
Definition NINODE : nat := 50.
Definition NDEV : Z := 10.
Definition ROOTDEV : Z := 1.
Definition MAXARG : Z := 32.
Definition MAXOPBLOCKS : Z := 10.
Definition LOGSIZE : Z := MAXOPBLOCKS * 3.
Definition NBUF : nat := 30.
Definition FSSIZE : Z := 1000.

(** ** Facts *)

Lemma PDX_div va : u32 va -> PDX va = va / 4194304.
Proof.
  unfold u32, PDX, PDXSHIFT. intros.
  rewrite Z.shiftr_div_pow2 by lia. change (2 ^ 22) with 4194304.
  change 0x3FF with (Z.ones 10). rewrite Z.land_ones by lia. change (2 ^ 10) with 1024.
  apply Z.mod_small. zdm.
Qed.

Lemma PTX_div va : u32 va -> PTX va = va / 4096 mod 1024.
Proof.
  unfold u32, PTX, PTXSHIFT. intros.
  rewrite Z.shiftr_div_pow2 by lia. change (2 ^ 12) with 4096.
  change 0x3FF with (Z.ones 10). apply Z.land_ones. lia.
Qed.

Lemma PDX_range va : u32 va -> 0 <= PDX va < 1024.
Proof. intros. rewrite PDX_div by assumption. unfold u32 in *. zdm. Qed.

Lemma PTX_range va : u32 va -> 0 <= PTX va < 1024.
Proof. intros. rewrite PTX_div by assumption. zdm. Qed.

Lemma PGROUNDDOWN_eq a : u32 a -> PGROUNDDOWN a = a - a mod 4096.
Proof. intros. apply (land_himask a 12); [lia | assumption]. Qed.

Lemma HUGEPGROUNDDOWN_eq a : u32 a -> HUGEPGROUNDDOWN a = a - a mod 4194304.
Proof. intros. apply (land_himask a 22); [lia | assumption]. Qed.

Lemma PTE_ADDR_eq a : u32 a -> PTE_ADDR a = a - a mod 4096.
Proof. intros. apply (land_himask a 12); [lia | assumption]. Qed.

Lemma PTE_FLAGS_eq a : PTE_FLAGS a = a mod 4096.
Proof. unfold PTE_FLAGS. change 0xFFF with (Z.ones 12). apply Z.land_ones. lia. Qed.

Lemma PGROUNDUP_eq sz :
  0 <= sz <= 0xFFFFF000 -> PGROUNDUP sz = (sz + 4095) - (sz + 4095) mod 4096.
Proof.
  intros. unfold PGROUNDUP, PGSIZE. rewrite w32_small by (unfold u32; lia).
  replace (sz + 4096 - 1) with (sz + 4095) by lia.
  apply (land_himask (sz + 4095) 12); [lia | unfold u32; lia].
Qed.

Lemma HUGEPGROUNDUP_eq sz :
  0 <= sz <= 0xFFC00000 -> HUGEPGROUNDUP sz = (sz + 4194303) - (sz + 4194303) mod 4194304.
Proof.
  intros. unfold HUGEPGROUNDUP. change (Z.shiftl 1 22) with 4194304.
  rewrite w32_small by (unfold u32; lia).
  replace (sz + 4194304 - 1) with (sz + 4194303) by lia.
  apply (land_himask (sz + 4194303) 22); [lia | unfold u32; lia].
Qed.

Lemma PGROUNDUP_aligned sz : 0 <= sz <= 0xFFFFF000 -> PGROUNDUP sz mod 4096 = 0.
Proof. intros. rewrite PGROUNDUP_eq by assumption. zdm. Qed.

Lemma PGROUNDUP_bounds sz :
  0 <= sz <= 0xFFFFF000 -> sz <= PGROUNDUP sz < sz + 4096.
Proof. intros. rewrite PGROUNDUP_eq by assumption. zdm. Qed.

Lemma PGADDR_eq d t o :
  0 <= d < 1024 -> 0 <= t < 1024 -> 0 <= o < 4096 -> PGADDR d t o = d * 4194304 + t * 4096 + o.
Proof.
  intros. unfold PGADDR, PDXSHIFT, PTXSHIFT. rewrite !Z.shiftl_mul_pow2 by lia.
  rewrite (lor_low_add (d * 2 ^ 22) (t * 2 ^ 12) 22) by (try apply Z_mod_mult; lia).
  rewrite (lor_low_add _ o 12) by (try lia; zdm).
  apply w32_small. unfold u32. lia.
Qed.

Lemma va_split va : u32 va -> va = PDX va * 4194304 + PTX va * 4096 + va mod 4096.
Proof. intros. rewrite PDX_div, PTX_div by assumption. unfold u32 in *. zdm. Qed.

Lemma V2P_eq a : KERNBASE <= a < W32 -> V2P a = a - KERNBASE.
Proof. unfold V2P, KERNBASE, W32. intros. apply w32_small. unfold u32. lia. Qed.

Lemma P2V_eq a : 0 <= a < KERNBASE -> P2V a = a + KERNBASE.
Proof. unfold P2V, KERNBASE. intros. apply w32_small. unfold u32. lia. Qed.

Lemma P2V_V2P a : u32 a -> P2V (V2P a) = a.
Proof.
  intros. unfold P2V, V2P. rewrite w32_add_l.
  replace (a - KERNBASE + KERNBASE) with a by lia. apply w32_small; assumption.
Qed.

(** Testing single flag bits. *)
Lemma V2P_P2V a : u32 a -> V2P (P2V a) = a.
Proof.
  intros. unfold P2V, V2P. rewrite <- Z.add_opp_r, w32_add_l.
  replace (a + KERNBASE + - KERNBASE) with a by lia. apply w32_small; assumption.
Qed.

Lemma has_bit x k : 0 <= k -> has x (2 ^ k) = Z.testbit x k.
Proof.
  intros Hk. unfold has. destruct (Z.testbit x k) eqn:E.
  - apply negb_true_iff, Z.eqb_neq. intros H.
    assert (Z.testbit (Z.land x (2 ^ k)) k = false) as Hb by (rewrite H; apply Z.bits_0).
    rewrite Z.land_spec, E, Z.pow2_bits_true in Hb by lia. discriminate.
  - apply negb_false_iff, Z.eqb_eq. apply Z.bits_inj'. intros n Hn.
    rewrite Z.land_spec, Z.bits_0. destruct (Z.eq_dec n k) as [-> | Hne].
    + rewrite E. reflexivity.
    + rewrite Z.pow2_bits_false by congruence. apply andb_false_r.
Qed.

Lemma has_P x : has x PTE_P = Z.testbit x 0.
Proof. apply (has_bit x 0). lia. Qed.
Lemma has_W x : has x PTE_W = Z.testbit x 1.
Proof. apply (has_bit x 1). lia. Qed.
Lemma has_U x : has x PTE_U = Z.testbit x 2.
Proof. apply (has_bit x 2). lia. Qed.
Lemma has_PS x : has x PTE_PS = Z.testbit x 7.
Proof. apply (has_bit x 7). lia. Qed.

Lemma testbit_lor_aligned a f k :
  0 <= k < 12 -> a mod 4096 = 0 -> Z.testbit (Z.lor a f) k = Z.testbit f k.
Proof.
  intros Hk Ha. rewrite Z.lor_spec. rewrite <- (Z.mod_pow2_bits_low a 12 k) by lia.
  change (2 ^ 12) with 4096. rewrite Ha, Z.bits_0. reflexivity.
Qed.

(** An entry made of an aligned frame address and twelve flag bits. *)
Lemma entry_sum a f : a mod 4096 = 0 -> 0 <= f < 4096 -> Z.lor a f = a + f.
Proof. intros. apply (lor_low_add a f 12); [lia | assumption | assumption]. Qed.

Lemma PTE_ADDR_entry a f :
  u32 a -> a mod 4096 = 0 -> 0 <= f < 4096 -> PTE_ADDR (Z.lor a f) = a.
Proof.
  unfold u32. intros. rewrite entry_sum by assumption.
  rewrite PTE_ADDR_eq by (unfold u32; zdm). zdm.
Qed.

Lemma PTE_FLAGS_entry a f : a mod 4096 = 0 -> 0 <= f < 4096 -> PTE_FLAGS (Z.lor a f) = f.
Proof. intros. rewrite entry_sum, PTE_FLAGS_eq by assumption. zdm. Qed.
