(* ===== verification/Kernel.v ===== *)
(** * The kernel's data: the structures of proc.h, spinlock.h, sleeplock.h,
    file.h, fs.h, buf.h and the global variables of the .c files

    One record, [kstate], holds every global variable of the modelled kernel
    files, seen from one executing CPU.  Pointers into the static tables
    ([ptable.proc], [ftable.file], [icache.inode], [bcache.buf]) are indices;
    a null pointer is [None], or [0] for pointers into page memory. *)

From Stdlib Require Import ZArith Lia.
From stdpp Require Import base list strings gmap.
From S2P Require Import Prelude Mem Mmu.

(** ** Linker symbols

    [end] and [data] come from kernel.ld, which places [.data] on a page
    boundary above KERNLINK; the code addresses and the embedded initcode
    binary are symbols of the linked kernel.  The kernel fits in the first 4 MB, which
    is what kinit1 in main.c relies on. *)
Class Image := {
  img_end : Z;
  img_data : Z;
  img_forkret : Z;
  img_trapret : Z;
  img_initcode : Z;
  img_initcode_size : Z;
  img_data_aligned : img_data mod 4096 = 0;
  img_order : KERNLINK < img_data <= img_end;
  img_fits : img_end <= KERNBASE + 0x400000;
}.

(** ** spinlock.h, sleeplock.h *)

(** The spin locks of the modelled files.  [LPipe p] is the lock inside the
    pipe that lives in page [p]; [LInode i] and [LBuf i] are the spin locks
    inside the sleep locks of an inode and of a buffer. *)
Inductive lockid : Type :=
| LKmem | LKhugemem | LPtable | LTicks | LFtable | LIcache | LBcache | LLog | LIde | LCons
| LPipe (p : Z) | LInode (i : nat) | LBuf (i : nat).
#[export] Instance lockid_eq_dec : EqDecision lockid.
Proof. solve_decision. Defined.

Record spinlock : Type := mkSpinlock { sl_locked : Z; sl_name : string; sl_cpu : option Z }.

(** A sleep lock without its spin lock, which is found in the lock table. *)
Record sleeplock : Type := mkSleeplock { sk_locked : Z; sk_name : string; sk_pid : Z }.

(** ** mmu.h, proc.h: CPUs *)

Record segdesc : Type := mkSegdesc {
  sd_lim_15_0 : Z; sd_base_15_0 : Z; sd_base_23_16 : Z; sd_type : Z; sd_s : Z; sd_dpl : Z;
  sd_p : Z; sd_lim_19_16 : Z; sd_avl : Z; sd_rsv1 : Z; sd_db : Z; sd_g : Z; sd_base_31_24 : Z }.

(** The executing CPU: its [struct cpu] and the registers the modelled code
    reads or writes ([c_if] is FL_IF of eflags).  [c_esp0], [c_ss0] and
    [c_iomb] are the task-state fields that switchuvm sets. *)
Record cpu : Type := mkCpu {
  c_apicid : Z;
  c_ncli : Z;
  c_intena : bool;
  c_if : bool;
  c_proc : option nat;
  c_cr3 : Z;
  c_gdt : list segdesc;
  c_tss_addr : Z;
  c_esp0 : Z; c_ss0 : Z; c_iomb : Z;
  c_tr : Z }.

(** ** x86.h, proc.h: processes *)

Record trapframe : Type := mkTrapframe {
  tf_edi : Z; tf_esi : Z; tf_ebp : Z; tf_oesp : Z; tf_ebx : Z; tf_edx : Z; tf_ecx : Z; tf_eax : Z;
  tf_gs : Z; tf_fs : Z; tf_es : Z; tf_ds : Z; tf_trapno : Z; tf_err : Z; tf_eip : Z; tf_cs : Z;
  tf_eflags : Z; tf_esp : Z; tf_ss : Z }.

Inductive procstate : Type := UNUSED | EMBRYO | SLEEPING | RUNNABLE | RUNNING | ZOMBIE.
#[export] Instance procstate_eq_dec : EqDecision procstate.
Proof. solve_decision. Defined.

(** Sleep channels: the kernel addresses that processes sleep on.  A parent
    waits on its own entry of the process table, a sleep lock is its own
    channel, [ChPipeRead] and [ChPipeWrite] are [&p->nread] and [&p->nwrite]. *)
Inductive chan : Type :=
| NoChan | ChProc (i : nat) | ChTicks | ChPipeRead (p : Z) | ChPipeWrite (p : Z)
| ChSleeplock (l : lockid) | ChLog | ChBuf (i : nat) | ChInput.
#[export] Instance chan_eq_dec : EqDecision chan.
Proof. solve_decision. Defined.

(** [p_tf] is the contents of the trap frame that allocproc lays out at the
    top of the kernel stack; [p_context] is a kernel address. *)
Record proc : Type := mkProc {
  p_sz : Z;
  p_hugesz : Z;
  p_pgdir : Z;
  p_kstack : Z;
  p_state : procstate;
  p_pid : Z;
  p_parent : option nat;
  p_tf : trapframe;
  p_context : Z;
  p_chan : chan;
  p_killed : Z;
  p_ofile : list (option nat);
  p_cwd : option nat;
  p_name : list Z }.

(** ** kalloc.c *)

Record kmem_t : Type := mkKmem { km_use_lock : bool; km_freelist : Z }.
Record khugemem_t : Type := mkKhugemem { kh_use_lock : bool; kh_freehugelist : Z }.

(** ** file.h, pipe.c *)

Inductive filetype : Type := FD_NONE | FD_PIPE | FD_INODE.
#[export] Instance filetype_eq_dec : EqDecision filetype.
Proof. solve_decision. Defined.

Record file : Type := mkFile {
  f_type : filetype; f_ref : Z; f_readable : Z; f_writable : Z;
  f_pipe : Z; f_ip : option nat; f_off : Z }.

Record pipe : Type := mkPipe {
  pi_data : list Z; pi_nread : Z; pi_nwrite : Z; pi_readopen : Z; pi_writeopen : Z }.

(** ** fs.h, file.h, buf.h, log.c *)

Definition BSIZE : Z := 512.

Record superblock : Type := mkSuperblock {
  sb_size : Z; sb_nblocks : Z; sb_ninodes : Z; sb_nlog : Z;
  sb_logstart : Z; sb_inodestart : Z; sb_bmapstart : Z }.

Record inode : Type := mkInode {
  i_dev : Z; i_inum : Z; i_ref : Z; i_lock : sleeplock; i_valid : Z;
  i_type : Z; i_major : Z; i_minor : Z; i_nlink : Z; i_size : Z; i_addrs : list Z }.

(** [b_prev] and [b_next] link the buffers in LRU order; index [NBUF] is
    [bcache.head]. *)
Record buf : Type := mkBuf {
  b_flags : Z; b_dev : Z; b_blockno : Z; b_lock : sleeplock; b_refcnt : Z;
  b_prev : nat; b_next : nat; b_data : list Z }.

Record logheader : Type := mkLogheader { lh_n : Z; lh_block : list Z }.
Record log_t : Type := mkLog {
  lg_start : Z; lg_size : Z; lg_outstanding : Z; lg_committing : Z; lg_dev : Z; lg_lh : logheader }.

(** File-system state: the in-memory caches, the IDE driver and the disks.
    [fs_idequeue] is the list that [idequeue] and the [qnext] pointers form.
    [fs_disk d n] is sector [n] of disk [d]; [fs_ideerr] says whether the
    status register reports an error.  [fs_writes] is the history of disk
    writes, newest first, from which crash states are built. *)
Record fs_t : Type := mkFs {
  fs_bufs : list buf;
  fs_log : log_t;
  fs_sb : superblock;
  fs_inodes : list inode;
  fs_idequeue : list nat;
  fs_havedisk1 : Z;
  fs_ideerr : bool;
  fs_disk : Z -> Z -> list Z;
  fs_writes : list (Z * Z * list Z) }.

(** ** console.c *)

Record input_t : Type := mkInput { in_buf : list Z; in_r : Z; in_w : Z; in_e : Z }.

(** ** All of it *)

Record kstate : Type := mkK {
  k_mem : mem;
  k_cpu : cpu;
  k_apicids : list Z;
  k_locks : lockid -> spinlock;
  k_kmem : kmem_t;
  k_khugemem : khugemem_t;
  k_procs : list proc;
  k_initproc : option nat;
  k_nextpid : Z;
  k_kpgdir : Z;
  k_ticks : Z;
  k_thp : Z;
  k_out : list string;
  k_files : list file;
  k_pipes : gmap Z pipe;
  k_fs : fs_t;
  k_input : input_t }.

Definition set_mem v s := mkK v (k_cpu s) (k_apicids s) (k_locks s) (k_kmem s) (k_khugemem s) (k_procs s) (k_initproc s) (k_nextpid s) (k_kpgdir s) (k_ticks s) (k_thp s) (k_out s) (k_files s) (k_pipes s) (k_fs s) (k_input s).
Definition set_cpu v s := mkK (k_mem s) v (k_apicids s) (k_locks s) (k_kmem s) (k_khugemem s) (k_procs s) (k_initproc s) (k_nextpid s) (k_kpgdir s) (k_ticks s) (k_thp s) (k_out s) (k_files s) (k_pipes s) (k_fs s) (k_input s).
Definition set_locks v s := mkK (k_mem s) (k_cpu s) (k_apicids s) v (k_kmem s) (k_khugemem s) (k_procs s) (k_initproc s) (k_nextpid s) (k_kpgdir s) (k_ticks s) (k_thp s) (k_out s) (k_files s) (k_pipes s) (k_fs s) (k_input s).
Definition set_kmem v s := mkK (k_mem s) (k_cpu s) (k_apicids s) (k_locks s) v (k_khugemem s) (k_procs s) (k_initproc s) (k_nextpid s) (k_kpgdir s) (k_ticks s) (k_thp s) (k_out s) (k_files s) (k_pipes s) (k_fs s) (k_input s).
Definition set_khugemem v s := mkK (k_mem s) (k_cpu s) (k_apicids s) (k_locks s) (k_kmem s) v (k_procs s) (k_initproc s) (k_nextpid s) (k_kpgdir s) (k_ticks s) (k_thp s) (k_out s) (k_files s) (k_pipes s) (k_fs s) (k_input s).
Definition set_procs v s := mkK (k_mem s) (k_cpu s) (k_apicids s) (k_locks s) (k_kmem s) (k_khugemem s) v (k_initproc s) (k_nextpid s) (k_kpgdir s) (k_ticks s) (k_thp s) (k_out s) (k_files s) (k_pipes s) (k_fs s) (k_input s).
Definition set_initproc v s := mkK (k_mem s) (k_cpu s) (k_apicids s) (k_locks s) (k_kmem s) (k_khugemem s) (k_procs s) v (k_nextpid s) (k_kpgdir s) (k_ticks s) (k_thp s) (k_out s) (k_files s) (k_pipes s) (k_fs s) (k_input s).
Definition set_nextpid v s := mkK (k_mem s) (k_cpu s) (k_apicids s) (k_locks s) (k_kmem s) (k_khugemem s) (k_procs s) (k_initproc s) v (k_kpgdir s) (k_ticks s) (k_thp s) (k_out s) (k_files s) (k_pipes s) (k_fs s) (k_input s).
Definition set_kpgdir v s := mkK (k_mem s) (k_cpu s) (k_apicids s) (k_locks s) (k_kmem s) (k_khugemem s) (k_procs s) (k_initproc s) (k_nextpid s) v (k_ticks s) (k_thp s) (k_out s) (k_files s) (k_pipes s) (k_fs s) (k_input s).
Definition set_ticks v s := mkK (k_mem s) (k_cpu s) (k_apicids s) (k_locks s) (k_kmem s) (k_khugemem s) (k_procs s) (k_initproc s) (k_nextpid s) (k_kpgdir s) v (k_thp s) (k_out s) (k_files s) (k_pipes s) (k_fs s) (k_input s).
Definition set_thp v s := mkK (k_mem s) (k_cpu s) (k_apicids s) (k_locks s) (k_kmem s) (k_khugemem s) (k_procs s) (k_initproc s) (k_nextpid s) (k_kpgdir s) (k_ticks s) v (k_out s) (k_files s) (k_pipes s) (k_fs s) (k_input s).
Definition set_out v s := mkK (k_mem s) (k_cpu s) (k_apicids s) (k_locks s) (k_kmem s) (k_khugemem s) (k_procs s) (k_initproc s) (k_nextpid s) (k_kpgdir s) (k_ticks s) (k_thp s) v (k_files s) (k_pipes s) (k_fs s) (k_input s).
Definition set_files v s := mkK (k_mem s) (k_cpu s) (k_apicids s) (k_locks s) (k_kmem s) (k_khugemem s) (k_procs s) (k_initproc s) (k_nextpid s) (k_kpgdir s) (k_ticks s) (k_thp s) (k_out s) v (k_pipes s) (k_fs s) (k_input s).
Definition set_pipes v s := mkK (k_mem s) (k_cpu s) (k_apicids s) (k_locks s) (k_kmem s) (k_khugemem s) (k_procs s) (k_initproc s) (k_nextpid s) (k_kpgdir s) (k_ticks s) (k_thp s) (k_out s) (k_files s) v (k_fs s) (k_input s).
Definition set_fs v s := mkK (k_mem s) (k_cpu s) (k_apicids s) (k_locks s) (k_kmem s) (k_khugemem s) (k_procs s) (k_initproc s) (k_nextpid s) (k_kpgdir s) (k_ticks s) (k_thp s) (k_out s) (k_files s) (k_pipes s) v (k_input s).
Definition set_input v s := mkK (k_mem s) (k_cpu s) (k_apicids s) (k_locks s) (k_kmem s) (k_khugemem s) (k_procs s) (k_initproc s) (k_nextpid s) (k_kpgdir s) (k_ticks s) (k_thp s) (k_out s) (k_files s) (k_pipes s) (k_fs s) v.

Definition K (A : Type) : Type := M kstate A.

(** Console output is recorded, one entry per call. *)
Definition cprintf (msg : string) : K unit := modify (fun s => set_out (msg :: k_out s) s).

(** Loads and stores of the kernel. *)
Definition ld32 (a : Z) : K Z := gets (fun s => load32 (k_mem s) a).
Definition st32 (a v : Z) : K unit := modify (fun s => set_mem (store32 (k_mem s) a v) s).
Definition kmemset (a c n : Z) : K unit := modify (fun s => set_mem (Mem.memset (k_mem s) a c n) s).
Definition kmemmove (d a n : Z) : K unit := modify (fun s => set_mem (Mem.memmove (k_mem s) d a n) s).

(** ** The state in which main() starts

    C zero-initializes the static variables; [nextpid] starts at 1.  One CPU,
    running with interrupts masked, with the page directory of entry.S. *)

Definition zero_tf : trapframe := mkTrapframe 0 0 0 0 0 0 0 0 0 0 0 0 0 0 0 0 0 0 0.
Definition zero_seg : segdesc := mkSegdesc 0 0 0 0 0 0 0 0 0 0 0 0 0.
Definition zero_cpu (apicid : Z) : cpu :=
  mkCpu apicid 0 false false None 0 (replicate 6 zero_seg) 0 0 0 0 0.
Definition zero_proc : proc :=
  mkProc 0 0 0 0 UNUSED 0 None zero_tf 0 NoChan 0 (replicate NOFILE None) None (replicate 16 0).
Definition zero_file : file := mkFile FD_NONE 0 0 0 0 None 0.
Definition zero_sleeplock : sleeplock := mkSleeplock 0 "" 0.
Definition zero_inode : inode := mkInode 0 0 0 zero_sleeplock 0 0 0 0 0 0 (replicate 13 0).
Definition zero_buf : buf := mkBuf 0 0 0 zero_sleeplock 0 0 0 (replicate 512 0).
Definition zero_fs (disk : Z -> Z -> list Z) : fs_t :=
  mkFs (replicate (S NBUF) zero_buf) (mkLog 0 0 0 0 0 (mkLogheader 0 (replicate 30 0)))
    (mkSuperblock 0 0 0 0 0 0 0) (replicate NINODE zero_inode) [] 0 false disk [].
Definition boot_state (m : mem) (disk : Z -> Z -> list Z) : kstate :=
  mkK m (zero_cpu 0) [0] (fun _ => mkSpinlock 0 "" None) (mkKmem false 0) (mkKhugemem false 0)
    (replicate NPROC zero_proc) None 1 0 0 0 [] (replicate NFILE zero_file) ∅ (zero_fs disk)
    (mkInput (replicate 128 0) 0 0 0).

(** The symbols of the kernel that the repository's kernel.sym describes. *)
Definition build_image : Image.
Proof.
  refine {| img_end := 0x80116630; img_data := 0x80109000; img_forkret := 0x80103a80;
            img_trapret := 0x80105cb0; img_initcode := 0x8010b470; img_initcode_size := 0x2c |}.
  - reflexivity.
  - unfold KERNLINK, KERNBASE, EXTMEM. lia.
  - unfold KERNBASE. lia.
Defined.
