(* ===== verification/Spinlock.v ===== *)
(** * solution/spinlock.c, with mycpu and cpuid of solution/proc.c

    Interrupt masking is the [c_if] flag of the executing CPU.  [acquire] on a
    lock that is taken returns [Spin]: with this CPU's interrupts masked, only
    another CPU can make progress.  The debugging fields [pcs] are left out. *)

From Stdlib Require Import ZArith Lia FunctionalExtensionality.
From stdpp Require Import base list strings.
From S2P Require Import Prelude Mem Mmu Kernel.

(** ** Definitions *)

Definition set_c_if b c := mkCpu (c_apicid c) (c_ncli c) (c_intena c) b (c_proc c) (c_cr3 c) (c_gdt c) (c_tss_addr c) (c_esp0 c) (c_ss0 c) (c_iomb c) (c_tr c).
Definition set_c_ncli n c := mkCpu (c_apicid c) n (c_intena c) (c_if c) (c_proc c) (c_cr3 c) (c_gdt c) (c_tss_addr c) (c_esp0 c) (c_ss0 c) (c_iomb c) (c_tr c).
Definition set_c_intena b c := mkCpu (c_apicid c) (c_ncli c) b (c_if c) (c_proc c) (c_cr3 c) (c_gdt c) (c_tss_addr c) (c_esp0 c) (c_ss0 c) (c_iomb c) (c_tr c).

Definition upd_cpu (f : cpu -> cpu) : K unit := modify (fun s => set_cpu (f (k_cpu s)) s).

Definition cli : K unit := upd_cpu (set_c_if false).
Definition sti : K unit := upd_cpu (set_c_if true).
Definition readeflags_if : K bool := gets (fun s => c_if (k_cpu s)).

(** The [struct cpu] of this CPU: the entry of [cpus] with its APIC id. *)
Definition mycpu : K cpu :=
  let! fl := readeflags_if in
  if (fl : bool) then panic "mycpu called with interrupts enabled\n"
  else
    let! s := gets (fun s => s) in
    if existsb (Z.eqb (c_apicid (k_cpu s))) (k_apicids s) then ret (k_cpu s)
    else panic "unknown apicid\n".

(** [mycpu() - cpus]: the index of the first entry with that APIC id. *)
Fixpoint cpu_index (apicid : Z) (ids : list Z) : Z :=
  match ids with
  | [] => 0
  | a :: ids' => if a =? apicid then 0 else 1 + cpu_index apicid ids'
  end.
Definition cpuid : K Z :=
  let! c := mycpu in
  let! ids := gets k_apicids in
  ret (cpu_index (c_apicid c) ids).

(** The return addresses on the stack whose frame pointer is at [v] - 8, padded
    with zeros; the loop ends at a frame pointer outside the kernel. *)
Fixpoint callerpcs_loop (m : mem) (ebp : Z) (n : nat) : list Z :=
  match n with
  | O => []
  | S n' =>
      if (ebp =? 0) || (ebp <? KERNBASE) || (ebp =? 0xffffffff) then replicate n 0
      else load32 m (w32 (ebp + 4)) :: callerpcs_loop m (load32 m ebp) n'
  end.
Definition getcallerpcs (v : Z) : K (list Z) := gets (fun s => callerpcs_loop (k_mem s) (w32 (v - 8)) 10).

Definition pushcli : K unit :=
  let! eflags := readeflags_if in
  cli ;;
  let! c := mycpu in
  when (c_ncli c =? 0) (upd_cpu (set_c_intena eflags)) ;;
  upd_cpu (fun c => set_c_ncli (c_ncli c + 1) c).

Definition popcli : K unit :=
  let! fl := readeflags_if in
  if (fl : bool) then panic "popcli - interruptible"
  else
    let! _ := mycpu in
    upd_cpu (fun c => set_c_ncli (c_ncli c - 1) c) ;;
    let! c := mycpu in
    if c_ncli c <? 0 then panic "popcli"
    else when ((c_ncli c =? 0) && c_intena c) sti.

Definition get_lock (l : lockid) : K spinlock := gets (fun s => k_locks s l).
Definition set_lock (l : lockid) (v : spinlock) : K unit :=
  modify (fun s => set_locks (fupd (k_locks s) l v) s).

Definition initlock (l : lockid) (name : string) : K unit := set_lock l (mkSpinlock 0 name None).

Definition holding (l : lockid) : K bool :=
  pushcli ;;
  let! lk := get_lock l in
  let! c := mycpu in
  let r := negb (sl_locked lk =? 0) && bool_decide (sl_cpu lk = Some (c_apicid c)) in
  popcli ;;
  ret r.

Definition acquire (l : lockid) : K unit :=
  pushcli ;;
  let! h := holding l in
  if (h : bool) then panic "acquire"
  else
    let! lk := get_lock l in
    if negb (sl_locked lk =? 0) then (fun _ => Spin)
    else
      set_lock l (mkSpinlock 1 (sl_name lk) (sl_cpu lk)) ;;
      let! c := mycpu in
      set_lock l (mkSpinlock 1 (sl_name lk) (Some (c_apicid c))).

Definition release (l : lockid) : K unit :=
  let! h := holding l in
  if negb h then panic "release"
  else
    let! lk := get_lock l in
    set_lock l (mkSpinlock (sl_locked lk) (sl_name lk) None) ;;
    set_lock l (mkSpinlock 0 (sl_name lk) None) ;;
    popcli.

(** ** What the operations do to the CPU *)

Definition push_cpu (c : cpu) : cpu :=
  set_c_ncli (c_ncli c + 1)
    (set_c_intena (if c_ncli c =? 0 then c_if c else c_intena c) (set_c_if false c)).
Definition pop_cpu (c : cpu) : cpu :=
  set_c_if (if (c_ncli c - 1 =? 0) && c_intena c then true else c_if c)
    (set_c_ncli (c_ncli c - 1) c).

(** A balanced pair leaves only the saved flag behind. *)
Definition touch_cpu (c : cpu) : cpu :=
  set_c_intena (if c_ncli c =? 0 then c_if c else c_intena c) c.
Definition touch (s : kstate) : kstate := set_cpu (touch_cpu (k_cpu s)) s.

(** The CPU is one of the table, and interrupts are off while any [pushcli]
    is outstanding. *)
Record cpu_ok (s : kstate) : Prop := {
  cpu_known : existsb (Z.eqb (c_apicid (k_cpu s))) (k_apicids s) = true;
  cpu_ncli : 0 <= c_ncli (k_cpu s);
  cpu_masked : 0 < c_ncli (k_cpu s) -> c_if (k_cpu s) = false }.

Lemma mycpu_ok s :
  existsb (Z.eqb (c_apicid (k_cpu s))) (k_apicids s) = true ->
  c_if (k_cpu s) = false -> mycpu s = Ok (k_cpu s) s.
Proof. intros H1 H2. unfold mycpu, readeflags_if, bind, gets. rewrite H2, H1. reflexivity. Qed.

Lemma pushcli_ok s :
  existsb (Z.eqb (c_apicid (k_cpu s))) (k_apicids s) = true ->
  pushcli s = Ok tt (set_cpu (push_cpu (k_cpu s)) s).
Proof.
  intros H. unfold pushcli, readeflags_if, cli, upd_cpu, bind at 1, gets.
  unfold bind at 1, modify at 1.
  erewrite bind_ok; [|apply mycpu_ok; [exact H | reflexivity]].
  unfold push_cpu. cbn [k_cpu set_cpu c_ncli set_c_if].
  destruct (c_ncli (k_cpu s) =? 0); reflexivity.
Qed.

Lemma popcli_ok s :
  existsb (Z.eqb (c_apicid (k_cpu s))) (k_apicids s) = true ->
  c_if (k_cpu s) = false -> 0 < c_ncli (k_cpu s) ->
  popcli s = Ok tt (set_cpu (pop_cpu (k_cpu s)) s).
Proof.
  intros H Hi Hn. unfold popcli, readeflags_if, bind at 1, gets. rewrite Hi.
  erewrite bind_ok by (apply mycpu_ok; assumption).
  unfold upd_cpu, bind at 1, modify at 1.
  erewrite bind_ok; [|apply mycpu_ok; [exact H | exact Hi]].
  cbn [k_cpu set_cpu c_ncli set_c_ncli c_intena].
  destruct (Z.ltb_spec (c_ncli (k_cpu s) - 1) 0); [lia|].
  unfold pop_cpu, when, sti, upd_cpu, modify, ret.
  destruct ((c_ncli (k_cpu s) - 1 =? 0) && c_intena (k_cpu s)); [reflexivity|].
  rewrite Hi. destruct (k_cpu s); cbn in *. subst. reflexivity.
Qed.

Lemma pop_push c :
  (0 < c_ncli c -> c_if c = false) -> 0 <= c_ncli c -> pop_cpu (push_cpu c) = touch_cpu c.
Proof.
  destruct c as [a n i f pr cr gd ta e0 s0 io tr]. unfold pop_cpu, push_cpu, touch_cpu.
  cbn. intros Hm Hn.
  replace (n + 1 - 1) with n by lia.
  destruct (Z.eqb_spec n 0); cbn; [destruct f; reflexivity|].
  rewrite Hm by lia. reflexivity.
Qed.

Lemma touch_push c : 0 <= c_ncli c -> touch_cpu (push_cpu c) = push_cpu c.
Proof.
  destruct c as [a n i f pr cr gd ta e0 s0 io tr]. unfold touch_cpu, push_cpu. cbn. intros.
  destruct (Z.eqb_spec (n + 1) 0); [lia|]. reflexivity.
Qed.

Lemma holding_ok l s :
  cpu_ok s ->
  holding l s =
    Ok (negb (sl_locked (k_locks s l) =? 0) &&
        bool_decide (sl_cpu (k_locks s l) = Some (c_apicid (k_cpu s)))) (touch s).
Proof.
  intros [H Hn Hm]. unfold holding.
  erewrite bind_ok by (apply pushcli_ok; exact H).
  unfold get_lock, bind at 1, gets.
  erewrite bind_ok; [|apply mycpu_ok; [exact H | reflexivity]].
  erewrite bind_ok; [|apply popcli_ok; [exact H | reflexivity | cbn; lia]].
  unfold ret, touch. cbn [k_cpu set_cpu k_locks].
  rewrite pop_push by assumption. destruct s; reflexivity.
Qed.

(** Taking a free lock, and what the other cases do. *)
Definition lock_by (l : lockid) (s : kstate) : spinlock :=
  mkSpinlock 1 (sl_name (k_locks s l)) (Some (c_apicid (k_cpu s))).
Definition locked_state (l : lockid) (s : kstate) : kstate :=
  set_locks (fupd (k_locks s) l (lock_by l s)) (set_cpu (push_cpu (k_cpu s)) s).

Lemma cpu_ok_push s : cpu_ok s -> cpu_ok (set_cpu (push_cpu (k_cpu s)) s).
Proof. intros [H Hn Hm]. constructor; cbn; [exact H | lia | reflexivity]. Qed.

Lemma touch_pushed s :
  cpu_ok s -> touch (set_cpu (push_cpu (k_cpu s)) s) = set_cpu (push_cpu (k_cpu s)) s.
Proof.
  intros [H Hn Hm]. unfold touch. cbn [k_cpu set_cpu]. rewrite touch_push by assumption.
  reflexivity.
Qed.

Lemma acquire_ok l s :
  cpu_ok s -> sl_locked (k_locks s l) = 0 -> acquire l s = Ok tt (locked_state l s).
Proof.
  intros Hc Hl. unfold acquire.
  erewrite bind_ok by (apply pushcli_ok; apply Hc).
  erewrite bind_ok by (apply holding_ok, cpu_ok_push, Hc).
  rewrite touch_pushed by exact Hc.
  cbn [k_locks set_cpu]. rewrite Hl. cbn [Z.eqb negb andb].
  unfold get_lock, bind at 1, gets. cbn [k_locks set_cpu]. rewrite Hl. cbn [Z.eqb negb].
  unfold set_lock, bind at 1, modify at 1.
  erewrite bind_ok; [|apply mycpu_ok; [apply Hc | reflexivity]].
  unfold modify, locked_state, lock_by. cbn. rewrite fupd_fupd. reflexivity.
Qed.

Lemma acquire_held l s :
  cpu_ok s -> sl_locked (k_locks s l) <> 0 ->
  acquire l s =
    if decide (sl_cpu (k_locks s l) = Some (c_apicid (k_cpu s))) then Panic "acquire" else Spin.
Proof.
  intros Hc Hl. unfold acquire.
  erewrite bind_ok by (apply pushcli_ok; apply Hc).
  erewrite bind_ok by (apply holding_ok, cpu_ok_push, Hc).
  cbn [k_locks set_cpu k_cpu]. rewrite (proj2 (Z.eqb_neq _ _) Hl). cbn [negb andb].
  change (c_apicid (push_cpu (k_cpu s))) with (c_apicid (k_cpu s)).
  case_decide as E.
  - rewrite bool_decide_eq_true_2 by exact E. reflexivity.
  - rewrite bool_decide_eq_false_2 by exact E.
    rewrite touch_pushed by exact Hc.
    unfold get_lock, bind, gets. cbn [k_locks set_cpu].
    rewrite (proj2 (Z.eqb_neq _ _) Hl). reflexivity.
Qed.

Lemma release_ok l s nm :
  cpu_ok s -> 0 < c_ncli (k_cpu s) ->
  k_locks s l = mkSpinlock 1 nm (Some (c_apicid (k_cpu s))) ->
  release l s =
    Ok tt (set_locks (fupd (k_locks s) l (mkSpinlock 0 nm None)) (set_cpu (pop_cpu (k_cpu s)) s)).
Proof.
  intros Hc Hn Hl. unfold release.
  erewrite bind_ok by (apply holding_ok, Hc).
  rewrite Hl. cbn [sl_locked sl_cpu Z.eqb negb andb].
  rewrite bool_decide_eq_true_2 by reflexivity. cbn [negb].
  assert (Ht : touch s = s).
  { unfold touch, touch_cpu. destruct (Z.eqb_spec (c_ncli (k_cpu s)) 0); [lia|].
    destruct s as [m c]; destruct c; reflexivity. }
  rewrite Ht. unfold get_lock, set_lock, bind at 1, gets. rewrite Hl.
  unfold bind at 1, modify at 1, bind at 1, modify at 1.
  erewrite popcli_ok; [|apply Hc | apply Hc; exact Hn | exact Hn].
  cbn. rewrite fupd_fupd. reflexivity.
Qed.

Lemma release_not_held l s :
  cpu_ok s -> sl_locked (k_locks s l) = 0 \/ sl_cpu (k_locks s l) <> Some (c_apicid (k_cpu s)) ->
  release l s = Panic "release".
Proof.
  intros Hc Hl. unfold release. erewrite bind_ok by (apply holding_ok, Hc).
  destruct Hl as [-> | Hl]; [reflexivity|].
  rewrite bool_decide_eq_false_2 by exact Hl. rewrite andb_false_r. reflexivity.
Qed.

(** Releasing after a critical section that touched neither the lock table
    nor the CPU gives both back as they were, the saved flag apart. *)
Definition lock_free (l : lockid) (s : kstate) : Prop :=
  sl_locked (k_locks s l) = 0 /\ sl_cpu (k_locks s l) = None.

Lemma release_balanced l s s1 :
  cpu_ok s -> lock_free l s ->
  k_locks s1 = k_locks (locked_state l s) -> k_cpu s1 = k_cpu (locked_state l s) ->
  k_apicids s1 = k_apicids s ->
  release l s1 = Ok tt (set_locks (k_locks s) (set_cpu (touch_cpu (k_cpu s)) s1)).
Proof.
  intros Hc [Hl Hlc] E1 E2 E3. destruct Hc as [H Hn Hm].
  rewrite (release_ok l s1 (sl_name (k_locks s l))).
  - rewrite E1, E2. cbn [k_locks k_cpu locked_state set_locks set_cpu].
    rewrite fupd_fupd, pop_push by assumption. rewrite fupd_id; [reflexivity|].
    destruct (k_locks s l); cbn in *; subst; reflexivity.
  - constructor; rewrite E2, ?E3; cbn; [exact H | lia | reflexivity].
  - rewrite E2; cbn; lia.
  - rewrite E1, E2. cbn. rewrite fupd_eq. reflexivity.
Qed.

Lemma cpu_ok_touch s : cpu_ok s -> cpu_ok (touch s).
Proof. intros [H Hn Hm]. constructor; cbn; assumption. Qed.

Lemma touch_cpu_idem c : touch_cpu (touch_cpu c) = touch_cpu c.
Proof.
  destruct c as [a n i f pr cr gd ta e0 s0 io tr]. unfold touch_cpu. cbn.
  destruct (n =? 0); reflexivity.
Qed.

Lemma touch_idem s : touch (touch s) = touch s.
Proof. unfold touch. cbn [k_cpu set_cpu]. rewrite touch_cpu_idem. reflexivity. Qed.

Lemma cpu_ok_ext s s' :
  cpu_ok s -> k_cpu s' = touch_cpu (k_cpu s) \/ k_cpu s' = k_cpu s -> k_apicids s' = k_apicids s ->
  cpu_ok s'.
Proof.
  intros [H Hn Hm] [E | E] Ea; constructor; rewrite E, ?Ea; cbn; assumption.
Qed.

(** [cpu_ok] only looks at the CPU and at the CPU table. *)
Ltac cpuok := eapply cpu_ok_ext; [eassumption | right; reflexivity | reflexivity].

#[export] Hint Resolve cpu_ok_touch cpu_ok_push : xv6.

(** ** Nested pushcli/popcli

    [Cli] words: [Push] and [Pop] are the calls a stretch of kernel code makes. *)
Inductive cliop : Type := Push | Pop.
Definition cli_op (o : cliop) : K unit := match o with Push => pushcli | Pop => popcli end.
Fixpoint cli_run (w : list cliop) : K unit :=
  match w with [] => ret tt | o :: w' => cli_op o ;; cli_run w' end.

(** Well-bracketed words. *)
Inductive balanced : list cliop -> Prop :=
| bal_nil : balanced []
| bal_nest w1 w2 : balanced w1 -> balanced w2 -> balanced (Push :: w1 ++ Pop :: w2).

Lemma cli_run_app w1 w2 s s1 : cli_run w1 s = Ok tt s1 -> cli_run (w1 ++ w2) s = cli_run w2 s1.
Proof.
  revert s. induction w1 as [|o w1 IH]; cbn [cli_run app]; intros s H.
  - invc H. reflexivity.
  - apply bind_inv in H as ([] & s2 & E1 & E2). erewrite bind_ok by exact E1. apply IH, E2.
Qed.

(** A balanced word returns, and the CPU is as before up to the saved flag. *)
Lemma cli_run_balanced w s :
  balanced w -> cpu_ok s ->
  exists s', cli_run w s = Ok tt s' /\ (s' = s \/ s' = touch s).
Proof.
  intros Hw. revert s. induction Hw as [|w1 w2 H1 IH1 H2 IH2]; intros s Hc.
  - exists s. split; [reflexivity | auto].
  - cbn [cli_run cli_op]. erewrite bind_ok by (apply pushcli_ok, Hc).
    set (sp := set_cpu (push_cpu (k_cpu s)) s).
    destruct (IH1 sp) as (s1 & E1 & [-> | Es1]); [apply cpu_ok_push, Hc | |].
    2: unfold sp in Es1; rewrite (touch_pushed s Hc) in Es1; fold sp in Es1; subst s1.
    all: erewrite (cli_run_app w1 _ _ _ E1); cbn [cli_run cli_op].
    all: erewrite bind_ok by (apply popcli_ok; [apply Hc | reflexivity | cbn; destruct Hc; lia]).
    all: replace (set_cpu (pop_cpu (k_cpu sp)) sp) with (touch s)
      by (unfold touch, sp; cbn [k_cpu set_cpu]; rewrite pop_push by apply Hc; reflexivity).
    all: destruct (IH2 (touch s) (cpu_ok_touch s Hc)) as (s2 & E2 & Es2).
    all: exists s2; split; [exact E2 | right].
    all: destruct Es2 as [-> | ->]; auto using touch_idem.
Qed.

(** Net nesting depth of a word. *)
Fixpoint depth (w : list cliop) : Z :=
  match w with [] => 0 | Push :: w' => depth w' + 1 | Pop :: w' => depth w' - 1 end.

Lemma popcli_inv s s' :
  popcli s = Ok tt s' ->
  c_if (k_cpu s) = false /\ 0 < c_ncli (k_cpu s) /\ s' = set_cpu (pop_cpu (k_cpu s)) s.
Proof.
  unfold popcli. intros E. apply bind_inv in E as (fl & s1 & E1 & E).
  invc E1. destruct (c_if (k_cpu s1)) eqn:Hi; [discriminate|].
  apply bind_inv in E as (c & s2 & E1 & E).
  unfold mycpu, readeflags_if, bind, gets in E1. rewrite Hi in E1.
  destruct (existsb _ _) eqn:Hx; invc E1.
  assert (0 < c_ncli (k_cpu s2)) as Hn.
  { apply bind_inv in E as ([] & s3 & E1 & E). invc E1.
    apply bind_inv in E as (c & s3 & E1 & E).
    erewrite mycpu_ok in E1; [|exact Hx | exact Hi]. invc E1. cbn in E.
    destruct (Z.ltb_spec (c_ncli (k_cpu s2) - 1) 0); [discriminate | lia]. }
  split; [reflexivity|]. split; [exact Hn|].
  pose proof (popcli_ok s2 Hx Hi Hn) as E2. unfold popcli, readeflags_if in E2.
  unfold bind at 1, gets in E2. rewrite Hi in E2.
  erewrite bind_ok in E2 by (apply mycpu_ok; assumption). congruence.
Qed.

(** Whatever word runs, the nesting count follows its depth and interrupts
    are masked as long as the count is positive. *)
Lemma cli_run_depth w : forall s s',
  cpu_ok s -> cli_run w s = Ok tt s' ->
  cpu_ok s' /\ c_ncli (k_cpu s') = c_ncli (k_cpu s) + depth w.
Proof.
  induction w as [|o w IH]; intros s s' Hc E; cbn [cli_run depth] in *.
  - invc E. split; [exact Hc | lia].
  - apply bind_inv in E as ([] & s1 & E1 & E). destruct o; cbn [cli_op] in E1.
    + rewrite pushcli_ok in E1 by apply Hc. invc E1.
      destruct (IH _ _ (cpu_ok_push s Hc) E) as [H1 H2]. split; [exact H1|].
      rewrite H2. cbn. lia.
    + apply popcli_inv in E1 as (Hi & Hn & ->).
      destruct (IH (set_cpu (pop_cpu (k_cpu s)) s) s') as [H1 H2]; [| exact E |].
      * destruct Hc as [Hk Hp Hm]. constructor; cbn; [exact Hk | lia |].
        intros. rewrite Hi. destruct (Z.eqb_spec (c_ncli (k_cpu s) - 1) 0); [lia | reflexivity].
      * split; [exact H1|]. rewrite H2. cbn. lia.
Qed.

(** ** Results *)

(** spinlock.c, [pushcli], [popcli], [acquire], [release]: calls nest.
    A well-bracketed sequence of [pushcli] and [popcli] never panics and gives
    the CPU back with the nesting count and interrupt flag it had; whatever
    else runs, as long as it returns, the count follows the depth of the calls
    and interrupts are off while it is positive.  [acquire] on a free lock
    followed by [release] is such a pair and leaves the lock table as it was;
    [acquire] by the holder and [release] by another CPU panic. *)
Lemma locks_nest s w w' l :
  cpu_ok s -> balanced w -> lock_free l s ->
  (exists s', cli_run w s = Ok tt s' /\ touch s' = touch s) /\
  (forall s', cli_run w' s = Ok tt s' -> cpu_ok s' /\ c_ncli (k_cpu s') = c_ncli (k_cpu s) + depth w') /\
  (acquire l ;; release l) s = Ok tt (touch s) /\
  (acquire l ;; acquire l) s = Panic "acquire" /\
  release l s = Panic "release".
Proof.
  intros Hc Hw Hl. split; [|split; [|split; [|split]]].
  - destruct (cli_run_balanced w s Hw Hc) as (s' & E & [-> | ->]); eauto using touch_idem.
  - intros s'. apply cli_run_depth, Hc.
  - erewrite bind_ok by (apply acquire_ok; [exact Hc | apply Hl]).
    rewrite (release_balanced l s (locked_state l s)) by (assumption || reflexivity). reflexivity.
  - erewrite bind_ok by (apply acquire_ok; [exact Hc | apply Hl]).
    rewrite acquire_held.
    + unfold locked_state. cbn [k_locks set_locks k_cpu set_cpu]. rewrite fupd_eq.
      rewrite decide_True by reflexivity. reflexivity.
    + destruct (cpu_ok_push s Hc). constructor; assumption.
    + unfold locked_state. cbn [k_locks set_locks]. rewrite fupd_eq. discriminate.
  - apply release_not_held; [exact Hc | left; apply Hl].
Qed.


(** ** Several CPUs

    The single memory accesses of [acquire] and [release], interleaved.  A
    CPU is at one of the following points; [AcqLocked] and [AcqCpu] are the
    two reads of [holding] inside [acquire], [AcqXchg] is the loop around
    [xchg], [RelLocked] and [RelCpu] are the reads of [holding] inside
    [release].  A CPU calls [acquire] outside its critical section and
    [release] at its end. *)
Module Protocol.

Inductive pc : Type :=
| Outside | AcqLocked | AcqCpu | AcqXchg | AcqSet | Critical
| RelLocked | RelCpu | RelClear | RelUnlock | Panicked.

Record lstate : Type := mkL { l_locked : Z; l_cpu : option Z; l_pc : Z -> pc }.

(** One access of CPU [i]. *)
Definition step1 (i : Z) (locked : Z) (cpu : option Z) (p : pc) : Z * option Z * pc :=
  match p with
  | Outside => (locked, cpu, AcqLocked)
  | AcqLocked => (locked, cpu, if locked =? 0 then AcqXchg else AcqCpu)
  | AcqCpu => (locked, cpu, if bool_decide (cpu = Some i) then Panicked else AcqXchg)
  | AcqXchg => (1, cpu, if locked =? 0 then AcqSet else AcqXchg)
  | AcqSet => (locked, Some i, Critical)
  | Critical => (locked, cpu, RelLocked)
  | RelLocked => (locked, cpu, if locked =? 0 then Panicked else RelCpu)
  | RelCpu => (locked, cpu, if bool_decide (cpu = Some i) then RelClear else Panicked)
  | RelClear => (locked, None, RelUnlock)
  | RelUnlock => (0, cpu, Outside)
  | Panicked => (locked, cpu, Panicked)
  end.

Definition lstep (i : Z) (s : lstate) : lstate :=
  let '(k, c, p) := step1 i (l_locked s) (l_cpu s) (l_pc s i) in
  mkL k c (fun j => if j =? i then p else l_pc s j).

Inductive reach : lstate -> Prop :=
| reach_init : reach (mkL 0 None (fun _ => Outside))
| reach_step s i : reach s -> reach (lstep i s).

(** From the successful [xchg] to the store of 0 the CPU owns the lock. *)
Definition owns (p : pc) : bool :=
  match p with AcqSet | Critical | RelLocked | RelCpu | RelClear | RelUnlock => true | _ => false end.
Definition named (p : pc) : bool :=
  match p with Critical | RelLocked | RelCpu | RelClear => true | _ => false end.

Record linv (s : lstate) : Prop := {
  li_val : l_locked s = 0 \/ l_locked s = 1;
  li_panic i : l_pc s i <> Panicked;
  li_free : l_locked s = 0 -> forall i, owns (l_pc s i) = false;
  li_one i j : owns (l_pc s i) = true -> owns (l_pc s j) = true -> i = j;
  li_locked i : owns (l_pc s i) = true -> l_locked s = 1;
  li_named i : named (l_pc s i) = true <-> l_cpu s = Some i }.

(** The same, for the state of the lock and the points of CPU [i] and of the
    other CPUs. *)
Definition linv1 (i locked : Z) (cpu : option Z) (p : pc) (f : Z -> pc) : Prop :=
  (locked = 0 \/ locked = 1) /\ p <> Panicked /\ (forall j, j <> i -> f j <> Panicked) /\
  (if owns p then locked = 1 /\ forall j, j <> i -> owns (f j) = false
   else (locked = 0 -> forall j, j <> i -> owns (f j) = false) /\
        forall j, j <> i -> owns (f j) = true ->
          locked = 1 /\ forall j', j' <> i -> owns (f j') = true -> j = j') /\
  (named p = true <-> cpu = Some i) /\ (forall j, j <> i -> named (f j) = true <-> cpu = Some j).

Lemma linv_iff i s : linv s <-> linv1 i (l_locked s) (l_cpu s) (l_pc s i) (l_pc s).
Proof.
  split.
  - intros [Hv Hp Hf Ho Hl Hn]. split; [auto|]. split; [auto|]. split; [auto|]. split; [|auto].
    destruct (owns (l_pc s i)) eqn:Ei.
    + split; [eauto|]. intros j Hj. destruct (owns (l_pc s j)) eqn:Ej; [|reflexivity].
      exfalso. apply Hj, Ho; assumption.
    + split; [intros H0 j _; apply Hf, H0|]. eauto.
  - intros (Hv & H1 & H2 & H3 & H4 & H5).
    assert (Hj : forall j, j = i \/ j <> i) by (intros j; lia).
    constructor; [exact Hv | | | | |].
    + intros j. destruct (Hj j) as [-> | Hne]; auto.
    + intros H0 j. destruct (owns (l_pc s i)) eqn:Ei; [destruct H3; lia|].
      destruct (Hj j) as [-> | Hne]; [exact Ei | apply H3; assumption].
    + intros j k Ej Ek. destruct (owns (l_pc s i)) eqn:Ei; destruct H3 as [H3 H3'];
        destruct (Hj j) as [-> | Hnj]; destruct (Hj k) as [-> | Hnk]; try congruence;
        rewrite ?H3' in * by assumption; try discriminate.
      apply (H3' j Hnj Ej); assumption.
    + intros j Ej. destruct (owns (l_pc s i)) eqn:Ei; [apply H3|].
      destruct (Hj j) as [-> | Hnj]; [congruence|]. apply (proj2 H3 j Hnj Ej).
    + intros j. destruct (Hj j) as [-> | Hne]; auto.
Qed.

Lemma linv1_ext i k c p f g : (forall j, j <> i -> f j = g j) -> linv1 i k c p f -> linv1 i k c p g.
Proof.
  intros E (Hv & H1 & H2 & H3 & H4 & H5). split; [exact Hv|]. split; [exact H1|].
  split; [intros j Hj; rewrite <- E by exact Hj; auto|].
  split; [|split; [exact H4 | intros j Hj; rewrite <- E by exact Hj; auto]].
  destruct (owns p); destruct H3 as [H3 H3']; split; auto.
  - intros j Hj. rewrite <- E by exact Hj. auto.
  - intros H0 j Hj. rewrite <- E by exact Hj. auto.
  - intros j Hj. rewrite <- E by exact Hj. intros Ho. split; [apply (H3' j Hj Ho)|].
    intros j' Hj'. rewrite <- E by exact Hj'. apply (H3' j Hj Ho). exact Hj'.
Qed.

(** No owner among the others means that none of them is named. *)
Lemma named_owns p : named p = true -> owns p = true.
Proof. destruct p; (discriminate || reflexivity). Qed.

Lemma linv1_pc i k c p p' f :
  linv1 i k c p f -> owns p' = owns p -> named p' = named p -> p' <> Panicked -> linv1 i k c p' f.
Proof. unfold linv1. intros (Hv & _ & H2 & H3 & H4 & H5) -> -> Hp. auto 6. Qed.

Lemma linv1_owner i k c p f :
  linv1 i k c p f -> owns p = true ->
  k = 1 /\ (forall j, j <> i -> owns (f j) = false) /\ (forall j, j <> i -> named (f j) = false).
Proof.
  intros (_ & _ & _ & H3 & _) Ho. rewrite Ho in H3. destruct H3 as [-> H3]. split; [reflexivity|].
  split; [exact H3|]. intros j Hj. destruct (named (f j)) eqn:E; [|reflexivity].
  apply named_owns in E. rewrite H3 in E by exact Hj. discriminate.
Qed.

Lemma linv1_step i k c p f :
  linv1 i k c p f -> let '(k', c', p') := step1 i k c p in linv1 i k' c' p' f.
Proof.
  intros H. pose proof H as (Hv & H1 & H2 & H3 & H4 & H5).
  destruct p; cbn [step1]; try contradiction;
    try (pose proof (linv1_owner _ _ _ _ _ H eq_refl) as (-> & Ho & Hn)).
  - eapply linv1_pc; [exact H | reflexivity | reflexivity | discriminate].
  - destruct (k =? 0); (eapply linv1_pc; [exact H | reflexivity | reflexivity | discriminate]).
  - case_bool_decide as E; [apply H4 in E; discriminate|].
    eapply linv1_pc; [exact H | reflexivity | reflexivity | discriminate].
  - destruct Hv as [-> | ->]; cbn [Z.eqb]; [|exact H].
    split; [auto|]. split; [discriminate|]. split; [exact H2|]. split; [|auto].
    split; [reflexivity | apply H3; reflexivity].
  - split; [auto|]. split; [discriminate|]. split; [exact H2|]. split; [auto|].
    split; [cbn; tauto|]. intros j Hj. rewrite Hn by exact Hj. split; congruence.
  - eapply linv1_pc; [exact H | reflexivity | reflexivity | discriminate].
  - eapply linv1_pc; [exact H | reflexivity | reflexivity | discriminate].
  - case_bool_decide as E; [|exfalso; apply E, H4; reflexivity].
    eapply linv1_pc; [exact H | reflexivity | reflexivity | discriminate].
  - split; [auto|]. split; [discriminate|]. split; [exact H2|]. split; [auto|].
    split; [split; discriminate|]. intros j Hj. rewrite Hn by exact Hj. split; discriminate.
  - split; [auto|]. split; [discriminate|]. split; [exact H2|].
    split; [split; [auto|]; intros j Hj Ej; rewrite Ho in Ej by exact Hj; discriminate | auto].
Qed.

Lemma linv_step i s : linv s -> linv (lstep i s).
Proof.
  intros H. apply (linv_iff i) in H. apply linv1_step in H. apply (linv_iff i). unfold lstep.
  destruct (step1 i (l_locked s) (l_cpu s) (l_pc s i)) as [[k c] p]. cbn. rewrite Z.eqb_refl.
  eapply linv1_ext; [|exact H]. intros j Hj. cbn. rewrite (proj2 (Z.eqb_neq _ _)) by exact Hj. reflexivity.
Qed.

Lemma linv_reach s : reach s -> linv s.
Proof.
  induction 1 as [|s i _ IH]; [|apply linv_step, IH].
  constructor; cbn; auto; try discriminate. intros i. split; discriminate.
Qed.

(** C14 (spinlock.c): however the memory accesses of [acquire] and [release]
    interleave on any number of CPUs, at most one CPU is in its critical
    section, and no call panics although [holding] reads the lock without
    owning it: [acquire] never mistakes another CPU's lock for its own, and
    [release] always finds its own. *)
Theorem mutual_exclusion s i j :
  reach s ->
  (l_pc s i = Critical -> l_pc s j = Critical -> i = j) /\ l_pc s i <> Panicked /\
  (l_pc s i = Critical -> l_locked s = 1 /\ l_cpu s = Some i).
Proof.
  intros R. apply linv_reach in R as [_ Hp _ Ho Hl Hn].
  split; [|split; [apply Hp|]].
  - intros Ei Ej. apply Ho; [rewrite Ei | rewrite Ej]; reflexivity.
  - intros Ei. split; [apply (Hl i) | apply Hn]; rewrite Ei; reflexivity.
Qed.

(** CPU 1 spins while CPU 0 is in its critical section. *)
Definition contended : lstate :=
  lstep 1 (lstep 1 (lstep 0 (lstep 0 (lstep 1 (lstep 0 (lstep 0 (mkL 0 None (fun _ => Outside)))))))).

Lemma mutual_exclusion_witness :
  l_pc contended 0 = Critical /\ l_pc contended 1 = AcqXchg /\
  l_locked contended = 1 /\ l_cpu contended = Some 0.
Proof.
  split; [reflexivity|]. split; [reflexivity|].
  apply (mutual_exclusion contended 0 0); [|reflexivity].
  unfold contended. repeat apply reach_step. apply reach_init.
Defined.

End Protocol.
