(* ===== verification/Kalloc.v ===== *)
(** * solution/kalloc.c: the allocators of 4 KB and of 4 MB pages

    Free pages are linked through their first word.  [flist] reads such a
    list out of memory; [kinv fl hl] says that the two lists of the state are
    [fl] and [hl], made of distinct, aligned pages of the right region.  Both
    allocators are instances of the interface [PageAllocator], against which
    the page-table code is verified. *)

From Stdlib Require Import ZArith Lia FunctionalExtensionality.
From stdpp Require Import base list strings.
From S2P Require Import Prelude Mem Mmu Kernel Spinlock.

(** ** Definitions *)

Definition set_freelist (r : Z) : K unit :=
  modify (fun s => set_kmem (mkKmem (km_use_lock (k_kmem s)) r) s).
Definition set_use_lock (b : bool) : K unit :=
  modify (fun s => set_kmem (mkKmem b (km_freelist (k_kmem s))) s).
Definition set_freehugelist (r : Z) : K unit :=
  modify (fun s => set_khugemem (mkKhugemem (kh_use_lock (k_khugemem s)) r) s).
Definition set_huge_use_lock (b : bool) : K unit :=
  modify (fun s => set_khugemem (mkKhugemem b (kh_freehugelist (k_khugemem s))) s).

Definition kfree `{Image} (v : Z) : K unit :=
  if negb (v mod PGSIZE =? 0) || (v <? img_end) || (PHYSTOP <=? V2P v) then panic "kfree"
  else
    kmemset v 1 PGSIZE ;;
    let! ul := gets (fun s => km_use_lock (k_kmem s)) in
    when ul (acquire LKmem) ;;
    let! fl := gets (fun s => km_freelist (k_kmem s)) in
    st32 v fl ;;
    set_freelist v ;;
    let! ul := gets (fun s => km_use_lock (k_kmem s)) in
    when ul (release LKmem).

Definition khugefree (v : Z) : K unit :=
  if negb (v mod HUGE_PAGE_SIZE =? 0) || (V2P v <? HUGE_PAGE_START) || (HUGE_PAGE_END <=? V2P v)
  then panic "khugefree"
  else
    kmemset v 1 HUGE_PAGE_SIZE ;;
    let! ul := gets (fun s => kh_use_lock (k_khugemem s)) in
    when ul (acquire LKhugemem) ;;
    let! fl := gets (fun s => kh_freehugelist (k_khugemem s)) in
    st32 v fl ;;
    set_freehugelist v ;;
    let! ul := gets (fun s => kh_use_lock (k_khugemem s)) in
    when ul (release LKhugemem).

Definition kalloc : K Z :=
  let! ul := gets (fun s => km_use_lock (k_kmem s)) in
  when ul (acquire LKmem) ;;
  let! r := gets (fun s => km_freelist (k_kmem s)) in
  (if negb (r =? 0) then let! nx := ld32 r in set_freelist nx else ret tt) ;;
  let! ul := gets (fun s => km_use_lock (k_kmem s)) in
  when ul (release LKmem) ;;
  ret r.

Definition khugealloc : K Z :=
  let! ul := gets (fun s => kh_use_lock (k_khugemem s)) in
  when ul (acquire LKhugemem) ;;
  let! r := gets (fun s => kh_freehugelist (k_khugemem s)) in
  (if negb (r =? 0) then let! nx := ld32 r in set_freehugelist nx else ret tt) ;;
  let! ul := gets (fun s => kh_use_lock (k_khugemem s)) in
  when ul (release LKhugemem) ;;
  ret r.

(** [for (; p + size <= vend; p += size) free(p)] *)
Fixpoint range_loop (free : Z -> K unit) (size vend p : Z) (fuel : nat) : K unit :=
  match fuel with
  | O => nofuel
  | S f =>
      if w32 (p + size) <=? vend then free p ;; range_loop free size vend (w32 (p + size)) f
      else ret tt
  end.

Definition range_fuel (size vend p : Z) : nat := S (Z.to_nat ((vend - p) / size)).

Definition freerange `{Image} (vstart vend : Z) : K unit :=
  let p := PGROUNDUP vstart in
  range_loop kfree PGSIZE vend p (range_fuel PGSIZE vend p).

Definition freehugerange (vstart vend : Z) : K unit :=
  let p := HUGEPGROUNDUP vstart in
  range_loop khugefree HUGE_PAGE_SIZE vend p (range_fuel HUGE_PAGE_SIZE vend p).

Definition kinit1 `{Image} (vstart vend : Z) : K unit :=
  initlock LKmem "kmem" ;;
  set_use_lock false ;;
  freerange vstart vend.

Definition kinit2 `{Image} (vstart vend : Z) : K unit :=
  freerange vstart vend ;;
  set_use_lock true.

Definition khugeinit (vstart vend : Z) : K unit :=
  initlock LKhugemem "khugemem" ;;
  set_huge_use_lock false ;;
  freehugerange vstart vend ;;
  set_huge_use_lock true.

Arguments range_fuel : simpl never.
Arguments freerange : simpl never.
Arguments freehugerange : simpl never.

(** ** The free lists in memory *)

Fixpoint flist (m : mem) (head : Z) (l : list Z) : Prop :=
  match l with
  | [] => head = 0
  | p :: l' => head = p /\ p <> 0 /\ flist m (load32 m p) l'
  end.

Definition page_ok `{Image} (p : Z) : Prop :=
  p mod 4096 = 0 /\ img_end <= p /\ p < KERNBASE + PHYSTOP.
Definition huge_ok (p : Z) : Prop :=
  p mod 4194304 = 0 /\ KERNBASE + HUGE_PAGE_START <= p /\ p < KERNBASE + HUGE_PAGE_END.

Record kinv `{Image} (fl hl : list Z) (s : kstate) : Prop := {
  ki_cpu : cpu_ok s;
  ki_lk : lock_free LKmem s;
  ki_hlk : lock_free LKhugemem s;
  ki_fl : flist (k_mem s) (km_freelist (k_kmem s)) fl;
  ki_ok : Forall page_ok fl;
  ki_nodup : NoDup fl;
  ki_hl : flist (k_mem s) (kh_freehugelist (k_khugemem s)) hl;
  ki_hok : Forall huge_ok hl;
  ki_hnodup : NoDup hl }.

(** Two states that differ in memory contents, the free-list heads, console
    output and the CPU's saved interrupt flag only. *)
Definition norm (s : kstate) : kstate :=
  set_mem (fun _ => 0)
    (set_kmem (mkKmem (km_use_lock (k_kmem s)) 0)
      (set_khugemem (mkKhugemem (kh_use_lock (k_khugemem s)) 0)
        (set_out [] (touch s)))).
Definition kframe (s s' : kstate) : Prop := norm s' = norm s.

#[export] Instance kframe_equiv : Equivalence kframe.
Proof.
  unfold kframe. split; [intros s; reflexivity | intros s s' H; congruence |].
  intros a b c H1 H2. congruence.
Qed.

Lemma kframe_touch s : kframe s (touch s).
Proof. unfold kframe, norm. rewrite touch_idem. reflexivity. Qed.

Lemma kframe_procs s s' : kframe s s' -> k_procs s' = k_procs s.
Proof. intros E. apply (f_equal k_procs) in E. exact E. Qed.

Lemma kframe_locks s s' : kframe s s' -> k_locks s' = k_locks s.
Proof. intros E. apply (f_equal k_locks) in E. exact E. Qed.

Lemma kframe_cpu s s' : kframe s s' -> touch_cpu (k_cpu s') = touch_cpu (k_cpu s).
Proof. intros E. apply (f_equal k_cpu) in E. exact E. Qed.

Lemma kframe_use_lock s s' :
  kframe s s' -> km_use_lock (k_kmem s') = km_use_lock (k_kmem s) /\
    kh_use_lock (k_khugemem s') = kh_use_lock (k_khugemem s).
Proof.
  intros E. split.
  - apply (f_equal (fun x => km_use_lock (k_kmem x))) in E. exact E.
  - apply (f_equal (fun x => kh_use_lock (k_khugemem x))) in E. exact E.
Qed.

Definition ktouch (b : bool) (s : kstate) : kstate := if b then touch s else s.

(** ** Lemmas on the lists *)

Section Lists.
Context `{Image}.

Lemma flist_ext m m' l : forall head,
  (forall p, p ∈ l -> load32 m' p = load32 m p) -> flist m head l -> flist m' head l.
Proof.
  induction l as [|p l IH]; intros head E F; cbn [flist] in *; [exact F|].
  destruct F as (-> & Hp & F). split; [reflexivity|]. split; [exact Hp|].
  rewrite E by (left; reflexivity || apply list_elem_of_here).
  apply IH; [|exact F]. intros q Hq. apply E. by apply list_elem_of_further.
Qed.

Lemma page_ok_addr p : page_ok p -> KERNBASE < p /\ p + 4096 <= KERNBASE + PHYSTOP.
Proof.
  pose proof img_order. unfold page_ok, KERNLINK, KERNBASE, EXTMEM, PHYSTOP in *.
  intros (Ha & He & Hp). split; [lia|]. zdm.
Qed.

Lemma huge_ok_addr p :
  huge_ok p -> KERNBASE + HUGE_PAGE_START <= p /\ p + 4194304 <= KERNBASE + HUGE_PAGE_END.
Proof.
  unfold huge_ok, KERNBASE, HUGE_PAGE_START, HUGE_PAGE_END. intros (Ha & He & Hp). split; [lia|]. zdm.
Qed.

Lemma page_apart p q : p mod 4096 = 0 -> q mod 4096 = 0 -> p <> q -> p + 4096 <= q \/ q + 4096 <= p.
Proof. intros. zdm. Qed.

Lemma huge_apart p q :
  p mod 4194304 = 0 -> q mod 4194304 = 0 -> p <> q -> p + 4194304 <= q \/ q + 4194304 <= p.
Proof. intros. zdm. Qed.

Lemma page_huge_apart p q : page_ok p -> huge_ok q -> p + 4096 <= q.
Proof.
  intros Hp%page_ok_addr Hq%huge_ok_addr.
  unfold KERNBASE, PHYSTOP, HUGE_PAGE_START, HUGE_PAGE_END in *. lia.
Qed.

(** A write inside one page leaves the words of the other list pages alone. *)
Definition within (v n : Z) (m m' : mem) : Prop :=
  forall x, x < v \/ v + n <= x -> load8 m' x = load8 m x.

Lemma within_load32 v n m m' x :
  within v n m m' -> x + 4 <= v \/ v + n <= x -> load32 m' x = load32 m x.
Proof. intros W Hx. apply load32_ext. intros. apply W. lia. Qed.

Lemma flist_pages_within v m m' head fl :
  within v 4096 m m' -> page_ok v -> v ∉ fl -> Forall page_ok fl ->
  flist m head fl -> flist m' head fl.
Proof.
  intros W Hv Hn Hf. apply flist_ext. intros p Hp.
  rewrite Forall_forall in Hf. specialize (Hf p Hp).
  apply (within_load32 v 4096); [exact W|].
  assert (p <> v) by (intros ->; contradiction).
  destruct (page_apart p v) as [? | ?]; [apply Hf | apply Hv | assumption | lia | lia].
Qed.

Lemma flist_huge_within v m m' head hl :
  within v 4194304 m m' -> huge_ok v -> v ∉ hl -> Forall huge_ok hl ->
  flist m head hl -> flist m' head hl.
Proof.
  intros W Hv Hn Hf. apply flist_ext. intros p Hp.
  rewrite Forall_forall in Hf. specialize (Hf p Hp).
  apply (within_load32 v 4194304); [exact W|].
  assert (p <> v) by (intros ->; contradiction).
  destruct (huge_apart p v) as [? | ?]; [apply Hf | apply Hv | assumption | lia | lia].
Qed.

Lemma flist_huge_page_within v m m' head hl :
  within v 4096 m m' -> page_ok v -> Forall huge_ok hl -> flist m head hl -> flist m' head hl.
Proof.
  intros W Hv Hf. apply flist_ext. intros p Hp. rewrite Forall_forall in Hf.
  apply (within_load32 v 4096); [exact W|].
  pose proof (page_huge_apart v p Hv (Hf p Hp)). lia.
Qed.

Lemma flist_page_huge_within v m m' head fl :
  within v 4194304 m m' -> huge_ok v -> Forall page_ok fl -> flist m head fl -> flist m' head fl.
Proof.
  intros W Hv Hf. apply flist_ext. intros p Hp. rewrite Forall_forall in Hf.
  apply (within_load32 v 4194304); [exact W|].
  pose proof (page_huge_apart p v (Hf p Hp) Hv). lia.
Qed.

End Lists.

(** ** The operations as equations *)

Lemma kalloc_eq s :
  cpu_ok s -> lock_free LKmem s ->
  let r := km_freelist (k_kmem s) in
  let ul := km_use_lock (k_kmem s) in
  kalloc s = Ok r (ktouch ul
    (if negb (r =? 0) then set_kmem (mkKmem ul (load32 (k_mem s) r)) s else s)).
Proof.
  intros Hc Hl r ul. unfold kalloc, bind at 1, gets. fold ul.
  destruct ul eqn:Hul; cbn [when ktouch].
  - erewrite bind_ok by (apply acquire_ok; [exact Hc | apply Hl]).
    unfold bind at 1, gets. cbn [k_kmem locked_state set_locks set_cpu]. fold r.
    destruct (negb (r =? 0)); unfold ld32, set_freelist, ret, bind, gets, modify, when;
      cbn [k_kmem k_mem km_use_lock locked_state set_locks set_cpu set_kmem]; fold ul; rewrite Hul;
      (erewrite release_balanced; [| exact Hc | exact Hl | reflexivity | reflexivity | reflexivity]);
      destruct s; reflexivity.
  - unfold ret, bind, gets. fold r.
    destruct (negb (r =? 0)); unfold ld32, set_freelist, bind, gets, modify; cbn;
      fold ul; rewrite Hul; reflexivity.
Qed.

Lemma khugealloc_eq s :
  cpu_ok s -> lock_free LKhugemem s ->
  let r := kh_freehugelist (k_khugemem s) in
  let ul := kh_use_lock (k_khugemem s) in
  khugealloc s = Ok r (ktouch ul
    (if negb (r =? 0) then set_khugemem (mkKhugemem ul (load32 (k_mem s) r)) s else s)).
Proof.
  intros Hc Hl r ul. unfold khugealloc, bind at 1, gets. fold ul.
  destruct ul eqn:Hul; cbn [when ktouch].
  - erewrite bind_ok by (apply acquire_ok; [exact Hc | apply Hl]).
    unfold bind at 1, gets. cbn [k_khugemem locked_state set_locks set_cpu]. fold r.
    destruct (negb (r =? 0)); unfold ld32, set_freehugelist, ret, bind, gets, modify, when;
      cbn [k_khugemem k_mem kh_use_lock locked_state set_locks set_cpu set_khugemem]; fold ul; rewrite Hul;
      (erewrite release_balanced; [| exact Hc | exact Hl | reflexivity | reflexivity | reflexivity]);
      destruct s; reflexivity.
  - unfold ret, bind, gets. fold r.
    destruct (negb (r =? 0)); unfold ld32, set_freehugelist, bind, gets, modify; cbn;
      fold ul; rewrite Hul; reflexivity.
Qed.

Section Equations.
Context `{Image}.

Lemma kfree_eq v s :
  page_ok v -> cpu_ok s -> lock_free LKmem s ->
  let ul := km_use_lock (k_kmem s) in
  kfree v s = Ok tt (ktouch ul (set_kmem (mkKmem ul v)
    (set_mem (store32 (fill (k_mem s) v 1 4096) v (km_freelist (k_kmem s))) s))).
Proof.
  intros Hv Hc Hl ul. pose proof (page_ok_addr v Hv) as Ha.
  destruct Hv as (Hm & He & Hp). unfold KERNBASE, PHYSTOP in *.
  unfold kfree, PGSIZE, PHYSTOP. rewrite V2P_eq by (unfold KERNBASE, W32; lia).
  unfold KERNBASE. rewrite Hm. cbn [Z.eqb negb orb].
  destruct (Z.ltb_spec v img_end); [lia|]. destruct (Z.leb_spec 0xE000000 (v - 0x80000000)); [lia|].
  cbn [orb]. unfold kmemset, bind at 1, modify at 1, bind at 1, gets at 1.
  cbn [k_kmem k_mem set_mem]. fold ul. rewrite memset_fill by (unfold u32; lia).
  destruct ul eqn:Hul; cbn [when ktouch].
  - erewrite bind_ok.
    2: apply (acquire_ok LKmem (set_mem _ s)); [|apply Hl].
    2: eapply cpu_ok_ext; [exact Hc | right; reflexivity | reflexivity].
    unfold st32, set_freelist, bind, gets, modify, when.
    cbn [k_kmem k_mem km_use_lock km_freelist locked_state set_locks set_cpu set_kmem set_mem].
    fold ul. rewrite Hul.
    erewrite (release_balanced LKmem s); [| exact Hc | exact Hl | reflexivity | reflexivity | reflexivity].
    reflexivity.
  - unfold ret, st32, set_freelist, bind, gets, modify. cbn. fold ul. rewrite Hul. reflexivity.
Qed.

Lemma khugefree_eq v s :
  huge_ok v -> cpu_ok s -> lock_free LKhugemem s ->
  let ul := kh_use_lock (k_khugemem s) in
  khugefree v s = Ok tt (ktouch ul (set_khugemem (mkKhugemem ul v)
    (set_mem (store32 (fill (k_mem s) v 1 4194304) v (kh_freehugelist (k_khugemem s))) s))).
Proof.
  intros Hv Hc Hl ul. pose proof (huge_ok_addr v Hv) as Ha.
  destruct Hv as (Hm & He & Hp). unfold KERNBASE, HUGE_PAGE_START, HUGE_PAGE_END in *.
  unfold khugefree, HUGE_PAGE_SIZE, HUGE_PAGE_START, HUGE_PAGE_END.
  rewrite V2P_eq by (unfold KERNBASE, W32; lia).
  unfold KERNBASE. change 0x400000 with 4194304. rewrite Hm. cbn [Z.eqb negb orb].
  destruct (Z.ltb_spec (v - 0x80000000) 0x1E000000); [lia|].
  destruct (Z.leb_spec 0x3E000000 (v - 0x80000000)); [lia|].
  cbn [orb]. unfold kmemset, bind at 1, modify at 1, bind at 1, gets at 1.
  cbn [k_khugemem k_mem set_mem]. fold ul. rewrite memset_fill by (unfold u32; lia).
  destruct ul eqn:Hul; cbn [when ktouch].
  - erewrite bind_ok.
    2: apply (acquire_ok LKhugemem (set_mem _ s)); [|apply Hl].
    2: eapply cpu_ok_ext; [exact Hc | right; reflexivity | reflexivity].
    unfold st32, set_freehugelist, bind, gets, modify, when.
    cbn [k_khugemem k_mem kh_use_lock kh_freehugelist locked_state set_locks set_cpu set_khugemem set_mem].
    fold ul. rewrite Hul.
    erewrite (release_balanced LKhugemem s); [| exact Hc | exact Hl | reflexivity | reflexivity | reflexivity].
    reflexivity.
  - unfold ret, st32, set_freehugelist, bind, gets, modify. cbn. fold ul. rewrite Hul. reflexivity.
Qed.

Lemma free_within m v n w : 4 <= n -> within v n m (store32 (fill m v 1 n) v w).
Proof.
  intros Hn x Hx. rewrite load8_store32_ne by lia. apply load8_fill_out. lia.
Qed.

End Equations.

(** ** The interface the page-table code uses

    [owns l s]: in state [s] the allocator's free pages are exactly [l].
    Allocation takes the first of them, or returns 0 when there is none;
    freeing puts a page back in front. *)
Class PageAllocator (alloc : K Z) (free : Z -> K unit) (size : Z)
    (ok : Z -> Prop) (owns : list Z -> kstate -> Prop) : Prop := {
  pa_empty s :
    owns [] s ->
    exists s', alloc s = Ok 0 s' /\ owns [] s' /\ k_mem s' = k_mem s /\ kframe s s';
  pa_pop p l s :
    owns (p :: l) s ->
    exists s', alloc s = Ok p s' /\ owns l s' /\ ok p /\ (p ∉ l) /\ k_mem s' = k_mem s /\ kframe s s';
  pa_push v l s :
    owns l s -> ok v -> v ∉ l ->
    exists s', free v s = Ok tt s' /\ owns (v :: l) s' /\
      within v size (k_mem s) (k_mem s') /\ kframe s s';
  pa_write v l s m' :
    owns l s -> ok v -> v ∉ l -> within v size (k_mem s) m' -> owns l (set_mem m' s);
  pa_addr v : ok v -> v mod size = 0 /\ KERNBASE < v /\ v + size < W32;
}.

Section Instances.
Context `{Image}.

Lemma kinv_ktouch b fl hl s : kinv fl hl s -> kinv fl hl (ktouch b s).
Proof.
  intros [Hc Hl Hh F1 F2 F3 F4 F5 F6]. destruct b; [|constructor; assumption].
  constructor; try assumption. apply cpu_ok_touch, Hc.
Qed.

Lemma kframe_ktouch b s s' : kframe s s' -> kframe s (ktouch b s').
Proof.
  intros E. destruct b; [|exact E]. etransitivity; [exact E | apply kframe_touch].
Qed.

Lemma flist_head m h l : flist m h l -> h = hd 0 l.
Proof. destruct l; cbn; [auto | tauto]. Qed.

#[export] Instance base_allocator hl :
  PageAllocator kalloc kfree 4096 page_ok (fun fl s => kinv fl hl s).
Proof.
  constructor.
  - intros s I. pose proof I as [Hc Hl Hh F1 F2 F3 F4 F5 F6].
    rewrite (kalloc_eq s Hc Hl). cbn in F1. rewrite F1. cbn [Z.eqb negb].
    eexists. split; [reflexivity|]. split; [apply kinv_ktouch, I|].
    split; [destruct (km_use_lock _); reflexivity | apply kframe_ktouch; reflexivity].
  - intros p l s I. pose proof I as [Hc Hl Hh F1 F2 F3 F4 F5 F6].
    rewrite (kalloc_eq s Hc Hl). cbn in F1. destruct F1 as (E & Hp & F1). rewrite E.
    apply Forall_cons in F2 as [F2 F2']. apply NoDup_cons in F3 as [F3 F3'].
    rewrite (proj2 (Z.eqb_neq _ _) Hp). cbn [negb].
    eexists. split; [reflexivity|]. split.
    { apply kinv_ktouch. constructor; try assumption.
      eapply cpu_ok_ext; [exact Hc | right; reflexivity | reflexivity]. }
    split; [exact F2|]. split; [exact F3|].
    split; [destruct (km_use_lock _); reflexivity | apply kframe_ktouch; reflexivity].
  - intros v l s I Hv Hn. pose proof I as [Hc Hl Hh F1 F2 F3 F4 F5 F6].
    rewrite (kfree_eq v s Hv Hc Hl).
    pose proof (free_within (k_mem s) v 4096 (km_freelist (k_kmem s)) ltac:(lia)) as W.
    pose proof (page_ok_addr v Hv). unfold KERNBASE in *.
    eexists. split; [reflexivity|]. split.
    { apply kinv_ktouch. constructor; cbn [k_mem k_kmem k_khugemem set_kmem set_mem km_freelist].
      - eapply cpu_ok_ext; [exact Hc | right; reflexivity | reflexivity].
      - exact Hl.
      - exact Hh.
      - cbn [flist]. split; [reflexivity|]. split; [lia|].
        rewrite load32_store32_same, w32_small.
        + eapply flist_pages_within; eauto.
        + rewrite (flist_head _ _ _ F1). destruct l as [|q l]; cbn; [unfold u32; lia|].
          apply Forall_cons in F2 as [F2 _]. pose proof (page_ok_addr q F2).
          unfold u32, KERNBASE, PHYSTOP in *. lia.
      - apply Forall_cons. auto.
      - apply NoDup_cons. auto.
      - eapply flist_huge_page_within; eauto.
      - exact F5.
      - exact F6. }
    split; [destruct (km_use_lock _); exact W | apply kframe_ktouch; reflexivity].
  - intros v l s m' [Hc Hl Hh F1 F2 F3 F4 F5 F6] Hv Hn W.
    constructor; try assumption; cbn.
    + eapply cpu_ok_ext; [exact Hc | right; reflexivity | reflexivity].
    + eapply flist_pages_within; eauto.
    + eapply flist_huge_page_within; eauto.
  - intros v Hv. pose proof (page_ok_addr v Hv). split; [apply Hv|].
    unfold KERNBASE, PHYSTOP, W32 in *. lia.
Qed.

#[export] Instance huge_allocator fl :
  PageAllocator khugealloc khugefree 4194304 huge_ok (fun hl s => kinv fl hl s).
Proof.
  constructor.
  - intros s I. pose proof I as [Hc Hl Hh F1 F2 F3 F4 F5 F6].
    rewrite (khugealloc_eq s Hc Hh). cbn in F4. rewrite F4. cbn [Z.eqb negb].
    eexists. split; [reflexivity|]. split; [apply kinv_ktouch, I|].
    split; [destruct (kh_use_lock _); reflexivity | apply kframe_ktouch; reflexivity].
  - intros p l s I. pose proof I as [Hc Hl Hh F1 F2 F3 F4 F5 F6].
    rewrite (khugealloc_eq s Hc Hh). cbn in F4. destruct F4 as (E & Hp & F4). rewrite E.
    apply Forall_cons in F5 as [F5 F5']. apply NoDup_cons in F6 as [F6 F6'].
    rewrite (proj2 (Z.eqb_neq _ _) Hp). cbn [negb].
    eexists. split; [reflexivity|]. split.
    { apply kinv_ktouch. constructor; try assumption.
      eapply cpu_ok_ext; [exact Hc | right; reflexivity | reflexivity]. }
    split; [exact F5|]. split; [exact F6|].
    split; [destruct (kh_use_lock _); reflexivity | apply kframe_ktouch; reflexivity].
  - intros v l s I Hv Hn. pose proof I as [Hc Hl Hh F1 F2 F3 F4 F5 F6].
    rewrite (khugefree_eq v s Hv Hc Hh).
    pose proof (free_within (k_mem s) v 4194304 (kh_freehugelist (k_khugemem s)) ltac:(lia)) as W.
    pose proof (huge_ok_addr v Hv). unfold KERNBASE, HUGE_PAGE_START in *.
    eexists. split; [reflexivity|]. split.
    { apply kinv_ktouch. constructor; cbn [k_mem k_kmem k_khugemem set_khugemem set_mem kh_freehugelist].
      - eapply cpu_ok_ext; [exact Hc | right; reflexivity | reflexivity].
      - exact Hl.
      - exact Hh.
      - eapply flist_page_huge_within; eauto.
      - exact F2.
      - exact F3.
      - cbn [flist]. split; [reflexivity|]. split; [lia|].
        rewrite load32_store32_same, w32_small.
        + eapply flist_huge_within; eauto.
        + rewrite (flist_head _ _ _ F4). destruct l as [|q l]; cbn; [unfold u32; lia|].
          apply Forall_cons in F5 as [F5 _]. pose proof (huge_ok_addr q F5).
          unfold u32, KERNBASE, HUGE_PAGE_START, HUGE_PAGE_END in *. lia.
      - apply Forall_cons. auto.
      - apply NoDup_cons. auto. }
    split; [destruct (kh_use_lock _); exact W | apply kframe_ktouch; reflexivity].
  - intros v l s m' [Hc Hl Hh F1 F2 F3 F4 F5 F6] Hv Hn W.
    constructor; try assumption; cbn.
    + eapply cpu_ok_ext; [exact Hc | right; reflexivity | reflexivity].
    + eapply flist_page_huge_within; eauto.
    + eapply flist_huge_within; eauto.
  - intros v Hv. pose proof (huge_ok_addr v Hv). split; [apply Hv|].
    unfold KERNBASE, HUGE_PAGE_START, HUGE_PAGE_END, W32 in *. lia.
Qed.

End Instances.

(** ** Initialization *)

Definition pages (a size : Z) (n : nat) : list Z := map (fun i => a + size * Z.of_nat i) (seq 0 n).

Lemma pages_S a size n : pages a size (S n) = a :: pages (a + size) size n.
Proof.
  unfold pages. cbn [seq map]. f_equal; [lia|]. rewrite <- seq_shift, map_map.
  apply map_ext. intros. lia.
Qed.

Lemma elem_of_pages a size n p :
  0 < size -> p ∈ pages a size n <-> a <= p < a + size * Z.of_nat n /\ (p - a) mod size = 0.
Proof.
  intros Hs. unfold pages. rewrite list_elem_of_In, in_map_iff. split.
  - intros (i & <- & Hi%in_seq). split; [nia|].
    replace (a + size * Z.of_nat i - a) with (Z.of_nat i * size) by lia. apply Z_mod_mult.
  - intros [Hp Hm]. exists (Z.to_nat ((p - a) / size)).
    assert (p - a = size * ((p - a) / size)) as Hd
      by (pose proof (Z.div_mod (p - a) size); lia).
    assert (0 <= (p - a) / size < Z.of_nat n) by nia.
    split; [rewrite Z2Nat.id by lia; lia | apply in_seq; lia].
Qed.

Lemma length_pages a size n : length (pages a size n) = n.
Proof. unfold pages. rewrite length_map, length_seq. reflexivity. Qed.

Section Range.
Context {alloc free size ok owns} `{PA : PageAllocator alloc free size ok owns}.

Lemma range_loop_spec n : forall fuel vend p l s,
  (n < fuel)%nat -> 0 < size -> 0 <= p ->
  p + size * Z.of_nat n <= vend < p + size * Z.of_nat n + size -> vend + size < W32 ->
  Forall ok (pages p size n) -> (forall q, q ∈ pages p size n -> q ∉ l) ->
  owns l s ->
  exists s', range_loop free size vend p fuel s = Ok tt s' /\
    owns (rev (pages p size n) ++ l) s' /\ kframe s s'.
Proof.
  induction n as [|n IH]; intros fuel vend p l s Hf Hs Hp Hv Hw Hok Hnew Ho;
    (destruct fuel as [|fuel]; [lia|]); cbn [range_loop];
    rewrite w32_small by (unfold u32, W32 in *; nia).
  - destruct (Z.leb_spec (p + size) vend); [lia|].
    exists s. split; [reflexivity|]. split; [exact Ho | reflexivity].
  - destruct (Z.leb_spec (p + size) vend); [|nia].
    rewrite pages_S in Hok, Hnew. apply Forall_cons in Hok as [Hok1 Hok].
    destruct (pa_push p l s Ho Hok1) as (s1 & E1 & O1 & W1 & F1).
    { apply Hnew. apply list_elem_of_here. }
    destruct (IH fuel vend (p + size) (p :: l) s1) as (s2 & E2 & O2 & F2); try assumption; try lia.
    { intros q Hq [-> | Hql]%elem_of_cons.
      - apply elem_of_pages in Hq; [lia | assumption].
      - revert Hql. apply Hnew. by apply list_elem_of_further. }
    exists s2. erewrite bind_ok by exact E1. split; [exact E2|]. split.
    + rewrite pages_S. cbn [rev]. rewrite <- app_assoc. exact O2.
    + etransitivity; eassumption.
Qed.
End Range.

Section Boot.
Context `{Image}.

Lemma freerange_spec vstart vend fl hl s :
  img_end <= vstart -> vend mod 4096 = 0 -> vstart <= vend -> vend <= KERNBASE + PHYSTOP ->
  (forall p, p ∈ fl -> ~ (vstart <= p < vend)) -> kinv fl hl s ->
  exists s' fl', freerange vstart vend s = Ok tt s' /\ kinv (fl' ++ fl) hl s' /\ kframe s s' /\
    (forall p, p ∈ fl' <-> p mod 4096 = 0 /\ vstart <= p < vend).
Proof.
  intros Hs Hm Hv Hb Hold I. pose proof img_order as Hio.
  unfold KERNLINK, KERNBASE, EXTMEM, PHYSTOP in *.
  set (p := PGROUNDUP vstart).
  pose proof (PGROUNDUP_aligned vstart ltac:(lia)) as Ha.
  pose proof (PGROUNDUP_bounds vstart ltac:(lia)) as Hpb. fold p in Ha, Hpb.
  assert (Hpv : p <= vend) by zdm.
  set (n := Z.to_nat ((vend - p) / 4096)).
  assert (Hn : p + 4096 * Z.of_nat n = vend) by (unfold n; rewrite Z2Nat.id; zdm).
  assert (Hin : forall q, q ∈ pages p 4096 n <-> q mod 4096 = 0 /\ vstart <= q < vend).
  { intros q. rewrite elem_of_pages by lia. split; intros [H1 H2]; split; zdm. }
  destruct (range_loop_spec (PA := base_allocator hl) n (range_fuel PGSIZE vend p) vend p fl s)
    as (s' & E & I' & F); try assumption; try lia.
  - unfold range_fuel, PGSIZE. fold n. lia.
  - unfold W32. lia.
  - apply Forall_forall. intros q [Hq1 Hq2]%Hin. unfold page_ok, KERNBASE, PHYSTOP. lia.
  - intros q Hq Hl. apply (Hold q Hl). apply Hin in Hq. lia.
  - exists s', (rev (pages p 4096 n)). split; [exact E|]. split; [exact I'|]. split; [exact F|].
    intros q. rewrite <- Hin. rewrite !list_elem_of_In. symmetry. apply in_rev.
Qed.

Lemma freehugerange_spec vstart vend fl hl s :
  KERNBASE + HUGE_PAGE_START <= vstart -> vend mod 4194304 = 0 -> vstart <= vend ->
  vend <= KERNBASE + HUGE_PAGE_END ->
  (forall p, p ∈ hl -> ~ (vstart <= p < vend)) -> kinv fl hl s ->
  exists s' hl', freehugerange vstart vend s = Ok tt s' /\ kinv fl (hl' ++ hl) s' /\ kframe s s' /\
    (forall p, p ∈ hl' <-> p mod 4194304 = 0 /\ vstart <= p < vend) /\
    Z.of_nat (length hl') = (vend - HUGEPGROUNDUP vstart) / 4194304.
Proof.
  intros Hs Hm Hv Hb Hold I. unfold KERNBASE, HUGE_PAGE_START, HUGE_PAGE_END in *.
  set (p := HUGEPGROUNDUP vstart).
  assert (Ha : p mod 4194304 = 0) by (unfold p; rewrite HUGEPGROUNDUP_eq by lia; zdm).
  assert (Hpb : vstart <= p < vstart + 4194304) by (unfold p; rewrite HUGEPGROUNDUP_eq by lia; zdm).
  assert (Hpv : p <= vend) by zdm.
  set (n := Z.to_nat ((vend - p) / 4194304)).
  assert (Hn : p + 4194304 * Z.of_nat n = vend) by (unfold n; rewrite Z2Nat.id; zdm).
  assert (Hin : forall q, q ∈ pages p 4194304 n <-> q mod 4194304 = 0 /\ vstart <= q < vend).
  { intros q. rewrite elem_of_pages by lia. split; intros [H1 H2]; split; zdm. }
  destruct (range_loop_spec (PA := huge_allocator fl) n (range_fuel HUGE_PAGE_SIZE vend p) vend p hl s)
    as (s' & E & I' & F); try assumption; try lia.
  - unfold range_fuel, HUGE_PAGE_SIZE. fold n. lia.
  - unfold W32. lia.
  - apply Forall_forall. intros q [Hq1 Hq2]%Hin.
    unfold huge_ok, KERNBASE, HUGE_PAGE_START, HUGE_PAGE_END. lia.
  - intros q Hq Hl. apply (Hold q Hl). apply Hin in Hq. lia.
  - exists s', (rev (pages p 4194304 n)). split; [exact E|]. split; [exact I'|]. split; [exact F|].
    split.
    + intros q. rewrite <- Hin. rewrite !list_elem_of_In. symmetry. apply in_rev.
    + rewrite length_rev, length_pages. unfold n. rewrite Z2Nat.id; [reflexivity | zdm].
Qed.

End Boot.

(** ** Clients of an allocator

    A client allocates and gives back pages it holds, in any order. *)
Inductive palloc_op : Type := OpAlloc | OpFree (i : nat).

Fixpoint run_ops (alloc : K Z) (free : Z -> K unit) (ops : list palloc_op) (held : list Z)
    : K (list Z) :=
  match ops with
  | [] => ret held
  | OpAlloc :: ops' =>
      let! p := alloc in
      run_ops alloc free ops' (if p =? 0 then held else p :: held)
  | OpFree i :: ops' =>
      match held !! i with
      | Some v => free v ;; run_ops alloc free ops' (delete i held)
      | None => run_ops alloc free ops' held
      end
  end.

Section Clients.
Context {alloc free size ok owns} `{PA : PageAllocator alloc free size ok owns}.

Lemma run_ops_spec ops : forall held l s,
  owns l s -> Forall ok held -> NoDup (held ++ l) ->
  exists held' l' s', run_ops alloc free ops held s = Ok held' s' /\ owns l' s' /\
    Forall ok held' /\ NoDup (held' ++ l') /\ Permutation (held ++ l) (held' ++ l').
Proof.
  induction ops as [|[|i] ops IH]; intros held l s Ho Hok Hnd; cbn [run_ops].
  - exists held, l, s. auto.
  - destruct l as [|p l].
    + destruct (pa_empty s Ho) as (s1 & E1 & O1 & _). erewrite bind_ok by exact E1.
      cbn [Z.eqb]. apply (IH held [] s1); assumption.
    + destruct (pa_pop p l s Ho) as (s1 & E1 & O1 & Hp & Hpl & _).
      erewrite bind_ok by exact E1. destruct (pa_addr p Hp) as (_ & Hpos & _).
      unfold KERNBASE in Hpos. destruct (Z.eqb_spec p 0); [lia|].
      assert (Permutation (held ++ p :: l) ((p :: held) ++ l)) as Hperm
        by (symmetry; apply Permutation_middle).
      destruct (IH (p :: held) l s1) as (h' & l' & s' & E & Ho' & Hok' & Hnd' & Hp'); auto.
      { rewrite <- Hperm. exact Hnd. }
      exists h', l', s'. split; [exact E|]. split; [exact Ho'|]. split; [exact Hok'|].
      split; [exact Hnd'|]. rewrite Hperm. exact Hp'.
  - destruct (held !! i) as [v|] eqn:Hi; [|apply (IH held l s); assumption].
    assert (Permutation (held ++ l) (delete i held ++ v :: l)) as Hperm.
    { rewrite <- Permutation_middle, app_comm_cons. apply Permutation_app_tail.
      apply delete_Permutation, Hi. }
    assert (Hnd2 := Hnd). rewrite Hperm in Hnd2. apply NoDup_app in Hnd2 as (Hd1 & Hd2 & Hd3).
    apply NoDup_cons in Hd3 as [Hvl Hd3].
    assert (ok v) as Hv by (eapply Forall_lookup_1; eassumption).
    destruct (pa_push v l s Ho Hv Hvl) as (s1 & E1 & O1 & _). erewrite bind_ok by exact E1.
    destruct (IH (delete i held) (v :: l) s1) as (h' & l' & s' & E & Ho' & Hok' & Hnd' & Hp'); auto.
    { apply Forall_delete, Hok. }
    { rewrite <- Hperm. exact Hnd. }
    exists h', l', s'. split; [exact E|]. split; [exact Ho'|]. split; [exact Hok'|].
    split; [exact Hnd'|]. rewrite Hperm. exact Hp'.
Qed.
End Clients.

(** ** Results *)

Section Results.
Context `{Image}.

Lemma kinit1_eq a b s :
  kinit1 a b s = freerange a b
    (set_kmem (mkKmem false (km_freelist (k_kmem s)))
      (set_locks (fupd (k_locks s) LKmem (mkSpinlock 0 "kmem" None)) s)).
Proof. reflexivity. Qed.

Lemma khugeinit_eq a b s :
  khugeinit a b s = (freehugerange a b ;; set_huge_use_lock true)
    (set_khugemem (mkKhugemem false (kh_freehugelist (k_khugemem s)))
      (set_locks (fupd (k_locks s) LKhugemem (mkSpinlock 0 "khugemem" None)) s)).
Proof. reflexivity. Qed.

Lemma kinit1_spec s :
  cpu_ok s -> lock_free LKhugemem s -> k_kmem s = mkKmem false 0 -> kh_freehugelist (k_khugemem s) = 0 ->
  exists s1 f1, kinit1 img_end (P2V (4 * 1024 * 1024)) s = Ok tt s1 /\ kinv f1 [] s1 /\
    km_use_lock (k_kmem s1) = false /\
    (forall p, p ∈ f1 <-> page_ok p /\ p < P2V (4 * 1024 * 1024)).
Proof.
  intros Hc Hh Hk Hhl. pose proof img_order as Hio. pose proof img_fits as Hfit.
  unfold KERNLINK, KERNBASE, EXTMEM in Hio, Hfit. change (P2V (4 * 1024 * 1024)) with 0x80400000.
  set (s0 := set_kmem (mkKmem false 0)
               (set_locks (fupd (k_locks s) LKmem (mkSpinlock 0 "kmem" None)) s)).
  assert (I0 : kinv [] [] s0).
  { constructor; try constructor; try exact Hhl; try reflexivity; try apply Hc; cbn; apply Hh. }
  destruct (freerange_spec img_end 0x80400000 [] [] s0) as (s1 & f1 & E1 & I1 & F1 & M1);
    try (unfold KERNBASE, PHYSTOP; lia); try reflexivity; [intros p Hp; invc Hp | exact I0 |].
  rewrite app_nil_r in I1. exists s1, f1.
  split; [rewrite kinit1_eq, Hk; exact E1|]. split; [exact I1|]. split; [apply (kframe_use_lock s0 s1 F1)|].
  intros p. rewrite M1. unfold page_ok, KERNBASE, PHYSTOP. lia.
Qed.

Lemma kinit2_khugeinit_spec s f :
  kinv f [] s -> (forall p, p ∈ f -> p < P2V (4 * 1024 * 1024)) ->
  exists s' fl hl,
    (kinit2 (P2V (4 * 1024 * 1024)) (P2V PHYSTOP) ;;
     khugeinit (P2V HUGE_PAGE_START) (P2V HUGE_PAGE_END)) s = Ok tt s' /\
    kinv fl hl s' /\ km_use_lock (k_kmem s') = true /\ kh_use_lock (k_khugemem s') = true /\
    (forall p, p ∈ fl <-> p ∈ f \/ page_ok p /\ P2V (4 * 1024 * 1024) <= p) /\
    (forall p, p ∈ hl <-> huge_ok p) /\ length hl = 128%nat.
Proof.
  pose proof img_order as Hio. pose proof img_fits as Hfit. unfold KERNLINK, KERNBASE, EXTMEM in Hio, Hfit.
  change (P2V (4 * 1024 * 1024)) with 0x80400000. change (P2V PHYSTOP) with 0x8E000000.
  change (P2V HUGE_PAGE_START) with 0x9E000000. change (P2V HUGE_PAGE_END) with 0xBE000000. intros I1 Hf.
  destruct (freerange_spec 0x80400000 0x8E000000 f [] s) as (s2 & f2 & E2 & I2 & F2 & M2);
    try (unfold KERNBASE, PHYSTOP; lia); try reflexivity; [| exact I1 |].
  { intros p Hp. apply Hf in Hp. lia. }
  set (s3 := set_khugemem (mkKhugemem false (kh_freehugelist (k_khugemem s2)))
               (set_locks (fupd (k_locks s2) LKhugemem (mkSpinlock 0 "khugemem" None))
                 (set_kmem (mkKmem true (km_freelist (k_kmem s2))) s2))).
  assert (I3 : kinv (f2 ++ f) [] s3).
  { destruct I2 as [J1 J2 J3 J4 J5 J6 J7 J8 J9]. constructor; try assumption; [cpuok | split; reflexivity]. }
  destruct (freehugerange_spec 0x9E000000 0xBE000000 (f2 ++ f) [] s3)
    as (s4 & h & E4 & I4 & F4 & M4 & L4); unfold KERNBASE, HUGE_PAGE_START, HUGE_PAGE_END;
    try lia; try reflexivity; [intros p Hp; invc Hp | exact I3 |].
  rewrite app_nil_r in I4.
  exists (set_khugemem (mkKhugemem true (kh_freehugelist (k_khugemem s4))) s4), (f2 ++ f), h.
  split; [|split; [|split; [|split; [reflexivity|split; [|split]]]]].
  - erewrite bind_ok by (unfold kinit2; erewrite bind_ok by exact E2; reflexivity).
    rewrite khugeinit_eq. erewrite bind_ok by exact E4. reflexivity.
  - destruct I4 as [J1 J2 J3 J4 J5 J6 J7 J8 J9]. constructor; try assumption. cpuok.
  - apply (kframe_use_lock s3 s4 F4).
  - intros p. rewrite elem_of_app, M2. unfold page_ok, KERNBASE, PHYSTOP. intuition lia.
  - intros p. rewrite M4. reflexivity.
  - apply Nat2Z.inj. rewrite L4. reflexivity.
Qed.

(** C27 (kalloc.c, main.c): the free lists at boot.  [kinit1] with main()'s
    arguments makes a well-formed list of exactly the pages between the end of
    the kernel and 4 MB, without locking.  main() then goes on to take pages
    from it: whichever of them are still free when it comes to [kinit2] and
    [khugeinit], those two leave two well-formed lists, and both allocators
    lock from then on.  The first holds, each once, exactly the pages between
    the end of the kernel and PHYSTOP but for the ones taken in between, the
    second exactly the 128 aligned 4 MB pages of the reserved region. *)
Theorem boot_free_lists s :
  cpu_ok s -> lock_free LKhugemem s -> k_kmem s = mkKmem false 0 ->
  kh_freehugelist (k_khugemem s) = 0 ->
  exists s1 f1,
    kinit1 img_end (P2V (4 * 1024 * 1024)) s = Ok tt s1 /\
    kinv f1 [] s1 /\ km_use_lock (k_kmem s1) = false /\
    (forall p, p ∈ f1 <-> page_ok p /\ p < P2V (4 * 1024 * 1024)) /\
    forall s2 f2, kinv f2 [] s2 -> f2 ⊆ f1 ->
      exists s' fl hl,
        (kinit2 (P2V (4 * 1024 * 1024)) (P2V PHYSTOP) ;;
         khugeinit (P2V HUGE_PAGE_START) (P2V HUGE_PAGE_END)) s2 = Ok tt s' /\
        kinv fl hl s' /\
        km_use_lock (k_kmem s') = true /\ kh_use_lock (k_khugemem s') = true /\
        (forall p, p ∈ fl <-> page_ok p /\ (p ∈ f1 -> p ∈ f2)) /\
        (forall p, p ∈ hl <-> huge_ok p) /\ length hl = 128%nat.
Proof.
  intros Hc Hh Hk Hhl. destruct (kinit1_spec s Hc Hh Hk Hhl) as (s1 & f1 & E1 & I1 & U1 & M1).
  exists s1, f1. do 4 (split; [assumption|]). intros s2 f2 I2 Hsub.
  destruct (kinit2_khugeinit_spec s2 f2 I2) as (s' & fl & hl & E & I' & U & HU & Mf & Mh & L).
  { intros p Hp. apply M1, Hsub, Hp. }
  exists s', fl, hl. do 4 (split; [assumption|]). split; [|auto].
  intros p. rewrite Mf. split.
  - intros [Hp | [Hp Hge]]; [split; [apply M1, Hsub, Hp | auto]|].
    split; [exact Hp|]. intros Hin. apply M1 in Hin. lia.
  - intros [Hp Himp]. destruct (Z.le_gt_cases (P2V (4 * 1024 * 1024)) p); [right; auto | left].
    apply Himp, M1. auto.
Qed.

(** C1 (kalloc.c): the allocators never hand out a page twice and never lose
    one.  A client that allocates and gives back its pages in any order, from
    either allocator, never panics; the pages it holds and the free pages
    stay distinct, and together they are always the same pages. *)
Theorem allocators_conserve_pages ops hops held hheld fl hl s :
  kinv fl hl s -> Forall page_ok held -> Forall huge_ok hheld ->
  NoDup (held ++ fl) -> NoDup (hheld ++ hl) ->
  exists held' hheld' fl' hl' s',
    (let! h := run_ops kalloc kfree ops held in
     let! hh := run_ops khugealloc khugefree hops hheld in
     ret (h, hh)) s = Ok (held', hheld') s' /\
    kinv fl' hl' s' /\
    NoDup (held' ++ fl') /\ Permutation (held ++ fl) (held' ++ fl') /\
    NoDup (hheld' ++ hl') /\ Permutation (hheld ++ hl) (hheld' ++ hl').
Proof.
  intros I Hb Hh Nb Nh.
  destruct (run_ops_spec (PA := base_allocator hl) ops held fl s)
    as (h1 & l1 & s1 & E1 & I1 & _ & N1 & P1); try assumption.
  destruct (run_ops_spec (PA := huge_allocator l1) hops hheld hl s1)
    as (h2 & l2 & s2 & E2 & I2 & _ & N2 & P2); try assumption.
  exists h1, h2, l1, l2, s2. split.
  - erewrite bind_ok by exact E1. erewrite bind_ok by exact E2. reflexivity.
  - auto.
Qed.

Lemma kfree_guard v s : u32 v -> page_ok v \/ ~ page_ok v /\ kfree v s = Panic "kfree".
Proof.
  intros Hv. unfold u32 in Hv. pose proof img_order as Hio.
  unfold KERNLINK, KERNBASE, EXTMEM in Hio.
  unfold page_ok, kfree, PGSIZE, KERNBASE, PHYSTOP.
  destruct (Z.eqb_spec (v mod 4096) 0); cbn [negb orb]; [|right; split; [lia | reflexivity]].
  destruct (Z.ltb_spec v img_end); cbn [orb]; [right; split; [lia | reflexivity]|].
  rewrite V2P_eq by (unfold KERNBASE, W32; lia). unfold KERNBASE.
  destruct (Z.leb_spec 0xE000000 (v - 0x80000000)); [right; split; [lia | reflexivity] | left; lia].
Qed.

Lemma khugefree_guard v s : u32 v -> huge_ok v \/ ~ huge_ok v /\ khugefree v s = Panic "khugefree".
Proof.
  intros Hv. unfold u32 in Hv.
  unfold huge_ok, khugefree, HUGE_PAGE_SIZE, HUGE_PAGE_START, HUGE_PAGE_END, V2P, w32, KERNBASE.
  change 0x400000 with 4194304.
  destruct (Z.eqb_spec (v mod 4194304) 0); cbn [negb orb]; [|right; split; [lia | reflexivity]].
  assert ((v - 0x80000000) mod 4294967296 =
          if v <? 0x80000000 then v + 0x80000000 else v - 0x80000000) as ->
    by (destruct (Z.ltb_spec v 0x80000000); zdm).
  destruct (Z.ltb_spec v 0x80000000).
  - destruct (Z.ltb_spec (v + 0x80000000) 0x1E000000); [lia|]. cbn [orb].
    destruct (Z.leb_spec 0x3E000000 (v + 0x80000000)); [right; split; [lia | reflexivity] | lia].
  - destruct (Z.ltb_spec (v - 0x80000000) 0x1E000000); cbn [orb]; [right; split; [lia | reflexivity]|].
    destruct (Z.leb_spec 0x3E000000 (v - 0x80000000)); [right; split; [lia | reflexivity] | left; lia].
Qed.

Lemma guard_cases (P : Prop) (r : result kstate unit) msg :
  (P -> exists s', r = Ok tt s') -> P \/ ~ P /\ r = Panic msg ->
  ((exists s', r = Ok tt s') <-> P) /\ (r = Panic msg <-> ~ P).
Proof.
  intros Hok [Hp | [Hp E]].
  - destruct (Hok Hp) as [s' ->]. split; split; eauto; [discriminate | tauto].
  - rewrite E. split; split; [intros [? ?]; discriminate | tauto | auto | auto].
Qed.

(** kalloc.c: [kfree] and [khugefree] accept exactly the addresses of
    their own page region and panic on every other address, in any state in
    which the CPU and the two locks are in order. *)
Lemma free_guards v s fl hl :
  u32 v -> kinv fl hl s ->
  (((exists s', kfree v s = Ok tt s') <-> page_ok v) /\
   (kfree v s = Panic "kfree" <-> ~ page_ok v)) /\
  ((exists s', khugefree v s = Ok tt s') <-> huge_ok v) /\
  (khugefree v s = Panic "khugefree" <-> ~ huge_ok v).
Proof.
  intros Hv [Hc Hl Hh _ _ _ _ _ _].
  split; apply guard_cases; auto using kfree_guard, khugefree_guard.
  - intros P. rewrite (kfree_eq v s P Hc Hl). eauto.
  - intros P. rewrite (khugefree_eq v s P Hc Hh). eauto.
Qed.

End Results.

Definition boot0 : kstate := boot_state (fun _ => 0) (fun _ _ => replicate 512 0).

Lemma boot0_cpu : cpu_ok boot0.
Proof. constructor; cbn; [reflexivity | lia | lia]. Qed.

(** main() takes a page for the kernel's page directory in between. *)
Lemma boot_free_lists_witness :
  exists s1 p s2 s' fl hl,
    @kinit1 build_image (@img_end build_image) (P2V (4 * 1024 * 1024)) boot0 = Ok tt s1 /\
    kalloc s1 = Ok p s2 /\ @page_ok build_image p /\
    (@kinit2 build_image (P2V (4 * 1024 * 1024)) (P2V PHYSTOP) ;;
     khugeinit (P2V HUGE_PAGE_START) (P2V HUGE_PAGE_END)) s2 = Ok tt s' /\
    @kinv build_image fl hl s' /\
    (forall q, q ∈ fl <-> @page_ok build_image q /\ q <> p) /\ length hl = 128%nat.
Proof.
  destruct (@boot_free_lists build_image boot0 boot0_cpu) as (s1 & f1 & E1 & I1 & _ & M1 & H);
    [split; reflexivity | reflexivity | reflexivity |].
  destruct f1 as [|p f1].
  { exfalso. apply (not_elem_of_nil 0x80200000), M1.
    split; [|reflexivity]. repeat split; vm_compute; discriminate. }
  destruct (@pa_pop _ _ _ _ _ (@base_allocator build_image []) p f1 s1 I1) as (s2 & E2 & I2 & Hp & Hn & _).
  destruct (H s2 f1 I2) as (s' & fl & hl & E & I' & _ & _ & Mf & _ & L); [intros q Hq; right; exact Hq|].
  exists s1, p, s2, s', fl, hl. do 5 (split; [assumption|]). split; [|exact L].
  intros q. rewrite Mf, elem_of_cons. split.
  - intros [Hq Himp]. split; [exact Hq|]. intros ->. apply Hn, Himp. auto.
  - intros [Hq Hne]. split; [exact Hq|]. intros [-> | Hin]; [congruence | exact Hin].
Defined.

(** A state with one free 4 KB page and no free 4 MB page. *)
Definition one_page : kstate := set_kmem (mkKmem true 0x80400000) boot0.

Lemma one_page_kinv : @kinv build_image [0x80400000] [] one_page.
Proof.
  constructor; try (constructor; fail).
  - pose proof boot0_cpu. cpuok.
  - split; reflexivity.
  - split; reflexivity.
  - cbn. repeat split; try lia.
  - repeat constructor; unfold build_image, img_end, KERNBASE, PHYSTOP; lia.
  - repeat constructor. intros H. invc H.
Qed.

Lemma allocators_conserve_pages_witness :
  exists held' hheld' fl' hl' s',
    (let! h := run_ops kalloc (@kfree build_image) [OpAlloc; OpAlloc; OpFree 0] [] in
     let! hh := run_ops khugealloc khugefree [OpFree 0; OpAlloc] [0x9E000000] in
     ret (h, hh)) one_page = Ok (held', hheld') s' /\
    @kinv build_image fl' hl' s' /\
    NoDup (held' ++ fl') /\ Permutation ([] ++ [0x80400000]) (held' ++ fl') /\
    NoDup (hheld' ++ hl') /\ Permutation ([0x9E000000] ++ []) (hheld' ++ hl').
Proof.
  apply (@allocators_conserve_pages build_image); [exact one_page_kinv | | | |].
  - constructor.
  - repeat constructor; unfold KERNBASE, HUGE_PAGE_START, HUGE_PAGE_END; lia.
  - repeat constructor. intros H. invc H.
  - repeat constructor. intros H. invc H.
Defined.

Lemma free_guards_witness :
  (((exists s', @kfree build_image 0x80401000 one_page = Ok tt s') <-> @page_ok build_image 0x80401000) /\
   (@kfree build_image 0x80401000 one_page = Panic "kfree" <-> ~ @page_ok build_image 0x80401000)) /\
  ((exists s', khugefree 0x80401000 one_page = Ok tt s') <-> huge_ok 0x80401000) /\
  (khugefree 0x80401000 one_page = Panic "khugefree" <-> ~ huge_ok 0x80401000).
Proof. apply (@free_guards build_image 0x80401000 one_page [0x80400000] []); [unfold u32; lia | exact one_page_kinv]. Defined.
