(* ===== verification/Vm.v ===== *)
(** * solution/vm.c: page tables

    Page directories and page tables are words of memory, read and written
    with [ld32] and [st32] as the kernel does through its own mappings.
    [hw_translate] is the two-level page walk of the MMU with 4 MB pages
    enabled (entry.S sets CR4_PSE): the theorems say what a process sees
    through it.  [loaduvm] needs the file system and is in Exec.v. *)

From Stdlib Require Import ZArith Lia FunctionalExtensionality.
From stdpp Require Import base list strings gmap.
From S2P Require Import Prelude Mem Mmu Kernel Spinlock Kalloc.

(** ** Definitions *)

(** The address of [pgdir[PDX(va)]] and of [pgtab[PTX(va)]]. *)
Definition pde_addr (pgdir va : Z) : Z := w32 (pgdir + 4 * PDX va).
Definition pte_addr (pgtab va : Z) : Z := w32 (pgtab + 4 * PTX va).

Definition walkpgdir (pgdir va : Z) (alloc : bool) : K Z :=
  let pde := pde_addr pgdir va in
  let! e := ld32 pde in
  if has e PTE_P then ret (pte_addr (P2V (PTE_ADDR e)) va)
  else if negb alloc then ret 0
  else
    let! pgtab := kalloc in
    if pgtab =? 0 then ret 0
    else
      kmemset pgtab 0 PGSIZE ;;
      st32 pde (Z.lor (Z.lor (Z.lor (V2P pgtab) PTE_P) PTE_W) PTE_U) ;;
      ret (pte_addr pgtab va).

Definition in_huge_range (pa : Z) : bool := (HUGE_PAGE_START <=? pa) && (pa <? HUGE_PAGE_END).

(** The two loops of [mappages]; both stop when [a == last]. *)
Fixpoint maphuge_loop (pgdir a last pa perm : Z) (fuel : nat) : K Z :=
  match fuel with
  | O => nofuel
  | S f =>
      st32 (pde_addr pgdir a) (Z.lor (Z.lor (Z.lor pa perm) PTE_P) PTE_PS) ;;
      if a =? last then ret 0
      else maphuge_loop pgdir (w32 (a + HUGE_PAGE_SIZE)) last (w32 (pa + HUGE_PAGE_SIZE)) perm f
  end.

Fixpoint mapbase_loop (pgdir a last pa perm : Z) (fuel : nat) : K Z :=
  match fuel with
  | O => nofuel
  | S f =>
      let! pte := walkpgdir pgdir a true in
      if pte =? 0 then ret (-1)
      else
        let! e := ld32 pte in
        if has e PTE_P then panic "remap"
        else
          st32 pte (Z.lor (Z.lor pa perm) PTE_P) ;;
          if a =? last then ret 0
          else mapbase_loop pgdir (w32 (a + PGSIZE)) last (w32 (pa + PGSIZE)) perm f
  end.

Definition map_fuel (size a last : Z) : nat := S (Z.to_nat (w32 (last - a) / size)).

Definition mappages (pgdir va size pa perm : Z) : K Z :=
  if in_huge_range pa then
    let a := HUGEPGROUNDDOWN va in
    let last := HUGEPGROUNDDOWN (w32 (va + size - 1)) in
    maphuge_loop pgdir a last pa perm (map_fuel HUGE_PAGE_SIZE a last)
  else
    let a := PGROUNDDOWN va in
    let last := PGROUNDDOWN (w32 (va + size - 1)) in
    mapbase_loop pgdir a last pa perm (map_fuel PGSIZE a last).

(** [deallocuvm]: both branches of the loop, from address [a]. *)
Fixpoint dealloc_loop `{Image} (pgdir oldsz a : Z) (fuel : nat) : K unit :=
  match fuel with
  | O => nofuel
  | S f =>
      if a <? oldsz then
        let! pde := ld32 (pde_addr pgdir a) in
        if has pde PTE_PS then
          let! pte := walkpgdir pgdir a false in
          let! a' :=
            (if pte =? 0 then
             ret (w32 (PGADDR (PDX a + 1) 0 0 - HUGE_PAGE_SIZE))
           else
             let! e := ld32 pte in
             if has e PTE_P then
               let pa := PTE_ADDR e in
               if pa =? 0 then panic "khugefree"
               else khugefree (P2V pa) ;; st32 pte 0 ;; ret a
             else ret a) in
          dealloc_loop pgdir oldsz (w32 (a' + HUGE_PAGE_SIZE)) f
        else
          let! pte := walkpgdir pgdir a false in
          let! a' :=
            (if pte =? 0 then
             ret (w32 (PGADDR (PDX a + 1) 0 0 - PGSIZE))
           else
             let! e := ld32 pte in
             if has e PTE_P then
               let pa := PTE_ADDR e in
               if pa =? 0 then panic "kfree"
               else kfree (P2V pa) ;; st32 pte 0 ;; ret a
             else ret a) in
          dealloc_loop pgdir oldsz (w32 (a' + PGSIZE)) f
      else ret tt
  end.

Definition dealloc_fuel (oldsz a : Z) : nat := S (S (Z.to_nat ((oldsz - a) / PGSIZE))).

Definition deallocuvm `{Image} (pgdir oldsz newsz : Z) : K Z :=
  if oldsz <=? newsz then ret oldsz
  else
    let! pde := ld32 (pde_addr pgdir newsz) in
    let a := if has pde PTE_PS then HUGEPGROUNDUP newsz else PGROUNDUP newsz in
    dealloc_loop pgdir oldsz a (dealloc_fuel oldsz a) ;;
    ret newsz.

Fixpoint freevm_loop `{Image} (pgdir : Z) (i : Z) (n : nat) : K unit :=
  match n with
  | O => ret tt
  | S n' =>
      let! e := ld32 (w32 (pgdir + 4 * i)) in
      (if has e PTE_P then
         if has e PTE_PS then ret tt else kfree (P2V (PTE_ADDR e))
       else ret tt) ;;
      freevm_loop pgdir (i + 1) n'
  end.

Definition freevm `{Image} (pgdir : Z) : K unit :=
  if pgdir =? 0 then panic "freevm: no pgdir"
  else
    let! _ := deallocuvm pgdir KERNBASE 0 in
    freevm_loop pgdir 0 (Z.to_nat NPDENTRIES) ;;
    kfree pgdir.

(** [kmap]: the kernel's mappings. *)
Record kmap_t : Type := mkKmap { km_virt : Z; km_phys_start : Z; km_phys_end : Z; km_perm : Z }.
Definition kmap `{Image} : list kmap_t :=
  [ mkKmap KERNBASE 0 EXTMEM PTE_W;
    mkKmap KERNLINK (V2P KERNLINK) (V2P img_data) 0;
    mkKmap img_data (V2P img_data) PHYSTOP PTE_W;
    mkKmap DEVSPACE DEVSPACE 0 PTE_W;
    mkKmap (P2V HUGE_PAGE_START) HUGE_PAGE_START HUGE_PAGE_END (Z.lor PTE_W PTE_PS) ].

Fixpoint setupkvm_loop `{Image} (pgdir : Z) (ks : list kmap_t) : K Z :=
  match ks with
  | [] => ret pgdir
  | k :: ks' =>
      let! r := mappages pgdir (km_virt k) (w32 (km_phys_end k - km_phys_start k))
                  (km_phys_start k) (km_perm k) in
      if r <? 0 then freevm pgdir ;; ret 0 else setupkvm_loop pgdir ks'
  end.

Definition setupkvm `{Image} : K Z :=
  let! pgdir := kalloc in
  if pgdir =? 0 then ret 0
  else
    kmemset pgdir 0 PGSIZE ;;
    if DEVSPACE <? P2V PHYSTOP then panic "PHYSTOP too high"
    else setupkvm_loop pgdir kmap.

Definition set_c_cr3 v c := mkCpu (c_apicid c) (c_ncli c) (c_intena c) (c_if c) (c_proc c) v (c_gdt c) (c_tss_addr c) (c_esp0 c) (c_ss0 c) (c_iomb c) (c_tr c).
Definition lcr3 (v : Z) : K unit := upd_cpu (set_c_cr3 v).

Definition switchkvm : K unit :=
  let! kpgdir := gets k_kpgdir in lcr3 (V2P kpgdir).

Definition kvmalloc `{Image} : K unit :=
  let! d := setupkvm in
  modify (set_kpgdir d) ;;
  switchkvm.

(** mmu.h: segment descriptors; [SEG] and [SEG16]. *)
Definition SEG_KCODE : nat := 1.
Definition SEG_KDATA : nat := 2.
Definition SEG_UCODE : nat := 3.
Definition SEG_UDATA : nat := 4.
Definition SEG_TSS : nat := 5.
Definition DPL_USER : Z := 3.
Definition STA_X : Z := 8.
Definition STA_W : Z := 2.
Definition STA_R : Z := 2.
Definition STS_T32A : Z := 9.
Definition SEG (type base lim dpl : Z) : segdesc :=
  mkSegdesc (Z.land (Z.shiftr lim 12) 0xffff) (Z.land base 0xffff) (Z.land (Z.shiftr base 16) 0xff)
    type 1 dpl 1 (Z.shiftr lim 28) 0 0 1 1 (Z.shiftr base 24).
Definition SEG16 (type base lim dpl : Z) : segdesc :=
  mkSegdesc (Z.land lim 0xffff) (Z.land base 0xffff) (Z.land (Z.shiftr base 16) 0xff)
    type 1 dpl 1 (Z.shiftr lim 16) 0 0 1 0 (Z.shiftr base 24).
Definition clear_s (d : segdesc) : segdesc :=
  mkSegdesc (sd_lim_15_0 d) (sd_base_15_0 d) (sd_base_23_16 d) (sd_type d) 0 (sd_dpl d) (sd_p d)
    (sd_lim_19_16 d) (sd_avl d) (sd_rsv1 d) (sd_db d) (sd_g d) (sd_base_31_24 d).

Definition set_c_gdt v c := mkCpu (c_apicid c) (c_ncli c) (c_intena c) (c_if c) (c_proc c) (c_cr3 c) v (c_tss_addr c) (c_esp0 c) (c_ss0 c) (c_iomb c) (c_tr c).
Definition set_c_tss e0 s0 io c := mkCpu (c_apicid c) (c_ncli c) (c_intena c) (c_if c) (c_proc c) (c_cr3 c) (c_gdt c) (c_tss_addr c) e0 s0 io (c_tr c).
Definition set_c_tr v c := mkCpu (c_apicid c) (c_ncli c) (c_intena c) (c_if c) (c_proc c) (c_cr3 c) (c_gdt c) (c_tss_addr c) (c_esp0 c) (c_ss0 c) (c_iomb c) v.

Definition seginit : K unit :=
  let! _ := mycpu in
  upd_cpu (fun c => set_c_gdt
    (<[SEG_UDATA := SEG STA_W 0 0xffffffff DPL_USER]>
      (<[SEG_UCODE := SEG (Z.lor STA_X STA_R) 0 0xffffffff DPL_USER]>
        (<[SEG_KDATA := SEG STA_W 0 0xffffffff 0]>
          (<[SEG_KCODE := SEG (Z.lor STA_X STA_R) 0 0xffffffff 0]> (c_gdt c))))) c).

(** [switchuvm(p)]; 103 is [sizeof(struct taskstate) - 1]. *)
Definition switchuvm (p : option nat) : K unit :=
  match p with
  | None => panic "switchuvm: no process"
  | Some i =>
      let! ps := gets k_procs in
      match ps !! i with
      | None => fault
      | Some p =>
          if p_kstack p =? 0 then panic "switchuvm: no kstack"
          else if p_pgdir p =? 0 then panic "switchuvm: no pgdir"
          else
            pushcli ;;
            let! _ := mycpu in
            upd_cpu (fun c => set_c_gdt
              (<[SEG_TSS := clear_s (SEG16 STS_T32A (c_tss_addr c) 103 0)]> (c_gdt c)) c) ;;
            upd_cpu (set_c_tss (w32 (p_kstack p + KSTACKSIZE)) (Z.of_nat SEG_KDATA * 8) 0xFFFF) ;;
            upd_cpu (set_c_tr (Z.of_nat SEG_TSS * 8)) ;;
            lcr3 (V2P (p_pgdir p)) ;;
            popcli
      end
  end.

(** [mem = kalloc()] is not checked; a null page is a fault in [memset]. *)
Definition inituvm (pgdir init sz : Z) : K unit :=
  if PGSIZE <=? sz then panic "inituvm: more than a page"
  else
    let! mem := kalloc in
    if mem =? 0 then fault
    else
      kmemset mem 0 PGSIZE ;;
      let! _ := mappages pgdir 0 PGSIZE (V2P mem) (Z.lor PTE_W PTE_U) in
      kmemmove mem init sz.

Fixpoint allocuvm_loop `{Image} (pgdir oldsz newsz a : Z) (fuel : nat) : K Z :=
  match fuel with
  | O => nofuel
  | S f =>
      if a <? newsz then
        let! mem := kalloc in
        if mem =? 0 then
          cprintf "allocuvm out of memory\n" ;;
          let! _ := deallocuvm pgdir newsz oldsz in
          ret 0
        else
          kmemset mem 0 PGSIZE ;;
          let! r := mappages pgdir a PGSIZE (V2P mem) (Z.lor PTE_W PTE_U) in
          if r <? 0 then
            cprintf "allocuvm out of memory (2)\n" ;;
            let! _ := deallocuvm pgdir newsz oldsz in
            kfree mem ;;
            ret 0
          else allocuvm_loop pgdir oldsz newsz (w32 (a + PGSIZE)) f
      else ret newsz
  end.

Definition alloc_fuel (size newsz a : Z) : nat := S (S (Z.to_nat ((newsz - a) / size))).

Definition allocuvm `{Image} (pgdir oldsz newsz : Z) : K Z :=
  if KERNBASE <=? newsz then ret 0
  else if newsz <? oldsz then ret oldsz
  else
    let a := PGROUNDUP oldsz in
    allocuvm_loop pgdir oldsz newsz a (alloc_fuel PGSIZE newsz a).

Fixpoint allochugeuvm_loop `{Image} (pgdir oldsz newsz a : Z) (fuel : nat) : K Z :=
  match fuel with
  | O => nofuel
  | S f =>
      if a <? newsz then
        let! mem := khugealloc in
        if mem =? 0 then
          cprintf "allochugeuvm out of memory\n" ;;
          let! _ := deallocuvm pgdir newsz oldsz in
          ret 0
        else
          kmemset mem 0 HUGE_PAGE_SIZE ;;
          let! r := mappages pgdir a HUGE_PAGE_SIZE (V2P mem)
                      (Z.lor (Z.lor PTE_PS PTE_W) PTE_U) in
          if r <? 0 then
            cprintf "allochugeuvm out of memory (2)\n" ;;
            let! _ := deallocuvm pgdir newsz oldsz in
            kfree mem ;;
            ret 0
          else allochugeuvm_loop pgdir oldsz newsz (w32 (a + HUGE_PAGE_SIZE)) f
      else ret newsz
  end.

Definition allochugeuvm `{Image} (pgdir oldsz newsz : Z) : K Z :=
  if newsz <? oldsz then ret oldsz
  else
    let a := HUGEPGROUNDUP oldsz in
    allochugeuvm_loop pgdir oldsz newsz a (alloc_fuel HUGE_PAGE_SIZE newsz a).

Fixpoint deallochuge_loop (pgdir oldsz a : Z) (fuel : nat) : K unit :=
  match fuel with
  | O => nofuel
  | S f =>
      if a <? oldsz then
        let! pte := walkpgdir pgdir a false in
        let! a' :=
          (if pte =? 0 then ret (w32 (PGADDR (PDX a + 1) 0 0 - HUGE_PAGE_SIZE))
           else
             let! e := ld32 pte in
             if has e PTE_P then
               let pa := PTE_ADDR e in
               if pa =? 0 then panic "khugefree"
               else khugefree (P2V pa) ;; st32 pte 0 ;; ret a
             else ret a) in
        deallochuge_loop pgdir oldsz (w32 (a' + HUGE_PAGE_SIZE)) f
      else ret tt
  end.

Definition deallochugeuvm (pgdir oldsz newsz : Z) : K Z :=
  if oldsz <=? newsz then ret oldsz
  else
    let a := HUGEPGROUNDUP newsz in
    deallochuge_loop pgdir oldsz a (alloc_fuel HUGE_PAGE_SIZE oldsz a) ;;
    ret newsz.

Definition clearpteu (pgdir uva : Z) : K unit :=
  let! pte := walkpgdir pgdir uva false in
  if pte =? 0 then panic "clearpteu"
  else
    let! e := ld32 pte in
    st32 pte (Z.land e (w32 (Z.lnot PTE_U))).

(** The two loops of [copyuvm]; [false] stands for the jump to [bad]. *)
Fixpoint copybase_loop `{Image} (pgdir d sz i : Z) (fuel : nat) : K bool :=
  match fuel with
  | O => nofuel
  | S f =>
      if i <? sz then
        let! pte := walkpgdir pgdir i false in
        if pte =? 0 then panic "copyuvm: pte should exist"
        else
          let! e := ld32 pte in
          if negb (has e PTE_P) then panic "copyuvm: page not present"
          else
            let pa := PTE_ADDR e in
            let flags := PTE_FLAGS e in
            let! mem := kalloc in
            if mem =? 0 then ret false
            else
              kmemmove mem (P2V pa) PGSIZE ;;
              let! r := mappages d i PGSIZE (V2P mem) flags in
              if r <? 0 then kfree mem ;; ret false
              else copybase_loop pgdir d sz (w32 (i + PGSIZE)) f
      else ret true
  end.

Fixpoint copyhuge_loop (pgdir d lim i : Z) (fuel : nat) : K bool :=
  match fuel with
  | O => nofuel
  | S f =>
      if i <? lim then
        let! e := ld32 (pde_addr pgdir i) in
        let pa := PTE_ADDR e in
        let flags := PTE_FLAGS e in
        let! mem := khugealloc in
        if mem =? 0 then ret false
        else
          kmemmove mem (P2V pa) HUGE_PAGE_SIZE ;;
          let! r := mappages d i HUGE_PAGE_SIZE (V2P mem) flags in
          if r <? 0 then khugefree mem ;; ret false
          else copyhuge_loop pgdir d lim (w32 (i + HUGE_PAGE_SIZE)) f
      else ret true
  end.

Definition copyuvm `{Image} (pgdir sz hugesz : Z) : K Z :=
  let! d := setupkvm in
  if d =? 0 then ret 0
  else
    let! ok1 := copybase_loop pgdir d sz 0 (alloc_fuel PGSIZE sz 0) in
    let! ok :=
      (if (ok1 : bool) then
         let lim := w32 (HUGE_VA_OFFSET + hugesz) in
         copyhuge_loop pgdir d lim HUGE_VA_OFFSET (alloc_fuel HUGE_PAGE_SIZE lim HUGE_VA_OFFSET)
       else ret false) in
    if (ok : bool) then ret d else freevm d ;; ret 0.

(** ** The MMU's view

    The frame address, and whether user code may read and may write. *)
Definition hw_translate (m : mem) (pgdir va : Z) : option (Z * bool * bool) :=
  let pde := load32 m (pgdir + 4 * PDX va) in
  if negb (has pde PTE_P) then None
  else if has pde PTE_PS then
    Some (pde - pde mod 4194304 + va mod 4194304, has pde PTE_U, has pde PTE_W)
  else
    let pte := load32 m (P2V (PTE_ADDR pde) + 4 * PTX va) in
    if negb (has pte PTE_P) then None
    else Some (PTE_ADDR pte + va mod 4096,
               has pde PTE_U && has pte PTE_U, has pde PTE_W && has pte PTE_W).

(** ** Well-formed page directories

    [pt] gives, per directory index, the page that holds the page table.
    The other entries are empty or map a 4 MB page. *)
Definition pde_at (m : mem) (pgdir i : Z) : Z := load32 m (pgdir + 4 * i).

Record pd_ok `{Image} (m : mem) (pgdir : Z) (pt : gmap Z Z) : Prop := {
  pd_page : page_ok pgdir;
  pd_some i p : pt !! i = Some p ->
    0 <= i < 1024 /\ page_ok p /\ p <> pgdir /\ pde_at m pgdir i = V2P p + 7;
  pd_none i : 0 <= i < 1024 -> pt !! i = None ->
    pde_at m pgdir i = 0 \/ has (pde_at m pgdir i) PTE_P = true /\ has (pde_at m pgdir i) PTE_PS = true;
  pd_inj i j p : pt !! i = Some p -> pt !! j = Some p -> i = j }.

(** The page-table entry for [va]; 0 where there is no page table. *)
Definition pteval (m : mem) (pt : gmap Z Z) (va : Z) : Z :=
  match pt !! PDX va with
  | Some p => load32 m (p + 4 * PTX va)
  | None => 0
  end.

(** Pages that belong to the page table itself. *)
Definition pt_page (pgdir : Z) (pt : gmap Z Z) (x : Z) : Prop :=
  x = pgdir \/ exists i, pt !! i = Some x.

Section PageTables.
Context `{Image}.

Lemma V2P_page p : page_ok p -> V2P p = p - KERNBASE /\ V2P p mod 4096 = 0 /\ u32 (V2P p).
Proof.
  intros Hp. pose proof (page_ok_addr p Hp) as Ha. destruct Hp as (Hm & _ & _).
  assert (E : V2P p = p - KERNBASE) by (apply V2P_eq; unfold KERNBASE, PHYSTOP, W32 in *; lia).
  rewrite E. unfold KERNBASE, PHYSTOP, u32 in *. repeat split; try lia. zdm.
Qed.

Lemma page_word_within q p j m m' :
  within q 4096 m m' -> q mod 4096 = 0 -> p mod 4096 = 0 -> p <> q -> 0 <= j < 1024 ->
  load32 m' (p + 4 * j) = load32 m (p + 4 * j).
Proof.
  intros W Hq Hp Hne Hj. apply (within_load32 q 4096); [exact W|].
  destruct (page_apart p q Hp Hq Hne); lia.
Qed.

Lemma pd_ok_ext m m' pgdir pt :
  pd_ok m pgdir pt -> (forall i, 0 <= i < 1024 -> pde_at m' pgdir i = pde_at m pgdir i) ->
  pd_ok m' pgdir pt.
Proof.
  intros [P1 P2 P3 P4] E. constructor; auto.
  - intros i p Hi. destruct (P2 i p Hi) as (? & ? & ? & ?). rewrite E by assumption. auto.
  - intros i Hi Hn. rewrite E by assumption. auto.
Qed.

Lemma pd_ok_within m m' pgdir pt q :
  pd_ok m pgdir pt -> within q 4096 m m' -> q mod 4096 = 0 -> q <> pgdir -> pd_ok m' pgdir pt.
Proof.
  intros P W Hq Hne. apply (pd_ok_ext m); [exact P|]. intros i Hi.
  apply (page_word_within q); auto. apply (pd_page _ _ _ P).
Qed.

Lemma pteval_within m m' pgdir pt q va :
  pd_ok m pgdir pt -> within q 4096 m m' -> q mod 4096 = 0 -> ~ pt_page pgdir pt q -> u32 va ->
  pteval m' pt va = pteval m pt va.
Proof.
  intros P W Hq Hne Hva. unfold pteval. destruct (pt !! PDX va) as [p|] eqn:E; [|reflexivity].
  destruct (pd_some _ _ _ P _ _ E) as (_ & Hp & _ & _).
  apply (page_word_within q); auto using PTX_range; [apply Hp|].
  intros ->. apply Hne. right. eauto.
Qed.

Lemma pde_addr_eq pgdir va : page_ok pgdir -> u32 va -> pde_addr pgdir va = pgdir + 4 * PDX va.
Proof.
  intros Hp Hva. pose proof (page_ok_addr _ Hp). pose proof (PDX_range va Hva).
  apply w32_small. unfold u32, KERNBASE, PHYSTOP in *. lia.
Qed.

Lemma pte_addr_eq p va : page_ok p -> u32 va -> pte_addr p va = p + 4 * PTX va.
Proof.
  intros Hp Hva. pose proof (page_ok_addr _ Hp). pose proof (PTX_range va Hva).
  apply w32_small. unfold u32, KERNBASE, PHYSTOP in *. lia.
Qed.

(** The directory entry that [walkpgdir] writes. *)
Lemma pde_entry p :
  page_ok p ->
  Z.lor (Z.lor (Z.lor (V2P p) PTE_P) PTE_W) PTE_U = V2P p + 7 /\
  has (V2P p + 7) PTE_P = true /\ has (V2P p + 7) PTE_PS = false /\
  has (V2P p + 7) PTE_U = true /\ has (V2P p + 7) PTE_W = true /\
  P2V (PTE_ADDR (V2P p + 7)) = p /\ u32 (V2P p + 7).
Proof.
  intros Hp. destruct (V2P_page p Hp) as (E & Ha & Hu). pose proof (page_ok_addr p Hp) as Hb.
  rewrite <- !Z.lor_assoc. change (Z.lor PTE_P (Z.lor PTE_W PTE_U)) with 7.
  rewrite <- (entry_sum (V2P p) 7) by lia.
  rewrite has_P, has_PS, has_U, has_W, !testbit_lor_aligned by (lia || assumption).
  rewrite PTE_ADDR_entry by (lia || assumption).
  repeat split; try reflexivity.
  - apply P2V_V2P. unfold u32, KERNBASE, PHYSTOP in *. lia.
  - rewrite entry_sum by lia. unfold u32, KERNBASE, PHYSTOP in *. lia.
  - rewrite entry_sum by lia. unfold u32, KERNBASE, PHYSTOP in *. lia.
Qed.

Lemma walk_present pgdir pt s va b p :
  pd_ok (k_mem s) pgdir pt -> u32 va -> pt !! PDX va = Some p ->
  walkpgdir pgdir va b s = Ok (p + 4 * PTX va) s.
Proof.
  intros P Hva E. destruct (pd_some _ _ _ P _ _ E) as (_ & Hp & _ & Hpde).
  destruct (pde_entry p Hp) as (_ & HP & _ & _ & _ & HA & _).
  unfold walkpgdir. rewrite pde_addr_eq by (auto; apply P).
  unfold ld32, bind, gets. unfold pde_at in Hpde. rewrite Hpde, HP, HA.
  rewrite pte_addr_eq by assumption. reflexivity.
Qed.

Lemma walk_absent pgdir pt s va :
  pd_ok (k_mem s) pgdir pt -> u32 va -> pde_at (k_mem s) pgdir (PDX va) = 0 ->
  walkpgdir pgdir va false s = Ok 0 s.
Proof.
  intros P Hva E. unfold walkpgdir. rewrite pde_addr_eq by (auto; apply P).
  unfold ld32, bind, gets. unfold pde_at in E. rewrite E. reflexivity.
Qed.

(** Memory that differs on some pages only. *)
Definition agree_off (P : Z -> Prop) (m m' : mem) : Prop :=
  forall x, ~ P (x - x mod 4096) -> load8 m' x = load8 m x.

Lemma agree_off_refl P m : agree_off P m m.
Proof. intros x _. reflexivity. Qed.

Lemma agree_off_trans (P Q R : Z -> Prop) m1 m2 m3 :
  agree_off P m1 m2 -> agree_off Q m2 m3 -> (forall x, P x -> R x) -> (forall x, Q x -> R x) ->
  agree_off R m1 m3.
Proof. intros A B HP HQ x Hx. rewrite B, A; auto. Qed.

Lemma within_agree q m m' : q mod 4096 = 0 -> within q 4096 m m' -> agree_off (eq q) m m'.
Proof. intros Hq W x Hx. apply W. zdm. Qed.

Lemma agree_off_weaken (P Q : Z -> Prop) m m' :
  agree_off P m m' -> (forall x, P x -> Q x) -> agree_off Q m m'.
Proof. intros A HP x Hx. apply A. auto. Qed.

Lemma agree_off_word (P : Z -> Prop) m m' p j :
  agree_off P m m' -> p mod 4096 = 0 -> 0 <= j < 1024 -> ~ P p ->
  load32 m' (p + 4 * j) = load32 m (p + 4 * j).
Proof.
  intros A Hp Hj Hn. apply load32_ext. intros i Hi. apply A.
  replace (p + 4 * j + i - (p + 4 * j + i) mod 4096) with p; [exact Hn | zdm].
Qed.

Lemma store_word_within p j m e :
  0 <= j < 1024 -> within p 4096 m (store32 m (p + 4 * j) e).
Proof. intros Hj x Hx. apply load8_store32_ne. lia. Qed.

Lemma store_word_frame p q j k m e :
  p mod 4096 = 0 -> q mod 4096 = 0 -> 0 <= j < 1024 -> 0 <= k < 1024 -> p <> q \/ j <> k ->
  load32 (store32 m (p + 4 * j) e) (q + 4 * k) = load32 m (q + 4 * k).
Proof.
  intros Hp Hq Hj Hk Hne. apply load32_store32_disj.
  destruct (Z.eq_dec p q) as [-> | Hpq]; [lia|].
  destruct (page_apart p q Hp Hq Hpq); lia.
Qed.

(** A page directory, its tables and the free lists of the allocators. *)
Record pspace (fl hl : list Z) (pgdir : Z) (pt : gmap Z Z) (s : kstate) : Prop := {
  ps_inv : kinv fl hl s;
  ps_pd : pd_ok (k_mem s) pgdir pt;
  ps_apart x : pt_page pgdir pt x -> x ∉ fl }.

Lemma pt_page_ok m pgdir pt x : pd_ok m pgdir pt -> pt_page pgdir pt x -> page_ok x.
Proof.
  intros P [-> | [i Hi]]; [apply (pd_page _ _ _ P) | apply (pd_some _ _ _ P _ _ Hi)].
Qed.

(** Writing one word of a page-table page. *)
Lemma pteval_store m pgdir pt p a e v :
  pd_ok m pgdir pt -> pt !! PDX a = Some p -> u32 a -> u32 v ->
  pteval (store32 m (p + 4 * PTX a) e) pt v =
    if a / 4096 =? v / 4096 then w32 e else pteval m pt v.
Proof.
  intros P Hp Ha Hv. unfold pteval.
  destruct (pd_some _ _ _ P _ _ Hp) as (_ & Hpk & _).
  pose proof (PTX_range a Ha). pose proof (PTX_range v Hv).
  destruct (Z.eqb_spec (a / 4096) (v / 4096)) as [E | E].
  - assert (PDX v = PDX a) as -> by (rewrite !PDX_div by assumption; zdm).
    assert (PTX v = PTX a) as -> by (rewrite !PTX_div by assumption; congruence).
    rewrite Hp. apply load32_store32_same.
  - destruct (pt !! PDX v) as [q|] eqn:Hq; [|reflexivity].
    destruct (pd_some _ _ _ P _ _ Hq) as (_ & Hqk & _).
    apply store_word_frame; [apply Hpk | apply Hqk | assumption | assumption |].
    destruct (Z.eq_dec p q) as [-> | ]; [right | left; assumption].
    pose proof (pd_inj _ _ _ P _ _ _ Hp Hq) as Ed.
    rewrite !PDX_div in Ed by assumption. rewrite !PTX_div by assumption. zdm.
Qed.

Lemma pd_ok_store m pgdir pt p j e :
  pd_ok m pgdir pt -> (exists i, pt !! i = Some p) -> 0 <= j < 1024 ->
  pd_ok (store32 m (p + 4 * j) e) pgdir pt.
Proof.
  intros P [i Hi] Hj. destruct (pd_some _ _ _ P _ _ Hi) as (_ & Hp & Hne & _).
  eapply pd_ok_within; [exact P | apply store_word_within, Hj | apply Hp | exact Hne].
Qed.

Lemma pspace_store fl hl pgdir pt s p j e :
  pspace fl hl pgdir pt s -> (exists i, pt !! i = Some p) -> 0 <= j < 1024 ->
  pspace fl hl pgdir pt (set_mem (store32 (k_mem s) (p + 4 * j) e) s).
Proof.
  intros [I P A] Hi Hj. assert (pt_page pgdir pt p) as Hpt by (right; exact Hi).
  constructor; cbn [k_mem set_mem].
  - apply (pa_write (PageAllocator := base_allocator hl) p); auto.
    + eapply pt_page_ok; eassumption.
    + apply store_word_within, Hj.
  - apply pd_ok_store; assumption.
  - exact A.
Qed.

(** What stays the same, and what may change, when tables are added. *)
Record pt_grows (fl : list Z) (pgdir : Z) (pt : gmap Z Z) (m : mem)
    (fl' : list Z) (pt' : gmap Z Z) (m' : mem) : Prop := {
  pg_used : exists u, fl = u ++ fl' /\
    forall x, pt_page pgdir pt' x <-> pt_page pgdir pt x \/ x ∈ u;
  pg_sub i p : pt !! i = Some p -> pt' !! i = Some p;
  pg_none i : 0 <= i < 1024 -> pt' !! i = None -> pde_at m' pgdir i = pde_at m pgdir i;
  pg_fresh i p : 0 <= i < 1024 -> pt !! i = None -> pt' !! i = Some p -> pde_at m pgdir i = 0;
  pg_mem : agree_off (fun x => x ∈ fl \/ pt_page pgdir pt x) m m' }.

Lemma pt_grows_refl fl pgdir pt m : pt_grows fl pgdir pt m fl pt m.
Proof.
  constructor; auto using agree_off_refl; [|congruence]. exists []. split; [reflexivity|].
  intros x. split; [auto | intros [? | Hx]; [assumption | invc Hx]].
Qed.

Lemma pt_grows_trans fl pgdir pt m fl1 pt1 m1 fl2 pt2 m2 :
  pt_grows fl pgdir pt m fl1 pt1 m1 -> pt_grows fl1 pgdir pt1 m1 fl2 pt2 m2 ->
  pt_grows fl pgdir pt m fl2 pt2 m2.
Proof.
  intros [(u & -> & U) S N R A] [(u' & -> & U') S' N' R' A']. constructor.
  - exists (u ++ u'). split; [apply app_assoc|]. intros x.
    rewrite U', U, elem_of_app. tauto.
  - auto.
  - intros i Hi Hn. rewrite N' by assumption. apply N; [assumption|].
    destruct (pt1 !! i) eqn:E; [|reflexivity]. apply S' in E. congruence.
  - intros i p Hi Hn Hs. destruct (pt1 !! i) as [p1|] eqn:E; [eapply R; eassumption|].
    rewrite <- N by assumption. eapply R'; eassumption.
  - eapply agree_off_trans; [exact A | exact A' | auto |].
    intros x [Hx | Hx]; [left; rewrite elem_of_app; auto|].
    apply U in Hx as [Hx | Hx]; [auto | left; rewrite elem_of_app; auto].
Qed.

Lemma pt_grows_store fl pgdir pt m fl' pt' m' p j e :
  pt_grows fl pgdir pt m fl' pt' m' -> pd_ok m' pgdir pt' ->
  (exists i, pt' !! i = Some p) -> 0 <= j < 1024 ->
  pt_grows fl pgdir pt m fl' pt' (store32 m' (p + 4 * j) e).
Proof.
  intros [(u & -> & U) S N R A] P Hi Hj. destruct Hi as [i Hi].
  destruct (pd_some _ _ _ P _ _ Hi) as (_ & Hp & Hne & _). constructor; [eauto | auto | | exact R |].
  - intros k Hk Hn. rewrite <- N by assumption. apply store_word_frame; auto.
    + apply Hp.
    + apply P.
  - eapply agree_off_trans; [exact A | apply within_agree; [apply Hp | apply store_word_within, Hj] | auto |].
    intros x <-. cbn beta. rewrite elem_of_app.
    assert (pt_page pgdir pt' p) as Hpt by (right; eauto). apply U in Hpt. tauto.
Qed.

(** [walkpgdir] adds a page table: a zeroed free page, entered in the
    directory.  No page-table entry changes. *)
Section NewTable.
Context (fl' hl : list Z) (pgdir q va : Z) (pt : gmap Z Z) (m : mem).
Context (P : pd_ok m pgdir pt) (Hq : page_ok q) (Hva : u32 va).
Context (Hnone : pt !! PDX va = None) (Hzero : pde_at m pgdir (PDX va) = 0).
Context (Hnew : ~ pt_page pgdir pt q).

Let m' : mem := store32 (fill m q 0 4096) (pgdir + 4 * PDX va) (V2P q + 7).
Let pt' : gmap Z Z := <[PDX va := q]> pt.

Lemma new_table_pde i : 0 <= i < 1024 ->
  pde_at m' pgdir i = if decide (i = PDX va) then V2P q + 7 else pde_at m pgdir i.
Proof.
  intros Hi. pose proof (pd_page _ _ _ P) as Hd. pose proof (PDX_range va Hva) as Hx.
  assert (pgdir <> q) by (intros ->; apply Hnew; left; reflexivity).
  unfold pde_at, m'. case_decide as E.
  - subst i. rewrite load32_store32_same. apply w32_small. apply (pde_entry q Hq).
  - rewrite store_word_frame by (auto; apply Hd).
    apply (page_word_within q); auto; [|apply Hq | apply Hd].
    intros x Hxx. apply load8_fill_out. exact Hxx.
Qed.

Lemma new_table_pd_ok : pd_ok m' pgdir pt'.
Proof.
  constructor.
  - apply P.
  - intros i p Hi. unfold pt' in Hi. rewrite lookup_insert in Hi. case_decide as E.
    + injection Hi as <-. subst i. split; [apply PDX_range, Hva|]. split; [exact Hq|].
      split; [intros ->; apply Hnew; left; reflexivity|].
      rewrite new_table_pde by apply PDX_range, Hva. by rewrite decide_True.
    + destruct (pd_some _ _ _ P _ _ Hi) as (H1 & H2 & H3 & H4).
      split; [exact H1|]. split; [exact H2|]. split; [exact H3|].
      rewrite new_table_pde by assumption. rewrite decide_False by congruence. exact H4.
  - intros i Hi Hn. unfold pt' in Hn. rewrite lookup_insert in Hn.
    case_decide as E; [discriminate|]. rewrite new_table_pde by assumption.
    rewrite decide_False by congruence. apply P; assumption.
  - intros i j p Hi Hj. unfold pt' in Hi, Hj. rewrite lookup_insert in Hi, Hj.
    repeat case_decide; simplify_eq; try reflexivity.
    + exfalso. apply Hnew. right. eauto.
    + exfalso. apply Hnew. right. eauto.
    + apply (pd_inj _ _ _ P i j p Hi Hj).
Qed.

Lemma new_table_pteval v : u32 v -> pteval m' pt' v = pteval m pt v.
Proof.
  intros Hv. pose proof (pd_page _ _ _ P) as Hd. pose proof (PTX_range v Hv) as Hx.
  pose proof (PDX_range va Hva) as Hi.
  assert (pgdir <> q) by (intros ->; apply Hnew; left; reflexivity).
  unfold pteval, pt', m'. rewrite lookup_insert. case_decide as E.
  - rewrite <- E, Hnone. rewrite store_word_frame by (auto; apply Hd || apply Hq).
    apply load32_fill_zero; lia.
  - destruct (pt !! PDX v) as [p|] eqn:Ep; [|reflexivity].
    destruct (pd_some _ _ _ P _ _ Ep) as (_ & Hp & Hpd & _).
    rewrite store_word_frame by (auto; apply Hd || apply Hp).
    apply (page_word_within q); auto; [|apply Hq | apply Hp |].
    + intros x Hxx. apply load8_fill_out. exact Hxx.
    + intros ->. apply Hnew. right. eauto.
Qed.

Lemma new_table_grows : pt_grows (q :: fl') pgdir pt m fl' pt' m'.
Proof.
  pose proof (pd_page _ _ _ P) as Hd. pose proof (PDX_range va Hva) as Hi. constructor.
  - exists [q]. split; [reflexivity|]. intros x. unfold pt_page, pt'.
    rewrite list_elem_of_singleton. setoid_rewrite lookup_insert_Some. split.
    + intros [-> | (i & [(_ & ->) | (_ & Hx)])]; eauto.
    + intros [[-> | [i Hx]] | ->]; [auto | | right; exists (PDX va); auto].
      right. exists i. right. split; [intros <-; congruence | exact Hx].
  - intros i p Hp. unfold pt'. rewrite lookup_insert_ne; [exact Hp|]. intros <-. congruence.
  - intros i Hr Hn. rewrite new_table_pde by assumption. rewrite decide_False; [reflexivity|].
    intros ->. unfold pt' in Hn. rewrite lookup_insert_eq in Hn. discriminate.
  - intros i p Hr Hn Hs. unfold pt' in Hs. rewrite lookup_insert in Hs.
    case_decide as E; [subst i; exact Hzero | congruence].
  - unfold m'. eapply agree_off_trans with (P := eq q) (Q := eq pgdir).
    + apply within_agree; [apply Hq|]. intros x Hx. apply load8_fill_out. exact Hx.
    + apply within_agree; [apply Hd | apply store_word_within, Hi].
    + intros x <-. left. apply list_elem_of_here.
    + intros x <-. right. left. reflexivity.
Qed.
End NewTable.

Lemma kframe_set_mem s m : kframe s (set_mem m s).
Proof. reflexivity. Qed.

Lemma pspace_frame fl hl pgdir pt s s' :
  kinv fl hl s' -> k_mem s' = k_mem s -> pspace fl hl pgdir pt s -> pspace fl hl pgdir pt s'.
Proof. intros I E [I0 P A]. constructor; [exact I | rewrite E; exact P | exact A]. Qed.

(** Page tables are only added at directory indices of [P]. *)
Definition tables_in (P : Z -> Prop) (pt pt' : gmap Z Z) : Prop :=
  forall i p, pt !! i = None -> pt' !! i = Some p -> P i.

Lemma tables_in_refl P pt : tables_in P pt pt.
Proof. intros i p. congruence. Qed.

Lemma tables_in_trans (P Q R : Z -> Prop) pt pt1 pt2 :
  tables_in P pt pt1 -> tables_in Q pt1 pt2 -> (forall i, P i -> R i) -> (forall i, Q i -> R i) ->
  tables_in R pt pt2.
Proof.
  intros H1 H2 HP HQ i p Hn Hs. destruct (pt1 !! i) as [p1|] eqn:E; [eapply HP, H1; eassumption | eapply HQ, H2; eassumption].
Qed.

Lemma walk_alloc fl hl pgdir pt s va :
  pspace fl hl pgdir pt s -> u32 va ->
  (pt !! PDX va = None -> pde_at (k_mem s) pgdir (PDX va) = 0) ->
  exists r fl' pt' s',
    walkpgdir pgdir va true s = Ok r s' /\ pspace fl' hl pgdir pt' s' /\
    pt_grows fl pgdir pt (k_mem s) fl' pt' (k_mem s') /\
    (forall v, u32 v -> pteval (k_mem s') pt' v = pteval (k_mem s) pt v) /\ kframe s s' /\
    (r = 0 /\ fl' = [] \/ exists p, pt' !! PDX va = Some p /\ r = p + 4 * PTX va /\ r <> 0) /\
    tables_in (eq (PDX va)) pt pt'.
Proof.
  intros Hps Hva Hz. pose proof Hps as [I P A].
  destruct (pt !! PDX va) as [p|] eqn:Ep.
  { exists (p + 4 * PTX va), fl, pt, s. rewrite (walk_present pgdir pt s va true p) by assumption.
    split; [reflexivity|]. split; [exact Hps|]. split; [apply pt_grows_refl|].
    split; [reflexivity|]. split; [reflexivity|]. split; [|apply tables_in_refl]. right. exists p.
    split; [exact Ep|]. split; [reflexivity|].
    destruct (pd_some _ _ _ P _ _ Ep) as (_ & Hp & _). pose proof (page_ok_addr p Hp).
    pose proof (PTX_range va Hva). unfold KERNBASE in *. lia. }
  specialize (Hz eq_refl). unfold walkpgdir. rewrite pde_addr_eq by (auto; apply P).
  unfold ld32, bind at 1, gets. unfold pde_at in Hz. rewrite Hz.
  change (has 0 PTE_P) with false. cbn [negb].
  destruct fl as [|q fl].
  - destruct (pa_empty (PageAllocator := base_allocator hl) s I) as (s1 & E1 & I1 & M1 & F1).
    exists 0, [], pt, s1. erewrite bind_ok by exact E1. cbn [Z.eqb]. rewrite M1.
    split; [reflexivity|]. split; [eapply pspace_frame; eassumption|].
    split; [apply pt_grows_refl|]. split; [reflexivity|]. split; [exact F1|]. split; [auto | apply tables_in_refl].
  - destruct (pa_pop (PageAllocator := base_allocator hl) q fl s I) as (s1 & E1 & I1 & Hq & Hqf & M1 & F1).
    pose proof (page_ok_addr q Hq) as Hqa. pose proof (PTX_range va Hva). unfold KERNBASE in Hqa.
    assert (Hnew : ~ pt_page pgdir pt q).
    { intros Hx. apply (A q Hx). apply list_elem_of_here. }
    assert (Hqd : q <> pgdir) by (intros ->; apply Hnew; left; reflexivity).
    destruct (pde_entry q Hq) as (Eq & _).
    set (m' := store32 (fill (k_mem s) q 0 4096) (pgdir + 4 * PDX va) (V2P q + 7)).
    exists (q + 4 * PTX va), fl, (<[PDX va := q]> pt), (set_mem m' s1).
    erewrite bind_ok by exact E1. destruct (Z.eqb_spec q 0); [lia|].
    split; [|split; [|split; [|split; [|split; [|split]]]]].
    + unfold kmemset, st32, PGSIZE, bind, modify, ret. cbn [k_mem set_mem].
      rewrite memset_fill, M1, Eq, pte_addr_eq by (assumption || (unfold u32, PHYSTOP in *; lia)).
      reflexivity.
    + constructor; cbn [k_mem set_mem].
      * assert (I2 : kinv fl hl (set_mem (fill (k_mem s1) q 0 4096) s1)).
        { apply (pa_write (PageAllocator := base_allocator hl) q); auto.
          intros x Hx. apply load8_fill_out. exact Hx. }
        apply (pa_write (PageAllocator := base_allocator hl) pgdir fl _ m') in I2.
        -- exact I2.
        -- apply P.
        -- intros Hx. apply (A pgdir); [left; reflexivity | by apply list_elem_of_further].
        -- unfold m'. cbn [k_mem set_mem]. rewrite M1. apply store_word_within, PDX_range, Hva.
      * apply new_table_pd_ok; assumption.
      * intros x Hx. pose proof (new_table_grows fl pgdir q va pt (k_mem s) P Hq Hva Ep Hz Hnew) as G.
        destruct (pg_used _ _ _ _ _ _ _ G) as (u & Eu & U).
        assert (u = [q]) as ->.
        { apply (app_inv_tail fl). rewrite <- Eu. reflexivity. }
        apply U in Hx as [Hx | ->%list_elem_of_singleton]; [|exact Hqf].
        intros Hf. apply (A x Hx). by apply list_elem_of_further.
    + apply new_table_grows; assumption.
    + intros v Hv. apply new_table_pteval; assumption.
    + etransitivity; [exact F1 | apply kframe_set_mem].
    + right. exists q. rewrite lookup_insert_eq. repeat split; [lia].
    + intros i p Hn Hs. destruct (decide (PDX va = i)); [assumption|]. rewrite lookup_insert_ne in Hs by assumption. congruence.
Qed.

(** The entry [mappages] writes for the page of [v], when it maps the pages
    from [a] on to the frames from [pa] on. *)
Definition map_entry (a pa perm v : Z) : Z :=
  Z.lor (Z.lor (pa + (v - v mod 4096 - a)) perm) PTE_P.

Lemma map_entry_u32 a pa perm v :
  u32 (pa + (v - v mod 4096 - a)) -> 0 <= perm < 4096 -> (pa + (v - v mod 4096 - a)) mod 4096 = 0 ->
  w32 (map_entry a pa perm v) = map_entry a pa perm v.
Proof.
  intros Hu Hp Ha. apply w32_small. unfold map_entry. rewrite <- Z.lor_assoc.
  assert (0 <= Z.lor perm PTE_P < 4096) by (apply (lor_range 12); unfold PTE_P; lia).
  rewrite entry_sum by assumption. unfold u32 in *. zdm.
Qed.

(** One iteration of the loop over small pages. *)
Lemma mapbase_step fl hl pgdir pt s a pa perm :
  pspace fl hl pgdir pt s -> u32 a -> a mod 4096 = 0 -> u32 pa -> pa mod 4096 = 0 ->
  0 <= perm < 4096 -> has (pteval (k_mem s) pt a) PTE_P = false ->
  (pt !! PDX a = None -> pde_at (k_mem s) pgdir (PDX a) = 0) ->
  exists (ok : bool) fl' pt' s',
    (forall last f, mapbase_loop pgdir a last pa perm (S f) s =
       if ok then
         if a =? last then Ok 0 s'
         else mapbase_loop pgdir (w32 (a + PGSIZE)) last (w32 (pa + PGSIZE)) perm f s'
       else Ok (-1) s') /\
    (ok = false -> fl' = []) /\
    pspace fl' hl pgdir pt' s' /\ pt_grows fl pgdir pt (k_mem s) fl' pt' (k_mem s') /\ kframe s s' /\
    (forall v, u32 v -> pteval (k_mem s') pt' v =
       if ok && (a / 4096 =? v / 4096) then map_entry a pa perm v else pteval (k_mem s) pt v) /\
    tables_in (eq (PDX a)) pt pt'.
Proof.
  intros Hps Hua Ha Hupa Hpa Hperm Hfree Hz.
  destruct (walk_alloc fl hl pgdir pt s a Hps Hua Hz)
    as (r & fl1 & pt1 & s1 & E1 & Hps1 & G1 & V1 & F1 & Hr & T1).
  destruct Hr as [[-> ->] | (p & Hp & -> & Hnz)].
  - exists false, [], pt1, s1. split; [|cbn [andb]; auto 7].
    intros last f. cbn [mapbase_loop]. erewrite bind_ok by exact E1. reflexivity.
  - pose proof (PTX_range a Hua) as Hx. pose proof (ps_pd _ _ _ _ _ Hps1) as P1.
    set (s2 := set_mem (store32 (k_mem s1) (p + 4 * PTX a) (Z.lor (Z.lor pa perm) PTE_P)) s1).
    exists true, fl1, pt1, s2. split; [|split; [discriminate|split; [|split; [|split; [|split; [|exact T1]]]]]].
    + intros last f. cbn [mapbase_loop]. erewrite bind_ok by exact E1.
      destruct (Z.eqb_spec (p + 4 * PTX a) 0); [lia|].
      unfold ld32, st32, bind at 1, gets.
      assert (load32 (k_mem s1) (p + 4 * PTX a) = pteval (k_mem s) pt a) as ->
        by (rewrite <- V1 by assumption; unfold pteval; rewrite Hp; reflexivity).
      rewrite Hfree. unfold bind at 1, modify. fold s2. destruct (a =? last); reflexivity.
    + apply pspace_store; eauto.
    + apply pt_grows_store; eauto.
    + etransitivity; [exact F1 | apply kframe_set_mem].
    + intros v Hv. unfold s2. cbn [k_mem set_mem andb].
      rewrite (pteval_store _ pgdir) by assumption. rewrite V1 by assumption.
      destruct (Z.eqb_spec (a / 4096) (v / 4096)) as [E | E]; [|reflexivity].
      assert (pa + (v - v mod 4096 - a) = pa) as Epa by zdm.
      pose proof (map_entry_u32 a pa perm v) as Hw. unfold map_entry in *. rewrite Epa in *.
      apply Hw; assumption.
Qed.

Lemma map_entry_shift a pa perm v :
  map_entry (a + 4096) (pa + 4096) perm v = map_entry a pa perm v.
Proof. unfold map_entry. do 2 f_equal. lia. Qed.

Lemma mapbase_spec hl pgdir perm : 0 <= perm < 4096 -> forall n fuel fl pt s a pa,
  (n < fuel)%nat -> pspace fl hl pgdir pt s ->
  a mod 4096 = 0 -> 0 <= a -> a + 4096 * (Z.of_nat n + 1) <= W32 ->
  pa mod 4096 = 0 -> 0 <= pa -> pa + 4096 * (Z.of_nat n + 1) <= W32 ->
  (forall v, a <= v < a + 4096 * (Z.of_nat n + 1) ->
     has (pteval (k_mem s) pt v) PTE_P = false /\
     (pt !! PDX v = None -> pde_at (k_mem s) pgdir (PDX v) = 0)) ->
  exists k fl' pt' s',
    mapbase_loop pgdir a (a + 4096 * Z.of_nat n) pa perm fuel s =
      Ok (if k =? Z.of_nat n + 1 then 0 else -1) s' /\
    0 <= k <= Z.of_nat n + 1 /\ (k < Z.of_nat n + 1 -> fl' = []) /\
    pspace fl' hl pgdir pt' s' /\ pt_grows fl pgdir pt (k_mem s) fl' pt' (k_mem s') /\ kframe s s' /\
    (forall v, u32 v -> pteval (k_mem s') pt' v =
       if (a <=? v) && (v <? a + 4096 * k) then map_entry a pa perm v else pteval (k_mem s) pt v) /\
    tables_in (fun i => a / 4194304 <= i <= (a + 4096 * Z.of_nat n) / 4194304) pt pt'.
Proof.
  intros Hperm. induction n as [|n IH]; intros fuel fl pt s a pa Hf Hps Ha Ha0 Hab Hpa Hpa0 Hpab Hfree;
    (destruct fuel as [|fuel]; [lia|]);
    (assert (Hua : u32 a) by (unfold u32, W32 in *; lia));
    (assert (Hup : u32 pa) by (unfold u32, W32 in *; lia));
    (destruct (mapbase_step fl hl pgdir pt s a pa perm Hps Hua Ha Hup Hpa Hperm)
      as (ok & fl1 & pt1 & s1 & E1 & Hok & Hps1 & G1 & F1 & V1 & T1); [apply Hfree; lia..|]);
    (assert (T1' : forall i, PDX a = i -> i = a / 4194304) by (intros i <-; apply PDX_div, Hua));
    rewrite E1; destruct ok; cbn [andb] in V1.
  2, 4: (exists 0, fl1, pt1, s1; split; [rewrite (proj2 (Z.eqb_neq _ _)) by lia; reflexivity|];
         split; [lia|]; split; [auto|]; split; [exact Hps1|]; split; [exact G1|]; split; [exact F1|];
         split; [intros v Hv; rewrite V1 by assumption; zcase |
                 intros i p Hn Hs; rewrite (T1' i (T1 i p Hn Hs)); zdm]).
  - exists 1, fl1, pt1, s1. split; [cbn; rewrite Z.add_0_r, Z.eqb_refl; reflexivity|].
    split; [lia|]. split; [lia|]. split; [exact Hps1|]. split; [exact G1|]. split; [exact F1|].
    split; [intros v Hv; rewrite V1 by assumption; zcase; exfalso; zdm|].
    intros i p Hn Hs. rewrite (T1' i (T1 i p Hn Hs)). zdm.
  - rewrite (proj2 (Z.eqb_neq a _)) by lia.
    rewrite !w32_small by (unfold u32, W32, PGSIZE in *; lia).
    replace (a + 4096 * Z.of_nat (S n)) with (a + PGSIZE + 4096 * Z.of_nat n) by (unfold PGSIZE; lia).
    destruct (IH fuel fl1 pt1 s1 (a + PGSIZE) (pa + PGSIZE))
      as (k & fl2 & pt2 & s2 & E2 & Hk & Hke & Hps2 & G2 & F2 & V2 & T2);
      unfold PGSIZE in *; try lia; try zdm; [exact Hps1 | |].
    { intros v Hv. assert (u32 v) by (unfold u32, W32 in *; lia).
      rewrite V1 by assumption. destruct (Z.eqb_spec (a / 4096) (v / 4096)); [exfalso; zdm|].
      destruct (Hfree v) as [H1 H2]; [lia|]. split; [exact H1|]. intros Hn.
      rewrite (pg_none _ _ _ _ _ _ _ G1) by auto using PDX_range. apply H2.
      destruct (pt !! PDX v) eqn:E; [|reflexivity].
      apply (pg_sub _ _ _ _ _ _ _ G1) in E. congruence. }
    exists (k + 1), fl2, pt2, s2. rewrite E2.
    split; [f_equal; zcase|]. split; [lia|]. split; [intros; apply Hke; lia|]. split; [exact Hps2|].
    split; [eapply pt_grows_trans; eassumption|]. split; [etransitivity; eassumption|].
    split; [intros v Hv; rewrite V2, V1, map_entry_shift by assumption; zcase; exfalso; zdm|].
    unfold PGSIZE in T2. eapply tables_in_trans; [exact T1 | exact T2 | |]; cbn beta.
    + intros i Hi. rewrite (T1' i Hi). zdm.
    + intros i Hi. zdm.
Qed.

(** ** Translation through well-formed directories *)

Lemma hw_small m pgdir pt v p :
  pd_ok m pgdir pt -> u32 v -> pt !! PDX v = Some p ->
  hw_translate m pgdir v =
    (let e := pteval m pt v in
     if has e PTE_P then Some (PTE_ADDR e + v mod 4096, has e PTE_U, has e PTE_W) else None).
Proof.
  intros P Hv Hp. destruct (pd_some _ _ _ P _ _ Hp) as (_ & Hpk & _ & Hpde).
  destruct (pde_entry p Hpk) as (_ & H1 & H2 & H3 & H4 & H5 & _).
  unfold hw_translate, pteval. unfold pde_at in Hpde. rewrite Hpde, H1, H2, H3, H4, H5, Hp.
  cbn [negb andb]. destruct (has (load32 _ _) PTE_P); reflexivity.
Qed.

Lemma hw_mapped m pgdir pt v :
  pd_ok m pgdir pt -> u32 v -> has (pteval m pt v) PTE_P = true ->
  hw_translate m pgdir v =
    Some (PTE_ADDR (pteval m pt v) + v mod 4096, has (pteval m pt v) PTE_U, has (pteval m pt v) PTE_W).
Proof.
  intros P Hv Hp. destruct (pt !! PDX v) as [p|] eqn:E.
  - rewrite (hw_small m pgdir pt v p P Hv E). cbv zeta. rewrite Hp. reflexivity.
  - unfold pteval in Hp. rewrite E in Hp. discriminate Hp.
Qed.

Lemma hw_huge m pgdir v e :
  pde_at m pgdir (PDX v) = e -> has e PTE_P = true -> has e PTE_PS = true ->
  hw_translate m pgdir v = Some (e - e mod 4194304 + v mod 4194304, has e PTE_U, has e PTE_W).
Proof. unfold hw_translate, pde_at. intros -> H1 H2. rewrite H1, H2. reflexivity. Qed.

Lemma hw_empty m pgdir v : pde_at m pgdir (PDX v) = 0 -> hw_translate m pgdir v = None.
Proof. unfold hw_translate, pde_at. intros ->. reflexivity. Qed.

(** A write inside the directory that keeps the entry for [v]. *)
Lemma hw_within_pgdir m m' pgdir pt v :
  pd_ok m pgdir pt -> within pgdir 4096 m m' -> u32 v ->
  pde_at m' pgdir (PDX v) = pde_at m pgdir (PDX v) ->
  hw_translate m' pgdir v = hw_translate m pgdir v.
Proof.
  intros P W Hv E. unfold pde_at in E. unfold hw_translate. rewrite E.
  destruct (pt !! PDX v) as [p|] eqn:Ep.
  - destruct (pd_some _ _ _ P _ _ Ep) as (_ & Hp & Hne & Epde). unfold pde_at in Epde.
    destruct (pde_entry p Hp) as (_ & _ & _ & _ & _ & HA & _). rewrite Epde, HA.
    rewrite (page_word_within pgdir p (PTX v) m m') by
      (auto using PTX_range; try apply Hp; apply (pd_page _ _ _ P)). reflexivity.
  - destruct (pd_none _ _ _ P (PDX v) (PDX_range v Hv) Ep) as [Z0 | [_ Hps]]; unfold pde_at in *.
    + rewrite Z0. reflexivity.
    + rewrite Hps. reflexivity.
Qed.

Lemma hw_kept m pgdir pt m' pt' v :
  pd_ok m pgdir pt -> pd_ok m' pgdir pt' -> u32 v ->
  (forall p, pt !! PDX v = Some p -> pt' !! PDX v = Some p) ->
  (pt' !! PDX v = None -> pde_at m' pgdir (PDX v) = pde_at m pgdir (PDX v)) ->
  (forall p, pt !! PDX v = None -> pt' !! PDX v = Some p -> pde_at m pgdir (PDX v) = 0) ->
  pteval m' pt' v = pteval m pt v -> hw_translate m' pgdir v = hw_translate m pgdir v.
Proof.
  intros P P' Hv Hs Hn Hf Hpv.
  destruct (pt' !! PDX v) as [p'|] eqn:E'; [destruct (pt !! PDX v) as [p|] eqn:E|].
  - rewrite (hw_small m' pgdir pt' v p'), (hw_small m pgdir pt v p) by assumption.
    rewrite Hpv. reflexivity.
  - rewrite (hw_small m' pgdir pt' v p') by assumption. rewrite (hw_empty m) by eauto.
    rewrite Hpv. unfold pteval. rewrite E. reflexivity.
  - assert (pt !! PDX v = None) as E.
    { destruct (pt !! PDX v) eqn:E; [|reflexivity]. specialize (Hs _ eq_refl). congruence. }
    specialize (Hn eq_refl). unfold pde_at in Hn. unfold hw_translate. rewrite Hn.
    destruct (pd_none _ _ _ P (PDX v) (PDX_range v Hv) E) as [Z0 | [_ Hps]]; unfold pde_at in *.
    + rewrite Z0. reflexivity.
    + rewrite Hps. reflexivity.
Qed.

Lemma hw_frame fl pgdir pt m fl' pt' m' v :
  pd_ok m pgdir pt -> pd_ok m' pgdir pt' -> pt_grows fl pgdir pt m fl' pt' m' -> u32 v ->
  pteval m' pt' v = pteval m pt v -> hw_translate m' pgdir v = hw_translate m pgdir v.
Proof.
  intros P P' G Hv Hpv. pose proof (PDX_range v Hv) as Hi.
  apply (hw_kept m pgdir pt m' pt'); try assumption.
  - intros p. apply (pg_sub _ _ _ _ _ _ _ G).
  - apply (pg_none _ _ _ _ _ _ _ G), Hi.
  - intros p. apply (pg_fresh _ _ _ _ _ _ _ G), Hi.
Qed.

(** [mappages] runs the loop over small pages; its bound is never reached. *)
Lemma mappages_base pgdir va size pa perm n :
  u32 va -> 0 < size -> va + size <= W32 -> in_huge_range pa = false ->
  n = Z.to_nat ((va + size - 1) / 4096 - va / 4096) ->
  mappages pgdir va size pa perm =
    mapbase_loop pgdir (va - va mod 4096) (va - va mod 4096 + 4096 * Z.of_nat n) pa perm (S n).
Proof.
  unfold u32, W32. intros Hva Hs Hb Hr ->. unfold mappages. rewrite Hr.
  rewrite (w32_small (va + size - 1)) by (unfold u32; lia).
  rewrite !PGROUNDDOWN_eq by (unfold u32; lia).
  assert (va + size - 1 - (va + size - 1) mod 4096 =
          va - va mod 4096 + 4096 * Z.of_nat (Z.to_nat ((va + size - 1) / 4096 - va / 4096))) as ->
    by (rewrite Z2Nat.id; zdm).
  unfold map_fuel, PGSIZE. f_equal. f_equal.
  rewrite w32_small; [rewrite Z2Nat.id by zdm; f_equal; zdm | unfold u32; rewrite Z2Nat.id; zdm].
Qed.

End PageTables.
