(* ===== verification/VmFacts.v ===== *)
(** * What the page-table code of vm.c does, seen through the MMU

    Section [Mappings] is about [mappages] with small and with 4 MB pages,
    [Space] about the address space of a process: [uspace] says that the
    frames mapped below a bound are distinct allocated pages, [deallocuvm],
    [allocuvm] and [freevm] move pages between it and the free list. *)

From Stdlib Require Import ZArith Lia FunctionalExtensionality.
From stdpp Require Import base list strings gmap.
From S2P Require Import Prelude Mem Mmu Kernel Spinlock Kalloc Vm.

Section Mappings.
Context `{Image}.

(** ** Small pages *)

Lemma map_entry_decode a pa perm v :
  u32 (pa + (v - v mod 4096 - a)) -> 0 <= perm < 4096 -> (pa + (v - v mod 4096 - a)) mod 4096 = 0 ->
  PTE_ADDR (map_entry a pa perm v) = pa + (v - v mod 4096 - a) /\
  PTE_FLAGS (map_entry a pa perm v) = Z.lor perm PTE_P /\
  has (map_entry a pa perm v) PTE_P = true /\
  has (map_entry a pa perm v) PTE_U = has perm PTE_U /\
  has (map_entry a pa perm v) PTE_W = has perm PTE_W.
Proof.
  intros Hu Hp Ha. unfold map_entry. rewrite <- Z.lor_assoc.
  assert (0 <= Z.lor perm PTE_P < 4096) by (apply (lor_range 12); unfold PTE_P; lia).
  rewrite PTE_ADDR_entry, PTE_FLAGS_entry by assumption.
  rewrite !has_P, !has_U, !has_W, (testbit_lor_aligned _ _ 0),
    (testbit_lor_aligned _ _ 1), (testbit_lor_aligned _ _ 2), !Z.lor_spec by (lia || assumption).
  change (Z.testbit PTE_P 0) with true. change (Z.testbit PTE_P 1) with false.
  change (Z.testbit PTE_P 2) with false. rewrite orb_true_r, !orb_false_r. repeat split.
Qed.

(** The pages [mappages] covers: those of [va .. va+size-1]. *)
Definition covers (va size v : Z) : Prop :=
  va - va mod 4096 <= v <= (va + size - 1) - (va + size - 1) mod 4096 + 4095.

Definition unmapped (m : mem) (pgdir : Z) (pt : gmap Z Z) (v : Z) : Prop :=
  has (pteval m pt v) PTE_P = false /\ (pt !! PDX v = None -> pde_at m pgdir (PDX v) = 0).

(** [mappages] over small pages, with the page-table entries it leaves. *)
Lemma mappages_small fl hl pgdir pt s va size pa perm :
  pspace fl hl pgdir pt s -> u32 va -> 0 < size -> va + size <= W32 ->
  in_huge_range pa = false -> u32 pa -> pa mod 4096 = 0 -> pa + (va mod 4096 + size) <= W32 ->
  0 <= perm < 4096 -> (forall v, covers va size v -> unmapped (k_mem s) pgdir pt v) ->
  exists r fl' pt' s',
    mappages pgdir va size pa perm s = Ok r s' /\ (r = 0 \/ r = -1 /\ fl' = []) /\
    pspace fl' hl pgdir pt' s' /\ pt_grows fl pgdir pt (k_mem s) fl' pt' (k_mem s') /\ kframe s s' /\
    tables_in (fun i => va / 4194304 <= i <= (va + size - 1) / 4194304) pt pt' /\
    exists lim, (r = 0 -> forall v, covers va size v -> v < lim) /\
      forall v, u32 v ->
        (covers va size v /\ v < lim -> pteval (k_mem s') pt' v = map_entry (va - va mod 4096) pa perm v) /\
        (~ (covers va size v /\ v < lim) -> pteval (k_mem s') pt' v = pteval (k_mem s) pt v).
Proof.
  intros Hps Hva Hs Hb Hr Hpa Hpaa Hpab Hperm Hfree.
  set (n := Z.to_nat ((va + size - 1) / 4096 - va / 4096)).
  assert (Hn : Z.of_nat n = (va + size - 1) / 4096 - va / 4096)
    by (unfold n; rewrite Z2Nat.id; zdm).
  unfold covers, u32, W32 in *.
  rewrite (mappages_base pgdir va size pa perm n) by (assumption || reflexivity).
  destruct (mapbase_spec hl pgdir perm Hperm n (S n) fl pt s (va - va mod 4096) pa)
    as (k & fl' & pt' & s' & E & Hk & Hke & Hps' & G & F & V & T);
    try assumption; unfold W32; try lia; try zdm.
  { intros v Hv. apply Hfree. zdm. }
  exists (if k =? Z.of_nat n + 1 then 0 else -1), fl', pt', s'.
  split; [exact E|]. split; [zcase; right; split; [reflexivity | apply Hke; lia]|].
  split; [exact Hps'|]. split; [exact G|]. split; [exact F|].
  split.
  { intros i p Hi Hp. pose proof (T i p Hi Hp) as Hr'. cbn beta in Hr'.
    replace (va - va mod 4096 + 4096 * Z.of_nat n) with (va + size - 1 - (va + size - 1) mod 4096) in Hr' by zdm.
    revert Hr'. generalize (va + size - 1). intros e Hr'. zdm. }
  exists (va - va mod 4096 + 4096 * k). split.
  - zcase. intros _ v Hv. zdm.
  - intros v Hv. split; intros Hc; rewrite V by exact Hv; zcase; exfalso; zdm.
Qed.

(** C2 (vm.c, [mappages] with 4 KB pages): for a range of pages with no
    mapping, [mappages] either returns 0, and then the MMU translates every
    address of the range to the corresponding physical address with the
    user and write permissions asked for, or it returns -1 with no free page
    left for a page table.  In both cases the translation of every other
    address is as before, the directory stays well formed and only the page
    tables and formerly free pages were written. *)
Theorem mappages_translates fl hl pgdir pt s va size pa perm :
  pspace fl hl pgdir pt s -> u32 va -> 0 < size -> va + size <= W32 ->
  in_huge_range pa = false -> u32 pa -> pa mod 4096 = 0 -> pa + (va mod 4096 + size) <= W32 ->
  0 <= perm < 4096 -> (forall v, covers va size v -> unmapped (k_mem s) pgdir pt v) ->
  exists r fl' pt' s',
    mappages pgdir va size pa perm s = Ok r s' /\ (r = 0 \/ r = -1 /\ fl' = []) /\
    pspace fl' hl pgdir pt' s' /\ kframe s s' /\
    agree_off (fun x => x ∈ fl \/ pt_page pgdir pt x) (k_mem s) (k_mem s') /\
    forall v, u32 v ->
      (r = 0 -> covers va size v ->
         hw_translate (k_mem s') pgdir v =
           Some (pa + (v - (va - va mod 4096)), has perm PTE_U, has perm PTE_W)) /\
      (~ covers va size v -> hw_translate (k_mem s') pgdir v = hw_translate (k_mem s) pgdir v).
Proof.
  intros Hps Hva Hs Hb Hr Hpa Hpaa Hpab Hperm Hfree.
  destruct (mappages_small fl hl pgdir pt s va size pa perm)
    as (r & fl' & pt' & s' & E & Er & Hps' & G & F & _ & lim & Hlim & V); try assumption.
  exists r, fl', pt', s'. split; [exact E|]. split; [exact Er|]. split; [exact Hps'|].
  split; [exact F|]. split; [apply G|]. intros v Hv. split.
  - intros Hr0 Hc. destruct (V v Hv) as [V1 _].
    rewrite (hw_mapped _ pgdir pt') by (try apply Hps'; try assumption; rewrite V1 by auto;
      apply map_entry_decode; unfold covers, u32, W32 in *; zdm).
    rewrite V1 by auto. destruct (map_entry_decode (va - va mod 4096) pa perm v) as (D1 & _ & _ & D2 & D3);
      [unfold covers, u32, W32 in *; zdm.. |]. rewrite D1, D2, D3. do 3 f_equal. lia.
  - intros Hc. eapply hw_frame; [apply Hps | apply Hps' | exact G | exact Hv |].
    apply V; tauto.
Qed.

(** ** 4 MB pages *)

(** The directory entry for index [i] when the 4 MB pages from index [d] on
    are mapped to the frames from [pa] on. *)
Definition huge_entry (d pa perm i : Z) : Z :=
  Z.lor (Z.lor (Z.lor (pa + 4194304 * (i - d)) perm) PTE_P) PTE_PS.

Lemma huge_entry_decode d pa perm i :
  pa mod 4194304 = 0 -> 0 <= pa + 4194304 * (i - d) -> pa + 4194304 * (i - d) + 4194304 <= W32 ->
  0 <= perm < 4096 ->
  u32 (huge_entry d pa perm i) /\
  huge_entry d pa perm i - huge_entry d pa perm i mod 4194304 = pa + 4194304 * (i - d) /\
  PTE_ADDR (huge_entry d pa perm i) = pa + 4194304 * (i - d) /\
  has (huge_entry d pa perm i) PTE_P = true /\ has (huge_entry d pa perm i) PTE_PS = true /\
  has (huge_entry d pa perm i) PTE_U = has perm PTE_U /\
  has (huge_entry d pa perm i) PTE_W = has perm PTE_W.
Proof.
  unfold W32. intros Ha H0 H1 Hp. unfold huge_entry. rewrite <- !Z.lor_assoc.
  set (f := Z.lor perm (Z.lor PTE_P PTE_PS)).
  assert (Hf : 0 <= f < 4096) by (apply (lor_range 12); [lia | split; [discriminate | reflexivity]]).
  assert (Hm : (pa + 4194304 * (i - d)) mod 4096 = 0) by zdm.
  rewrite PTE_ADDR_entry by (assumption || (unfold u32; lia)).
  rewrite !has_P, !has_PS, !has_U, !has_W, (testbit_lor_aligned _ _ 0), (testbit_lor_aligned _ _ 7),
    (testbit_lor_aligned _ _ 1), (testbit_lor_aligned _ _ 2) by (lia || assumption).
  assert (Z.testbit f 0 = true /\ Z.testbit f 7 = true /\
          Z.testbit f 2 = Z.testbit perm 2 /\ Z.testbit f 1 = Z.testbit perm 1) as (-> & -> & -> & ->).
  { unfold f. rewrite !(Z.lor_spec perm). repeat split; (apply orb_true_r || apply orb_false_r). }
  rewrite entry_sum by assumption. unfold u32. repeat split; try reflexivity; zdm.
Qed.

(** Writing a present 4 MB entry to a directory slot without a page table. *)
Lemma pspace_huge_store fl hl pgdir pt s i e :
  pspace fl hl pgdir pt s -> 0 <= i < 1024 -> pt !! i = None -> u32 e ->
  has e PTE_P = true -> has e PTE_PS = true ->
  pspace fl hl pgdir pt (set_mem (store32 (k_mem s) (pgdir + 4 * i) e) s).
Proof.
  intros [I P A] Hi Hn Hu H1 H2. pose proof (pd_page _ _ _ P) as Hd. constructor; cbn [k_mem set_mem].
  - apply (pa_write (PageAllocator := base_allocator hl) pgdir); auto using store_word_within.
    apply A. left. reflexivity.
  - constructor; try apply P.
    + intros j p Hj. destruct (pd_some _ _ _ P _ _ Hj) as (? & ? & ? & E).
      repeat (split; [assumption|]). unfold pde_at. rewrite store_word_frame; try apply Hd; auto.
      right. congruence.
    + intros j Hj Hjn. unfold pde_at. destruct (Z.eq_dec i j) as [-> | Hij].
      * rewrite load32_store32_same, w32_small by exact Hu. auto.
      * rewrite store_word_frame by (auto; apply Hd). apply P; assumption.
  - exact A.
Qed.

Lemma maphuge_spec fl hl pgdir pt perm : 0 <= perm < 4096 -> forall n fuel s d pa,
  (n < fuel)%nat -> pspace fl hl pgdir pt s ->
  0 <= d -> d + Z.of_nat n < 1024 ->
  pa mod 4194304 = 0 -> 0 <= pa -> pa + 4194304 * (Z.of_nat n + 1) <= W32 ->
  (forall i, d <= i <= d + Z.of_nat n -> pt !! i = None) ->
  exists s',
    maphuge_loop pgdir (4194304 * d) (4194304 * (d + Z.of_nat n)) pa perm fuel s = Ok 0 s' /\
    pspace fl hl pgdir pt s' /\ kframe s s' /\ within pgdir 4096 (k_mem s) (k_mem s') /\
    forall i, 0 <= i < 1024 -> pde_at (k_mem s') pgdir i =
      if (d <=? i) && (i <=? d + Z.of_nat n) then huge_entry d pa perm i else pde_at (k_mem s) pgdir i.
Proof.
  intros Hperm. induction n as [|n IH]; intros fuel s d pa Hf Hps Hd Hb Ha Hp0 Hpb Hnone;
    (destruct fuel as [|fuel]; [lia|]);
    (assert (Hpg : page_ok pgdir) by (apply (pd_page _ _ _ (ps_pd _ _ _ _ _ Hps))));
    (destruct (huge_entry_decode d pa perm d) as (Du & _ & _ & Dp & Dps & _);
      [assumption | unfold W32 in *; lia.. | assumption |]);
    unfold W32 in *; cbn [maphuge_loop];
    (assert (PDX (4194304 * d) = d) as Ed by (rewrite PDX_div by (unfold u32; lia); zdm));
    rewrite pde_addr_eq by (assumption || (unfold u32; lia)); rewrite Ed;
    (replace (Z.lor (Z.lor (Z.lor pa perm) PTE_P) PTE_PS) with (huge_entry d pa perm d)
      by (unfold huge_entry; do 3 f_equal; lia));
    (set (s1 := set_mem (store32 (k_mem s) (pgdir + 4 * d) (huge_entry d pa perm d)) s));
    (assert (Hps1 : pspace fl hl pgdir pt s1)
      by (apply pspace_huge_store; auto; [lia | apply Hnone; lia]));
    (assert (V1 : forall i, 0 <= i < 1024 -> pde_at (k_mem s1) pgdir i =
        if d =? i then huge_entry d pa perm d else pde_at (k_mem s) pgdir i)
      by (intros i Hi; unfold s1, pde_at; cbn [k_mem set_mem]; destruct (Z.eqb_spec d i) as [-> | Hne];
          [rewrite load32_store32_same; apply w32_small, Du
          | apply store_word_frame; auto; try apply Hpg; lia]));
    (assert (W1 : within pgdir 4096 (k_mem s) (k_mem s1)) by (apply store_word_within; lia));
    unfold st32; erewrite bind_ok by reflexivity; fold s1.
  - exists s1. rewrite Z.add_0_r, Z.eqb_refl. split; [reflexivity|]. split; [exact Hps1|].
    split; [reflexivity|]. split; [exact W1|]. intros i Hi. rewrite V1 by assumption.
    zcase; (congruence || lia).
  - rewrite (proj2 (Z.eqb_neq _ _)) by lia. unfold HUGE_PAGE_SIZE.
    rewrite !w32_small by (unfold u32; lia).
    replace (4194304 * d + 4194304) with (4194304 * (d + 1)) by lia.
    replace (4194304 * (d + Z.of_nat (S n))) with (4194304 * (d + 1 + Z.of_nat n)) by lia.
    destruct (IH fuel s1 (d + 1) (pa + 4194304)) as (s' & E & Hps' & F & W & V); try lia; try zdm;
      [exact Hps1 | intros i Hi; apply Hnone; lia |].
    exists s'. split; [exact E|]. split; [exact Hps'|]. split; [exact F|].
    split; [intros x Hx; rewrite W, W1 by assumption; reflexivity|].
    intros i Hi. rewrite V, V1 by assumption.
    assert (huge_entry (d + 1) (pa + 4194304) perm i = huge_entry d pa perm i) as ->
      by (unfold huge_entry; do 3 f_equal; lia).
    zcase; (congruence || lia).
Qed.

Definition covers_huge (va size v : Z) : Prop :=
  va / 4194304 <= v / 4194304 <= (va + size - 1) / 4194304.

(** [mappages] runs the loop over 4 MB pages; its bound is never reached. *)
Lemma mappages_huge_loop pgdir va size pa perm n :
  u32 va -> 0 < size -> va + size <= W32 -> in_huge_range pa = true ->
  n = Z.to_nat ((va + size - 1) / 4194304 - va / 4194304) ->
  mappages pgdir va size pa perm =
    maphuge_loop pgdir (4194304 * (va / 4194304)) (4194304 * (va / 4194304 + Z.of_nat n)) pa perm (S n).
Proof.
  unfold u32, W32. intros Hva Hs Hb Hr ->. unfold mappages. rewrite Hr.
  rewrite (w32_small (va + size - 1)) by (unfold u32; lia).
  rewrite !HUGEPGROUNDDOWN_eq by (unfold u32; lia).
  rewrite Z2Nat.id by zdm.
  replace (va - va mod 4194304) with (4194304 * (va / 4194304)) by zdm.
  replace (va + size - 1 - (va + size - 1) mod 4194304)
    with (4194304 * (va / 4194304 + ((va + size - 1) / 4194304 - va / 4194304))) by zdm.
  unfold map_fuel, HUGE_PAGE_SIZE. do 3 f_equal.
  rewrite w32_small by (unfold u32; zdm). zdm.
Qed.

Lemma mappages_big fl hl pgdir pt s va size pa perm :
  pspace fl hl pgdir pt s -> u32 va -> 0 < size -> va + size <= W32 ->
  in_huge_range pa = true -> pa mod 4194304 = 0 -> pa + (va mod 4194304 + size) <= HUGE_PAGE_END ->
  0 <= perm < 4096 ->
  (forall i, va / 4194304 <= i <= (va + size - 1) / 4194304 -> pt !! i = None) ->
  exists s',
    mappages pgdir va size pa perm s = Ok 0 s' /\ pspace fl hl pgdir pt s' /\ kframe s s' /\
    within pgdir 4096 (k_mem s) (k_mem s') /\
    forall i, 0 <= i < 1024 -> pde_at (k_mem s') pgdir i =
      if (va / 4194304 <=? i) && (i <=? (va + size - 1) / 4194304)
      then huge_entry (va / 4194304) pa perm i else pde_at (k_mem s) pgdir i.
Proof.
  intros Hps Hva Hs Hb Hr Hpa Hpe Hperm Hnone.
  set (n := Z.to_nat ((va + size - 1) / 4194304 - va / 4194304)).
  assert (Hn : va / 4194304 + Z.of_nat n = (va + size - 1) / 4194304)
    by (unfold n; rewrite Z2Nat.id; zdm).
  assert (Hp0 : 0x1E000000 <= pa < 0x3E000000).
  { unfold in_huge_range in Hr. apply andb_prop in Hr as [H1%Z.leb_le H2%Z.ltb_lt].
    unfold HUGE_PAGE_START, HUGE_PAGE_END in *. lia. }
  unfold u32, W32, HUGE_PAGE_END in *.
  rewrite (mappages_huge_loop pgdir va size pa perm n) by (assumption || reflexivity).
  destruct (maphuge_spec fl hl pgdir pt perm Hperm n (S n) s (va / 4194304) pa)
    as (s' & E & Hps' & F & W & V); unfold W32; try lia; try zdm; try assumption.
  { intros i Hi. apply Hnone. lia. }
  exists s'. rewrite Hn in V. auto.
Qed.

(** C21 (vm.c, [mappages] with 4 MB pages): a frame in the reserved region is
    mapped with directory entries alone.  The call always returns 0 and needs
    no page-table page; the MMU then translates every address of the 4 MB
    pages that the range touches to the corresponding address of the frame,
    with the permissions asked for, and every other address as before; only
    the page directory is written. *)
Theorem mappages_huge_translates fl hl pgdir pt s va size pa perm :
  pspace fl hl pgdir pt s -> u32 va -> 0 < size -> va + size <= W32 ->
  in_huge_range pa = true -> pa mod 4194304 = 0 -> pa + (va mod 4194304 + size) <= HUGE_PAGE_END ->
  0 <= perm < 4096 ->
  (forall i, va / 4194304 <= i <= (va + size - 1) / 4194304 -> pt !! i = None) ->
  exists s',
    mappages pgdir va size pa perm s = Ok 0 s' /\ pspace fl hl pgdir pt s' /\ kframe s s' /\
    within pgdir 4096 (k_mem s) (k_mem s') /\
    forall v, u32 v ->
      (covers_huge va size v -> hw_translate (k_mem s') pgdir v =
         Some (pa + (v - (va - va mod 4194304)), has perm PTE_U, has perm PTE_W)) /\
      (~ covers_huge va size v -> hw_translate (k_mem s') pgdir v = hw_translate (k_mem s) pgdir v).
Proof.
  intros Hps Hva Hs Hb Hr Hpa Hpe Hperm Hnone.
  destruct (mappages_big fl hl pgdir pt s va size pa perm) as (s' & E & Hps' & F & W & V);
    try assumption.
  exists s'. split; [exact E|]. split; [exact Hps'|]. split; [exact F|]. split; [exact W|].
  intros v Hv. pose proof (PDX_range v Hv) as Hi. specialize (V (PDX v) Hi).
  assert (PDX v = v / 4194304) as Ed by (rewrite PDX_div by assumption; reflexivity).
  unfold covers_huge. split; intros Hc.
  - rewrite (hw_huge _ pgdir v (huge_entry (va / 4194304) pa perm (PDX v))).
    + destruct (huge_entry_decode (va / 4194304) pa perm (PDX v)) as (_ & D1 & _ & _ & _ & D2 & D3);
        [assumption | unfold in_huge_range, HUGE_PAGE_START, HUGE_PAGE_END, W32 in *; zdm.. | assumption |].
      rewrite D1, D2, D3, Ed. do 3 f_equal. zdm.
    + rewrite V. zcase; lia.
    + apply huge_entry_decode; [assumption | unfold in_huge_range, HUGE_PAGE_START, HUGE_PAGE_END, W32 in *; zdm.. | assumption].
    + apply huge_entry_decode; [assumption | unfold in_huge_range, HUGE_PAGE_START, HUGE_PAGE_END, W32 in *; zdm.. | assumption].
  - apply (hw_within_pgdir (k_mem s) (k_mem s') pgdir pt); try assumption; try apply Hps; try apply Hps'.
    rewrite V. zcase; lia.
Qed.

End Mappings.

(** ** The user half of an address space *)

Definition present (m : mem) (pt : gmap Z Z) (v : Z) : bool := has (pteval m pt v) PTE_P.

(** The kernel address of the frame that [v] is mapped to. *)
Definition frame (m : mem) (pt : gmap Z Z) (v : Z) : Z := P2V (PTE_ADDR (pteval m pt v)).

(** The frames of the [n] pages from [a] on. *)
Fixpoint frames (m : mem) (pt : gmap Z Z) (a : Z) (n : nat) : list Z :=
  match n with
  | O => []
  | S n' => (if present m pt a then [frame m pt a] else []) ++ frames m pt (a + 4096) n'
  end.

Section Space.
Context `{Image}.

(** Below [lim] there are only small pages, and the frames they are mapped
    to are distinct allocated pages, none of them a page of the page table. *)
Record uspace (fl hl : list Z) (pgdir : Z) (pt : gmap Z Z) (lim : Z) (s : kstate) : Prop := {
  us_ps : pspace fl hl pgdir pt s;
  us_lim : lim <= KERNBASE;
  us_lim_page : lim mod 4096 = 0;
  us_small v : 0 <= v < lim -> pt !! PDX v = None -> pde_at (k_mem s) pgdir (PDX v) = 0;
  us_owned v : 0 <= v < lim -> present (k_mem s) pt v = true ->
    page_ok (frame (k_mem s) pt v) /\ (frame (k_mem s) pt v ∉ fl) /\
    ~ pt_page pgdir pt (frame (k_mem s) pt v);
  us_inj v w : 0 <= v < lim -> 0 <= w < lim ->
    present (k_mem s) pt v = true -> present (k_mem s) pt w = true ->
    frame (k_mem s) pt v = frame (k_mem s) pt w -> v / 4096 = w / 4096 }.

Lemma frames_app m pt j : forall a k,
  frames m pt a (k + j) = frames m pt a k ++ frames m pt (a + 4096 * Z.of_nat k) j.
Proof.
  intros a k. revert a. induction k as [|k IH]; intros a.
  - cbn. f_equal. lia.
  - cbn [frames Nat.add]. rewrite IH, <- app_assoc. do 3 f_equal. lia.
Qed.

Lemma frames_ext m m' pt pt' : forall n a,
  (forall v, a <= v < a + 4096 * Z.of_nat n -> pteval m' pt' v = pteval m pt v) ->
  frames m' pt' a n = frames m pt a n.
Proof.
  induction n as [|n IH]; intros a E; [reflexivity|]. cbn [frames].
  rewrite IH by (intros v Hv; apply E; lia).
  unfold present, frame. rewrite E by lia. reflexivity.
Qed.

Lemma frames_absent m pt : forall n a,
  (forall v, a <= v < a + 4096 * Z.of_nat n -> present m pt v = false) -> frames m pt a n = [].
Proof.
  induction n as [|n IH]; intros a E; [reflexivity|]. cbn [frames].
  rewrite IH by (intros v Hv; apply E; lia). rewrite E by lia. reflexivity.
Qed.

Lemma elem_of_frames m pt x : forall n a,
  x ∈ frames m pt a n <->
  exists i, 0 <= i < Z.of_nat n /\ present m pt (a + 4096 * i) = true /\ x = frame m pt (a + 4096 * i).
Proof.
  induction n as [|n IH]; intros a; cbn [frames].
  - split; [intros Hx; invc Hx | intros (i & Hi & _); lia].
  - rewrite elem_of_app, IH. split.
    + intros [Hx | (i & Hi & Hp & ->)].
      * destruct (present m pt a) eqn:Hp; [|invc Hx]. apply list_elem_of_singleton in Hx as ->.
        exists 0. rewrite Z.mul_0_r, Z.add_0_r. split; [lia | auto].
      * exists (i + 1). replace (a + 4096 * (i + 1)) with (a + 4096 + 4096 * i) by lia. split; [lia | auto].
    + intros (i & Hi & Hp & ->). destruct (Z.eq_dec i 0) as [-> | Hne].
      * left. rewrite Z.mul_0_r, Z.add_0_r in *. rewrite Hp. apply list_elem_of_here.
      * right. exists (i - 1). replace (a + 4096 + 4096 * (i - 1)) with (a + 4096 * i) by lia.
        split; [lia | auto].
Qed.

(** Clearing the entry of a present page and freeing its frame. *)
Lemma uspace_unmap fl hl pgdir pt lim s a :
  uspace fl hl pgdir pt lim s -> 0 <= a < lim -> present (k_mem s) pt a = true ->
  exists p s', pt !! PDX a = Some p /\
    (kfree (frame (k_mem s) pt a) ;; st32 (p + 4 * PTX a) 0) s = Ok tt s' /\
    uspace (frame (k_mem s) pt a :: fl) hl pgdir pt lim s' /\ kframe s s' /\
    agree_off (fun x => x = frame (k_mem s) pt a \/ pt_page pgdir pt x) (k_mem s) (k_mem s') /\
    (forall i, 0 <= i < 1024 -> pde_at (k_mem s') pgdir i = pde_at (k_mem s) pgdir i) /\
    forall v, u32 v -> pteval (k_mem s') pt v = if a / 4096 =? v / 4096 then 0 else pteval (k_mem s) pt v.
Proof.
  intros U Ha Hp. pose proof U as [[I P A] Hl Hlp Hsm Ho Hj].
  assert (Hua : u32 a) by (unfold u32, KERNBASE in *; lia).
  destruct (Ho a Ha Hp) as (Fk & Ff & Fp). set (q := frame (k_mem s) pt a) in *.
  destruct (pt !! PDX a) as [p|] eqn:Ep.
  2: { unfold present, pteval in Hp. rewrite Ep in Hp. discriminate Hp. }
  destruct (pa_push (PageAllocator := base_allocator hl) q fl s I Fk Ff) as (s1 & E1 & I1 & W1 & F1).
  pose proof (PTX_range a Hua) as Hx. exists p.
  set (s2 := set_mem (store32 (k_mem s1) (p + 4 * PTX a) 0) s1).
  assert (Hqm : q mod 4096 = 0) by apply Fk.
  assert (P1 : pd_ok (k_mem s1) pgdir pt).
  { eapply pd_ok_within; [exact P | exact W1 | exact Hqm |].
    intros E. apply Fp. left. exact E. }
  assert (Hps1 : pspace (q :: fl) hl pgdir pt s1).
  { constructor; [exact I1 | exact P1 |]. intros x Hpx [-> | Hxf]%elem_of_cons; [auto|].
    apply (A x Hpx Hxf). }
  assert (V : forall v, u32 v ->
    pteval (k_mem s2) pt v = if a / 4096 =? v / 4096 then 0 else pteval (k_mem s) pt v).
  { intros v Hv. unfold s2. cbn [k_mem set_mem]. rewrite (pteval_store _ pgdir) by assumption.
    rewrite (pteval_within (k_mem s) (k_mem s1) pgdir pt q) by assumption. reflexivity. }
  assert (Hps2 : pspace (q :: fl) hl pgdir pt s2) by (apply pspace_store; eauto).
  assert (D : forall i, 0 <= i < 1024 -> pde_at (k_mem s2) pgdir i = pde_at (k_mem s) pgdir i).
  { intros i Hi. destruct (pd_some _ _ _ P _ _ Ep) as (_ & Hpk & Hpd & _). unfold s2, pde_at.
    cbn [k_mem set_mem]. rewrite store_word_frame by (auto; apply Hpk || apply (pd_page _ _ _ P)).
    apply (page_word_within q); auto; [apply (pd_page _ _ _ P)|].
    intros <-. apply Fp. left. reflexivity. }
  exists s2. split; [reflexivity|]. split; [erewrite bind_ok by exact E1; reflexivity|].
  split; [|split; [exact F1 | split; [|split; [exact D | exact V]]]].
  - assert (Hpr : forall v, 0 <= v < lim -> present (k_mem s2) pt v = true ->
      a / 4096 <> v / 4096 /\ present (k_mem s) pt v = true /\ frame (k_mem s2) pt v = frame (k_mem s) pt v).
    { intros v Hv. unfold present, frame. rewrite V by (unfold u32, KERNBASE in *; lia).
      destruct (Z.eqb_spec (a / 4096) (v / 4096)); [discriminate | auto]. }
    constructor; [exact Hps2 | exact Hl | exact Hlp | | |].
    + intros v Hv Hn. rewrite D by (apply PDX_range; unfold u32, KERNBASE in *; lia). auto.
    + intros v Hv Hpv. destruct (Hpr v Hv Hpv) as (Hne & Hp0 & ->).
      destruct (Ho v Hv Hp0) as (O1 & O2 & O3). split; [exact O1|]. split; [|exact O3].
      intros [E | Hin]%elem_of_cons; [|auto]. apply Hne. apply Hj; auto.
    + intros v w Hv Hw Hpv Hpw. destruct (Hpr v Hv Hpv) as (_ & Hp0 & ->).
      destruct (Hpr w Hw Hpw) as (_ & Hp1 & ->). auto.
  - eapply agree_off_trans with (P := eq q) (Q := eq p).
    + apply within_agree; [exact Hqm | exact W1].
    + apply within_agree; [apply (pd_some _ _ _ P _ _ Ep) | apply store_word_within, Hx].
    + intros x <-. left. reflexivity.
    + intros x <-. right. right. eauto.
Qed.

(** One iteration of [deallocuvm] on each of its three branches. *)
Lemma dealloc_no_table fl hl pgdir pt lim s oldsz a f :
  uspace fl hl pgdir pt lim s -> 0 <= a < oldsz -> oldsz <= lim -> pt !! PDX a = None ->
  dealloc_loop pgdir oldsz a (S f) s = dealloc_loop pgdir oldsz (4194304 * (a / 4194304 + 1)) f s.
Proof.
  intros U Ha Hl Hn. pose proof (ps_pd _ _ _ _ _ (us_ps _ _ _ _ _ _ U)) as P.
  pose proof (us_lim _ _ _ _ _ _ U). unfold KERNBASE in *.
  assert (Hua : u32 a) by (unfold u32; lia).
  pose proof (us_small _ _ _ _ _ _ U a ltac:(lia) Hn) as Z0.
  cbn [dealloc_loop]. rewrite (proj2 (Z.ltb_lt a oldsz)) by lia.
  rewrite pde_addr_eq by (assumption || apply (pd_page _ _ _ P)).
  unfold ld32 at 1. unfold gets. erewrite bind_ok by reflexivity.
  fold (pde_at (k_mem s) pgdir (PDX a)). rewrite Z0. change (has 0 PTE_PS) with false. cbn iota.
  erewrite bind_ok by (apply (walk_absent pgdir pt); assumption). cbn [Z.eqb].
  erewrite bind_ok by reflexivity. f_equal.
  rewrite PDX_div, PGADDR_eq by (assumption || zdm). unfold w32, PGSIZE. zdm.
Qed.

Lemma dealloc_table fl hl pgdir pt lim s oldsz a f p :
  uspace fl hl pgdir pt lim s -> 0 <= a < oldsz -> oldsz <= lim -> pt !! PDX a = Some p ->
  dealloc_loop pgdir oldsz a (S f) s =
    (when (present (k_mem s) pt a) (kfree (frame (k_mem s) pt a) ;; st32 (p + 4 * PTX a) 0) ;;
     dealloc_loop pgdir oldsz (a + 4096) f) s.
Proof.
  intros U Ha Hl Hp. pose proof (ps_pd _ _ _ _ _ (us_ps _ _ _ _ _ _ U)) as P.
  pose proof (us_lim _ _ _ _ _ _ U). unfold KERNBASE in *.
  assert (Hua : u32 a) by (unfold u32; lia).
  destruct (pd_some _ _ _ P _ _ Hp) as (_ & Hpk & _ & Hpde).
  destruct (pde_entry p Hpk) as (_ & _ & HPS & _).
  pose proof (page_ok_addr p Hpk). pose proof (PTX_range a Hua). unfold KERNBASE in *.
  cbn [dealloc_loop]. rewrite (proj2 (Z.ltb_lt a oldsz)) by lia.
  rewrite pde_addr_eq by (assumption || apply (pd_page _ _ _ P)).
  unfold ld32 at 1. unfold gets. erewrite bind_ok by reflexivity.
  fold (pde_at (k_mem s) pgdir (PDX a)). rewrite Hpde, HPS.
  erewrite bind_ok by (eapply walk_present; eassumption).
  destruct (Z.eqb_spec (p + 4 * PTX a) 0); [lia|].
  assert (load32 (k_mem s) (p + 4 * PTX a) = pteval (k_mem s) pt a) as El
    by (unfold pteval; rewrite Hp; reflexivity).
  assert (w32 (a + PGSIZE) = a + 4096) as Ew by (unfold PGSIZE; apply w32_small; unfold u32; lia).
  rewrite bind_assoc. unfold ld32 at 1. unfold gets. erewrite bind_ok by reflexivity. rewrite El.
  fold (present (k_mem s) pt a). fold (frame (k_mem s) pt a).
  destruct (present (k_mem s) pt a) eqn:Epr; cbn [when].
  - destruct (us_owned _ _ _ _ _ _ U a ltac:(lia) Epr) as (Fk & _).
    destruct (Z.eqb_spec (PTE_ADDR (pteval (k_mem s) pt a)) 0) as [E0 | _].
    { exfalso. unfold frame in Fk. rewrite E0 in Fk. apply page_ok_addr in Fk. unfold KERNBASE in Fk.
      change (P2V 0) with 0x80000000 in Fk. lia. }
    rewrite !bind_assoc. apply bind_ext. intros [] s1. unfold st32, bind, modify, ret. rewrite Ew. reflexivity.
  - unfold bind, ret. rewrite Ew. reflexivity.
Qed.


(** The pages from [a] up to the last one that starts below [sz]. *)
Definition npages (sz a : Z) : nat := Z.to_nat ((sz - a + 4095) / 4096).

Lemma npages_0 sz a : sz <= a -> npages sz a = 0%nat.
Proof. intros. unfold npages. apply Z2Nat.nonpos. zdm. Qed.

Lemma npages_eq sz a : a <= sz -> Z.of_nat (npages sz a) = (sz - a + 4095) / 4096.
Proof. intros. unfold npages. apply Z2Nat.id. zdm. Qed.

Lemma npages_step sz a : a < sz -> npages sz a = S (npages sz (a + 4096)).
Proof.
  intros Hlt. apply Nat2Z.inj. rewrite Nat2Z.inj_succ, npages_eq by lia.
  destruct (Z.le_gt_cases (a + 4096) sz); [rewrite npages_eq by lia | rewrite npages_0 by lia]; zdm.
Qed.

Lemma npages_mono sz a a' : a <= a' -> (npages sz a' <= npages sz a)%nat.
Proof.
  intros Hle. unfold npages. assert ((sz - a' + 4095) / 4096 <= (sz - a + 4095) / 4096) by zdm. lia.
Qed.

Lemma frames_skip m pt sz a a' :
  a mod 4096 = 0 -> a' mod 4096 = 0 -> a <= a' -> (forall v, a <= v < a' -> present m pt v = false) ->
  frames m pt a (npages sz a) = frames m pt a' (npages sz a').
Proof.
  intros Ha Ha' Hle Hab. destruct (Z.le_gt_cases sz a') as [Hs | Hs].
  - rewrite (npages_0 sz a') by lia. cbn. apply frames_absent. intros v Hv. apply Hab.
    split; [lia|]. destruct (Z.le_gt_cases a sz).
    + rewrite npages_eq in Hv by lia. zdm.
    + rewrite npages_0 in Hv by lia. lia.
  - set (k := Z.to_nat ((a' - a) / 4096)).
    assert (Hk : 4096 * Z.of_nat k = a' - a) by (unfold k; rewrite Z2Nat.id; zdm).
    assert (npages sz a = (k + npages sz a')%nat) as ->.
    { apply Nat2Z.inj. rewrite Nat2Z.inj_add, !npages_eq by lia. zdm. }
    rewrite frames_app, frames_absent by (intros v Hv; apply Hab; lia).
    cbn [app]. f_equal. lia.
Qed.

Lemma pteval_page m pt a v : u32 a -> u32 v -> a / 4096 = v / 4096 -> pteval m pt v = pteval m pt a.
Proof.
  intros Ha Hv E. unfold pteval. rewrite !PDX_div, !PTX_div by assumption. rewrite E.
  replace (v / 4194304) with (a / 4194304) by zdm. reflexivity.
Qed.

(** What [deallocuvm] does to the [n] pages from [a] on: the frames of the
    present ones go to the free list and their entries are cleared. *)
Record freed (hl : list Z) (pgdir : Z) (pt : gmap Z Z) (lim : Z) (fl : list Z) (s : kstate)
    (a : Z) (n : nat) (fl' : list Z) (s' : kstate) : Prop := {
  fr_space : uspace fl' hl pgdir pt lim s';
  fr_frame : kframe s s';
  fr_list : fl' ≡ₚ frames (k_mem s) pt a n ++ fl;
  fr_mem : agree_off (fun x => x ∈ frames (k_mem s) pt a n \/ pt_page pgdir pt x) (k_mem s) (k_mem s');
  fr_pde i : 0 <= i < 1024 -> pde_at (k_mem s') pgdir i = pde_at (k_mem s) pgdir i;
  fr_pte v : u32 v -> pteval (k_mem s') pt v =
    if (a <=? v) && (v <? a + 4096 * Z.of_nat n) && present (k_mem s) pt v
    then 0 else pteval (k_mem s) pt v }.

Lemma freed_nil hl pgdir pt lim fl s a : uspace fl hl pgdir pt lim s -> freed hl pgdir pt lim fl s a 0 fl s.
Proof.
  intros U. constructor; try reflexivity; [exact U | apply agree_off_refl |].
  intros v Hv. destruct (present (k_mem s) pt v); zcase.
Qed.

Section FreedStep.
Context (hl : list Z) (pgdir : Z) (pt : gmap Z Z) (lim : Z) (fl fl' : list Z) (s s' : kstate).
Context (a : Z) (n : nat) (Ha : a mod 4096 = 0) (Ha0 : 0 <= a).
Context (Hb : a + 4096 * (Z.of_nat n + 1) <= W32).

Lemma freed_absent :
  present (k_mem s) pt a = false -> freed hl pgdir pt lim fl s (a + 4096) n fl' s' ->
  freed hl pgdir pt lim fl s a (S n) fl' s'.
Proof.
  unfold W32 in Hb. intros Hp [U F L A D V]. constructor; try assumption.
  - cbn [frames]. rewrite Hp. exact L.
  - cbn [frames]. rewrite Hp. exact A.
  - intros v Hv. rewrite V by exact Hv. destruct (Z.eq_dec (a / 4096) (v / 4096)) as [E | E].
    + assert (present (k_mem s) pt v = false) as ->; [|rewrite !andb_false_r; reflexivity].
      unfold present. rewrite (pteval_page _ _ a v); (assumption || unfold u32; lia).
    + destruct (present (k_mem s) pt v); zcase; exfalso; zdm.
Qed.

Lemma freed_present s1 :
  present (k_mem s) pt a = true -> kframe s s1 ->
  agree_off (fun x => x = frame (k_mem s) pt a \/ pt_page pgdir pt x) (k_mem s) (k_mem s1) ->
  (forall i, 0 <= i < 1024 -> pde_at (k_mem s1) pgdir i = pde_at (k_mem s) pgdir i) ->
  (forall v, u32 v ->
     pteval (k_mem s1) pt v = if a / 4096 =? v / 4096 then 0 else pteval (k_mem s) pt v) ->
  freed hl pgdir pt lim (frame (k_mem s) pt a :: fl) s1 (a + 4096) n fl' s' ->
  freed hl pgdir pt lim fl s a (S n) fl' s'.
Proof.
  unfold W32 in Hb. intros Hp F1 A1 D1 V1 [U F L A D V].
  assert (frames (k_mem s1) pt (a + 4096) n = frames (k_mem s) pt (a + 4096) n) as Efr.
  { apply frames_ext. intros v Hv. rewrite V1 by (unfold u32; lia). zcase; exfalso; zdm. }
  rewrite Efr in *. constructor; [exact U | etransitivity; eassumption | | | |].
  - cbn [frames]. rewrite Hp, L. cbn. symmetry. apply Permutation_middle.
  - cbn [frames]. rewrite Hp. eapply agree_off_trans; [exact A1 | exact A | |]; cbn beta; intros x;
      rewrite elem_of_app, list_elem_of_singleton; tauto.
  - intros i Hi. rewrite D by exact Hi. apply D1, Hi.
  - intros v Hv. rewrite V by exact Hv. unfold present at 1. rewrite V1 by exact Hv.
    destruct (Z.eqb_spec (a / 4096) (v / 4096)) as [E | E].
    + assert (present (k_mem s) pt v = true) as ->
        by (unfold present in *; rewrite (pteval_page _ _ a v); (assumption || unfold u32; lia)).
      change (has 0 PTE_P) with false. rewrite andb_false_r. zcase; exfalso; zdm.
    + unfold present. destruct (has (pteval (k_mem s) pt v) PTE_P); zcase; exfalso; zdm.
Qed.
End FreedStep.

Lemma freed_skip hl pgdir pt lim fl s a a' sz fl' s' :
  a mod 4096 = 0 -> a' mod 4096 = 0 -> a <= a' -> a <= sz ->
  (forall v, a <= v < a' -> present (k_mem s) pt v = false) ->
  freed hl pgdir pt lim fl s a' (npages sz a') fl' s' -> freed hl pgdir pt lim fl s a (npages sz a) fl' s'.
Proof.
  intros Ha Ha' Hle Has Hab [U F L A D V]. pose proof (frames_skip (k_mem s) pt sz a a') as Efr.
  constructor; try assumption.
  - rewrite Efr by assumption. exact L.
  - rewrite Efr by assumption. exact A.
  - intros v Hv. rewrite V by exact Hv.
    destruct (present (k_mem s) pt v) eqn:Epr; [|rewrite !andb_false_r; reflexivity].
    assert (~ (a <= v < a')) by (intros Hin; rewrite Hab in Epr by exact Hin; discriminate).
    rewrite (npages_eq sz a) by lia.
    destruct (Z.le_gt_cases a' sz); [rewrite npages_eq by lia | rewrite npages_0 by lia];
      zcase; exfalso; zdm.
Qed.

Lemma dealloc_loop_spec hl pgdir pt lim oldsz : 0 <= oldsz <= lim -> forall fuel fl s a,
  uspace fl hl pgdir pt lim s -> a mod 4096 = 0 -> 0 <= a -> (npages oldsz a < fuel)%nat ->
  exists fl' s', dealloc_loop pgdir oldsz a fuel s = Ok tt s' /\
    freed hl pgdir pt lim fl s a (npages oldsz a) fl' s'.
Proof.
  intros Hol. induction fuel as [|f IH]; intros fl s a U Ha Ha0 Hf; [lia|].
  destruct (Z.lt_ge_cases a oldsz) as [Hlt | Hge].
  2: { exists fl, s. rewrite npages_0 by lia. cbn [dealloc_loop].
       rewrite (proj2 (Z.ltb_ge a oldsz)) by lia. split; [reflexivity | apply freed_nil, U]. }
  pose proof (us_lim _ _ _ _ _ _ U) as Hlim. unfold KERNBASE in Hlim.
  assert (Hb : a + 4096 * (Z.of_nat (npages oldsz (a + 4096)) + 1) <= W32).
  { pose proof (npages_eq oldsz a ltac:(lia)) as Hn. rewrite (npages_step oldsz a Hlt) in Hn.
    unfold W32. rewrite Nat2Z.inj_succ in Hn. zdm. }
  destruct (pt !! PDX a) as [p|] eqn:Ep.
  - rewrite (dealloc_table fl hl pgdir pt lim s oldsz a f p) by (assumption || lia).
    rewrite (npages_step oldsz a Hlt) in Hf |- *.
    destruct (present (k_mem s) pt a) eqn:Epr; cbn [when].
    + destruct (uspace_unmap fl hl pgdir pt lim s a) as (p' & s1 & Ep' & E1 & U1 & F1 & A1 & D1 & V1);
        [assumption | lia | assumption |].
      replace p' with p in * by congruence. erewrite bind_ok by exact E1.
      destruct (IH _ s1 (a + 4096) U1) as (fl' & s' & E & R); [zdm | lia | lia |].
      exists fl', s'. split; [exact E|]. apply (freed_present _ _ _ _ _ _ _ _ a _ Ha Ha0 Hb s1); assumption.
    + unfold ret. erewrite bind_ok by reflexivity.
      destruct (IH fl s (a + 4096) U) as (fl' & s' & E & R); [zdm | lia | lia |].
      exists fl', s'. split; [exact E|]. apply freed_absent; assumption.
  - rewrite (dealloc_no_table fl hl pgdir pt lim s oldsz a f) by (assumption || lia).
    set (a' := 4194304 * (a / 4194304 + 1)).
    assert (Haa : a + 4096 <= a' /\ a' mod 4096 = 0) by (unfold a'; zdm).
    assert (Hfuel : (npages oldsz a' < f)%nat).
    { rewrite (npages_step oldsz a Hlt) in Hf.
      pose proof (npages_mono oldsz (a + 4096) a' (proj1 Haa)). lia. }
    destruct (IH fl s a' U) as (fl' & s' & E & R); [apply Haa | lia | exact Hfuel |].
    exists fl', s'. split; [exact E|]. apply (freed_skip _ _ _ _ _ _ a a'); try lia; try assumption.
    intros v Hv. unfold present, pteval. assert (PDX v = PDX a) as ->; [|rewrite Ep; reflexivity].
    rewrite !PDX_div by (unfold a' in Hv; unfold u32; zdm). unfold a' in Hv. zdm.
Qed.

Lemma deallocuvm_freed fl hl pgdir pt lim s oldsz newsz :
  uspace fl hl pgdir pt lim s -> 0 <= newsz < oldsz -> oldsz <= lim ->
  exists fl' s', deallocuvm pgdir oldsz newsz s = Ok newsz s' /\
    freed hl pgdir pt lim fl s (PGROUNDUP newsz) (npages oldsz (PGROUNDUP newsz)) fl' s'.
Proof.
  intros U Hn Hl. pose proof (us_lim _ _ _ _ _ _ U) as Hlim. unfold KERNBASE in Hlim.
  assert (Hun : u32 newsz) by (unfold u32; lia).
  pose proof (ps_pd _ _ _ _ _ (us_ps _ _ _ _ _ _ U)) as P.
  unfold deallocuvm. rewrite (proj2 (Z.leb_gt oldsz newsz)) by lia.
  rewrite pde_addr_eq by (assumption || apply (pd_page _ _ _ P)).
  unfold ld32, gets. erewrite bind_ok by reflexivity. fold (pde_at (k_mem s) pgdir (PDX newsz)).
  assert (has (pde_at (k_mem s) pgdir (PDX newsz)) PTE_PS = false) as ->.
  { destruct (pt !! PDX newsz) as [p|] eqn:Ep.
    - destruct (pd_some _ _ _ P _ _ Ep) as (_ & Hpk & _ & ->). apply (pde_entry p Hpk).
    - rewrite (us_small _ _ _ _ _ _ U newsz) by (assumption || lia). reflexivity. }
  pose proof (PGROUNDUP_eq newsz) as Er.
  destruct (dealloc_loop_spec hl pgdir pt lim oldsz ltac:(lia)
              (dealloc_fuel oldsz (PGROUNDUP newsz)) fl s (PGROUNDUP newsz) U)
    as (fl' & s' & E & R); [rewrite Er by lia; zdm | rewrite Er by lia; zdm | |].
  { unfold dealloc_fuel, npages, PGSIZE. rewrite Er by lia.
    assert ((oldsz - (newsz + 4095 - (newsz + 4095) mod 4096) + 4095) / 4096 <=
            (oldsz - (newsz + 4095 - (newsz + 4095) mod 4096)) / 4096 + 1) by zdm. lia. }
  exists fl', s'. split; [|exact R]. erewrite bind_ok by exact E. reflexivity.
Qed.

Lemma hw_none m pgdir pt v :
  pd_ok m pgdir pt -> u32 v -> has (pteval m pt v) PTE_P = false ->
  (pt !! PDX v = None -> pde_at m pgdir (PDX v) = 0) -> hw_translate m pgdir v = None.
Proof.
  intros P Hv Hp Hz. destruct (pt !! PDX v) as [p|] eqn:E.
  - rewrite (hw_small m pgdir pt v p P Hv E). cbv zeta. rewrite Hp. reflexivity.
  - apply hw_empty. auto.
Qed.

Lemma hw_same m m' pgdir pt v :
  pd_ok m pgdir pt -> pd_ok m' pgdir pt -> u32 v ->
  pde_at m' pgdir (PDX v) = pde_at m pgdir (PDX v) -> pteval m' pt v = pteval m pt v ->
  hw_translate m' pgdir v = hw_translate m pgdir v.
Proof.
  intros P P' Hv D E. destruct (pt !! PDX v) as [p|] eqn:Ep.
  - rewrite (hw_small m pgdir pt v p), (hw_small m' pgdir pt v p), E by assumption. reflexivity.
  - destruct (pd_none _ _ _ P (PDX v) (PDX_range v Hv) Ep) as [Z0 | [Hp Hps]].
    + rewrite !hw_empty by congruence. reflexivity.
    + rewrite (hw_huge m' pgdir v (pde_at m pgdir (PDX v)) D Hp Hps).
      rewrite (hw_huge m pgdir v _ eq_refl Hp Hps). reflexivity.
Qed.

Lemma hw_freed hl pgdir pt lim fl s a n fl' s' v :
  uspace fl hl pgdir pt lim s -> freed hl pgdir pt lim fl s a n fl' s' ->
  0 <= a -> a + 4096 * Z.of_nat n <= lim \/ n = 0%nat -> u32 v ->
  hw_translate (k_mem s') pgdir v =
    if (a <=? v) && (v <? a + 4096 * Z.of_nat n) then None else hw_translate (k_mem s) pgdir v.
Proof.
  intros U R Ha Hn Hv. pose proof (fr_space _ _ _ _ _ _ _ _ _ _ R) as U'.
  pose proof (ps_pd _ _ _ _ _ (us_ps _ _ _ _ _ _ U)) as P.
  pose proof (ps_pd _ _ _ _ _ (us_ps _ _ _ _ _ _ U')) as P'.
  pose proof (fr_pde _ _ _ _ _ _ _ _ _ _ R (PDX v) (PDX_range v Hv)) as D.
  pose proof (fr_pte _ _ _ _ _ _ _ _ _ _ R v Hv) as V.
  destruct ((a <=? v) && (v <? a + 4096 * Z.of_nat n)) eqn:Er; cbn [andb] in V.
  - apply andb_prop in Er as [E1%Z.leb_le E2%Z.ltb_lt].
    apply (hw_none _ _ pt); [exact P' | exact Hv | |].
    + rewrite V. unfold present. destruct (has (pteval (k_mem s) pt v) PTE_P) eqn:Ep; [reflexivity | exact Ep].
    + intros Hnone. apply (us_small _ _ _ _ _ _ U'); [lia | exact Hnone].
  - apply (hw_same _ _ _ pt); assumption.
Qed.

(** C19 (vm.c, [deallocuvm] on small pages): shrinking a process from [oldsz]
    to [newsz] always succeeds with the new size.  Afterwards no address from
    the page boundary above [newsz] up to the end of the last page of [oldsz]
    is mapped, every other address is translated as before, and the free list
    has gained exactly the frames those pages were mapped to, each once. *)
Theorem deallocuvm_unmaps fl hl pgdir pt lim s oldsz newsz :
  uspace fl hl pgdir pt lim s -> 0 <= newsz < oldsz -> oldsz <= lim ->
  let a := PGROUNDUP newsz in let n := npages oldsz a in
  exists fl' s',
    deallocuvm pgdir oldsz newsz s = Ok newsz s' /\ uspace fl' hl pgdir pt lim s' /\ kframe s s' /\
    fl' ≡ₚ frames (k_mem s) pt a n ++ fl /\ NoDup fl' /\
    (forall v, u32 v -> hw_translate (k_mem s') pgdir v =
       if (a <=? v) && (v <? a + 4096 * Z.of_nat n) then None else hw_translate (k_mem s) pgdir v) /\
    agree_off (fun x => x ∈ frames (k_mem s) pt a n \/ pt_page pgdir pt x) (k_mem s) (k_mem s').
Proof.
  intros U Hn Hl a n. pose proof (us_lim _ _ _ _ _ _ U) as Hlim. unfold KERNBASE in Hlim.
  pose proof (us_lim_page _ _ _ _ _ _ U) as Hlp.
  destruct (deallocuvm_freed fl hl pgdir pt lim s oldsz newsz U Hn Hl) as (fl' & s' & E & R).
  fold a in R. fold n in R. exists fl', s'. split; [exact E|]. split; [apply R|].
  split; [apply R|]. split; [apply R|]. split; [apply (fr_space _ _ _ _ _ _ _ _ _ _ R)|].
  assert (Ea : a = newsz + 4095 - (newsz + 4095) mod 4096) by (apply PGROUNDUP_eq; lia).
  split; [|apply R]. intros v Hv. apply (hw_freed hl pgdir pt lim fl s a n fl' s'); auto; [zdm|].
  destruct (Z.le_gt_cases a oldsz); [left | right; apply npages_0; lia].
  unfold n. rewrite npages_eq by assumption. zdm.
Qed.

(** Freeing a page that is not part of the address space. *)
Lemma uspace_push fl hl pgdir pt lim s q :
  uspace fl hl pgdir pt lim s -> page_ok q -> q ∉ fl -> ~ pt_page pgdir pt q ->
  (forall v, 0 <= v < lim -> present (k_mem s) pt v = true -> frame (k_mem s) pt v <> q) ->
  exists s', kfree q s = Ok tt s' /\ uspace (q :: fl) hl pgdir pt lim s' /\ kframe s s' /\
    within q 4096 (k_mem s) (k_mem s') /\
    forall v, u32 v -> pteval (k_mem s') pt v = pteval (k_mem s) pt v /\
      hw_translate (k_mem s') pgdir v = hw_translate (k_mem s) pgdir v.
Proof.
  intros [[I P A] Hl Hlp Hsm Ho Hj] Hq Hqf Hqp Hqo.
  destruct (pa_push (PageAllocator := base_allocator hl) q fl s I Hq Hqf) as (s1 & E1 & I1 & W1 & F1).
  assert (Hqm : q mod 4096 = 0) by apply Hq.
  assert (Hqd : q <> pgdir) by (intros ->; apply Hqp; left; reflexivity).
  assert (P1 : pd_ok (k_mem s1) pgdir pt) by (eapply pd_ok_within; eassumption).
  assert (V : forall v, u32 v -> pteval (k_mem s1) pt v = pteval (k_mem s) pt v)
    by (intros v Hv; apply (pteval_within _ _ pgdir pt q); assumption).
  assert (D : forall i, 0 <= i < 1024 -> pde_at (k_mem s1) pgdir i = pde_at (k_mem s) pgdir i)
    by (intros i Hi; apply (page_word_within q); auto; apply (pd_page _ _ _ P)).
  assert (Hpr : forall v, 0 <= v < lim -> present (k_mem s1) pt v = present (k_mem s) pt v /\
    frame (k_mem s1) pt v = frame (k_mem s) pt v).
  { intros v Hv. unfold present, frame. rewrite V by (unfold u32, KERNBASE in *; lia). auto. }
  exists s1. split; [exact E1|]. split; [|split; [exact F1|split; [exact W1|]]].
  - constructor; [constructor; [exact I1 | exact P1 |] | exact Hl | exact Hlp | | |].
    + intros x Hx [-> | Hxf]%elem_of_cons; [auto | apply (A x Hx Hxf)].
    + intros v Hv Hn. rewrite D by (apply PDX_range; unfold u32, KERNBASE in *; lia). auto.
    + intros v Hv Hp. destruct (Hpr v Hv) as [E ->]. rewrite E in Hp.
      destruct (Ho v Hv Hp) as (O1 & O2 & O3). split; [exact O1|]. split; [|exact O3].
      intros [E2 | Hin]%elem_of_cons; [eapply Hqo; eassumption | auto].
    + intros v w Hv Hw Hp Hp'. destruct (Hpr v Hv) as [E1' ->]. destruct (Hpr w Hw) as [E2' ->].
      rewrite E1' in Hp. rewrite E2' in Hp'. auto.
  - intros v Hv. split; [auto|]. apply (hw_same _ _ _ pt); auto using PDX_range.
Qed.

(** ** Growing an address space *)

(** [mappages] on one page. *)
Lemma mappages_page fl hl pgdir pt s a q perm :
  pspace fl hl pgdir pt s -> page_ok q -> u32 a -> a mod 4096 = 0 -> unmapped (k_mem s) pgdir pt a ->
  0 <= perm < 4096 ->
  exists (ok : bool) fl' pt' s',
    mappages pgdir a PGSIZE (V2P q) perm s = Ok (if ok then 0 else -1) s' /\
    (ok = false -> fl' = []) /\ pspace fl' hl pgdir pt' s' /\
    pt_grows fl pgdir pt (k_mem s) fl' pt' (k_mem s') /\ kframe s s' /\
    (forall v, u32 v -> pteval (k_mem s') pt' v =
       if ok && (a / 4096 =? v / 4096) then Z.lor (Z.lor (V2P q) perm) PTE_P else pteval (k_mem s) pt v) /\
    tables_in (eq (PDX a)) pt pt'.
Proof.
  intros Hps Hq Hua Ha [Hu1 Hu2] Hperm. destruct (V2P_page q Hq) as (EV & Hm & Hu).
  pose proof (page_ok_addr q Hq) as Hqa. unfold u32, KERNBASE, PHYSTOP in *.
  rewrite (mappages_base pgdir a PGSIZE (V2P q) _ 0) by
    (unfold PGSIZE, W32, u32, in_huge_range, HUGE_PAGE_START, HUGE_PAGE_END;
     first [zdm | reflexivity | zcase; lia]).
  destruct (mapbase_step fl hl pgdir pt s a (V2P q) perm)
    as (ok & fl' & pt' & s' & E & Ef & Hps' & G & F & V & T);
    try assumption; try (unfold u32; lia).
  exists ok, fl', pt', s'. replace (a - a mod 4096) with a by lia. rewrite E, Z.add_0_r, Z.eqb_refl.
  split; [destruct ok; reflexivity|]. split; [exact Ef|]. split; [exact Hps'|]. split; [exact G|].
  split; [exact F|]. split; [|exact T]. intros v Hv. rewrite (V v Hv).
  destruct ok; cbn [andb]; [|reflexivity].
  destruct (Z.eqb_spec (a / 4096) (v / 4096)) as [Eq|]; [|reflexivity]. unfold map_entry.
  replace (V2P q + (v - v mod 4096 - a)) with (V2P q) by zdm. reflexivity.
Qed.

(** On one page of user memory. *)
Lemma mappages_one fl hl pgdir pt s a q :
  pspace fl hl pgdir pt s -> page_ok q -> u32 a -> a mod 4096 = 0 -> unmapped (k_mem s) pgdir pt a ->
  exists (ok : bool) fl' pt' s',
    mappages pgdir a PGSIZE (V2P q) (Z.lor PTE_W PTE_U) s = Ok (if ok then 0 else -1) s' /\
    (ok = false -> fl' = []) /\ pspace fl' hl pgdir pt' s' /\
    pt_grows fl pgdir pt (k_mem s) fl' pt' (k_mem s') /\ kframe s s' /\
    (forall v, u32 v -> pteval (k_mem s') pt' v =
       if ok && (a / 4096 =? v / 4096) then V2P q + 7 else pteval (k_mem s) pt v) /\
    tables_in (eq (PDX a)) pt pt'.
Proof.
  intros Hps Hq Hua Ha Hu. destruct (V2P_page q Hq) as (_ & Hm & _).
  destruct (mappages_page fl hl pgdir pt s a q (Z.lor PTE_W PTE_U) Hps Hq Hua Ha Hu)
    as (ok & fl' & pt' & s' & E & Ef & Hps' & G & F & V & T); [split; [discriminate | reflexivity]|].
  exists ok, fl', pt', s'. do 5 (split; [assumption|]). split; [|exact T]. intros v Hv. rewrite (V v Hv), <- Z.lor_assoc.
  change (Z.lor (Z.lor PTE_W PTE_U) PTE_P) with 7. rewrite entry_sum by lia. reflexivity.
Qed.

Lemma entry_of q : page_ok q -> has (V2P q + 7) PTE_P = true /\ P2V (PTE_ADDR (V2P q + 7)) = q.
Proof. intros Hq. destruct (pde_entry q Hq) as (_ & ? & _ & _ & _ & ? & _). auto. Qed.

Lemma agree_off_byte (Q : Z -> Prop) m m' q j :
  agree_off Q m m' -> q mod 4096 = 0 -> 0 <= j < 4096 -> ~ Q q -> load8 m' (q + j) = load8 m (q + j).
Proof.
  intros A Hq Hj Hn. apply A. replace (q + j - (q + j) mod 4096) with q by zdm. exact Hn.
Qed.

(** The entries and the contents of the pages that [allocuvm] adds. *)
Definition zero_ent (q v : Z) : Z := V2P q + 7.
Definition zero_cont (v j : Z) : Z := 0.

Section Grow.
Context (hl : list Z) (pgdir lim a : Z) (fl0 : list Z) (pt0 : gmap Z Z) (s0 : kstate).
Context (ent cont : Z -> Z -> Z).
Context (U0 : uspace fl0 hl pgdir pt0 lim s0) (Ha : a mod 4096 = 0) (Ha0 : 0 <= a).
Context (Hent : forall q v, page_ok q -> has (ent q v) PTE_P = true /\ P2V (PTE_ADDR (ent q v)) = q).

(** [n] pages from [a] on have been added, each mapped to a frame that was
    free at the start; the entry for address [v], mapped to frame [q], is
    [ent q v], and byte [j] of the frame is [cont v j].  [x] are pages taken
    but not mapped. *)
Record grown (n : nat) (x fl : list Z) (pt : gmap Z Z) (s : kstate) : Prop := {
  gr_ps : pspace fl hl pgdir pt s;
  gr_frame : kframe s0 s;
  gr_tabs : exists tabs, fl0 ≡ₚ tabs ++ frames (k_mem s) pt a n ++ x ++ fl /\
    forall y, pt_page pgdir pt y <-> pt_page pgdir pt0 y \/ y ∈ tabs;
  gr_sub i p : pt0 !! i = Some p -> pt !! i = Some p;
  gr_where i p : pt !! i = Some p -> pt0 !! i = Some p \/
    exists v, a <= v < a + 4096 * (Z.of_nat n + Z.of_nat (length x)) /\ PDX v = i;
  gr_none i : 0 <= i < 1024 -> pt !! i = None -> pde_at (k_mem s) pgdir i = pde_at (k_mem s0) pgdir i;
  gr_fresh i p : 0 <= i < 1024 -> pt0 !! i = None -> pt !! i = Some p -> pde_at (k_mem s0) pgdir i = 0;
  gr_mem : agree_off (fun y => y ∈ fl0 \/ pt_page pgdir pt0 y) (k_mem s0) (k_mem s);
  gr_old v : u32 v -> ~ (a <= v < a + 4096 * Z.of_nat n) -> pteval (k_mem s) pt v = pteval (k_mem s0) pt0 v;
  gr_new v : a <= v < a + 4096 * Z.of_nat n ->
    exists q, page_ok q /\ q ∈ frames (k_mem s) pt a n /\ pteval (k_mem s) pt v = ent q v /\
      forall j, 0 <= j < 4096 -> load8 (k_mem s) (q + j) = cont v j }.

Lemma grown_0 : grown 0 [] fl0 pt0 s0.
Proof.
  constructor; auto using agree_off_refl; try reflexivity; try congruence; try apply U0.
  - exists []. cbn. split; [reflexivity|]. intros y. split; [auto | intros [? | Hx]; [auto | invc Hx]].
  - intros v Hv. lia.
Qed.

Lemma grown_new n x fl pt s v :
  grown n x fl pt s -> a <= v < a + 4096 * Z.of_nat n ->
  present (k_mem s) pt v = true /\ frame (k_mem s) pt v ∈ frames (k_mem s) pt a n.
Proof.
  intros G Hv. destruct (gr_new _ _ _ _ _ G v Hv) as (q & Hq & Hin & E & _).
  destruct (Hent q v Hq) as [H1 H2]. unfold present, frame. rewrite E, H2. auto.
Qed.

Lemma frames_lookup m pt : forall n b i,
  (forall v, b <= v < b + 4096 * Z.of_nat n -> present m pt v = true) -> (i < n)%nat ->
  frames m pt b n !! i = Some (frame m pt (b + 4096 * Z.of_nat i)).
Proof.
  induction n as [|n IH]; intros b i Hp Hi; [lia|]. cbn [frames]. rewrite Hp by lia. cbn [app].
  destruct i as [|i]; [cbn; do 2 f_equal; lia|]. cbn [lookup]. change (frames m pt (b + 4096) n !! i = Some (frame m pt (b + 4096 * Z.of_nat (S i)))).
  rewrite IH by (lia || (intros v Hv; apply Hp; lia)). do 2 f_equal. lia.
Qed.

Lemma grown_uspace n x fl pt s :
  grown n x fl pt s -> a + 4096 * Z.of_nat n <= lim -> uspace fl hl pgdir pt lim s.
Proof.
  intros G Hn. destruct (gr_tabs _ _ _ _ _ G) as (tabs & Hperm & Htab).
  pose proof U0 as [[I0 P0 A0] Hl Hlp Hsm Ho Hj]. pose proof (ki_nodup _ _ _ I0) as Hnd.
  rewrite Hperm in Hnd. apply NoDup_app in Hnd as (_ & N1 & Hnd). apply NoDup_app in Hnd as (N2 & N3 & N4).
  unfold KERNBASE in Hl.
  assert (Hin : forall y, y ∈ fl0 <-> y ∈ tabs \/ y ∈ frames (k_mem s) pt a n \/ y ∈ x \/ y ∈ fl)
    by (intros y; rewrite Hperm, !elem_of_app; reflexivity).
  assert (Hold : forall v, 0 <= v < lim -> ~ (a <= v < a + 4096 * Z.of_nat n) ->
    present (k_mem s) pt v = present (k_mem s0) pt0 v /\ frame (k_mem s) pt v = frame (k_mem s0) pt0 v).
  { intros v Hv Hr. unfold present, frame. rewrite (gr_old _ _ _ _ _ G) by (assumption || unfold u32; lia). auto. }
  constructor; [apply G | unfold KERNBASE; lia | exact Hlp | | |].
  - intros v Hv Hnone. rewrite (gr_none _ _ _ _ _ G) by (assumption || apply PDX_range; unfold u32; lia).
    apply Hsm; [exact Hv|]. destruct (pt0 !! PDX v) eqn:E; [|reflexivity].
    apply (gr_sub _ _ _ _ _ G) in E. congruence.
  - intros v Hv Hp. destruct (decide (a <= v < a + 4096 * Z.of_nat n)) as [Hr | Hr].
    + destruct (grown_new _ _ _ _ _ v G Hr) as [_ Hf].
      destruct (gr_new _ _ _ _ _ G v Hr) as (q & Hq & _ & E & _).
      assert (frame (k_mem s) pt v = q) as Efq by (unfold frame; rewrite E; apply Hent, Hq).
      rewrite Efq in *. split; [exact Hq|]. split.
      * intros Hfl. apply (N3 q Hf). rewrite elem_of_app. auto.
      * intros [Hpt | Htb]%Htab; [apply (A0 q Hpt), Hin; auto | apply (N1 q Htb); rewrite elem_of_app; auto].
    + destruct (Hold v Hv Hr) as [Ep Ef]. rewrite Ep in Hp. rewrite Ef.
      destruct (Ho v Hv Hp) as (O1 & O2 & O3). split; [exact O1|].
      split; [intros Hfl; apply O2, Hin; auto|].
      intros [Hpt | Htb]%Htab; [auto | apply O2, Hin; auto].
  - intros v w Hv Hw Hp Hp' E.
    destruct (decide (a <= v < a + 4096 * Z.of_nat n)) as [Hr | Hr];
      destruct (decide (a <= w < a + 4096 * Z.of_nat n)) as [Hr' | Hr'].
    + pose proof (frames_lookup (k_mem s) pt n a) as Lk.
      assert (Hpr : forall u, a <= u < a + 4096 * Z.of_nat n -> present (k_mem s) pt u = true)
        by (intros u Hu; apply (grown_new _ _ _ _ _ u G Hu)).
      pose proof (Lk (Z.to_nat ((v - a) / 4096)) Hpr ltac:(zdm)) as L1.
      pose proof (Lk (Z.to_nat ((w - a) / 4096)) Hpr ltac:(zdm)) as L2.
      rewrite Z2Nat.id in L1, L2 by zdm.
      unfold frame in L1, L2, E. rewrite (pteval_page _ _ v) in L1 by (unfold u32; zdm).
      rewrite (pteval_page _ _ w) in L2 by (unfold u32; zdm). rewrite E in L1.
      pose proof (NoDup_lookup _ _ _ _ N2 L1 L2). zdm.
    + exfalso. destruct (Hold w Hw Hr') as [Ep Ef]. rewrite Ep in Hp'. rewrite Ef in E.
      destruct (Ho w Hw Hp') as (_ & O2 & _). apply O2. rewrite <- E. apply Hin. right. left.
      apply (grown_new _ _ _ _ _ v G Hr).
    + exfalso. destruct (Hold v Hv Hr) as [Ep Ef]. rewrite Ep in Hp. rewrite Ef in E.
      destruct (Ho v Hv Hp) as (_ & O2 & _). apply O2. rewrite E. apply Hin. right. left.
      apply (grown_new _ _ _ _ _ w G Hr').
    + destruct (Hold v Hv Hr) as [Ep Ef]. destruct (Hold w Hw Hr') as [Ep' Ef'].
      rewrite Ep in Hp. rewrite Ep' in Hp'. rewrite Ef, Ef' in E. auto.
Qed.

(** Taking a page from the free list and filling it. *)
Lemma grown_take n q fl pt s s1 m' :
  grown n [] (q :: fl) pt s -> kinv fl hl s1 -> k_mem s1 = k_mem s -> kframe s s1 -> page_ok q ->
  a + 4096 * Z.of_nat n <= lim -> within q 4096 (k_mem s) m' ->
  grown n [q] fl pt (set_mem m' s1).
Proof.
  intros G I1 M1 F1 Hq Hn W. pose proof G as [[I P A] F (tabs & Hperm & Htab) Hs Hwh Hno Hfr Hm Hold Hnew].
  pose proof (us_lim _ _ _ _ _ _ U0) as Hl. unfold KERNBASE in Hl.
  assert (Hqp : ~ pt_page pgdir pt q) by (intros Hx; apply (A q Hx), list_elem_of_here).
  assert (Hqm : q mod 4096 = 0) by apply Hq.
  assert (Hqd : q <> pgdir) by (intros ->; apply Hqp; left; reflexivity).
  assert (Efr : frames m' pt a n = frames (k_mem s) pt a n).
  { apply frames_ext. intros v Hv. apply (pteval_within _ _ pgdir pt q); try assumption. unfold u32. lia. }
  pose proof (ki_nodup _ _ _ (ps_inv _ _ _ _ _ (us_ps _ _ _ _ _ _ U0))) as Hnd.
  rewrite Hperm in Hnd. apply NoDup_app in Hnd as (_ & _ & Hnd). apply NoDup_app in Hnd as (_ & N3 & N4).
  cbn [app] in N3, N4. apply NoDup_cons in N4 as [N4 _].
  assert (Hqf : q ∉ frames (k_mem s) pt a n) by (intros Hx; apply (N3 q Hx), list_elem_of_here).
  constructor; cbn [k_mem set_mem].
  - constructor; cbn [k_mem set_mem].
    + apply (pa_write (PageAllocator := base_allocator hl) q); auto. rewrite M1. exact W.
    + eapply pd_ok_within; eassumption.
    + intros y Hy Hyf. apply (A y Hy). by apply list_elem_of_further.
  - etransitivity; [exact F | exact F1].
  - exists tabs. rewrite Efr. auto.
  - exact Hs.
  - intros i p Hi. destruct (Hwh i p Hi) as [? | (v & Hv & Ev)]; [auto | right; exists v].
    cbn [length] in *. split; [lia | exact Ev].
  - intros i Hi Hin. rewrite <- Hno by assumption.
    apply (page_word_within q); auto. apply (pd_page _ _ _ P).
  - exact Hfr.
  - eapply agree_off_trans; [exact Hm | apply within_agree; eassumption | auto |].
    intros y <-. left. rewrite Hperm, !elem_of_app. right. right. right. apply list_elem_of_here.
  - intros v Hv Hr. rewrite <- Hold by assumption. apply (pteval_within _ _ pgdir pt q); assumption.
  - intros v Hv. destruct (Hnew v Hv) as (q' & Hq' & Hin & E & Hz). exists q'.
    split; [exact Hq'|]. rewrite Efr. split; [exact Hin|].
    split; [rewrite <- E; apply (pteval_within _ _ pgdir pt q); try assumption; unfold u32; lia|].
    assert (q' <> q) as Hne by (intros ->; auto). destruct Hq' as (Hq'm & _).
    intros j Hj. rewrite W; [apply Hz, Hj|]. destruct (page_apart q' q Hq'm Hqm Hne); lia.
Qed.

(** The effect of adding page tables, [pt_grows], on what has grown. *)
Section AddTables.
Context (n : nat) (q : Z) (fl fl' : list Z) (pt pt' : gmap Z Z) (s s' : kstate).
Context (G : grown n [q] fl pt s) (Hps' : pspace fl' hl pgdir pt' s') (F' : kframe s s').
Context (G' : pt_grows fl pgdir pt (k_mem s) fl' pt' (k_mem s')).
Context (T' : tables_in (eq (PDX (a + 4096 * Z.of_nat n))) pt pt').

Lemma grown_keep y j :
  y ∈ frames (k_mem s) pt a n \/ y = q -> page_ok y -> 0 <= j < 4096 ->
  load8 (k_mem s') (y + j) = load8 (k_mem s) (y + j).
Proof.
  intros Hy Hyk Hj. apply (agree_off_byte _ _ _ y j (pg_mem _ _ _ _ _ _ _ G')); [apply Hyk | exact Hj |].
  destruct (gr_tabs _ _ _ _ _ G) as (tabs & Hperm & Htab).
  pose proof (ki_nodup _ _ _ (ps_inv _ _ _ _ _ (us_ps _ _ _ _ _ _ U0))) as Hnd.
  rewrite Hperm in Hnd. apply NoDup_app in Hnd as (_ & N1 & Hnd). apply NoDup_app in Hnd as (_ & N3 & N4).
  apply NoDup_app in N4 as (_ & N4 & _).
  assert (y ∈ fl0) as Hy0 by (rewrite Hperm, !elem_of_app, list_elem_of_singleton; tauto).
  intros [Hyf | [Hyp | Hyt]%Htab].
  - destruct Hy as [Hy | ->]; [apply (N3 y Hy); rewrite elem_of_app; auto|].
    apply (N4 q); [by apply list_elem_of_singleton | exact Hyf].
  - apply (ps_apart _ _ _ _ _ (us_ps _ _ _ _ _ _ U0) y Hyp Hy0).
  - apply (N1 y Hyt). rewrite !elem_of_app, list_elem_of_singleton. tauto.
Qed.

Lemma grown_extend n' x' :
  (n <= n')%nat -> (n' + length x' = S n)%nat -> frames (k_mem s') pt' a n' ++ x' ≡ₚ frames (k_mem s) pt a n ++ [q] ->
  (forall v, u32 v -> ~ (a <= v < a + 4096 * Z.of_nat n') ->
     pteval (k_mem s') pt' v = pteval (k_mem s) pt v) ->
  (forall v, a <= v < a + 4096 * Z.of_nat n' ->
     exists y, page_ok y /\ y ∈ frames (k_mem s) pt a n ++ take (n' - n) [q] /\
     pteval (k_mem s') pt' v = ent y v /\ forall j, 0 <= j < 4096 -> load8 (k_mem s) (y + j) = cont v j) ->
  (forall y, y ∈ frames (k_mem s) pt a n ++ take (n' - n) [q] -> y ∈ frames (k_mem s') pt' a n') ->
  grown n' x' fl' pt' s'.
Proof.
  intros Hle Hlen Hx Hv' Hn' Hsub. pose proof G as [_ F (tabs & Hperm & Htab) Hs Hwh Hno Hfr Hm Hold _].
  destruct G' as [(u & Eu & Hu) Hs' Hno' Hfr' Hm'].
  constructor; auto; [etransitivity; eassumption | | | | | | |].
  - exists (tabs ++ u). split.
    + rewrite Hperm, Eu, <- (app_assoc tabs u), (app_assoc _ x'), Hx, <- !app_assoc.
      solve_Permutation.
    + intros y. rewrite Hu, Htab, elem_of_app. tauto.
  - intros i p Hi. destruct (pt !! i) as [p1|] eqn:E.
    + assert (p1 = p) as -> by (apply Hs' in E; congruence).
      destruct (Hwh i p E) as [? | (v & Hv & Ev)]; [auto | right; exists v]. cbn [length] in Hv. split; [lia | exact Ev].
    + right. exists (a + 4096 * Z.of_nat n). split; [lia|]. eapply T'; eassumption.
  - intros i Hi Hin. rewrite Hno' by assumption. apply Hno; [exact Hi|].
    destruct (pt !! i) eqn:E; [apply Hs' in E; congruence | reflexivity].
  - intros i p Hi H0 H1. destruct (pt !! i) as [p1|] eqn:E; [eapply Hfr; eassumption|].
    rewrite <- Hno by assumption. eapply Hfr'; eassumption.
  - eapply agree_off_trans; [exact Hm | exact Hm' | auto |]. intros y [Hy | [Hy | Hy]%Htab];
      [left; rewrite Hperm, !elem_of_app in *; tauto | auto | left; rewrite Hperm, !elem_of_app; tauto].
  - intros v Hv Hr. rewrite Hv' by assumption. apply Hold; [exact Hv|]. lia.
  - intros v Hv. destruct (Hn' v Hv) as (y & Hy & Hin & E & Hz). exists y.
    split; [exact Hy|]. split; [auto|]. split; [exact E|]. intros j Hj. rewrite grown_keep; auto.
    apply elem_of_app in Hin as [Hin | Hin]; [auto|].
    apply elem_of_take in Hin as (i & Hi & _). right. by apply list_elem_of_lookup_2, list_elem_of_singleton in Hi.
Qed.
End AddTables.

(** [mappages] adds page tables and, when it succeeds, maps the page taken. *)
Lemma grown_map n q fl pt s (ok : bool) fl' pt' s' :
  grown n [q] fl pt s -> page_ok q ->
  (forall v j, a + 4096 * Z.of_nat n <= v < a + 4096 * (Z.of_nat n + 1) -> 0 <= j < 4096 ->
     load8 (k_mem s) (q + j) = cont v j) ->
  a + 4096 * (Z.of_nat n + 1) <= lim ->
  pspace fl' hl pgdir pt' s' -> pt_grows fl pgdir pt (k_mem s) fl' pt' (k_mem s') -> kframe s s' ->
  tables_in (eq (PDX (a + 4096 * Z.of_nat n))) pt pt' ->
  (forall v, u32 v -> pteval (k_mem s') pt' v =
     if ok && ((a + 4096 * Z.of_nat n) / 4096 =? v / 4096) then ent q v else pteval (k_mem s) pt v) ->
  if ok then grown (S n) [] fl' pt' s' else grown n [q] fl' pt' s'.
Proof.
  intros G Hq Hz Hn Hps' G' F' T' V'.
  pose proof (us_lim _ _ _ _ _ _ U0) as Hl. unfold KERNBASE in Hl.
  set (b := a + 4096 * Z.of_nat n) in *.
  assert (Vlow : forall v, u32 v -> v < b -> pteval (k_mem s') pt' v = pteval (k_mem s) pt v).
  { intros v Hv Hb. rewrite V' by exact Hv. destruct ok; [|reflexivity]. cbn [andb]. zcase; exfalso; zdm. }
  assert (Efr : frames (k_mem s') pt' a n = frames (k_mem s) pt a n).
  { apply frames_ext. intros v Hv. apply Vlow; unfold u32, b; lia. }
  assert (Hnew : forall v, a <= v < b -> exists q', page_ok q' /\ q' ∈ frames (k_mem s) pt a n /\
    pteval (k_mem s') pt' v = ent q' v /\ forall j, 0 <= j < 4096 -> load8 (k_mem s) (q' + j) = cont v j).
  { intros v Hv. rewrite Vlow by (unfold u32, b in *; lia). apply (gr_new _ _ _ _ _ G v Hv). }
  destruct ok; cbn [andb] in V'.
  - assert (Eb : frames (k_mem s') pt' a (S n) = frames (k_mem s) pt a n ++ [q]).
    { replace (S n) with (n + 1)%nat by lia. rewrite frames_app, Efr. fold b. f_equal. cbn [frames app].
      unfold present, frame. rewrite V' by (unfold u32, b in *; lia). rewrite Z.eqb_refl.
      destruct (Hent q b Hq) as [-> ->]. reflexivity. }
    apply (grown_extend n q fl fl' pt pt' s s' G Hps' F' G' T'); rewrite ?Eb, ?app_nil_r;
      replace (S n - n)%nat with 1%nat by lia; cbn [take]; auto.
    + intros v Hv Hr. rewrite V' by exact Hv. zcase; exfalso; unfold b in *; zdm.
    + intros v Hv. destruct (Z.lt_ge_cases v b) as [Hlt | Hge].
      * destruct (Hnew v ltac:(lia)) as (q' & Hq' & Hin & R). exists q'. rewrite elem_of_app. auto.
      * exists q. rewrite elem_of_app, list_elem_of_singleton. split; [exact Hq|]. split; [auto|].
        split; [rewrite V' by (unfold u32, b in *; lia); zcase; exfalso; unfold b in *; zdm|].
        intros j Hj. apply Hz; [unfold b in *; lia | exact Hj].
  - apply (grown_extend n q fl fl' pt pt' s s' G Hps' F' G' T'); rewrite ?Efr;
      replace (n - n)%nat with 0%nat by lia; cbn [take]; rewrite ?app_nil_r; auto.
    cbn [length]. lia.
Qed.

Lemma grown_hw n x fl pt s v :
  grown n x fl pt s -> u32 v -> ~ (a <= v < a + 4096 * Z.of_nat n) ->
  hw_translate (k_mem s) pgdir v = hw_translate (k_mem s0) pgdir v.
Proof.
  intros G Hv Hr. pose proof (PDX_range v Hv) as Hi.
  apply (hw_kept (k_mem s0) pgdir pt0 (k_mem s) pt); try assumption.
  - apply U0.
  - apply G.
  - intros p. apply (gr_sub _ _ _ _ _ G).
  - apply (gr_none _ _ _ _ _ G), Hi.
  - intros p. apply (gr_fresh _ _ _ _ _ G), Hi.
  - apply (gr_old _ _ _ _ _ G); assumption.
Qed.

(** The address space is as at the start, but for page tables in [tabs]. *)
Record restored (x fl : list Z) (pt : gmap Z Z) (s : kstate) : Prop := {
  re_space : uspace fl hl pgdir pt lim s;
  re_frame : kframe s0 s;
  re_tabs : exists tabs, fl0 ≡ₚ tabs ++ x ++ fl /\
    forall y, pt_page pgdir pt y <-> pt_page pgdir pt0 y \/ y ∈ tabs;
  re_hw v : u32 v -> hw_translate (k_mem s) pgdir v = hw_translate (k_mem s0) pgdir v;
  re_old v : 0 <= v < lim -> present (k_mem s) pt v = true ->
    present (k_mem s0) pt0 v = true /\ frame (k_mem s) pt v = frame (k_mem s0) pt0 v;
  re_mem : agree_off (fun y => y ∈ fl0 \/ pt_page pgdir pt0 y) (k_mem s0) (k_mem s) }.

Lemma grown_rollback n N x fl pt s fl' s' :
  grown n x fl pt s -> freed hl pgdir pt lim fl s a N fl' s' -> (n <= N)%nat ->
  a + 4096 * Z.of_nat N <= lim ->
  (forall v, a <= v < a + 4096 * Z.of_nat N -> unmapped (k_mem s0) pgdir pt0 v) ->
  restored x fl' pt s'.
Proof.
  intros G R Hn Hb Hun. pose proof (us_lim _ _ _ _ _ _ U0) as Hl. unfold KERNBASE in Hl.
  assert (U : uspace fl hl pgdir pt lim s) by (eapply grown_uspace; [exact G | lia]).
  assert (Efr : frames (k_mem s) pt a N = frames (k_mem s) pt a n).
  { replace N with (n + (N - n))%nat by lia. rewrite frames_app, (frames_absent _ _ (N - n)), app_nil_r; [reflexivity|].
    intros v Hv. unfold present. rewrite (gr_old _ _ _ _ _ G) by (unfold u32; lia). apply Hun. lia. }
  destruct (gr_tabs _ _ _ _ _ G) as (tabs & Hperm & Htab).
  pose proof (fr_list _ _ _ _ _ _ _ _ _ _ R) as L. pose proof (fr_mem _ _ _ _ _ _ _ _ _ _ R) as A.
  rewrite Efr in L, A. constructor.
  - apply R.
  - etransitivity; [apply G | apply R].
  - exists tabs. split; [|exact Htab]. rewrite Hperm, L. solve_Permutation.
  - intros v Hv. rewrite (hw_freed _ _ _ _ _ _ _ _ _ _ v U R) by (auto; lia).
    destruct ((a <=? v) && (v <? a + 4096 * Z.of_nat N)) eqn:Er.
    + apply andb_prop in Er as [E1%Z.leb_le E2%Z.ltb_lt]. destruct (Hun v ltac:(lia)) as [Hp Hz].
      symmetry. apply (hw_none _ _ pt0); try assumption. apply U0.
    + apply (grown_hw n x fl pt s); [exact G | exact Hv |].
      intros Hr. apply andb_false_iff in Er as [E%Z.leb_gt | E%Z.ltb_ge]; lia.
  - intros v Hv. unfold present, frame.
    rewrite (fr_pte _ _ _ _ _ _ _ _ _ _ R) by (unfold u32; lia).
    destruct ((a <=? v) && (v <? a + 4096 * Z.of_nat N)) eqn:Er; cbn [andb].
    + apply andb_prop in Er as [E1%Z.leb_le E2%Z.ltb_lt].
      destruct (present (k_mem s) pt v) eqn:Ep; [discriminate|].
      unfold present in Ep. rewrite Ep. discriminate.
    + rewrite (gr_old _ _ _ _ _ G); [auto | unfold u32; lia |].
      intros Hr. apply andb_false_iff in Er as [E%Z.leb_gt | E%Z.ltb_ge]; lia.
  - eapply agree_off_trans; [apply G | exact A | auto |]. intros y [Hy | [Hy | Hy]%Htab];
      [left; rewrite Hperm, !elem_of_app; tauto | auto | left; rewrite Hperm, !elem_of_app; tauto].
Qed.

(** Giving back a page that was taken but not mapped. *)
Lemma restored_give q fl pt s :
  restored [q] fl pt s -> page_ok q -> exists s', kfree q s = Ok tt s' /\ restored [] (q :: fl) pt s'.
Proof.
  intros [U F (tabs & Hperm & Htab) Hhw Hold Hm] Hq.
  pose proof (ki_nodup _ _ _ (ps_inv _ _ _ _ _ (us_ps _ _ _ _ _ _ U0))) as Hnd.
  rewrite Hperm in Hnd. apply NoDup_app in Hnd as (_ & N1 & Hnd). apply NoDup_app in Hnd as (_ & N2 & _).
  assert (Hq0 : q ∈ fl0) by (rewrite Hperm, !elem_of_app, list_elem_of_singleton; tauto).
  destruct (uspace_push fl hl pgdir pt lim s q U Hq) as (s1 & E1 & U1 & F1 & W1 & V1).
  - apply (N2 q), list_elem_of_here.
  - intros [Hx | Hx]%Htab; [apply (ps_apart _ _ _ _ _ (us_ps _ _ _ _ _ _ U0) q Hx Hq0)|].
    apply (N1 q Hx). rewrite elem_of_app, list_elem_of_singleton. auto.
  - intros v Hv Hp <-. destruct (Hold v Hv Hp) as [Hp0 E]. rewrite E in Hq0.
    destruct (us_owned _ _ _ _ _ _ U0 v Hv Hp0) as (_ & O2 & _). auto.
  - exists s1. split; [exact E1|]. constructor; [exact U1 | etransitivity; eassumption | | | |].
    + exists tabs. split; [|exact Htab]. rewrite Hperm. solve_Permutation.
    + intros v Hv. rewrite <- Hhw by exact Hv. apply V1, Hv.
    + intros v Hv. unfold present, frame. destruct (V1 v) as [-> _]; [|apply Hold, Hv].
      pose proof (us_lim _ _ _ _ _ _ U0). unfold u32, KERNBASE in *. lia.
    + eapply agree_off_trans; [exact Hm | apply within_agree; [apply Hq | exact W1] | auto |].
      intros y <-. auto.
Qed.

Lemma kinv_out fl s o : kinv fl hl s -> kinv fl hl (set_out o s).
Proof. intros [H1 H2 H3 H4 H5 H6 H7 H8 H9]. constructor; try assumption. cpuok. Qed.

Lemma grown_out n x fl pt s o : grown n x fl pt s -> grown n x fl pt (set_out o s).
Proof.
  intros [[I P A] F T H1 H2 H3 H4 H5 H6 H7]. constructor; try assumption.
  constructor; [apply kinv_out, I | exact P | exact A].
Qed.

(** The loop of [allocuvm] from [oldsz] to [newsz]. *)
Section AllocLoop.
Context (Eent : ent = zero_ent) (Econt : cont = zero_cont).
Context (oldsz newsz : Z) (Ea : a = PGROUNDUP oldsz) (Hsz : 0 <= oldsz <= newsz) (Hnl : newsz <= lim).
Context (Hun : forall v, a <= v < a + 4096 * Z.of_nat (npages newsz a) -> unmapped (k_mem s0) pgdir pt0 v).

(** Rolling back with [deallocuvm(pgdir, newsz, oldsz)]. *)
Lemma alloc_undo n x fl pt s :
  grown n x fl pt s -> (n <= npages newsz a)%nat -> a < newsz ->
  exists r fl' s', deallocuvm pgdir newsz oldsz s = Ok r s' /\ restored x fl' pt s'.
Proof.
  intros G Hle Hlt. pose proof (us_lim _ _ _ _ _ _ U0) as Hl. unfold KERNBASE in Hl.
  pose proof (us_lim_page _ _ _ _ _ _ U0) as Hlp.
  assert (Hb : a + 4096 * Z.of_nat (npages newsz a) <= lim) by (rewrite npages_eq by lia; zdm).
  assert (U : uspace fl hl pgdir pt lim s) by (eapply grown_uspace; [exact G | lia]).
  pose proof (PGROUNDUP_bounds oldsz ltac:(lia)).
  destruct (deallocuvm_freed fl hl pgdir pt lim s newsz oldsz U) as (fl' & s' & E & R); [lia | lia |].
  rewrite <- Ea in R. exists oldsz, fl', s'. split; [exact E|].
  eapply grown_rollback; eassumption.
Qed.

(** No page for user memory: [deallocuvm] undoes the pages added so far. *)
Lemma alloc_no_page n pt s :
  grown n [] [] pt s -> a + 4096 * Z.of_nat n < newsz -> (n <= npages newsz a)%nat ->
  exists fl' s', restored [] fl' pt s' /\
    (let! mem := kalloc in
     if mem =? 0 then
       cprintf "allocuvm out of memory\n" ;; let! _ := deallocuvm pgdir newsz oldsz in ret mem
     else ret 1) s = Ok 0 s'.
Proof.
  intros G Hlt Hn.
  destruct (pa_empty (PageAllocator := base_allocator hl) s (ps_inv _ _ _ _ _ (gr_ps _ _ _ _ _ G)))
    as (s1 & E1 & I1 & M1 & F1).
  assert (G1 : grown n [] [] pt s1).
  { destruct G as [[I P A] F T H1 H2 H3 H4 H5 H6 H7]. constructor; rewrite ?M1; try assumption.
    - constructor; [exact I1 | rewrite M1; exact P | exact A].
    - etransitivity; eassumption. }
  apply (grown_out _ _ _ _ _ ("allocuvm out of memory\n" :: k_out s1)) in G1.
  destruct (alloc_undo _ _ _ _ _ G1) as (r & fl' & s' & E & R); [lia | lia |].
  exists fl', s'. split; [exact R|].
  erewrite bind_ok by exact E1. cbn [Z.eqb]. unfold cprintf, modify. erewrite bind_ok by reflexivity.
  erewrite bind_ok by exact E. reflexivity.
Qed.

(** A page is taken, cleared and given to [mappages]. *)
Lemma alloc_page n q fl pt s :
  grown n [] (q :: fl) pt s -> a + 4096 * Z.of_nat n < newsz ->
  exists (ok : bool) fl' pt' s1 s2 s3,
    page_ok q /\ kalloc s = Ok q s1 /\ kmemset q 0 PGSIZE s1 = Ok tt s2 /\
    mappages pgdir (a + 4096 * Z.of_nat n) PGSIZE (V2P q) (Z.lor PTE_W PTE_U) s2 =
      Ok (if ok then 0 else -1) s3 /\
    if ok then grown (S n) [] fl' pt' s3 else grown n [q] fl' pt' s3.
Proof.
  intros G Hlt. pose proof (us_lim _ _ _ _ _ _ U0) as Hl. unfold KERNBASE in Hl.
  pose proof (us_lim_page _ _ _ _ _ _ U0) as Hlp.
  assert (Hn : Z.of_nat n + 1 <= Z.of_nat (npages newsz a)) by (rewrite npages_eq by lia; zdm).
  assert (Hb : a + 4096 * (Z.of_nat n + 1) <= lim) by zdm.
  destruct (pa_pop (PageAllocator := base_allocator hl) q fl s (ps_inv _ _ _ _ _ (gr_ps _ _ _ _ _ G)))
    as (s1 & E1 & I1 & Hq & Hqf & M1 & F1).
  set (b := a + 4096 * Z.of_nat n) in *.
  pose proof (grown_take n q fl pt s s1 (fill (k_mem s) q 0 4096) G I1 M1 F1 Hq ltac:(unfold b in *; lia)
    ltac:(intros y Hy; apply load8_fill_out, Hy)) as G2.
  set (s2 := set_mem (fill (k_mem s) q 0 4096) s1) in *.
  pose proof (page_ok_addr q Hq) as Hqa. unfold KERNBASE, PHYSTOP in Hqa.
  destruct (mappages_one fl hl pgdir pt s2 b q) as (ok & fl' & pt' & s3 & E3 & Hok & Hps3 & G3 & F3 & V3 & T3);
    [apply G2 | exact Hq | unfold u32, b; lia | unfold b; zdm | |].
  { split.
    - rewrite (gr_old _ _ _ _ _ G2) by (unfold u32, b; lia). apply Hun. lia.
    - intros Hnone. rewrite (gr_none _ _ _ _ _ G2) by (auto; apply PDX_range; unfold u32; lia).
      apply Hun; [lia|]. destruct (pt0 !! PDX b) eqn:E; [|reflexivity].
      apply (gr_sub _ _ _ _ _ G2) in E. congruence. }
  exists ok, fl', pt', s1, s2, s3. split; [exact Hq|]. split; [exact E1|]. split.
  { unfold kmemset, modify, s2, PGSIZE. rewrite memset_fill, M1 by (try reflexivity; unfold u32; lia). reflexivity. }
  split; [exact E3|]. apply (grown_map n q fl pt s2 ok fl' pt' s3 G2 Hq); try assumption.
  - intros v j _ Hj. rewrite Econt. unfold s2. cbn [k_mem set_mem]. apply load8_fill_in; lia.
  - rewrite Eent. exact V3.
Qed.

Lemma alloc_step n fl pt s f :
  grown n [] fl pt s -> a + 4096 * Z.of_nat n < newsz -> (n <= npages newsz a)%nat ->
  exists fl' pt' s',
    (allocuvm_loop pgdir oldsz newsz (a + 4096 * Z.of_nat n) (S f) s = Ok 0 s' /\ restored [] fl' pt' s') \/
    (allocuvm_loop pgdir oldsz newsz (a + 4096 * Z.of_nat n) (S f) s =
       allocuvm_loop pgdir oldsz newsz (a + 4096 * Z.of_nat (S n)) f s' /\ grown (S n) [] fl' pt' s').
Proof.
  intros G Hlt Hn. pose proof (us_lim _ _ _ _ _ _ U0) as Hl. unfold KERNBASE in Hl.
  cbn [allocuvm_loop]. rewrite (proj2 (Z.ltb_lt _ newsz)) by lia. destruct fl as [|q fl].
  - destruct (alloc_no_page n pt s G Hlt Hn) as (fl' & s' & R & E). exists fl', pt, s'. left.
    split; [|exact R]. apply bind_inv in E as (mem & s1 & E1 & E). erewrite bind_ok by exact E1.
    destruct (mem =? 0) eqn:Em; [|discriminate]. apply Z.eqb_eq in Em. subst mem. exact E.
  - destruct (alloc_page n q fl pt s G Hlt) as (ok & fl' & pt' & s1 & s2 & s3 & Hq & E1 & E2 & E3 & R).
    pose proof (page_ok_addr q Hq) as Hqa. unfold KERNBASE in Hqa.
    erewrite bind_ok by exact E1. destruct (Z.eqb_spec q 0); [lia|].
    erewrite bind_ok by exact E2. erewrite bind_ok by exact E3. destruct ok.
    + exists fl', pt', s3. right. split; [|exact R]. cbn [Z.ltb Z.compare]. f_equal. unfold PGSIZE.
      rewrite w32_small by (unfold u32; lia). lia.
    + apply (grown_out _ _ _ _ _ ("allocuvm out of memory (2)\n" :: k_out s3)) in R.
      destruct (alloc_undo _ _ _ _ _ R) as (r & fl5 & s5 & E5 & R5); [lia | lia |].
      destruct (restored_give _ _ _ _ R5 Hq) as (s6 & E6 & R6).
      exists (q :: fl5), pt', s6. left. split; [|exact R6].
      cbn [Z.ltb Z.compare]. unfold cprintf, modify. erewrite bind_ok by reflexivity.
      erewrite bind_ok by exact E5. erewrite bind_ok by exact E6. reflexivity.
Qed.

Lemma alloc_loop_spec : forall fuel n fl pt s,
  grown n [] fl pt s -> (n <= npages newsz a)%nat -> (npages newsz a - n < fuel)%nat ->
  exists r fl' pt' s',
    allocuvm_loop pgdir oldsz newsz (a + 4096 * Z.of_nat n) fuel s = Ok r s' /\
    (r = newsz /\ grown (npages newsz a) [] fl' pt' s' \/ r = 0 /\ restored [] fl' pt' s').
Proof.
  induction fuel as [|f IH]; intros n fl pt s G Hn Hf; [lia|].
  destruct (Z.lt_ge_cases (a + 4096 * Z.of_nat n) newsz) as [Hlt | Hge].
  - destruct (alloc_step n fl pt s f G Hlt Hn) as (fl' & pt' & s' & [[E R] | [E R]]).
    + exists 0, fl', pt', s'. auto.
    + assert (S n <= npages newsz a)%nat.
      { apply Nat2Z.inj_le. rewrite npages_eq by lia. rewrite Nat2Z.inj_succ. zdm. }
      rewrite E. apply (IH (S n) fl' pt' s' R); lia.
  - exists newsz, fl, pt, s. cbn [allocuvm_loop]. rewrite (proj2 (Z.ltb_ge _ newsz)) by lia.
    split; [reflexivity|]. left. split; [reflexivity|].
    assert (npages newsz a = n) as ->; [|exact G]. apply Nat2Z.inj.
    destruct (Z.le_gt_cases a newsz); [|rewrite npages_0 in * by lia; lia].
    apply Z.le_antisymm; [rewrite npages_eq by lia; zdm | lia].
Qed.
End AllocLoop.

End Grow.

Lemma allocuvm_result fl hl pgdir pt lim s oldsz newsz :
  uspace fl hl pgdir pt lim s -> 0 <= oldsz <= newsz -> newsz <= lim -> newsz < KERNBASE ->
  let a := PGROUNDUP oldsz in let n := npages newsz a in
  (forall v, a <= v < a + 4096 * Z.of_nat n -> unmapped (k_mem s) pgdir pt v) ->
  a mod 4096 = 0 /\ 0 <= a /\ a + 4096 * Z.of_nat n <= lim /\
  exists r fl' pt' s', allocuvm pgdir oldsz newsz s = Ok r s' /\
    (r = newsz /\ grown hl pgdir a fl pt s zero_ent zero_cont n [] fl' pt' s' \/
     r = 0 /\ restored hl pgdir lim fl pt s [] fl' pt' s').
Proof.
  intros U Hsz Hl Hk a n Hun. pose proof (us_lim _ _ _ _ _ _ U) as Hlim. unfold KERNBASE in *.
  pose proof (us_lim_page _ _ _ _ _ _ U) as Hlp.
  pose proof (PGROUNDUP_bounds oldsz ltac:(lia)) as Hb. pose proof (PGROUNDUP_aligned oldsz ltac:(lia)) as Ha.
  fold a in Hb, Ha. assert (Ha0 : 0 <= a) by lia. split; [exact Ha|]. split; [exact Ha0|]. split.
  { unfold n. destruct (Z.le_gt_cases a newsz); [rewrite npages_eq by lia; zdm|].
    rewrite npages_0 by lia. zdm. }
  pose proof (grown_0 hl pgdir lim a fl pt s zero_ent zero_cont U) as G0.
  destruct (alloc_loop_spec hl pgdir lim a fl pt s zero_ent zero_cont U Ha Ha0 (fun q _ => entry_of q) eq_refl eq_refl oldsz newsz eq_refl Hsz Hl Hun
              (alloc_fuel PGSIZE newsz a) 0 fl pt s G0) as (r & fl' & pt' & s' & E & R); [lia | |].
  { unfold alloc_fuel, npages, PGSIZE. assert ((newsz - a + 4095) / 4096 <= (newsz - a) / 4096 + 1) by zdm. lia. }
  exists r, fl', pt', s'. split; [|exact R].
  unfold allocuvm. rewrite (proj2 (Z.leb_gt KERNBASE newsz)) by (unfold KERNBASE; lia).
  rewrite (proj2 (Z.ltb_ge newsz oldsz)) by lia. fold a. rewrite <- E. f_equal. lia.
Qed.

(** What a process sees of a page that has been added. *)
Lemma grown_sees hl pgdir lim a fl pt s n x fl' pt' s' v :
  uspace fl hl pgdir pt lim s -> a mod 4096 = 0 -> 0 <= a -> a + 4096 * Z.of_nat n <= lim ->
  grown hl pgdir a fl pt s zero_ent zero_cont n x fl' pt' s' -> a <= v < a + 4096 * Z.of_nat n ->
  exists q, q ∈ fl /\ hw_translate (k_mem s') pgdir v = Some (V2P q + v mod 4096, true, true) /\
    load8 (k_mem s') (q + v mod 4096) = 0.
Proof.
  intros U Ha Ha0 Hn G Hv. pose proof (us_lim _ _ _ _ _ _ U) as Hlim. unfold KERNBASE in *.
  destruct (gr_tabs _ _ _ _ _ _ _ _ _ _ _ _ _ G) as (tabs & Hp & Ht).
  destruct (gr_new _ _ _ _ _ _ _ _ _ _ _ _ _ G v Hv) as (q & Hq & Hin & Ev & Hz). exists q.
  unfold zero_ent, zero_cont in Ev, Hz.
  split; [rewrite Hp, !elem_of_app; auto|]. split; [|apply Hz; zdm].
  assert (Hv32 : u32 v) by (unfold u32; lia).
  destruct (pde_entry q Hq) as (_ & HP & _ & HU & HW & _ & Hu7). destruct (V2P_page q Hq) as (_ & Hm & Hu).
  rewrite (hw_mapped _ pgdir pt') by (try apply G; try assumption; rewrite Ev; exact HP).
  rewrite Ev, HU, HW. rewrite <- (entry_sum (V2P q) 7), PTE_ADDR_entry by (assumption || lia). reflexivity.
Qed.


(** ** Freeing an address space *)

(** The page-table pages for [n] directory entries from [i] on. *)
Fixpoint tables (pt : gmap Z Z) (i : Z) (n : nat) : list Z :=
  match n with
  | O => []
  | S n' => option_list (pt !! i) ++ tables pt (i + 1) n'
  end.

Lemma elem_of_tables pt x : forall n i,
  x ∈ tables pt i n <-> exists j, i <= j < i + Z.of_nat n /\ pt !! j = Some x.
Proof.
  induction n as [|n IH]; intros i; cbn [tables].
  { split; [intros Hx; invc Hx | intros (j & Hj & _); lia]. }
  rewrite elem_of_app, IH. split.
  - intros [Hx | (j & Hj & E)]; [|exists j; split; [lia | exact E]].
    exists i. split; [lia|]. destruct (pt !! i); [|invc Hx].
    apply list_elem_of_singleton in Hx. congruence.
  - intros (j & Hj & E). destruct (Z.eq_dec j i) as [-> | Hne].
    + left. rewrite E. apply list_elem_of_here.
    + right. exists j. split; [lia | exact E].
Qed.

Lemma freevm_loop_spec hl pgdir pt : forall n fl s i,
  kinv fl hl s -> pd_ok (k_mem s) pgdir pt -> pgdir ∉ fl ->
  0 <= i -> i + Z.of_nat n <= 1024 ->
  (forall j p, i <= j -> pt !! j = Some p -> p ∉ fl) ->
  exists fl' s', freevm_loop pgdir i n s = Ok tt s' /\ kinv fl' hl s' /\
    fl' ≡ₚ tables pt i n ++ fl /\ kframe s s' /\
    agree_off (fun x => x ∈ tables pt i n) (k_mem s) (k_mem s').
Proof.
  induction n as [|n IH]; intros fl s i I P Hd Hi Hb Hap.
  { exists fl, s. split; [reflexivity|]. split; [exact I|]. split; [reflexivity|].
    split; [reflexivity | apply agree_off_refl]. }
  pose proof (pd_page _ _ _ P) as Hpg. pose proof (page_ok_addr _ Hpg) as Hpa. unfold KERNBASE, PHYSTOP in Hpa.
  cbn [freevm_loop tables]. rewrite w32_small by (unfold u32; lia).
  unfold ld32, gets. erewrite bind_ok by reflexivity. fold (pde_at (k_mem s) pgdir i).
  destruct (pt !! i) as [p|] eqn:Ep; cbn [option_list app].
  - destruct (pd_some _ _ _ P _ _ Ep) as (_ & Hp & Hne & ->).
    destruct (pde_entry p Hp) as (_ & -> & -> & _ & _ & -> & _).
    destruct (pa_push (PageAllocator := base_allocator hl) p fl s I Hp) as (s1 & E1 & I1 & W1 & F1);
      [apply (Hap i); [lia | exact Ep]|].
    erewrite bind_ok by exact E1.
    destruct (IH (p :: fl) s1 (i + 1) I1) as (fl' & s' & E & I' & L & F & A); try lia.
    + eapply pd_ok_within; [exact P | exact W1 | apply Hp | exact Hne].
    + intros [-> | Hx]%elem_of_cons; auto.
    + intros j p' Hj Ej [-> | Hx]%elem_of_cons; [|apply (Hap j p'); auto; lia].
      pose proof (pd_inj _ _ _ P i j p Ep Ej). lia.
    + exists fl', s'. split; [exact E|]. split; [exact I'|].
      split; [rewrite L; symmetry; apply (Permutation_middle _ _ p)|].
      split; [etransitivity; eassumption|].
      eapply agree_off_trans; [apply within_agree; [apply Hp | exact W1] | exact A | |]; cbn beta.
      * intros x <-. apply list_elem_of_here.
      * intros x Hx. by apply list_elem_of_further.
  - assert (Hskip : (if has (pde_at (k_mem s) pgdir i) PTE_P then
        if has (pde_at (k_mem s) pgdir i) PTE_PS then ret tt
        else kfree (P2V (PTE_ADDR (pde_at (k_mem s) pgdir i)))
        else ret tt) s = Ok tt s).
    { destruct (pd_none _ _ _ P i ltac:(lia) Ep) as [-> | [-> ->]]; reflexivity. }
    erewrite bind_ok by exact Hskip. apply IH; auto; [lia | lia |].
    intros j p Hj. apply Hap. lia.
Qed.

Lemma freevm_spec fl hl pgdir pt s :
  uspace fl hl pgdir pt KERNBASE s ->
  exists fl' s', freevm pgdir s = Ok tt s' /\ kinv fl' hl s' /\ kframe s s' /\
    fl' ≡ₚ pgdir :: tables pt 0 1024 ++ frames (k_mem s) pt 0 (npages KERNBASE 0) ++ fl /\
    agree_off (fun x => x ∈ fl' /\ x ∉ fl) (k_mem s) (k_mem s').
Proof.
  intros U. pose proof (ps_pd _ _ _ _ _ (us_ps _ _ _ _ _ _ U)) as P.
  pose proof (pd_page _ _ _ P) as Hpg. pose proof (page_ok_addr _ Hpg) as Hpa. unfold KERNBASE, PHYSTOP in Hpa.
  destruct (deallocuvm_freed fl hl pgdir pt KERNBASE s KERNBASE 0 U) as (fl1 & s1 & E1 & R);
    [unfold KERNBASE; lia | lia |].
  change (PGROUNDUP 0) with 0 in R. destruct R as [U1 F1 L1 A1 _ _].
  set (fr := frames (k_mem s) pt 0 (npages KERNBASE 0)) in *.
  pose proof U1 as [[I1 P1 Ap1] _ _ _ _ _].
  destruct (freevm_loop_spec hl pgdir pt 1024 fl1 s1 0 I1 P1) as (fl2 & s2 & E2 & I2 & L2 & F2 & A2);
    [apply Ap1; left; reflexivity | lia | lia | intros j p _ Ej; apply Ap1; right; eauto |].
  assert (Hpt : forall x, x ∈ tables pt 0 1024 -> exists j, pt !! j = Some x)
    by (intros x Hx; apply elem_of_tables in Hx as (j & _ & Hj); eauto).
  assert (Hd2 : pgdir ∉ fl2).
  { rewrite L2, elem_of_app. intros [Hx | Hx]; [|apply (Ap1 pgdir); [left; reflexivity | exact Hx]].
    destruct (Hpt _ Hx) as (j & Hj). apply (pd_some _ _ _ P _ _ Hj). reflexivity. }
  destruct (pa_push (PageAllocator := base_allocator hl) pgdir fl2 s2 I2 Hpg Hd2) as (s3 & E3 & I3 & W3 & F3).
  exists (pgdir :: fl2), s3. split.
  { unfold freevm. destruct (Z.eqb_spec pgdir 0); [lia|]. erewrite bind_ok by exact E1.
    change (Z.to_nat NPDENTRIES) with 1024%nat. erewrite bind_ok by exact E2. exact E3. }
  split; [exact I3|]. split; [etransitivity; [exact F1 | etransitivity; eassumption]|].
  split; [rewrite L2, L1; reflexivity|].
  assert (Hnew : forall x, x = pgdir \/ x ∈ tables pt 0 1024 \/ x ∈ fr -> x ∈ pgdir :: fl2 /\ x ∉ fl).
  { intros x Hx. rewrite elem_of_cons, L2, L1, !elem_of_app. split; [tauto|]. destruct Hx as [-> | [Hx | Hx]].
    - apply (ps_apart _ _ _ _ _ (us_ps _ _ _ _ _ _ U)). left. reflexivity.
    - apply (ps_apart _ _ _ _ _ (us_ps _ _ _ _ _ _ U)). right. auto.
    - pose proof (ki_nodup _ _ _ I1) as Hnd. rewrite L1 in Hnd. apply NoDup_app in Hnd as (_ & Hnd & _). auto. }
  eapply agree_off_trans; [exact A1 | eapply agree_off_trans with (R := fun x => x = pgdir \/ x ∈ tables pt 0 1024);
    [exact A2 | apply within_agree; [apply Hpg | exact W3] | auto | auto] | |]; cbn beta.
  - intros x [Hx | [Hx | [j Hj]]]; apply Hnew; auto. right. left.
    apply elem_of_tables. exists j. destruct (pd_some _ _ _ P _ _ Hj) as (Hj0 & _). split; [lia | exact Hj].
  - intros x [Hx | Hx]; apply Hnew; auto.
Qed.

(** C20 (vm.c, [freevm]): freeing an address space whose user half has small
    pages only gives every page of it back, once: the page directory, the
    page tables and the frames mapped below KERNBASE.  Nothing else is
    written and the free list stays well formed. *)
Theorem freevm_returns_every_page fl hl pgdir pt s :
  uspace fl hl pgdir pt KERNBASE s ->
  exists fl' s', freevm pgdir s = Ok tt s' /\ kinv fl' hl s' /\ kframe s s' /\
    fl' ≡ₚ pgdir :: tables pt 0 1024 ++ frames (k_mem s) pt 0 (npages KERNBASE 0) ++ fl /\
    agree_off (fun x => x ∈ fl' /\ x ∉ fl) (k_mem s) (k_mem s').
Proof. apply freevm_spec. Qed.


End Space.

(** ** 4 MB pages and [deallocuvm] *)

Section HugeDealloc.
Context `{Image}.


End HugeDealloc.

(** ** Concrete instances

    An empty page directory in the page after the one free page. *)

Lemma load32_zero a : load32 (fun _ => 0) a = 0.
Proof. reflexivity. Qed.

Lemma blank_page : @page_ok build_image 0x80401000.
Proof. repeat split; unfold build_image, img_end, KERNBASE, PHYSTOP; lia. Qed.

Lemma blank_pd : @pd_ok build_image (fun _ => 0) 0x80401000 ∅.
Proof.
  constructor.
  - exact blank_page.
  - intros i p Hp. rewrite lookup_empty in Hp. discriminate.
  - intros i Hi _. left. apply load32_zero.
  - intros i j p Hp. rewrite lookup_empty in Hp. discriminate.
Qed.

Lemma blank_pspace : @pspace build_image [0x80400000] [] 0x80401000 ∅ one_page.
Proof.
  constructor.
  - exact one_page_kinv.
  - exact blank_pd.
  - intros x [-> | [i Hi]]; [|rewrite lookup_empty in Hi; discriminate].
    intros Hx. apply list_elem_of_singleton in Hx. discriminate.
Qed.

Lemma blank_uspace lim :
  lim <= KERNBASE -> lim mod 4096 = 0 -> @uspace build_image [0x80400000] [] 0x80401000 ∅ lim one_page.
Proof.
  intros Hl Hm. constructor; [exact blank_pspace | exact Hl | exact Hm | | |].
  - intros v _ _. apply load32_zero.
  - intros v _ Hp. discriminate Hp.
  - intros v w _ _ Hp. discriminate Hp.
Qed.

Lemma blank_unmapped v : unmapped (fun _ => 0) 0x80401000 ∅ v.
Proof. split; [reflexivity | intros _; apply load32_zero]. Qed.

Lemma mappages_translates_witness :
  exists r fl' pt' s',
    mappages 0x80401000 8192 4096 0x500000 6 one_page = Ok r s' /\
    @pspace build_image fl' [] 0x80401000 pt' s' /\
    (r = 0 -> hw_translate (k_mem s') 0x80401000 8195 = Some (0x500003, true, true)).
Proof.
  destruct (@mappages_translates build_image [0x80400000] [] 0x80401000 ∅ one_page 8192 4096 0x500000 6)
    as (r & fl' & pt' & s' & E & _ & P & _ & _ & T).
  - exact blank_pspace.
  - unfold u32. lia.
  - lia.
  - unfold W32. lia.
  - reflexivity.
  - unfold u32. lia.
  - reflexivity.
  - vm_compute. discriminate.
  - lia.
  - intros v _. apply blank_unmapped.
  - exists r, fl', pt', s'. split; [exact E|]. split; [exact P|]. intros Hr.
    destruct (T 8195) as [T1 _]; [unfold u32; lia|]. apply T1; [exact Hr | split; vm_compute; discriminate].
Defined.

Lemma mappages_huge_translates_witness :
  exists s',
    mappages 0x80401000 0x1E000000 4194304 0x1E400000 0x86 one_page = Ok 0 s' /\
    hw_translate (k_mem s') 0x80401000 0x1E000007 = Some (0x1E400007, true, true) /\
    hw_translate (k_mem s') 0x80401000 0 = None.
Proof.
  destruct (@mappages_huge_translates build_image [0x80400000] [] 0x80401000 ∅ one_page
              0x1E000000 4194304 0x1E400000 0x86) as (s' & E & _ & _ & _ & T).
  - exact blank_pspace.
  - unfold u32. lia.
  - lia.
  - unfold W32. lia.
  - reflexivity.
  - reflexivity.
  - vm_compute. discriminate.
  - lia.
  - intros i _. apply lookup_empty.
  - exists s'. split; [exact E|]. split.
    + destruct (T 0x1E000007) as [T1 _]; [unfold u32; lia|]. apply T1. split; vm_compute; discriminate.
    + destruct (T 0) as [_ T2]; [unfold u32; lia|]. rewrite T2; [reflexivity|]. intros [Hc _]. vm_compute in Hc. apply Hc. reflexivity.
Defined.

(** A process with one page: a page table and a frame. *)
Definition one_user : kstate :=
  set_mem (store32 (store32 (fun _ => 0) 0x80401000 0x402007) 0x80402000 0x403007) one_page.

Lemma one_user_pspace : @pspace build_image [0x80400000] [] 0x80401000 {[ 0 := 0x80402000 ]} one_user.
Proof.
  assert (Hpg : forall x, x = 0x80401000 \/ x = 0x80402000 -> @page_ok build_image x)
    by (intros x [-> | ->]; repeat split; vm_compute; discriminate).
  constructor.
  - destruct one_page_kinv. constructor; try assumption; cpuok.
  - constructor.
    + apply Hpg. auto.
    + intros i p Hi. apply lookup_singleton_Some in Hi as [<- <-]. split; [lia|]. split; [apply Hpg; auto|].
      split; [discriminate | reflexivity].
    + intros i Hi Hn. left. unfold pde_at, one_user. cbn [k_mem set_mem]. apply lookup_singleton_None in Hn.
      rewrite !load32_store32_disj by lia. apply load32_zero.
    + intros i j p Hi Hj. apply lookup_singleton_Some in Hi as [<- _]. apply lookup_singleton_Some in Hj as [<- _]. reflexivity.
  - intros x [-> | [i Hi]] Hx; apply list_elem_of_singleton in Hx; [discriminate|].
    apply lookup_singleton_Some in Hi as [_ Hi]. congruence.
Qed.

Lemma one_user_pte v :
  u32 v -> pteval (k_mem one_user) {[ 0 := 0x80402000 ]} v = if v <? 4096 then 0x403007 else 0.
Proof.
  intros Hv. unfold pteval. rewrite PDX_div, PTX_div by assumption. unfold u32 in Hv.
  destruct (decide (v / 4194304 = 0)) as [E | Hn].
  - rewrite E, lookup_singleton_eq. destruct (Z.ltb_spec v 4096).
    + replace (v / 4096 mod 1024) with 0 by zdm. reflexivity.
    + assert (0 < v / 4096 mod 1024 < 1024) as Hj by zdm. unfold one_user. cbn [k_mem set_mem].
      rewrite !load32_store32_disj by lia. apply load32_zero.
  - rewrite lookup_singleton_ne by auto. destruct (Z.ltb_spec v 4096); [zdm | reflexivity].
Qed.

Lemma one_user_present v : u32 v -> present (k_mem one_user) {[ 0 := 0x80402000 ]} v = (v <? 4096).
Proof. intros Hv. unfold present. rewrite one_user_pte by exact Hv. destruct (v <? 4096); reflexivity. Qed.

Lemma one_user_uspace lim : lim <= KERNBASE -> lim mod 4096 = 0 ->
  @uspace build_image [0x80400000] [] 0x80401000 {[ 0 := 0x80402000 ]} lim one_user.
Proof.
  unfold KERNBASE. intros Hl Hlp.
  assert (Hf : forall v, 0 <= v < lim -> present (k_mem one_user) {[ 0 := 0x80402000 ]} v = true ->
    v < 4096 /\ frame (k_mem one_user) {[ 0 := 0x80402000 ]} v = 0x80403000).
  { intros v Hv Hp. rewrite one_user_present in Hp by (unfold u32; lia). apply Z.ltb_lt in Hp.
    unfold frame. rewrite one_user_pte by (unfold u32; lia). rewrite (proj2 (Z.ltb_lt _ _) Hp). auto. }
  constructor; [exact one_user_pspace | unfold KERNBASE; lia | exact Hlp | | |].
  - intros v Hv Hn. unfold one_user, pde_at. cbn [k_mem set_mem]. apply lookup_singleton_None in Hn.
    assert (Hr : 0 <= PDX v < 1024) by (apply PDX_range; unfold u32; lia).
    rewrite !load32_store32_disj by lia. apply load32_zero.
  - intros v Hv Hp. destruct (Hf v Hv Hp) as [_ ->]. split; [repeat split; vm_compute; discriminate|].
    split; [intros Hx; apply list_elem_of_singleton in Hx; discriminate|].
    intros [Hx | [i Hi]]; [discriminate | apply lookup_singleton_Some in Hi as [_ Hi]; discriminate].
  - intros v w Hv Hw Hp Hq _. destruct (Hf v Hv Hp), (Hf w Hw Hq). zdm.
Qed.

Lemma one_user_frames n : (0 < n)%nat -> Z.of_nat n <= 524288 ->
  frames (k_mem one_user) {[ 0 := 0x80402000 ]} 0 n = [0x80403000].
Proof.
  intros H0 Hn. destruct n as [|n]; [lia|]. cbn [frames]. rewrite one_user_present by (unfold u32; lia).
  rewrite frames_absent; [unfold frame; rewrite one_user_pte by (unfold u32; lia); reflexivity|].
  intros v Hv. rewrite one_user_present by (unfold u32; lia). apply Z.ltb_ge. lia.
Qed.

(** The page is unmapped and its frame freed. *)

Lemma deallocuvm_unmaps_witness :
  hw_translate (k_mem one_user) 0x80401000 0 = Some (0x403000, true, true) /\
  exists fl' s',
    @deallocuvm build_image 0x80401000 4096 0 one_user = Ok 0 s' /\
    fl' ≡ₚ [0x80403000; 0x80400000] /\ hw_translate (k_mem s') 0x80401000 0 = None.
Proof.
  split; [reflexivity|].
  destruct (@deallocuvm_unmaps build_image [0x80400000] [] 0x80401000 {[ 0 := 0x80402000 ]} 4096 one_user 4096 0)
    as (fl' & s' & E & _ & _ & L & _ & T & _).
  - apply one_user_uspace; [unfold KERNBASE; lia | reflexivity].
  - lia.
  - lia.
  - exists fl', s'. split; [exact E|]. split; [rewrite L; reflexivity|]. rewrite T by (unfold u32; lia). reflexivity.
Defined.


(** The directory, the page table and the frame of the page come back. *)
Lemma freevm_returns_every_page_witness :
  exists fl' s', @freevm build_image 0x80401000 one_user = Ok tt s' /\
    @kinv build_image fl' [] s' /\ fl' ≡ₚ [0x80401000; 0x80402000; 0x80403000; 0x80400000].
Proof.
  destruct (@freevm_returns_every_page build_image [0x80400000] [] 0x80401000 {[ 0 := 0x80402000 ]} one_user)
    as (fl' & s' & E & I & _ & L & _).
  - apply one_user_uspace; [lia | reflexivity].
  - exists fl', s'. split; [exact E|]. split; [exact I|]. rewrite L.
    assert (Hn : Z.of_nat (npages KERNBASE 0) = 524288) by (rewrite npages_eq by (unfold KERNBASE; lia); reflexivity).
    rewrite one_user_frames by lia. reflexivity.
Defined.

(** A directory whose entry 0x78 maps the 4 MB page at 0x1E000000, which the
    process has not written to. *)
Definition huge_mapped : kstate :=
  set_mem (store32 (fun _ => 0) (0x80401000 + 4 * 0x78) 0x1E000087) one_page.

