(* ===== verification/Kvm.v ===== *)
(** * The kernel half of an address space: [setupkvm] of vm.c *)

From Stdlib Require Import ZArith Lia.
From stdpp Require Import base list strings gmap.
From S2P Require Import Prelude Mem Mmu Kernel Spinlock Kalloc Vm VmFacts.

Definition km_size (k : kmap_t) : Z := w32 (km_phys_end k - km_phys_start k).
Definition km_covers (k : kmap_t) (v : Z) : bool := (km_virt k <=? v) && (v <? km_virt k + km_size k).

(** The page-table entry for [v] once the regions [ks] are mapped. *)
Fixpoint kpte (ks : list kmap_t) (v : Z) : Z :=
  match ks with
  | [] => 0
  | k :: ks' => if km_covers k v then map_entry (km_virt k) (km_phys_start k) (km_perm k) v else kpte ks' v
  end.

(** A region of small pages in the kernel half, away from the indices
    [HUGE_PDX] to [HUGE_PDX + 128] at which 4 MB pages are mapped. *)
Definition HUGE_PDX : Z := 632.
Record small_region (k : kmap_t) : Prop := {
  sr_virt : KERNBASE <= km_virt k;
  sr_aligned : km_virt k mod 4096 = 0;
  sr_size : 0 < km_size k;
  sr_size_aligned : km_size k mod 4096 = 0;
  sr_end : km_virt k + km_size k <= W32;
  sr_huge : in_huge_range (km_phys_start k) = false;
  sr_phys : 0 <= km_phys_start k;
  sr_phys_aligned : km_phys_start k mod 4096 = 0;
  sr_phys_end : km_phys_start k + km_size k <= W32;
  sr_perm : 0 <= km_perm k < 4096;
  sr_where : (km_virt k + km_size k - 1) / 4194304 < HUGE_PDX \/ HUGE_PDX + 128 <= km_virt k / 4194304 }.

Section Kvm.
Context `{Image} (fl0 hl : list Z) (s0 : kstate).

(** A directory under construction: no user page, and every page it uses
    came from the free list. *)
Record kbase (d : Z) (fl : list Z) (pt : gmap Z Z) (s : kstate) : Prop := {
  kb_space : pspace fl hl d pt s;
  kb_user v : 0 <= v < KERNBASE -> pteval (k_mem s) pt v = 0;
  kb_user_pde i : 0 <= i < 512 -> pt !! i = None -> pde_at (k_mem s) d i = 0;
  kb_pages x : x ∈ fl0 <-> pt_page d pt x \/ x ∈ fl;
  kb_mem : agree_off (fun x => x ∈ fl0) (k_mem s0) (k_mem s);
  kb_frame : kframe s0 s }.

Record kbuild (done : list kmap_t) (d : Z) (fl : list Z) (pt : gmap Z Z) (s : kstate) : Prop := {
  kb_base : kbase d fl pt s;
  kb_pte v : u32 v -> pteval (k_mem s) pt v = kpte done v;
  kb_pde i : 0 <= i < 1024 -> pt !! i = None -> pde_at (k_mem s) d i = 0;
  kb_where i p : pt !! i = Some p -> 512 <= i /\ (i < HUGE_PDX \/ HUGE_PDX + 128 <= i) }.

Lemma kbase_absent d fl pt s v : kbase d fl pt s -> 0 <= v < KERNBASE -> present (k_mem s) pt v = false.
Proof. intros B Hv. unfold present. rewrite (kb_user _ _ _ _ B v Hv). reflexivity. Qed.

Lemma kbase_uspace d fl pt s : kbase d fl pt s -> uspace fl hl d pt KERNBASE s.
Proof.
  intros B. pose proof (kbase_absent d fl pt s) as Ha. constructor; [apply B | lia | reflexivity | | |].
  - intros v Hv. apply (kb_user_pde _ _ _ _ B).
    rewrite PDX_div by (unfold u32, KERNBASE in *; lia). unfold KERNBASE in Hv. zdm.
  - intros v Hv Hp. rewrite Ha in Hp by assumption. discriminate Hp.
  - intros v w Hv _ Hp. rewrite Ha in Hp by assumption. discriminate Hp.
Qed.

Lemma tables_NoDup m d pt : pd_ok m d pt -> forall n i, NoDup (tables pt i n).
Proof.
  intros P. induction n as [|n IH]; intros i; cbn [tables]; [constructor|].
  apply NoDup_app. split; [destruct (pt !! i); cbn; constructor; [apply not_elem_of_nil | constructor]|].
  split; [|apply IH]. intros x Hx Hy. apply elem_of_tables in Hy as (j & Hj & Ej).
  destruct (pt !! i) as [p|] eqn:Ei; [|inversion Hx]. apply list_elem_of_singleton in Hx as ->.
  pose proof (pd_inj _ _ _ P i j p Ei Ej). lia.
Qed.

Lemma pt_page_tables m d pt x : pd_ok m d pt -> pt_page d pt x <-> x ∈ d :: tables pt 0 1024.
Proof.
  intros P. rewrite elem_of_cons, elem_of_tables. unfold pt_page. split.
  - intros [-> | [i Hi]]; [auto|]. right. exists i. destruct (pd_some _ _ _ P _ _ Hi). split; [lia | exact Hi].
  - intros [-> | (i & _ & Hi)]; [auto | right; eauto].
Qed.

(** Every page is accounted for. *)
Lemma kbase_perm d fl pt s : NoDup fl0 -> kbase d fl pt s -> fl0 ≡ₚ d :: tables pt 0 1024 ++ fl.
Proof.
  intros Hnd B. pose proof (kb_space _ _ _ _ B) as [I P A].
  apply NoDup_Permutation; [exact Hnd | |].
  - rewrite app_comm_cons. apply NoDup_app. split; [|split; [|apply (ki_nodup _ _ _ I)]].
    + constructor; [|eapply tables_NoDup, P]. intros Hx. apply elem_of_tables in Hx as (i & _ & Hi).
      destruct (pd_some _ _ _ P _ _ Hi) as (_ & _ & Hne & _). congruence.
    + intros x Hx. apply A. apply (pt_page_tables _ _ _ _ P). exact Hx.
  - intros x. rewrite (kb_pages _ _ _ _ B), app_comm_cons, elem_of_app, <- (pt_page_tables _ _ _ _ P). reflexivity.
Qed.

Lemma kbase_freevm d fl pt s :
  NoDup fl0 -> kbase d fl pt s ->
  exists fl' s', freevm d s = Ok tt s' /\ kinv fl' hl s' /\ kframe s0 s' /\ fl' ≡ₚ fl0 /\
    agree_off (fun x => x ∈ fl0) (k_mem s0) (k_mem s').
Proof.
  intros Hnd B. destruct (freevm_spec fl hl d pt s (kbase_uspace _ _ _ _ B)) as (fl' & s' & E & I & F & L & A).
  exists fl', s'. split; [exact E|]. split; [exact I|]. split; [etransitivity; [apply B | exact F]|].
  assert (Hn : frames (k_mem s) pt 0 (npages KERNBASE 0) = []).
  { apply frames_absent. intros v Hv. apply (kbase_absent _ _ _ _ v B).
    rewrite npages_eq in Hv by (unfold KERNBASE; lia). unfold KERNBASE in *. zdm. }
  assert (Hp : fl' ≡ₚ fl0) by (rewrite L, Hn, (kbase_perm _ _ _ _ Hnd B); reflexivity).
  split; [exact Hp|]. eapply agree_off_trans; [apply B | exact A | auto |]. cbn beta. intros x [Hx _]. rewrite <- Hp. exact Hx.
Qed.

(** Mapping one region of small pages. *)
Lemma kbuild_small done d fl pt s k :
  kbuild done d fl pt s -> small_region k -> (forall v, km_covers k v = true -> kpte done v = 0) ->
  exists r fl' pt' s',
    mappages d (km_virt k) (km_size k) (km_phys_start k) (km_perm k) s = Ok r s' /\
    (r = 0 /\ kbuild (k :: done) d fl' pt' s' \/ r = -1 /\ kbase d fl' pt' s').
Proof.
  intros [B Bp Bd Bw] [R1 R2 R3 R4 R5 R6 R7 R8 R9 R10 R11] Hno. pose proof B as [Hps Bu Bud Bpg Bm Bf].
  unfold KERNBASE, W32 in R1, R5, R9.
  assert (Hcov : forall v, covers (km_virt k) (km_size k) v <-> km_covers k v = true).
  { intros v. unfold covers, km_covers. rewrite andb_true_iff, Z.leb_le, Z.ltb_lt. zdm. }
  destruct (mappages_small fl hl d pt s (km_virt k) (km_size k) (km_phys_start k) (km_perm k))
    as (r & fl' & pt' & s' & E & Er & Hps' & G & F & T & lim & Hlim & V); try assumption.
  { unfold u32. lia. }
  { unfold u32. lia. }
  { unfold W32. lia. }
  { intros v Hv. apply Hcov in Hv as Hk. unfold unmapped.
    assert (Hu : u32 v) by (unfold km_covers in Hk; rewrite andb_true_iff, Z.leb_le, Z.ltb_lt in Hk; unfold u32; lia).
    rewrite Bp, Hno by assumption. split; [reflexivity|]. apply Bd, PDX_range, Hu. }
  exists r, fl', pt', s'. split; [exact E|].
  assert (B' : kbase d fl' pt' s').
  { destruct (pg_used _ _ _ _ _ _ _ G) as (u & Eu & U). constructor.
    - exact Hps'.
    - intros v Hv. rewrite <- (Bu v Hv). apply V; [unfold u32, KERNBASE in *; lia|].
      unfold covers, KERNBASE in *. zdm.
    - intros i Hi Hn. rewrite (pg_none _ _ _ _ _ _ _ G i) by (lia || exact Hn). apply Bud; [exact Hi|].
      destruct (pt !! i) eqn:Ei; [|reflexivity]. apply (pg_sub _ _ _ _ _ _ _ G) in Ei. congruence.
    - intros x. rewrite Bpg, U, Eu, elem_of_app. tauto.
    - eapply agree_off_trans; [exact Bm | apply G | auto |]. cbn beta. intros x [Hx | Hx]; apply Bpg; auto.
    - etransitivity; [exact Bf | exact F]. }
  destruct Er as [-> | [-> _]]; [left | right; auto]. split; [reflexivity|]. constructor; [exact B' | | |].
  - intros v Hv. cbn [kpte]. destruct (km_covers k v) eqn:Ek.
    + apply Hcov in Ek. destruct (V v Hv) as [-> _]; [|auto].
      replace (km_virt k - km_virt k mod 4096) with (km_virt k) by lia. reflexivity.
    + rewrite <- Bp by exact Hv. apply V; [exact Hv|]. intros [Hc _]. apply Hcov in Hc. congruence.
  - intros i Hi Hn. rewrite (pg_none _ _ _ _ _ _ _ G i) by assumption. apply Bd; [exact Hi|].
    destruct (pt !! i) eqn:Ei; [|reflexivity]. apply (pg_sub _ _ _ _ _ _ _ G) in Ei. congruence.
  - intros i p Hi. destruct (pt !! i) as [p0|] eqn:Ei; [eapply Bw, Ei|]. pose proof (T i p Ei Hi). cbn beta in *. split; [zdm | lia].
Qed.

(** The empty directory. *)
Lemma kbuild_start d fl s1 :
  fl0 = d :: fl -> kinv fl hl s1 -> page_ok d -> d ∉ fl -> k_mem s1 = k_mem s0 -> kframe s0 s1 ->
  kbuild [] d fl ∅ (set_mem (fill (k_mem s1) d 0 4096) s1).
Proof.
  intros Efl I Hd Hf Em F. pose proof (page_ok_addr d Hd) as Ha.
  assert (Hz : forall i, 0 <= i < 1024 -> pde_at (fill (k_mem s1) d 0 4096) d i = 0)
    by (intros i Hi; apply load32_fill_zero; lia).
  assert (W : within d 4096 (k_mem s1) (fill (k_mem s1) d 0 4096)) by (intros x Hx; apply load8_fill_out; exact Hx).
  constructor; [constructor; [constructor | | | | |] | | |]; cbn [k_mem set_mem].
  - apply (pa_write (PageAllocator := base_allocator hl) d); assumption.
  - constructor; [exact Hd | intros i p Hi; rewrite lookup_empty in Hi; discriminate Hi | auto | intros i j p Hi; rewrite lookup_empty in Hi; discriminate Hi].
  - intros x [-> | [i Hi]]; [exact Hf | rewrite lookup_empty in Hi; discriminate Hi].
  - intros v _. unfold pteval. rewrite lookup_empty. reflexivity.
  - intros i Hi _. apply Hz. lia.
  - intros x. rewrite Efl, elem_of_cons. unfold pt_page. split; [tauto|].
    intros [[-> | [i Hi]] | Hx]; [auto | rewrite lookup_empty in Hi; discriminate Hi | auto].
  - rewrite <- Em. eapply agree_off_weaken; [apply within_agree; [apply Hd | exact W]|].
    intros x <-. rewrite Efl. apply list_elem_of_here.
  - etransitivity; [exact F | apply kframe_set_mem].
  - intros v _. unfold pteval. rewrite lookup_empty. reflexivity.
  - intros i Hi _. apply Hz, Hi.
  - intros i p Hi. rewrite lookup_empty in Hi. discriminate Hi.
Qed.

(** The regions that are mapped where the kernel sees all memory. *)
Lemma direct_region v e perm :
  KERNBASE <= v < e -> v mod 4096 = 0 -> e mod 4096 = 0 -> e <= KERNBASE + PHYSTOP -> 0 <= perm < 4096 ->
  km_size (mkKmap v (v - KERNBASE) (e - KERNBASE) perm) = e - v /\
  small_region (mkKmap v (v - KERNBASE) (e - KERNBASE) perm).
Proof.
  unfold KERNBASE, PHYSTOP. intros Hv Ha Hea He Hp.
  assert (Es : km_size (mkKmap v (v - 2147483648) (e - 2147483648) perm) = e - v)
    by (unfold km_size; cbn [km_phys_end km_phys_start]; rewrite w32_small; [lia | unfold u32; lia]).
  split; [exact Es|]. constructor; rewrite ?Es; cbn [km_virt km_phys_start km_perm]; unfold KERNBASE, W32, HUGE_PDX; try lia.
  - zdm.
  - unfold in_huge_range, HUGE_PAGE_START. destruct (Z.leb_spec 503316480 (v - 2147483648)); [lia | reflexivity].
  - zdm.
  - left. zdm.
Qed.

Lemma kmap_eq :
  kmap = [ mkKmap KERNBASE (KERNBASE - KERNBASE) (KERNLINK - KERNBASE) PTE_W;
           mkKmap KERNLINK (KERNLINK - KERNBASE) (img_data - KERNBASE) 0;
           mkKmap img_data (img_data - KERNBASE) (KERNBASE + PHYSTOP - KERNBASE) PTE_W;
           mkKmap DEVSPACE DEVSPACE 0 PTE_W;
           mkKmap (P2V HUGE_PAGE_START) HUGE_PAGE_START HUGE_PAGE_END (Z.lor PTE_W PTE_PS) ].
Proof.
  pose proof img_order as Ho. pose proof img_fits as Hf. unfold kmap.
  rewrite (V2P_eq img_data) by (unfold KERNLINK, KERNBASE, EXTMEM, W32 in *; lia). reflexivity.
Qed.

Lemma kmap_regions : Forall small_region (take 4 kmap).
Proof.
  pose proof img_order as Ho. pose proof img_fits as Hf. pose proof img_data_aligned as Ha. rewrite kmap_eq. cbn [take].
  constructor; [apply direct_region; try (split; discriminate || reflexivity); reflexivity || discriminate|].
  constructor; [apply direct_region; unfold KERNLINK, KERNBASE, EXTMEM, PHYSTOP in *; (reflexivity || assumption || lia)|].
  constructor; [apply direct_region; unfold KERNLINK, KERNBASE, EXTMEM, PHYSTOP, PTE_W in *; (reflexivity || assumption || lia)|].
  constructor; [|constructor]. constructor; try reflexivity; try discriminate; [split; discriminate || reflexivity | right; discriminate].
Qed.

Fixpoint disjoint_regions (done ks : list kmap_t) : Prop :=
  match ks with
  | [] => True
  | k :: ks' => (forall v, km_covers k v = true -> kpte done v = 0) /\ disjoint_regions (k :: done) ks'
  end.

Lemma kmap_disjoint : disjoint_regions [] (take 4 kmap).
Proof.
  pose proof img_order as Ho. pose proof img_fits as Hf. pose proof img_data_aligned as Ha.
  pose proof kmap_regions as R. rewrite kmap_eq in *. cbn [take] in *.
  repeat match goal with R : Forall small_region (_ :: _) |- _ => apply Forall_cons in R as [? R] end. clear R.
  cbn [disjoint_regions kpte]. unfold km_covers, km_size. cbn [km_virt km_phys_start km_phys_end].
  unfold KERNLINK, KERNBASE, EXTMEM, PHYSTOP, DEVSPACE in *.
  rewrite !w32_small by (unfold u32; lia). change (w32 (0 - 4261412864)) with 33554432.
  repeat split; intros v Hv; zcase; exfalso; revert Hv; zcase; discriminate || lia.
Qed.

(** The outcome when memory runs out: everything is given back. *)
Definition unwound (r : result kstate Z) : Prop :=
  exists fl' s', r = Ok 0 s' /\ kinv fl' hl s' /\ kframe s0 s' /\ fl' ≡ₚ fl0 /\
    agree_off (fun x => x ∈ fl0) (k_mem s0) (k_mem s').

Lemma setup_loop_small (Hnd : NoDup fl0) d rest ks : forall done fl pt s,
  kbuild done d fl pt s -> Forall small_region ks -> disjoint_regions done ks ->
  unwound (setupkvm_loop d (ks ++ rest) s) \/
  exists fl' pt' s', setupkvm_loop d (ks ++ rest) s = setupkvm_loop d rest s' /\
    kbuild (rev ks ++ done) d fl' pt' s'.
Proof.
  induction ks as [|k ks IH]; intros done fl pt s B R D; [right; exists fl, pt, s; auto|].
  apply Forall_cons in R as [Rk R]. destruct D as [Dk D]. cbn [app setupkvm_loop].
  destruct (kbuild_small done d fl pt s k B Rk Dk) as (r & fl1 & pt1 & s1 & E & [[-> B1] | [-> B1]]).
  - unfold km_size in E. erewrite bind_ok by exact E. cbn [Z.ltb Z.compare].
    destruct (IH (k :: done) fl1 pt1 s1 B1 R D) as [U | (fl' & pt' & s' & E' & B')]; [left; exact U | right].
    exists fl', pt', s'. split; [exact E'|]. cbn [rev]. rewrite <- app_assoc. exact B'.
  - left. unfold km_size in E. erewrite bind_ok by exact E. cbn [Z.ltb Z.compare].
    destruct (kbase_freevm d fl1 pt1 s1 Hnd B1) as (fl' & s' & Ef & U). exists fl', s'.
    erewrite bind_ok by exact Ef. split; [reflexivity | exact U].
Qed.

(** A finished directory. *)
Record kernel_space (d : Z) (fl : list Z) (pt : gmap Z Z) (s : kstate) : Prop := {
  ks_base : kbase d fl pt s;
  ks_small v : u32 v -> pteval (k_mem s) pt v = kpte (rev (take 4 kmap)) v;
  ks_pde i : 0 <= i < 1024 -> pt !! i = None -> pde_at (k_mem s) d i =
    if (HUGE_PDX <=? i) && (i <? HUGE_PDX + 128) then huge_entry HUGE_PDX HUGE_PAGE_START (Z.lor PTE_W PTE_PS) i else 0;
  ks_where i p : pt !! i = Some p -> 512 <= i /\ (i < HUGE_PDX \/ HUGE_PDX + 128 <= i) }.

Lemma setup_huge d fl pt s :
  kbuild (rev (take 4 kmap)) d fl pt s ->
  exists s', setupkvm_loop d (drop 4 kmap) s = Ok d s' /\ kernel_space d fl pt s'.
Proof.
  intros [B Bp Bd Bw]. pose proof B as [Hps Bu Bud Bpg Bm Bf].
  destruct (mappages_big fl hl d pt s 0x9E000000 0x20000000 HUGE_PAGE_START (Z.lor PTE_W PTE_PS))
    as (s' & E & Hps' & F & W & V); try assumption; try (unfold u32; lia); try lia.
  { discriminate. }
  { reflexivity. }
  { reflexivity. }
  { discriminate. }
  { split; [discriminate | reflexivity]. }
  { intros i Hi. destruct (pt !! i) as [p|] eqn:Ei; [|reflexivity]. pose proof (Bw i p Ei) as Hw.
    change (0x9E000000 / 4194304) with 632 in Hi. change ((0x9E000000 + 0x20000000 - 1) / 4194304) with 759 in Hi.
    unfold HUGE_PDX in Hw. lia. }
  change (0x9E000000 / 4194304) with HUGE_PDX in V. change ((0x9E000000 + 0x20000000 - 1) / 4194304) with 759 in V.
  pose proof (ps_pd _ _ _ _ _ Hps) as P. pose proof (pd_page _ _ _ P) as Hd.
  assert (Hpt : forall v, u32 v -> pteval (k_mem s') pt v = pteval (k_mem s) pt v).
  { intros v Hv. unfold pteval. destruct (pt !! PDX v) as [p|] eqn:Ep; [|reflexivity].
    destruct (pd_some _ _ _ P _ _ Ep) as (_ & Hp & Hne & _).
    apply (page_word_within d); auto using PTX_range; [apply Hd | apply Hp]. }
  exists s'. split.
  { unfold drop, kmap. cbn [setupkvm_loop km_virt km_phys_start km_phys_end km_perm].
    change (w32 (HUGE_PAGE_END - HUGE_PAGE_START)) with 0x20000000. change (P2V HUGE_PAGE_START) with 0x9E000000.
    erewrite bind_ok by exact E. reflexivity. }
  constructor; [constructor | | |].
  - exact Hps'.
  - intros v Hv. rewrite Hpt by (unfold u32, KERNBASE in *; lia). apply Bu, Hv.
  - intros i Hi Hn. rewrite V by lia. unfold HUGE_PDX. zcase. apply Bud; [exact Hi | exact Hn].
  - exact Bpg.
  - eapply agree_off_trans; [exact Bm | apply within_agree; [apply Hd | exact W] | auto |]. cbn beta.
    intros x <-. apply Bpg. left. left. reflexivity.
  - etransitivity; eassumption.
  - intros v Hv. rewrite Hpt by exact Hv. apply Bp, Hv.
  - intros i Hi Hn. rewrite V by exact Hi. unfold HUGE_PDX.
    destruct (Z.leb_spec 632 i), (Z.leb_spec i 759), (Z.ltb_spec i (632 + 128)); cbn [andb]; try lia; try reflexivity; apply Bd; assumption.
  - exact Bw.
Qed.

Lemma setupkvm_result :
  kinv fl0 hl s0 ->
  unwound (setupkvm s0) \/
  exists d fl pt s, setupkvm s0 = Ok d s /\ d <> 0 /\ kernel_space d fl pt s.
Proof.
  intros I. pose proof (ki_nodup _ _ _ I) as Hnd. unfold setupkvm. destruct fl0 as [|d fl] eqn:Efl.
  - left. destruct (pa_empty (PageAllocator := base_allocator hl) s0 I) as (s1 & E & I1 & M & F).
    erewrite bind_ok by exact E. exists [], s1. rewrite Efl. split; [reflexivity|]. split; [exact I1|]. split; [exact F|].
    split; [reflexivity|]. rewrite M. apply agree_off_refl.
  - destruct (pa_pop (PageAllocator := base_allocator hl) d fl s0 I) as (s1 & E & I1 & Hd & Hf & M & F).
    pose proof (page_ok_addr d Hd) as Ha. unfold KERNBASE, PHYSTOP in Ha.
    erewrite bind_ok by exact E. destruct (Z.eqb_spec d 0); [lia|].
    unfold kmemset, modify. erewrite bind_ok by reflexivity. rewrite memset_fill by (unfold u32, PGSIZE; lia).
    change (DEVSPACE <? P2V PHYSTOP) with false. cbv beta iota.
    pose proof (kbuild_start d fl s1 Efl I1 Hd Hf M F) as B0.
    rewrite <- (take_drop 4 kmap) at 1. rewrite <- (take_drop 4 kmap) at 2. rewrite <- Efl in Hnd.
    destruct (setup_loop_small Hnd d (drop 4 kmap) (take 4 kmap) [] fl ∅ _ B0 kmap_regions kmap_disjoint)
      as [U | (fl' & pt' & s' & E' & B')]; [left; exact U | right].
    rewrite app_nil_r in B'. destruct (setup_huge d fl' pt' s' B') as (s2 & E2 & B2).
    exists d, fl', pt', s2. split; [exact (eq_trans E' E2) | auto].
Qed.

(** The kernel's view: all of physical memory at KERNBASE, the devices at the
    top, the reserved region through 4 MB pages; no user access anywhere. *)
Definition kernel_view (v : Z) : option (Z * bool * bool) :=
  if v <? KERNBASE then None
  else if v <? KERNBASE + PHYSTOP then
    Some (v - KERNBASE, false, negb ((KERNLINK <=? v) && (v <? img_data)))
  else if (KERNBASE + HUGE_PAGE_START <=? v) && (v <? KERNBASE + HUGE_PAGE_END) then
    Some (v - KERNBASE, false, true)
  else if DEVSPACE <=? v then Some (v, false, true)
  else None.

Lemma kpte_kmap v :
  u32 v ->
  kpte (rev (take 4 kmap)) v =
    if DEVSPACE <=? v then map_entry DEVSPACE DEVSPACE PTE_W v
    else if v <? KERNBASE then 0
    else if v <? KERNLINK then map_entry KERNBASE 0 PTE_W v
    else if v <? img_data then map_entry KERNLINK (KERNLINK - KERNBASE) 0 v
    else if v <? KERNBASE + PHYSTOP then map_entry img_data (img_data - KERNBASE) PTE_W v
    else 0.
Proof.
  intros Hv. pose proof img_order as Ho. pose proof img_fits as Hf. rewrite kmap_eq. cbn [take rev app kpte].
  unfold km_covers, km_size. cbn [km_virt km_phys_start km_phys_end km_perm].
  unfold KERNLINK, KERNBASE, EXTMEM, PHYSTOP, DEVSPACE, u32 in *.
  change (w32 (0 - 4261412864)) with 33554432. rewrite !w32_small by (unfold u32; lia).
  change (2147483648 - 2147483648) with 0. zcase.
Qed.

Lemma hw_map_entry m d pt a pa perm v :
  pd_ok m d pt -> u32 v -> pteval m pt v = map_entry a pa perm v -> a <= v -> a mod 4096 = 0 ->
  0 <= pa -> pa mod 4096 = 0 -> pa + (v - a) < W32 -> 0 <= perm < 4096 ->
  hw_translate m d v = Some (pa + (v - a), has perm PTE_U, has perm PTE_W).
Proof.
  intros P Hv E Ha Haa Hp Hpa Hl Hperm.
  destruct (map_entry_decode a pa perm v) as (D1 & _ & D2 & D3 & D4);
    [unfold u32, W32 in *; zdm | exact Hperm | zdm |].
  rewrite (hw_mapped m d pt v P Hv) by (rewrite E; exact D2). rewrite E, D1, D3, D4. do 3 f_equal; zdm.
Qed.

Lemma kernel_space_hw d fl pt s v :
  kernel_space d fl pt s -> u32 v -> hw_translate (k_mem s) d v = kernel_view v.
Proof.
  intros [B Sp Sd Sw] Hv. pose proof (ps_pd _ _ _ _ _ (kb_space _ _ _ _ B)) as P.
  pose proof img_order as Ho. pose proof img_fits as Hf. pose proof img_data_aligned as Ha.
  pose proof (Sp v Hv) as E. rewrite kpte_kmap in E by exact Hv. unfold kernel_view.
  assert (Hi : PDX v = v / 4194304) by (apply PDX_div, Hv). pose proof (PDX_range v Hv) as Hr.
  assert (Hnone : pteval (k_mem s) pt v = 0 -> (HUGE_PDX <=? PDX v) && (PDX v <? HUGE_PDX + 128) = false ->
    hw_translate (k_mem s) d v = None).
  { intros E0 Hb. apply (hw_none _ _ pt); [exact P | exact Hv | rewrite E0; reflexivity|].
    intros Hn. rewrite (Sd _ Hr Hn), Hb. reflexivity. }
  unfold KERNLINK, KERNBASE, EXTMEM, PHYSTOP, DEVSPACE, HUGE_PAGE_START, HUGE_PAGE_END, HUGE_PDX, u32 in *.
  destruct (Z.ltb_spec v 2147483648).
  { apply Hnone; [revert E; zcase | rewrite Hi; zcase; exfalso; zdm]. }
  destruct (Z.ltb_spec v (2147483648 + 234881024)).
  { destruct (Z.leb_spec 4261412864 v); [lia|]. destruct (Z.ltb_spec v (2147483648 + 1048576)).
    - rewrite (hw_map_entry _ _ pt _ _ _ _ P Hv E) by (unfold W32, PTE_W; reflexivity || lia).
      destruct (Z.leb_spec (2147483648 + 1048576) v); [lia|]. cbn. do 3 f_equal; lia.
    - destruct (Z.ltb_spec v img_data).
      + rewrite (hw_map_entry _ _ pt _ _ _ _ P Hv E) by (unfold W32; reflexivity || lia).
        destruct (Z.leb_spec (2147483648 + 1048576) v); [|lia]. cbn. do 3 f_equal; lia.
      + rewrite (hw_map_entry _ _ pt _ _ _ _ P Hv E) by (unfold W32, PTE_W; reflexivity || lia || zdm).
        rewrite andb_false_r. cbn. do 3 f_equal; lia. }
  destruct ((2147483648 + 503316480 <=? v) && (v <? 2147483648 + 1040187392)) eqn:Eh.
  - rewrite andb_true_iff, Z.leb_le, Z.ltb_lt in Eh.
    assert (Hn : pt !! PDX v = None).
    { destruct (pt !! PDX v) as [p|] eqn:Ep; [|reflexivity]. pose proof (Sw _ _ Ep). rewrite Hi in *. exfalso. zdm. }
    pose proof (Sd _ Hr Hn) as Ed. rewrite Hi in Ed at 2 3.
    assert (Hb : (632 <=? v / 4194304) && (v / 4194304 <? 632 + 128) = true)
      by (rewrite andb_true_iff, Z.leb_le, Z.ltb_lt; zdm).
    rewrite Hb in Ed.
    destruct (huge_entry_decode 632 503316480 (Z.lor PTE_W PTE_PS) (PDX v)) as (_ & D1 & _ & D2 & D3 & D4 & D5);
      [reflexivity | rewrite Hi; zdm | rewrite Hi; unfold W32; zdm | split; [discriminate | reflexivity] |].
    rewrite (hw_huge _ _ _ _ Ed D2 D3), D1, D4, D5, Hi. do 3 f_equal; zdm.
  - destruct (Z.leb_spec 4261412864 v).
    + rewrite (hw_map_entry _ _ pt _ _ _ _ P Hv E) by (unfold W32, PTE_W; reflexivity || lia). do 3 f_equal; lia.
    + apply Hnone; [revert E; zcase|]. rewrite andb_false_iff, Z.leb_gt, Z.ltb_ge in Eh. rewrite Hi.
      rewrite andb_false_iff, Z.leb_gt, Z.ltb_ge. zdm.
Qed.
End Kvm.

(** C18 (vm.c, [setupkvm]): the kernel part of every page table.  With [fl] the
    free list, [setupkvm] either runs out of memory, and then returns 0 with
    every page back on the free list, or returns a page directory whose user
    half is empty and which translates every kernel address: physical memory
    below PHYSTOP at KERNBASE, the kernel text read-only and everything else
    writable; the region of 4 MB pages; the devices; nothing else, and nothing
    accessible to user code.  The directory and its page tables are exactly the
    pages taken from the free list, and no other memory is written. *)
Theorem setupkvm_maps `{Image} fl hl s :
  kinv fl hl s ->
  exists r fl' s', setupkvm s = Ok r s' /\ kinv fl' hl s' /\ kframe s s' /\
    agree_off (fun x => x ∈ fl) (k_mem s) (k_mem s') /\
    (r = 0 /\ fl' ≡ₚ fl \/
     r <> 0 /\ exists pt, uspace fl' hl r pt KERNBASE s' /\ fl ≡ₚ r :: tables pt 0 1024 ++ fl' /\
       forall v, u32 v -> hw_translate (k_mem s') r v = kernel_view v).
Proof.
  intros I. destruct (setupkvm_result fl hl s I) as [(fl' & s' & E & I' & F & L & A) | (d & fl' & pt & s' & E & Hd & S)].
  - exists 0, fl', s'. split; [exact E|]. split; [exact I'|]. split; [exact F|]. split; [exact A|]. auto.
  - pose proof (ks_base _ _ _ _ _ _ _ S) as B. exists d, fl', s'. split; [exact E|].
    split; [apply B|]. split; [apply B|]. split; [apply B|]. right. split; [exact Hd|]. exists pt.
    split; [eapply kbase_uspace, B|]. split; [eapply kbase_perm; [apply (ki_nodup _ _ _ I) | exact B]|].
    intros v Hv. eapply kernel_space_hw; eassumption.
Qed.

Lemma setupkvm_maps_witness :
  exists r fl' s', @setupkvm build_image one_page = Ok r s' /\ @kinv build_image fl' [] s' /\
    (r = 0 \/ hw_translate (k_mem s') r 0x9E000004 = Some (0x1E000004, false, true)).
Proof.
  destruct (@setupkvm_maps build_image [0x80400000] [] one_page one_page_kinv)
    as (r & fl' & s' & E & I & _ & _ & [[Hr _] | [_ (pt & _ & _ & T)]]); exists r, fl', s'; split; [exact E| |exact E|].
  - auto.
  - split; [exact I|]. right. rewrite T by (unfold u32; lia). reflexivity.
Defined.
