(* ===== verification/Copy.v ===== *)
(** * Copying an address space: [copyuvm] of vm.c *)

From Stdlib Require Import ZArith Lia.
From stdpp Require Import base list strings gmap.
From S2P Require Import Prelude Mem Mmu Kernel Spinlock Kalloc Vm VmFacts Kvm.

(** An address space whose pages are not written is kept. *)
Section Kept.
Context `{Image} (fl hl : list Z) (pgdir : Z) (pt : gmap Z Z) (lim : Z) (s : kstate).
Context (U : uspace fl hl pgdir pt lim s).
Context (m' : mem) (A : agree_off (fun x => x ∈ fl) (k_mem s) m').

Lemma kept_word x j : pt_page pgdir pt x -> 0 <= j < 1024 -> load32 m' (x + 4 * j) = load32 (k_mem s) (x + 4 * j).
Proof.
  intros Hx Hj. pose proof (us_ps _ _ _ _ _ _ U) as [_ P Ap].
  apply (agree_off_word _ _ _ _ _ A); [eapply pt_page_ok; eassumption | exact Hj | apply Ap, Hx].
Qed.

Lemma kept_pde i : 0 <= i < 1024 -> pde_at m' pgdir i = pde_at (k_mem s) pgdir i.
Proof. intros Hi. apply kept_word; [left; reflexivity | exact Hi]. Qed.

Lemma kept_pte v : u32 v -> pteval m' pt v = pteval (k_mem s) pt v.
Proof.
  intros Hv. unfold pteval. destruct (pt !! PDX v) as [p|] eqn:E; [|reflexivity].
  apply kept_word; [right; eauto | apply PTX_range, Hv].
Qed.

Lemma kept_pd : pd_ok m' pgdir pt.
Proof.
  pose proof (ps_pd _ _ _ _ _ (us_ps _ _ _ _ _ _ U)) as [P1 P2 P3 P4]. constructor; [exact P1 | | | exact P4].
  - intros i p Hi. destruct (P2 i p Hi) as (R & Q1 & Q2 & Q3). rewrite kept_pde by exact R. auto.
  - intros i Hi Hn. rewrite kept_pde by exact Hi. apply P3; assumption.
Qed.

Lemma kept_hw v : u32 v -> hw_translate m' pgdir v = hw_translate (k_mem s) pgdir v.
Proof.
  intros Hv. apply (hw_same _ _ pgdir pt); [apply U | apply kept_pd | exact Hv | apply kept_pde, PDX_range, Hv | apply kept_pte, Hv].
Qed.

Lemma kept_byte v j :
  0 <= v < lim -> present (k_mem s) pt v = true -> 0 <= j < 4096 ->
  load8 m' (frame (k_mem s) pt v + j) = load8 (k_mem s) (frame (k_mem s) pt v + j).
Proof.
  intros Hv Hp Hj. destruct (us_owned _ _ _ _ _ _ U v Hv Hp) as (O1 & O2 & _).
  apply (agree_off_byte _ _ _ _ _ A); [apply O1 | exact Hj | exact O2].
Qed.

Lemma kept_uspace fl' s' :
  k_mem s' = m' -> kinv fl' hl s' -> (forall x, x ∈ fl' -> x ∈ fl) -> uspace fl' hl pgdir pt lim s'.
Proof.
  intros M I Hs. pose proof U as [[_ P Ap] Hl Hlp Hsm Ho Hj]. unfold KERNBASE in Hl.
  assert (V : forall v, 0 <= v < lim -> pteval (k_mem s') pt v = pteval (k_mem s) pt v)
    by (intros v Hv; rewrite M; apply kept_pte; unfold u32; lia).
  constructor; [constructor; [exact I | rewrite M; apply kept_pd | intros x Hx Hf; apply (Ap x Hx), Hs, Hf]
               | unfold KERNBASE; lia | exact Hlp | | |].
  - intros v Hv Hn. rewrite M, kept_pde by (apply PDX_range; unfold u32; lia). apply Hsm; assumption.
  - intros v Hv. unfold present, frame. rewrite V by exact Hv. intros Hp.
    destruct (Ho v Hv Hp) as (O1 & O2 & O3). split; [exact O1|]. split; [intros Hf; apply O2, Hs, Hf | exact O3].
  - intros v w Hv Hw. unfold present, frame. rewrite !V by assumption. apply Hj; assumption.
Qed.
End Kept.

Section Copy.
Context `{Image} (flA hl : list Z) (pgdir : Z) (pt : gmap Z Z) (lim sz : Z) (sA : kstate).
Context (UA : uspace flA hl pgdir pt lim sA) (Hsz : 0 <= sz <= lim).
Context (Hpres : forall v, 0 <= v < sz -> present (k_mem sA) pt v = true).

(** The child's entry for [v], in frame [q], and the bytes of its page. *)
Definition copy_ent (q v : Z) : Z :=
  Z.lor (Z.lor (V2P q) (PTE_FLAGS (pteval (k_mem sA) pt v))) PTE_P.
Definition copy_cont (v j : Z) : Z := load8 (k_mem sA) (frame (k_mem sA) pt v + j).

Lemma pteval_u32 m v : u32 (pteval m pt v).
Proof. unfold pteval. destruct (pt !! PDX v); [apply load32_range | unfold u32; lia]. Qed.

Lemma flags_range e : 0 <= PTE_FLAGS e < 4096.
Proof. rewrite PTE_FLAGS_eq. zdm. Qed.

Lemma copy_ent_eq q v : copy_ent q v = Z.lor (V2P q) (Z.lor (PTE_FLAGS (pteval (k_mem sA) pt v)) PTE_P).
Proof. unfold copy_ent. symmetry. apply Z.lor_assoc. Qed.

Lemma flags_P_range e : 0 <= Z.lor (PTE_FLAGS e) PTE_P < 4096.
Proof.
  apply (lor_range 12); [apply flags_range | split; [discriminate | reflexivity]].
Qed.

Lemma copy_ent_ok q v : page_ok q -> has (copy_ent q v) PTE_P = true /\ P2V (PTE_ADDR (copy_ent q v)) = q.
Proof.
  intros Hq. destruct (V2P_page q Hq) as (EV & Hm & Hu). rewrite copy_ent_eq. split.
  - rewrite has_P, testbit_lor_aligned by (lia || assumption). rewrite Z.lor_spec. apply orb_true_r.
  - rewrite PTE_ADDR_entry by (assumption || apply flags_P_range). apply P2V_V2P. pose proof (page_ok_addr q Hq). unfold u32, KERNBASE, PHYSTOP in *. lia.
Qed.

Lemma copy_page_same q v w :
  0 <= v < lim -> 0 <= w < lim -> v / 4096 = w / 4096 ->
  copy_ent q v = copy_ent q w /\ forall j, copy_cont v j = copy_cont w j.
Proof.
  intros Hv Hw E. pose proof (us_lim _ _ _ _ _ _ UA) as Hl. unfold KERNBASE in Hl.
  unfold copy_ent, copy_cont, frame. rewrite (pteval_page _ _ w v) by (unfold u32; lia). auto.
Qed.

(** The child [d], a directory from [setupkvm] with free list [fl0]. *)
Section Child.
Context (d : Z) (fl0 : list Z) (ptk : gmap Z Z) (s0 : kstate).
Context (KS : kernel_space flA hl sA d fl0 ptk s0).

Let B0 : kbase flA hl sA d fl0 ptk s0 := ks_base _ _ _ _ _ _ _ KS.
Let U0 : uspace fl0 hl d ptk KERNBASE s0 := kbase_uspace _ _ _ _ _ _ _ B0.

Definition copied : nat -> list Z -> list Z -> gmap Z Z -> kstate -> Prop :=
  grown hl d 0 fl0 ptk s0 copy_ent copy_cont.

(** All pages the child uses, and [x] and [fl], are the pages that were free. *)
Record child (x fl : list Z) (ptc : gmap Z Z) (s : kstate) : Prop := {
  ch_space : uspace fl hl d ptc KERNBASE s;
  ch_frame : kframe sA s;
  ch_mem : agree_off (fun y => y ∈ flA) (k_mem sA) (k_mem s);
  ch_pages : flA ≡ₚ d :: tables ptc 0 1024 ++ frames (k_mem s) ptc 0 (npages KERNBASE 0) ++ x ++ fl }.

Lemma copied_mem n x fl ptc s :
  copied n x fl ptc s -> agree_off (fun y => y ∈ flA) (k_mem sA) (k_mem s).
Proof.
  intros G. eapply agree_off_trans; [apply B0 | apply G | auto |]. cbn beta.
  intros y Hy. apply (kb_pages _ _ _ _ _ _ _ B0). tauto.
Qed.

Lemma copied_frames n x fl ptc s :
  copied n x fl ptc s -> 4096 * Z.of_nat n <= KERNBASE ->
  frames (k_mem s) ptc 0 (npages KERNBASE 0) = frames (k_mem s) ptc 0 n.
Proof.
  intros G Hn. assert (EK : Z.of_nat (npages KERNBASE 0) = 524288) by reflexivity. unfold KERNBASE in Hn.
  replace (npages KERNBASE 0) with (n + (npages KERNBASE 0 - n))%nat by lia.
  rewrite frames_app, (frames_absent _ _ (npages KERNBASE 0 - n)), app_nil_r; [reflexivity|].
  intros v Hv. unfold present. rewrite (gr_old _ _ _ _ _ _ _ _ _ _ _ _ _ G) by (unfold u32; lia).
  rewrite (kb_user _ _ _ _ _ _ _ B0) by (unfold KERNBASE; lia). reflexivity.
Qed.

Lemma copied_child n x fl ptc s :
  copied n x fl ptc s -> 4096 * Z.of_nat n <= KERNBASE -> child x fl ptc s.
Proof.
  intros G Hn. pose proof (ki_nodup _ _ _ (ps_inv _ _ _ _ _ (us_ps _ _ _ _ _ _ UA))) as Hnd.
  pose proof (kbase_perm _ _ _ _ _ _ _ Hnd B0) as HpA.
  assert (U : uspace fl hl d ptc KERNBASE s).
  { eapply (grown_uspace hl d KERNBASE 0); [exact U0 | reflexivity | lia | exact copy_ent_ok | exact G | lia]. }
  constructor; [exact U | etransitivity; [apply B0 | apply G] | eapply copied_mem, G |].
  rewrite (copied_frames _ _ _ _ _ G Hn). destruct (gr_tabs _ _ _ _ _ _ _ _ _ _ _ _ _ G) as (tabs & Hp & Ht).
  pose proof (ps_pd _ _ _ _ _ (us_ps _ _ _ _ _ _ U)) as P. pose proof (ps_pd _ _ _ _ _ (us_ps _ _ _ _ _ _ U0)) as P0.
  assert (Hpt : d :: tables ptc 0 1024 ≡ₚ (d :: tables ptk 0 1024) ++ tabs).
  { apply NoDup_Permutation.
    - constructor; [|eapply tables_NoDup, P]. intros Hx. apply elem_of_tables in Hx as (i & _ & Hi).
      destruct (pd_some _ _ _ P _ _ Hi) as (_ & _ & Hne & _). congruence.
    - rewrite HpA, Hp in Hnd. rewrite app_comm_cons, (app_assoc _ tabs) in Hnd. apply NoDup_app in Hnd. apply Hnd.
    - intros y. rewrite elem_of_app, <- (pt_page_tables _ _ _ _ P), <- (pt_page_tables _ _ _ _ P0). apply Ht. }
  rewrite app_comm_cons, Hpt, HpA, Hp. cbn [app]. rewrite <- !app_assoc. reflexivity.
Qed.

Lemma child_give q fl ptc s :
  child [q] fl ptc s -> page_ok q -> exists s', kfree q s = Ok tt s' /\ child [] (q :: fl) ptc s'.
Proof.
  intros [U F A L] Hq. pose proof (ki_nodup _ _ _ (ps_inv _ _ _ _ _ (us_ps _ _ _ _ _ _ UA))) as Hnd.
  assert (HqA : q ∈ flA) by (rewrite L, elem_of_cons, !elem_of_app, list_elem_of_singleton; tauto).
  rewrite L, app_comm_cons in Hnd. apply NoDup_app in Hnd as (_ & N1 & Hnd).
  apply NoDup_app in Hnd as (_ & N2 & N3). cbn [app] in N2, N3. apply NoDup_cons in N3 as [N3 _].
  assert (EK : Z.of_nat (npages KERNBASE 0) = 524288) by reflexivity.
  destruct (uspace_push fl hl d ptc KERNBASE s q U Hq) as (s' & E & U' & F' & W & V).
  - exact N3.
  - intros Hx%(pt_page_tables _ _ _ _ (ps_pd _ _ _ _ _ (us_ps _ _ _ _ _ _ U))). apply (N1 q Hx).
    rewrite elem_of_app. right. apply list_elem_of_here.
  - unfold KERNBASE. intros v Hv Hp <-. unfold present, frame in *.
    assert (Ev : pteval (k_mem s) ptc v = pteval (k_mem s) ptc (4096 * (v / 4096)))
      by (clear - Hv; symmetry; apply pteval_page; unfold u32; zdm).
    rewrite Ev in N2, N3, N1, Hp.
    refine (N2 _ _ (list_elem_of_here _ _)). apply elem_of_frames. exists (v / 4096).
    split; [rewrite EK; zdm|]. unfold present, frame. rewrite Z.add_0_l. auto.
  - exists s'. split; [exact E|]. constructor; [exact U' | etransitivity; eassumption | |].
    + eapply agree_off_trans; [exact A | apply within_agree; [apply Hq | exact W] | auto |].
      cbn beta. intros y <-. exact HqA.
    + rewrite (frames_ext (k_mem s) (k_mem s') ptc ptc); [exact L|].
      intros v Hv. apply V. rewrite EK in Hv. unfold u32. lia.
Qed.

Lemma child_free fl ptc s :
  child [] fl ptc s -> exists fl' s', freevm d s = Ok tt s' /\ kinv fl' hl s' /\ kframe sA s' /\ fl' ≡ₚ flA /\
    agree_off (fun x => x ∈ flA) (k_mem sA) (k_mem s').
Proof.
  intros [U F A L]. destruct (freevm_spec fl hl d ptc s U) as (fl' & s' & E & I & F' & L' & A').
  assert (Hp : fl' ≡ₚ flA) by (rewrite L', L; reflexivity).
  exists fl', s'. split; [exact E|]. split; [exact I|]. split; [etransitivity; eassumption|]. split; [exact Hp|].
  eapply agree_off_trans; [exact A | exact A' | auto |]. cbn beta. intros y [Hy _]. rewrite <- Hp. exact Hy.
Qed.

(** Reading the parent's entry. *)
Lemma parent_entry n x fl ptc s :
  copied n x fl ptc s -> 4096 * Z.of_nat n < sz ->
  let b := 4096 * Z.of_nat n in
  exists pte, walkpgdir pgdir b false s = Ok pte s /\ pte <> 0 /\ load32 (k_mem s) pte = pteval (k_mem sA) pt b /\
    has (pteval (k_mem sA) pt b) PTE_P = true.
Proof.
  intros G Hlt b. pose proof (us_lim _ _ _ _ _ _ UA) as Hl. unfold KERNBASE in Hl.
  assert (Hb : u32 b) by (unfold u32, b; lia). pose proof (Hpres b ltac:(unfold b; lia)) as Hp. unfold present in Hp.
  pose proof (copied_mem _ _ _ _ _ G) as A. pose proof (kept_pte _ _ _ _ _ _ UA _ A b Hb) as Ev.
  unfold pteval in Ev at 1. destruct (pt !! PDX b) as [p|] eqn:Ep.
  - pose proof (kept_pd _ _ _ _ _ _ UA _ A) as P. destruct (pd_some _ _ _ P _ _ Ep) as (_ & Hpk & _).
    pose proof (page_ok_addr p Hpk) as Hpa. pose proof (PTX_range b Hb). unfold KERNBASE in Hpa.
    exists (p + 4 * PTX b). split; [eapply walk_present; eassumption|]. split; [lia | auto].
  - unfold pteval in Hp. rewrite Ep in Hp. discriminate Hp.
Qed.

(** A page is taken, filled from the parent's and given to [mappages]. *)
Lemma copy_page n q fl ptc s :
  copied n [] (q :: fl) ptc s -> 4096 * Z.of_nat n < sz ->
  let b := 4096 * Z.of_nat n in
  exists (ok : bool) fl' ptc' s1 s2 s3,
    page_ok q /\ kalloc s = Ok q s1 /\ kmemmove q (frame (k_mem sA) pt b) PGSIZE s1 = Ok tt s2 /\
    mappages d b PGSIZE (V2P q) (PTE_FLAGS (pteval (k_mem sA) pt b)) s2 = Ok (if ok then 0 else -1) s3 /\
    if ok then copied (S n) [] fl' ptc' s3 else copied n [q] fl' ptc' s3.
Proof.
  intros G Hlt b. pose proof (us_lim _ _ _ _ _ _ UA) as Hl. pose proof (us_lim_page _ _ _ _ _ _ UA) as Hlp.
  unfold KERNBASE in Hl. assert (Hb : b + 4096 <= lim) by (unfold b; zdm).
  pose proof (copied_mem _ _ _ _ _ G) as A. pose proof (Hpres b ltac:(unfold b; lia)) as Hp.
  destruct (us_owned _ _ _ _ _ _ UA b ltac:(unfold b in *; lia) Hp) as (Hf & _). pose proof (page_ok_addr _ Hf) as Hfa.
  destruct (pa_pop (PageAllocator := base_allocator hl) q fl s (ps_inv _ _ _ _ _ (gr_ps _ _ _ _ _ _ _ _ _ _ _ _ _ G)))
    as (s1 & E1 & I1 & Hq & Hqf & M1 & F1).
  pose proof (page_ok_addr q Hq) as Hqa. unfold KERNBASE, PHYSTOP in Hqa, Hfa.
  set (m2 := mcopy (k_mem s) q (frame (k_mem sA) pt b) 4096).
  assert (G2 : copied n [q] fl ptc (set_mem m2 s1)).
  { apply (grown_take hl d KERNBASE 0 fl0 ptk s0 copy_ent copy_cont U0 ltac:(lia) n q fl ptc s); auto.
    - unfold KERNBASE, b in *. lia.
    - intros y Hy. apply load8_mcopy_out, Hy. }
  destruct (mappages_page fl hl d ptc (set_mem m2 s1) b q (PTE_FLAGS (pteval (k_mem sA) pt b)))
    as (ok & fl' & ptc' & s3 & E3 & _ & Hps3 & G3 & F3 & V3 & T3);
    [apply G2 | exact Hq | unfold u32, b in *; lia | unfold b; zdm | | apply flags_range |].
  { split.
    - rewrite (gr_old _ _ _ _ _ _ _ _ _ _ _ _ _ G2) by (unfold u32, b in *; lia).
      rewrite (kb_user _ _ _ _ _ _ _ B0) by (unfold KERNBASE, b in *; lia). reflexivity.
    - intros Hnone. apply (us_small _ _ _ _ _ _ (ch_space _ _ _ _ (copied_child _ _ _ _ _ G2 ltac:(unfold KERNBASE, b in *; lia))));
        [unfold KERNBASE, b in *; lia | exact Hnone]. }
  exists ok, fl', ptc', s1, (set_mem m2 s1), s3. split; [exact Hq|]. split; [exact E1|]. split.
  { unfold kmemmove, modify, PGSIZE. rewrite M1, memmove_mcopy by (unfold u32, W32; lia). reflexivity. }
  split; [exact E3|]. eapply (grown_map hl d KERNBASE 0 fl0 ptk s0 copy_ent copy_cont U0 eq_refl ltac:(lia) copy_ent_ok n q);
    try eassumption.
  - intros v j Hv Hj. cbn [k_mem set_mem]. unfold m2. rewrite load8_mcopy_in by lia.
    replace (q + j - q) with j by lia. rewrite (kept_byte _ _ _ _ _ _ UA _ A b j) by (auto; unfold b in *; lia).
    apply (copy_page_same q b v); unfold b in *; [lia | lia | zdm].
  - unfold KERNBASE, b in *. lia.
  - intros v Hv. rewrite (V3 v Hv). fold b. rewrite Z.add_0_l. destruct (Z.eqb_spec (b / 4096) (v / 4096)) as [Ev|]; [|destruct ok; reflexivity].
    assert (Hvr : 0 <= v < lim) by (unfold u32, b in *; zdm).
    destruct (copy_page_same q b v ltac:(unfold b in *; lia) Hvr Ev) as [Ee _]. rewrite <- Ee. reflexivity.
Qed.

Lemma copied_same n x fl ptc s s' :
  copied n x fl ptc s -> kinv fl hl s' -> k_mem s' = k_mem s -> kframe s s' -> copied n x fl ptc s'.
Proof.
  intros [[I P A] F T H1 H2 H3 H4 H5 H6 H7] I1 M1 F1.
  constructor; rewrite ?M1; try assumption; [constructor; [exact I1 | rewrite M1; exact P | exact A] | etransitivity; eassumption].
Qed.

Lemma copied_empty n ptc s :
  copied n [] [] ptc s -> exists s', kalloc s = Ok 0 s' /\ copied n [] [] ptc s'.
Proof.
  intros G.
  destruct (pa_empty (PageAllocator := base_allocator hl) s (ps_inv _ _ _ _ _ (gr_ps _ _ _ _ _ _ _ _ _ _ _ _ _ G)))
    as (s1 & E1 & I1 & M1 & F1).
  exists s1. split; [exact E1|]. eapply copied_same; eassumption.
Qed.

(** The child's page tables are those of the kernel and of its small pages. *)
Lemma copied_no_table n fl ptc s i :
  copied n [] fl ptc s -> 4096 * Z.of_nat n <= HUGE_VA_OFFSET -> 120 <= i < 512 -> ptc !! i = None.
Proof.
  intros G Hn Hi. destruct (ptc !! i) as [p|] eqn:E; [|reflexivity]. exfalso. unfold HUGE_VA_OFFSET in Hn.
  destruct (gr_where _ _ _ _ _ _ _ _ _ _ _ _ _ G i p E) as [E0 | (v & Hv & Ev)].
  - pose proof (ks_where _ _ _ _ _ _ _ KS i p E0). lia.
  - cbn [length] in Hv. rewrite PDX_div in Ev by (unfold u32; lia). zdm.
Qed.

Lemma copy_step n fl ptc s f :
  copied n [] fl ptc s -> 4096 * Z.of_nat n < sz ->
  exists fl' ptc' s',
    (copybase_loop pgdir d sz (4096 * Z.of_nat n) (S f) s = Ok false s' /\ child [] fl' ptc' s') \/
    (copybase_loop pgdir d sz (4096 * Z.of_nat n) (S f) s =
       copybase_loop pgdir d sz (4096 * Z.of_nat (S n)) f s' /\ copied (S n) [] fl' ptc' s').
Proof.
  intros G Hlt. pose proof (us_lim _ _ _ _ _ _ UA) as Hl. unfold KERNBASE in Hl.
  destruct (parent_entry _ _ _ _ _ G Hlt) as (pte & Ew & Hne & Ev & Hp).
  cbn [copybase_loop]. rewrite (proj2 (Z.ltb_lt _ sz)) by lia. erewrite bind_ok by exact Ew.
  destruct (Z.eqb_spec pte 0); [contradiction|]. unfold ld32, gets. erewrite bind_ok by reflexivity. rewrite Ev, Hp. cbn [negb].
  destruct fl as [|q fl].
  - destruct (copied_empty _ _ _ G) as (s1 & E1 & G1). exists [], ptc, s1. left.
    erewrite bind_ok by exact E1. split; [reflexivity|]. eapply copied_child; [exact G1 | unfold KERNBASE; lia].
  - destruct (copy_page n q fl ptc s G Hlt) as (ok & fl' & ptc' & s1 & s2 & s3 & Hq & E1 & E2 & E3 & R).
    pose proof (page_ok_addr q Hq) as Hqa. unfold KERNBASE in Hqa.
    erewrite bind_ok by exact E1. destruct (Z.eqb_spec q 0); [lia|].
    unfold frame in E2. erewrite bind_ok by exact E2. erewrite bind_ok by exact E3. destruct ok; cbn [Z.ltb Z.compare].
    + exists fl', ptc', s3. right. split; [|exact R]. unfold PGSIZE. rewrite w32_small by (unfold u32; lia). f_equal. lia.
    + assert (C : child [q] fl' ptc' s3) by (eapply copied_child; [exact R | unfold KERNBASE; lia]).
      destruct (child_give _ _ _ _ C Hq) as (s4 & E4 & C4). exists (q :: fl'), ptc', s4. left.
      erewrite bind_ok by exact E4. auto.
Qed.

Lemma copy_loop_spec : forall fuel n fl ptc s,
  copied n [] fl ptc s -> (n <= npages sz 0)%nat -> (npages sz 0 - n < fuel)%nat ->
  exists (ok : bool) fl' ptc' s',
    copybase_loop pgdir d sz (4096 * Z.of_nat n) fuel s = Ok ok s' /\
    if ok then copied (npages sz 0) [] fl' ptc' s' else child [] fl' ptc' s'.
Proof.
  induction fuel as [|f IH]; intros n fl ptc s G Hn Hf; [lia|].
  destruct (Z.lt_ge_cases (4096 * Z.of_nat n) sz) as [Hlt | Hge].
  - destruct (copy_step n fl ptc s f G Hlt) as (fl' & ptc' & s' & [[E R] | [E R]]).
    + exists false, fl', ptc', s'. auto.
    + assert (S n <= npages sz 0)%nat.
      { apply Nat2Z.inj_le. rewrite npages_eq by lia. rewrite Nat2Z.inj_succ. zdm. }
      rewrite E. apply (IH (S n) fl' ptc' s' R); lia.
  - exists true, fl, ptc, s. cbn [copybase_loop]. rewrite (proj2 (Z.ltb_ge _ sz)) by lia.
    split; [reflexivity|]. assert (npages sz 0 = n) as ->; [|exact G]. apply Nat2Z.inj.
    apply Z.le_antisymm; [rewrite npages_eq by lia; zdm | lia].
Qed.

(** What the child sees. *)
Lemma copied_sees n x fl ptc s v :
  copied n x fl ptc s -> (n <= npages sz 0)%nat -> 0 <= v < 4096 * Z.of_nat n ->
  exists q u w, q ∈ flA /\ page_ok q /\ q <> d /\
    hw_translate (k_mem sA) pgdir v = Some (V2P (frame (k_mem sA) pt v) + v mod 4096, u, w) /\
    hw_translate (k_mem s) d v = Some (V2P q + v mod 4096, u, w) /\
    load8 (k_mem s) (q + v mod 4096) = load8 (k_mem sA) (frame (k_mem sA) pt v + v mod 4096).
Proof.
  intros G Hle Hv. pose proof (us_lim _ _ _ _ _ _ UA) as Hl. unfold KERNBASE in Hl.
  pose proof (us_lim_page _ _ _ _ _ _ UA) as Hlp.
  assert (Hn : Z.of_nat n <= (sz + 4095) / 4096)
    by (apply Nat2Z.inj_le in Hle; rewrite npages_eq in Hle by lia; rewrite Z.sub_0_r in Hle; exact Hle).
  assert (Hvl : 0 <= v < lim) by zdm. assert (Hv32 : u32 v) by (unfold u32; lia).
  assert (Hp : present (k_mem sA) pt v = true).
  { unfold present. rewrite (pteval_page _ _ (v - v mod 4096)) by (unfold u32; zdm). apply Hpres. zdm. }
  destruct (us_owned _ _ _ _ _ _ UA v Hvl Hp) as (Hf & _). unfold present in Hp.
  destruct (gr_new _ _ _ _ _ _ _ _ _ _ _ _ _ G v Hv) as (q & Hq & Hin & Ev & Hc).
  destruct (V2P_page q Hq) as (_ & Hm & Hu). destruct (copy_ent_ok q v Hq) as [HP HA].
  exists q, (has (pteval (k_mem sA) pt v) PTE_U), (has (pteval (k_mem sA) pt v) PTE_W).
  pose proof (copied_child _ _ _ _ _ G ltac:(unfold KERNBASE; zdm)) as C.
  split; [|split; [exact Hq|split; [|split; [|split]]]].
  - rewrite (ch_pages _ _ _ _ (copied_child _ _ _ _ _ G ltac:(unfold KERNBASE; zdm))).
    rewrite (copied_frames _ _ _ _ _ G ltac:(unfold KERNBASE; zdm)). rewrite elem_of_cons, !elem_of_app. auto.
  - intros ->. destruct (us_owned _ _ _ _ _ _ (ch_space _ _ _ _ C) v) as (_ & _ & O).
    + unfold KERNBASE. lia.
    + unfold present. rewrite Ev. exact HP.
    + apply O. unfold frame. rewrite Ev, HA. left. reflexivity.
  - rewrite (hw_mapped _ pgdir pt) by (try apply UA; assumption). unfold frame. rewrite V2P_P2V; [reflexivity|].
    rewrite PTE_ADDR_eq by apply pteval_u32. pose proof (pteval_u32 (k_mem sA) v). unfold u32 in *. zdm.
  - rewrite (hw_mapped _ d ptc) by (try apply G; try assumption; rewrite Ev; exact HP). rewrite Ev, copy_ent_eq.
    rewrite PTE_ADDR_entry by (assumption || apply flags_P_range). unfold PTE_FLAGS.
    rewrite !has_U, !has_W, (testbit_lor_aligned _ _ 1), (testbit_lor_aligned _ _ 2), !Z.lor_spec, !Z.land_spec by (lia || assumption).
    do 2 f_equal; [f_equal|]; rewrite orb_false_r; apply andb_true_r.
  - rewrite Hc by zdm. reflexivity.
Qed.
End Child.
End Copy.

(** ** Copying 4 MB pages *)

(** The 4 MB pages of a process begin at directory entry PDX(HUGE_VA_OFFSET);
    [huge_frame] is the kernel address of the [k]-th of them. *)
Definition HUGE_VA_PDX : Z := 120.
Definition huge_slot (m : mem) (pgdir k : Z) : Z := pde_at m pgdir (HUGE_VA_PDX + k).
Definition huge_frame (m : mem) (pgdir k : Z) : Z := P2V (PTE_ADDR (huge_slot m pgdir k)).
Definition nhuge (hugesz : Z) : nat := Z.to_nat ((hugesz + 4194303) / 4194304).

(** The first [n] of them are mapped to pages that are not free. *)
Definition huge_part (hl : list Z) (pgdir : Z) (n : nat) (m : mem) : Prop :=
  forall k, 0 <= k < Z.of_nat n ->
    has (huge_slot m pgdir k) PTE_P = true /\ has (huge_slot m pgdir k) PTE_PS = true /\
    huge_ok (huge_frame m pgdir k) /\ huge_frame m pgdir k ∉ hl.

Section CopyHuge.
Context `{Image} (fl hl : list Z) (pgdir d : Z) (ptc : gmap Z Z) (n : nat) (s1 : kstate).
Context (PS : pspace fl hl d ptc s1) (Hpg : page_ok pgdir) (Hne : pgdir <> d).
Context (Hpar : huge_part hl pgdir n (k_mem s1)) (Hn : Z.of_nat n <= 392).
Context (Hno : forall i, HUGE_VA_PDX <= i < HUGE_VA_PDX + Z.of_nat n -> ptc !! i = None).

(** [k] pages have been copied to the first [k] free ones. *)
Record hcopied (k : nat) (s : kstate) : Prop := {
  hc_ps : pspace fl (drop k hl) d ptc s;
  hc_frame : kframe s1 s;
  hc_mem x : ~ (d <= x < d + 4096) -> (forall q, q ∈ hl -> ~ (q <= x < q + 4194304)) ->
    load8 (k_mem s) x = load8 (k_mem s1) x;
  hc_pde i : 0 <= i < 1024 -> ~ (HUGE_VA_PDX <= i < HUGE_VA_PDX + Z.of_nat k) ->
    pde_at (k_mem s) d i = pde_at (k_mem s1) d i;
  hc_new j q : (j < k)%nat -> hl !! j = Some q ->
    let i := HUGE_VA_PDX + Z.of_nat j in
    pde_at (k_mem s) d i =
      huge_entry i (V2P q) (PTE_FLAGS (huge_slot (k_mem s1) pgdir (Z.of_nat j))) i /\
    forall o, 0 <= o < 4194304 ->
      load8 (k_mem s) (q + o) = load8 (k_mem s1) (huge_frame (k_mem s1) pgdir (Z.of_nat j) + o) }.

Lemma hl_ok q : q ∈ hl -> huge_ok q.
Proof. pose proof (ki_hok _ _ _ (ps_inv _ _ _ _ _ PS)) as F. rewrite Forall_forall in F. apply F. Qed.

Lemma hc_byte k s p j :
  hcopied k s -> page_ok p -> p <> d -> 0 <= j < 4096 -> load8 (k_mem s) (p + j) = load8 (k_mem s1) (p + j).
Proof.
  clear - PS. intros C Hp Hpd Hj. pose proof (pd_page _ _ _ (ps_pd _ _ _ _ _ PS)) as Hd. apply (hc_mem k s C).
  - destruct (page_apart p d (proj1 Hp) (proj1 Hd) Hpd); lia.
  - intros q Hq%hl_ok. pose proof (page_huge_apart p q Hp Hq). lia.
Qed.

Lemma hc_word k s p j :
  hcopied k s -> page_ok p -> p <> d -> 0 <= j < 1024 -> load32 (k_mem s) (p + 4 * j) = load32 (k_mem s1) (p + 4 * j).
Proof.
  clear - PS. intros C Hp Hpd Hj. apply load32_ext. intros i Hi. rewrite <- !Z.add_assoc. apply (hc_byte k s); auto. lia.
Qed.

Lemma hc_parent k s j : hcopied k s -> 0 <= j < Z.of_nat n -> huge_slot (k_mem s) pgdir j = huge_slot (k_mem s1) pgdir j.
Proof. intros C Hj. apply (hc_word k s); auto. unfold HUGE_VA_PDX. lia. Qed.

Lemma hcopied_0 : hcopied 0 s1.
Proof. clear - PS. constructor; [exact PS | reflexivity | auto | auto | intros; lia]. Qed.

(** A page of the region is written. *)
Lemma pspace_huge_write hl' q s m' :
  pspace fl hl' d ptc s -> huge_ok q -> q ∉ hl' -> within q 4194304 (k_mem s) m' -> pspace fl hl' d ptc (set_mem m' s).
Proof.
  clear - PS. intros [I P A] Hq Hf W. constructor; cbn [k_mem set_mem].
  - apply (pa_write (PageAllocator := huge_allocator fl) q); assumption.
  - apply (pd_ok_ext (k_mem s)); [exact P|]. intros i Hi. apply (within_load32 q 4194304); [exact W|].
    pose proof (page_huge_apart d q (pd_page _ _ _ P) Hq). lia.
  - exact A.
Qed.

Lemma huge_V2P q : huge_ok q ->
  V2P q = q - KERNBASE /\ in_huge_range (V2P q) = true /\ V2P q mod 4194304 = 0 /\ V2P q + 4194304 <= HUGE_PAGE_END /\
  u32 q /\ q + 4194304 < W32 /\ q <> 0.
Proof.
  clear. intros (Hm & Hlo & Hhi). unfold KERNBASE, HUGE_PAGE_START, HUGE_PAGE_END in *.
  assert (E : V2P q = q - KERNBASE) by (apply V2P_eq; unfold KERNBASE, W32; lia).
  rewrite E. unfold KERNBASE, in_huge_range, HUGE_PAGE_START, HUGE_PAGE_END, u32, W32.
  repeat split; try lia; try zdm. 
Qed.

Lemma hcopied_step k q s s4 :
  let src := huge_frame (k_mem s1) pgdir (Z.of_nat k) in let m3 := mcopy (k_mem s) q src 4194304 in
  let e := HUGE_VA_PDX + Z.of_nat k in
  hcopied k s -> (k < n)%nat -> hl !! k = Some q -> pspace fl (drop (S k) hl) d ptc s4 -> kframe s s4 ->
  within d 4096 m3 (k_mem s4) ->
  (forall i, 0 <= i < 1024 -> pde_at (k_mem s4) d i =
     if (e <=? i) && (i <=? e) then huge_entry e (V2P q) (PTE_FLAGS (huge_slot (k_mem s1) pgdir (Z.of_nat k))) i
     else pde_at m3 d i) ->
  hcopied (S k) s4.
Proof.
  intros src m3 e C Hk Hq Ps4 F4 W4 V4. pose proof C as [Cps Cf Cm Cp Cn].
  destruct (Hpar (Z.of_nat k) ltac:(lia)) as (_ & _ & Hsrc & Hsf). fold src in Hsrc, Hsf.
  assert (Hqin : q ∈ hl) by (eapply list_elem_of_lookup_2, Hq). pose proof (hl_ok q Hqin) as Hqo.
  pose proof (pd_page _ _ _ (ps_pd _ _ _ _ _ PS)) as Hd.
  pose proof (page_huge_apart d q Hd Hqo) as Hdq. pose proof (page_huge_apart d src Hd Hsrc) as Hds.
  assert (Ed : forall i, 0 <= i < 1024 -> pde_at m3 d i = pde_at (k_mem s) d i).
  { intros i Hi. apply (within_load32 q 4194304); [intros x Hx; apply load8_mcopy_out, Hx | lia]. }
  constructor; [exact Ps4 | etransitivity; eassumption | | |].
  - intros x Hx Hh. rewrite W4 by lia. unfold m3. pose proof (Hh q Hqin).
    rewrite load8_mcopy_out by lia. apply Cm; assumption.
  - intros i Hi Hr. rewrite V4 by exact Hi. unfold e, HUGE_VA_PDX in *. zcase; rewrite Ed by exact Hi; apply Cp; lia.
  - intros j q' Hj Hq' i. destruct (decide (j = k)) as [-> | Hjk].
    + assert (q' = q) as -> by congruence. split.
      * rewrite V4 by (unfold i, HUGE_VA_PDX; lia). unfold i, e. rewrite Z.leb_refl. reflexivity.
      * intros o Ho. rewrite W4 by lia. unfold m3. rewrite load8_mcopy_in by lia. replace (q + o - q) with o by lia.
        apply Cm; [lia|]. intros q2 Hq2. pose proof (hl_ok q2 Hq2) as Hq2o.
        assert (src <> q2) as Hns by (intros E; apply Hsf; rewrite E; exact Hq2).
        destruct (huge_apart src q2 (proj1 Hsrc) (proj1 Hq2o) Hns); lia.
    + destruct (Cn j q' ltac:(lia) Hq') as [E B].
      assert (Hq'in : q' ∈ hl) by (eapply list_elem_of_lookup_2, Hq'). pose proof (hl_ok q' Hq'in) as Hq'o.
      assert (q' <> q) as Hnq.
      { intros ->. apply Hjk. eapply NoDup_lookup; [apply (ki_hnodup _ _ _ (ps_inv _ _ _ _ _ PS)) | exact Hq' | exact Hq]. }
      pose proof (page_huge_apart d q' Hd Hq'o). split.
      * rewrite V4 by (unfold i, HUGE_VA_PDX; lia). unfold e, i. zcase; try lia; rewrite Ed by (unfold HUGE_VA_PDX; lia); exact E.
      * intros o Ho. rewrite W4 by lia. unfold m3. rewrite load8_mcopy_out; [apply B, Ho|].
        destruct (huge_apart q' q (proj1 Hq'o) (proj1 Hqo) Hnq); lia.
Qed.

(** One 4 MB page is taken, filled from the parent's and mapped. *)
Lemma copy_huge_page k q s :
  hcopied k s -> (k < n)%nat -> hl !! k = Some q ->
  let v := HUGE_VA_OFFSET + 4194304 * Z.of_nat k in
  exists s2 s3 s4,
    khugealloc s = Ok q s2 /\
    kmemmove q (huge_frame (k_mem s1) pgdir (Z.of_nat k)) HUGE_PAGE_SIZE s2 = Ok tt s3 /\
    mappages d v HUGE_PAGE_SIZE (V2P q) (PTE_FLAGS (huge_slot (k_mem s1) pgdir (Z.of_nat k))) s3 = Ok 0 s4 /\
    hcopied (S k) s4.
Proof.
  intros C Hk Hq v. pose proof C as [Cps Cf Cm Cp Cn].
  destruct (Hpar (Z.of_nat k) ltac:(lia)) as (_ & _ & Hsrc & Hsf).
  assert (Hqin : q ∈ hl) by (eapply list_elem_of_lookup_2, Hq).
  rewrite (drop_S _ _ _ Hq) in Cps.
  destruct (pa_pop (PageAllocator := huge_allocator fl) q (drop (S k) hl) s (ps_inv _ _ _ _ _ Cps))
    as (s2 & E2 & I2 & Hqo & Hqf & M2 & F2).
  destruct (huge_V2P q Hqo) as (EV & Hr & Hvm & Hve & Hqu & Hqw & _).
  destruct (huge_V2P _ Hsrc) as (_ & _ & _ & _ & Hsu & Hsw & _).
  set (src := huge_frame (k_mem s1) pgdir (Z.of_nat k)) in *.
  set (m3 := mcopy (k_mem s) q src 4194304).
  assert (W3 : within q 4194304 (k_mem s) m3) by (intros x Hx; apply load8_mcopy_out, Hx).
  assert (Ps3 : pspace fl (drop (S k) hl) d ptc (set_mem m3 s2)).
  { apply (pspace_huge_write _ q); [|exact Hqo | exact Hqf | rewrite M2; exact W3].
    destruct Cps as [_ P A]. constructor; [exact I2 | rewrite M2; exact P | exact A]. }
  assert (Ev : v / 4194304 = HUGE_VA_PDX + Z.of_nat k) by (unfold v, HUGE_VA_OFFSET, HUGE_VA_PDX; zdm).
  assert (Ev' : (v + HUGE_PAGE_SIZE - 1) / 4194304 = HUGE_VA_PDX + Z.of_nat k)
    by (unfold v, HUGE_VA_OFFSET, HUGE_VA_PDX, HUGE_PAGE_SIZE; zdm).
  destruct (mappages_big fl (drop (S k) hl) d ptc (set_mem m3 s2) v HUGE_PAGE_SIZE (V2P q)
    (PTE_FLAGS (huge_slot (k_mem s1) pgdir (Z.of_nat k)))) as (s4 & E4 & Ps4 & F4 & W4 & V4).
  { exact Ps3. }
  { unfold v, u32, HUGE_VA_OFFSET. lia. }
  { reflexivity. }
  { unfold v, W32, HUGE_VA_OFFSET, HUGE_PAGE_SIZE. lia. }
  { exact Hr. }
  { exact Hvm. }
  { replace (v mod 4194304) with 0 by (unfold v, HUGE_VA_OFFSET; zdm). unfold HUGE_PAGE_SIZE. lia. }
  { apply flags_range. }
  { rewrite Ev, Ev'. intros i Hi. apply Hno. lia. }
  exists s2, (set_mem m3 s2), s4. split; [exact E2|]. split.
  { unfold kmemmove, modify, HUGE_PAGE_SIZE. rewrite M2, memmove_mcopy by (assumption || lia). reflexivity. }
  split; [exact E4|]. rewrite Ev, Ev' in V4. cbn [k_mem set_mem] in V4, W4.
  eapply (hcopied_step k q s); eauto.
  etransitivity; [exact F2 | etransitivity; [apply kframe_set_mem | exact F4]].
Qed.

Lemma copy_huge_loop hugesz : 0 <= hugesz <= KERNBASE - HUGE_VA_OFFSET -> n = nhuge hugesz -> (n <= length hl)%nat ->
  forall fuel k s, hcopied k s -> (k <= n)%nat -> (n - k < fuel)%nat ->
  exists s', copyhuge_loop pgdir d (HUGE_VA_OFFSET + hugesz) (HUGE_VA_OFFSET + 4194304 * Z.of_nat k) fuel s = Ok true s' /\
    hcopied n s'.
Proof.
  intros Hh En Hl. unfold KERNBASE, HUGE_VA_OFFSET in Hh.
  assert (En' : Z.of_nat n = (hugesz + 4194303) / 4194304) by (rewrite En; unfold nhuge; rewrite Z2Nat.id; zdm).
  induction fuel as [|f IH]; intros k s C Hk Hf; [lia|]. cbn [copyhuge_loop].
  destruct (Z.ltb_spec (HUGE_VA_OFFSET + 4194304 * Z.of_nat k) (HUGE_VA_OFFSET + hugesz)) as [Hlt | Hge].
  - assert (Hkn : (k < n)%nat) by (unfold HUGE_VA_OFFSET in Hlt; zdm).
    destruct (lookup_lt_is_Some_2 hl k ltac:(lia)) as [q Hq].
    destruct (copy_huge_page k q s C Hkn Hq) as (s2 & s3 & s4 & E2 & E3 & E4 & C4).
    pose proof (hl_ok q (list_elem_of_lookup_2 _ _ _ Hq)) as Hqo. destruct (huge_V2P q Hqo) as (_ & _ & _ & _ & _ & _ & Hq0).
    assert (Epde : load32 (k_mem s) (pde_addr pgdir (HUGE_VA_OFFSET + 4194304 * Z.of_nat k)) =
      huge_slot (k_mem s1) pgdir (Z.of_nat k)).
    { rewrite <- (hc_parent k s) by (auto; lia). unfold huge_slot, pde_at, pde_addr. f_equal.
      pose proof (page_ok_addr pgdir Hpg). unfold HUGE_VA_OFFSET, HUGE_VA_PDX, KERNBASE, PHYSTOP in *.
      rewrite PDX_div, w32_small by (unfold u32; zdm). zdm. }
    unfold ld32, gets. erewrite bind_ok by reflexivity. rewrite Epde.
    erewrite bind_ok by exact E2. destruct (Z.eqb_spec q 0); [contradiction|].
    erewrite bind_ok by exact E3. erewrite bind_ok by exact E4. cbn [Z.ltb Z.compare].
    replace (w32 _) with (HUGE_VA_OFFSET + 4194304 * Z.of_nat (S k)); [apply (IH (S k) s4 C4); lia|].
    unfold HUGE_VA_OFFSET, HUGE_PAGE_SIZE in *. rewrite w32_small by (unfold u32; lia). lia.
  - exists s. split; [reflexivity|]. assert (n = k) as -> by (unfold HUGE_VA_OFFSET in Hge; zdm). exact C.
Qed.

Lemma hc_pteval k s pt v P :
  hcopied k s -> pd_ok (k_mem s1) P pt -> (forall i p, pt !! i = Some p -> p <> d) -> u32 v ->
  pteval (k_mem s) pt v = pteval (k_mem s1) pt v.
Proof.
  intros C Pd Hp Hv. unfold pteval. destruct (pt !! PDX v) as [p|] eqn:E; [|reflexivity].
  destruct (pd_some _ _ _ Pd _ _ E) as (_ & Hok & _). apply (hc_word k s); auto; [eapply Hp, E | apply PTX_range, Hv].
Qed.

(** What [lim] bounds is the same for an address space whose entries below
    it are the same. *)
Lemma hc_uspace_kept k s P pt lim lim' :
  hcopied k s -> uspace fl hl P pt lim s1 -> pd_ok (k_mem s) P pt -> (forall i p, pt !! i = Some p -> p <> d) ->
  lim' <= lim -> lim' mod 4096 = 0 ->
  (forall v, 0 <= v < lim' -> pde_at (k_mem s) P (PDX v) = pde_at (k_mem s1) P (PDX v)) ->
  uspace fl (drop k hl) P pt lim' s.
Proof.
  clear - PS. intros C U Pd Hp Hl Hlp Hpde. pose proof U as [[I P1 A] U1 U2 U3 U4 U5]. unfold KERNBASE in U1.
  assert (V : forall v, 0 <= v < lim' -> pteval (k_mem s) pt v = pteval (k_mem s1) pt v)
    by (intros v Hv; eapply hc_pteval; eauto; unfold u32; lia).
  constructor; [constructor; [apply (hc_ps k s C) | exact Pd | exact A] | unfold KERNBASE; lia | exact Hlp | | |].
  - intros v Hv Hnone. rewrite Hpde by exact Hv. apply U3; [lia | exact Hnone].
  - intros v Hv. unfold present, frame. rewrite V by exact Hv. apply U4. lia.
  - intros v w Hv Hw. unfold present, frame. rewrite !V by assumption. apply U5; lia.
Qed.

(** What the MMU sees: in the parent, ... *)
Lemma hc_hw_parent k s pt v :
  hcopied k s -> pd_ok (k_mem s1) pgdir pt -> (forall i p, pt !! i = Some p -> p <> d) -> u32 v ->
  pd_ok (k_mem s) pgdir pt /\ hw_translate (k_mem s) pgdir v = hw_translate (k_mem s1) pgdir v.
Proof.
  intros C P Hp Hv.
  assert (Ed : forall i, 0 <= i < 1024 -> pde_at (k_mem s) pgdir i = pde_at (k_mem s1) pgdir i)
    by (intros i Hi; apply (hc_word k s); auto).
  assert (P' : pd_ok (k_mem s) pgdir pt) by (apply (pd_ok_ext (k_mem s1)); assumption).
  split; [exact P'|]. apply (hw_same _ _ pgdir pt); auto; [apply Ed, PDX_range, Hv | eapply hc_pteval; eauto].
Qed.

(** ... in the child where it has no 4 MB pages, ... *)
Lemma hc_hw_child k s v :
  hcopied k s -> u32 v -> ~ (HUGE_VA_OFFSET <= v < HUGE_VA_OFFSET + 4194304 * Z.of_nat k) ->
  hw_translate (k_mem s) d v = hw_translate (k_mem s1) d v.
Proof.
  clear - PS. intros C Hv Hr. pose proof (ps_pd _ _ _ _ _ PS) as P. apply (hw_same _ _ d ptc); auto.
  - apply (ps_pd _ _ _ _ _ (hc_ps k s C)).
  - apply (hc_pde k s C); [apply PDX_range, Hv|]. rewrite PDX_div by exact Hv.
    unfold HUGE_VA_OFFSET, HUGE_VA_PDX in *. zdm.
  - eapply hc_pteval; eauto. intros i p Hi. apply (pd_some _ _ _ P _ _ Hi).
Qed.

(** ... and in both where there are. *)
Lemma huge_slot_hw m k v :
  has (huge_slot m pgdir k) PTE_P = true -> has (huge_slot m pgdir k) PTE_PS = true -> huge_ok (huge_frame m pgdir k) ->
  PDX v = HUGE_VA_PDX + k ->
  hw_translate m pgdir v = Some (V2P (huge_frame m pgdir k) + v mod 4194304,
    has (huge_slot m pgdir k) PTE_U, has (huge_slot m pgdir k) PTE_W).
Proof.
  intros H1 H2 Hok Ev. rewrite (hw_huge _ _ _ (huge_slot m pgdir k)); [|unfold huge_slot; rewrite Ev; reflexivity | exact H1 | exact H2].
  destruct (huge_V2P _ Hok) as (_ & _ & Hm & _). unfold huge_frame in *.
  assert (Hu : u32 (huge_slot m pgdir k)) by apply load32_range.
  rewrite PTE_ADDR_eq in * by exact Hu. rewrite V2P_P2V in * by (unfold u32 in *; zdm).
  do 3 f_equal. f_equal. zdm.
Qed.

Lemma hc_hw_huge k s j q v :
  hcopied k s -> (j < k)%nat -> (k <= n)%nat -> hl !! j = Some q -> PDX v = HUGE_VA_PDX + Z.of_nat j ->
  exists u w,
    hw_translate (k_mem s1) pgdir v = Some (V2P (huge_frame (k_mem s1) pgdir (Z.of_nat j)) + v mod 4194304, u, w) /\
    hw_translate (k_mem s) d v = Some (V2P q + v mod 4194304, u, w) /\
    load8 (k_mem s) (q + v mod 4194304) =
      load8 (k_mem s1) (huge_frame (k_mem s1) pgdir (Z.of_nat j) + v mod 4194304).
Proof.
  intros C Hj Hk Hq Ev. destruct (hc_new k s C j q Hj Hq) as [E B]. cbv zeta in E.
  destruct (Hpar (Z.of_nat j) ltac:(lia)) as (H1 & H2 & Hok & _).
  destruct (huge_V2P q (hl_ok q (list_elem_of_lookup_2 _ _ _ Hq))) as (EV & _ & Hm & He & Hu & _).
  set (e := huge_slot (k_mem s1) pgdir (Z.of_nat j)) in *. set (i := HUGE_VA_PDX + Z.of_nat j) in *.
  exists (has e PTE_U), (has e PTE_W). split; [apply huge_slot_hw; assumption|]. split; [|apply B; zdm].
  assert (Hlo : 0 <= V2P q) by (unfold V2P; apply w32_range).
  destruct (huge_entry_decode i (V2P q) (PTE_FLAGS e) i) as (_ & D1 & _ & D2 & D3 & D4 & D5);
    [exact Hm | lia | unfold HUGE_PAGE_END, W32 in *; lia | apply flags_range|].
  rewrite (hw_huge _ _ _ (huge_entry i (V2P q) (PTE_FLAGS e) i)); [|rewrite Ev; exact E | exact D2 | exact D3].
  rewrite D1, D4, D5. unfold PTE_FLAGS. rewrite !has_U, !has_W, !Z.land_spec.
  replace (V2P q + 4194304 * (i - i)) with (V2P q) by lia. do 2 f_equal; [f_equal|]; apply andb_true_r.
Qed.

End CopyHuge.

(** No free 4 MB page. *)
Lemma copyhuge_empty `{Image} fl pgdir d lim i f s :
  i < lim -> kinv fl [] s ->
  exists s', copyhuge_loop pgdir d lim i (S f) s = Ok false s' /\ kinv fl [] s' /\ k_mem s' = k_mem s /\ kframe s s'.
Proof.
  intros Hi I. destruct (pa_empty (PageAllocator := huge_allocator fl) s I) as (s' & E & R). exists s'.
  split; [|exact R]. cbn [copyhuge_loop]. rewrite (proj2 (Z.ltb_lt _ _) Hi).
  unfold ld32, gets. erewrite bind_ok by reflexivity. erewrite bind_ok by exact E. reflexivity.
Qed.

Lemma huge_part_kept `{Image} (fl hl : list Z) pgdir n m m' :
  page_ok pgdir -> pgdir ∉ fl -> Z.of_nat n <= 392 ->
  agree_off (fun x => x ∈ fl) m m' -> huge_part hl pgdir n m -> huge_part hl pgdir n m' /\
  forall k, 0 <= k < Z.of_nat n -> huge_slot m' pgdir k = huge_slot m pgdir k.
Proof.
  intros Hpg Hni Hn A Hp.
  assert (E : forall k, 0 <= k < Z.of_nat n -> huge_slot m' pgdir k = huge_slot m pgdir k).
  { intros k Hk. apply (agree_off_word _ _ _ _ _ A); [apply Hpg | unfold HUGE_VA_PDX; lia | exact Hni]. }
  split; [|exact E]. intros k Hk. unfold huge_frame. rewrite E by exact Hk. apply Hp, Hk.
Qed.

(** The second loop of [copyuvm], once the small pages are copied. *)
Lemma copyhuge_result `{Image} fl hl pgdir pt lim sz hugesz s d fl0 ptk s0 fl' ptc s1 :
  uspace fl hl pgdir pt lim s -> 0 <= sz <= lim -> 0 <= hugesz <= KERNBASE - HUGE_VA_OFFSET ->
  (0 < hugesz -> lim <= HUGE_VA_OFFSET) ->
  huge_part hl pgdir (nhuge hugesz) (k_mem s) -> (nhuge hugesz <= length hl)%nat \/ hl = [] ->
  kernel_space fl hl s d fl0 ptk s0 -> copied hl pt s d fl0 ptk s0 (npages sz 0) [] fl' ptc s1 ->
  let loop := let lim := w32 (HUGE_VA_OFFSET + hugesz) in
    copyhuge_loop pgdir d lim HUGE_VA_OFFSET (alloc_fuel HUGE_PAGE_SIZE lim HUGE_VA_OFFSET) s1 in
  (exists s', loop = Ok true s' /\ hcopied fl' hl pgdir d ptc s1 (nhuge hugesz) s' /\ (nhuge hugesz <= length hl)%nat) \/
  (exists s', loop = Ok false s' /\ child fl hl s d [] fl' ptc s').
Proof.
  intros U Hsz Hhz Hlim Hhp Hfree KS G loop. pose proof (us_lim _ _ _ _ _ _ U) as Hl.
  pose proof (us_lim_page _ _ _ _ _ _ U) as Hlp. pose proof U as [[I P A] _ _ _ _ _].
  assert (Hnp : 4096 * Z.of_nat (npages sz 0) <= lim) by (rewrite npages_eq by lia; zdm).
  unfold loop. clear loop. rewrite w32_small by (unfold u32, KERNBASE, HUGE_VA_OFFSET in *; lia).
  set (n := nhuge hugesz) in *.
  assert (En : Z.of_nat n = (hugesz + 4194303) / 4194304)
    by (unfold n, nhuge; rewrite Z2Nat.id; unfold KERNBASE, HUGE_VA_OFFSET in *; zdm).
  assert (Hn : Z.of_nat n <= 392) by (unfold KERNBASE, HUGE_VA_OFFSET in *; zdm).
  destruct (Nat.le_gt_cases n (length hl)) as [Hle | Hgt].
  - left. assert (Hpgf : pgdir ∉ fl) by (apply A; left; reflexivity).
    destruct (huge_part_kept fl hl pgdir n (k_mem s) (k_mem s1)) as [Hhp1 _]; try assumption.
    { apply (pd_page _ _ _ P). }
    { eapply copied_mem; eassumption. }
    assert (Hps : pspace fl' hl d ptc s1) by apply G.
    assert (Hne : pgdir <> d).
    { intros ->. apply Hpgf. apply (kb_pages _ _ _ _ _ _ _ (ks_base _ _ _ _ _ _ _ KS)). left. left. reflexivity. }
    assert (Hno : forall i, HUGE_VA_PDX <= i < HUGE_VA_PDX + Z.of_nat n -> ptc !! i = None).
    { intros i Hi. unfold HUGE_VA_PDX in Hi. eapply copied_no_table; [exact KS | exact G | | lia].
      etransitivity; [exact Hnp | apply Hlim; zdm]. }
    destruct (copy_huge_loop fl' hl pgdir d ptc n s1 Hps (pd_page _ _ _ P) Hne Hhp1 Hn Hno hugesz Hhz eq_refl Hle
      (alloc_fuel HUGE_PAGE_SIZE (HUGE_VA_OFFSET + hugesz) HUGE_VA_OFFSET) 0 s1) as (s' & E & C).
    + apply hcopied_0; exact Hps.
    + lia.
    + unfold alloc_fuel, HUGE_PAGE_SIZE, HUGE_VA_OFFSET. zdm.
    + exists s'. split; [rewrite Z.mul_0_r, Z.add_0_r in E; exact E | split; [exact C | exact Hle]].
  - right. destruct Hfree as [? | ->]; [lia|]. cbn [length] in Hgt.
    destruct (copyhuge_empty fl' pgdir d (HUGE_VA_OFFSET + hugesz) HUGE_VA_OFFSET
      (S (Z.to_nat ((HUGE_VA_OFFSET + hugesz - HUGE_VA_OFFSET) / HUGE_PAGE_SIZE))) s1) as (s' & E & I' & M' & F').
    { zdm. }
    { apply (ps_inv _ _ _ _ _ (gr_ps _ _ _ _ _ _ _ _ _ _ _ _ _ G)). }
    exists s'. split; [exact E|]. eapply copied_child; [exact U | exact Hsz | exact KS | eapply copied_same; eassumption | lia].
Qed.

(** The outcomes of [copyuvm]. *)
Lemma copyuvm_result `{Image} fl hl pgdir pt lim sz hugesz s :
  uspace fl hl pgdir pt lim s -> 0 <= sz <= lim -> (forall v, 0 <= v < sz -> present (k_mem s) pt v = true) ->
  0 <= hugesz <= KERNBASE - HUGE_VA_OFFSET -> (0 < hugesz -> lim <= HUGE_VA_OFFSET) ->
  huge_part hl pgdir (nhuge hugesz) (k_mem s) -> (nhuge hugesz <= length hl)%nat \/ hl = [] ->
  unwound fl hl s (copyuvm pgdir sz hugesz s) \/
  exists d fl0 ptk s0 fl' ptc s1 s',
    copyuvm pgdir sz hugesz s = Ok d s' /\ d <> 0 /\ kernel_space fl hl s d fl0 ptk s0 /\
    copied hl pt s d fl0 ptk s0 (npages sz 0) [] fl' ptc s1 /\
    hcopied fl' hl pgdir d ptc s1 (nhuge hugesz) s' /\ (nhuge hugesz <= length hl)%nat.
Proof.
  intros U Hsz Hp Hhz Hlim Hhp Hfree. unfold copyuvm.
  destruct (setupkvm_result fl hl s (ps_inv _ _ _ _ _ (us_ps _ _ _ _ _ _ U)))
    as [(fl' & s' & E & R) | (d & fl0 & ptk & s0 & E & Hd & KS)].
  - left. erewrite bind_ok by exact E. exists fl', s'. split; [reflexivity | exact R].
  - erewrite bind_ok by exact E. destruct (Z.eqb_spec d 0); [contradiction|].
    assert (G0 : copied hl pt s d fl0 ptk s0 0 [] fl0 ptk s0)
      by (eapply grown_0, kbase_uspace, (ks_base _ _ _ _ _ _ _ KS)).
    destruct (copy_loop_spec fl hl pgdir pt lim sz s U Hsz Hp d fl0 ptk s0 KS (alloc_fuel PGSIZE sz 0) 0 fl0 ptk s0 G0)
      as (ok & fl' & ptc & s1 & E' & R); [lia | |].
    { unfold alloc_fuel, npages, PGSIZE. assert ((sz - 0 + 4095) / 4096 <= (sz - 0) / 4096 + 1) by zdm. lia. }
    erewrite bind_ok by exact E'. destruct ok.
    + destruct (copyhuge_result fl hl pgdir pt lim sz hugesz s d fl0 ptk s0 fl' ptc s1) as [C | C]; try assumption.
      * right. destruct C as (s' & Eh & C). exists d, fl0, ptk, s0, fl', ptc, s1, s'. erewrite bind_ok by exact Eh. auto 7.
      * left. destruct C as (s' & Eh & C). erewrite bind_ok by exact Eh.
        destruct (child_free _ _ _ _ _ _ _ C) as (fl1 & s2 & E1 & R1).
        exists fl1, s2. erewrite bind_ok by exact E1. split; [reflexivity | exact R1].
    + left. erewrite bind_ok by reflexivity. destruct (child_free _ _ _ _ _ _ _ R) as (fl1 & s2 & E1 & R1).
      exists fl1, s2. erewrite bind_ok by exact E1. split; [reflexivity | exact R1].
Qed.

(** Memory is the same but for the pages of [fl] and the 4 MB pages of [hl]. *)
Definition agree_off_free (fl hl : list Z) (m m' : mem) : Prop :=
  forall x, x - x mod 4096 ∉ fl -> (forall q, q ∈ hl -> ~ (q <= x < q + 4194304)) -> load8 m' x = load8 m x.

(** Both parts copied. *)
Section Both.
Context `{Image} (fl hl : list Z) (pgdir : Z) (pt : gmap Z Z) (lim sz hugesz : Z) (s : kstate).
Context (d : Z) (fl0 : list Z) (ptk : gmap Z Z) (s0 : kstate) (fl' : list Z) (ptc : gmap Z Z) (s1 s' : kstate).
Context (U : uspace fl hl pgdir pt lim s) (Hsz : 0 <= sz <= lim).
Context (Hp : forall v, 0 <= v < sz -> present (k_mem s) pt v = true).
Context (Hhz : 0 <= hugesz <= KERNBASE - HUGE_VA_OFFSET) (Hlim : 0 < hugesz -> lim <= HUGE_VA_OFFSET).
Context (Hhp : huge_part hl pgdir (nhuge hugesz) (k_mem s)).
Context (KS : kernel_space fl hl s d fl0 ptk s0).
Context (G : copied hl pt s d fl0 ptk s0 (npages sz 0) [] fl' ptc s1).
Context (C : hcopied fl' hl pgdir d ptc s1 (nhuge hugesz) s').

Let n : nat := nhuge hugesz.

Lemma both_np : 4096 * Z.of_nat (npages sz 0) <= lim /\ lim <= KERNBASE.
Proof.
  clear - U Hsz. pose proof (us_lim _ _ _ _ _ _ U). pose proof (us_lim_page _ _ _ _ _ _ U).
  split; [rewrite npages_eq by lia; zdm | assumption].
Qed.

Lemma both_n : Z.of_nat n = (hugesz + 4194303) / 4194304 /\ Z.of_nat n <= 392.
Proof. clear - Hhz. unfold n, nhuge, KERNBASE, HUGE_VA_OFFSET in *. rewrite Z2Nat.id; zdm. Qed.

Lemma both_child1 : child fl hl s d [] fl' ptc s1.
Proof. destruct both_np. eapply copied_child; [exact U | exact Hsz | exact KS | exact G | lia]. Qed.

Lemma both_d : d ∈ fl.
Proof. apply (kb_pages _ _ _ _ _ _ _ (ks_base _ _ _ _ _ _ _ KS)). left. left. reflexivity. Qed.

Lemma both_parent_page x : pt_page pgdir pt x -> x <> d.
Proof. intros Hx ->. apply (ps_apart _ _ _ _ _ (us_ps _ _ _ _ _ _ U) d Hx both_d). Qed.

Lemma both_parent_table i p : pt !! i = Some p -> p <> d.
Proof. intros Hi. apply both_parent_page. right. eauto. Qed.

Lemma both_child_table i p : ptc !! i = Some p -> p <> d.
Proof. intros Hi. apply (pd_some _ _ _ (ps_pd _ _ _ _ _ (us_ps _ _ _ _ _ _ (ch_space _ _ _ _ _ _ _ _ both_child1))) _ _ Hi). Qed.

Lemma both_page : page_ok pgdir.
Proof. apply (pd_page _ _ _ (ps_pd _ _ _ _ _ (us_ps _ _ _ _ _ _ U))). Qed.

Lemma both_ps : pspace fl' hl d ptc s1.
Proof. apply (us_ps _ _ _ _ _ _ (ch_space _ _ _ _ _ _ _ _ both_child1)). Qed.

Lemma both_parent1 : uspace fl' hl pgdir pt lim s1.
Proof.
  destruct both_child1 as [CU CF CM CP].
  eapply (kept_uspace fl); eauto; [apply CU | intros x Hx; rewrite CP, elem_of_cons, !elem_of_app; auto].
Qed.

Lemma both_huge1 : huge_part hl pgdir n (k_mem s1) /\
  forall k, 0 <= k < Z.of_nat n -> huge_slot (k_mem s1) pgdir k = huge_slot (k_mem s) pgdir k.
Proof.
  destruct both_n. eapply huge_part_kept; [exact both_page | | assumption | apply both_child1 | exact Hhp].
  apply (ps_apart _ _ _ _ _ (us_ps _ _ _ _ _ _ U)). left. reflexivity.
Qed.

Lemma both_parent : uspace fl' (drop n hl) pgdir pt lim s' /\
  forall v, u32 v -> hw_translate (k_mem s') pgdir v = hw_translate (k_mem s) pgdir v.
Proof.
  pose proof both_parent1 as U1. pose proof (ps_pd _ _ _ _ _ (us_ps _ _ _ _ _ _ U1)) as P1.
  assert (Hpd : forall v, u32 v -> pd_ok (k_mem s') pgdir pt /\
    hw_translate (k_mem s') pgdir v = hw_translate (k_mem s1) pgdir v).
  { intros v Hv. eapply hc_hw_parent; eauto using both_ps, both_page, both_parent_table.
    apply both_parent_page. left. reflexivity. }
  split.
  - eapply hc_uspace_kept; eauto using both_ps, both_parent_table; [apply (Hpd 0); unfold u32; lia | lia | apply U1 |].
    intros v Hv. apply (hc_word fl' hl pgdir d ptc s1 both_ps n s'); auto using both_page.
    + apply both_parent_page. left. reflexivity.
    + apply PDX_range. destruct both_np. unfold u32, KERNBASE in *. lia.
  - intros v Hv. rewrite (proj2 (Hpd v Hv)). apply (kept_hw _ _ _ _ _ _ U _ (ch_mem _ _ _ _ _ _ _ _ both_child1) v Hv).
Qed.

Lemma both_mem : agree_off_free fl hl (k_mem s) (k_mem s').
Proof.
  intros x Hx Hh. rewrite (hc_mem _ _ _ _ _ _ _ _ C).
  - apply (ch_mem _ _ _ _ _ _ _ _ both_child1), Hx.
  - pose proof (pd_page _ _ _ (ps_pd _ _ _ _ _ both_ps)) as [Hd _]. intros Hr. apply Hx.
    replace (x - x mod 4096) with d by zdm. exact both_d.
  - exact Hh.
Qed.

Lemma both_child : uspace fl' (drop n hl) d ptc (if hugesz =? 0 then KERNBASE else HUGE_VA_OFFSET) s'.
Proof.
  pose proof (ps_pd _ _ _ _ _ (hc_ps _ _ _ _ _ _ _ _ C)) as P.
  eapply hc_uspace_kept; eauto using both_ps, both_child_table; [apply both_child1 | | |].
  - unfold KERNBASE, HUGE_VA_OFFSET. destruct (hugesz =? 0); lia.
  - destruct (hugesz =? 0); reflexivity.
  - intros v Hv. destruct both_n as [En _]. fold n in C.
    assert (u32 v) by (unfold u32, KERNBASE, HUGE_VA_OFFSET in *; destruct (hugesz =? 0); lia).
    apply (hc_pde _ _ _ _ _ _ _ _ C); [apply PDX_range; assumption|]. rewrite PDX_div by assumption.
    unfold HUGE_VA_PDX, HUGE_VA_OFFSET in *. destruct (Z.eqb_spec hugesz 0) as [E | E]; [rewrite E in En; zdm | zdm].
Qed.

Lemma both_pages : fl ≡ₚ d :: tables ptc 0 1024 ++ frames (k_mem s') ptc 0 (npages sz 0) ++ fl'.
Proof.
  destruct both_np as [Hn Hl]. pose proof (ch_pages _ _ _ _ _ _ _ _ both_child1) as CP.
  erewrite copied_frames in CP; [|exact KS | exact G | lia]. cbn [app] in CP.
  rewrite (frames_ext (k_mem s1) (k_mem s') ptc ptc); [exact CP|]. intros v Hv.
  eapply hc_pteval; eauto using both_ps, both_child_table; [apply (ps_pd _ _ _ _ _ both_ps)|].
  unfold u32, KERNBASE in *. lia.
Qed.

Lemma both_small v : 0 <= v < 4096 * Z.of_nat (npages sz 0) -> exists q u w, q ∈ fl /\
  hw_translate (k_mem s) pgdir v = Some (V2P (frame (k_mem s) pt v) + v mod 4096, u, w) /\
  hw_translate (k_mem s') d v = Some (V2P q + v mod 4096, u, w) /\
  load8 (k_mem s') (q + v mod 4096) = load8 (k_mem s) (frame (k_mem s) pt v + v mod 4096).
Proof.
  intros Hv. destruct both_np as [Hn Hl]. destruct both_n as [En _].
  assert (Hv' : u32 v) by (unfold u32, KERNBASE in *; lia).
  edestruct (copied_sees fl hl pgdir pt lim sz s) as (q & u & w & Hq & Hqo & Hqd & E1 & E2 & B); [exact U | exact Hsz | exact Hp | exact KS | exact G | reflexivity | exact Hv |].
  exists q, u, w. split; [exact Hq|]. split; [exact E1|]. split.
  - rewrite <- E2. eapply hc_hw_child; eauto using both_ps. fold n. intros Hr.
    destruct (decide (hugesz = 0)) as [E | E]; [rewrite E in En; zdm | specialize (Hlim ltac:(lia)); lia].
  - rewrite <- B. apply (hc_byte fl' hl pgdir d ptc s1 both_ps n s'); auto. zdm.
Qed.

Lemma both_huge j v :
  (j < n)%nat -> (n <= length hl)%nat -> 0 <= v - (HUGE_VA_OFFSET + 4194304 * Z.of_nat j) < 4194304 ->
  exists q u w, hl !! j = Some q /\
    hw_translate (k_mem s) pgdir v = Some (V2P (huge_frame (k_mem s) pgdir (Z.of_nat j)) + v mod 4194304, u, w) /\
    hw_translate (k_mem s') d v = Some (V2P q + v mod 4194304, u, w) /\
    load8 (k_mem s') (q + v mod 4194304) =
      load8 (k_mem s) (huge_frame (k_mem s) pgdir (Z.of_nat j) + v mod 4194304).
Proof.
  intros Hj Hle Hv. destruct (lookup_lt_is_Some_2 hl j ltac:(lia)) as [q Hq]. destruct both_n as [_ Hn].
  destruct both_huge1 as [Hh1 Eh]. specialize (Eh (Z.of_nat j) ltac:(lia)).
  assert (Hv' : u32 v) by (unfold u32, HUGE_VA_OFFSET in *; lia).
  assert (Ev : PDX v = HUGE_VA_PDX + Z.of_nat j)
    by (rewrite PDX_div by exact Hv'; unfold HUGE_VA_OFFSET, HUGE_VA_PDX in *; zdm).
  destruct (hc_hw_huge fl' hl pgdir d ptc n s1 both_ps Hh1 n s' j q v C Hj (Nat.le_refl n) Hq Ev) as (u & w & E1 & E2 & B).
  assert (Ef : huge_frame (k_mem s1) pgdir (Z.of_nat j) = huge_frame (k_mem s) pgdir (Z.of_nat j))
    by (unfold huge_frame; rewrite Eh; reflexivity). rewrite Ef in *.
  exists q, u, w. split; [exact Hq|]. split; [|split; [exact E2|]].
  - rewrite <- E1. symmetry. apply (kept_hw _ _ _ _ _ _ U _ (ch_mem _ _ _ _ _ _ _ _ both_child1) v Hv').
  - rewrite B. apply (ch_mem _ _ _ _ _ _ _ _ both_child1). intros Hx.
    destruct (Hhp (Z.of_nat j) ltac:(lia)) as (_ & _ & Hok & _).
    pose proof (ki_ok _ _ _ (ps_inv _ _ _ _ _ (us_ps _ _ _ _ _ _ U))) as F. rewrite Forall_forall in F.
    pose proof (page_huge_apart _ _ (F _ Hx) Hok). zdm.
Qed.

Lemma both_other v :
  u32 v -> 4096 * Z.of_nat (npages sz 0) <= v ->
  ~ (HUGE_VA_OFFSET <= v < HUGE_VA_OFFSET + 4194304 * Z.of_nat n) -> hw_translate (k_mem s') d v = kernel_view v.
Proof.
  intros Hv Hge Hr. rewrite <- (kernel_space_hw _ _ _ _ _ _ _ v KS Hv).
  transitivity (hw_translate (k_mem s1) d v); [eapply hc_hw_child; eauto using both_ps|].
  eapply grown_hw; [eapply kbase_uspace, (ks_base _ _ _ _ _ _ _ KS) | exact G | exact Hv | lia].
Qed.

End Both.

(** C4 (vm.c, [copyuvm]): what fork does to memory.  The process has [sz]
    bytes with all their pages present, and [hugesz] bytes in 4 MB pages at
    HUGE_VA_OFFSET; there are enough free 4 MB pages, or none.  Then [copyuvm]
    either runs out of memory, returning 0 with every page back on its free
    list, or returns a new page directory in which every address of the two
    parts has the parent's permissions and reads the parent's byte from a page
    of its own that was free; no other user address is mapped, and the kernel
    half is that of [setupkvm].  The parent's address space and all memory but
    the pages taken are unchanged, and every page taken belongs to the child. *)
Theorem copyuvm_copies `{Image} fl hl pgdir pt lim sz hugesz s :
  uspace fl hl pgdir pt lim s -> 0 <= sz <= lim -> (forall v, 0 <= v < sz -> present (k_mem s) pt v = true) ->
  0 <= hugesz <= KERNBASE - HUGE_VA_OFFSET -> (0 < hugesz -> lim <= HUGE_VA_OFFSET) ->
  huge_part hl pgdir (nhuge hugesz) (k_mem s) -> (nhuge hugesz <= length hl)%nat \/ hl = [] ->
  exists r fl' hl' s', copyuvm pgdir sz hugesz s = Ok r s' /\ kframe s s' /\ uspace fl' hl' pgdir pt lim s' /\
    agree_off_free fl hl (k_mem s) (k_mem s') /\
    (forall v, u32 v -> hw_translate (k_mem s') pgdir v = hw_translate (k_mem s) pgdir v) /\
    (r = 0 /\ fl' ≡ₚ fl /\ hl' = hl \/
     r <> 0 /\ hl' = drop (nhuge hugesz) hl /\
     exists ptc, uspace fl' hl' r ptc (if hugesz =? 0 then KERNBASE else HUGE_VA_OFFSET) s' /\
       fl ≡ₚ r :: tables ptc 0 1024 ++ frames (k_mem s') ptc 0 (npages sz 0) ++ fl' /\
       (forall v, 0 <= v < 4096 * Z.of_nat (npages sz 0) -> exists q u w, q ∈ fl /\
          hw_translate (k_mem s) pgdir v = Some (V2P (frame (k_mem s) pt v) + v mod 4096, u, w) /\
          hw_translate (k_mem s') r v = Some (V2P q + v mod 4096, u, w) /\
          load8 (k_mem s') (q + v mod 4096) = load8 (k_mem s) (frame (k_mem s) pt v + v mod 4096)) /\
       (forall j v, (j < nhuge hugesz)%nat -> 0 <= v - (HUGE_VA_OFFSET + 4194304 * Z.of_nat j) < 4194304 ->
          exists q u w, hl !! j = Some q /\
          hw_translate (k_mem s) pgdir v =
            Some (V2P (huge_frame (k_mem s) pgdir (Z.of_nat j)) + v mod 4194304, u, w) /\
          hw_translate (k_mem s') r v = Some (V2P q + v mod 4194304, u, w) /\
          load8 (k_mem s') (q + v mod 4194304) =
            load8 (k_mem s) (huge_frame (k_mem s) pgdir (Z.of_nat j) + v mod 4194304)) /\
       (forall v, u32 v -> 4096 * Z.of_nat (npages sz 0) <= v ->
          ~ (HUGE_VA_OFFSET <= v < HUGE_VA_OFFSET + 4194304 * Z.of_nat (nhuge hugesz)) ->
          hw_translate (k_mem s') r v = kernel_view v)).
Proof.
  intros U Hsz Hp Hhz Hlim Hhp Hfree. pose proof (us_lim _ _ _ _ _ _ U) as Hl.
  pose proof (us_lim_page _ _ _ _ _ _ U) as Hlp.
  assert (Hn : 4096 * Z.of_nat (npages sz 0) <= lim)
    by (rewrite npages_eq by lia; zdm).
  destruct (copyuvm_result fl hl pgdir pt lim sz hugesz s U Hsz Hp Hhz Hlim Hhp Hfree)
    as [(fl' & s' & E & I & F & L & A) | (d & fl0 & ptk & s0 & fl' & ptc & s1 & s' & E & Hd & KS & G & C & Hle)].
  - exists 0, fl', hl, s'. split; [exact E|]. split; [exact F|].
    split; [eapply (kept_uspace fl); eauto; intros x; rewrite L; auto|]. split; [intros x Hx _; apply A, Hx|].
    split; [intros v Hv; apply (kept_hw _ _ _ _ _ _ U _ A v Hv) | auto].
  - exists d, fl', (drop (nhuge hugesz) hl), s'. split; [exact E|].
    split; [etransitivity; [eapply ch_frame, both_child1; eassumption | apply C]|].
    edestruct both_parent as [PU PH]; [eassumption..|]. split; [exact PU|]. split; [eapply both_mem; eassumption|].
    split; [exact PH|]. right. split; [exact Hd|]. split; [reflexivity|]. exists ptc.
    split; [eapply both_child; eassumption|]. split; [eapply both_pages; eassumption|].
    split; [intros v Hv; eapply both_small; eassumption|].
    split; [|intros v Hv Hge Hr; apply (both_other fl hl pgdir pt lim sz hugesz s d fl0 ptk s0 fl' ptc s1 s'); assumption].
    intros j v Hj Hv. eapply both_huge; eassumption.
Qed.

(** A process with one small and one 4 MB page, the latter at 0x1E000000 in
    physical memory; the next page of the reserved region is free. *)
Definition huge_user : kstate :=
  set_khugemem (mkKhugemem true 0x9E400000)
    (set_mem (store32 (k_mem one_user) (0x80401000 + 4 * 120) 0x1E000087) one_user).

Lemma huge_user_word x : x + 4 <= 0x804011E0 \/ 0x804011E4 <= x -> load32 (k_mem huge_user) x = load32 (k_mem one_user) x.
Proof. intros Hx. unfold huge_user. cbn [k_mem set_khugemem set_mem]. rewrite load32_store32_disj by lia. reflexivity. Qed.

Lemma huge_user_pte v : u32 v ->
  pteval (k_mem huge_user) {[ 0 := 0x80402000 ]} v = pteval (k_mem one_user) {[ 0 := 0x80402000 ]} v.
Proof.
  intros Hv. unfold pteval. destruct (_ !! PDX v) as [p|] eqn:E; [|reflexivity].
  apply lookup_singleton_Some in E as [_ <-]. pose proof (PTX_range v Hv). apply huge_user_word. lia.
Qed.

Lemma huge_user_uspace :
  @uspace build_image [0x80400000] [0x9E400000] 0x80401000 {[ 0 := 0x80402000 ]} 4096 huge_user.
Proof.
  destruct (one_user_uspace 4096 ltac:(unfold KERNBASE; lia) eq_refl) as [[I P A] U1 U2 U3 U4 U5].
  assert (V : forall v, 0 <= v < 4096 -> pteval (k_mem huge_user) {[ 0 := 0x80402000 ]} v =
    pteval (k_mem one_user) {[ 0 := 0x80402000 ]} v) by (intros v Hv; apply huge_user_pte; unfold u32; lia).
  constructor; [constructor | exact U1 | exact U2 | | |].
  - destruct I as [I1 I2 I3 I4 I5 I6 I7 I8 I9]. constructor; try assumption; [cpuok | | |].
    + cbn. repeat split; try discriminate.
    + repeat constructor; vm_compute; discriminate.
    + repeat constructor. intros Hx. inversion Hx.
  - destruct P as [P1 P2 P3 P4]. constructor; [exact P1 | | | exact P4].
    + intros i p Hi. destruct (P2 i p Hi) as (R & Q1 & Q2 & Q3). split; [exact R|]. split; [exact Q1|]. split; [exact Q2|].
      apply lookup_singleton_Some in Hi as [<- _]. exact Q3.
    + intros i Hi Hn. destruct (decide (i = 120)) as [-> | Hne]; [right; split; reflexivity|].
      unfold pde_at. rewrite huge_user_word by lia. apply (P3 i Hi Hn).
  - exact A.
  - intros v Hv Hn. exfalso. rewrite PDX_div in Hn by (unfold u32; lia).
    replace (v / 4194304) with 0 in Hn by zdm. rewrite lookup_singleton_eq in Hn. discriminate.
  - intros v Hv. unfold present, frame. rewrite V by exact Hv. apply U4, Hv.
  - intros v w Hv Hw. unfold present, frame. rewrite !V by assumption. apply U5; assumption.
Qed.

Lemma copyuvm_copies_witness :
  exists r fl' hl' s', @copyuvm build_image 0x80401000 4096 4194304 huge_user = Ok r s' /\
    @uspace build_image fl' hl' 0x80401000 {[ 0 := 0x80402000 ]} 4096 s' /\
    (r = 0 \/ r ∈ [0x80400000] /\ hw_translate (k_mem s') r 0x1E000007 = Some (0x1E400007, true, true)).
Proof.
  destruct (@copyuvm_copies build_image [0x80400000] [0x9E400000] 0x80401000 {[ 0 := 0x80402000 ]} 4096 4096 4194304 huge_user)
    as (r & fl' & hl' & s' & E & _ & U & _ & _ & R).
  - exact huge_user_uspace.
  - lia.
  - intros v Hv. unfold present. rewrite huge_user_pte, one_user_pte by (unfold u32; lia).
    rewrite (proj2 (Z.ltb_lt v 4096)) by lia. reflexivity.
  - unfold KERNBASE, HUGE_VA_OFFSET. lia.
  - unfold HUGE_VA_OFFSET. lia.
  - intros k Hk. change (Z.of_nat (nhuge 4194304)) with 1 in Hk. assert (k = 0) as -> by lia.
    split; [reflexivity|]. split; [reflexivity|]. split; [repeat split; vm_compute; discriminate|].
    intros Hx. apply list_elem_of_singleton in Hx. vm_compute in Hx. discriminate.
  - left. vm_compute. lia.
  - exists r, fl', hl', s'. split; [exact E|]. split; [exact U|].
    destruct R as [[R _] | (_ & _ & ptc & _ & L & _ & B & _)]; [auto|].
    right. split; [rewrite L; apply list_elem_of_here|].
    destruct (B 0%nat 0x1E000007) as (q & u & w & Eq & E1 & E2 & _); [vm_compute; lia | unfold HUGE_VA_OFFSET; lia|].
    injection Eq as <-. vm_compute in E1. injection E1 as <- <-. rewrite E2. reflexivity.
Defined.
