(* ===== verification/Sched.v ===== *)
(** * solution/proc.c: the process table, scheduling, sleep and wakeup

    The functions of proc.c that need no file system; userinit, fork, exit
    and forkret are in Proc.v.  A pointer into [ptable.proc] is an index.
    [swtch] suspends the computation: it continues when the scheduler, or the
    process, switches back. *)

From Stdlib Require Import ZArith Lia FunctionalExtensionality.
From stdpp Require Import base list strings gmap.
From S2P Require Import Prelude Mem Mmu Kernel Spinlock Kalloc Vm VmFacts.

(** ** Definitions *)

Definition set_p_sz v p := mkProc v (p_hugesz p) (p_pgdir p) (p_kstack p) (p_state p) (p_pid p) (p_parent p) (p_tf p) (p_context p) (p_chan p) (p_killed p) (p_ofile p) (p_cwd p) (p_name p).
Definition set_p_hugesz v p := mkProc (p_sz p) v (p_pgdir p) (p_kstack p) (p_state p) (p_pid p) (p_parent p) (p_tf p) (p_context p) (p_chan p) (p_killed p) (p_ofile p) (p_cwd p) (p_name p).
Definition set_p_pgdir v p := mkProc (p_sz p) (p_hugesz p) v (p_kstack p) (p_state p) (p_pid p) (p_parent p) (p_tf p) (p_context p) (p_chan p) (p_killed p) (p_ofile p) (p_cwd p) (p_name p).
Definition set_p_kstack v p := mkProc (p_sz p) (p_hugesz p) (p_pgdir p) v (p_state p) (p_pid p) (p_parent p) (p_tf p) (p_context p) (p_chan p) (p_killed p) (p_ofile p) (p_cwd p) (p_name p).
Definition set_p_state v p := mkProc (p_sz p) (p_hugesz p) (p_pgdir p) (p_kstack p) v (p_pid p) (p_parent p) (p_tf p) (p_context p) (p_chan p) (p_killed p) (p_ofile p) (p_cwd p) (p_name p).
Definition set_p_pid v p := mkProc (p_sz p) (p_hugesz p) (p_pgdir p) (p_kstack p) (p_state p) v (p_parent p) (p_tf p) (p_context p) (p_chan p) (p_killed p) (p_ofile p) (p_cwd p) (p_name p).
Definition set_p_parent v p := mkProc (p_sz p) (p_hugesz p) (p_pgdir p) (p_kstack p) (p_state p) (p_pid p) v (p_tf p) (p_context p) (p_chan p) (p_killed p) (p_ofile p) (p_cwd p) (p_name p).
Definition set_p_tf v p := mkProc (p_sz p) (p_hugesz p) (p_pgdir p) (p_kstack p) (p_state p) (p_pid p) (p_parent p) v (p_context p) (p_chan p) (p_killed p) (p_ofile p) (p_cwd p) (p_name p).
Definition set_p_context v p := mkProc (p_sz p) (p_hugesz p) (p_pgdir p) (p_kstack p) (p_state p) (p_pid p) (p_parent p) (p_tf p) v (p_chan p) (p_killed p) (p_ofile p) (p_cwd p) (p_name p).
Definition set_p_chan v p := mkProc (p_sz p) (p_hugesz p) (p_pgdir p) (p_kstack p) (p_state p) (p_pid p) (p_parent p) (p_tf p) (p_context p) v (p_killed p) (p_ofile p) (p_cwd p) (p_name p).
Definition set_p_killed v p := mkProc (p_sz p) (p_hugesz p) (p_pgdir p) (p_kstack p) (p_state p) (p_pid p) (p_parent p) (p_tf p) (p_context p) (p_chan p) v (p_ofile p) (p_cwd p) (p_name p).
Definition set_p_ofile v p := mkProc (p_sz p) (p_hugesz p) (p_pgdir p) (p_kstack p) (p_state p) (p_pid p) (p_parent p) (p_tf p) (p_context p) (p_chan p) (p_killed p) v (p_cwd p) (p_name p).
Definition set_p_cwd v p := mkProc (p_sz p) (p_hugesz p) (p_pgdir p) (p_kstack p) (p_state p) (p_pid p) (p_parent p) (p_tf p) (p_context p) (p_chan p) (p_killed p) (p_ofile p) v (p_name p).
Definition set_p_name v p := mkProc (p_sz p) (p_hugesz p) (p_pgdir p) (p_kstack p) (p_state p) (p_pid p) (p_parent p) (p_tf p) (p_context p) (p_chan p) (p_killed p) (p_ofile p) (p_cwd p) v.

(** [ptable.proc[i]]; a null pointer faults. *)
Definition get_proc (i : nat) : K proc := fun s =>
  match k_procs s !! i with Some p => Ok p s | None => Fault end.
Definition upd_proc (i : nat) (f : proc -> proc) : K unit :=
  modify (fun s => set_procs (alter f i (k_procs s)) s).
Definition deref {A} (p : option A) : K A := match p with Some x => ret x | None => fault end.

Definition pinit : K unit := initlock LPtable "ptable".

Definition myproc : K (option nat) :=
  pushcli ;;
  let! c := mycpu in
  popcli ;;
  ret (c_proc c).

(** The first entry from [i] on in a given state. *)
Fixpoint find_state (st : procstate) (ps : list proc) (i : nat) : option nat :=
  match ps with
  | [] => None
  | p :: ps' => if decide (p_state p = st) then Some i else find_state st ps' (S i)
  end.

(** sizeof(struct trapframe) is 76 and sizeof(struct context) is 20, with
    [eip] at offset 16. *)
Definition allocproc `{Image} : K (option nat) :=
  acquire LPtable ;;
  let! ps := gets k_procs in
  match find_state UNUSED ps 0 with
  | None => release LPtable ;; ret None
  | Some i =>
      upd_proc i (set_p_state EMBRYO) ;;
      let! pid := gets k_nextpid in
      upd_proc i (set_p_pid pid) ;;
      modify (set_nextpid (s32 (pid + 1))) ;;
      release LPtable ;;
      let! kstack := kalloc in
      upd_proc i (set_p_kstack kstack) ;;
      if kstack =? 0 then upd_proc i (set_p_state UNUSED) ;; ret None
      else
        let tf := w32 (kstack + KSTACKSIZE - 76) in
        let sp := w32 (tf - 4) in
        st32 sp img_trapret ;;
        let ctx := w32 (sp - 20) in
        upd_proc i (set_p_context ctx) ;;
        kmemset ctx 0 20 ;;
        st32 (w32 (ctx + 16)) img_forkret ;;
        ret (Some i)
  end.

(** [n] is an int; [sz + n] is computed in [uint]. *)
Definition growproc `{Image} (n : Z) : K Z :=
  let! cur := myproc in
  let! i := deref cur in
  let! p := get_proc i in
  let sz := p_sz p in
  let! r :=
    (if 0 <? n then
       let! sz' := allocuvm (p_pgdir p) sz (w32 (sz + n)) in
       ret (if sz' =? 0 then None else Some sz')
     else if n <? 0 then
       let! sz' := deallocuvm (p_pgdir p) sz (w32 (sz + n)) in
       ret (if sz' =? 0 then None else Some sz')
     else ret (Some sz)) in
  match r with
  | None => ret (-1)
  | Some sz' =>
      upd_proc i (set_p_sz sz') ;;
      switchuvm cur ;;
      ret 0
  end.

Definition growhugeproc `{Image} (n : Z) : K Z :=
  let! cur := myproc in
  let! i := deref cur in
  let! p := get_proc i in
  let sz := p_hugesz p in
  let! r :=
    (if 0 <? n then
       let! sz' := allochugeuvm (p_pgdir p) (w32 (sz + HUGE_VA_OFFSET))
                     (w32 (sz + n + HUGE_VA_OFFSET)) in
       ret (if sz' =? 0 then None else Some sz')
     else if n <? 0 then
       let! sz' := deallocuvm (p_pgdir p) sz (w32 (sz + n)) in
       ret (if sz' =? 0 then None else Some sz')
     else ret (Some sz)) in
  match r with
  | None => ret (-1)
  | Some sz' =>
      upd_proc i (set_p_hugesz (w32 (sz' - HUGE_VA_OFFSET))) ;;
      switchuvm cur ;;
      ret 0
  end.

(** swtch.S: save this context, load the other one. *)
Definition swtch : K unit := fun s => Switch s (fun s' => Ok tt s').

Definition sched : K unit :=
  let! cur := myproc in
  let! h := holding LPtable in
  if negb h then panic "sched ptable.lock"
  else
    let! c := mycpu in
    if negb (c_ncli c =? 1) then panic "sched locks"
    else
      let! i := deref cur in
      let! p := get_proc i in
      if decide (p_state p = RUNNING) then panic "sched running"
      else
        let! fl := readeflags_if in
        if (fl : bool) then panic "sched interruptible"
        else
          let! c := mycpu in
          let intena := c_intena c in
          swtch ;;
          let! _ := mycpu in
          upd_cpu (set_c_intena intena).

Definition yield : K unit :=
  acquire LPtable ;;
  let! cur := myproc in
  let! i := deref cur in
  upd_proc i (set_p_state RUNNABLE) ;;
  sched ;;
  release LPtable.

(** The statements of a function, one after the other. *)
Fixpoint in_turn (code : list (K unit)) : K unit :=
  match code with
  | [] => ret tt
  | [a] => a
  | a :: code' => a ;; in_turn code'
  end.

(** The statements of [sleep] after its checks, for process [i]. *)
Definition sleep_code (i : nat) (ch : chan) (lk : lockid) : list (K unit) :=
  (if bool_decide (lk <> LPtable) then [acquire LPtable; release lk] else []) ++
  [upd_proc i (set_p_chan ch);
   upd_proc i (set_p_state SLEEPING);
   sched;
   upd_proc i (set_p_chan NoChan)] ++
  (if bool_decide (lk <> LPtable) then [release LPtable; acquire lk] else []).

Definition sleep (ch : chan) (lk : option lockid) : K unit :=
  let! cur := myproc in
  match cur, lk with
  | None, _ => panic "sleep"
  | Some _, None => panic "sleep without lk"
  | Some i, Some lk => in_turn (sleep_code i ch lk)
  end.

Definition wake (ch : chan) (p : proc) : proc :=
  if decide (p_state p = SLEEPING /\ p_chan p = ch) then set_p_state RUNNABLE p else p.
Definition wakeup1 (ch : chan) : K unit :=
  modify (fun s => set_procs (map (wake ch) (k_procs s)) s).
Definition wakeup_code (ch : chan) : list (K unit) :=
  [acquire LPtable; wakeup1 ch; release LPtable].
Definition wakeup (ch : chan) : K unit := in_turn (wakeup_code ch).

Fixpoint find_pid (pid : Z) (ps : list proc) (i : nat) : option nat :=
  match ps with
  | [] => None
  | p :: ps' => if p_pid p =? pid then Some i else find_pid pid ps' (S i)
  end.

Definition kill (pid : Z) : K Z :=
  acquire LPtable ;;
  let! ps := gets k_procs in
  match find_pid pid ps 0 with
  | Some i =>
      upd_proc i (set_p_killed 1) ;;
      upd_proc i (fun p => if decide (p_state p = SLEEPING) then set_p_state RUNNABLE p else p) ;;
      release LPtable ;;
      ret 0
  | None => release LPtable ;; ret (-1)
  end.

(** One scan of [wait] over [n] entries from [i] on: the pid of a child that
    was reaped, or whether there are children. *)
Fixpoint wait_scan `{Image} (cur : option nat) (i n : nat) (havekids : bool) : K (bool + Z) :=
  match n with
  | O => ret (inl havekids)
  | S n' =>
      let! p := get_proc i in
      if decide (p_parent p = cur) then
        if decide (p_state p = ZOMBIE) then
          let pid := p_pid p in
          kfree (p_kstack p) ;;
          upd_proc i (set_p_kstack 0) ;;
          freevm (p_pgdir p) ;;
          upd_proc i (set_p_pid 0) ;;
          upd_proc i (set_p_parent None) ;;
          upd_proc i (fun p => set_p_name (<[0%nat := 0]> (p_name p)) p) ;;
          upd_proc i (set_p_killed 0) ;;
          upd_proc i (set_p_state UNUSED) ;;
          release LPtable ;;
          ret (inr pid)
        else wait_scan cur (S i) n' true
      else wait_scan cur (S i) n' havekids
  end.

(** [wait], for at most [fuel] rounds of sleeping. *)
Fixpoint wait_loop `{Image} (cur : option nat) (fuel : nat) : K Z :=
  match fuel with
  | O => nofuel
  | S f =>
      let! r := wait_scan cur 0 NPROC false in
      match r with
      | inr pid => ret pid
      | inl havekids =>
          let! stop :=
            (if negb havekids then ret true
             else
               let! i := deref cur in
               let! p := get_proc i in
               ret (negb (p_killed p =? 0))) in
          if (stop : bool) then release LPtable ;; ret (-1)
          else
            let! i := deref cur in
            sleep (ChProc i) (Some LPtable) ;;
            wait_loop cur f
      end
  end.

Definition wait `{Image} (fuel : nat) : K Z :=
  let! cur := myproc in
  acquire LPtable ;;
  wait_loop cur fuel.

Definition set_c_proc v c := mkCpu (c_apicid c) (c_ncli c) (c_intena c) (c_if c) v (c_cr3 c) (c_gdt c) (c_tss_addr c) (c_esp0 c) (c_ss0 c) (c_iomb c) (c_tr c).

(** The inner loop of [scheduler], from entry [i] on. *)
Fixpoint scheduler_scan (i n : nat) : K unit :=
  match n with
  | O => ret tt
  | S n' =>
      let! p := get_proc i in
      (if decide (p_state p = RUNNABLE) then
         upd_cpu (set_c_proc (Some i)) ;;
         switchuvm (Some i) ;;
         upd_proc i (set_p_state RUNNING) ;;
         swtch ;;
         switchkvm ;;
         upd_cpu (set_c_proc None)
       else ret tt) ;;
      scheduler_scan (S i) n'
  end.

(** [scheduler] for [fuel] rounds over the table; it never returns. *)
Fixpoint scheduler_loop (fuel : nat) : K unit :=
  match fuel with
  | O => nofuel
  | S f =>
      sti ;;
      acquire LPtable ;;
      scheduler_scan 0 NPROC ;;
      release LPtable ;;
      scheduler_loop f
  end.
Definition scheduler (fuel : nat) : K unit :=
  let! _ := mycpu in
  upd_cpu (set_c_proc None) ;;
  scheduler_loop fuel.

(** ** Lemmas on single operations *)

Lemma touch_id s : 0 < c_ncli (k_cpu s) -> touch s = s.
Proof.
  intros Hn. unfold touch, touch_cpu. destruct (Z.eqb_spec (c_ncli (k_cpu s)) 0); [lia|].
  destruct s as [m c]; destruct c; reflexivity.
Qed.

Lemma myproc_ok s : cpu_ok s -> myproc s = Ok (c_proc (k_cpu s)) (touch s).
Proof.
  intros [H Hn Hm]. unfold myproc. erewrite bind_ok by (apply pushcli_ok; exact H).
  erewrite bind_ok by (apply mycpu_ok; [exact H | reflexivity]).
  erewrite bind_ok by (apply popcli_ok; [exact H | reflexivity | cbn; lia]).
  unfold ret, touch. cbn [k_cpu set_cpu]. rewrite pop_push by assumption. destruct s; reflexivity.
Qed.

Lemma get_proc_ok i p s : k_procs s !! i = Some p -> get_proc i s = Ok p s.
Proof. unfold get_proc. intros ->. reflexivity. Qed.

Lemma upd_proc_ok i f p s :
  k_procs s !! i = Some p -> upd_proc i f s = Ok tt (set_procs (<[i := f p]> (k_procs s)) s).
Proof.
  intros E. unfold upd_proc, modify. do 2 f_equal. apply list_eq. intros j.
  destruct (decide (j = i)) as [-> | Hne].
  - rewrite list_lookup_alter_eq, E, list_lookup_insert_eq by (eapply lookup_lt_Some; exact E). reflexivity.
  - rewrite list_lookup_alter_ne, list_lookup_insert_ne by congruence. reflexivity.
Qed.

(** This CPU holds lock [l], and only [n] locks altogether. *)
Record holds (l : lockid) (n : Z) (s : kstate) : Prop := {
  ho_cpu : cpu_ok s;
  ho_ncli : c_ncli (k_cpu s) = n;
  ho_lock : exists nm, k_locks s l = mkSpinlock 1 nm (Some (c_apicid (k_cpu s))) }.

Lemma holds_holding l n s : holds l n s -> 0 < n -> holding l s = Ok true s.
Proof.
  intros [Hc Hn [nm Hl]] Hp. rewrite holding_ok by exact Hc. rewrite Hl. cbn [sl_locked sl_cpu].
  rewrite bool_decide_eq_true_2 by reflexivity. rewrite touch_id by lia. reflexivity.
Qed.

Lemma locked_holds l s : cpu_ok s -> holds l (c_ncli (k_cpu s) + 1) (locked_state l s).
Proof.
  intros Hc. constructor.
  - destruct (cpu_ok_push s Hc). constructor; assumption.
  - reflexivity.
  - exists (sl_name (k_locks s l)). unfold locked_state. cbn [k_locks set_locks]. rewrite fupd_eq. reflexivity.
Qed.

(** Releasing one of several locks. *)
Definition unlocked_state (l : lockid) (s : kstate) : kstate :=
  set_locks (fupd (k_locks s) l (mkSpinlock 0 (sl_name (k_locks s l)) None)) (set_cpu (pop_cpu (k_cpu s)) s).

Lemma release_holds l n s : holds l n s -> 0 < n -> release l s = Ok tt (unlocked_state l s).
Proof.
  intros [Hc Hn [nm Hl]] Hp. rewrite (release_ok l s nm Hc ltac:(lia) Hl).
  unfold unlocked_state. rewrite Hl. reflexivity.
Qed.

Lemma cpu_ok_pop s : cpu_ok s -> 0 < c_ncli (k_cpu s) -> cpu_ok (set_cpu (pop_cpu (k_cpu s)) s).
Proof.
  intros [Hk Hp Hm] Hn. constructor; cbn; [exact Hk | lia |]. intros Hpos.
  rewrite (Hm Hn). destruct (Z.eqb_spec (c_ncli (k_cpu s) - 1) 0); [lia | reflexivity].
Qed.

Lemma holds_unlock l l' n s :
  holds l n s -> holds l' n s -> l <> l' -> 1 < n -> holds l (n - 1) (unlocked_state l' s).
Proof.
  intros [Hc Hn [nm Hl]] _ Hne Hp. constructor.
  - destruct (cpu_ok_pop s Hc ltac:(lia)). constructor; assumption.
  - cbn. lia.
  - exists nm. unfold unlocked_state. cbn [k_locks set_locks k_cpu set_cpu].
    rewrite fupd_ne by exact Hne. exact Hl.
Qed.

(** [sched] switches away when it is called as it should be. *)
Lemma sched_switch s i p :
  holds LPtable 1 s -> c_proc (k_cpu s) = Some i -> k_procs s !! i = Some p -> p_state p <> RUNNING ->
  sched s = Switch s (fun s' => (let! _ := mycpu in upd_cpu (set_c_intena (c_intena (k_cpu s)))) s').
Proof.
  intros Hh Hc Hp Hs. pose proof Hh as [Ho Hn _].
  assert (Hif : c_if (k_cpu s) = false) by (apply (cpu_masked s Ho); lia).
  assert (Hm : mycpu s = Ok (k_cpu s) s) by (apply mycpu_ok; [apply Ho | exact Hif]).
  unfold sched. erewrite bind_ok by (apply myproc_ok, Ho). rewrite touch_id by lia.
  erewrite bind_ok by (eapply holds_holding; [exact Hh | lia]). cbn [negb].
  erewrite bind_ok by exact Hm. rewrite Hn. cbn [Z.eqb Pos.eqb negb]. rewrite Hc.
  erewrite bind_ok by reflexivity. erewrite bind_ok by (apply get_proc_ok, Hp).
  rewrite decide_False by exact Hs. unfold readeflags_if, gets. erewrite bind_ok by reflexivity.
  rewrite Hif. erewrite bind_ok by exact Hm. reflexivity.
Qed.

(** ** Sleep and wakeup *)

Lemma lookup_wake ch ps i : map (wake ch) ps !! i = wake ch <$> ps !! i.
Proof. apply list_lookup_fmap. Qed.

(** The process table of a process that has gone to sleep. *)
Definition asleep (ch : chan) (p : proc) : proc := set_p_state SLEEPING (set_p_chan ch p).

(** The rest of [sleep] after [swtch] has returned. *)
Definition sleep_rest (i : nat) (lk : lockid) (intena : bool) : K unit :=
  (let! _ := mycpu in upd_cpu (set_c_intena intena)) ;;
  upd_proc i (set_p_chan NoChan) ;;
  when (bool_decide (lk <> LPtable)) (release LPtable ;; acquire lk).

Lemma holds_procs l n s v : holds l n s -> holds l n (set_procs v s).
Proof. intros [Hc Hn Hl]. constructor; [cpuok | exact Hn | exact Hl]. Qed.

Lemma sleep_switches s i p ch lk :
  holds lk 1 s -> lk <> LPtable -> lock_free LPtable s ->
  c_proc (k_cpu s) = Some i -> k_procs s !! i = Some p ->
  let s1 := set_procs (<[i := asleep ch p]> (k_procs s)) (unlocked_state lk (locked_state LPtable s)) in
  holds LPtable 1 s1 /\ lock_free lk s1 /\
  sleep ch (Some lk) s = Switch s1 (sleep_rest i lk (c_intena (k_cpu s1))).
Proof.
  intros Hl Hne Hpt Hc Hp s1. pose proof Hl as [Ho Hn [nm Hlk]].
  assert (Hla : holds lk 2 (locked_state LPtable s)).
  { pose proof (locked_holds LPtable s Ho) as [H1 H2 _]. constructor; [exact H1 | rewrite H2; lia |].
    exists nm. unfold locked_state. cbn [k_locks set_locks k_cpu set_cpu].
    rewrite fupd_ne by congruence. exact Hlk. }
  assert (Hpa : holds LPtable 2 (locked_state LPtable s))
    by (pose proof (locked_holds LPtable s Ho) as H; rewrite Hn in H; exact H).
  assert (Hpb : holds LPtable 1 (unlocked_state lk (locked_state LPtable s)))
    by (apply (holds_unlock LPtable lk 2); auto; lia).
  assert (Hp1 : holds LPtable 1 s1) by (apply holds_procs, Hpb).
  split; [exact Hp1|]. split.
  { unfold lock_free, s1. cbn [k_locks set_procs unlocked_state set_locks]. rewrite fupd_eq. auto. }
  unfold sleep. erewrite bind_ok by (apply myproc_ok, Ho). rewrite touch_id by lia. rewrite Hc.
  unfold sleep_code. rewrite bool_decide_eq_true_2 by exact Hne. cbn [app in_turn].
  erewrite bind_ok by (apply acquire_ok; [exact Ho | apply Hpt]).
  erewrite bind_ok by (eapply release_holds; [exact Hla | lia]).
  erewrite bind_ok by (apply (upd_proc_ok i _ p); exact Hp).
  erewrite bind_ok by (apply (upd_proc_ok i _ (set_p_chan ch p)); cbn [k_procs set_procs];
    apply list_lookup_insert_eq; eapply lookup_lt_Some; exact Hp).
  cbn [k_procs set_procs]. rewrite list_insert_insert_eq.
  match goal with |- bind sched _ ?st = _ => change st with s1 end.
  rewrite bind_andthen, (sched_switch s1 i (asleep ch p) Hp1 Hc); [|cbn [k_procs set_procs s1];
    apply list_lookup_insert_eq; eapply lookup_lt_Some; exact Hp | discriminate].
  cbn [andthen]. f_equal. extensionality s2. unfold sleep_rest. rewrite <- !bind_andthen.
  rewrite bool_decide_eq_true_2 by exact Hne. reflexivity.
Qed.

(** The state in which [sleep] returns, when the scheduler comes back in [s]. *)
Definition resumed_state (i : nat) (lk : lockid) (b : bool) (q : proc) (s : kstate) : kstate :=
  locked_state lk (unlocked_state LPtable
    (set_procs (<[i := set_p_chan NoChan q]> (k_procs s)) (set_cpu (set_c_intena b (k_cpu s)) s))).

Lemma sleep_resumes s i q lk b :
  holds LPtable 1 s -> lk <> LPtable -> lock_free lk s -> k_procs s !! i = Some q ->
  let s' := resumed_state i lk b q s in
  sleep_rest i lk b s = Ok tt s' /\ holds lk 1 s' /\ lock_free LPtable s'.
Proof.
  intros [Ho Hn [nm Hl]] Hne Hf Hq s'. unfold sleep_rest.
  assert (Hif : c_if (k_cpu s) = false) by (apply (cpu_masked s Ho); lia).
  set (s1 := set_cpu (set_c_intena b (k_cpu s)) s).
  erewrite bind_ok by (erewrite bind_ok by (apply mycpu_ok; [apply Ho | exact Hif]); reflexivity).
  fold s1. erewrite bind_ok by (apply (upd_proc_ok i _ q); exact Hq).
  rewrite bool_decide_eq_true_2 by exact Hne. cbn [when].
  set (s2 := set_procs (<[i := set_p_chan NoChan q]> (k_procs s1)) s1).
  assert (H2 : holds LPtable 1 s2).
  { constructor; [destruct Ho; constructor; assumption | exact Hn | exists nm; exact Hl]. }
  erewrite bind_ok by (eapply release_holds; [exact H2 | lia]).
  set (s3 := unlocked_state LPtable s2).
  assert (H3 : cpu_ok s3) by (pose proof (ho_cpu _ _ _ H2) as H; pose proof (ho_ncli _ _ _ H2);
    destruct (cpu_ok_pop s2 H ltac:(lia)); constructor; assumption).
  change s' with (locked_state lk s3). split; [|split].
  - apply acquire_ok; [exact H3|]. unfold s3. cbn [k_locks unlocked_state set_locks].
    rewrite fupd_ne by exact Hne. apply Hf.
  - pose proof (locked_holds lk s3 H3) as H4.
    replace (c_ncli (k_cpu s3) + 1) with 1 in H4 by (cbn; lia). exact H4.
  - unfold lock_free, locked_state, s3, unlocked_state. cbn [k_locks set_locks].
    rewrite fupd_ne by congruence. cbn [k_locks set_locks set_cpu]. rewrite fupd_eq. auto.
Qed.

Lemma wakeup_ok ch s :
  cpu_ok s -> lock_free LPtable s ->
  wakeup ch s = Ok tt (set_procs (map (wake ch) (k_procs s)) (touch s)).
Proof.
  intros Hc Hl. unfold wakeup, wakeup_code. cbn [in_turn]. erewrite bind_ok by (apply acquire_ok; [exact Hc | apply Hl]).
  unfold wakeup1, modify. erewrite bind_ok by reflexivity.
  rewrite (release_balanced LPtable s) by (assumption || reflexivity).
  destruct s; reflexivity.
Qed.

(** ** Allocating a process *)

Lemma find_state_spec st : forall ps k,
  match find_state st ps k with
  | Some i => exists j p, i = (k + j)%nat /\ ps !! j = Some p /\ p_state p = st /\
      forall j' q, (j' < j)%nat -> ps !! j' = Some q -> p_state q <> st
  | None => forall j q, ps !! j = Some q -> p_state q <> st
  end.
Proof.
  induction ps as [|p ps IH]; intros k; cbn [find_state]; [intros j q Hq; discriminate|].
  case_decide as E.
  - exists 0%nat, p. split; [lia|]. split; [reflexivity|]. split; [exact E|]. intros. lia.
  - specialize (IH (S k)). destruct (find_state st ps (S k)) as [i|].
    + destruct IH as (j & q & -> & Hq & Es & Hmin). exists (S j), q.
      split; [lia|]. split; [exact Hq|]. split; [exact Es|].
      intros [|j'] q' Hj Hq'; [cbn in Hq'; congruence | eapply (Hmin j'); [lia | exact Hq']].
    + intros [|j] q Hq; [cbn in Hq; congruence | eapply IH; exact Hq].
Qed.

(** The entry [allocproc] fills in. *)
Definition embryo (pid kstack : Z) (p : proc) : proc :=
  set_p_context (w32 (w32 (w32 (kstack + KSTACKSIZE - 76) - 4) - 20))
    (set_p_kstack kstack (set_p_pid pid (set_p_state EMBRYO p))).

Section Allocproc.
Context `{Image}.

(** Up to the allocation of the stack. *)
Lemma kinv_release fl hl s v n :
  kinv fl hl s -> kinv fl hl (set_nextpid n (set_procs v (touch s))).
Proof.
  intros [Hc H1 H2 H3 H4 H5 H6 H7 H8]. constructor; try assumption.
  apply cpu_ok_touch in Hc. cpuok.
Qed.

Lemma allocproc_none fl hl s :
  kinv fl hl s -> lock_free LPtable s -> (forall j q, k_procs s !! j = Some q -> p_state q <> UNUSED) ->
  allocproc s = Ok None (touch s).
Proof.
  intros I Hl Hn. pose proof (ki_cpu _ _ _ I) as Hc. unfold allocproc.
  erewrite bind_ok by (apply acquire_ok; [exact Hc | apply Hl]).
  unfold gets. erewrite bind_ok by reflexivity.
  pose proof (find_state_spec UNUSED (k_procs s) 0) as Hf.
  cbn [k_procs locked_state set_locks set_cpu]. destruct (find_state UNUSED (k_procs s) 0) as [i|].
  - destruct Hf as (j & p & _ & Hp & Es & _). exfalso. eapply Hn; eassumption.
  - erewrite bind_ok by (apply (release_balanced LPtable s); (assumption || reflexivity)).
    unfold ret, touch. destruct s; reflexivity.
Qed.

(** The first unused entry, [i], is taken. *)
Section Taken.
Context (fl hl : list Z) (s : kstate) (i : nat) (p : proc).
Context (I : kinv fl hl s) (Hl : lock_free LPtable s) (Hp : k_procs s !! i = Some p).
Context (Hu : p_state p = UNUSED).
Context (Hmin : forall j q, (j < i)%nat -> k_procs s !! j = Some q -> p_state q <> UNUSED).

Let pid : Z := k_nextpid s.
Let p1 : proc := set_p_pid pid (set_p_state EMBRYO p).
Let s1 : kstate := set_nextpid (s32 (pid + 1)) (set_procs (<[i := p1]> (k_procs s)) (touch s)).

Lemma taken_lt : (i < length (k_procs s))%nat.
Proof. eapply lookup_lt_Some. exact Hp. Qed.

Lemma taken_find : find_state UNUSED (k_procs s) 0 = Some i.
Proof.
  pose proof (find_state_spec UNUSED (k_procs s) 0) as Hf.
  destruct (find_state UNUSED (k_procs s) 0) as [i'|]; [|exfalso; eapply Hf; eassumption].
  destruct Hf as (j & q & -> & Hq & Es & Hm). f_equal. cbn.
  destruct (Nat.lt_total j i) as [Hj | [-> | Hj]]; [|reflexivity|].
  - exfalso. eapply Hmin; eassumption.
  - exfalso. eapply Hm; eassumption.
Qed.

Lemma taken_head kstack s2 :
  kalloc s1 = Ok kstack s2 -> k_procs s2 = k_procs s1 ->
  allocproc s = (if kstack =? 0 then upd_proc i (set_p_state UNUSED) ;; ret None
    else
      st32 (w32 (w32 (kstack + KSTACKSIZE - 76) - 4)) img_trapret ;;
      upd_proc i (set_p_context (w32 (w32 (w32 (kstack + KSTACKSIZE - 76) - 4) - 20))) ;;
      kmemset (w32 (w32 (w32 (kstack + KSTACKSIZE - 76) - 4) - 20)) 0 20 ;;
      st32 (w32 (w32 (w32 (w32 (kstack + KSTACKSIZE - 76) - 4) - 20) + 16)) img_forkret ;;
      ret (Some i)) (set_procs (<[i := set_p_kstack kstack p1]> (k_procs s)) s2).
Proof.
  intros Ek Ep. pose proof taken_lt as Hlt. pose proof (ki_cpu _ _ _ I) as Hc. unfold allocproc.
  erewrite bind_ok by (apply acquire_ok; [exact Hc | apply Hl]).
  unfold gets at 1. erewrite bind_ok by reflexivity. cbn [k_procs locked_state set_locks set_cpu].
  rewrite taken_find. erewrite bind_ok by (apply (upd_proc_ok i _ p); exact Hp).
  unfold gets. erewrite bind_ok by reflexivity.
  erewrite bind_ok by (apply (upd_proc_ok i _ (set_p_state EMBRYO p)); apply list_lookup_insert_eq, Hlt).
  unfold modify. erewrite bind_ok by reflexivity. cbn [k_procs set_procs locked_state set_locks set_cpu k_nextpid].
  rewrite list_insert_insert_eq.
  erewrite bind_ok by (apply (release_balanced LPtable s); (assumption || reflexivity)).
  erewrite bind_ok; [|rewrite <- Ek; f_equal; destruct s; reflexivity].
  erewrite bind_ok by (apply (upd_proc_ok i _ p1); rewrite Ep; apply list_lookup_insert_eq, Hlt).
  rewrite Ep. unfold s1. cbn [k_procs set_procs set_nextpid]. rewrite list_insert_insert_eq. reflexivity.
Qed.

Lemma taken_frame s2 m v :
  kframe s1 s2 -> kframe (set_nextpid (s32 (pid + 1)) (set_procs v s)) (set_mem m (set_procs v s2)).
Proof.
  unfold kframe. intros F. change (norm (set_mem m (set_procs v s2))) with (set_procs v (norm s2)).
  rewrite F. unfold s1, norm, touch. cbn [k_cpu set_cpu set_procs set_nextpid].
  rewrite touch_cpu_idem. reflexivity.
Qed.

Lemma kinv_procs fl0 s0 v : kinv fl0 hl s0 -> kinv fl0 hl (set_procs v s0).
Proof. intros [Hc J2 J3 J4 J5 J6 J7 J8 J9]. constructor; try assumption. cpuok. Qed.

Lemma allocproc_nostack :
  fl = [] ->
  exists s', allocproc s = Ok None s' /\ kinv [] hl s' /\ k_mem s' = k_mem s /\
    k_procs s' = <[i := set_p_state UNUSED (set_p_kstack 0 p1)]> (k_procs s) /\
    kframe (set_nextpid (s32 (pid + 1)) (set_procs (k_procs s') s)) s'.
Proof.
  intros Hfl. pose proof taken_lt as Hlt.
  assert (I1 : kinv [] hl s1) by (rewrite <- Hfl; apply kinv_release, I).
  destruct (pa_empty (PageAllocator := base_allocator hl) s1 I1) as (s2 & E & I2 & M2 & F2).
  pose proof (taken_head 0 s2 E (kframe_procs _ _ F2)) as R. cbn [Z.eqb] in R.
  erewrite bind_ok in R by (apply (upd_proc_ok i _ (set_p_kstack 0 p1)); apply list_lookup_insert_eq, Hlt).
  cbn [k_procs set_procs] in R. rewrite list_insert_insert_eq in R.
  eexists (set_procs _ s2). split; [exact R|]. split; [apply kinv_procs, I2|]. split; [exact M2|].
  split; [reflexivity|]. apply (taken_frame s2 (k_mem s2) _ F2).
Qed.

Lemma allocproc_stack q fl' :
  fl = q :: fl' ->
  exists s', allocproc s = Ok (Some i) s' /\ kinv fl' hl s' /\ page_ok q /\ (q ∉ fl') /\
    k_procs s' = <[i := embryo pid q p]> (k_procs s) /\
    kframe (set_nextpid (s32 (pid + 1)) (set_procs (k_procs s') s)) s' /\
    within q 4096 (k_mem s) (k_mem s') /\
    load32 (k_mem s') (p_context (embryo pid q p) + 16) = w32 img_forkret /\
    load32 (k_mem s') (p_context (embryo pid q p) + 20) = w32 img_trapret.
Proof.
  intros Hfl. pose proof taken_lt as Hlt.
  assert (I1 : kinv (q :: fl') hl s1) by (rewrite <- Hfl; apply kinv_release, I).
  destruct (pa_pop (PageAllocator := base_allocator hl) q fl' s1 I1) as (s2 & E & I2 & Hq & Hqf & M2 & F2).
  pose proof (taken_head q s2 E (kframe_procs _ _ F2)) as R.
  pose proof (page_ok_addr q Hq) as Hqa. unfold KERNBASE, PHYSTOP in Hqa.
  assert (Etf : w32 (q + KSTACKSIZE - 76) = q + 4020) by (unfold KSTACKSIZE; rewrite w32_small by (unfold u32; lia); lia).
  rewrite Etf in R. rewrite (w32_small (q + 4020 - 4)) in R by (unfold u32; lia).
  rewrite (w32_small (q + 4020 - 4 - 20)), (w32_small (q + 4020 - 4 - 20 + 16)) in R by (unfold u32; lia).
  rewrite (proj2 (Z.eqb_neq q 0)) in R by lia.
  unfold st32 at 1, modify in R. erewrite bind_ok in R by reflexivity.
  erewrite bind_ok in R by (apply (upd_proc_ok i _ (set_p_kstack q p1)); apply list_lookup_insert_eq, Hlt).
  cbn [k_procs set_procs set_mem] in R. rewrite list_insert_insert_eq in R.
  set (m' := store32 (fill (store32 (k_mem s) (q + 4020 - 4) img_trapret) (q + 4020 - 4 - 20) 0 20)
               (q + 4020 - 4 - 20 + 16) img_forkret).
  exists (set_mem m' (set_procs (<[i := embryo pid q p]> (k_procs s)) s2)).
  assert (Ectx : p_context (embryo pid q p) = q + 3996).
  { unfold embryo. cbn [p_context set_p_context].
    rewrite Etf, (w32_small (q + 4020 - 4)), (w32_small (q + 4020 - 4 - 20)) by (unfold u32; lia). lia. }
  assert (W : within q 4096 (k_mem s) m').
  { intros x Hx. unfold m'. rewrite load8_store32_ne by lia. rewrite load8_fill_out by lia.
    apply load8_store32_ne. lia. }
  split; [|split; [|split; [exact Hq|split; [exact Hqf|split; [reflexivity|split; [|split; [exact W|]]]]]]].
  - rewrite R. unfold kmemset, st32, bind, modify, ret. cbn [k_mem set_mem set_procs].
    rewrite memset_fill by (unfold u32; lia). rewrite M2. unfold m', embryo, p1.
    rewrite Etf, (w32_small (q + 4020 - 4)), (w32_small (q + 4020 - 4 - 20)) by (unfold u32; lia).
    reflexivity.
  - apply (kinv_procs _ _ (<[i := embryo pid q p]> (k_procs s))) in I2.
    apply (pa_write (PageAllocator := base_allocator hl) q fl' _ m' I2 Hq Hqf).
    cbn [k_mem set_procs]. rewrite M2. exact W.
  - apply (taken_frame s2 m' _ F2).
  - rewrite Ectx. unfold m'. cbn [k_mem set_mem]. split.
    + replace (q + 3996 + 16) with (q + 4020 - 4 - 20 + 16) by lia. apply load32_store32_same.
    + rewrite load32_store32_disj by lia. rewrite load32_fill_out by lia.
      replace (q + 3996 + 20) with (q + 4020 - 4) by lia. apply load32_store32_same.
Qed.
End Taken.

(** Processes in use have distinct pids below [nextpid]. *)
Record pids_ok (s : kstate) : Prop := {
  pid_range i p : k_procs s !! i = Some p -> p_state p <> UNUSED -> 0 < p_pid p < k_nextpid s;
  pid_inj i j p q : k_procs s !! i = Some p -> k_procs s !! j = Some q ->
    p_state p <> UNUSED -> p_state q <> UNUSED -> p_pid p = p_pid q -> i = j }.

Lemma pids_ok_insert s s' i p n :
  pids_ok s -> k_procs s' = <[i := p]> (k_procs s) -> k_nextpid s' = n -> k_nextpid s <= n ->
  (p_state p <> UNUSED -> k_nextpid s <= p_pid p < n /\ 0 < p_pid p) -> pids_ok s'.
Proof.
  intros [Hr Hj] Ep En Hle Hp. rewrite <- En in *. constructor.
  - intros j q Hq Hs. rewrite Ep in Hq. apply list_lookup_insert_Some in Hq as [(-> & <- & _) | (Hne & Hq)].
    + specialize (Hp Hs). lia.
    + specialize (Hr j q Hq Hs). lia.
  - intros j k q r Hq Hr' Hs1 Hs2 E. rewrite Ep in Hq, Hr'.
    apply list_lookup_insert_Some in Hq as [(-> & <- & _) | (Hne & Hq)];
      apply list_lookup_insert_Some in Hr' as [(-> & <- & _) | (Hne' & Hr')]; auto.
    + specialize (Hp Hs1). specialize (Hr k r Hr' Hs2). lia.
    + specialize (Hp Hs2). specialize (Hr j q Hq Hs1). lia.
    + eapply Hj; eassumption.
Qed.

Lemma kframe_nextpid s s' : kframe s s' -> k_nextpid s' = k_nextpid s.
Proof. intros E. apply (f_equal k_nextpid) in E. exact E. Qed.

(** The first unused entry, if any. *)
Lemma first_unused (ps : list proc) :
  (forall j q, ps !! j = Some q -> p_state q <> UNUSED) \/
  exists i p, ps !! i = Some p /\ p_state p = UNUSED /\
    forall j q, (j < i)%nat -> ps !! j = Some q -> p_state q <> UNUSED.
Proof.
  pose proof (find_state_spec UNUSED ps 0) as Hf.
  destruct (find_state UNUSED ps 0) as [i|]; [right | left; exact Hf].
  destruct Hf as (j & p & -> & Hp & Hs & Hm). eauto 6.
Qed.

(** proc.c, [allocproc]: a new process gets the first unused entry of
    the table, a pid that no other process has, and a kernel stack, a page
    taken off the free list, on which its first switch resumes at [forkret]
    and returns to [trapret].  The other entries are untouched.  It returns
    null only when no entry is unused or no page is free, and then every
    process in use is as before.  Pids stay distinct in all cases. *)
Lemma allocproc_fresh fl hl s :
  kinv fl hl s -> lock_free LPtable s -> pids_ok s -> 0 < k_nextpid s < 2147483647 ->
  exists r s', allocproc s = Ok r s' /\ pids_ok s' /\
    match r with
    | None =>
        (fl = [] \/ forall j q, k_procs s !! j = Some q -> p_state q <> UNUSED) /\
        forall j q, k_procs s !! j = Some q -> p_state q <> UNUSED -> k_procs s' !! j = Some q
    | Some i => exists p q fl',
        fl = q :: fl' /\ kinv fl' hl s' /\ k_procs s !! i = Some p /\ p_state p = UNUSED /\
        k_procs s' = <[i := embryo (k_nextpid s) q p]> (k_procs s) /\
        (forall j p', k_procs s !! j = Some p' -> p_state p' <> UNUSED -> p_pid p' <> k_nextpid s) /\
        within q 4096 (k_mem s) (k_mem s') /\
        load32 (k_mem s') (p_context (embryo (k_nextpid s) q p) + 16) = w32 img_forkret /\
        load32 (k_mem s') (p_context (embryo (k_nextpid s) q p) + 20) = w32 img_trapret
    end.
Proof.
  intros I Hl Hpids Hn.
  assert (Es : s32 (k_nextpid s + 1) = k_nextpid s + 1) by (apply s32_small; lia).
  destruct (first_unused (k_procs s)) as [Hnone | (i & p & Hp & Hu & Hmin)].
  { exists None, (touch s). rewrite (allocproc_none fl hl s I Hl Hnone). split; [reflexivity|].
    split; [destruct Hpids; constructor; assumption | auto]. }
  destruct fl as [|q fl'].
  - destruct (allocproc_nostack [] hl s i p I Hl Hp Hu Hmin eq_refl) as (s' & E & _ & _ & Ep & F).
    exists None, s'. split; [exact E|]. pose proof (kframe_nextpid _ _ F) as En. cbn in En. rewrite Es in En.
    split; [eapply pids_ok_insert; [exact Hpids | exact Ep | exact En | lia | cbn; congruence]|].
    split; [auto|]. intros j r Hr Hs. rewrite Ep, list_lookup_insert_ne; [exact Hr | congruence].
  - destruct (allocproc_stack (q :: fl') hl s i p I Hl Hp Hu Hmin q fl' eq_refl)
      as (s' & E & I' & Hq & Hqf & Ep & F & W & L1 & L2).
    exists (Some i), s'. split; [exact E|]. pose proof (kframe_nextpid _ _ F) as En. cbn in En. rewrite Es in En.
    split; [eapply pids_ok_insert; [exact Hpids | exact Ep | exact En | lia | cbn; lia]|].
    exists p, q, fl'. repeat (split; [auto|]).
    + intros j p' Hp' Hs. pose proof (pid_range _ Hpids j p' Hp' Hs). lia.
    + auto.
Qed.

End Allocproc.

(** ** Killing a process *)

Lemma find_pid_spec pid : forall ps k,
  match find_pid pid ps k with
  | Some i => exists j p, i = (k + j)%nat /\ ps !! j = Some p /\ p_pid p = pid /\
      forall j' q, (j' < j)%nat -> ps !! j' = Some q -> p_pid q <> pid
  | None => forall j q, ps !! j = Some q -> p_pid q <> pid
  end.
Proof.
  induction ps as [|p ps IH]; intros k; cbn [find_pid]; [intros j q Hq; discriminate|].
  destruct (Z.eqb_spec (p_pid p) pid) as [E | E].
  - exists 0%nat, p. split; [lia|]. split; [reflexivity|]. split; [exact E|]. intros. lia.
  - specialize (IH (S k)). destruct (find_pid pid ps (S k)) as [i|].
    + destruct IH as (j & q & -> & Hq & Es & Hmin). exists (S j), q.
      split; [lia|]. split; [exact Hq|]. split; [exact Es|].
      intros [|j'] q' Hj Hq'; [cbn in Hq'; congruence | eapply (Hmin j'); [lia | exact Hq']].
    + intros [|j] q Hq; [cbn in Hq; congruence | eapply IH; exact Hq].
Qed.

Lemma find_pid_first pid ps i p :
  ps !! i = Some p -> p_pid p = pid -> (forall j q, (j < i)%nat -> ps !! j = Some q -> p_pid q <> pid) ->
  find_pid pid ps 0 = Some i.
Proof.
  intros Hp Hu Hmin. pose proof (find_pid_spec pid ps 0) as Hf.
  destruct (find_pid pid ps 0) as [i'|]; [|exfalso; eapply Hf; eassumption].
  destruct Hf as (j & q & -> & Hq & Es & Hm). f_equal. cbn.
  destruct (Nat.lt_total j i) as [Hj | [-> | Hj]]; [|reflexivity|].
  - exfalso. eapply Hmin; eassumption.
  - exfalso. eapply Hm; eassumption.
Qed.

(** A process after [kill]. *)
Definition killed (p : proc) : proc :=
  let p' := set_p_killed 1 p in if decide (p_state p' = SLEEPING) then set_p_state RUNNABLE p' else p'.

Lemma kill_found s i p pid :
  cpu_ok s -> lock_free LPtable s -> k_procs s !! i = Some p -> p_pid p = pid ->
  (forall j q, (j < i)%nat -> k_procs s !! j = Some q -> p_pid q <> pid) ->
  kill pid s = Ok 0 (set_procs (<[i := killed p]> (k_procs s)) (touch s)).
Proof.
  intros Hc Hl Hp Hu Hmin. assert (Hlt : (i < length (k_procs s))%nat) by (eapply lookup_lt_Some; exact Hp).
  unfold kill. erewrite bind_ok by (apply acquire_ok; [exact Hc | apply Hl]).
  unfold gets. erewrite bind_ok by reflexivity. cbn [k_procs locked_state set_locks set_cpu].
  rewrite (find_pid_first pid _ i p) by assumption.
  erewrite bind_ok by (apply (upd_proc_ok i _ p); exact Hp).
  erewrite bind_ok by (apply (upd_proc_ok i _ (set_p_killed 1 p)); apply list_lookup_insert_eq, Hlt).
  cbn [k_procs set_procs locked_state set_locks set_cpu]. rewrite list_insert_insert_eq.
  erewrite bind_ok by (apply (release_balanced LPtable s); (assumption || reflexivity)).
  destruct s; reflexivity.
Qed.

Lemma kill_missing s pid :
  cpu_ok s -> lock_free LPtable s -> (forall j q, k_procs s !! j = Some q -> p_pid q <> pid) ->
  kill pid s = Ok (-1) (touch s).
Proof.
  intros Hc Hl Hn. unfold kill. erewrite bind_ok by (apply acquire_ok; [exact Hc | apply Hl]).
  unfold gets. erewrite bind_ok by reflexivity. cbn [k_procs locked_state set_locks set_cpu].
  pose proof (find_pid_spec pid (k_procs s) 0) as Hf. destruct (find_pid pid (k_procs s) 0).
  - destruct Hf as (j & q & _ & Hq & Eq & _). exfalso. eapply Hn; eassumption.
  - erewrite bind_ok by (apply (release_balanced LPtable s); (assumption || reflexivity)).
    destruct s; reflexivity.
Qed.

(** proc.c, [kill]: a process that exists is marked killed and woken if
    it sleeps, and no other process changes; for a pid that no entry has, -1
    is returned and nothing changes. *)
Lemma kill_marks s pid :
  cpu_ok s -> lock_free LPtable s -> pids_ok s ->
  (forall i p, k_procs s !! i = Some p -> p_pid p = pid -> p_state p <> UNUSED ->
     (forall j q, k_procs s !! j = Some q -> p_state q = UNUSED -> p_pid q <> pid) ->
     exists s', kill pid s = Ok 0 s' /\ k_procs s' !! i = Some (killed p) /\ p_state (killed p) <> SLEEPING /\
       forall j, j <> i -> k_procs s' !! j = k_procs s !! j) /\
  ((forall j q, k_procs s !! j = Some q -> p_pid q <> pid) ->
     exists s', kill pid s = Ok (-1) s' /\ k_procs s' = k_procs s).
Proof.
  intros Hc Hl Hpids. split.
  - intros i p Hp Ep Hs Hun. eexists. split; [apply (kill_found s i p pid); try assumption|].
    + intros j q Hj Hq Eq. destruct (decide (p_state q = UNUSED)) as [Hu | Hu]; [eapply Hun; eassumption|].
      assert (j = i) by (eapply (pid_inj _ Hpids); [exact Hq | exact Hp | exact Hu | exact Hs | congruence]). lia.
    + cbn [k_procs set_procs]. split; [apply list_lookup_insert_eq; eapply lookup_lt_Some; exact Hp|].
      split; [unfold killed; cbn; case_decide; cbn; congruence|].
      intros j Hj. apply list_lookup_insert_ne. congruence.
  - intros Hn. exists (touch s). rewrite (kill_missing s pid Hc Hl Hn). auto.
Qed.

(** C39 (proc.c, [kill] and [allocproc]): [kill] does not look at the state of
    the entry, and unused entries have pid 0.  So [kill(0)] returns 0 and
    marks the first unused entry, and the process that is allocated there next
    is killed from the start. *)
Theorem kill_zero_hits_next_process `{Image} fl hl s i p q :
  kinv (q :: fl) hl s -> lock_free LPtable s -> k_procs s !! i = Some p -> p_state p = UNUSED -> p_pid p = 0 ->
  (forall j r, (j < i)%nat -> k_procs s !! j = Some r -> p_state r <> UNUSED /\ p_pid r <> 0) ->
  exists s1 s2 p', kill 0 s = Ok 0 s1 /\ allocproc s1 = Ok (Some i) s2 /\
    k_procs s2 !! i = Some p' /\ p_state p' = EMBRYO /\ p_killed p' = 1.
Proof.
  intros I Hl Hp Hu Hz Hmin. pose proof (ki_cpu _ _ _ I) as Hc.
  assert (Hlt : (i < length (k_procs s))%nat) by (eapply lookup_lt_Some; exact Hp).
  set (s1 := set_procs (<[i := killed p]> (k_procs s)) (touch s)).
  assert (I1 : kinv (q :: fl) hl s1) by (apply (kinv_release _ _ s (<[i := killed p]> (k_procs s)) (k_nextpid s) I)).
  assert (Hk : p_state (killed p) = UNUSED) by (unfold killed; rewrite decide_False by (cbn; congruence); exact Hu).
  destruct (allocproc_stack (q :: fl) hl s1 i (killed p) I1 Hl) with (q := q) (fl' := fl)
    as (s2 & E & _ & _ & _ & Ep & _).
  - apply list_lookup_insert_eq, Hlt.
  - exact Hk.
  - intros j r Hj Hr. cbn [k_procs s1 set_procs] in Hr. rewrite list_lookup_insert_ne in Hr by lia.
    eapply Hmin; eassumption.
  - reflexivity.
  - exists s1, s2, (embryo (k_nextpid s1) q (killed p)). split.
    { apply (kill_found s i p 0); try assumption. intros j r Hj Hr. eapply Hmin; eassumption. }
    split; [exact E|]. split; [|split; [reflexivity|]].
    + rewrite Ep. apply list_lookup_insert_eq. cbn [k_procs s1 set_procs]. rewrite length_insert. exact Hlt.
    + unfold embryo, killed. rewrite decide_False by (cbn; congruence). reflexivity.
Qed.

(** ** Growing and shrinking a process *)

Section Growproc.
Context `{Image}.

Lemma uspace_frame fl hl pgdir pt lim s s' :
  uspace fl hl pgdir pt lim s -> kinv fl hl s' -> k_mem s' = k_mem s -> uspace fl hl pgdir pt lim s'.
Proof.
  intros [[I P A] Hl Hlp Hsm Ho Hj] I' M. constructor; rewrite ?M; try assumption.
  constructor; rewrite ?M; assumption.
Qed.

Lemma kinv_cpu fl hl s c : kinv fl hl s -> cpu_ok (set_cpu c s) -> kinv fl hl (set_cpu c s).
Proof. intros [Hc J2 J3 J4 J5 J6 J7 J8 J9] Hc'. constructor; assumption. Qed.

(** [switchuvm] loads the page directory and the kernel stack of the process. *)
Lemma switchuvm_ok s i p :
  cpu_ok s -> k_procs s !! i = Some p -> p_kstack p <> 0 -> p_pgdir p <> 0 ->
  exists c, switchuvm (Some i) s = Ok tt (set_cpu c s) /\ cpu_ok (set_cpu c s) /\
    c_cr3 c = V2P (p_pgdir p) /\ c_esp0 c = w32 (p_kstack p + KSTACKSIZE) /\
    c_proc c = c_proc (k_cpu s) /\ c_ncli c = c_ncli (k_cpu s) /\ c_if c = c_if (k_cpu s) /\ c_apicid c = c_apicid (k_cpu s).
Proof.
  intros [Hk Hn Hm] Hp Hks Hpd. unfold switchuvm, gets. erewrite bind_ok by reflexivity. rewrite Hp.
  rewrite (proj2 (Z.eqb_neq (p_kstack p) 0)), (proj2 (Z.eqb_neq (p_pgdir p) 0)) by assumption.
  erewrite bind_ok by (apply pushcli_ok; exact Hk).
  erewrite bind_ok by (apply mycpu_ok; [exact Hk | reflexivity]).
  unfold upd_cpu, lcr3, upd_cpu, modify. do 4 (erewrite bind_ok by reflexivity). cbn [set_cpu k_cpu].
  match goal with |- context [popcli (set_cpu ?c ?t)] =>
    change (set_cpu c t) with (set_cpu c s); set (c1 := c) end.
  assert (E1 : c_ncli c1 = c_ncli (k_cpu s) + 1 /\ c_if c1 = false /\
    c_intena c1 = if c_ncli (k_cpu s) =? 0 then c_if (k_cpu s) else c_intena (k_cpu s)) by (repeat split).
  destruct E1 as (En & Ef & Ei). rewrite popcli_ok; [|exact Hk | exact Ef | cbn [k_cpu set_cpu]; lia].
  exists (pop_cpu c1).
  assert (Epop : c_ncli (pop_cpu c1) = c_ncli (k_cpu s) /\ c_if (pop_cpu c1) = c_if (k_cpu s)).
  { unfold pop_cpu. cbn [c_ncli c_if set_c_if set_c_ncli]. rewrite En, Ef, Ei.
    replace (c_ncli (k_cpu s) + 1 - 1) with (c_ncli (k_cpu s)) by lia. split; [reflexivity|].
    destruct (Z.eqb_spec (c_ncli (k_cpu s)) 0); cbn [andb].
    - destruct (c_if (k_cpu s)); reflexivity.
    - symmetry. apply Hm. lia. }
  destruct Epop as [E1 E2]. split; [reflexivity|]. split; [|repeat split; assumption].
  constructor; cbn [k_cpu set_cpu k_apicids]; [exact Hk | rewrite E1; exact Hn | rewrite E1, E2; exact Hm].
Qed.
(** The current process, with a kernel stack and a well-formed user half. *)
Record current (fl hl : list Z) (pt : gmap Z Z) (lim : Z) (i : nat) (p : proc) (s : kstate) : Prop := {
  cu_space : uspace fl hl (p_pgdir p) pt lim s;
  cu_proc : c_proc (k_cpu s) = Some i;
  cu_entry : k_procs s !! i = Some p;
  cu_stack : p_kstack p <> 0;
  cu_size : 0 < p_sz p <= lim }.

Lemma current_touch fl hl pt lim i p s : current fl hl pt lim i p s -> current fl hl pt lim i p (touch s).
Proof.
  intros [U H1 H2 H3 H4]. constructor; try assumption. eapply uspace_frame; [exact U | | reflexivity].
  apply (kinv_ktouch true), U.
Qed.

Lemma current_pgdir fl hl pt lim i p s : current fl hl pt lim i p s -> p_pgdir p <> 0.
Proof.
  intros [U _ _ _ _]. pose proof (page_ok_addr _ (pd_page _ _ _ (ps_pd _ _ _ _ _ (us_ps _ _ _ _ _ _ U)))) as Hp.
  unfold KERNBASE in Hp. lia.
Qed.

(** The head of [growproc] and [growhugeproc]. *)
Lemma current_head {B} fl hl pt lim i p s (k : option nat -> nat -> proc -> K B) :
  current fl hl pt lim i p s ->
  (let! cur := myproc in let! i := deref cur in let! p := get_proc i in k cur i p) s = k (Some i) i p (touch s).
Proof.
  intros [U H1 H2 H3 H4]. erewrite bind_ok by (apply myproc_ok, U). rewrite H1.
  erewrite bind_ok by reflexivity. erewrite bind_ok by (apply get_proc_ok; exact H2). reflexivity.
Qed.

(** Their tail: store the size and reload the page directory. *)
Lemma grow_tail s i p f :
  cpu_ok s -> k_procs s !! i = Some p -> p_kstack p <> 0 -> p_pgdir p <> 0 ->
  p_kstack (f p) = p_kstack p -> p_pgdir (f p) = p_pgdir p ->
  exists c, (upd_proc i f ;; switchuvm (Some i) ;; ret 0) s =
      Ok 0 (set_cpu c (set_procs (<[i := f p]> (k_procs s)) s)) /\
    cpu_ok (set_cpu c (set_procs (<[i := f p]> (k_procs s)) s)) /\ c_cr3 c = V2P (p_pgdir p).
Proof.
  intros Hc Hp Hk Hd Ek Ed.
  destruct (switchuvm_ok (set_procs (<[i := f p]> (k_procs s)) s) i (f p)) as (c & E & Hc' & E3 & _).
  - cpuok.
  - apply list_lookup_insert_eq. eapply lookup_lt_Some. exact Hp.
  - congruence.
  - congruence.
  - exists c. split; [|split; [exact Hc' | congruence]].
    erewrite bind_ok by (apply (upd_proc_ok i _ p); exact Hp). erewrite bind_ok by exact E. reflexivity.
Qed.

Lemma kframe_c_proc s s' : kframe s s' -> c_proc (k_cpu s') = c_proc (k_cpu s).
Proof. intros E. apply kframe_cpu in E. apply (f_equal c_proc) in E. exact E. Qed.

Lemma grow_after fl hl pt lim i p s s' pt' fl' f :
  current fl hl pt lim i p s -> kframe s s' -> uspace fl' hl (p_pgdir p) pt' lim s' ->
  p_kstack (f p) = p_kstack p -> p_pgdir (f p) = p_pgdir p ->
  exists s2, (upd_proc i f ;; switchuvm (Some i) ;; ret 0) s' = Ok 0 s2 /\
    k_procs s2 = <[i := f p]> (k_procs s) /\ k_mem s2 = k_mem s' /\
    uspace fl' hl (p_pgdir p) pt' lim s2 /\ c_cr3 (k_cpu s2) = V2P (p_pgdir p).
Proof.
  intros C F U Ek Ed. pose proof C as [_ H1 H2 H3 H4].
  assert (Ep : k_procs s' = k_procs s) by (apply kframe_procs, F).
  destruct (grow_tail s' i p f) as (c & E & Hc & E3); try assumption.
  - apply U.
  - rewrite Ep. exact H2.
  - eapply current_pgdir. exact C.
  - eexists. split; [exact E|]. cbn [k_procs set_cpu set_procs k_mem k_cpu]. rewrite Ep.
    split; [reflexivity|]. split; [reflexivity|]. split; [|exact E3].
    eapply uspace_frame; [exact U | | reflexivity]. apply kinv_cpu; [|rewrite <- Ep; exact Hc].
    apply kinv_procs, U.
Qed.

(** proc.c, [growproc] with a positive argument: sbrk is all or nothing.
    On success 0 is returned, the size has grown by [n], every byte of the new
    pages reads as 0 and is writable by the process, and the CPU has reloaded
    the page directory; otherwise -1 is returned, and the process table and
    every address of the process are as before.  No other address of the
    process changes in either case. *)
Lemma growproc_grows fl hl pt lim i p s n :
  current fl hl pt lim i p s -> 0 < n -> p_sz p + n <= lim -> p_sz p + n < KERNBASE ->
  let a := PGROUNDUP (p_sz p) in let k := npages (p_sz p + n) a in
  (forall v, a <= v < a + 4096 * Z.of_nat k -> unmapped (k_mem s) (p_pgdir p) pt v) ->
  exists r fl' pt' s', growproc n s = Ok r s' /\ uspace fl' hl (p_pgdir p) pt' lim s' /\
    (forall v, u32 v -> ~ (a <= v < a + 4096 * Z.of_nat k) ->
       hw_translate (k_mem s') (p_pgdir p) v = hw_translate (k_mem s) (p_pgdir p) v) /\
    ((r = 0 /\ k_procs s' = <[i := set_p_sz (p_sz p + n) p]> (k_procs s) /\
      c_cr3 (k_cpu s') = V2P (p_pgdir p) /\
      forall v, a <= v < a + 4096 * Z.of_nat k -> exists q, q ∈ fl /\
        hw_translate (k_mem s') (p_pgdir p) v = Some (V2P q + v mod 4096, true, true) /\
        load8 (k_mem s') (q + v mod 4096) = 0) \/
     (r = -1 /\ k_procs s' = k_procs s /\
      forall v, u32 v -> hw_translate (k_mem s') (p_pgdir p) v = hw_translate (k_mem s) (p_pgdir p) v)).
Proof.
  intros C Hn Hl Hk a k Hun. pose proof (current_touch _ _ _ _ _ _ _ C) as [U H1 H2 H3 H4].
  unfold KERNBASE in Hk.
  destruct (allocuvm_result fl hl (p_pgdir p) pt lim (touch s) (p_sz p) (p_sz p + n) U)
    as (Ha & Ha0 & Hnb & r & fl' & pt' & s' & E & R); [lia | lia | unfold KERNBASE; lia | exact Hun |].
  fold a in Ha, Ha0, Hnb, R. fold k in Hnb, R.
  unfold growproc. rewrite (current_head _ _ _ _ _ _ _ _ C). rewrite (proj2 (Z.ltb_lt 0 n)) by exact Hn.
  rewrite (w32_small (p_sz p + n)) by (unfold u32; lia).
  erewrite bind_ok by (erewrite bind_ok by exact E; reflexivity).
  destruct R as [[-> G] | [-> [RU RF _ Rhw _ _]]].
  - rewrite (proj2 (Z.eqb_neq (p_sz p + n) 0)) by lia.
    assert (U' : uspace fl' hl (p_pgdir p) pt' lim s').
    { eapply grown_uspace; [exact U | exact Ha | exact Ha0 | exact (fun q _ => entry_of q) | exact G | exact Hnb]. }
    destruct (grow_after _ _ _ _ i p (touch s) s' pt' fl' (set_p_sz (p_sz p + n))
      (current_touch _ _ _ _ _ _ _ C) (gr_frame _ _ _ _ _ _ _ _ _ _ _ _ _ G) U' eq_refl eq_refl)
      as (s2 & E2 & Ep2 & Em2 & U2 & Ec2).
    exists 0, fl', pt', s2. split; [exact E2|]. split; [exact U2|]. rewrite Em2.
    split; [intros v Hv Hr; apply (grown_hw hl (p_pgdir p) lim a fl pt (touch s) _ _ U k [] fl' pt' s' v G Hv Hr)|].
    left. split; [reflexivity|]. split; [exact Ep2|]. split; [exact Ec2|].
    intros v Hv. eapply grown_sees; eassumption.
  - cbn [Z.eqb]. exists (-1), fl', pt', s'. split; [reflexivity|]. split; [exact RU|].
    split; [intros v Hv _; apply (Rhw v Hv)|]. right. split; [reflexivity|].
    split; [apply (kframe_procs _ _ RF) | exact Rhw].
Qed.

(** proc.c, [growproc] with a negative argument: shrinking to a positive
    size returns 0, unmaps every page above the new size and no other, puts
    their frames on the free list and stores the new size.  Shrinking to size
    0 does the same to the pages but returns -1 and leaves the old size in the
    process table; an argument below minus the size is ignored, with result 0. *)
Lemma growproc_shrinks fl hl pt lim i p s n :
  current fl hl pt lim i p s -> -2147483648 <= n < 0 ->
  let sz := p_sz p + n in let a := PGROUNDUP sz in let k := npages (p_sz p) a in
  exists r fl' s', growproc n s = Ok r s' /\ uspace fl' hl (p_pgdir p) pt lim s' /\
    if sz <? 0 then
      r = 0 /\ k_procs s' = <[i := set_p_sz (p_sz p) p]> (k_procs s) /\ k_mem s' = k_mem s
    else
      r = (if sz =? 0 then -1 else 0) /\
      k_procs s' = (if sz =? 0 then k_procs s else <[i := set_p_sz sz p]> (k_procs s)) /\
      fl' ≡ₚ frames (k_mem s) pt a k ++ fl /\
      forall v, u32 v -> hw_translate (k_mem s') (p_pgdir p) v =
        if (a <=? v) && (v <? a + 4096 * Z.of_nat k) then None else hw_translate (k_mem s) (p_pgdir p) v.
Proof.
  intros C Hn sz a k. pose proof (current_touch _ _ _ _ _ _ _ C) as C1. pose proof C1 as [U H1 H2 H3 H4].
  pose proof (us_lim _ _ _ _ _ _ U) as Hlim. pose proof (us_lim_page _ _ _ _ _ _ U) as Hlp. unfold KERNBASE in Hlim.
  unfold growproc. rewrite (current_head _ _ _ _ _ _ _ _ C).
  rewrite (proj2 (Z.ltb_ge 0 n)), (proj2 (Z.ltb_lt n 0)) by lia. fold sz.
  destruct (Z.ltb_spec sz 0) as [Hneg | Hpos].
  - assert (Ew : w32 sz = sz + 4294967296) by (unfold w32, sz in *; zdm).
    assert (E : deallocuvm (p_pgdir p) (p_sz p) (w32 sz) (touch s) = Ok (p_sz p) (touch s)).
    { unfold deallocuvm. rewrite Ew. rewrite (proj2 (Z.leb_le _ _)) by (unfold sz; lia). reflexivity. }
    erewrite bind_ok by (erewrite bind_ok by exact E; reflexivity).
    rewrite (proj2 (Z.eqb_neq (p_sz p) 0)) by (unfold sz in *; lia).
    destruct (grow_after _ _ _ _ i p (touch s) (touch s) pt fl (set_p_sz (p_sz p)) C1) as (s2 & E2 & Ep2 & Em2 & U2 & _);
      [reflexivity | exact U | reflexivity | reflexivity |].
    exists 0, fl, s2. split; [exact E2|]. split; [exact U2|]. auto.
  - rewrite (w32_small sz) by (unfold u32, sz in *; lia).
    destruct (deallocuvm_freed fl hl (p_pgdir p) pt lim (touch s) (p_sz p) sz U) as (fl' & s' & E & R);
      [unfold sz in *; lia | lia |]. fold a in R. fold k in R.
    erewrite bind_ok by (erewrite bind_ok by exact E; reflexivity).
    assert (T : forall v, u32 v -> hw_translate (k_mem s') (p_pgdir p) v =
      if (a <=? v) && (v <? a + 4096 * Z.of_nat k) then None else hw_translate (k_mem s) (p_pgdir p) v).
    { pose proof (PGROUNDUP_eq sz ltac:(unfold sz in *; lia)) as Ea. fold a in Ea.
      intros v Hv. apply (hw_freed hl (p_pgdir p) pt lim fl (touch s) a k fl' s' v U R); [zdm | | exact Hv].
      unfold k. destruct (Z.le_gt_cases a (p_sz p)); [left; rewrite npages_eq by lia; zdm | right; apply npages_0; lia]. }
    destruct (Z.eqb_spec sz 0) as [Ez | Ez].
    + exists (-1), fl', s'. split; [reflexivity|]. split; [apply R|]. split; [reflexivity|].
      split; [apply (kframe_procs _ _ (fr_frame _ _ _ _ _ _ _ _ _ _ R))|]. split; [apply R | exact T].
    + destruct (grow_after _ _ _ _ i p (touch s) s' pt fl' (set_p_sz sz) C1) as (s2 & E2 & Ep2 & Em2 & U2 & _);
        [apply R | apply R | reflexivity | reflexivity |].
      exists 0, fl', s2. split; [exact E2|]. split; [exact U2|]. split; [reflexivity|].
      split; [exact Ep2|]. rewrite Em2. split; [apply R | exact T].
Qed.

(** proc.c, [growhugeproc] with argument 0: the huge heap size becomes
    [hugesz - HUGE_VA_OFFSET] modulo 2^32 instead of staying as it is, so that
    sbrk(0) on the huge heap corrupts the size of a process. *)
Lemma growhugeproc_zero fl hl pt lim i p s :
  current fl hl pt lim i p s ->
  exists s', growhugeproc 0 s = Ok 0 s' /\
    k_procs s' = <[i := set_p_hugesz (w32 (p_hugesz p - HUGE_VA_OFFSET)) p]> (k_procs s).
Proof.
  intros C. pose proof (current_touch _ _ _ _ _ _ _ C) as C1.
  unfold growhugeproc. rewrite (current_head _ _ _ _ _ _ _ _ C). cbn [Z.ltb Z.compare].
  erewrite bind_ok by reflexivity.
  destruct (grow_after _ _ _ _ i p (touch s) (touch s) pt fl
    (set_p_hugesz (w32 (p_hugesz p - HUGE_VA_OFFSET))) C1) as (s2 & E2 & Ep2 & _);
    [reflexivity | apply C1 | reflexivity | reflexivity |].
  exists s2. auto.
Qed.

End Growproc.

(** ** Waiting for children *)

Section Wait.
Context `{Image}.

Lemma kinv_locked fl hl s l :
  kinv fl hl s -> l <> LKmem -> l <> LKhugemem -> kinv fl hl (locked_state l s).
Proof.
  intros [Hc J2 J3 J4 J5 J6 J7 J8 J9] H1 H2. constructor; try assumption.
  - destruct (cpu_ok_push s Hc). constructor; assumption.
  - unfold lock_free, locked_state. cbn [k_locks set_locks]. rewrite fupd_ne by congruence. exact J2.
  - unfold lock_free, locked_state. cbn [k_locks set_locks]. rewrite fupd_ne by congruence. exact J3.
Qed.

Lemma touch_cpu_id c : 0 < c_ncli c -> touch_cpu c = c.
Proof. intros Hn. unfold touch_cpu. destruct (Z.eqb_spec (c_ncli c) 0); [lia|]. destruct c; reflexivity. Qed.

Lemma kframe_cpu_eq s s' : kframe s s' -> 0 < c_ncli (k_cpu s) -> k_cpu s' = k_cpu s.
Proof.
  intros F Hn. apply kframe_cpu in F. rewrite (touch_cpu_id (k_cpu s)) in F by exact Hn.
  rewrite <- F. symmetry. apply touch_cpu_id. apply (f_equal c_ncli) in F. cbn in F. lia.
Qed.

Lemma kframe_apicids s s' : kframe s s' -> k_apicids s' = k_apicids s.
Proof. intros E. apply (f_equal k_apicids) in E. exact E. Qed.

Definition child_of (cur : option nat) (p : proc) : bool := bool_decide (p_parent p = cur).
Definition zombie_child (cur : option nat) (p : proc) : Prop := p_parent p = cur /\ p_state p = ZOMBIE.

(** Entries without a zombie child are passed over. *)
Lemma wait_scan_skip cur s m : forall n i hk,
  (i + n <= length (k_procs s))%nat ->
  (forall j q, (i <= j < i + n)%nat -> k_procs s !! j = Some q -> ~ zombie_child cur q) ->
  wait_scan cur i (n + m) hk s =
    wait_scan cur (i + n) m (hk || existsb (child_of cur) (take n (drop i (k_procs s)))) s.
Proof.
  induction n as [|n IH]; intros i hk Hlen Hz; cbn [take existsb Nat.add].
  { rewrite orb_false_r. f_equal. lia. }
  destruct (lookup_lt_is_Some_2 (k_procs s) i) as [q Hq]; [lia|].
  cbn [wait_scan]. erewrite bind_ok by (apply get_proc_ok, Hq).
  rewrite (drop_S _ q i Hq). cbn [firstn take existsb].
  assert (Hnz : ~ zombie_child cur q) by (apply (Hz i); [lia | exact Hq]).
  unfold child_of at 1. case_decide as E.
  - rewrite decide_False by (intros Es; apply Hnz; split; assumption).
    rewrite bool_decide_eq_true_2 by exact E. rewrite IH; [|lia | intros j r Hj; apply Hz; lia].
    cbn [orb]. rewrite orb_true_r. f_equal. lia.
  - rewrite bool_decide_eq_false_2 by exact E. rewrite IH; [|lia | intros j r Hj; apply Hz; lia].
    cbn [orb]. f_equal. lia.
Qed.

(** An entry after its process has been reaped. *)
Definition reaped (p : proc) : proc :=
  set_p_state UNUSED (set_p_killed 0 (set_p_name (<[0%nat := 0]> (p_name p))
    (set_p_parent None (set_p_pid 0 (set_p_kstack 0 p))))).

(** The address space and the kernel stack of a zombie are pages of its own. *)
Record zombie_ok (fl hl : list Z) (pt : gmap Z Z) (p : proc) (s : kstate) : Prop := {
  zo_space : uspace fl hl (p_pgdir p) pt KERNBASE s;
  zo_stack : page_ok (p_kstack p);
  zo_free : p_kstack p ∉ fl;
  zo_pt : ~ pt_page (p_pgdir p) pt (p_kstack p);
  zo_frames v : 0 <= v < KERNBASE -> present (k_mem s) pt v = true -> frame (k_mem s) pt v <> p_kstack p }.

Lemma reap fl hl pt i p s :
  zombie_ok fl hl pt p s -> k_procs s !! i = Some p ->
  exists fl' s1 s2 s3, kfree (p_kstack p) s = Ok tt s1 /\
    upd_proc i (set_p_kstack 0) s1 = Ok tt s2 /\ freevm (p_pgdir p) s2 = Ok tt s3 /\
    kinv fl' hl s3 /\ kframe (set_procs (<[i := set_p_kstack 0 p]> (k_procs s)) s) s3 /\
    fl' ≡ₚ p_pgdir p :: tables pt 0 1024 ++ frames (k_mem s) pt 0 (npages KERNBASE 0) ++ p_kstack p :: fl.
Proof.
  intros [U Hk Hf Hpt Hfr] Hp.
  destruct (uspace_push fl hl (p_pgdir p) pt KERNBASE s (p_kstack p) U Hk Hf Hpt Hfr)
    as (s1 & E1 & U1 & F1 & W1 & V1).
  assert (Ep1 : k_procs s1 = k_procs s) by (apply kframe_procs, F1).
  set (s2 := set_procs (<[i := set_p_kstack 0 p]> (k_procs s)) s1).
  assert (U2 : uspace (p_kstack p :: fl) hl (p_pgdir p) pt KERNBASE s2).
  { eapply uspace_frame; [exact U1 | apply kinv_procs, U1 | reflexivity]. }
  destruct (freevm_spec _ hl _ pt s2 U2) as (fl' & s3 & E3 & I3 & F3 & L3 & _).
  exists fl', s1, s2, s3. split; [exact E1|]. split.
  { rewrite (upd_proc_ok i _ p) by (rewrite Ep1; exact Hp). unfold s2. rewrite Ep1. reflexivity. }
  split; [exact E3|]. split; [exact I3|]. split.
  - etransitivity; [|exact F3]. unfold kframe in *. unfold s2.
    change (norm (set_procs (<[i:=set_p_kstack 0 p]> (k_procs s)) s1))
      with (set_procs (<[i:=set_p_kstack 0 p]> (k_procs s)) (norm s1)).
    rewrite F1. reflexivity.
  - rewrite L3. cbn [k_mem s2 set_procs]. rewrite (frames_ext (k_mem s) (k_mem s1) pt pt); [reflexivity|].
    intros v Hv. apply V1. rewrite npages_eq in Hv by (unfold KERNBASE; lia). unfold u32, KERNBASE in *.
    change ((2147483648 - 0 + 4095) / 4096) with 524288 in Hv. lia.
Qed.
(** [wait] on its first child that has exited. *)
Lemma wait_scan_reap fl hl pt cur i p s0 s1 n hk :
  cpu_ok s0 -> lock_free LPtable s0 -> s1 = locked_state LPtable s0 ->
  k_procs s0 !! i = Some p -> zombie_child cur p -> zombie_ok fl hl pt p s1 ->
  exists fl' s', wait_scan cur i (S n) hk s1 = Ok (inr (p_pid p)) s' /\ kinv fl' hl s' /\
    k_procs s' = <[i := reaped p]> (k_procs s0) /\ k_locks s' = k_locks s0 /\
    fl' ≡ₚ p_pgdir p :: tables pt 0 1024 ++ frames (k_mem s0) pt 0 (npages KERNBASE 0) ++ p_kstack p :: fl.
Proof.
  intros Hc Hl -> Hp [Hpar Hz] Zo.
  assert (Hlt : (i < length (k_procs s0))%nat) by (eapply lookup_lt_Some; exact Hp).
  destruct (reap fl hl pt i p _ Zo Hp) as (fl' & sa & sb & sc & E1 & E2 & E3 & I3 & F3 & L3).
  cbn [wait_scan]. erewrite bind_ok by (apply get_proc_ok; exact Hp).
  rewrite !decide_True by assumption.
  erewrite bind_ok by exact E1. erewrite bind_ok by exact E2. erewrite bind_ok by exact E3.
  assert (Ep : k_procs sc = <[i := set_p_kstack 0 p]> (k_procs s0)) by (apply (kframe_procs _ _ F3)).
  erewrite bind_ok by (apply (upd_proc_ok i _ (set_p_kstack 0 p)); rewrite Ep; apply list_lookup_insert_eq, Hlt).
  rewrite Ep, list_insert_insert_eq.
  do 4 (erewrite bind_ok by (eapply (upd_proc_ok i); apply list_lookup_insert_eq; rewrite ?length_insert; exact Hlt);
        cbn [k_procs set_procs]; rewrite list_insert_insert_eq).
  erewrite bind_ok.
  2: { apply (release_balanced LPtable s0); try assumption.
       - apply (kframe_locks _ _ F3).
       - apply (kframe_cpu_eq _ _ F3). cbn. destruct Hc. lia.
       - apply (kframe_apicids _ _ F3). }
  eexists fl', _. split; [reflexivity|]. split; [|split; [reflexivity|split; [reflexivity | exact L3]]].
  destruct I3 as [_ _ _ J4 J5 J6 J7 J8 J9]. pose proof (us_ps _ _ _ _ _ _ (zo_space _ _ _ _ _ Zo)) as [I0 _ _].
  constructor; try assumption.
  - destruct Hc. constructor; cbn; try assumption. rewrite (kframe_apicids _ _ F3). assumption.
  - pose proof (ki_lk _ _ _ I0) as J. unfold lock_free, locked_state in *. cbn [k_locks set_locks set_cpu set_procs] in *.
    rewrite fupd_ne in J by discriminate. exact J.
  - pose proof (ki_hlk _ _ _ I0) as J. unfold lock_free, locked_state in *. cbn [k_locks set_locks set_cpu set_procs] in *.
    rewrite fupd_ne in J by discriminate. exact J.
Qed.

(** C28 (proc.c, [wait]): with a child that has exited, [wait] returns the pid
    of the first such child, clears its table entry, and, if the child has no
    4 MB pages, gives back its kernel stack, its page directory, its page
    tables and every frame of its memory, each page once; the lock is free
    again.  Without children it returns -1 and changes nothing. *)
Theorem wait_reaps_child fl hl pt s i j p fuel :
  kinv fl hl s -> lock_free LPtable s -> c_proc (k_cpu s) = Some i -> length (k_procs s) = NPROC ->
  (k_procs s !! j = Some p -> zombie_child (Some i) p -> zombie_ok fl hl pt p (locked_state LPtable (touch s)) ->
   (forall j' q, (j' < j)%nat -> k_procs s !! j' = Some q -> ~ zombie_child (Some i) q) ->
   exists fl' s', wait (S fuel) s = Ok (p_pid p) s' /\ kinv fl' hl s' /\
     k_procs s' = <[j := reaped p]> (k_procs s) /\ k_locks s' = k_locks s /\
     fl' ≡ₚ p_pgdir p :: tables pt 0 1024 ++ frames (k_mem s) pt 0 (npages KERNBASE 0) ++ p_kstack p :: fl) /\
  ((forall j q, k_procs s !! j = Some q -> p_parent q <> Some i) ->
   wait (S fuel) s = Ok (-1) (touch s)).
Proof.
  intros I Hl Hi Hlen. pose proof (ki_cpu _ _ _ I) as Hc. pose proof (cpu_ok_touch s Hc) as Hct.
  assert (Hw : forall m, wait m s = wait_loop (Some i) m (locked_state LPtable (touch s))).
  { intros m. unfold wait. erewrite bind_ok by (apply myproc_ok, Hc). rewrite Hi.
    erewrite bind_ok by (apply acquire_ok; [exact Hct | apply Hl]). reflexivity. }
  split.
  - intros Hp Hz Zo Hfirst. assert (Hlt : (j < length (k_procs s))%nat) by (eapply lookup_lt_Some; exact Hp).
    destruct (wait_scan_reap fl hl pt (Some i) j p (touch s) _ (NPROC - S j)
      (false || existsb (child_of (Some i)) (take j (drop 0 (k_procs s)))) Hct Hl eq_refl Hp Hz Zo)
      as (fl' & s' & E & I' & Ep & El & L).
    exists fl', s'. split; [|auto]. rewrite Hw. cbn [wait_loop].
    replace NPROC with (j + S (NPROC - S j))%nat by lia.
    erewrite bind_ok.
    2: { rewrite (wait_scan_skip (Some i) (locked_state LPtable (touch s)) (S (NPROC - S j)) j 0 false); [exact E | |].
         - cbn [k_procs locked_state set_locks set_cpu touch]. lia.
         - intros j' q Hj'. apply Hfirst. lia. }
    reflexivity.
  - intros Hn. rewrite Hw. cbn [wait_loop].
    replace NPROC with (NPROC + 0)%nat by lia.
    erewrite bind_ok.
    2: { rewrite (wait_scan_skip (Some i) (locked_state LPtable (touch s)) 0 NPROC 0 false); [reflexivity | |].
         - cbn [k_procs locked_state set_locks set_cpu touch]. lia.
         - intros j' q Hj' Hq [Hq1 _]. eapply Hn; eassumption. }
    cbn [orb k_procs locked_state set_locks set_cpu touch drop].
    assert (Hex : existsb (child_of (Some i)) (take NPROC (k_procs s)) = false).
    { apply not_true_is_false. intros Hx. apply existsb_exists in Hx as (q & Hq & Hx).
      apply bool_decide_eq_true in Hx. rewrite take_ge in Hq by lia.
      apply list_elem_of_In, list_elem_of_lookup in Hq as (j' & Hq). eapply Hn; eassumption. }
    rewrite drop_0, Hex. cbn [negb]. erewrite bind_ok by reflexivity. cbv beta iota.
    erewrite bind_ok by (apply (release_balanced LPtable (touch s)); (assumption || reflexivity)).
    unfold ret. f_equal. unfold touch. cbn [k_cpu set_cpu k_locks]. rewrite touch_cpu_idem. destruct s; reflexivity.
Qed.

End Wait.

(** ** Concrete instances *)

(** Process 0 runs, with an empty page directory and one free page left. *)
Definition proc0 : proc :=
  set_p_state RUNNING (set_p_pid 1 (set_p_sz 4096 (set_p_kstack 0x80402000 (set_p_pgdir 0x80401000 zero_proc)))).
Definition run0 : kstate :=
  set_nextpid 2 (set_procs (<[0%nat := proc0]> (k_procs one_page))
    (set_cpu (set_c_proc (Some 0%nat) (k_cpu one_page)) one_page)).

Lemma run0_kinv : @kinv build_image [0x80400000] [] run0.
Proof.
  destruct one_page_kinv as [[H1 H2 H3] J2 J3 J4 J5 J6 J7 J8 J9]. constructor; try assumption.
  constructor; assumption.
Qed.

Lemma run0_current lim : 4096 <= lim <= KERNBASE -> lim mod 4096 = 0 ->
  @current build_image [0x80400000] [] ∅ lim 0 proc0 run0.
Proof.
  intros Hl Hm. constructor; [| reflexivity | reflexivity | discriminate | cbn; lia].
  eapply (@uspace_frame build_image); [apply blank_uspace; [apply Hl | exact Hm] | exact run0_kinv | reflexivity].
Qed.

Lemma run0_procs i p : k_procs run0 !! i = Some p -> i = 0%nat /\ p = proc0 \/ p = zero_proc.
Proof.
  intros Hp. change (k_procs run0) with (proc0 :: replicate 63 zero_proc) in Hp.
  destruct i as [|i]; [cbn in Hp; left; split; congruence|].
  right. change ((proc0 :: replicate 63 zero_proc) !! S i) with (replicate 63 zero_proc !! i) in Hp.
  apply lookup_replicate in Hp as [-> _]. reflexivity.
Qed.

Lemma run0_pids : pids_ok run0.
Proof.
  constructor.
  - intros i p Hp Hs. apply run0_procs in Hp as [[-> ->] | ->]; [cbn; lia | exfalso; apply Hs; reflexivity].
  - intros i j p q Hp Hq Hs Hs' _.
    apply run0_procs in Hp as [[-> ->] | ->]; [|exfalso; apply Hs; reflexivity].
    apply run0_procs in Hq as [[-> ->] | ->]; [reflexivity | exfalso; apply Hs'; reflexivity].
Qed.

Lemma kill_zero_hits_next_process_witness :
  exists s1 s2 p', kill 0 run0 = Ok 0 s1 /\ @allocproc build_image s1 = Ok (Some 1%nat) s2 /\
    k_procs s2 !! 1%nat = Some p' /\ p_state p' = EMBRYO /\ p_killed p' = 1.
Proof.
  apply (@kill_zero_hits_next_process build_image [] [] run0 1 zero_proc 0x80400000).
  - exact run0_kinv.
  - split; reflexivity.
  - reflexivity.
  - reflexivity.
  - reflexivity.
  - intros j r Hj Hr. assert (j = 0%nat) as -> by lia. injection Hr as <-. split; discriminate.
Defined.

Lemma growproc_grows_witness :
  exists r s', @growproc build_image 4096 run0 = Ok r s' /\
    (r = 0 \/ r = -1 /\ k_procs s' = k_procs run0).
Proof.
  destruct (@growproc_grows build_image [0x80400000] [] ∅ KERNBASE 0 proc0 run0 4096)
    as (r & fl' & pt' & s' & E & _ & _ & [(R & _) | (R & P & _)]).
  - apply run0_current; [unfold KERNBASE; lia | reflexivity].
  - lia.
  - cbn. unfold KERNBASE. lia.
  - cbn. unfold KERNBASE. lia.
  - intros v _. apply blank_unmapped.
  - exists r, s'. auto.
  - exists r, s'. auto.
Defined.

(** Giving back the whole memory: the call fails and the size stays. *)

Lemma growhugeproc_zero_witness :
  exists s', @growhugeproc build_image 0 run0 = Ok 0 s' /\
    k_procs s' = <[0%nat := set_p_hugesz 0xE2000000 proc0]> (k_procs run0).
Proof.
  apply (@growhugeproc_zero build_image [0x80400000] [] ∅ KERNBASE 0 proc0 run0).
  apply run0_current; [unfold KERNBASE; lia | reflexivity].
Defined.

(** Process 0 has one child, which has exited. *)
Definition child1 : proc :=
  set_p_parent (Some 0%nat) (set_p_state ZOMBIE (set_p_pid 2 (set_p_sz 4096
    (set_p_kstack 0x80404000 (set_p_pgdir 0x80401000 zero_proc))))).
Definition run1 : kstate :=
  set_mem (k_mem one_user) (set_procs (<[1%nat := child1]> (<[0%nat := zero_proc]> (k_procs run0))) run0).

Lemma run1_kinv : @kinv build_image [0x80400000] [] run1.
Proof.
  destruct (ps_inv _ _ _ _ _ one_user_pspace) as [[H1 H2 H3] J2 J3 J4 J5 J6 J7 J8 J9].
  constructor; try assumption. constructor; assumption.
Qed.

(** The child's directory, its page table, the frame of its page and its
    kernel stack come back. *)
Lemma wait_reaps_child_witness :
  exists fl' s', @wait build_image 1 run1 = Ok 2 s' /\ @kinv build_image fl' [] s' /\
    fl' ≡ₚ [0x80401000; 0x80402000; 0x80403000; 0x80404000; 0x80400000].
Proof.
  destruct (@wait_reaps_child build_image [0x80400000] [] {[ 0 := 0x80402000 ]} run1 0 1 child1 0) as [W _].
  - exact run1_kinv.
  - split; reflexivity.
  - reflexivity.
  - reflexivity.
  - destruct W as (fl' & s' & E & I' & _ & _ & L).
    + reflexivity.
    + split; reflexivity.
    + constructor.
      * eapply (@uspace_frame build_image); [apply (one_user_uspace KERNBASE); [lia | reflexivity] | | reflexivity].
        apply (@kinv_locked build_image); [|discriminate | discriminate].
        apply (@kinv_ktouch build_image true), run1_kinv.
      * repeat split; cbn; unfold KERNBASE, PHYSTOP; lia.
      * cbn. intros Hx. apply list_elem_of_singleton in Hx. discriminate.
      * intros [Hx | [j Hj]]; [discriminate | apply lookup_singleton_Some in Hj as [_ Hj]; discriminate].
      * unfold KERNBASE. intros v Hv Hp. change (k_mem _) with (k_mem one_user) in *. unfold frame.
        rewrite one_user_present in Hp by (unfold u32; lia). rewrite one_user_pte, Hp by (unfold u32; lia). discriminate.
    + intros j' q Hj Hq. assert (j' = 0%nat) as -> by lia. injection Hq as <-. intros [Hx _]. discriminate.
    + exists fl', s'. split; [exact E|]. split; [exact I'|]. rewrite L. change (k_mem run1) with (k_mem one_user).
      assert (Hn : Z.of_nat (npages KERNBASE 0) = 524288) by (rewrite npages_eq by (unfold KERNBASE; lia); reflexivity).
      rewrite one_user_frames by lia. reflexivity.
Defined.
