(* ===== verification/Race.v ===== *)
(** * solution/proc.c: a sleeper and a waker on two CPUs

    [sleep] and [wakeup] run one statement at a time, interleaved with each
    other and with what the rest of the system does.  A statement runs on the
    shared state with the [struct cpu] of its own CPU in place; an [acquire]
    that spins takes no step. *)

From Stdlib Require Import ZArith Lia FunctionalExtensionality.
From stdpp Require Import base list strings relations.
From S2P Require Import Prelude Mem Mmu Kernel Spinlock Kalloc Vm VmFacts Sched.

(** ** Two CPUs *)

Record race : Type := mkRace {
  r_state : kstate;
  r_sleeper : cpu;
  r_sleeper_code : list (K unit);
  r_waker : cpu;
  r_waker_code : list (K unit) }.

(** What the scheduler does once [swtch] is back in it and there is nothing
    else to run. *)
Definition back_in_scheduler : list (K unit) :=
  [switchkvm; upd_cpu (set_c_proc None); release LPtable].

(** The caller of [wakeup]: it changes the condition that the sleeper waits
    for, under the lock that guards it. *)
Definition waker_code (change : kstate -> kstate) (ch : chan) (lk : lockid) : list (K unit) :=
  [acquire lk; modify change] ++ wakeup_code ch ++ [release lk].

(** A change of what [lk] guards: neither the process table, nor the locks. *)
Definition keeps (change : kstate -> kstate) : Prop :=
  (forall s, k_procs (change s) = k_procs s) /\ (forall s, k_locks (change s) = k_locks s) /\
  (forall s, k_cpu (change s) = k_cpu s) /\ (forall s, k_apicids (change s) = k_apicids s).

(** One statement of one of the two.  A sleeper that switches away leaves its
    CPU to the scheduler. *)
Inductive cpu_step : race -> race -> Prop :=
| sleeper_ok s a code c d dcode s' :
    a (set_cpu c s) = Ok tt s' ->
    cpu_step (mkRace s c (a :: code) d dcode) (mkRace s' (k_cpu s') code d dcode)
| sleeper_switch s a code c d dcode s' k :
    a (set_cpu c s) = Switch s' k ->
    cpu_step (mkRace s c (a :: code) d dcode) (mkRace s' (k_cpu s') back_in_scheduler d dcode)
| waker_ok s a code c d ccode s' :
    a (set_cpu d s) = Ok tt s' ->
    cpu_step (mkRace s c ccode d (a :: code)) (mkRace s' c ccode (k_cpu s') code).

(** The other CPUs do anything they like, and take and release the two locks
    when neither of the two CPUs has them; entry [i] is left alone. *)
Definition foreign (c d : cpu) (l : lockid) (s : kstate) : Prop :=
  sl_cpu (k_locks s l) <> Some (c_apicid c) /\ sl_cpu (k_locks s l) <> Some (c_apicid d).
Definition others (i : nat) (lk : lockid) (m m' : race) : Prop :=
  exists s s' c ccode d dcode, m = mkRace s c ccode d dcode /\ m' = mkRace s' c ccode d dcode /\
    k_apicids s' = k_apicids s /\ k_procs s' !! i = k_procs s !! i /\
    forall l, l = lk \/ l = LPtable ->
      k_locks s' l = k_locks s l \/ foreign c d l s /\ foreign c d l s'.

Definition race_step (i : nat) (lk : lockid) (m m' : race) : Prop :=
  cpu_step m m' \/ others i lk m m'.

(** Neither CPU is about to panic or to fault. *)
Definition act_safe (code : list (K unit)) (c : cpu) (s : kstate) : Prop :=
  match code with
  | [] => True
  | a :: _ => match a (set_cpu c s) with Ok _ _ | Spin | Switch _ _ => True | _ => False end
  end.
Definition race_safe (m : race) : Prop :=
  act_safe (r_sleeper_code m) (r_sleeper m) (r_state m) /\
  act_safe (r_waker_code m) (r_waker m) (r_state m).

(** No third CPU has one of the two locks. *)
Definition unhindered (lk : lockid) (m : race) : Prop :=
  forall l, l = lk \/ l = LPtable ->
    sl_locked (k_locks (r_state m) l) = 0 \/ ~ foreign (r_sleeper m) (r_waker m) l (r_state m).

(** ** The locks a CPU has *)

Section Race.
Context (i : nat) (ch : chan) (lk : lockid) (p : proc) (change : kstate -> kstate).
Hypothesis (Hlk : lk <> LPtable).

(** A CPU that has exactly the locks [L] of the two, at nesting depth [n]. *)
Record has (L : list lockid) (n : Z) (c : cpu) (s : kstate) : Prop := {
  ha_cpu : cpu_ok (set_cpu c s);
  ha_ncli : c_ncli c = n;
  ha_locks : forall l, l = lk \/ l = LPtable ->
    if decide (l ∈ L) then exists nm, k_locks s l = mkSpinlock 1 nm (Some (c_apicid c))
    else sl_cpu (k_locks s l) <> Some (c_apicid c) }.

Lemma has_frame L n c s s' :
  has L n c s -> k_apicids s' = k_apicids s ->
  (forall l, l = lk \/ l = LPtable -> k_locks s' l = k_locks s l \/
     sl_cpu (k_locks s l) <> Some (c_apicid c) /\ sl_cpu (k_locks s' l) <> Some (c_apicid c)) ->
  has L n c s'.
Proof.
  intros [[H1 H2 H3] Hn Hl] Ha Hf. constructor; [constructor | exact Hn|].
  - cbn in *. rewrite Ha. exact H1.
  - exact H2.
  - exact H3.
  - intros l Hm. specialize (Hl l Hm). destruct (Hf l Hm) as [-> | [N1 N2]]; [exact Hl|].
    destruct (decide (l ∈ L)); [|exact N2]. destruct Hl as [nm E]. rewrite E in N1. exfalso. apply N1. reflexivity.
Qed.

(** What [acquire] does for its CPU, and to what another one has. *)
Lemma acquire_has L n c s l :
  has L n c s -> l = lk \/ l = LPtable -> l ∉ L ->
  (acquire l (set_cpu c s) = Spin /\ sl_locked (k_locks s l) <> 0) \/
  (sl_locked (k_locks s l) = 0 /\ acquire l (set_cpu c s) = Ok tt (locked_state l (set_cpu c s))).
Proof.
  intros [Hc Hn Hl] Hm Hi. specialize (Hl l Hm). rewrite decide_False in Hl by exact Hi.
  destruct (decide (sl_locked (k_locks s l) = 0)) as [E | E].
  - right. split; [exact E|]. apply acquire_ok; [exact Hc | exact E].
  - left. split; [|exact E]. rewrite acquire_held by (exact Hc || exact E). cbn. rewrite decide_False by exact Hl. reflexivity.
Qed.

Lemma has_acquired L n c s l :
  has L n c s -> l = lk \/ l = LPtable -> has (l :: L) (n + 1) (push_cpu c) (locked_state l (set_cpu c s)).
Proof.
  intros [Hc Hn Hl] Hm. constructor.
  - destruct (cpu_ok_push _ Hc). constructor; assumption.
  - cbn. lia.
  - intros l' Hm'. cbn. destruct (decide (l' = l)) as [-> | Hne].
    + rewrite decide_True by (apply list_elem_of_here). rewrite fupd_eq. eexists. reflexivity.
    + specialize (Hl l' Hm'). rewrite fupd_ne by exact Hne.
      destruct (decide (l' ∈ L)); [rewrite decide_True by (right; assumption) | rewrite decide_False by (rewrite elem_of_cons; tauto)]; exact Hl.
Qed.

Lemma has_other_acquired L n c d s l :
  has L n c s -> c_apicid c <> c_apicid d -> sl_locked (k_locks s l) = 0 ->
  has L n c (locked_state l (set_cpu d s)).
Proof.
  intros Hh Hne E. eapply has_frame; [exact Hh | reflexivity|]. intros l' Hm. cbn.
  destruct (decide (l' = l)) as [-> | Hn]; [|left; apply fupd_ne, Hn]. right. rewrite fupd_eq. cbn.
  split; [|congruence]. pose proof (ha_locks _ _ _ _ Hh l Hm) as Hl. case_decide; [|exact Hl].
  destruct Hl as [nm El]. rewrite El in E. discriminate.
Qed.

Lemma has_release L n c s l :
  has L n c s -> l = lk \/ l = LPtable -> l ∈ L -> 0 < n ->
  release l (set_cpu c s) = Ok tt (unlocked_state l (set_cpu c s)) /\
  forall L', (forall l', l' = lk \/ l' = LPtable -> l' ∈ L' <-> l' ∈ L /\ l' <> l) ->
    has L' (n - 1) (pop_cpu c) (unlocked_state l (set_cpu c s)).
Proof.
  intros [Hc Hn Hl] Hm Hi Hp. pose proof (Hl l Hm) as E. rewrite decide_True in E by exact Hi. split.
  - apply (release_holds l n); [|exact Hp]. constructor; [exact Hc | exact Hn | exact E].
  - intros L' HL. constructor.
    + destruct (cpu_ok_pop _ Hc ltac:(cbn; lia)). constructor; assumption.
    + cbn. lia.
    + intros l' Hm'. cbn. specialize (HL l' Hm'). destruct (decide (l' = l)) as [-> | Hne].
      * rewrite decide_False by tauto. rewrite fupd_eq. discriminate.
      * rewrite fupd_ne by exact Hne. specialize (Hl l' Hm').
        destruct (decide (l' ∈ L)); [rewrite decide_True by tauto | rewrite decide_False by tauto]; exact Hl.
Qed.

Lemma has_other_released L n c d s l :
  has L n c s -> c_apicid c <> c_apicid d -> (exists nm, k_locks s l = mkSpinlock 1 nm (Some (c_apicid d))) ->
  has L n c (unlocked_state l (set_cpu d s)).
Proof.
  intros Hh Hne [nm E]. eapply has_frame; [exact Hh | reflexivity|]. intros l' Hm. cbn.
  destruct (decide (l' = l)) as [-> | Hn]; [|left; apply fupd_ne, Hn]. right. rewrite fupd_eq, E. cbn.
  split; congruence.
Qed.

Lemma has_cpu L n c c' s s' :
  has L n c s -> c_apicid c' = c_apicid c -> c_ncli c' = c_ncli c -> c_if c' = c_if c ->
  k_locks s' = k_locks s -> k_apicids s' = k_apicids s -> has L n c' s'.
Proof.
  intros [[H1 H2 H3] Hn Hl] Ea En Ei El Es. cbn in *.
  constructor; [constructor; cbn; rewrite ?Ea, ?En, ?Ei, ?Es; assumption | congruence|].
  intros l Hm. rewrite El, Ea. exact (Hl l Hm).
Qed.

(** ** The phases of the two *)

Definition s_code (a : nat) : list (K unit) :=
  if (a <=? 4)%nat then drop a (sleep_code i ch lk) else drop (a - 5) back_in_scheduler.
Definition s_locks (a : nat) : list lockid :=
  match a with
  | 0 => [lk] | 1 => [LPtable; lk] | 2 | 3 | 4 | 5 | 6 | 7 => [LPtable] | _ => []
  end%nat.
Definition s_entry (a : nat) : proc :=
  match a with 0 | 1 | 2 => p | 3 => set_p_chan ch p | _ => asleep ch p end%nat.
Definition w_locks (b : nat) : list lockid :=
  match b with
  | 1 | 2 => [lk] | 3 | 4 => [LPtable; lk] | 5 => [lk] | _ => []
  end%nat.
Definition woken : proc := set_p_state RUNNABLE (asleep ch p).

(** The sleeper has done [a] statements and the waker [b]: once the waker has
    [lk], the sleeper has ptable.lock or is done with both, and once the waker
    has ptable.lock as well, the sleeper has switched away. *)
Record inv (n : Z) (a b : nat) (m : race) : Prop := {
  in_a : (a <= 8)%nat;
  in_b : (b <= 6)%nat;
  in_lk : (1 <= b)%nat -> (2 <= a)%nat;
  in_pt : (3 <= b)%nat -> a = 8%nat;
  in_s : has (s_locks a) (Z.of_nat (length (s_locks a))) (r_sleeper m) (r_state m);
  in_w : has (w_locks b) (n + Z.of_nat (length (w_locks b))) (r_waker m) (r_state m);
  in_ids : c_apicid (r_sleeper m) <> c_apicid (r_waker m);
  in_proc : (a <= 4)%nat -> c_proc (r_sleeper m) = Some i;
  in_scode : r_sleeper_code m = s_code a;
  in_wcode : r_waker_code m = drop b (waker_code change ch lk);
  in_entry : k_procs (r_state m) !! i = Some (if (4 <=? b)%nat then woken else s_entry a) }.

Lemma sleep_code_eq :
  sleep_code i ch lk =
    [acquire LPtable; release lk; upd_proc i (set_p_chan ch); upd_proc i (set_p_state SLEEPING); sched;
     upd_proc i (set_p_chan NoChan); release LPtable; acquire lk].
Proof. unfold sleep_code. rewrite bool_decide_eq_true_2 by exact Hlk. reflexivity. Qed.

(** What one statement may do to the locks. *)
Definition own_locks (c : cpu) (s s' : kstate) : Prop :=
  c_apicid (k_cpu s') = c_apicid c /\ forall l, k_locks s' l = k_locks s l \/ sl_locked (k_locks s' l) = 0 \/
    sl_cpu (k_locks s' l) = Some (c_apicid c).

Lemma own_locks_acquire c s l : own_locks c s (locked_state l (set_cpu c s)).
Proof.
  split; [reflexivity|]. intros l'. cbn. destruct (decide (l' = l)) as [-> | Hne].
  - rewrite fupd_eq. auto.
  - rewrite fupd_ne by exact Hne. auto.
Qed.

Lemma own_locks_release c s l : own_locks c s (unlocked_state l (set_cpu c s)).
Proof.
  split; [reflexivity|]. intros l'. cbn. destruct (decide (l' = l)) as [-> | Hne].
  - rewrite fupd_eq. auto.
  - rewrite fupd_ne by exact Hne. auto.
Qed.

(** The outcome of a statement: the CPU moves on, switches away, or spins on a
    lock that neither of the two has. *)
Definition outcome (next gone : kstate -> Prop) (c : cpu) (s : kstate) (stuck : lockid -> Prop)
    (r : result kstate unit) : Prop :=
  match r with
  | Ok _ s' => next s' /\ own_locks c s s'
  | Switch s' _ => gone s' /\ own_locks c s s'
  | Spin => exists l, (l = lk \/ l = LPtable) /\ sl_locked (k_locks s l) <> 0 /\ stuck l
  | _ => False
  end.

Lemma sleeper_next n a b m s' :
  inv n a b m -> (a < 8)%nat ->
  has (s_locks (S a)) (Z.of_nat (length (s_locks (S a)))) (k_cpu s') s' ->
  has (w_locks b) (n + Z.of_nat (length (w_locks b))) (r_waker m) s' ->
  own_locks (r_sleeper m) (r_state m) s' -> ((a < 4)%nat -> c_proc (k_cpu s') = Some i) ->
  k_procs s' !! i = Some (s_entry (S a)) ->
  inv n (S a) b (mkRace s' (k_cpu s') (s_code (S a)) (r_waker m) (r_waker_code m)).
Proof.
  intros [I1 I2 I3 I4 I5 I6 I7 I8 I9 I10 I11] Ha Hs Hw [Ei _] Hp He.
  constructor; cbn [r_state r_sleeper r_sleeper_code r_waker r_waker_code]; try assumption; try reflexivity.
  - intros Hb. specialize (I3 Hb). lia.
  - intros Hb. specialize (I4 Hb). lia.
  - congruence.
  - destruct (Nat.leb_spec 4 b); [specialize (I4 ltac:(lia)); lia | exact He].
Qed.

Definition sleeper_outcome (n : Z) (a b : nat) (m : race) : Prop :=
  match r_sleeper_code m with
  | [] => True
  | act :: code =>
      outcome (fun s' => inv n (S a) b (mkRace s' (k_cpu s') code (r_waker m) (r_waker_code m)))
        (fun s' => inv n (S a) b (mkRace s' (k_cpu s') back_in_scheduler (r_waker m) (r_waker_code m)))
        (r_sleeper m) (r_state m) (fun l => (l ∉ s_locks a) /\ (l ∉ w_locks b))
        (act (set_cpu (r_sleeper m) (r_state m)))
  end.

(** A statement that leaves the locks and the nesting alone. *)
Lemma sleeper_plain n a b m s' :
  inv n a b m -> (2 <= a < 7)%nat ->
  k_locks s' = k_locks (r_state m) -> k_apicids s' = k_apicids (r_state m) ->
  c_apicid (k_cpu s') = c_apicid (r_sleeper m) -> c_ncli (k_cpu s') = c_ncli (r_sleeper m) ->
  c_if (k_cpu s') = c_if (r_sleeper m) -> ((a < 4)%nat -> c_proc (k_cpu s') = Some i) ->
  k_procs s' !! i = Some (s_entry (S a)) ->
  inv n (S a) b (mkRace s' (k_cpu s') (s_code (S a)) (r_waker m) (r_waker_code m)) /\
  own_locks (r_sleeper m) (r_state m) s'.
Proof.
  intros I Ha El Es Ei En Ef Hp He.
  assert (Ho : own_locks (r_sleeper m) (r_state m) s') by (split; [exact Ei | intros l; left; rewrite El; reflexivity]).
  assert (E : s_locks (S a) = s_locks a) by (do 7 (destruct a as [|a]; [lia || reflexivity|]); lia).
  split; [|exact Ho]. apply sleeper_next with (a := a); auto; [lia | |].
  - rewrite E. eapply has_cpu; [apply (in_s _ _ _ _ I) | assumption..].
  - eapply has_cpu; [apply (in_w _ _ _ _ I) | reflexivity | reflexivity | reflexivity | assumption | assumption].
Qed.

Definition s_act (a : nat) : K unit :=
  match a with
  | 0 => acquire LPtable
  | 1 => release lk
  | 2 => upd_proc i (set_p_chan ch)
  | 3 => upd_proc i (set_p_state SLEEPING)
  | 4 => sched
  | 5 => switchkvm
  | 6 => upd_cpu (set_c_proc None)
  | _ => release LPtable
  end%nat.

Lemma s_code_cons a : (a < 8)%nat ->
  exists rest, s_code a = s_act a :: rest /\ (a <> 4%nat -> rest = s_code (S a)).
Proof.
  intros Ha. unfold s_code. rewrite sleep_code_eq.
  do 8 (destruct a as [|a]; [eexists; split; [reflexivity | intros ?; try congruence; reflexivity]|]). lia.
Qed.

(** The entry while the sleeper is not done. *)
Lemma in_entry_s n a b m : inv n a b m -> (a < 8)%nat -> k_procs (r_state m) !! i = Some (s_entry a).
Proof.
  intros I Ha. pose proof (in_entry _ _ _ _ I) as He. destruct (Nat.leb_spec 4 b); [|exact He].
  pose proof (in_pt _ _ _ _ I). lia.
Qed.

Lemma sleeper_acquires n b m : inv n 0 b m -> sleeper_outcome n 0 b m.
Proof.
  intros I. assert (b = 0%nat) as -> by (pose proof (in_lk _ _ _ _ I); lia).
  destruct (s_code_cons 0 ltac:(lia)) as (rest & Ec & Er). rewrite Er in Ec by discriminate. clear rest Er.
  unfold sleeper_outcome. rewrite (in_scode _ _ _ _ I), Ec. cbn [s_act].
  pose proof (in_s _ _ _ _ I) as Hs. cbn [s_locks length] in Hs.
  destruct (acquire_has _ _ _ _ LPtable Hs) as [[-> E] | [E ->]];
    [auto | rewrite list_elem_of_singleton; congruence | |]; cbn [outcome].
  - exists LPtable. cbn. rewrite list_elem_of_singleton. split; [auto|]. split; [exact E|].
    split; [congruence | apply not_elem_of_nil].
  - split; [|apply own_locks_acquire]. apply (sleeper_next n 0 0 m); auto; [lia | | | apply own_locks_acquire | |].
    + apply (has_acquired _ _ _ _ LPtable Hs). auto.
    + apply has_other_acquired; [apply I | apply not_eq_sym, I | exact E].
    + intros _. apply (in_proc _ _ _ _ I). lia.
    + apply (in_entry _ _ _ _ I).
Qed.

(** The two statements of the sleeper's CPU that release a lock. *)
Lemma sleeper_releases n a b m l :
  inv n a b m -> (a < 8)%nat -> a <> 4%nat -> s_act a = release l -> l = lk \/ l = LPtable -> l ∈ s_locks a ->
  length (s_locks a) = S (length (s_locks (S a))) -> s_entry (S a) = s_entry a ->
  (forall l', l' = lk \/ l' = LPtable -> l' ∈ s_locks (S a) <-> l' ∈ s_locks a /\ l' <> l) ->
  sleeper_outcome n a b m.
Proof.
  intros I Ha H4 Eact Hm Hin Elen Een HL. destruct (s_code_cons a Ha) as (rest & Ec & Er).
  rewrite Er in Ec by exact H4. clear rest Er.
  unfold sleeper_outcome. rewrite (in_scode _ _ _ _ I), Ec, Eact. pose proof (in_s _ _ _ _ I) as Hs.
  destruct (has_release _ _ _ _ l Hs Hm Hin) as [-> Hr]; [lia|]. cbn [outcome].
  split; [|apply own_locks_release]. apply (sleeper_next n a b m); auto; [| | apply own_locks_release | |].
  - replace (Z.of_nat (length (s_locks (S a)))) with (Z.of_nat (length (s_locks a)) - 1) by lia. apply Hr, HL.
  - apply has_other_released; [apply I | apply not_eq_sym, I |].
    pose proof (ha_locks _ _ _ _ Hs l Hm) as Hl. rewrite decide_True in Hl by exact Hin. exact Hl.
  - intros Hlt. apply (in_proc _ _ _ _ I). lia.
  - rewrite Een. apply (in_entry_s n a b m I Ha).
Qed.

Lemma sleeper_moves n a b m : inv n a b m -> sleeper_outcome n a b m.
Proof.
  intros I. pose proof (in_a _ _ _ _ I) as Ha.
  destruct (decide (a = 0%nat)) as [-> | H0]; [apply sleeper_acquires, I|].
  destruct (decide (a = 1%nat)) as [-> | H1].
  { apply (sleeper_releases n 1 b m lk I); auto; [lia | right; left|].
    intros l [-> | ->]; cbn; rewrite !elem_of_cons, !elem_of_nil; intuition congruence. }
  destruct (decide (a = 7%nat)) as [-> | H7].
  { apply (sleeper_releases n 7 b m LPtable I); auto; [left|].
    intros l [-> | ->]; cbn; rewrite ?elem_of_cons, !elem_of_nil; intuition congruence. }
  destruct (decide (a = 8%nat)) as [-> | H8]; [unfold sleeper_outcome; rewrite (in_scode _ _ _ _ I); exact Logic.I|].
  pose proof (in_entry_s n a b m I ltac:(lia)) as He. pose proof (lookup_lt_Some _ _ _ He) as Hlt.
  destruct (s_code_cons a ltac:(lia)) as (rest & Ec & Er).
  unfold sleeper_outcome. rewrite (in_scode _ _ _ _ I), Ec.
  destruct (decide (a = 4%nat)) as [-> | H4].
  - pose proof (in_s _ _ _ _ I) as Hs. cbn [s_act].
    erewrite (sched_switch _ i (asleep ch p)); [| | apply (in_proc _ _ _ _ I); lia | exact He | discriminate].
    + cbn [outcome]. apply (sleeper_plain n 4 b m); auto; lia.
    + constructor; [apply Hs | apply Hs |]. pose proof (ha_locks _ _ _ _ Hs LPtable (or_intror eq_refl)) as Hl.
      rewrite decide_True in Hl; [exact Hl | left].
  - rewrite Er by exact H4. destruct a as [|[|[|[|[|[|[|a]]]]]]]; try congruence; try lia; cbn [s_act].
    + erewrite upd_proc_ok by exact He. apply (sleeper_plain n 2 b m); auto; [lia | |].
      * intros _. apply (in_proc _ _ _ _ I). lia.
      * apply list_lookup_insert_eq, Hlt.
    + erewrite upd_proc_ok by exact He. apply (sleeper_plain n 3 b m); auto; [lia | |].
      * intros _. apply (in_proc _ _ _ _ I). lia.
      * apply list_lookup_insert_eq, Hlt.
    + apply (sleeper_plain n 5 b m); auto; lia.
    + apply (sleeper_plain n 6 b m); auto; lia.
Qed.

(** ** The waker *)

Hypothesis (Hchange : keeps change).

Lemma waker_next n a b m s' :
  inv n a b m -> (b < 6)%nat ->
  (b = 0%nat -> (2 <= a)%nat) -> (b = 2%nat -> a = 8%nat) ->
  has (s_locks a) (Z.of_nat (length (s_locks a))) (r_sleeper m) s' ->
  has (w_locks (S b)) (n + Z.of_nat (length (w_locks (S b)))) (k_cpu s') s' ->
  own_locks (r_waker m) (r_state m) s' ->
  k_procs s' !! i = Some (if (4 <=? S b)%nat then woken else s_entry a) ->
  inv n a (S b) (mkRace s' (r_sleeper m) (r_sleeper_code m) (k_cpu s') (drop (S b) (waker_code change ch lk))).
Proof.
  intros [I1 I2 I3 I4 I5 I6 I7 I8 I9 I10 I11] Hb H0 H2 Hs Hw [Ei _] He.
  constructor; cbn [r_state r_sleeper r_sleeper_code r_waker r_waker_code]; try assumption; try reflexivity.
  - intros _. destruct b as [|b]; [auto | apply I3; lia].
  - intros Hb'. destruct (decide (b = 2%nat)) as [-> | Hn]; [auto | apply I4; lia].
  - congruence.
Qed.

Definition waker_outcome (n : Z) (a b : nat) (m : race) : Prop :=
  match r_waker_code m with
  | [] => True
  | act :: code =>
      outcome (fun s' => inv n a (S b) (mkRace s' (r_sleeper m) (r_sleeper_code m) (k_cpu s') code))
        (fun _ => False) (r_waker m) (r_state m) (fun l => l ∉ w_locks b)
        (act (set_cpu (r_waker m) (r_state m)))
  end.

Lemma waker_acquires n a b m l :
  inv n a b m -> (b < 6)%nat -> drop b (waker_code change ch lk) = acquire l :: drop (S b) (waker_code change ch lk) ->
  l = lk \/ l = LPtable -> l ∉ w_locks b -> w_locks (S b) = l :: w_locks b -> (4 <=? b)%nat = (4 <=? S b)%nat ->
  (l ∉ s_locks a -> (b = 0%nat -> (2 <= a)%nat) /\ (b = 2%nat -> a = 8%nat)) ->
  waker_outcome n a b m.
Proof.
  intros I Hb Ec Hm Hni El E4 Ha. unfold waker_outcome. rewrite (in_wcode _ _ _ _ I), Ec.
  pose proof (in_w _ _ _ _ I) as Hw. pose proof (in_s _ _ _ _ I) as Hs.
  destruct (acquire_has _ _ _ _ l Hw Hm Hni) as [[-> E] | [E ->]]; cbn [outcome].
  - exists l. auto.
  - split; [|apply own_locks_acquire].
    assert (Hf : l ∉ s_locks a).
    { intros Hi. pose proof (ha_locks _ _ _ _ Hs l Hm) as Hl. rewrite decide_True in Hl by exact Hi.
      destruct Hl as [nm Enm]. rewrite Enm in E. discriminate. }
    destruct (Ha Hf) as [H0 H2]. apply (waker_next n a b m); auto; [| | apply own_locks_acquire |].
    + apply has_other_acquired; [exact Hs | apply I | exact E].
    + rewrite El. replace (n + Z.of_nat (length (l :: w_locks b))) with (n + Z.of_nat (length (w_locks b)) + 1)
        by (cbn [length]; lia). apply has_acquired; assumption.
    + rewrite <- E4. apply (in_entry _ _ _ _ I).
Qed.

Lemma waker_releases n a b m l :
  inv n a b m -> 0 <= n -> (3 < b < 6)%nat ->
  drop b (waker_code change ch lk) = release l :: drop (S b) (waker_code change ch lk) ->
  l = lk \/ l = LPtable -> l ∈ w_locks b -> length (w_locks b) = S (length (w_locks (S b))) ->
  (forall l', l' = lk \/ l' = LPtable -> l' ∈ w_locks (S b) <-> l' ∈ w_locks b /\ l' <> l) ->
  waker_outcome n a b m.
Proof.
  intros I Hn Hb Ec Hm Hin Elen HL. unfold waker_outcome. rewrite (in_wcode _ _ _ _ I), Ec.
  pose proof (in_w _ _ _ _ I) as Hw.
  destruct (has_release _ _ _ _ l Hw Hm Hin) as [-> Hr]; [lia|]. cbn [outcome].
  split; [|apply own_locks_release]. apply (waker_next n a b m); auto; try lia; [| | apply own_locks_release |].
  - apply has_other_released; [apply I | apply I |].
    pose proof (ha_locks _ _ _ _ Hw l Hm) as Hl. rewrite decide_True in Hl by exact Hin. exact Hl.
  - replace (n + Z.of_nat (length (w_locks (S b)))) with (n + Z.of_nat (length (w_locks b)) - 1) by lia. apply Hr, HL.
  - pose proof (in_entry _ _ _ _ I) as He. destruct (Nat.leb_spec 4 b); [|lia].
    destruct (Nat.leb_spec 4 (S b)); [exact He | lia].
Qed.

(** A statement of the waker that leaves the locks and its CPU alone. *)
Lemma waker_plain n a b m s' :
  inv n a b m -> b = 1%nat \/ b = 3%nat ->
  k_locks s' = k_locks (r_state m) -> k_apicids s' = k_apicids (r_state m) -> k_cpu s' = r_waker m ->
  k_procs s' !! i = Some (if (4 <=? S b)%nat then woken else s_entry a) ->
  inv n a (S b) (mkRace s' (r_sleeper m) (r_sleeper_code m) (k_cpu s') (drop (S b) (waker_code change ch lk))) /\
  own_locks (r_waker m) (r_state m) s'.
Proof.
  intros I Hb El Es Ec He.
  assert (Ho : own_locks (r_waker m) (r_state m) s')
    by (split; [rewrite Ec; reflexivity | intros l; left; rewrite El; reflexivity]).
  assert (E : w_locks (S b) = w_locks b) by (destruct Hb as [-> | ->]; reflexivity).
  split; [|exact Ho]. apply (waker_next n a b m); auto; try lia.
  - eapply has_cpu; [apply (in_s _ _ _ _ I) | reflexivity.. | assumption | assumption].
  - rewrite E, Ec. eapply has_cpu; [apply (in_w _ _ _ _ I) | reflexivity.. | assumption | assumption].
Qed.

Lemma waker_moves n a b m : 0 <= n -> inv n a b m -> waker_outcome n a b m.
Proof.
  intros Hn I. pose proof (in_b _ _ _ _ I) as Hb. pose proof (in_lk _ _ _ _ I) as H1.
  pose proof (in_pt _ _ _ _ I) as H3. pose proof (in_a _ _ _ _ I) as Ha.
  destruct b as [|[|[|[|[|[|b]]]]]].
  - apply (waker_acquires n a 0 m lk I); auto; [lia | apply not_elem_of_nil|].
    intros Hf. split; [intros _ | lia]. destruct a as [|[|a]]; [| |lia]; exfalso; apply Hf; [left | right; left].
  - unfold waker_outcome. rewrite (in_wcode _ _ _ _ I). cbn [waker_code app drop]. unfold modify. cbn [outcome].
    destruct Hchange as (E1 & E2 & E3 & E4).
    apply (waker_plain n a 1 m _ I); auto; rewrite ?E1, ?E2, ?E3, ?E4; auto. apply (in_entry _ _ _ _ I).
  - apply (waker_acquires n a 2 m LPtable I); auto; [cbn; rewrite list_elem_of_singleton; congruence|].
    intros Hf. split; [lia|]. intros _. specialize (H1 ltac:(lia)).
    do 8 (destruct a as [|a]; [try lia; exfalso; apply Hf; left|]). lia.
  - unfold waker_outcome. rewrite (in_wcode _ _ _ _ I). cbn [waker_code wakeup_code app drop].
    unfold wakeup1, modify. cbn [outcome]. apply (waker_plain n a 3 m _ I); auto.
    cbn [k_procs set_procs]. rewrite lookup_wake. cbn [k_procs set_cpu].
    rewrite (in_entry _ _ _ _ I), (H3 ltac:(lia)). cbn. unfold wake. rewrite decide_True by (split; reflexivity).
    reflexivity.
  - apply (waker_releases n a 4 m LPtable I); auto; [left|].
    intros l [-> | ->]; cbn; rewrite !elem_of_cons, !elem_of_nil; intuition congruence.
  - apply (waker_releases n a 5 m lk I); auto; [left|].
    intros l [-> | ->]; cbn; rewrite ?elem_of_cons, !elem_of_nil; intuition congruence.
  - unfold waker_outcome. rewrite (in_wcode _ _ _ _ I). destruct b; exact Logic.I.
Qed.

(** ** Every interleaving *)

Lemma inv_step n a b m m' :
  0 <= n -> inv n a b m -> race_step i lk m m' -> exists a' b', inv n a' b' m'.
Proof.
  intros Hn I [Hc | Ho]; [revert I; destruct Hc as [s act code c d dcode s' E | s act code c d dcode s' k E |
    s act code c d ccode s' E]; intros I|].
  - exists (S a), b. pose proof (sleeper_moves n a b _ I) as H. unfold sleeper_outcome in H.
    cbn [r_sleeper r_sleeper_code r_waker r_waker_code r_state] in H. rewrite E in H. apply H.
  - exists (S a), b. pose proof (sleeper_moves n a b _ I) as H. unfold sleeper_outcome in H.
    cbn [r_sleeper r_sleeper_code r_waker r_waker_code r_state] in H. rewrite E in H. apply H.
  - exists a, (S b). pose proof (waker_moves n a b _ Hn I) as H. unfold waker_outcome in H.
    cbn [r_sleeper r_sleeper_code r_waker r_waker_code r_state] in H. rewrite E in H. apply H.
  - destruct Ho as (s & s' & c & ccode & d & dcode & -> & -> & Ea & Ep & Hl). exists a, b.
    destruct I as [I1 I2 I3 I4 I5 I6 I7 I8 I9 I10 I11]. cbn in *. constructor; cbn; try assumption.
    + eapply has_frame; [exact I5 | exact Ea|]. intros l Hm. destruct (Hl l Hm) as [E | [[] []]]; auto.
    + eapply has_frame; [exact I6 | exact Ea|]. intros l Hm. destruct (Hl l Hm) as [E | [[] []]]; auto.
    + congruence.
Qed.

Lemma inv_steps n a b m m' :
  0 <= n -> inv n a b m -> rtc (race_step i lk) m m' -> exists a' b', inv n a' b' m'.
Proof.
  intros Hn I Hr. revert a b I. induction Hr as [m | m m1 m2 Hs _ IH]; intros a b I; [eauto|].
  destruct (inv_step n a b m m1 Hn I Hs) as (a' & b' & I'). exact (IH a' b' I').
Qed.

Lemma inv_safe n a b m : 0 <= n -> inv n a b m -> race_safe m.
Proof.
  intros Hn I. pose proof (sleeper_moves n a b m I) as Hs. pose proof (waker_moves n a b m Hn I) as Hw.
  unfold sleeper_outcome, waker_outcome, outcome in *. unfold race_safe, act_safe. split.
  - destruct (r_sleeper_code m); [exact Logic.I|]. destruct (_ (set_cpu (r_sleeper m) (r_state m))); auto.
  - destruct (r_waker_code m); [exact Logic.I|]. destruct (_ (set_cpu (r_waker m) (r_state m))); auto.
Qed.

(** A lock that neither has and no third CPU either is free. *)
Lemma unhindered_free n a b m l :
  inv n a b m -> unhindered lk m -> l = lk \/ l = LPtable -> l ∉ s_locks a -> l ∉ w_locks b ->
  sl_locked (k_locks (r_state m) l) = 0.
Proof.
  intros I Hu Hm Hs Hw. destruct (Hu l Hm) as [H | H]; [exact H|]. exfalso. apply H. split.
  - pose proof (ha_locks _ _ _ _ (in_s _ _ _ _ I) l Hm) as Hl. rewrite decide_False in Hl by exact Hs. exact Hl.
  - pose proof (ha_locks _ _ _ _ (in_w _ _ _ _ I) l Hm) as Hl. rewrite decide_False in Hl by exact Hw. exact Hl.
Qed.

Lemma unhindered_sleeper s c code d dcode s' code' :
  unhindered lk (mkRace s c code d dcode) -> own_locks c s s' -> unhindered lk (mkRace s' (k_cpu s') code' d dcode).
Proof.
  intros Hu [Ei Ho] l Hm. specialize (Hu l Hm). unfold foreign in *. cbn in *. rewrite Ei.
  destruct (Ho l) as [E | [E | E]]; [rewrite E; exact Hu | left; exact E | right; tauto].
Qed.

Lemma unhindered_waker s c code d dcode s' code' :
  unhindered lk (mkRace s c code d dcode) -> own_locks d s s' -> unhindered lk (mkRace s' c code (k_cpu s') code').
Proof.
  intros Hu [Ei Ho] l Hm. specialize (Hu l Hm). unfold foreign in *. cbn in *. rewrite Ei.
  destruct (Ho l) as [E | [E | E]]; [rewrite E; exact Hu | left; exact E | right; tauto].
Qed.

(** Left to themselves, the sleeper gets to its end, and then the waker. *)
Lemma sleeper_runs n b : forall k a m, (a + k = 8)%nat -> inv n a b m -> unhindered lk m ->
  exists m', rtc cpu_step m m' /\ inv n 8 b m' /\ unhindered lk m'.
Proof.
  induction k as [|k IH]; intros a m Ha I Hu.
  { replace a with 8%nat in I by lia. exists m. split; [apply rtc_refl | auto]. }
  pose proof (sleeper_moves n a b m I) as H. pose proof (in_scode _ _ _ _ I) as Ec.
  destruct (s_code_cons a ltac:(lia)) as (rest & Es & _). unfold sleeper_outcome in H.
  destruct m as [s c code d dcode]. cbn in *. subst code. rewrite Es in *.
  destruct (s_act a (set_cpu c s)) as [[] s' | | | | s' k' |] eqn:E; cbn [outcome] in H; try contradiction.
  - destruct H as [I' Ho]. destruct (IH (S a) _ ltac:(lia) I' (unhindered_sleeper _ _ _ _ _ _ _ Hu Ho)) as (m' & Hr & H').
    exists m'. split; [|exact H']. eapply rtc_l; [|exact Hr]. apply sleeper_ok, E.
  - destruct H as (l & Hm & Hl & H1 & H2). exfalso. apply Hl, (unhindered_free n a b _ l I Hu Hm H1 H2).
  - destruct H as [I' Ho]. destruct (IH (S a) _ ltac:(lia) I' (unhindered_sleeper _ _ _ _ _ _ _ Hu Ho)) as (m' & Hr & H').
    exists m'. split; [|exact H']. eapply rtc_l; [|exact Hr]. eapply sleeper_switch, E.
Qed.

Lemma waker_runs n : 0 <= n -> forall k b m, (b + k = 6)%nat -> inv n 8 b m -> unhindered lk m ->
  exists m', rtc cpu_step m m' /\ inv n 8 6 m'.
Proof.
  intros Hn. induction k as [|k IH]; intros b m Hb I Hu.
  { replace b with 6%nat in I by lia. exists m. split; [apply rtc_refl | auto]. }
  pose proof (waker_moves n 8 b m Hn I) as H. pose proof (in_wcode _ _ _ _ I) as Ec. unfold waker_outcome in H.
  destruct m as [s c code d dcode]. cbn in *.
  destruct dcode as [|act dcode].
  { apply (f_equal length) in Ec. rewrite length_drop in Ec. cbn in Ec. lia. }
  destruct (act (set_cpu d s)) as [[] s' | | | | s' k' |] eqn:E; cbn [outcome] in H; try contradiction.
  - destruct H as [I' Ho]. destruct (IH (S b) _ ltac:(lia) I' (unhindered_waker _ _ _ _ _ _ _ Hu Ho)) as (m' & Hr & H').
    exists m'. split; [|exact H']. eapply rtc_l; [|exact Hr]. apply waker_ok, E.
  - destruct H as (l & Hm & Hl & H1). exfalso.
    apply Hl, (unhindered_free n 8 b _ l I Hu Hm); [apply not_elem_of_nil | exact H1].
  - destruct H as [[] _].
Qed.

Lemma inv_start s d :
  holds lk 1 s -> lock_free LPtable s -> c_proc (k_cpu s) = Some i -> k_procs s !! i = Some p ->
  cpu_ok (set_cpu d s) -> c_apicid d <> c_apicid (k_cpu s) ->
  inv (c_ncli d) 0 0 (mkRace s (k_cpu s) (sleep_code i ch lk) d (waker_code change ch lk)).
Proof.
  intros [Hc Hn [nm Hl]] [Hf Hfc] Hp He Hd Hne.
  constructor; cbn [r_state r_sleeper r_sleeper_code r_waker r_waker_code]; try assumption; try reflexivity; try lia.
  - constructor; [destruct Hc; constructor; assumption | exact Hn|].
    intros l [-> | ->]; cbn [s_locks].
    + rewrite decide_True by left. exists nm. exact Hl.
    + rewrite decide_False by (rewrite list_elem_of_singleton; congruence). rewrite Hfc. discriminate.
  - constructor; [exact Hd | cbn; lia|].
    intros l [-> | ->]; cbn [w_locks]; rewrite decide_False by apply not_elem_of_nil; [rewrite Hl | rewrite Hfc];
      cbn; congruence.
  - congruence.
Qed.

Lemma inv_woken n a b m :
  inv n a b m -> r_waker_code m `suffix_of` [release LPtable; release lk] ->
  k_procs (r_state m) !! i = Some woken.
Proof.
  intros I Hs. apply suffix_length in Hs. rewrite (in_wcode _ _ _ _ I), length_drop in Hs. cbn in Hs.
  pose proof (in_entry _ _ _ _ I) as He. destruct (Nat.leb_spec 4 b); [exact He | lia].
Qed.

Lemma inv_ends n a b m :
  0 <= n -> inv n a b m -> unhindered lk m ->
  exists m', rtc cpu_step m m' /\ r_sleeper_code m' = [] /\ r_waker_code m' = [] /\
    k_procs (r_state m') !! i = Some woken.
Proof.
  intros Hn I Hu. pose proof (in_a _ _ _ _ I) as Ha.
  destruct (sleeper_runs n b (8 - a) a m ltac:(lia) I Hu) as (m1 & R1 & I1 & Hu1).
  pose proof (in_b _ _ _ _ I1) as Hb.
  destruct (waker_runs n Hn (6 - b) b m1 ltac:(lia) I1 Hu1) as (m2 & R2 & I2).
  exists m2. split; [etransitivity; [exact R1 | exact R2]|].
  rewrite (in_scode _ _ _ _ I2), (in_wcode _ _ _ _ I2), (in_entry _ _ _ _ I2). auto.
Qed.

End Race.

(** C13 (proc.c, [sleep] and [wakeup]): no wakeup is lost.  A process that
    holds only [lk], which guards the condition it waits for, sleeps on [ch],
    while another CPU takes [lk], changes the condition, calls [wakeup(ch)] and
    releases [lk]; other CPUs come in between as they like.  In every
    interleaving of their statements neither panics; once [wakeup] has gone
    through the process table the sleeper is RUNNABLE, never left SLEEPING;
    and from every point at which no third CPU has one of the locks, the two
    can go on to their ends, so they cannot deadlock.  On its own CPU, [sleep]
    switches away with the process SLEEPING on [ch], ptable.lock held and [lk]
    free, and when the scheduler switches back it returns with [lk] held again,
    ptable.lock free and the channel cleared. *)
Theorem sleep_wakeup s d i p ch lk change :
  lk <> LPtable -> holds lk 1 s -> lock_free LPtable s ->
  c_proc (k_cpu s) = Some i -> k_procs s !! i = Some p ->
  keeps change -> cpu_ok (set_cpu d s) -> c_apicid d <> c_apicid (k_cpu s) ->
  (forall m,
     rtc (race_step i lk) (mkRace s (k_cpu s) (sleep_code i ch lk) d (waker_code change ch lk)) m ->
     race_safe m /\
     (r_waker_code m `suffix_of` [release LPtable; release lk] ->
      k_procs (r_state m) !! i = Some (set_p_state RUNNABLE (asleep ch p))) /\
     (unhindered lk m -> exists m', rtc cpu_step m m' /\
        r_sleeper_code m' = [] /\ r_waker_code m' = [] /\
        k_procs (r_state m') !! i = Some (set_p_state RUNNABLE (asleep ch p)))) /\
  (exists s1 k, sleep ch (Some lk) s = Switch s1 k /\
     k_procs s1 = <[i := asleep ch p]> (k_procs s) /\ holds LPtable 1 s1 /\ lock_free lk s1 /\
     forall s2 q, holds LPtable 1 s2 -> lock_free lk s2 -> k_procs s2 !! i = Some q ->
       exists s3, k s2 = Ok tt s3 /\ holds lk 1 s3 /\ lock_free LPtable s3 /\
         k_procs s3 = <[i := set_p_chan NoChan q]> (k_procs s2)).
Proof.
  intros Hlk Hl Hpt Hc Hp Hch Hd Hne. split.
  - intros m Hr. pose proof (cpu_ncli _ Hd) as Hn. cbn in Hn.
    pose proof (inv_start i ch lk p change Hlk s d Hl Hpt Hc Hp Hd Hne) as I.
    eapply inv_steps in Hr as (a & b & I'); [|eassumption..].
    split; [eapply inv_safe; eassumption|]. split; [eapply inv_woken, I' | eapply inv_ends; eassumption].
  - destruct (sleep_switches s i p ch lk Hl Hlk Hpt Hc Hp) as (H1 & H2 & E).
    eexists _, _. split; [exact E|]. split; [reflexivity|]. split; [exact H1|]. split; [exact H2|].
    intros s2 q Hh Hf Hq. edestruct (sleep_resumes s2 i q lk) as (Er & Hr & Hfr); [eassumption..|].
    eexists. split; [exact Er|]. split; [exact Hr|]. split; [exact Hfr | reflexivity].
Qed.

(** Process 0 sleeps for ticks as in sys_sleep, and the timer interrupt of
    another CPU counts one up: the two get to their ends. *)
Definition two_cpus : kstate :=
  mkK (k_mem run0) (k_cpu run0) [0; 1] (k_locks run0) (k_kmem run0) (k_khugemem run0) (k_procs run0)
    (k_initproc run0) (k_nextpid run0) (k_kpgdir run0) (k_ticks run0) (k_thp run0) (k_out run0) (k_files run0)
    (k_pipes run0) (k_fs run0) (k_input run0).
Definition cpu1 : cpu := mkCpu 1 0 false false None 0 [] 0 0 0 0 0.

Lemma sleep_wakeup_witness :
  exists m,
    rtc cpu_step
      (mkRace (locked_state LTicks two_cpus) (k_cpu (locked_state LTicks two_cpus))
         (sleep_code 0 ChTicks LTicks) cpu1
         (waker_code (fun s => set_ticks (w32 (k_ticks s + 1)) s) ChTicks LTicks)) m /\
    r_sleeper_code m = [] /\ r_waker_code m = [] /\
    k_procs (r_state m) !! 0%nat = Some (set_p_state RUNNABLE (asleep ChTicks proc0)).
Proof.
  destruct (sleep_wakeup (locked_state LTicks two_cpus) cpu1 0 proc0 ChTicks LTicks
    (fun s => set_ticks (w32 (k_ticks s + 1)) s)) as [H _].
  - discriminate.
  - apply (locked_holds LTicks two_cpus). constructor; [reflexivity | vm_compute; discriminate | intros _; reflexivity].
  - split; reflexivity.
  - reflexivity.
  - reflexivity.
  - repeat split.
  - constructor; [reflexivity | vm_compute; discriminate | intros _; reflexivity].
  - discriminate.
  - destruct (H _ (rtc_refl _ _)) as (_ & _ & Hends). apply Hends.
    intros l [-> | ->]; [right | left; reflexivity]. intros [Hf _]. apply Hf. reflexivity.
Defined.
