(* ===== verification/Runs.v ===== *)
(** * Executions of kernel code with context switches

    A process that runs in the kernel gives up the CPU only in swtch().  What
    the rest of the system does until the scheduler comes back is a relation
    [E] between the states before and after.  [wp E R Q h s0 r] says of the
    result [r] of some kernel code, for every behaviour of the rest of the
    system that [E] allows: it neither panics nor faults nor waits for a spin
    lock, and when it returns, [Q] holds.  [Q] sees the stretches between
    switches: [h] lists the pairs of first and last state of those that are
    over, [s0] is the first state of the last one.  The model's bound [rounds]
    on the number of wakeups may be exceeded only after [R] switches. *)

From Stdlib Require Import ZArith Lia FunctionalExtensionality.
From stdpp Require Import base list strings gmap.
From S2P Require Import Prelude Mem Mmu Kernel Spinlock Kalloc Vm VmFacts Sched.

Definition hist : Type := list (kstate * kstate).

Inductive wp (E : kstate -> kstate -> Prop) (R : nat) {A} (Q : hist -> kstate -> A -> kstate -> Prop)
  : hist -> kstate -> result kstate A -> Prop :=
| wp_ok h s0 a s : Q h s0 a s -> wp E R Q h s0 (Ok a s)
| wp_switch h s0 s k :
    (forall s', E s s' -> wp E R Q (h ++ [(s0, s)]) s' (k s')) -> wp E R Q h s0 (Switch s k)
| wp_nofuel h s0 : (R <= length h)%nat -> wp E R Q h s0 NoFuel.

Section Wp.
Context (E : kstate -> kstate -> Prop) (R : nat).

Lemma wp_bind {A B} (m : K A) (k : A -> K B) Q Q' h s0 s :
  wp E R Q' h s0 (m s) ->
  (forall h s0 a s, Q' h s0 a s -> wp E R Q h s0 (k a s)) ->
  wp E R Q h s0 (bind m k s).
Proof.
  intros Hm Hk. rewrite bind_andthen. revert Hm. generalize (m s). intros r Hm.
  induction Hm as [h s0 a s1 HQ|h s0 s1 f Hf IH|h s0 Hh]; cbn [andthen].
  - apply Hk, HQ.
  - apply wp_switch. exact IH.
  - apply wp_nofuel, Hh.
Qed.

Lemma wp_step {A B} (m : K A) (k : A -> K B) Q h s0 s a s1 :
  m s = Ok a s1 -> wp E R Q h s0 (k a s1) -> wp E R Q h s0 (bind m k s).
Proof. intros Em Hk. rewrite (bind_ok _ _ _ _ _ Em). exact Hk. Qed.

Lemma wp_mono {A} (Q Q' : hist -> kstate -> A -> kstate -> Prop) h s0 r :
  wp E R Q h s0 r -> (forall h s0 a s, Q h s0 a s -> Q' h s0 a s) -> wp E R Q' h s0 r.
Proof. intros H HQ. induction H; [apply wp_ok | apply wp_switch | apply wp_nofuel]; auto. Qed.
End Wp.

(** ** What a call does over its stretches

    [P] relates the first and the last state of a stretch and the bytes that
    have been moved in it; [over P h s0 s bs] says that [bs] have been moved
    altogether, over the stretches [h] and the current one from [s0] to [s]. *)
Definition over (P : kstate * kstate -> list Z -> Prop) (h : hist) (s0 s : kstate) (bs : list Z) : Prop :=
  exists bss b, Forall2 P h bss /\ P (s0, s) b /\ bs = concat bss ++ b.

Section Over.
Context (P : kstate * kstate -> list Z -> Prop) (Hstay : forall s, P (s, s) []).
Context (Hmore : forall s s' s'' b b', P (s, s') b -> P (s', s'') b' -> P (s, s'') (b ++ b')).

Lemma over_start s : over P [] s s [].
Proof. exists [], []. repeat split; [constructor | apply Hstay]. Qed.

Lemma over_more h s0 s s' bs b : over P h s0 s bs -> P (s, s') b -> over P h s0 s' (bs ++ b).
Proof.
  intros (bss & b0 & H1 & H2 & ->) H3. exists bss, (b0 ++ b). split; [exact H1|].
  split; [eapply Hmore; eassumption | rewrite app_assoc; reflexivity].
Qed.

Lemma over_switch h s0 s s' bs : over P h s0 s bs -> over P (h ++ [(s0, s)]) s' s' bs.
Proof.
  intros (bss & b0 & H1 & H2 & ->). exists (bss ++ [b0]), []. split; [|split; [apply Hstay|]].
  - apply Forall2_app; [exact H1 | constructor; [exact H2 | constructor]].
  - rewrite concat_app. cbn. rewrite !app_nil_r. reflexivity.
Qed.
End Over.

(** ** Running as process [i]

    [n] spin locks are held, ptable.lock not among them. *)
Record running (i : nat) (n : Z) (s : kstate) : Prop := {
  ru_cpu : cpu_ok s;
  ru_ncli : c_ncli (k_cpu s) = n;
  ru_proc : c_proc (k_cpu s) = Some i;
  ru_entry : is_Some (k_procs s !! i);
  ru_ptable : lock_free LPtable s }.

(** This CPU holds the lock. *)
Definition mine (l : lockid) (s : kstate) : Prop :=
  exists nm, k_locks s l = mkSpinlock 1 nm (Some (c_apicid (k_cpu s))).

Section Running.
Context (i : nat).

Lemma running_holds n l s : running i n s -> mine l s -> holds l n s.
Proof. intros [] Hm. constructor; assumption. Qed.

Lemma run_acquire n l s :
  running i n s -> l <> LPtable -> lock_free l s ->
  acquire l s = Ok tt (locked_state l s) /\ running i (n + 1) (locked_state l s) /\
  mine l (locked_state l s).
Proof.
  intros [Hc Hn Hp He Hf] Hne Hl. split; [apply acquire_ok; [exact Hc | apply Hl]|].
  destruct (locked_holds l s Hc) as [H1 H2 H3]. split; [|exact H3].
  constructor; try assumption; [cbn; lia|].
  unfold lock_free, locked_state. cbn [k_locks set_locks]. rewrite fupd_ne by congruence. exact Hf.
Qed.

Lemma run_release n l s :
  running i n s -> l <> LPtable -> 0 < n -> mine l s ->
  release l s = Ok tt (unlocked_state l s) /\ running i (n - 1) (unlocked_state l s) /\
  lock_free l (unlocked_state l s).
Proof.
  intros Hr Hne Hp Hm. split; [eapply release_holds; [eapply running_holds; eassumption | exact Hp]|].
  destruct Hr as [Hc Hn Hpr He Hf]. split.
  - constructor; try assumption.
    + destruct (cpu_ok_pop s Hc ltac:(lia)). constructor; assumption.
    + cbn. lia.
    + unfold lock_free, unlocked_state. cbn [k_locks set_locks]. rewrite fupd_ne by congruence. exact Hf.
  - unfold lock_free, unlocked_state. cbn [k_locks set_locks]. rewrite fupd_eq. split; reflexivity.
Qed.

Lemma mine_ne l l' s : l' <> l -> mine l' s -> mine l' (locked_state l s) /\ mine l' (unlocked_state l s).
Proof.
  intros Hne [nm H]. unfold mine, locked_state, unlocked_state. cbn [k_locks set_locks k_cpu set_cpu].
  rewrite !fupd_ne by exact Hne. split; exists nm; exact H.
Qed.

Lemma free_ne l l' s :
  l' <> l -> lock_free l' s -> lock_free l' (locked_state l s) /\ lock_free l' (unlocked_state l s).
Proof.
  intros Hne H. unfold lock_free, locked_state, unlocked_state. cbn [k_locks set_locks].
  rewrite !fupd_ne by exact Hne. split; exact H.
Qed.

Lemma running_touch n s : running i n s -> running i n (touch s).
Proof. intros [Hc Hn Hp He Hf]. constructor; try assumption. apply cpu_ok_touch, Hc. Qed.

Lemma run_myproc n s : running i n s -> 0 < n -> myproc s = Ok (Some i) s.
Proof.
  intros [Hc Hn Hp He Hf] H. rewrite myproc_ok by exact Hc. rewrite Hp, touch_id by lia. reflexivity.
Qed.

(** Fields that [running] does not look at. *)
Lemma running_ext n s s' :
  running i n s -> k_cpu s' = k_cpu s -> k_apicids s' = k_apicids s -> k_locks s' = k_locks s ->
  k_procs s' = k_procs s -> running i n s'.
Proof.
  intros [Hc Hn Hp He Hf] E1 E2 E3 E4.
  constructor; [eapply cpu_ok_ext; [exact Hc | right; exact E1 | exact E2] | | | |].
  all: unfold lock_free; rewrite ?E1, ?E3, ?E4; assumption.
Qed.

Definition woken (ch : chan) (s : kstate) : kstate := set_procs (map (wake ch) (k_procs s)) s.

Lemma run_wakeup n ch s :
  running i n s -> 0 < n -> wakeup ch s = Ok tt (woken ch s) /\ running i n (woken ch s).
Proof.
  intros [Hc Hn Hp He Hf] H. rewrite wakeup_ok by assumption. rewrite touch_id by lia.
  split; [reflexivity|]. constructor; try assumption; [cpuok|].
  unfold woken. cbn [k_procs set_procs]. destruct He as [p Hpi]. exists (wake ch p). rewrite lookup_wake, Hpi. reflexivity.
Qed.

(** What the scheduler guarantees when it switches back to a process that
    released [lk] to sleep. *)
Record resumes (lk : lockid) (s : kstate) : Prop := {
  re_holds : holds LPtable 1 s;
  re_free : lock_free lk s;
  re_proc : c_proc (k_cpu s) = Some i;
  re_entry : is_Some (k_procs s !! i) }.

Lemma wp_sleep E R Q h s0 s ch lk :
  running i 1 s -> mine lk s -> lk <> LPtable ->
  (forall s1 s', k_mem s1 = k_mem s -> k_pipes s1 = k_pipes s -> k_fs s1 = k_fs s ->
     k_input s1 = k_input s -> c_cr3 (k_cpu s1) = c_cr3 (k_cpu s) ->
     E s1 s' ->
     resumes lk s' /\
     forall b q, k_procs s' !! i = Some q ->
       let s2 := resumed_state i lk b q s' in
       running i 1 s2 -> mine lk s2 -> Q (h ++ [(s0, s1)]) s' tt s2) ->
  wp E R Q h s0 (sleep ch (Some lk) s).
Proof.
  intros Hr Hm Hne HQ. pose proof Hr as [Hc Hn Hp [p He] Hf].
  destruct (sleep_switches s i p ch lk) as (_ & _ & Es); try assumption.
  { eapply running_holds; eassumption. }
  rewrite Es. apply wp_switch. intros s' Hs'.
  set (s1 := set_procs (<[i := asleep ch p]> (k_procs s)) (unlocked_state lk (locked_state LPtable s))) in *.
  destruct (HQ s1 s' eq_refl eq_refl eq_refl eq_refl eq_refl Hs') as [[H1 H2 H3 [q H4]] HQ'].
  destruct (sleep_resumes s' i q lk (c_intena (k_cpu s1)) H1 Hne H2 H4) as (Er & [Hc2 Hn2 Hl2] & Hf2).
  rewrite Er. apply wp_ok, HQ'; [exact H4 | | exact Hl2].
  constructor; try assumption. cbn [k_procs resumed_state locked_state unlocked_state set_locks set_cpu set_procs].
  rewrite list_lookup_insert_eq by (eapply lookup_lt_Some; exact H4). eauto.
Qed.
End Running.
