(* ===== verification/Live.v ===== *)
(** * The scheduler does not forget a process

    [scheduler] loops over the process table and runs what is RUNNABLE.  While a
    process runs, the rest of the system may do anything that [comes_back]
    allows; whatever it does, a RUNNABLE process is switched to before long. *)

From Stdlib Require Import ZArith Lia FunctionalExtensionality.
From stdpp Require Import base list strings gmap.
From S2P Require Import Prelude Mem Mmu Kernel Spinlock Kalloc Vm VmFacts Sched Runs.

(** [eventually E P r]: on every path that the rest of the system allows, the
    computation [r] reaches a switch in a state with [P]; it does not return,
    panic, fault or exhaust its bound before. *)
Inductive eventually (E : kstate -> kstate -> Prop) (P : kstate -> Prop) {A} : result kstate A -> Prop :=
| ev_now s k : P s -> eventually E P (Switch s k)
| ev_later s k : (forall s', E s s' -> eventually E P (k s')) -> eventually E P (Switch s k).

Lemma ev_bind {A B} E P (m : K A) (k : A -> K B) s : eventually E P (m s) -> eventually E P (bind m k s).
Proof.
  rewrite bind_andthen. generalize (m s). intros r Hr. induction Hr as [s1 f HP|s1 f Hf IH]; cbn [andthen]; [apply ev_now, HP | apply ev_later, IH].
Qed.

Lemma ev_step {A B} E P (m : K A) (k : A -> K B) s a s1 : m s = Ok a s1 -> eventually E P (k a s1) -> eventually E P (bind m k s).
Proof. intros Em Hk. rewrite (bind_ok _ _ _ _ _ Em). exact Hk. Qed.

Definition runnable (i : nat) (s : kstate) : Prop := exists p, k_procs s !! i = Some p /\ p_state p = RUNNABLE.

(** A full process table in which what is RUNNABLE can be switched to. *)
Record table_ok (s : kstate) : Prop := {
  to_len : length (k_procs s) = NPROC;
  to_ready i p : k_procs s !! i = Some p -> p_state p = RUNNABLE -> p_kstack p <> 0 /\ p_pgdir p <> 0 }.

(** A process that gives up the CPU does so in [sched], with ptable.lock and no
    other lock; other processes that were RUNNABLE still are, on a machine with
    one CPU. *)
Record comes_back (s s' : kstate) : Prop := {
  cb_holds : holds LPtable 1 s';
  cb_table : table_ok s';
  cb_others i : runnable i s -> runnable i s' }.

(** The CPU is about to run process [i], in its address space. *)
Definition dispatched (i : nat) (s : kstate) : Prop :=
  c_proc (k_cpu s) = Some i /\ exists p, k_procs s !! i = Some p /\ p_state p = RUNNING /\ c_cr3 (k_cpu s) = V2P (p_pgdir p).

Lemma holds_cpu c n l s :
  holds l n s -> cpu_ok (set_cpu c s) -> c_ncli c = c_ncli (k_cpu s) -> c_apicid c = c_apicid (k_cpu s) -> holds l n (set_cpu c s).
Proof. intros [Hc Hn Hl] Hc' En Ea. constructor; [exact Hc' | cbn; congruence | cbn [k_locks set_cpu k_cpu]; rewrite Ea; exact Hl]. Qed.

(** Choosing process [j]: up to the switch. *)
Definition chosen (j : nat) (p : proc) (c : cpu) (s : kstate) : kstate :=
  set_procs (<[j := set_p_state RUNNING p]> (k_procs s)) (set_cpu c s).

Lemma choose_ok j p s :
  holds LPtable 1 s -> table_ok s -> k_procs s !! j = Some p -> p_state p = RUNNABLE ->
  let s1 := set_cpu (set_c_proc (Some j) (k_cpu s)) s in
  exists c, switchuvm (Some j) s1 = Ok tt (set_cpu c s1) /\ upd_proc j (set_p_state RUNNING) (set_cpu c s1) = Ok tt (chosen j p c s) /\
    dispatched j (chosen j p c s) /\ forall i, i <> j -> runnable i s -> runnable i (chosen j p c s).
Proof.
  intros Hh Ht Hp Hr s1. destruct (to_ready s Ht j p Hp Hr) as [Hk Hd].
  destruct (switchuvm_ok s1 j p) as (c & E & Hc & Ecr & _ & Epr & _); [destruct (ho_cpu _ _ _ Hh); constructor; assumption | exact Hp | exact Hk | exact Hd|].
  exists c. split; [exact E|]. split; [exact (upd_proc_ok j _ p (set_cpu c s1) Hp)|]. split.
  - split; [exact Epr|]. exists (set_p_state RUNNING p). unfold chosen. cbn [k_procs set_procs k_cpu set_cpu]. split; [|split; [reflexivity | exact Ecr]].
    apply list_lookup_insert_eq. eapply lookup_lt_Some, Hp.
  - intros i Hi (q & Hq & Hs). exists q. split; [|exact Hs]. unfold chosen. cbn [k_procs set_procs]. rewrite list_lookup_insert_ne by congruence. exact Hq.
Qed.

(** What the scheduler does when the process that it ran has come back. *)
Lemma back_ok s : holds LPtable 1 s -> table_ok s ->
  let s1 := set_cpu (set_c_cr3 (V2P (k_kpgdir s)) (k_cpu s)) s in
  exists c, switchkvm s = Ok tt s1 /\ upd_cpu (set_c_proc None) s1 = Ok tt (set_cpu c s) /\ holds LPtable 1 (set_cpu c s) /\ table_ok (set_cpu c s).
Proof.
  intros Hh Ht s1. eexists. split; [reflexivity|]. split; [reflexivity|]. split; [|destruct Ht; constructor; assumption].
  destruct Hh as [[H1 H2 H3] Hn Hl]. constructor; [constructor; assumption | exact Hn | exact Hl].
Qed.

(** The scan from entry [j] on reaches process [i] if it is still to come, and
    otherwise leaves it RUNNABLE for what follows. *)
Lemma scan_live {A} i (k : K A) n j s :
  (j + n)%nat = NPROC -> (i < NPROC)%nat -> holds LPtable 1 s -> table_ok s -> runnable i s ->
  ((i < j)%nat -> forall s', holds LPtable 1 s' -> table_ok s' -> runnable i s' -> eventually comes_back (dispatched i) (k s')) ->
  eventually comes_back (dispatched i) ((scheduler_scan j n ;; k) s).
Proof.
  revert j s. induction n as [|n IH]; intros j s Hj Hi Hh Ht Hr Hk; cbn [scheduler_scan].
  { eapply ev_step; [reflexivity|]. apply Hk; [lia | assumption ..]. }
  rewrite bind_assoc. destruct (lookup_lt_is_Some_2 (k_procs s) j) as [p Hp]; [rewrite (to_len s Ht); lia|].
  eapply ev_step; [apply get_proc_ok, Hp|]. rewrite bind_assoc. destruct (decide (p_state p = RUNNABLE)) as [Hrun | Hno].
  - destruct (choose_ok j p s Hh Ht Hp Hrun) as (c & E1 & E2 & Hd & Hoth).
    do 3 (rewrite bind_assoc; eapply ev_step; [first [eassumption | reflexivity]|]). rewrite bind_assoc.
    destruct (decide (i = j)) as [-> | Hne]; [apply ev_now, Hd|]. apply ev_later. intros s' [Hh' Ht' Hoth']. cbn [andthen].
    specialize (Hoth' i (Hoth i Hne Hr)). destruct (back_ok s' Hh' Ht') as (c' & E3 & E4 & Hh2 & Ht2).
    rewrite bind_assoc. eapply ev_step; [exact E3|]. eapply ev_step; [exact E4|].
    apply IH; [lia | exact Hi | exact Hh2 | exact Ht2 | exact Hoth' | intros Hlt; apply Hk; lia].
  - eapply ev_step; [reflexivity|]. apply IH; [lia | exact Hi | exact Hh | exact Ht | exact Hr|]. intros Hlt. apply Hk.
    destruct (decide (i = j)) as [-> | Hne]; [|lia]. destruct Hr as (q & Hq & Hs). congruence.
Qed.

Lemma loop_live i f s :
  (i < NPROC)%nat -> cpu_ok s -> c_ncli (k_cpu s) = 0 -> lock_free LPtable s -> table_ok s -> runnable i s ->
  eventually comes_back (dispatched i) (scheduler_loop (S f) s).
Proof.
  intros Hi Hc Hn Hl Ht Hr. cbn [scheduler_loop]. set (s1 := set_cpu (set_c_if true (k_cpu s)) s). eapply ev_step; [reflexivity|]. fold s1.
  assert (Hc1 : cpu_ok s1) by (destruct Hc as [H1 H2 H3]; constructor; [exact H1 | exact H2 | cbn; lia]).
  eapply ev_step; [apply acquire_ok; [exact Hc1 | apply Hl]|]. pose proof (locked_holds LPtable s1 Hc1) as Hh. cbn [s1 k_cpu set_cpu c_ncli set_c_if] in Hh. rewrite Hn in Hh.
  apply scan_live; [reflexivity | exact Hi | exact Hh | destruct Ht; constructor; assumption | exact Hr | lia].
Qed.

(** ** Processes keep the contract

    [sleep] and [yield] go back to the scheduler in a state that [comes_back]
    asks for. *)

Lemma table_insert i p s :
  table_ok s -> (p_state p = RUNNABLE -> p_kstack p <> 0 /\ p_pgdir p <> 0) ->
  forall s', k_procs s' = <[i := p]> (k_procs s) -> table_ok s'.
Proof.
  intros [Hl Hr] Hp s' E. constructor; rewrite E; [rewrite length_insert; exact Hl|]. intros j q Hq Hs.
  apply list_lookup_insert_Some in Hq as [(-> & -> & _) | [_ Hq]]; [exact (Hp Hs) | exact (Hr j q Hq Hs)].
Qed.

Lemma runnable_insert i p q s s' :
  k_procs s !! i = Some p -> p_state p <> RUNNABLE -> k_procs s' = <[i := q]> (k_procs s) -> forall j, runnable j s -> runnable j s'.
Proof.
  intros Hp Hs E j (r & Hr & Hrr). exists r. rewrite E. destruct (decide (j = i)) as [-> | Hne]; [congruence|].
  rewrite list_lookup_insert_ne by congruence. auto.
Qed.

Lemma sleep_comes_back s i p ch lk :
  holds lk 1 s -> lk <> LPtable -> lock_free LPtable s -> c_proc (k_cpu s) = Some i -> k_procs s !! i = Some p ->
  p_state p = RUNNING -> table_ok s ->
  exists s1 k, sleep ch (Some lk) s = Switch s1 k /\ comes_back s s1.
Proof.
  intros Hl Hne Hf Hc Hp Hs Ht. destruct (sleep_switches s i p ch lk Hl Hne Hf Hc Hp) as (Hh & _ & E). eexists _, _. split; [exact E|].
  constructor; [exact Hh | eapply (table_insert i (asleep ch p) s Ht); [discriminate | reflexivity]|].
  eapply (runnable_insert i p); [exact Hp | congruence | reflexivity].
Qed.

Lemma yield_comes_back s i p :
  running i 0 s -> k_procs s !! i = Some p -> p_state p = RUNNING -> p_kstack p <> 0 -> p_pgdir p <> 0 -> table_ok s ->
  exists s1 k, yield s = Switch s1 k /\ comes_back s s1 /\ runnable i s1.
Proof.
  intros [Hc Hn Hpr _ Hf] Hp Hs Hk Hd Ht. set (s1 := set_procs (<[i := set_p_state RUNNABLE p]> (k_procs s)) (locked_state LPtable s)).
  pose proof (locked_holds LPtable s Hc) as Hh. rewrite Hn in Hh. assert (Hh1 : holds LPtable 1 s1) by (destruct Hh as [[] ? ?]; constructor; [constructor|..]; assumption).
  assert (Hi : k_procs s1 !! i = Some (set_p_state RUNNABLE p)) by (apply list_lookup_insert_eq; eapply lookup_lt_Some, Hp).
  exists s1. eexists. split; [|split; [constructor|]].
  - unfold yield. erewrite bind_ok by (apply acquire_ok; [exact Hc | apply Hf]).
    erewrite bind_ok by (apply myproc_ok, Hh). rewrite touch_id by (rewrite (ho_ncli _ _ _ Hh); lia). cbn [k_cpu locked_state set_locks set_cpu push_cpu c_proc set_c_ncli set_c_intena set_c_if].
    rewrite Hpr. erewrite bind_ok by reflexivity. rewrite (bind_ok _ _ _ tt s1) by exact (upd_proc_ok i _ p (locked_state LPtable s) Hp). unfold bind at 1. rewrite (sched_switch s1 i _ Hh1 Hpr Hi) by discriminate. reflexivity.
  - exact Hh1.
  - eapply (table_insert i (set_p_state RUNNABLE p) s Ht); [intros _; split; [exact Hk | exact Hd] | reflexivity].
  - eapply (runnable_insert i p); [exact Hp | congruence | reflexivity].
  - exists (set_p_state RUNNABLE p). split; [exact Hi | reflexivity].
Qed.

(** What follows in the scheduler when process [j] has come back, for [f] more
    rounds. *)
Definition scheduler_from (j f : nat) : K unit :=
  switchkvm ;;
  upd_cpu (set_c_proc None) ;;
  scheduler_scan (S j) (NPROC - S j) ;;
  release LPtable ;;
  scheduler_loop f.

(** C12 (proc.c, [scheduler]): no process starves.  On a machine with one CPU, where
    processes come back with ptable.lock held and leave other processes that are
    RUNNABLE as they are, a RUNNABLE process is switched to, with its page
    directory loaded and its state RUNNING, on every path: within the first
    round when the scheduler starts, and before the end of the next round when
    it becomes RUNNABLE while some process [j] runs.  The scheduler does not
    panic, return or wait for a lock on the way. *)
Theorem scheduler_runs_runnable i f s :
  (i < NPROC)%nat -> table_ok s -> runnable i s ->
  (cpu_ok s -> c_ncli (k_cpu s) = 0 -> c_if (k_cpu s) = false -> lock_free LPtable s -> eventually comes_back (dispatched i) (scheduler (S f) s)) /\
  (holds LPtable 1 s -> forall j, (j < NPROC)%nat -> eventually comes_back (dispatched i) (scheduler_from j (S f) s)).
Proof.
  intros Hi Ht Hr. split.
  - intros Hc Hn Hif Hl. unfold scheduler. eapply ev_step; [apply mycpu_ok; [apply Hc | exact Hif]|]. eapply ev_step; [reflexivity|].
    apply loop_live; [exact Hi | destruct Hc; constructor; assumption | exact Hn | exact Hl | destruct Ht; constructor; assumption | exact Hr].
  - intros Hh j Hj. destruct (back_ok s Hh Ht) as (c & E1 & E2 & Hh2 & Ht2). unfold scheduler_from. eapply ev_step; [exact E1|]. eapply ev_step; [exact E2|].
    apply scan_live; [lia | exact Hi | exact Hh2 | exact Ht2 | exact Hr|]. intros _ s' Hh' Ht' Hr'. eapply ev_step; [apply (release_holds LPtable 1); [exact Hh' | lia]|].
    apply loop_live; [exact Hi | | | | destruct Ht'; constructor; assumption | exact Hr'].
    + destruct (cpu_ok_pop s' (ho_cpu _ _ _ Hh') ltac:(rewrite (ho_ncli _ _ _ Hh'); lia)). constructor; assumption.
    + cbn. rewrite (ho_ncli _ _ _ Hh'). reflexivity.
    + unfold lock_free, unlocked_state. cbn [k_locks set_locks]. rewrite fupd_eq. split; reflexivity.
Qed.

(** A machine with one process, ready to run, as the boot leaves it. *)
Definition ready_proc : proc := set_p_pgdir 0x8dfff000 (set_p_kstack 0x8dffe000 (set_p_state RUNNABLE zero_proc)).
Definition ready_state : kstate :=
  set_procs (<[5%nat := ready_proc]> (replicate NPROC zero_proc)) (boot_state (fun _ => 0) (fun _ _ => [])).

Lemma scheduler_runs_runnable_witness : eventually comes_back (dispatched 5) (scheduler 1 ready_state).
Proof.
  apply (scheduler_runs_runnable 5 0 ready_state).
  - unfold NPROC. lia.
  - constructor; [reflexivity|]. intros j p Hp Hs. unfold ready_state in Hp. cbn [k_procs set_procs] in Hp. destruct (decide (j = 5%nat)) as [-> | Hne].
    + injection Hp as <-. split; discriminate.
    + rewrite list_lookup_insert_ne in Hp by congruence. apply lookup_replicate in Hp as [-> _]. discriminate Hs.
  - exists ready_proc. split; reflexivity.
  - constructor; [reflexivity | cbn; lia | reflexivity].
  - reflexivity.
  - reflexivity.
  - split; reflexivity.
Defined.
