(* ===== verification/Bio.v ===== *)
(** * solution/sleeplock.c, solution/ide.c, solution/bio.c

    Sleep locks, the IDE driver and the buffer cache.  The loops that sleep
    run for at most [rounds] iterations, the number of times a process is
    prepared to be woken in vain; a theorem about a call that returns holds
    for every sufficiently large bound.  The drive is modelled at the level of
    the commands of [idestart] and [ideintr]: a write command transfers the
    block at once, a read command delivers it at the interrupt. *)

From Stdlib Require Import ZArith Lia FunctionalExtensionality.
From stdpp Require Import base list strings gmap.
From S2P Require Import Prelude Mem Mmu Kernel Spinlock Kalloc Vm VmFacts Sched.

Class Rounds := { rounds : nat }.

(** ** State accessors *)

Definition set_bufs v f := mkFs v (fs_log f) (fs_sb f) (fs_inodes f) (fs_idequeue f) (fs_havedisk1 f) (fs_ideerr f) (fs_disk f) (fs_writes f).
Definition set_log v f := mkFs (fs_bufs f) v (fs_sb f) (fs_inodes f) (fs_idequeue f) (fs_havedisk1 f) (fs_ideerr f) (fs_disk f) (fs_writes f).
Definition set_sb v f := mkFs (fs_bufs f) (fs_log f) v (fs_inodes f) (fs_idequeue f) (fs_havedisk1 f) (fs_ideerr f) (fs_disk f) (fs_writes f).
Definition set_inodes v f := mkFs (fs_bufs f) (fs_log f) (fs_sb f) v (fs_idequeue f) (fs_havedisk1 f) (fs_ideerr f) (fs_disk f) (fs_writes f).
Definition set_idequeue v f := mkFs (fs_bufs f) (fs_log f) (fs_sb f) (fs_inodes f) v (fs_havedisk1 f) (fs_ideerr f) (fs_disk f) (fs_writes f).
Definition set_havedisk1 v f := mkFs (fs_bufs f) (fs_log f) (fs_sb f) (fs_inodes f) (fs_idequeue f) v (fs_ideerr f) (fs_disk f) (fs_writes f).
Definition set_disk v f := mkFs (fs_bufs f) (fs_log f) (fs_sb f) (fs_inodes f) (fs_idequeue f) (fs_havedisk1 f) (fs_ideerr f) v (fs_writes f).
Definition set_writes v f := mkFs (fs_bufs f) (fs_log f) (fs_sb f) (fs_inodes f) (fs_idequeue f) (fs_havedisk1 f) (fs_ideerr f) (fs_disk f) v.

Definition set_b_flags v b := mkBuf v (b_dev b) (b_blockno b) (b_lock b) (b_refcnt b) (b_prev b) (b_next b) (b_data b).
Definition set_b_dev v b := mkBuf (b_flags b) v (b_blockno b) (b_lock b) (b_refcnt b) (b_prev b) (b_next b) (b_data b).
Definition set_b_blockno v b := mkBuf (b_flags b) (b_dev b) v (b_lock b) (b_refcnt b) (b_prev b) (b_next b) (b_data b).
Definition set_b_lock v b := mkBuf (b_flags b) (b_dev b) (b_blockno b) v (b_refcnt b) (b_prev b) (b_next b) (b_data b).
Definition set_b_refcnt v b := mkBuf (b_flags b) (b_dev b) (b_blockno b) (b_lock b) v (b_prev b) (b_next b) (b_data b).
Definition set_b_prev v b := mkBuf (b_flags b) (b_dev b) (b_blockno b) (b_lock b) (b_refcnt b) v (b_next b) (b_data b).
Definition set_b_next v b := mkBuf (b_flags b) (b_dev b) (b_blockno b) (b_lock b) (b_refcnt b) (b_prev b) v (b_data b).
Definition set_b_data v b := mkBuf (b_flags b) (b_dev b) (b_blockno b) (b_lock b) (b_refcnt b) (b_prev b) (b_next b) v.

Definition set_i_dev v i := mkInode v (i_inum i) (i_ref i) (i_lock i) (i_valid i) (i_type i) (i_major i) (i_minor i) (i_nlink i) (i_size i) (i_addrs i).
Definition set_i_inum v i := mkInode (i_dev i) v (i_ref i) (i_lock i) (i_valid i) (i_type i) (i_major i) (i_minor i) (i_nlink i) (i_size i) (i_addrs i).
Definition set_i_ref v i := mkInode (i_dev i) (i_inum i) v (i_lock i) (i_valid i) (i_type i) (i_major i) (i_minor i) (i_nlink i) (i_size i) (i_addrs i).
Definition set_i_lock v i := mkInode (i_dev i) (i_inum i) (i_ref i) v (i_valid i) (i_type i) (i_major i) (i_minor i) (i_nlink i) (i_size i) (i_addrs i).
Definition set_i_valid v i := mkInode (i_dev i) (i_inum i) (i_ref i) (i_lock i) v (i_type i) (i_major i) (i_minor i) (i_nlink i) (i_size i) (i_addrs i).
Definition set_i_type v i := mkInode (i_dev i) (i_inum i) (i_ref i) (i_lock i) (i_valid i) v (i_major i) (i_minor i) (i_nlink i) (i_size i) (i_addrs i).
Definition set_i_major v i := mkInode (i_dev i) (i_inum i) (i_ref i) (i_lock i) (i_valid i) (i_type i) v (i_minor i) (i_nlink i) (i_size i) (i_addrs i).
Definition set_i_minor v i := mkInode (i_dev i) (i_inum i) (i_ref i) (i_lock i) (i_valid i) (i_type i) (i_major i) v (i_nlink i) (i_size i) (i_addrs i).
Definition set_i_nlink v i := mkInode (i_dev i) (i_inum i) (i_ref i) (i_lock i) (i_valid i) (i_type i) (i_major i) (i_minor i) v (i_size i) (i_addrs i).
Definition set_i_size v i := mkInode (i_dev i) (i_inum i) (i_ref i) (i_lock i) (i_valid i) (i_type i) (i_major i) (i_minor i) (i_nlink i) v (i_addrs i).
Definition set_i_addrs v i := mkInode (i_dev i) (i_inum i) (i_ref i) (i_lock i) (i_valid i) (i_type i) (i_major i) (i_minor i) (i_nlink i) (i_size i) v.

Definition get_fs {A} (f : fs_t -> A) : K A := gets (fun s => f (k_fs s)).
Definition upd_fs (f : fs_t -> fs_t) : K unit := modify (fun s => set_fs (f (k_fs s)) s).
Definition get_buf (b : nat) : K buf := fun s =>
  match fs_bufs (k_fs s) !! b with Some x => Ok x s | None => Fault end.
Definition upd_buf (b : nat) (f : buf -> buf) : K unit :=
  upd_fs (fun fs => set_bufs (alter f b (fs_bufs fs)) fs).
Definition get_inode (i : nat) : K inode := fun s =>
  match fs_inodes (k_fs s) !! i with Some x => Ok x s | None => Fault end.
Definition upd_inode (i : nat) (f : inode -> inode) : K unit :=
  upd_fs (fun fs => set_inodes (alter f i (fs_inodes fs)) fs).

(** ** sleeplock.c

    A sleep lock is named by the spin lock inside it. *)

Definition get_slock (l : lockid) : K sleeplock :=
  match l with
  | LBuf b => let! x := get_buf b in ret (b_lock x)
  | LInode i => let! x := get_inode i in ret (i_lock x)
  | _ => fault
  end.
Definition set_slock (l : lockid) (v : sleeplock) : K unit :=
  match l with
  | LBuf b => upd_buf b (set_b_lock v)
  | LInode i => upd_inode i (set_i_lock v)
  | _ => fault
  end.

Definition initsleeplock (l : lockid) (name : string) : K unit :=
  initlock l "sleep lock" ;;
  set_slock l (mkSleeplock 0 name 0).

Definition mypid : K Z :=
  let! cur := myproc in
  let! i := deref cur in
  let! p := get_proc i in
  ret (p_pid p).

Fixpoint acquiresleep_loop (l : lockid) (fuel : nat) : K unit :=
  match fuel with
  | O => nofuel
  | S f =>
      let! lk := get_slock l in
      if sk_locked lk =? 0 then ret tt
      else sleep (ChSleeplock l) (Some l) ;; acquiresleep_loop l f
  end.

Definition acquiresleep `{Rounds} (l : lockid) : K unit :=
  acquire l ;;
  acquiresleep_loop l rounds ;;
  let! lk := get_slock l in
  set_slock l (mkSleeplock 1 (sk_name lk) (sk_pid lk)) ;;
  let! pid := mypid in
  let! lk := get_slock l in
  set_slock l (mkSleeplock (sk_locked lk) (sk_name lk) pid) ;;
  release l.

Definition releasesleep (l : lockid) : K unit :=
  acquire l ;;
  let! lk := get_slock l in
  set_slock l (mkSleeplock 0 (sk_name lk) 0) ;;
  wakeup (ChSleeplock l) ;;
  release l.

Definition holdingsleep (l : lockid) : K bool :=
  acquire l ;;
  let! lk := get_slock l in
  let! r :=
    (if sk_locked lk =? 0 then ret false
     else let! pid := mypid in ret (sk_pid lk =? pid)) in
  release l ;;
  ret r.

(** ** buf.h, ide.c *)

Definition B_VALID : Z := 2.
Definition B_DIRTY : Z := 4.

(** The drive is ready at once; [checkerr] looks at its error bits. *)
Definition idewait (checkerr : bool) : K Z :=
  let! err := get_fs fs_ideerr in
  ret (if checkerr && err then -1 else 0).

(** [disk1]: whether the second drive answers the probe. *)
Definition ideinit (disk1 : bool) : K unit :=
  initlock LIde "ide" ;;
  let! _ := idewait false in
  when disk1 (upd_fs (set_havedisk1 1)).

Definition disk_of (dev : Z) : Z := Z.land dev 1.

Definition idestart (b : option nat) : K unit :=
  match b with
  | None => panic "idestart"
  | Some b =>
      let! x := get_buf b in
      if FSSIZE <=? b_blockno x then panic "incorrect blockno"
      else
        let! _ := idewait false in
        let d := disk_of (b_dev x) in
        when (has (b_flags x) B_DIRTY)
          (upd_fs (fun fs =>
             set_writes ((d, b_blockno x, b_data x) :: fs_writes fs)
               (set_disk (fupd (fs_disk fs) d (fupd (fs_disk fs d) (b_blockno x) (b_data x))) fs)))
  end.

Definition ideintr : K unit :=
  acquire LIde ;;
  let! q := get_fs fs_idequeue in
  match q with
  | [] => release LIde
  | b :: q' =>
      upd_fs (set_idequeue q') ;;
      let! x := get_buf b in
      (if negb (has (b_flags x) B_DIRTY) then
         let! r := idewait true in
         when (0 <=? r)
           (let! fs := get_fs (fun fs => fs) in
            upd_buf b (set_b_data (fs_disk fs (disk_of (b_dev x)) (b_blockno x))))
       else ret tt) ;;
      upd_buf b (fun x => set_b_flags (Z.lor (b_flags x) B_VALID) x) ;;
      upd_buf b (fun x => set_b_flags (Z.land (b_flags x) (w32 (Z.lnot B_DIRTY))) x) ;;
      wakeup (ChBuf b) ;;
      let! q := get_fs fs_idequeue in
      when (negb (bool_decide (q = []))) (idestart (head q)) ;;
      release LIde
  end.

(** Waiting for the interrupt. *)
Fixpoint iderw_loop (b : nat) (fuel : nat) : K unit :=
  match fuel with
  | O => nofuel
  | S f =>
      let! x := get_buf b in
      if Z.land (b_flags x) (Z.lor B_VALID B_DIRTY) =? B_VALID then ret tt
      else sleep (ChBuf b) (Some LIde) ;; iderw_loop b f
  end.

Definition iderw `{Rounds} (b : nat) : K unit :=
  let! h := holdingsleep (LBuf b) in
  if negb h then panic "iderw: buf not locked"
  else
    let! x := get_buf b in
    let! hd := get_fs fs_havedisk1 in
    if Z.land (b_flags x) (Z.lor B_VALID B_DIRTY) =? B_VALID then panic "iderw: nothing to do"
    else if negb (b_dev x =? 0) && (hd =? 0) then panic "iderw: ide disk 1 not present"
    else
      acquire LIde ;;
      let! q := get_fs fs_idequeue in
      upd_fs (set_idequeue (q ++ [b])) ;;
      when (bool_decide (q = [])) (idestart (Some b)) ;;
      iderw_loop b rounds ;;
      release LIde.

(** ** bio.c *)

(** One iteration of the loop of [binit], on buffer [b]. *)
Definition binit_one (b : nat) : K unit :=
  let! h := get_buf NBUF in
  upd_buf b (set_b_next (b_next h)) ;;
  upd_buf b (set_b_prev NBUF) ;;
  initsleeplock (LBuf b) "buffer" ;;
  upd_buf (b_next h) (set_b_prev b) ;;
  upd_buf NBUF (set_b_next b).

Fixpoint binit_loop (b n : nat) : K unit :=
  match n with
  | O => ret tt
  | S n' => binit_one b ;; binit_loop (S b) n'
  end.

Definition binit : K unit :=
  initlock LBcache "bcache" ;;
  upd_buf NBUF (set_b_prev NBUF) ;;
  upd_buf NBUF (set_b_next NBUF) ;;
  binit_loop 0 NBUF.

(** The two searches of [bget]; the list has at most [NBUF] buffers. *)
Fixpoint bget_cached (dev blockno : Z) (b : nat) (fuel : nat) : K (option nat) :=
  match fuel with
  | O => nofuel
  | S f =>
      if decide (b = NBUF) then ret None
      else
        let! x := get_buf b in
        if (b_dev x =? dev) && (b_blockno x =? blockno) then ret (Some b)
        else bget_cached dev blockno (b_next x) f
  end.
Fixpoint bget_unused (b : nat) (fuel : nat) : K (option nat) :=
  match fuel with
  | O => nofuel
  | S f =>
      if decide (b = NBUF) then ret None
      else
        let! x := get_buf b in
        if (b_refcnt x =? 0) && (Z.land (b_flags x) B_DIRTY =? 0) then ret (Some b)
        else bget_unused (b_prev x) f
  end.

Definition bget `{Rounds} (dev blockno : Z) : K nat :=
  acquire LBcache ;;
  let! h := get_buf NBUF in
  let! r := bget_cached dev blockno (b_next h) (S NBUF) in
  match r with
  | Some b =>
      upd_buf b (fun x => set_b_refcnt (w32 (b_refcnt x + 1)) x) ;;
      release LBcache ;;
      acquiresleep (LBuf b) ;;
      ret b
  | None =>
      let! r := bget_unused (b_prev h) (S NBUF) in
      match r with
      | Some b =>
          upd_buf b (set_b_dev dev) ;;
          upd_buf b (set_b_blockno blockno) ;;
          upd_buf b (set_b_flags 0) ;;
          upd_buf b (set_b_refcnt 1) ;;
          release LBcache ;;
          acquiresleep (LBuf b) ;;
          ret b
      | None => panic "bget: no buffers"
      end
  end.

Definition bread `{Rounds} (dev blockno : Z) : K nat :=
  let! b := bget dev blockno in
  let! x := get_buf b in
  when (Z.land (b_flags x) B_VALID =? 0) (iderw b) ;;
  ret b.

Definition bwrite `{Rounds} (b : nat) : K unit :=
  let! h := holdingsleep (LBuf b) in
  if negb h then panic "bwrite"
  else
    upd_buf b (fun x => set_b_flags (Z.lor (b_flags x) B_DIRTY) x) ;;
    iderw b.

Definition brelse (b : nat) : K unit :=
  let! h := holdingsleep (LBuf b) in
  if negb h then panic "brelse"
  else
    releasesleep (LBuf b) ;;
    acquire LBcache ;;
    upd_buf b (fun x => set_b_refcnt (w32 (b_refcnt x - 1)) x) ;;
    let! x := get_buf b in
    when (b_refcnt x =? 0)
      (upd_buf (b_next x) (set_b_prev (b_prev x)) ;;
       upd_buf (b_prev x) (set_b_next (b_next x)) ;;
       let! h := get_buf NBUF in
       upd_buf b (set_b_next (b_next h)) ;;
       upd_buf b (set_b_prev NBUF) ;;
       upd_buf (b_next h) (set_b_prev b) ;;
       upd_buf NBUF (set_b_next b)) ;;
    release LBcache.
