(* ===== verification/Cache.v ===== *)
(** * The buffer cache and the disk driver, seen by one process

    While a process waits for the disk, what the rest of the system does to the
    file system is the interrupt of the disk, [ideintr]; other processes may
    run, but they leave the buffer cache alone.  Under this relation [env] the
    functions of bio.c behave as operations on an abstract cache: the disk, the
    dirty blocks that wait to be installed, and the buffers the process holds. *)

From Stdlib Require Import ZArith Lia FunctionalExtensionality.
From stdpp Require Import base list strings gmap.
From S2P Require Import Prelude Mem Mmu Kernel Spinlock Kalloc Vm VmFacts Sched Runs Bio.
(** ** The LRU list *)

(** [l] lies between [x] and [e], followed forwards by [N] and backwards by [P]. *)
Fixpoint chain (N P : nat -> nat) (x : nat) (l : list nat) (e : nat) : Prop :=
  match l with
  | [] => N x = e /\ P e = x
  | y :: l' => N x = y /\ P y = x /\ chain N P y l' e
  end.

Definition upd (F : nat -> nat) (a v : nat) : nat -> nat := fun x => if decide (x = a) then v else F x.

Ltac elems :=
  repeat match goal with H : chain _ _ _ _ _ |- _ => clear H end; try intros ->;
  repeat (rewrite elem_of_cons in * || rewrite elem_of_app in *); try intros ?; intuition (subst; auto; try congruence).

Section Ring.
Implicit Types (N P : nat -> nat) (l : list nat).

Lemma upd_eq N a v : upd N a v a = v.
Proof. unfold upd. rewrite decide_True; reflexivity. Qed.
Lemma upd_ne N a v x : x <> a -> upd N a v x = N x.
Proof. intros Hne. unfold upd. rewrite decide_False by exact Hne. reflexivity. Qed.

Lemma chain_ext N P N' P' x l e :
  (forall y, y ∈ x :: l -> N' y = N y) -> (forall y, y ∈ e :: l -> P' y = P y) -> chain N P x l e -> chain N' P' x l e.
Proof.
  revert x. induction l as [|y l IH]; intros x HN HP Hc; cbn [chain] in *.
  - rewrite HN, HP by left. exact Hc.
  - destruct Hc as (H1 & H2 & H3). rewrite HN, HP by (repeat constructor). split; [exact H1|]. split; [exact H2|].
    apply IH; [intros z Hz; apply HN; right; exact Hz | | exact H3].
    intros z Hz. apply HP. apply elem_of_cons in Hz as [-> | Hz]; [left | right; right; exact Hz].
Qed.

Lemma chain_app N P x l1 y l2 e : chain N P x (l1 ++ y :: l2) e <-> chain N P x l1 y /\ chain N P y l2 e.
Proof. revert x. induction l1 as [|z l1 IH]; intros x; cbn [app chain]; [tauto|]. rewrite IH. tauto. Qed.

Lemma chain_rev N P x l e : chain N P x l e -> chain P N e (rev l) x.
Proof.
  revert x. induction l as [|y l IH]; intros x Hc; cbn [chain rev] in *; [tauto|]. destruct Hc as (H1 & H2 & H3).
  apply chain_app. split; [apply IH, H3 | split; assumption].
Qed.

Lemma chain_next N P x l e : chain N P x l e -> N x ∈ e :: l.
Proof. destruct l as [|y l]; cbn [chain]; intros [-> _]; set_solver. Qed.
Lemma chain_prev N P x l e : chain N P x l e -> P e ∈ x :: l.
Proof. intros Hc%chain_rev%chain_next. apply elem_of_cons in Hc as [-> | Hc]; [left | right]. apply list_elem_of_In, in_rev, list_elem_of_In, Hc. Qed.

(** Unlinking [b] the way [brelse] does. *)
Lemma chain_unlink N P x l1 b l2 e :
  chain N P x (l1 ++ b :: l2) e -> NoDup (x :: l1 ++ b :: l2) -> e ∉ l1 ++ b :: l2 ->
  chain (upd N (P b) (N b)) (upd P (N b) (P b)) x (l1 ++ l2) e.
Proof.
  revert x. induction l1 as [|y l1 IH]; intros x Hc Hnd He; cbn [app chain] in *.
  - destruct Hc as (H1 & H2 & H3). destruct l2 as [|c l2]; cbn [chain] in *.
    + destruct H3 as [<- _]. rewrite H2, !upd_eq. auto.
    + destruct H3 as (<- & H3 & H4). rewrite H2, !upd_eq. split; [reflexivity|]. split; [reflexivity|].
      apply NoDup_cons in Hnd as [Hx (_ & (Hc & _)%NoDup_cons)%NoDup_cons].
      eapply chain_ext; [| | exact H4]; intros z Hz; apply upd_ne; elems.
  - destruct Hc as (H1 & H2 & H3). pose proof H3 as [HP%chain_prev HN%chain_next]%chain_app.
    apply NoDup_cons in Hnd as [Hx Hnd]. split; [rewrite upd_ne by elems; exact H1|].
    split; [rewrite upd_ne; [exact H2|] | apply IH; [exact H3 | exact Hnd | elems]].
    apply NoDup_cons in Hnd as [Hy _]. elems.
Qed.

(** Inserting [b] behind the head [h]. *)
Lemma chain_front N P h l b :
  chain N P h l h -> NoDup (h :: l) -> b ∉ h :: l ->
  chain (upd (upd N b (N h)) h b) (upd (upd P b h) (N h) b) h (b :: l) h.
Proof.
  intros Hc Hnd Hb. split; [apply upd_eq|]. pose proof (chain_next _ _ _ _ _ Hc) as Hn.
  split; [rewrite upd_ne by elems; apply upd_eq|]. destruct l as [|c l]; cbn [chain] in *.
  - destruct Hc as [-> H2]. rewrite upd_ne, !upd_eq by elems. auto.
  - destruct Hc as (-> & H2 & H3). rewrite upd_ne, !upd_eq by elems. split; [reflexivity|]. split; [reflexivity|].
    apply NoDup_cons in Hnd as [Hh (Hc & _)%NoDup_cons]. eapply chain_ext; [| | exact H3]; intros z Hz; rewrite !upd_ne by elems; reflexivity.
Qed.
End Ring.
(** ** Running without competition *)

(** Both the first look at a condition and the one after the interrupt. *)
Class Patient `{Rounds} : Prop := { patient : (2 <= rounds)%nat }.

Section Quiet.
Context (i : nat) (pid : Z).

Definition has_pid (s : kstate) : Prop := p_pid <$> k_procs s !! i = Some pid.

(** No lock is held; the second form: this CPU is inside the lock [l]. *)
Record quiet (s : kstate) : Prop := {
  q_run : running i 0 s;
  q_free l : lock_free l s;
  q_pid : has_pid s }.
Record inside (l : lockid) (s : kstate) : Prop := {
  in_run : running i 1 s;
  in_mine : mine l s;
  in_free l' : l' <> l -> lock_free l' s;
  in_pid : has_pid s }.

Lemma quiet_acquire l s : quiet s -> l <> LPtable -> acquire l s = Ok tt (locked_state l s) /\ inside l (locked_state l s).
Proof.
  intros [Hr Hf Hp] Hne. destruct (run_acquire i 0 l s Hr Hne (Hf l)) as (E & Hr' & Hm). split; [exact E|].
  constructor; [exact Hr' | exact Hm | | exact Hp]. intros l' Hl. apply (free_ne l l' s Hl (Hf l')).
Qed.

Lemma inside_release l s : inside l s -> l <> LPtable -> release l s = Ok tt (unlocked_state l s) /\ quiet (unlocked_state l s).
Proof.
  intros [Hr Hm Hf Hp] Hne. destruct (run_release i 1 l s Hr Hne ltac:(lia) Hm) as (E & Hr' & Hl). split; [exact E|].
  constructor; [exact Hr' | | exact Hp]. intros l'. destruct (decide (l' = l)) as [-> | Hne']; [exact Hl|].
  apply (free_ne l l' s Hne' (Hf l' Hne')).
Qed.

Lemma quiet_fs s f : quiet s -> quiet (set_fs f s).
Proof. intros [Hr Hf Hp]. constructor; [eapply running_ext; [exact Hr | | | |]; reflexivity | exact Hf | exact Hp]. Qed.

Lemma inside_fs l s f : inside l s -> inside l (set_fs f s).
Proof. intros [Hr Hm Hf Hp]. constructor; [eapply running_ext; [exact Hr | | | |]; reflexivity | exact Hm | exact Hf | exact Hp]. Qed.

Lemma inside_wakeup l s ch : inside l s -> l <> LPtable -> wakeup ch s = Ok tt (woken ch s) /\ inside l (woken ch s).
Proof.
  intros [Hr Hm Hf Hp] Hne. destruct (run_wakeup i 1 ch s Hr ltac:(lia)) as (E & Hr'). split; [exact E|].
  constructor; [exact Hr' | exact Hm | exact Hf |]. unfold has_pid, woken in *. cbn [k_procs set_procs]. rewrite lookup_wake.
  destruct (k_procs s !! i) as [p|]; [|discriminate]. cbn in *. rewrite <- Hp. f_equal. unfold wake. repeat case_match; reflexivity.
Qed.

Lemma inside_mypid l s : inside l s -> mypid s = Ok pid s.
Proof.
  intros [Hr Hm Hf Hp]. unfold mypid. erewrite bind_ok by (eapply run_myproc; [exact Hr | lia]).
  unfold has_pid in Hp. destruct (k_procs s !! i) as [p|] eqn:E; [|discriminate]. injection Hp as Hp.
  erewrite bind_ok by reflexivity. erewrite bind_ok by (apply get_proc_ok; exact E). rewrite <- Hp. reflexivity.
Qed.

(** ** The rest of the system *)

Definition env_free (s : kstate) : Prop := forall l, l <> LPtable -> lock_free l s.
Definition env (s s' : kstate) : Prop :=
  resumes i LIde s' /\ env_free s' /\ has_pid s' /\
  exists t t', k_fs t = k_fs s /\ ideintr t = Ok tt t' /\ k_fs s' = k_fs t'.

(** [runs m f Q]: started on the file-system state [f], [m] neither panics nor
    faults nor gives up, and ends with a result and a state that satisfy [Q].
    [runs_in P] starts in a state with [P], such as inside a lock. *)
Definition runs_in {A} (P : kstate -> Prop) (m : K A) (f : fs_t) (Q : A -> fs_t -> Prop) : Prop := forall R h s0 s,
  P s -> k_fs s = f -> wp env R (fun _ _ a s' => quiet s' /\ Q a (k_fs s')) h s0 (m s).
Definition runs {A} : K A -> fs_t -> (A -> fs_t -> Prop) -> Prop := runs_in quiet.

(** Code that does not sleep, from a state with [P] to one with [P']. *)
Definition goes {A} (P P' : kstate -> Prop) (m : K A) (f : fs_t) (a : A) (f' : fs_t) : Prop := forall s,
  P s -> k_fs s = f -> exists s', m s = Ok a s' /\ P' s' /\ k_fs s' = f'.

Lemma goes_bind {A B} P P1 P2 (m : K A) (k : A -> K B) f a f1 b f2 :
  goes P P1 m f a f1 -> goes P1 P2 (k a) f1 b f2 -> goes P P2 (bind m k) f b f2.
Proof.
  intros Hm Hk s Hq Hf. destruct (Hm s Hq Hf) as (s1 & E1 & Hq1 & Hf1). destruct (Hk s1 Hq1 Hf1) as (s2 & E2 & H2).
  exists s2. rewrite (bind_ok _ _ _ _ _ E1). auto.
Qed.

Lemma goes_ret {A} P (a : A) f : goes P P (ret a) f a f.
Proof. intros s Hq Hf. exists s. auto. Qed.

Lemma goes_get_fs {A} P (g : fs_t -> A) f : goes P P (get_fs g) f (g f) f.
Proof. intros s Hq <-. exists s. auto. Qed.

Lemma goes_get_buf P b x f : fs_bufs f !! b = Some x -> goes P P (get_buf b) f x f.
Proof. intros E s Hq <-. exists s. unfold get_buf. rewrite E. auto. Qed.

Class Stable (P : kstate -> Prop) := stable s f : P s -> P (set_fs f s).
#[global] Instance quiet_stable : Stable quiet := quiet_fs.
#[global] Instance inside_stable l : Stable (inside l) := inside_fs l.

Lemma goes_upd_fs P `{Stable P} g f : goes P P (upd_fs g) f tt (g f).
Proof. intros s Hq <-. exists (set_fs (g (k_fs s)) s). split; [reflexivity|]. split; [apply stable, Hq | reflexivity]. Qed.

Lemma goes_acquire l f : l <> LPtable -> goes quiet (inside l) (acquire l) f tt f.
Proof. intros Hne s Hq Hf. destruct (quiet_acquire l s Hq Hne) as [E Hi]. exists (locked_state l s). auto. Qed.
Lemma goes_release l f : l <> LPtable -> goes (inside l) quiet (release l) f tt f.
Proof. intros Hne s Hq Hf. destruct (inside_release l s Hq Hne) as [E Hi]. exists (unlocked_state l s). auto. Qed.
Lemma goes_wakeup l ch f : l <> LPtable -> goes (inside l) (inside l) (wakeup ch) f tt f.
Proof. intros Hne s Hq Hf. destruct (inside_wakeup l s ch Hq Hne) as [E Hi]. exists (woken ch s). auto. Qed.
Lemma goes_mypid l f : goes (inside l) (inside l) mypid f pid f.
Proof. intros s Hq Hf. exists s. split; [eapply inside_mypid; exact Hq | auto]. Qed.

Lemma goes_runs_in {A} P (m : K A) f a f' (Q : A -> fs_t -> Prop) : goes P quiet m f a f' -> Q a f' -> runs_in P m f Q.
Proof. intros Hd HQ R h s0 s Hq Hf. destruct (Hd s Hq Hf) as (s' & -> & Hq' & <-). apply wp_ok. auto. Qed.
Lemma goes_runs {A} (m : K A) f a f' (Q : A -> fs_t -> Prop) : goes quiet quiet m f a f' -> Q a f' -> runs m f Q.
Proof. apply goes_runs_in. Qed.

Lemma runs_bind {A B} (m : K A) (k : A -> K B) f Q Q' :
  runs m f Q' -> (forall a f', Q' a f' -> runs (k a) f' Q) -> runs (bind m k) f Q.
Proof.
  intros Hm Hk R h s0 s Hq Hf. eapply wp_bind; [apply Hm; eassumption|]. cbn. intros h' s0' a s' [Hq' HQ]. apply (Hk a (k_fs s') HQ); auto.
Qed.

Lemma runs_in_step {A B} P P1 (m : K A) (k : A -> K B) f a f1 Q :
  goes P P1 m f a f1 -> runs_in P1 (k a) f1 Q -> runs_in P (bind m k) f Q.
Proof.
  intros Hm Hk R h s0 s Hq Hf. destruct (Hm s Hq Hf) as (s1 & E1 & Hq1 & Hf1). rewrite (bind_ok _ _ _ _ _ E1). apply Hk; assumption.
Qed.
Lemma runs_step {A B} (m : K A) (k : A -> K B) f a f1 Q : goes quiet quiet m f a f1 -> runs (k a) f1 Q -> runs (bind m k) f Q.
Proof. apply runs_in_step. Qed.

Lemma runs_mono {A} (m : K A) f (Q Q' : A -> fs_t -> Prop) : runs m f Q -> (forall a f', Q a f' -> Q' a f') -> runs m f Q'.
Proof. intros Hm HQ R h s0 s Hq Hf. eapply wp_mono; [apply Hm; assumption|]. cbn. intros h' s0' a s' [H1 H2]. auto. Qed.

(** ** Sleep locks of buffers *)

Definition ub (b : nat) (g : buf -> buf) (f : fs_t) : fs_t := set_bufs (alter g b (fs_bufs f)) f.

Lemma ub_lookup b g f x : fs_bufs f !! b = Some x -> fs_bufs (ub b g f) !! b = Some (g x).
Proof. intros E. unfold ub. cbn [fs_bufs set_bufs]. rewrite list_lookup_alter_eq, E. reflexivity. Qed.

Lemma ub_lookup_ne b b' g f : b <> b' -> fs_bufs (ub b g f) !! b' = fs_bufs f !! b'.
Proof. intros Hne. unfold ub. cbn [fs_bufs set_bufs]. apply list_lookup_alter_ne. congruence. Qed.

Lemma goes_upd_buf P `{Stable P} b g f : goes P P (upd_buf b g) f tt (ub b g f).
Proof. exact (goes_upd_fs P _ f). Qed.

Lemma ub_same b g h f x : fs_bufs f !! b = Some x -> g x = h x -> ub b g f = ub b h f.
Proof. intros E Eg. unfold ub. f_equal. apply list_alter_ext; [|reflexivity]. intros y Ey. congruence. Qed.

Lemma ub_ub b g h f : ub b g (ub b h f) = ub b (fun x => g (h x)) f.
Proof.
  unfold ub. cbn [fs_bufs set_bufs]. unfold set_bufs. cbn. f_equal. apply list_eq. intros j. destruct (decide (b = j)) as [<- | Hne].
  - rewrite !list_lookup_alter_eq. destruct (fs_bufs f !! b); reflexivity.
  - rewrite !list_lookup_alter_ne by congruence. reflexivity.
Qed.

Definition take_lock (x : buf) : buf := set_b_lock (mkSleeplock 1 (sk_name (b_lock x)) pid) x.
Definition drop_lock (x : buf) : buf := set_b_lock (mkSleeplock 0 (sk_name (b_lock x)) 0) x.

Context {HR : Rounds} {HP : Patient}.

Lemma acquiresleep_buf b x f :
  fs_bufs f !! b = Some x -> sk_locked (b_lock x) = 0 -> goes quiet quiet (acquiresleep (LBuf b)) f tt (ub b take_lock f).
Proof.
  intros E Hl. unfold acquiresleep. eapply goes_bind; [apply goes_acquire; discriminate|].
  eapply goes_bind.
  { pose proof patient. destruct rounds as [|r]; [lia|]. cbn [acquiresleep_loop get_slock]. eapply goes_bind; [eapply goes_bind; [apply goes_get_buf, E | apply goes_ret]|].
    rewrite Hl. apply goes_ret. }
  eapply goes_bind; [eapply goes_bind; [apply goes_get_buf, E | apply goes_ret]|]. cbn [set_slock].
  eapply goes_bind; [apply goes_upd_buf, _|]. eapply goes_bind; [apply goes_mypid|].
  cbn [get_slock]. eapply goes_bind; [eapply goes_bind; [apply goes_get_buf, ub_lookup, E | apply goes_ret]|].
  eapply goes_bind; [apply goes_upd_buf, _|]. rewrite ub_ub.
  rewrite (ub_same b _ take_lock f x E) by reflexivity. apply goes_release. discriminate.
Qed.

Lemma releasesleep_buf b x f :
  fs_bufs f !! b = Some x -> goes quiet quiet (releasesleep (LBuf b)) f tt (ub b drop_lock f).
Proof.
  intros E. unfold releasesleep. eapply goes_bind; [apply goes_acquire; discriminate|]. cbn [get_slock set_slock].
  eapply goes_bind; [eapply goes_bind; [apply goes_get_buf, E | apply goes_ret]|].
  eapply goes_bind; [apply goes_upd_buf, _|]. rewrite (ub_same b _ drop_lock f x E) by reflexivity.
  eapply goes_bind; [apply goes_wakeup; discriminate|]. apply goes_release. discriminate.
Qed.

Lemma holdingsleep_buf b x f :
  fs_bufs f !! b = Some x -> sk_locked (b_lock x) = 1 -> sk_pid (b_lock x) = pid -> goes quiet quiet (holdingsleep (LBuf b)) f true f.
Proof.
  intros E Hl Hp. unfold holdingsleep. eapply goes_bind; [apply goes_acquire; discriminate|]. cbn [get_slock].
  eapply goes_bind; [eapply goes_bind; [apply goes_get_buf, E | apply goes_ret]|]. rewrite Hl. cbn [Z.eqb].
  eapply goes_bind; [eapply goes_bind; [apply goes_mypid | apply goes_ret]|]. rewrite Hp, Z.eqb_refl.
  eapply goes_bind; [apply goes_release; discriminate | apply goes_ret].
Qed.

(** ** The disk *)

(** Functions that leave the file system alone, when they return. *)
Definition keeps {A} (m : K A) : Prop := forall s a s', m s = Ok a s' -> k_fs s' = k_fs s.

Lemma keeps_bind {A B} (m : K A) (k : A -> K B) : keeps m -> (forall a, keeps (k a)) -> keeps (bind m k).
Proof. intros Hm Hk s b s' E. apply bind_inv in E as (a & s1 & E1 & E2). rewrite (Hk a _ _ _ E2). eapply Hm, E1. Qed.
Lemma keeps_ret {A} (a : A) : keeps (ret a).
Proof. intros s b s' [= _ <-]. reflexivity. Qed.
Lemma keeps_gets {A} (g : kstate -> A) : keeps (gets g).
Proof. intros s b s' [= _ <-]. reflexivity. Qed.
Lemma keeps_modify g : (forall s, k_fs (g s) = k_fs s) -> keeps (modify g).
Proof. intros Hg s b s' [= _ <-]. apply Hg. Qed.
Lemma keeps_panic {A} msg : keeps (@panic kstate A msg).
Proof. intros s a s' [=]. Qed.
Lemma keeps_if {A} (b : bool) (m m' : K A) : keeps m -> keeps m' -> keeps (if b then m else m').
Proof. destruct b; auto. Qed.

Ltac keep :=
  repeat first
    [ apply keeps_bind; [|intros ?] | apply keeps_if | apply keeps_ret | apply keeps_gets | apply keeps_panic
    | (apply keeps_modify; reflexivity) | (intros ? ? ? [=]; fail) ].

Lemma keeps_acquire l : keeps (acquire l).
Proof. unfold acquire, holding, pushcli, popcli, get_lock, set_lock, mycpu, readeflags_if, cli, sti, upd_cpu, when. keep. Qed.
Lemma keeps_release l : keeps (release l).
Proof. unfold release, holding, pushcli, popcli, get_lock, set_lock, mycpu, readeflags_if, cli, sti, upd_cpu, when. keep. Qed.
Lemma keeps_wakeup ch : keeps (wakeup ch).
Proof. apply keeps_bind; [apply keeps_acquire | intros _]. apply keeps_bind; [apply keeps_modify; reflexivity | intros _; apply keeps_release]. Qed.

(** A request that is done. *)
Definition finished (data : list Z) (x : buf) : buf := set_b_flags 2 (set_b_data data x).

Lemma ideintr_read t t' b x :
  fs_idequeue (k_fs t) = [b] -> fs_bufs (k_fs t) !! b = Some x -> b_flags x = 0 -> fs_ideerr (k_fs t) = false ->
  ideintr t = Ok tt t' ->
  k_fs t' = ub b (finished (fs_disk (k_fs t) (disk_of (b_dev x)) (b_blockno x))) (set_idequeue [] (k_fs t)).
Proof.
  intros Hq Hx Hf He E. unfold ideintr in E. apply bind_inv in E as ([] & t1 & E1 & E). apply keeps_acquire in E1. rewrite <- E1 in *. clear E1.
  cbn [bind get_fs gets] in E. unfold get_fs, gets in E. unfold bind at 1 in E. rewrite Hq in E.
  unfold upd_fs, modify in E. unfold bind at 1 in E. apply bind_inv in E as (x' & t2 & E1 & E).
  unfold get_buf in E1. cbn [k_fs set_fs fs_bufs set_idequeue] in E1. rewrite Hx in E1. injection E1 as <- <-. rewrite Hf in E.
  change (has 0 B_DIRTY) with false in E. cbn [negb] in E.
  apply bind_inv in E as ([] & t2 & E1 & E). unfold idewait, get_fs, gets in E1. cbn [bind k_fs set_fs fs_ideerr set_idequeue] in E1. unfold bind at 1 2 in E1. cbn [k_fs set_fs fs_ideerr set_idequeue] in E1.
  rewrite He in E1. cbn in E1. injection E1 as <-.
  unfold upd_buf, upd_fs, modify in E. unfold bind at 1 in E. unfold bind at 1 in E.
  apply bind_inv in E as ([] & t3 & E1 & E). apply keeps_wakeup in E1.
  unfold get_fs, gets in E. unfold bind at 1 in E. rewrite E1 in E. cbn [fs_idequeue k_fs set_fs set_bufs set_idequeue] in E.
  cbn [bool_decide when negb] in E. unfold bind at 1 in E. cbn in E. apply keeps_release in E. rewrite E, E1. cbn [k_fs set_fs].
  change (ub b (fun x => set_b_flags (Z.land (b_flags x) (w32 (Z.lnot B_DIRTY))) x)
    (ub b (fun x => set_b_flags (Z.lor (b_flags x) B_VALID) x)
      (ub b (set_b_data (fs_disk (k_fs t1) (disk_of (b_dev x)) (b_blockno x))) (set_idequeue [] (k_fs t1)))) =
    ub b (finished (fs_disk (k_fs t1) (disk_of (b_dev x)) (b_blockno x))) (set_idequeue [] (k_fs t1))).
  rewrite !ub_ub. refine (ub_same b _ _ (set_idequeue [] (k_fs t1)) x Hx _). cbn. rewrite Hf. reflexivity.
Qed.

Lemma ideintr_write t t' b x :
  fs_idequeue (k_fs t) = [b] -> fs_bufs (k_fs t) !! b = Some x -> b_flags x = 6 -> ideintr t = Ok tt t' ->
  k_fs t' = ub b (set_b_flags 2) (set_idequeue [] (k_fs t)).
Proof.
  intros Hq Hx Hf E. unfold ideintr in E. apply bind_inv in E as ([] & t1 & E1 & E). apply keeps_acquire in E1. rewrite <- E1 in *. clear E1.
  unfold get_fs, gets in E. unfold bind at 1 in E. rewrite Hq in E.
  unfold upd_fs, modify in E. unfold bind at 1 in E. apply bind_inv in E as (x' & t2 & E1 & E).
  unfold get_buf in E1. cbn [k_fs set_fs fs_bufs set_idequeue] in E1. rewrite Hx in E1. injection E1 as <- <-. rewrite Hf in E.
  change (has 6 B_DIRTY) with true in E. cbn [negb] in E. unfold bind at 1 in E. cbn [ret] in E.
  unfold upd_buf, upd_fs, modify in E. unfold bind at 1 in E. unfold bind at 1 in E.
  apply bind_inv in E as ([] & t3 & E1 & E). apply keeps_wakeup in E1.
  unfold get_fs, gets in E. unfold bind at 1 in E. rewrite E1 in E. cbn [fs_idequeue k_fs set_fs set_bufs set_idequeue] in E.
  cbn [bool_decide when negb] in E. unfold bind at 1 in E. cbn in E. apply keeps_release in E. rewrite E, E1. cbn [k_fs set_fs].
  change (ub b (fun x => set_b_flags (Z.land (b_flags x) (w32 (Z.lnot B_DIRTY))) x)
    (ub b (fun x => set_b_flags (Z.lor (b_flags x) B_VALID) x) (set_idequeue [] (k_fs t1))) =
    ub b (set_b_flags 2) (set_idequeue [] (k_fs t1))).
  rewrite !ub_ub. refine (ub_same b _ _ (set_idequeue [] (k_fs t1)) x Hx _). cbn. rewrite Hf. reflexivity.
Qed.

Lemma env_inside s' b q :
  env_free s' -> resumes i LIde s' -> has_pid s' -> k_procs s' !! i = Some q ->
  running i 1 (resumed_state i LIde b q s') -> mine LIde (resumed_state i LIde b q s') ->
  inside LIde (resumed_state i LIde b q s').
Proof.
  intros Hf Hr Hp Hq Hrun Hm. constructor; [exact Hrun | exact Hm | |].
  - intros l Hne. destruct (decide (l = LPtable)) as [-> | Hne2]; [apply Hrun|].
    unfold lock_free, resumed_state, locked_state, unlocked_state. cbn [k_locks set_locks set_procs set_cpu].
    rewrite !fupd_ne by congruence. apply Hf, Hne2.
  - unfold has_pid in *. unfold resumed_state, locked_state, unlocked_state. cbn [k_procs set_locks set_procs set_cpu].
    rewrite list_lookup_insert_eq by (eapply lookup_lt_Some; exact Hq). rewrite Hq in Hp. exact Hp.
Qed.

(** Waiting in [iderw] for the interrupt: [fin] is the state that it leaves. *)
Lemma iderw_wait b f fin R h s0 s x y :
  inside LIde s -> k_fs s = f -> fs_bufs f !! b = Some x -> Z.land (b_flags x) 6 <> 2 ->
  fs_bufs fin !! b = Some y -> b_flags y = 2 ->
  (forall t t', k_fs t = f -> ideintr t = Ok tt t' -> k_fs t' = fin) ->
  wp env R (fun _ _ a s' => quiet s' /\ k_fs s' = fin) h s0 ((iderw_loop b rounds ;; release LIde) s).
Proof.
  intros Hi Hf Hx Hfl Hy Hfy Hdone. pose proof patient. destruct rounds as [|[|r]]; [lia | lia|]. eapply wp_bind with (Q' := fun _ _ _ s' => inside LIde s' /\ k_fs s' = fin).
  2:{ intros h' s0' [] s' [Hi' Hf']. destruct (inside_release LIde s' Hi' ltac:(discriminate)) as [E Hq']. rewrite E. apply wp_ok. auto. }
  cbn [iderw_loop]. eapply wp_step; [unfold get_buf; rewrite Hf, Hx; reflexivity|].
  change (Z.lor B_VALID B_DIRTY) with 6. change B_VALID with 2. rewrite (proj2 (Z.eqb_neq _ _) Hfl).
  eapply wp_bind with (Q' := fun _ _ _ s' => inside LIde s' /\ k_fs s' = fin).
  - eapply wp_sleep; [apply Hi | apply Hi | discriminate|]. intros s1 s' _ _ Efs _ _ (Hres & Hfree & Hpid & t & t' & Et & Ei & Es'). split; [exact Hres|].
    intros bo q Hq s2 Hrun Hm. split; [apply env_inside; assumption|].
    change (k_fs s2) with (k_fs s'). rewrite Es'. apply (Hdone t t'); [congruence | exact Ei].
  - intros h' s0' [] s' [Hi' Hf']. cbn [iderw_loop]. eapply wp_step; [unfold get_buf; rewrite Hf', Hy; reflexivity|].
    rewrite Hfy. change (Z.land 2 (Z.lor B_VALID B_DIRTY) =? B_VALID) with true. cbn. apply wp_ok. auto.
Qed.

(** The state in which a request of [iderw] starts, and what it needs. *)
Record can_io (b : nat) (x : buf) (f : fs_t) : Prop := {
  io_buf : fs_bufs f !! b = Some x;
  io_locked : sk_locked (b_lock x) = 1;
  io_pid : sk_pid (b_lock x) = pid;
  io_queue : fs_idequeue f = [];
  io_err : fs_ideerr f = false;
  io_block : b_blockno x < FSSIZE;
  io_dev : b_dev x = 0 \/ fs_havedisk1 f <> 0 }.

Lemma queue_back b f : fs_idequeue f = [] -> set_idequeue [] (set_idequeue [b] f) = f.
Proof. intros E. destruct f. cbn in *. subst. reflexivity. Qed.

Lemma iderw_head b x f s R h s0 Q :
  can_io b x f -> Z.land (b_flags x) 6 <> 2 -> quiet s -> k_fs s = f ->
  (forall s', inside LIde s' -> k_fs s' = set_idequeue [b] f ->
     wp env R Q h s0 ((idestart (Some b) ;; iderw_loop b rounds ;; release LIde) s')) ->
  wp env R Q h s0 (iderw b s).
Proof.
  intros [Hx Hl Hp Hqu He Hb Hd] Hfl Hq Hf Hk. unfold iderw.
  destruct (holdingsleep_buf b x f Hx Hl Hp s Hq Hf) as (s1 & E1 & Hq1 & Hf1). eapply wp_step; [exact E1|]. cbn [negb].
  eapply wp_step; [unfold get_buf; rewrite Hf1, Hx; reflexivity|]. eapply wp_step; [unfold get_fs, gets; rewrite Hf1; reflexivity|].
  change (Z.lor B_VALID B_DIRTY) with 6. change B_VALID with 2. rewrite (proj2 (Z.eqb_neq _ _) Hfl).
  assert (Hdev : negb (b_dev x =? 0) && (fs_havedisk1 f =? 0) = false).
  { destruct Hd as [-> | Hd]; [reflexivity|]. rewrite (proj2 (Z.eqb_neq _ _) Hd). apply andb_false_r. }
  rewrite Hdev. destruct (quiet_acquire LIde s1 Hq1 ltac:(discriminate)) as [E2 Hi2]. eapply wp_step; [exact E2|].
  eapply wp_step; [reflexivity|]. change (fs_idequeue (k_fs (locked_state LIde s1))) with (fs_idequeue (k_fs s1)). rewrite Hf1, Hqu.
  eapply wp_step; [reflexivity|]. rewrite bool_decide_eq_true_2 by reflexivity. cbn [when app].
  apply Hk; [apply inside_fs, Hi2|]. cbn [k_fs set_fs]. change (k_fs (locked_state LIde s1)) with (k_fs s1). rewrite Hf1. reflexivity.
Qed.

Lemma iderw_read b x f :
  can_io b x f -> b_flags x = 0 ->
  runs (iderw b) f (fun _ f' => f' = ub b (finished (fs_disk f (disk_of (b_dev x)) (b_blockno x))) f).
Proof.
  intros Hio Hfl R h s0 s Hq Hf. pose proof Hio as [Hx Hl Hp Hqu He Hb Hd].
  eapply (iderw_head b x f s R h s0); [exact Hio | rewrite Hfl; discriminate | exact Hq | exact Hf|]. intros s1 Hi Hf1.
  eapply wp_step.
  { unfold idestart. erewrite bind_ok by (unfold get_buf; rewrite Hf1; exact (f_equal (fun o => match o with Some x => Ok x s1 | None => Fault end) Hx)).
    rewrite (proj2 (Z.leb_gt _ _) Hb). unfold idewait. erewrite bind_ok by reflexivity. rewrite Hfl. reflexivity. }
  eapply iderw_wait; [exact Hi | exact Hf1 | exact Hx | rewrite Hfl; discriminate | apply ub_lookup, Hx | reflexivity|].
  intros t t' Et Ei. erewrite (ideintr_read t t' b x); rewrite ?Et; try assumption; try reflexivity.
  rewrite (queue_back b f Hqu). reflexivity.
Qed.

Definition wrote (x : buf) (f : fs_t) : fs_t :=
  let d := disk_of (b_dev x) in
  set_writes ((d, b_blockno x, b_data x) :: fs_writes f)
    (set_disk (fupd (fs_disk f) d (fupd (fs_disk f d) (b_blockno x) (b_data x))) f).

Lemma iderw_write b x f :
  can_io b x f -> b_flags x = 6 -> runs (iderw b) f (fun _ f' => f' = ub b (set_b_flags 2) (wrote x f)).
Proof.
  intros Hio Hfl R h s0 s Hq Hf. pose proof Hio as [Hx Hl Hp Hqu He Hb Hd].
  eapply (iderw_head b x f s R h s0); [exact Hio | rewrite Hfl; discriminate | exact Hq | exact Hf|]. intros s1 Hi Hf1.
  eapply wp_step.
  { unfold idestart. erewrite bind_ok by (unfold get_buf; rewrite Hf1; exact (f_equal (fun o => match o with Some x => Ok x s1 | None => Fault end) Hx)).
    rewrite (proj2 (Z.leb_gt _ _) Hb). unfold idewait. erewrite bind_ok by reflexivity. rewrite Hfl. reflexivity. }
  eapply (iderw_wait b (wrote x (set_idequeue [b] f)) _ R h s0 _ x (set_b_flags 2 x)); [apply inside_fs, Hi | cbn [k_fs set_fs]; rewrite Hf1; reflexivity | exact Hx | rewrite Hfl; discriminate | | reflexivity|].
  - apply (ub_lookup b (set_b_flags 2) (wrote x f) x). exact Hx.
  - intros t t' Et Ei. erewrite (ideintr_write t t' b x); rewrite ?Et; try assumption; try reflexivity.
    change (ub b (set_b_flags 2) (wrote x (set_idequeue [] (set_idequeue [b] f))) = ub b (set_b_flags 2) (wrote x f)).
    rewrite (queue_back b f Hqu). reflexivity.
Qed.

(** ** Searching the list *)

Definition nx (f : fs_t) (b : nat) : nat := match fs_bufs f !! b with Some x => b_next x | None => 0%nat end.
Definition pv (f : fs_t) (b : nat) : nat := match fs_bufs f !! b with Some x => b_prev x | None => 0%nat end.
Definition such (p : buf -> bool) (f : fs_t) (b : nat) : bool :=
  match fs_bufs f !! b with Some x => p x | None => false end.

Definition is_block (dev bn : Z) (x : buf) : bool := (b_dev x =? dev) && (b_blockno x =? bn).
Definition is_unused (x : buf) : bool := (b_refcnt x =? 0) && (Z.land (b_flags x) B_DIRTY =? 0).

Lemma bget_cached_find P dev bn f G x l fuel :
  chain (nx f) G x l NBUF -> NBUF ∉ l -> Forall (fun b => b < length (fs_bufs f))%nat l -> (length l < fuel)%nat ->
  goes P P (bget_cached dev bn (nx f x) fuel) f (find (such (is_block dev bn) f) l) f.
Proof.
  revert x fuel. induction l as [|y l IH]; intros x [|fuel] Hc Hn Hl Hfu; cbn [chain length] in *; try lia; cbn [bget_cached find].
  - destruct Hc as [-> _]. rewrite decide_True by reflexivity. apply goes_ret.
  - destruct Hc as (-> & _ & Hc). apply not_elem_of_cons in Hn as [Hny Hn]. rewrite decide_False by congruence.
    apply Forall_cons in Hl as [Hy Hl]. destruct (lookup_lt_is_Some_2 _ _ Hy) as [z Hz].
    eapply goes_bind; [apply goes_get_buf, Hz|]. unfold such at 1, is_block at 1. rewrite Hz.
    destruct ((b_dev z =? dev) && (b_blockno z =? bn)); [apply goes_ret|].
    replace (b_next z) with (nx f y) by (unfold nx; rewrite Hz; reflexivity). apply IH; [exact Hc | exact Hn | exact Hl | lia].
Qed.

Lemma bget_unused_find P f G x l fuel :
  chain (pv f) G x l NBUF -> NBUF ∉ l -> Forall (fun b => b < length (fs_bufs f))%nat l -> (length l < fuel)%nat ->
  goes P P (bget_unused (pv f x) fuel) f (find (such is_unused f) l) f.
Proof.
  revert x fuel. induction l as [|y l IH]; intros x [|fuel] Hc Hn Hl Hfu; cbn [chain length] in *; try lia; cbn [bget_unused find].
  - destruct Hc as [-> _]. rewrite decide_True by reflexivity. apply goes_ret.
  - destruct Hc as (-> & _ & Hc). apply not_elem_of_cons in Hn as [Hny Hn]. rewrite decide_False by congruence.
    apply Forall_cons in Hl as [Hy Hl]. destruct (lookup_lt_is_Some_2 _ _ Hy) as [z Hz].
    eapply goes_bind; [apply goes_get_buf, Hz|]. unfold such at 1, is_unused at 1. rewrite Hz.
    destruct ((b_refcnt z =? 0) && (Z.land (b_flags z) B_DIRTY =? 0)); [apply goes_ret|].
    replace (b_prev z) with (pv f y) by (unfold pv; rewrite Hz; reflexivity). apply IH; [exact Hc | exact Hn | exact Hl | lia].
Qed.

(** ** The abstract cache *)

(** A buffer the process holds: its block, whether the log will install it, and
    its contents. *)
Record hbuf : Type := mkHbuf { h_bn : Z; h_dirty : bool; h_data : list Z }.

(** The disk, the history of its writes, the buffers held, and the contents of
    the dirty blocks that nobody holds. *)
Record cache : Type := mkCache {
  c_disk : Z -> list Z;
  c_writes : list (Z * Z * list Z);
  c_held : gmap nat hbuf;
  c_dirty : gmap Z (list Z) }.

Definition view (c : cache) (bn : Z) : list Z := default (c_disk c bn) (c_dirty c !! bn).
Definition c_take (b : nat) (h : hbuf) (c : cache) : cache :=
  mkCache (c_disk c) (c_writes c) (<[b := h]> (c_held c)) (delete (h_bn h) (c_dirty c)).
Definition c_put (b : nat) (h : hbuf) (c : cache) : cache :=
  mkCache (c_disk c) (c_writes c) (delete b (c_held c))
    (if h_dirty h then <[h_bn h := h_data h]> (c_dirty c) else c_dirty c).

Context (dev : Z).

Definition c_write (bn : Z) (data : list Z) (c : cache) : cache :=
  mkCache (fupd (c_disk c) bn data) ((disk_of dev, bn, data) :: c_writes c) (c_held c) (c_dirty c).

Record holds_block (h : hbuf) (x : buf) : Prop := {
  hb_dev : b_dev x = dev;
  hb_bn : b_blockno x = h_bn h;
  hb_flags : b_flags x = if h_dirty h then 6 else 2;
  hb_data : b_data x = h_data h;
  hb_locked : sk_locked (b_lock x) = 1;
  hb_pid : sk_pid (b_lock x) = pid;
  hb_ref : b_refcnt x = 1 }.

(** A buffer nobody holds is empty, a copy of the disk, or a dirty block. *)
Record lies_free (c : cache) (x : buf) : Prop := {
  lf_locked : sk_locked (b_lock x) = 0;
  lf_ref : b_refcnt x = 0;
  lf_data : b_flags x = 0 /\ b_dev x <> dev \/
    b_flags x = 2 /\ b_dev x = dev /\ b_data x = c_disk c (b_blockno x) \/
    b_flags x = 6 /\ b_dev x = dev /\ c_dirty c !! b_blockno x = Some (b_data x) }.

Definition cell (c : cache) (b : nat) (x : buf) : Prop :=
  match c_held c !! b with Some h => holds_block h x | None => lies_free c x end.

Definition ring (f : fs_t) : Prop := exists ord, ord ≡ₚ seq 0 NBUF /\ chain (nx f) (pv f) NBUF ord NBUF.

(** [at_ f b x]: [x] is buffer [b] of the pool, not the list head. *)
Definition at_ (f : fs_t) (b : nat) (x : buf) : Prop := (b < NBUF)%nat /\ fs_bufs f !! b = Some x.

Record cached (f : fs_t) (c : cache) : Prop := {
  ca_len : length (fs_bufs f) = S NBUF;
  ca_ring : ring f;
  ca_cell b x : at_ f b x -> cell c b x;
  ca_uniq b b' x x' : at_ f b x -> at_ f b' x' -> b_dev x = dev -> b_dev x' = dev ->
    b_blockno x = b_blockno x' -> b = b';
  ca_held b h : c_held c !! b = Some h -> (b < NBUF)%nat;
  ca_dirty bn d : c_dirty c !! bn = Some d ->
    exists b x, at_ f b x /\ c_held c !! b = None /\ b_flags x = 6 /\ b_blockno x = bn;
  ca_queue : fs_idequeue f = [];
  ca_err : fs_ideerr f = false;
  ca_dev : dev = 0 \/ fs_havedisk1 f <> 0;
  ca_disk : fs_disk f (disk_of dev) = c_disk c;
  ca_writes : fs_writes f = c_writes c }.

(** What the cache does not touch. *)
Definition rest (f f' : fs_t) : Prop :=
  fs_log f' = fs_log f /\ fs_sb f' = fs_sb f /\ fs_inodes f' = fs_inodes f.
Definition kept (f f' : fs_t) : Prop := fs_sb f' = fs_sb f /\ fs_inodes f' = fs_inodes f.

Lemma rest_trans f g k : rest f g -> rest g k -> rest f k.
Proof. unfold rest. clear. intuition congruence. Qed.
Lemma kept_trans f f1 f2 : kept f f1 -> kept f1 f2 -> kept f f2.
Proof. unfold kept. clear. intuition congruence. Qed.
Lemma rest_kept f f' : rest f f' -> kept f f'.
Proof. intros (_ & H1 & H2). split; assumption. Qed.

Lemma at_fun f b x x' : at_ f b x -> at_ f b x' -> x' = x.
Proof. intros [_ H1] [_ H2]. congruence. Qed.

Lemma at_exists f c b : cached f c -> (b < NBUF)%nat -> exists x, at_ f b x.
Proof. intros Hc Hb. destruct (lookup_lt_is_Some_2 (fs_bufs f) b) as [x Hx]; [rewrite (ca_len f c Hc); lia|]. exists x. split; assumption. Qed.

Lemma held_at f c b h : cached f c -> c_held c !! b = Some h -> exists x, at_ f b x /\ holds_block h x.
Proof.
  intros Hc Hh. destruct (at_exists f c b Hc (ca_held f c Hc b h Hh)) as [x Hx]. exists x. split; [exact Hx|].
  pose proof (ca_cell f c Hc b x Hx) as Hcell. unfold cell in Hcell. rewrite Hh in Hcell. exact Hcell.
Qed.

Lemma dirty_at f c bn d : cached f c -> c_dirty c !! bn = Some d ->
  exists b x, at_ f b x /\ c_held c !! b = None /\ lies_free c x /\ b_flags x = 6 /\ b_dev x = dev /\ b_blockno x = bn /\ b_data x = d.
Proof.
  intros Hc Hd. destruct (ca_dirty f c Hc bn d Hd) as (b & x & Hx & Hn & Hf & Hb). exists b, x.
  pose proof (ca_cell f c Hc b x Hx) as Hcell. unfold cell in Hcell. rewrite Hn in Hcell. pose proof Hcell as [_ _ Hdata].
  destruct Hdata as [[? _] | [[? _] | (_ & Hdev & Hdd)]]; try congruence. rewrite Hb, Hd in Hdd. injection Hdd as ->. repeat (split; [assumption|]). reflexivity.
Qed.

Lemma held_not_dirty f c b h : cached f c -> c_held c !! b = Some h -> c_dirty c !! h_bn h = None.
Proof.
  intros Hc Hh. destruct (held_at f c b h Hc Hh) as (x & Hx & Hb). destruct (c_dirty c !! h_bn h) as [d|] eqn:E; [|reflexivity].
  destruct (dirty_at f c _ d Hc E) as (b' & x' & Hx' & Hn & _ & _ & Hdev & Hbn & _).
  rewrite (ca_uniq f c Hc b b' x x' Hx Hx' (hb_dev _ _ Hb) Hdev) in Hh by (rewrite (hb_bn _ _ Hb); congruence). congruence.
Qed.

Lemma held_inj f c b b' h h' : cached f c -> c_held c !! b = Some h -> c_held c !! b' = Some h' -> h_bn h = h_bn h' -> b = b'.
Proof.
  intros Hc Hh Hh' E. destruct (held_at f c b h Hc Hh) as (x & Hx & Hb). destruct (held_at f c b' h' Hc Hh') as (x' & Hx' & Hb').
  apply (ca_uniq f c Hc b b' x x' Hx Hx'); [apply Hb | apply Hb' |]. rewrite (hb_bn _ _ Hb), (hb_bn _ _ Hb'). exact E.
Qed.

(** The disk and the dirty blocks matter to a free buffer at its block only. *)
Lemma lies_free_ext c c' x :
  (b_dev x = dev -> c_disk c' (b_blockno x) = c_disk c (b_blockno x) /\ c_dirty c' !! b_blockno x = c_dirty c !! b_blockno x) ->
  lies_free c x -> lies_free c' x.
Proof.
  intros He [H1 H2 H3]. constructor; [exact H1 | exact H2|].
  destruct H3 as [H3 | [(H3 & H4 & H5) | (H3 & H4 & H5)]]; [left; exact H3 | right; left | right; right].
  all: destruct (He H4) as [E1 E2]; rewrite ?E1, ?E2; auto.
Qed.

(** Changing buffer [b] without touching the links. *)
Definition unlinked (g : buf -> buf) : Prop := forall x, b_next (g x) = b_next x /\ b_prev (g x) = b_prev x.

Lemma nx_ub b g f : unlinked g -> nx (ub b g f) = nx f.
Proof.
  intros Hg. extensionality j. unfold nx. destruct (decide (b = j)) as [<- | Hne]; [|rewrite ub_lookup_ne by exact Hne; reflexivity].
  unfold ub. cbn [fs_bufs set_bufs]. rewrite list_lookup_alter_eq. destruct (fs_bufs f !! b) as [x|]; [apply (Hg x) | reflexivity].
Qed.
Lemma pv_ub b g f : unlinked g -> pv (ub b g f) = pv f.
Proof.
  intros Hg. extensionality j. unfold pv. destruct (decide (b = j)) as [<- | Hne]; [|rewrite ub_lookup_ne by exact Hne; reflexivity].
  unfold ub. cbn [fs_bufs set_bufs]. rewrite list_lookup_alter_eq. destruct (fs_bufs f !! b) as [x|]; [apply (Hg x) | reflexivity].
Qed.

Lemma at_ub b g f b' y : at_ (ub b g f) b' y -> b' = b /\ (exists x, at_ f b x /\ y = g x) \/ b' <> b /\ at_ f b' y.
Proof.
  intros [Hl Hy]. destruct (decide (b' = b)) as [-> | Hne]; [left; split; [reflexivity|] | right].
  - unfold ub in Hy. cbn [fs_bufs set_bufs] in Hy. rewrite list_lookup_alter_eq in Hy. destruct (fs_bufs f !! b) as [x|] eqn:E; [|discriminate].
    exists x. injection Hy as <-. repeat split; assumption.
  - rewrite ub_lookup_ne in Hy by congruence. repeat split; assumption.
Qed.

Lemma at_ub_eq b g f x : at_ f b x -> at_ (ub b g f) b (g x).
Proof. intros [Hl Hx]. split; [exact Hl | apply ub_lookup, Hx]. Qed.
Lemma at_ub_ne b g f b' x : b' <> b -> at_ f b' x -> at_ (ub b g f) b' x.
Proof. intros Hne [Hl Hx]. split; [exact Hl | rewrite ub_lookup_ne by congruence; exact Hx]. Qed.

(** Buffer [b] is, or stays, in the hands of the process, as [h]. *)
Lemma claim_ok b g x h f c :
  cached f c -> at_ f b x -> unlinked g -> holds_block h (g x) ->
  (forall b' x', at_ f b' x' -> b_dev x' = dev -> b_blockno x' = h_bn h -> b' = b) ->
  (c_held c !! b = None -> b_flags x = 6 -> b_blockno x = h_bn h) ->
  cached (ub b g f) (c_take b h c).
Proof.
  intros Hc Hx Hg Hh Huniq Hown. pose proof Hc as []. constructor; cbn [c_take c_disk c_writes c_held c_dirty]; try assumption.
  - unfold ub. cbn [fs_bufs set_bufs]. rewrite length_alter. assumption.
  - unfold ring. rewrite nx_ub, pv_ub by exact Hg. assumption.
  - intros b' y [[-> (x0 & Hx0 & ->)] | [Hne Hy]]%at_ub; unfold cell; cbn [c_take c_held].
    + rewrite lookup_insert_eq. rewrite (at_fun f b x x0 Hx Hx0). exact Hh.
    + rewrite lookup_insert_ne by congruence. pose proof (ca_cell0 b' y Hy) as Hcell. unfold cell in Hcell. destruct (c_held c !! b'); [exact Hcell|].
      eapply lies_free_ext; [|exact Hcell]. intros Hdev. split; [reflexivity|]. apply lookup_delete_ne. intros E. apply Hne, (Huniq b' y Hy Hdev). auto.
  - intros b1 b2 y1 y2 H1 H2 D1 D2 E. apply at_ub in H1 as [[-> (x1 & H1 & ->)] | [N1 H1]], H2 as [[-> (x2 & H2 & ->)] | [N2 H2]]; [reflexivity | | |].
    + symmetry. apply (Huniq b2 y2 H2 D2). rewrite <- E, (at_fun f b x x1 Hx H1). apply Hh.
    + apply (Huniq b1 y1 H1 D1). rewrite E, (at_fun f b x x2 Hx H2). apply Hh.
    + apply (ca_uniq0 b1 b2 y1 y2); assumption.
  - intros b' h'. destruct (decide (b' = b)) as [-> | Hne]; [intros _; apply Hx | rewrite lookup_insert_ne by congruence; apply ca_held0].
  - intros bn d (Hne & Hd)%lookup_delete_Some. destruct (ca_dirty0 bn d Hd) as (b' & y & Hy & Hn & Hf & Hb).
    assert (b' <> b) as Hb'. { intros ->. apply Hne. rewrite (at_fun f b x y Hx Hy) in Hf, Hb. rewrite <- Hb. symmetry. apply Hown; assumption. }
    exists b', y. split; [apply at_ub_ne; assumption|]. split; [|auto]. rewrite lookup_insert_ne by congruence. exact Hn.
Qed.
Definition c_hold (b : nat) (h : hbuf) (c : cache) : cache :=
  mkCache (c_disk c) (c_writes c) (<[b := h]> (c_held c)) (c_dirty c).

(** Changing a buffer that is held. *)
Lemma hold_ok b g x h h' f c :
  cached f c -> c_held c !! b = Some h -> at_ f b x -> unlinked g -> holds_block h' (g x) -> h_bn h' = h_bn h ->
  cached (ub b g f) (c_hold b h' c).
Proof.
  intros Hc Hh Hx Hg Hb E. replace (c_hold b h' c) with (c_take b h' c).
  2:{ unfold c_take, c_hold. rewrite delete_id; [reflexivity|]. rewrite E. eapply held_not_dirty; eassumption. }
  destruct (held_at f c b h Hc Hh) as (x0 & Hx0 & H0). rewrite (at_fun f b x x0 Hx Hx0) in H0.
  eapply claim_ok; [exact Hc | exact Hx | exact Hg | exact Hb | | congruence].
  intros b' x' Hx' Hdev Hbn. apply (ca_uniq f c Hc b' b x' x Hx' Hx Hdev); [apply H0|]. rewrite (hb_bn _ _ H0). congruence.
Qed.

(** Giving up buffer [b]. *)
Lemma giveup_ok b g x h f c :
  cached f c -> c_held c !! b = Some h -> at_ f b x -> unlinked g ->
  b_dev (g x) = b_dev x -> b_blockno (g x) = b_blockno x -> b_flags (g x) = b_flags x -> b_data (g x) = b_data x ->
  sk_locked (b_lock (g x)) = 0 -> b_refcnt (g x) = 0 ->
  (h_dirty h = false -> h_data h = c_disk c (h_bn h)) ->
  cached (ub b g f) (c_put b h c).
Proof.
  intros Hc Hh Hx Hg Edev Ebn Efl Eda Elk Erf Hclean. destruct (held_at f c b h Hc Hh) as (x0 & Hx0 & H0). rewrite (at_fun f b x x0 Hx Hx0) in H0. clear x0 Hx0.
  assert (Hlies : lies_free (c_put b h c) (g x)).
  { constructor; [exact Elk | exact Erf|]. rewrite Edev, Ebn, Efl, Eda, (hb_flags _ _ H0), (hb_bn _ _ H0), (hb_data _ _ H0).
    unfold c_put. cbn [c_dirty c_disk]. right. pose proof (hb_dev _ _ H0). destruct (h_dirty h); [right | left]; [|auto]. rewrite lookup_insert_eq. auto. }
  assert (Hother : forall b' x', at_ f b' x' -> b' <> b -> b_dev x' = dev -> b_blockno x' <> h_bn h).
  { intros b' x' Hx' Hne Hdev E. apply Hne, (ca_uniq f c Hc b' b x' x Hx' Hx Hdev); [apply H0|]. rewrite (hb_bn _ _ H0). exact E. }
  pose proof Hc as []. constructor; cbn [c_put c_disk c_writes c_held c_dirty]; try assumption.
  - unfold ub. cbn [fs_bufs set_bufs]. rewrite length_alter. assumption.
  - unfold ring. rewrite nx_ub, pv_ub by exact Hg. assumption.
  - intros b' y [[-> (x0 & Hx0 & ->)] | [Hne Hy]]%at_ub; unfold cell; cbn [c_put c_held].
    + rewrite lookup_delete_eq, (at_fun f b x x0 Hx Hx0). exact Hlies.
    + rewrite lookup_delete_ne by congruence. pose proof (ca_cell0 b' y Hy) as Hcell. unfold cell in Hcell. destruct (c_held c !! b'); [exact Hcell|].
      eapply lies_free_ext; [|exact Hcell]. intros Hdev. split; [reflexivity|]. cbn [c_put c_dirty]. destruct (h_dirty h); [|reflexivity].
      apply lookup_insert_ne. intros E. apply (Hother b' y Hy Hne Hdev). auto.
  - intros b1 b2 y1 y2 H1 H2 D1 D2 E. apply at_ub in H1 as [[-> (x1 & H1 & ->)] | [N1 H1]], H2 as [[-> (x2 & H2 & ->)] | [N2 H2]]; [reflexivity | | |].
    + apply (at_fun f b x x1 Hx) in H1 as ->. apply (ca_uniq0 b b2 x y2); congruence.
    + apply (at_fun f b x x2 Hx) in H2 as ->. apply (ca_uniq0 b1 b y1 x); congruence.
    + apply (ca_uniq0 b1 b2 y1 y2); assumption.
  - intros b' h' (Hne & Hd)%lookup_delete_Some. eapply ca_held0, Hd.
  - intros bn d Hd. assert (c_dirty c !! bn = Some d \/ h_dirty h = true /\ bn = h_bn h) as [Hd' | [Ht ->]].
    { destruct (h_dirty h); [|auto]. apply lookup_insert_Some in Hd as [[<- _] | [_ Hd]]; auto. }
    + destruct (ca_dirty0 bn d Hd') as (b' & y & Hy & Hn & Hf & Hb). assert (b' <> b) by congruence.
      exists b', y. split; [apply at_ub_ne; assumption|]. rewrite lookup_delete_ne by congruence. auto.
    + exists b, (g x). split; [apply at_ub_eq, Hx|]. rewrite lookup_delete_eq, Efl, Ebn, (hb_flags _ _ H0), (hb_bn _ _ H0), Ht. auto.
Qed.

(** The disk takes the contents of a buffer that is held. *)
Lemma write_ok b x h f c :
  cached f c -> c_held c !! b = Some h -> at_ f b x -> cached (wrote x f) (c_write (h_bn h) (h_data h) c).
Proof.
  intros Hc Hh Hx. destruct (held_at f c b h Hc Hh) as (x0 & Hx0 & H0). rewrite (at_fun f b x x0 Hx Hx0) in H0. clear x0 Hx0.
  pose proof Hc as []. constructor; unfold wrote; cbn [c_write c_disk c_writes c_held c_dirty]; try assumption.
  - intros b' y Hy. pose proof (ca_cell0 b' y Hy) as Hcell. unfold cell in *. cbn [c_write c_held]. destruct (c_held c !! b') eqn:E; [exact Hcell|].
    eapply lies_free_ext; [|exact Hcell]. intros Hdev. split; [|reflexivity]. cbn [c_write c_disk]. apply fupd_ne. intros Ebn.
    rewrite (ca_uniq0 b b' x y Hx Hy (hb_dev _ _ H0) Hdev) in Hh by (rewrite (hb_bn _ _ H0); congruence). congruence.
  - cbn [fs_disk set_disk set_writes]. rewrite (hb_dev _ _ H0), fupd_eq, (hb_bn _ _ H0), (hb_data _ _ H0), ca_disk0. reflexivity.
  - cbn [fs_writes set_writes]. rewrite (hb_dev _ _ H0), (hb_bn _ _ H0), (hb_data _ _ H0), ca_writes0. reflexivity.
Qed.
(** ** bwrite *)

Lemma goes_held b f c h : cached f c -> c_held c !! b = Some h -> goes quiet quiet (holdingsleep (LBuf b)) f true f.
Proof. intros Hc Hh. destruct (held_at f c b h Hc Hh) as (x & [_ Hx] & []). eapply holdingsleep_buf; eassumption. Qed.

Lemma bwrite_spec b h f c :
  cached f c -> c_held c !! b = Some h -> h_bn h < FSSIZE ->
  runs (bwrite b) f (fun _ f' =>
    cached f' (c_hold b (mkHbuf (h_bn h) false (h_data h)) (c_write (h_bn h) (h_data h) c)) /\ rest f f').
Proof.
  intros Hc Hh Hlt. destruct (held_at f c b h Hc Hh) as (x & Hx & Hb). unfold bwrite.
  eapply runs_step; [eapply goes_held; eassumption|]. cbn [negb].
  set (g := fun x => set_b_flags (Z.lor (b_flags x) B_DIRTY) x). eapply runs_step; [apply goes_upd_buf, _|].
  assert (Hfl : b_flags (g x) = 6) by (unfold g; cbn; rewrite (hb_flags _ _ Hb); destruct (h_dirty h); reflexivity).
  set (h1 := mkHbuf (h_bn h) true (h_data h)).
  assert (Hb1 : holds_block h1 (g x)) by (destruct Hb; constructor; assumption).
  assert (Hc1 : cached (ub b g f) (c_hold b h1 c)) by (eapply hold_ok; [exact Hc | exact Hh | exact Hx | split; reflexivity | exact Hb1 | reflexivity]).
  assert (Hx1 : at_ (ub b g f) b (g x)) by apply at_ub_eq, Hx.
  assert (Hh1 : c_held (c_hold b h1 c) !! b = Some h1) by apply lookup_insert_eq.
  eapply runs_mono; [apply (iderw_write b (g x)); [|exact Hfl]|].
  { constructor; [apply Hx1 | apply Hb1 | apply Hb1 | eapply ca_queue, Hc1 | eapply ca_err, Hc1 | rewrite (hb_bn _ _ Hb1); exact Hlt|].
    rewrite (hb_dev _ _ Hb1). eapply ca_dev, Hc1. }
  intros _ f' ->. split; [|repeat split].
  pose proof (write_ok b (g x) h1 _ _ Hc1 Hh1 Hx1) as Hc2.
  replace (c_hold b _ (c_write _ _ c)) with (c_hold b (mkHbuf (h_bn h) false (h_data h)) (c_write (h_bn h1) (h_data h1) (c_hold b h1 c))).
  2:{ unfold c_hold, c_write. cbn [c_held c_disk c_writes c_dirty]. rewrite insert_insert_eq. reflexivity. }
  eapply hold_ok; [exact Hc2 | exact Hh1 | exact Hx1 | split; reflexivity | | reflexivity]. destruct Hb1. constructor; try assumption. reflexivity.
Qed.

(** ** brelse *)

Lemma nx_next b v f : (b < length (fs_bufs f))%nat -> nx (ub b (set_b_next v) f) = upd (nx f) b v.
Proof.
  intros Hl. extensionality j. unfold nx. destruct (decide (j = b)) as [-> | Hne].
  - destruct (lookup_lt_is_Some_2 _ _ Hl) as [x Hx]. rewrite (ub_lookup _ _ _ _ Hx), upd_eq. reflexivity.
  - rewrite ub_lookup_ne, upd_ne by congruence. reflexivity.
Qed.
Lemma pv_prev b v f : (b < length (fs_bufs f))%nat -> pv (ub b (set_b_prev v) f) = upd (pv f) b v.
Proof.
  intros Hl. extensionality j. unfold pv. destruct (decide (j = b)) as [-> | Hne].
  - destruct (lookup_lt_is_Some_2 _ _ Hl) as [x Hx]. rewrite (ub_lookup _ _ _ _ Hx), upd_eq. reflexivity.
  - rewrite ub_lookup_ne, upd_ne by congruence. reflexivity.
Qed.
Lemma nx_prev b v f : nx (ub b (set_b_prev v) f) = nx f.
Proof.
  extensionality j. unfold nx. destruct (decide (b = j)) as [<- | Hne]; [|rewrite ub_lookup_ne by exact Hne; reflexivity].
  unfold ub. cbn [fs_bufs set_bufs]. rewrite list_lookup_alter_eq. destruct (fs_bufs f !! b); reflexivity.
Qed.
Lemma pv_next b v f : pv (ub b (set_b_next v) f) = pv f.
Proof.
  extensionality j. unfold pv. destruct (decide (b = j)) as [<- | Hne]; [|rewrite ub_lookup_ne by exact Hne; reflexivity].
  unfold ub. cbn [fs_bufs set_bufs]. rewrite list_lookup_alter_eq. destruct (fs_bufs f !! b); reflexivity.
Qed.
Lemma ub_length b g f : length (fs_bufs (ub b g f)) = length (fs_bufs f).
Proof. apply length_alter. Qed.

(** Moving [b] to the front of the list. *)
Definition unlink (b : nat) (f : fs_t) : fs_t :=
  ub (pv f b) (set_b_next (nx f b)) (ub (nx f b) (set_b_prev (pv f b)) f).
Definition link_front (b : nat) (f : fs_t) : fs_t :=
  ub NBUF (set_b_next b) (ub (nx f NBUF) (set_b_prev b) (ub b (set_b_prev NBUF) (ub b (set_b_next (nx f NBUF)) f))).

Lemma ring_front b f : length (fs_bufs f) = S NBUF -> (b < NBUF)%nat -> ring f -> ring (link_front b (unlink b f)).
Proof.
  intros Hl Hb (ord & Hp & Hc). assert (Hin : b ∈ ord) by (rewrite Hp; apply elem_of_seq; lia).
  assert (Hnb : NBUF ∉ ord) by (rewrite Hp, elem_of_seq; lia).
  assert (Hall : forall y, y ∈ NBUF :: ord -> (y < S NBUF)%nat) by (intros y; rewrite elem_of_cons, Hp, elem_of_seq; lia).
  assert (Hnd : NoDup (NBUF :: ord)) by (apply NoDup_cons; split; [exact Hnb | rewrite Hp; apply NoDup_seq]).
  apply list_elem_of_split in Hin as (l1 & l2 & ->). exists (b :: l1 ++ l2). split; [rewrite <- Hp; apply Permutation_middle|].
  pose proof (chain_unlink _ _ _ _ _ _ _ Hc Hnd Hnb) as Hc1. apply chain_app in Hc as [Hprev%chain_prev Hnext%chain_next].
  assert (H1 : (pv f b < S NBUF)%nat) by (apply Hall; elems). assert (H2 : (nx f b < S NBUF)%nat) by (apply Hall; elems).
  assert (Hnx : nx (unlink b f) = upd (nx f) (pv f b) (nx f b)) by (unfold unlink; rewrite nx_next, nx_prev by (rewrite ub_length; lia); reflexivity).
  assert (Hpv : pv (unlink b f) = upd (pv f) (nx f b) (pv f b)) by (unfold unlink; rewrite pv_next, pv_prev by lia; reflexivity).
  rewrite <- Hnx, <- Hpv in Hc1. assert (Hl1 : length (fs_bufs (unlink b f)) = S NBUF) by (unfold unlink; rewrite !ub_length; exact Hl).
  pose proof (chain_next _ _ _ _ _ Hc1) as H3.
  assert (H4 : (nx (unlink b f) NBUF < S NBUF)%nat) by (apply Hall; elems).
  unfold link_front. rewrite nx_next, !nx_prev, nx_next by (rewrite ?ub_length; lia).
  rewrite pv_next, !pv_prev, pv_next by (rewrite ?ub_length; lia).
  apply chain_front; [exact Hc1 | |].
  - apply NoDup_cons in Hnd as [H5 H6]. apply NoDup_cons. split; [elems|]. rewrite <- Permutation_middle in H6. apply NoDup_cons in H6. apply H6.
  - apply NoDup_cons in Hnd as [_ H6]. rewrite <- Permutation_middle in H6. apply NoDup_cons in H6 as [H6 _]. rewrite elem_of_cons. intros [-> | H7]; [lia | exact (H6 H7)].
Qed.
(** Everything but the links. *)
Definition core (x : buf) : buf := set_b_prev 0%nat (set_b_next 0%nat x).

Lemma core_ub b g f : (forall x, core (g x) = core x) -> map core (fs_bufs (ub b g f)) = map core (fs_bufs f).
Proof.
  intros Hg. apply list_eq. intros j. rewrite !list_lookup_fmap. destruct (decide (b = j)) as [<- | Hne]; [|rewrite ub_lookup_ne by exact Hne; reflexivity].
  unfold ub. cbn [fs_bufs set_bufs]. rewrite list_lookup_alter_eq. destruct (fs_bufs f !! b) as [x|]; cbn; [rewrite Hg|]; reflexivity.
Qed.

Lemma at_core f f' b y : map core (fs_bufs f') = map core (fs_bufs f) -> at_ f' b y -> exists x, at_ f b x /\ core y = core x.
Proof.
  intros E [Hl Hy]. assert (Hm : map core (fs_bufs f) !! b = Some (core y)) by (rewrite <- E, list_lookup_fmap, Hy; reflexivity).
  rewrite list_lookup_fmap in Hm. destruct (fs_bufs f !! b) as [x|] eqn:Ex; [|discriminate]. apply (inj Some) in Hm. exists x. split; [split; assumption | symmetry; exact Hm].
Qed.

Lemma core_fields x y : core y = core x ->
  b_flags y = b_flags x /\ b_dev y = b_dev x /\ b_blockno y = b_blockno x /\ b_lock y = b_lock x /\ b_refcnt y = b_refcnt x /\ b_data y = b_data x.
Proof. destruct x, y. unfold core. cbn. intros [=]. subst. repeat split. Qed.

Lemma cached_relink f f' c :
  cached f c -> map core (fs_bufs f') = map core (fs_bufs f) -> ring f' -> f' = set_bufs (fs_bufs f') f -> cached f' c.
Proof.
  intros Hc E Hr Ef. pose proof Hc as [].
  assert (Hback : forall b x, at_ f b x -> exists y, at_ f' b y /\ core y = core x).
  { intros b x Hx. apply (at_core f' f b x) in Hx as (y & Hy & Hxy); [exists y; auto | congruence]. }
  constructor; try assumption; try (rewrite Ef; assumption).
  - rewrite <- (length_map core (fs_bufs f')), E, length_map. assumption.
  - intros b y Hy. destruct (at_core f f' b y E Hy) as (x & Hx & (E1 & E2 & E3 & E4 & E5 & E6)%core_fields).
    pose proof (ca_cell0 b x Hx) as Hcell. unfold cell in *. destruct (c_held c !! b); destruct Hcell; constructor; rewrite ?E1, ?E2, ?E3, ?E4, ?E5, ?E6; assumption.
  - intros b b' y y' Hy Hy' H1 H2 H3. destruct (at_core f f' b y E Hy) as (x & Hx & (_ & E2 & E3 & _)%core_fields).
    destruct (at_core f f' b' y' E Hy') as (x' & Hx' & (_ & E2' & E3' & _)%core_fields). apply (ca_uniq0 b b' x x'); congruence.
  - intros bn d Hd. destruct (ca_dirty0 bn d Hd) as (b & x & Hx & Hn & Hf & Hb). destruct (Hback b x Hx) as (y & Hy & (E1 & _ & E3 & _)%core_fields).
    exists b, y. split; [exact Hy|]. split; [exact Hn|]. split; congruence.
Qed.

Lemma goes_cons {A} P P1 P2 (m : K unit) (k : K A) f f1 a f2 :
  goes P P1 m f tt f1 -> goes P1 P2 k f1 a f2 -> goes P P2 (m ;; k) f a f2.
Proof. exact (goes_bind P P1 P2 m (fun _ => k) f tt f1 a f2). Qed.

Lemma brelse_links b f x :
  length (fs_bufs f) = S NBUF -> fs_bufs f !! b = Some x ->
  goes (inside LBcache) (inside LBcache)
    (upd_buf (b_next x) (set_b_prev (b_prev x)) ;;
     upd_buf (b_prev x) (set_b_next (b_next x)) ;;
     let! h := get_buf NBUF in
     upd_buf b (set_b_next (b_next h)) ;;
     upd_buf b (set_b_prev NBUF) ;;
     upd_buf (b_next h) (set_b_prev b) ;;
     upd_buf NBUF (set_b_next b)) f tt (link_front b (unlink b f)).
Proof.
  intros Hl Hx. assert (Ep : b_prev x = pv f b) by (unfold pv; rewrite Hx; reflexivity). assert (En : b_next x = nx f b) by (unfold nx; rewrite Hx; reflexivity).
  rewrite Ep, En. eapply goes_cons; [apply goes_upd_buf, _|]. eapply goes_cons; [apply goes_upd_buf, _|]. fold (unlink b f).
  destruct (lookup_lt_is_Some_2 (fs_bufs (unlink b f)) NBUF) as [hd Hhd]; [unfold unlink; rewrite !ub_length; lia|].
  eapply goes_bind; [apply goes_get_buf, Hhd|]. replace (b_next hd) with (nx (unlink b f) NBUF) by (unfold nx; rewrite Hhd; reflexivity).
  do 3 (eapply goes_cons; [apply goes_upd_buf, _|]). apply goes_upd_buf, _.
Qed.

Lemma brelse_spec b h f c :
  cached f c -> c_held c !! b = Some h -> (h_dirty h = false -> h_data h = c_disk c (h_bn h)) ->
  exists f', goes quiet quiet (brelse b) f tt f' /\ cached f' (c_put b h c) /\ rest f f'.
Proof.
  intros Hc Hh Hclean. destruct (held_at f c b h Hc Hh) as (x & Hx & Hb).
  set (g := fun x => set_b_refcnt (w32 (b_refcnt x - 1)) (drop_lock x)). set (f1 := ub b g f).
  assert (Hc1 : cached f1 (c_put b h c)).
  { apply (giveup_ok b g x); try assumption; try reflexivity; [split; reflexivity|]. cbn. rewrite (hb_ref _ _ Hb). reflexivity. }
  exists (link_front b (unlink b f1)). split; [|split; [|repeat split]].
  - unfold brelse. eapply goes_bind; [eapply goes_held; eassumption|]. cbn [negb].
    eapply goes_cons; [eapply releasesleep_buf, Hx|]. eapply goes_cons; [apply goes_acquire; discriminate|].
    eapply goes_cons; [apply goes_upd_buf, _|]. rewrite ub_ub. fold g f1.
    assert (Hx1 : fs_bufs f1 !! b = Some (g x)) by apply ub_lookup, Hx.
    eapply goes_bind; [apply goes_get_buf, Hx1|]. assert (Hr : (b_refcnt (g x) =? 0) = true) by (cbn; rewrite (hb_ref _ _ Hb); reflexivity).
    rewrite Hr. cbn [when]. eapply goes_cons; [apply brelse_links; [eapply ca_len, Hc1 | exact Hx1]|]. apply goes_release. discriminate.
  - eapply cached_relink; [exact Hc1 | | apply ring_front; [eapply ca_len, Hc1 | apply Hx | eapply ca_ring, Hc1] | reflexivity].
    unfold link_front, unlink. rewrite !core_ub by reflexivity. reflexivity.
Qed.
(** ** bread *)

(** With fewer than NBUF blocks held or dirty, some buffer can be recycled. *)
Lemma free_buffer f c : cached f c -> (size (c_held c) + size (c_dirty c) < NBUF)%nat ->
  exists b x, at_ f b x /\ c_held c !! b = None /\ b_flags x <> 6.
Proof.
  intros Hc Hsz. pose (good := fun b => c_held c !! b = None /\ such (fun x => negb (b_flags x =? 6)) f b = true).
  destruct (decide (Exists good (seq 0 NBUF))) as [(b & Hb & Hn & Hg)%Exists_exists | Hno].
  { apply elem_of_seq in Hb. destruct (at_exists f c b Hc ltac:(lia)) as [x [Hl Hx]]. unfold such in Hg. rewrite Hx in Hg.
    exists b, x. split; [split; assumption|]. split; [exact Hn|]. intros E. rewrite E in Hg. discriminate. }
  exfalso. pose (key := fun b => match c_held c !! b with Some _ => inl b
    | None => inr (match fs_bufs f !! b with Some x => b_blockno x | None => 0 end) end : nat + Z).
  assert (Hall : forall b, (b < NBUF)%nat -> c_held c !! b = None -> exists x, at_ f b x /\ b_flags x = 6 /\ b_dev x = dev /\ is_Some (c_dirty c !! b_blockno x)).
  { intros b Hb Hn. destruct (at_exists f c b Hc Hb) as [x Hx]. exists x. split; [exact Hx|].
    assert (Hfl : b_flags x = 6). { apply Z.eqb_eq. destruct (b_flags x =? 6) eqn:E; [reflexivity|]. exfalso. apply Hno, Exists_exists. exists b.
      split; [apply elem_of_seq; lia|]. split; [exact Hn|]. unfold such. rewrite (proj2 Hx), E. reflexivity. }
    pose proof (ca_cell f c Hc b x Hx) as Hcell. unfold cell in Hcell. rewrite Hn in Hcell. destruct Hcell as [_ _ [[? _] | [[? _] | (_ & H1 & H2)]]]; try congruence. eauto. }
  assert (Hnd : NoDup (key <$> seq 0 NBUF)).
  { apply NoDup_fmap_2_strong; [|apply NoDup_seq]. intros b b' Hb%elem_of_seq Hb'%elem_of_seq. unfold key.
    destruct (c_held c !! b) eqn:E1, (c_held c !! b') eqn:E2; try discriminate; [congruence|]. intros [= E].
    destruct (Hall b ltac:(lia) E1) as (x & Hx & _ & H1 & _), (Hall b' ltac:(lia) E2) as (x' & Hx' & _ & H1' & _).
    rewrite (proj2 Hx), (proj2 Hx') in E. exact (ca_uniq f c Hc b b' x x' Hx Hx' H1 H1' E). }
  assert (Hin : key <$> seq 0 NBUF ⊆+ (inl <$> (map_to_list (c_held c)).*1) ++ (inr <$> (map_to_list (c_dirty c)).*1)).
  { apply NoDup_submseteq; [exact Hnd|]. intros k (b & -> & Hb%elem_of_seq)%list_elem_of_fmap. unfold key. apply elem_of_app.
    destruct (c_held c !! b) as [h|] eqn:E; [left | right]; apply list_elem_of_fmap; eexists; (split; [reflexivity|]); apply list_elem_of_fmap.
    - exists (b, h). split; [reflexivity | apply elem_of_map_to_list, E].
    - destruct (Hall b ltac:(lia) E) as (x & Hx & _ & _ & [d Hd]). rewrite (proj2 Hx). exists (b_blockno x, d). split; [reflexivity | apply elem_of_map_to_list, Hd]. }
  apply submseteq_length in Hin. rewrite length_app, !length_fmap, length_seq in Hin. rewrite !length_map_to_list in Hin. lia.
Qed.
Lemma ring_lists f : length (fs_bufs f) = S NBUF -> ring f -> exists ord,
  ord ≡ₚ seq 0 NBUF /\ chain (nx f) (pv f) NBUF ord NBUF /\ (NBUF ∉ ord) /\
  Forall (fun b => b < length (fs_bufs f))%nat ord /\ (length ord < S NBUF)%nat.
Proof.
  intros Hl (ord & Hp & Hc). exists ord. split; [exact Hp|]. split; [exact Hc|]. split; [rewrite Hp, elem_of_seq; lia|].
  split; [|rewrite Hp, length_seq; lia]. apply Forall_forall. intros b. rewrite Hp, elem_of_seq. lia.
Qed.

(** The two searches of [bget]. *)
Lemma bget_search f c bn hd :
  cached f c -> fs_bufs f !! NBUF = Some hd ->
  exists r r', goes (inside LBcache) (inside LBcache) (bget_cached dev bn (b_next hd) (S NBUF)) f r f /\
    goes (inside LBcache) (inside LBcache) (bget_unused (b_prev hd) (S NBUF)) f r' f /\
    (forall b, r = Some b -> exists x, at_ f b x /\ b_dev x = dev /\ b_blockno x = bn) /\
    (r = None -> forall b x, at_ f b x -> b_dev x = dev -> b_blockno x <> bn) /\
    (forall b, r' = Some b -> exists x, at_ f b x /\ is_unused x = true) /\
    (r' = None -> forall b x, at_ f b x -> is_unused x = false).
Proof.
  intros Hc Hhd. destruct (ring_lists f (ca_len _ _ Hc) (ca_ring _ _ Hc)) as (ord & Hp & Hch & Hn & Hall & Hlen).
  assert (Hord : forall b, In b ord <-> (b < NBUF)%nat) by (intros b; rewrite <- list_elem_of_In, Hp, elem_of_seq; lia).
  replace (b_next hd) with (nx f NBUF) by (unfold nx; rewrite Hhd; reflexivity). replace (b_prev hd) with (pv f NBUF) by (unfold pv; rewrite Hhd; reflexivity).
  eexists _, _. split; [eapply bget_cached_find; eassumption|]. split.
  { eapply bget_unused_find; [apply chain_rev, Hch | | | rewrite length_rev; exact Hlen].
    - rewrite list_elem_of_In, <- in_rev, Hord. lia.
    - rewrite Forall_forall in Hall |- *. intros b Hb%list_elem_of_In%in_rev. apply Hall, list_elem_of_In, Hb. }
  split; [|split; [|split]].
  - intros b [Hb Hs]%find_some. apply Hord in Hb. destruct (at_exists f c b Hc Hb) as [x Hx]. exists x. split; [exact Hx|].
    unfold such in Hs. rewrite (proj2 Hx) in Hs. apply andb_true_iff in Hs as [H1 H2]. lia.
  - intros Hnone b x Hx Hd E. pose proof (find_none _ _ Hnone b (proj2 (Hord b) (proj1 Hx))) as Hs. unfold such, is_block in Hs.
    rewrite (proj2 Hx), Hd, E, !Z.eqb_refl in Hs. discriminate.
  - intros b [Hb Hs]%find_some. apply in_rev, Hord in Hb. destruct (at_exists f c b Hc Hb) as [x Hx]. exists x. split; [exact Hx|].
    unfold such in Hs. rewrite (proj2 Hx) in Hs. exact Hs.
  - intros Hnone b x Hx. pose proof (find_none _ _ Hnone b) as Hs. rewrite <- in_rev, Hord in Hs. specialize (Hs (proj1 Hx)). unfold such in Hs. rewrite (proj2 Hx) in Hs. exact Hs.
Qed.

(** What the buffer that [bread] returns holds. *)
Definition h_of (c : cache) (bn : Z) : hbuf := mkHbuf bn (bool_decide (is_Some (c_dirty c !! bn))) (view c bn).

Lemma clean_not_dirty f c b x :
  cached f c -> at_ f b x -> b_dev x = dev -> b_flags x <> 6 -> c_dirty c !! b_blockno x = None.
Proof.
  intros Hc Hx Hd Hf. destruct (c_dirty c !! b_blockno x) as [d|] eqn:E; [|reflexivity].
  destruct (dirty_at f c _ d Hc E) as (b' & x' & Hx' & _ & _ & Hf' & Hd' & Hb' & _).
  rewrite <- (ca_uniq f c Hc b b' x x' Hx Hx' Hd Hd' ltac:(congruence)) in Hx'. rewrite (at_fun f b x x' Hx Hx') in Hf'. congruence.
Qed.

Lemma found_holds f c b x :
  cached f c -> at_ f b x -> b_dev x = dev -> c_held c !! b = None ->
  sk_locked (b_lock x) = 0 /\ (Z.land (b_flags x) B_VALID =? 0) = false /\
  holds_block (h_of c (b_blockno x)) (take_lock (set_b_refcnt (w32 (b_refcnt x + 1)) x)).
Proof.
  intros Hc Hx Hd Hn. pose proof (ca_cell f c Hc b x Hx) as Hcell. unfold cell in Hcell. rewrite Hn in Hcell. destruct Hcell as [H1 H2 H3].
  split; [exact H1|]. unfold h_of, view. destruct H3 as [[_ H3] | [(H3 & _ & H4) | (H3 & _ & H4)]]; [congruence | rewrite (clean_not_dirty f c b x) by congruence | rewrite H4].
  all: split; [rewrite H3; reflexivity|]; constructor; cbn; rewrite ?H2, ?H3; try assumption; reflexivity.
Qed.
(** The head of [bread]: the search, and what follows it. *)
Lemma bread_cached b f c x hd bn :
  cached f c -> fs_bufs f !! NBUF = Some hd -> at_ f b x -> b_dev x = dev -> c_held c !! b = None ->
  goes (inside LBcache) (inside LBcache) (bget_cached dev bn (b_next hd) (S NBUF)) f (Some b) f ->
  goes quiet quiet (bread dev bn) f b (ub b (fun x => take_lock (set_b_refcnt (w32 (b_refcnt x + 1)) x)) f).
Proof.
  intros Hc Hhd Hx Hd Hn Hfind. destruct (found_holds f c b x Hc Hx Hd Hn) as (Hlk & Hfl & _). unfold bread.
  eapply goes_bind with (a := b).
  - unfold bget. eapply goes_cons; [apply goes_acquire; discriminate|]. eapply goes_bind; [apply goes_get_buf, Hhd|].
    eapply goes_bind; [exact Hfind|]. eapply goes_cons; [apply goes_upd_buf, _|]. eapply goes_cons; [apply goes_release; discriminate|].
    eapply goes_cons; [eapply acquiresleep_buf; [apply ub_lookup, Hx | exact Hlk]|]. rewrite ub_ub. apply goes_ret.
  - eapply goes_bind; [apply goes_get_buf, ub_lookup, Hx|]. cbn [b_flags take_lock set_b_lock set_b_refcnt]. rewrite Hfl. cbn [when].
    eapply goes_cons; [apply goes_ret | apply goes_ret].
Qed.

Lemma bread_recycled b f c x hd bn :
  cached f c -> fs_bufs f !! NBUF = Some hd -> at_ f b x -> c_held c !! b = None -> bn < FSSIZE ->
  goes (inside LBcache) (inside LBcache) (bget_cached dev bn (b_next hd) (S NBUF)) f None f ->
  goes (inside LBcache) (inside LBcache) (bget_unused (b_prev hd) (S NBUF)) f (Some b) f ->
  runs (bread dev bn) f (fun b' f' => b' = b /\
    f' = ub b (fun x => finished (c_disk c bn) (take_lock (set_b_refcnt 1 (set_b_flags 0 (set_b_blockno bn (set_b_dev dev x)))))) f).
Proof.
  intros Hc Hhd Hx Hn Hbn Hfind Hfind'. set (g := fun x => take_lock (set_b_refcnt 1 (set_b_flags 0 (set_b_blockno bn (set_b_dev dev x))))).
  assert (Hlk : sk_locked (b_lock x) = 0).
  { pose proof (ca_cell f c Hc b x Hx) as Hcell. unfold cell in Hcell. rewrite Hn in Hcell. apply Hcell. }
  unfold bread. eapply runs_step with (a := b) (f1 := ub b g f).
  - unfold bget. eapply goes_cons; [apply goes_acquire; discriminate|]. eapply goes_bind; [apply goes_get_buf, Hhd|].
    eapply goes_bind; [exact Hfind|]. cbn beta iota. eapply goes_bind; [exact Hfind'|]. cbn beta iota.
    do 4 (eapply goes_cons; [apply goes_upd_buf, _|]). eapply goes_cons; [apply goes_release; discriminate|]. rewrite !ub_ub.
    eapply goes_cons; [eapply acquiresleep_buf; [apply ub_lookup, Hx | exact Hlk]|]. rewrite ub_ub. apply goes_ret.
  - assert (Hx1 : fs_bufs (ub b g f) !! b = Some (g x)) by apply ub_lookup, Hx.
    eapply runs_step; [apply goes_get_buf, Hx1|]. change (Z.land (b_flags (g x)) B_VALID =? 0) with true. cbn [when].
    eapply runs_bind; [apply (iderw_read b (g x)); [|reflexivity]|].
    { constructor; try reflexivity; [exact Hx1 | exact (ca_queue _ _ Hc) | exact (ca_err _ _ Hc) | exact Hbn | exact (ca_dev _ _ Hc)]. }
    intros [] f' ->. eapply goes_runs; [apply goes_ret|]. split; [reflexivity|]. rewrite ub_ub.
    change (fs_disk (ub b g f) (disk_of (b_dev (g x)))) with (fs_disk f (disk_of dev)). rewrite (ca_disk _ _ Hc). reflexivity.
Qed.

Lemma bread_spec f c bn :
  cached f c -> (forall b h, c_held c !! b = Some h -> h_bn h <> bn) -> bn < FSSIZE ->
  (c_dirty c !! bn = None -> (size (c_held c) + size (c_dirty c) < NBUF)%nat) ->
  runs (bread dev bn) f (fun b f' => c_held c !! b = None /\ cached f' (c_take b (h_of c bn) c) /\ rest f f').
Proof.
  intros Hc Hnew Hbn Hsz. destruct (lookup_lt_is_Some_2 (fs_bufs f) NBUF) as [hd Hhd]; [rewrite (ca_len _ _ Hc); lia|].
  destruct (bget_search f c bn hd Hc Hhd) as ([b|] & r' & Hgo & Hgo' & Hsome & Hnone & Hsome' & Hnone').
  - destruct (Hsome b eq_refl) as (x & Hx & Hd & Eb). assert (Hn : c_held c !! b = None).
    { destruct (c_held c !! b) as [h|] eqn:E; [|reflexivity]. destruct (held_at f c b h Hc E) as (x' & Hx' & Hb'). exfalso. apply (Hnew b h E).
      rewrite <- (hb_bn _ _ Hb'), (at_fun f b x x' Hx Hx'). exact Eb. }
    destruct (found_holds f c b x Hc Hx Hd Hn) as (_ & _ & Hholds). rewrite Eb in Hholds.
    eapply goes_runs; [eapply bread_cached; eassumption|]. split; [exact Hn|]. split; [|repeat split].
    eapply claim_ok; [exact Hc | exact Hx | split; reflexivity | exact Hholds | | intros _ _; exact Eb].
    intros b' x' Hx' Hd' Eb'. apply (ca_uniq f c Hc b' b x' x Hx' Hx Hd' Hd). rewrite Eb'. symmetry. exact Eb.
  - assert (Hnd : c_dirty c !! bn = None).
    { destruct (c_dirty c !! bn) as [d|] eqn:E; [|reflexivity]. destruct (dirty_at f c bn d Hc E) as (b' & x' & Hx' & _ & _ & _ & Hd' & Hb' & _). exfalso. apply (Hnone eq_refl b' x' Hx' Hd' Hb'). }
    destruct r' as [b|].
    2:{ destruct (free_buffer f c Hc (Hsz Hnd)) as (b & x & Hx & Hn & Hf). specialize (Hnone' eq_refl b x Hx). exfalso.
        pose proof (ca_cell f c Hc b x Hx) as Hcell. unfold cell in Hcell. rewrite Hn in Hcell. destruct Hcell as [_ H2 H3]. unfold is_unused in Hnone'. rewrite H2 in Hnone'.
        destruct H3 as [[H3 _] | [[H3 _] | [H3 _]]]; rewrite H3 in Hnone'; discriminate || congruence. }
    destruct (Hsome' b eq_refl) as (x & Hx & Hu). apply andb_true_iff in Hu as [Hr%Z.eqb_eq Hdirty].
    assert (Hn : c_held c !! b = None).
    { destruct (c_held c !! b) as [h|] eqn:E; [|reflexivity]. destruct (held_at f c b h Hc E) as (x' & Hx' & Hb'). rewrite (at_fun f b x x' Hx Hx') in Hb'. pose proof (hb_ref _ _ Hb'). congruence. }
    assert (Hf6 : b_flags x <> 6) by (intros E; rewrite E in Hdirty; discriminate).
    eapply runs_mono; [eapply bread_recycled; eassumption|]. intros b' f' [-> ->]. split; [exact Hn|]. split; [|repeat split].
    eapply claim_ok; [exact Hc | exact Hx | split; reflexivity | | | congruence].
    + unfold h_of, view. rewrite Hnd. constructor; reflexivity.
    + intros b' x' Hx' Hd' Eb'. exfalso. apply (Hnone eq_refl b' x' Hx' Hd' Eb').
Qed.
End Quiet.
