(* ===== verification/Log.v ===== *)
(** * solution/log.c: the write-ahead log

    The functions of log.c, and readsb of fs.c, over the buffer cache.  The
    data of a block is a list of [BSIZE] bytes; the on-disk log header is read
    and written with the little-endian codec below. *)

From Stdlib Require Import ZArith Lia FunctionalExtensionality.
From stdpp Require Import base list strings gmap.
From S2P Require Import Prelude Mem Mmu Kernel Spinlock Kalloc Vm VmFacts Sched Bio.

(** ** Little-endian fields of a block *)

Definition byte_at (l : list Z) (i : nat) : Z := nth i l 0.
Definition le16 (l : list Z) (i : nat) : Z := byte_at l i + 256 * byte_at l (i + 1).
Definition le32 (l : list Z) (i : nat) : Z :=
  byte_at l i + 256 * byte_at l (i + 1) + 65536 * byte_at l (i + 2) + 16777216 * byte_at l (i + 3).
Definition bytes16 (x : Z) : list Z := [x mod 256; (x / 256) mod 256].
Definition bytes32 (x : Z) : list Z :=
  [x mod 256; (x / 256) mod 256; (x / 65536) mod 256; (x / 16777216) mod 256].
(** Overwrite the bytes from [i] on. *)
Definition put (i : nat) (bs l : list Z) : list Z := list_inserts i bs l.

(** ** Definitions *)

Definition set_lg_start v l := mkLog v (lg_size l) (lg_outstanding l) (lg_committing l) (lg_dev l) (lg_lh l).
Definition set_lg_size v l := mkLog (lg_start l) v (lg_outstanding l) (lg_committing l) (lg_dev l) (lg_lh l).
Definition set_lg_outstanding v l := mkLog (lg_start l) (lg_size l) v (lg_committing l) (lg_dev l) (lg_lh l).
Definition set_lg_committing v l := mkLog (lg_start l) (lg_size l) (lg_outstanding l) v (lg_dev l) (lg_lh l).
Definition set_lg_dev v l := mkLog (lg_start l) (lg_size l) (lg_outstanding l) (lg_committing l) v (lg_lh l).
Definition set_lg_lh v l := mkLog (lg_start l) (lg_size l) (lg_outstanding l) (lg_committing l) (lg_dev l) v.

Definition get_log : K log_t := get_fs fs_log.
Definition upd_log (f : log_t -> log_t) : K unit := upd_fs (fun fs => set_log (f (fs_log fs)) fs).

(** [log.lh.block[i]]; the array has LOGSIZE entries. *)
Definition get_lh_block (i : nat) : K Z :=
  let! l := get_log in
  match lh_block (lg_lh l) !! i with Some b => ret b | None => fault end.
Definition set_lh_block (i : nat) (b : Z) : K unit :=
  let! l := get_log in
  if decide (i < length (lh_block (lg_lh l)))%nat then
    upd_log (fun l => set_lg_lh (mkLogheader (lh_n (lg_lh l)) (<[i := b]> (lh_block (lg_lh l)))) l)
  else fault.
Definition set_lh_n (n : Z) : K unit :=
  upd_log (fun l => set_lg_lh (mkLogheader n (lh_block (lg_lh l))) l).

(** fs.c: the super block is in block 1. *)
Definition decode_sb (l : list Z) : superblock :=
  mkSuperblock (le32 l 0) (le32 l 4) (le32 l 8) (le32 l 12) (le32 l 16) (le32 l 20) (le32 l 24).
Definition readsb `{Rounds} (dev : Z) : K superblock :=
  let! bp := bread dev 1 in
  let! x := get_buf bp in
  brelse bp ;;
  ret (decode_sb (b_data x)).

(** The loops of [install_trans] and [write_log] from [tail] on, for [n]
    more blocks. *)
Fixpoint install_loop `{Rounds} (tail n : nat) : K unit :=
  match n with
  | O => ret tt
  | S n' =>
      let! l := get_log in
      let! lbuf := bread (lg_dev l) (w32 (lg_start l + Z.of_nat tail + 1)) in
      let! bno := get_lh_block tail in
      let! dbuf := bread (lg_dev l) (w32 bno) in
      let! x := get_buf lbuf in
      upd_buf dbuf (set_b_data (b_data x)) ;;
      bwrite dbuf ;;
      brelse lbuf ;;
      brelse dbuf ;;
      install_loop (S tail) n'
  end.
Definition install_trans `{Rounds} : K unit :=
  let! l := get_log in install_loop 0 (Z.to_nat (lh_n (lg_lh l))).

(** [log.lh.block[i] = lh->block[i]] for [n] entries from [i] on. *)
Fixpoint read_head_loop (data : list Z) (i n : nat) : K unit :=
  match n with
  | O => ret tt
  | S n' => set_lh_block i (s32 (le32 data (4 + 4 * i))) ;; read_head_loop data (S i) n'
  end.
Definition read_head `{Rounds} : K unit :=
  let! l := get_log in
  let! bf := bread (lg_dev l) (w32 (lg_start l)) in
  let! x := get_buf bf in
  let n := s32 (le32 (b_data x) 0) in
  set_lh_n n ;;
  read_head_loop (b_data x) 0 (Z.to_nat n) ;;
  brelse bf.

Fixpoint head_bytes (blocks : list Z) (n : nat) : list Z :=
  match n, blocks with
  | S n', b :: bs => bytes32 b ++ head_bytes bs n'
  | _, _ => []
  end.
(** The header block after [hb->n] and the [n] entries have been stored. *)
Definition encode_head (lh : logheader) (data : list Z) : list Z :=
  put 0 (bytes32 (lh_n lh) ++ head_bytes (lh_block lh) (Z.to_nat (lh_n lh))) data.
Definition write_head `{Rounds} : K unit :=
  let! l := get_log in
  let! bf := bread (lg_dev l) (w32 (lg_start l)) in
  let! l := get_log in
  upd_buf bf (fun x => set_b_data (encode_head (lg_lh l) (b_data x)) x) ;;
  bwrite bf ;;
  brelse bf.

Definition recover_from_log `{Rounds} : K unit :=
  read_head ;;
  install_trans ;;
  set_lh_n 0 ;;
  write_head.

(** sizeof(struct logheader) is 124, less than BSIZE. *)
Definition initlog `{Rounds} (dev : Z) : K unit :=
  if BSIZE <=? 4 + 4 * LOGSIZE then panic "initlog: too big logheader"
  else
    initlock LLog "log" ;;
    let! sb := readsb dev in
    upd_log (set_lg_start (s32 (sb_logstart sb))) ;;
    upd_log (set_lg_size (s32 (sb_nlog sb))) ;;
    upd_log (set_lg_dev dev) ;;
    recover_from_log.

Fixpoint begin_op_loop (fuel : nat) : K unit :=
  match fuel with
  | O => nofuel
  | S f =>
      let! l := get_log in
      if negb (lg_committing l =? 0) then sleep ChLog (Some LLog) ;; begin_op_loop f
      else if LOGSIZE <? lh_n (lg_lh l) + (lg_outstanding l + 1) * MAXOPBLOCKS
      then sleep ChLog (Some LLog) ;; begin_op_loop f
      else
        upd_log (set_lg_outstanding (lg_outstanding l + 1)) ;;
        release LLog
  end.
Definition begin_op `{Rounds} : K unit :=
  acquire LLog ;;
  begin_op_loop rounds.

Fixpoint write_log_loop `{Rounds} (tail n : nat) : K unit :=
  match n with
  | O => ret tt
  | S n' =>
      let! l := get_log in
      let! tobuf := bread (lg_dev l) (w32 (lg_start l + Z.of_nat tail + 1)) in
      let! bno := get_lh_block tail in
      let! from := bread (lg_dev l) (w32 bno) in
      let! x := get_buf from in
      upd_buf tobuf (set_b_data (b_data x)) ;;
      bwrite tobuf ;;
      brelse from ;;
      brelse tobuf ;;
      write_log_loop (S tail) n'
  end.
Definition write_log `{Rounds} : K unit :=
  let! l := get_log in write_log_loop 0 (Z.to_nat (lh_n (lg_lh l))).

Definition commit `{Rounds} : K unit :=
  let! l := get_log in
  when (0 <? lh_n (lg_lh l))
    (write_log ;;
     write_head ;;
     install_trans ;;
     set_lh_n 0 ;;
     write_head).

Definition end_op `{Rounds} : K unit :=
  acquire LLog ;;
  upd_log (fun l => set_lg_outstanding (lg_outstanding l - 1) l) ;;
  let! l := get_log in
  if negb (lg_committing l =? 0) then panic "log.committing"
  else
    let! do_commit :=
      (if lg_outstanding l =? 0 then upd_log (set_lg_committing 1) ;; ret true
       else wakeup ChLog ;; ret false) in
    release LLog ;;
    when do_commit
      (commit ;;
       acquire LLog ;;
       upd_log (set_lg_committing 0) ;;
       wakeup ChLog ;;
       release LLog).

(** The index of [bno] among the first [n] logged blocks, or [n]. *)
Fixpoint log_index (blocks : list Z) (bno : Z) (i n : nat) : nat :=
  match n, blocks with
  | S n', b :: bs => if b =? bno then i else log_index bs bno (S i) n'
  | _, _ => i
  end.

Definition log_write (b : nat) : K unit :=
  let! l := get_log in
  if (LOGSIZE <=? lh_n (lg_lh l)) || (lg_size l - 1 <=? lh_n (lg_lh l))
  then panic "too big a transaction"
  else if lg_outstanding l <? 1 then panic "log_write outside of trans"
  else
    acquire LLog ;;
    let! l := get_log in
    let! x := get_buf b in
    let n := Z.to_nat (lh_n (lg_lh l)) in
    let i := log_index (lh_block (lg_lh l)) (s32 (b_blockno x)) 0 n in
    set_lh_block i (s32 (b_blockno x)) ;;
    when (bool_decide (i = n)) (set_lh_n (lh_n (lg_lh l) + 1)) ;;
    upd_buf b (fun x => set_b_flags (Z.lor (b_flags x) B_DIRTY) x) ;;
    release LLog.
(** ** The codec *)

Lemma byte_at_put i bs l k :
  (i + length bs <= length l)%nat ->
  byte_at (put i bs l) k = if decide (i <= k < i + length bs)%nat then byte_at bs (k - i) else byte_at l k.
Proof.
  intros Hl. unfold byte_at, put. rewrite !nth_lookup. case_decide as Hk.
  - rewrite list_lookup_inserts by lia. reflexivity.
  - destruct (decide (k < i)%nat); [rewrite list_lookup_inserts_lt by lia | rewrite list_lookup_inserts_ge by lia];
      reflexivity.
Qed.

Lemma put_length i bs l : length (put i bs l) = length l.
Proof. apply length_inserts. Qed.

Lemma le32_put i bs l k :
  (i + length bs <= length l)%nat -> (i <= k)%nat -> (k + 4 <= i + length bs)%nat ->
  le32 (put i bs l) k = le32 bs (k - i).
Proof.
  intros Hl H1 H2. unfold le32. rewrite !byte_at_put, !decide_True by lia.
  repeat f_equal; lia.
Qed.

Lemma le16_put i bs l k :
  (i + length bs <= length l)%nat -> (i <= k)%nat -> (k + 2 <= i + length bs)%nat ->
  le16 (put i bs l) k = le16 bs (k - i).
Proof.
  intros Hl H1 H2. unfold le16. rewrite !byte_at_put, !decide_True by lia. repeat f_equal; lia.
Qed.

Lemma le32_put_off i bs l k :
  (i + length bs <= length l)%nat -> (k + 4 <= i \/ i + length bs <= k)%nat ->
  le32 (put i bs l) k = le32 l k.
Proof. intros Hl H1. unfold le32. rewrite !byte_at_put, !decide_False by lia. reflexivity. Qed.

Lemma le16_put_off i bs l k :
  (i + length bs <= length l)%nat -> (k + 2 <= i \/ i + length bs <= k)%nat ->
  le16 (put i bs l) k = le16 l k.
Proof. intros Hl H1. unfold le16. rewrite !byte_at_put, !decide_False by lia. reflexivity. Qed.

Lemma byte_at_app l1 l2 k :
  byte_at (l1 ++ l2) k = if decide (k < length l1)%nat then byte_at l1 k else byte_at l2 (k - length l1).
Proof.
  unfold byte_at. case_decide; [apply app_nth1 | apply app_nth2]; lia.
Qed.

Lemma le32_app_r l1 l2 k : (length l1 <= k)%nat -> le32 (l1 ++ l2) k = le32 l2 (k - length l1).
Proof. intros Hk. unfold le32. rewrite !byte_at_app, !decide_False by lia. repeat f_equal; lia. Qed.

Lemma le16_app_r l1 l2 k : (length l1 <= k)%nat -> le16 (l1 ++ l2) k = le16 l2 (k - length l1).
Proof. intros Hk. unfold le16. rewrite !byte_at_app, !decide_False by lia. repeat f_equal; lia. Qed.

Lemma le32_bytes32 x l : le32 (bytes32 x ++ l) 0 = w32 x.
Proof. unfold le32, byte_at, bytes32, w32. cbn. zdm. Qed.

Lemma le16_bytes16 x l : le16 (bytes16 x ++ l) 0 = x mod 65536.
Proof. unfold le16, byte_at, bytes16. cbn. zdm. Qed.

(** Word [k] of a list of words. *)
Lemma le32_words ws l k w :
  ws !! k = Some w -> le32 (mjoin (map bytes32 ws) ++ l) (4 * k) = w32 w.
Proof.
  revert k. induction ws as [|w0 ws IH]; intros [|k] Hk; try discriminate Hk; cbn [map mjoin list_join].
  - injection Hk as ->. rewrite <- app_assoc. apply le32_bytes32.
  - rewrite <- app_assoc, le32_app_r by (cbn; lia). cbn [length bytes32].
    replace (4 * S k - 4)%nat with (4 * k)%nat by lia. apply IH, Hk.
Qed.

Lemma head_bytes_words blocks n : (n <= length blocks)%nat ->
  head_bytes blocks n = mjoin (map bytes32 (take n blocks)).
Proof.
  revert n. induction blocks as [|b bs IH]; intros [|n] Hn; cbn in *; try lia; try reflexivity.
  rewrite IH by lia. reflexivity.
Qed.

Lemma words_length ws : length (mjoin (map bytes32 ws)) = (4 * length ws)%nat.
Proof.
  induction ws as [|w ws IH]; [reflexivity|].
  change (length (bytes32 w ++ mjoin (map bytes32 ws)) = (4 * S (length ws))%nat).
  rewrite length_app, IH. cbn [length bytes32]. lia.
Qed.

Lemma s32_w32_id x : -2147483648 <= x < 2147483648 -> s32 (w32 x) = x.
Proof.
  intros Hx. unfold s32, w32. rewrite Z.mod_mod by lia. destruct (Z_lt_le_dec x 0).
  - rewrite <- (Z_mod_plus_full x 1), Z.mod_small by lia. zcase.
  - rewrite Z.mod_small by lia. zcase.
Qed.

(** log.c, [write_head] and [read_head]: the on-disk log header is read
    back as it was written.  For a header with at most LOGSIZE block numbers,
    the count and each of the entries that [read_head] decodes from the block
    that [write_head] encodes are those of the header, whatever the block held. *)
Lemma log_header_roundtrip lh data :
  length data = Z.to_nat BSIZE -> 0 <= lh_n lh <= LOGSIZE ->
  (Z.to_nat (lh_n lh) <= length (lh_block lh))%nat ->
  Forall (fun b => -2147483648 <= b < 2147483648) (take (Z.to_nat (lh_n lh)) (lh_block lh)) ->
  s32 (le32 (encode_head lh data) 0) = lh_n lh /\
  forall i b, (i < Z.to_nat (lh_n lh))%nat -> lh_block lh !! i = Some b ->
    s32 (le32 (encode_head lh data) (4 + 4 * i)) = b.
Proof.
  unfold BSIZE, LOGSIZE, MAXOPBLOCKS. intros Hd Hn Hb Hr.
  change (10 * 3) with 30 in Hn. unfold encode_head. rewrite head_bytes_words by exact Hb.
  assert (Hlen : length (bytes32 (lh_n lh) ++ mjoin (map bytes32 (take (Z.to_nat (lh_n lh)) (lh_block lh))))
    = (4 + 4 * Z.to_nat (lh_n lh))%nat)
    by (rewrite length_app, words_length, length_take; cbn; lia).
  split.
  - rewrite le32_put by (rewrite ?Hlen; lia). cbn [Nat.sub]. rewrite le32_bytes32.
    apply s32_w32_id. lia.
  - intros i b Hi Hbi. rewrite le32_put by (rewrite ?Hlen; lia). rewrite Nat.sub_0_r.
    rewrite le32_app_r by (cbn; lia). cbn [length bytes32].
    replace (4 + 4 * i - 4)%nat with (4 * i)%nat by lia.
    rewrite <- (app_nil_r (mjoin _)), (le32_words _ _ _ b) by (rewrite lookup_take_lt by exact Hi; exact Hbi).
    apply s32_w32_id. rewrite Forall_lookup in Hr. apply (Hr i b). rewrite lookup_take_lt by exact Hi. exact Hbi.
Qed.

Lemma log_header_roundtrip_witness :
  s32 (le32 (encode_head (mkLogheader 2 ([45; 2147483647] ++ replicate 28 9)) (replicate 512 170)) 8) = 2147483647.
Proof.
  destruct (log_header_roundtrip (mkLogheader 2 ([45; 2147483647] ++ replicate 28 9)) (replicate 512 170)) as [_ H].
  - reflexivity.
  - split; discriminate.
  - cbn. lia.
  - repeat (constructor; [lia|]). constructor.
  - apply (H 1%nat 2147483647); [cbn; lia | reflexivity].
Defined.
