(* ===== verification/Crash.v ===== *)
(** * Transactions of the log survive a crash

    The functions of log.c over the abstract cache of Cache.v, for one process
    without competition: what a commit and a recovery write to the disk, in
    which order, and what a recovery finds when the machine stops between any
    two of these writes. *)

From Stdlib Require Import ZArith Lia FunctionalExtensionality.
From stdpp Require Import base list strings gmap.
From S2P Require Import Prelude Mem Mmu Kernel Spinlock Kalloc Vm VmFacts Sched Runs Bio Cache Log.

(** ** Sequences of disk writes *)

Definition apply_writes (ws : list (Z * list Z)) (d : Z -> list Z) : Z -> list Z :=
  foldl (fun d w => fupd d w.1 w.2) d ws.

Lemma apply_app ws ws' d : apply_writes (ws ++ ws') d = apply_writes ws' (apply_writes ws d).
Proof. apply foldl_app. Qed.

Lemma apply_other ws d bn : bn ∉ ws.*1 -> apply_writes ws d bn = d bn.
Proof.
  revert d. induction ws as [|[a x] ws IH]; intros d Hn; [reflexivity|]. cbn [fmap list_fmap fst] in Hn.
  apply not_elem_of_cons in Hn as [H1 H2]. cbn [apply_writes foldl fst snd]. change (apply_writes ws (fupd d a x) bn = d bn).
  rewrite IH by exact H2. apply fupd_ne, H1.
Qed.

Lemma apply_lookup ws d i bn x : NoDup ws.*1 -> ws !! i = Some (bn, x) -> apply_writes ws d bn = x.
Proof.
  revert d i. induction ws as [|[a y] ws IH]; intros d [|i] Hnd Hi; try discriminate Hi; cbn [fmap list_fmap fst] in Hnd; apply NoDup_cons in Hnd as [Hn Hnd].
  - injection Hi as -> ->. change (apply_writes ws (fupd d bn x) bn = x). rewrite apply_other by exact Hn. apply fupd_eq.
  - exact (IH _ i Hnd Hi).
Qed.

(** Consecutive blocks behind block [a]. *)
Definition log_writes (a : Z) (datas : list (list Z)) : list (Z * list Z) :=
  zip (seqZ (a + 1) (Z.of_nat (length datas))) datas.

Lemma log_writes_cons a x xs : log_writes a (x :: xs) = (a + 1, x) :: log_writes (a + 1) xs.
Proof. unfold log_writes. cbn [length]. rewrite seqZ_cons by lia. cbn [zip zip_with]. do 3 f_equal; lia. Qed.

Lemma log_writes_fst a datas : (log_writes a datas).*1 = seqZ (a + 1) (Z.of_nat (length datas)).
Proof. unfold log_writes. apply fst_zip. rewrite length_seqZ. lia. Qed.

(** ** The log over the cache *)

Section Log.
Context {HR : Rounds} {HP : Patient} (dev : Z).

(** The log: its header is block [L], and [nlog] blocks belong to it. *)
Context (L nlog : Z) (Hlayout : 2 <= L /\ 0 < nlog <= LOGSIZE /\ L + nlog <= FSSIZE).

Definition home (bn : Z) : Prop := L + nlog <= bn < FSSIZE.

Definition tagged (ws : list (Z * list Z)) : list (Z * Z * list Z) := map (fun w => (disk_of dev, w.1, w.2)) ws.
Definition c_apply (ws : list (Z * list Z)) (D : gmap Z (list Z)) (c : cache) : cache :=
  mkCache (apply_writes ws (c_disk c)) (rev (tagged ws) ++ c_writes c) (c_held c) D.

Lemma c_apply_cons bn x ws D c :
  c_apply ((bn, x) :: ws) D c = c_apply ws D (c_write dev bn x c).
Proof. unfold c_apply. cbn [tagged map rev]. rewrite <- app_assoc. reflexivity. Qed.

Section Process.
Context (i : nat) (pid : Z).
Abbreviation cached := (cached pid dev).
Abbreviation runs := (runs i pid).
Abbreviation c_write := (c_write dev).

Lemma cached_set_log f c l : cached f c -> cached (set_log l f) c.
Proof. intros []. constructor; assumption. Qed.

Lemma goes_lh_block P t bn f : lh_block (lg_lh (fs_log f)) !! t = Some bn -> goes P P (get_lh_block t) f bn f.
Proof. intros E. eapply goes_bind; [apply goes_get_fs|]. rewrite E. apply goes_ret. Qed.

(** A block read with [bread] and not dirty is what the disk holds. *)
Lemma h_of_clean c bn : c_dirty c !! bn = None -> h_of c bn = mkHbuf bn false (c_disk c bn).
Proof. intros E. unfold h_of, view. rewrite E. reflexivity. Qed.

Lemma put_take b h c :
  c_held c !! b = None -> c_dirty c !! h_bn h = (if h_dirty h then Some (h_data h) else None) -> c_put b h (c_take b h c) = c.
Proof.
  intros E1 E2. destruct c as [d w hl dt]. unfold c_put, c_take. cbn [c_disk c_writes c_held c_dirty] in *. rewrite delete_insert_id by exact E1. f_equal.
  destruct (h_dirty h); [apply insert_delete_id, E2 | apply delete_id, E2].
Qed.

Lemma h_of_dirty c bn : c_dirty c !! bn = (if h_dirty (h_of c bn) then Some (h_data (h_of c bn)) else None).
Proof. unfold h_of, view. cbn. destruct (c_dirty c !! bn); reflexivity. Qed.

(** The buffers of the two blocks that the loops of log.c hold at a time. *)
Lemma bread_two f c bn t bn' {A} (k : nat -> nat -> K A) Q :
  lh_block (lg_lh (fs_log f)) !! t = Some bn' -> 0 <= bn' -> cached f c -> c_held c = ∅ -> bn <> bn' -> bn < FSSIZE -> bn' < FSSIZE -> c_dirty c !! bn = None ->
  (size (c_dirty c) < NBUF)%nat -> (c_dirty c !! bn' = None -> (S (size (c_dirty c)) < NBUF)%nat) ->
  (forall b b' f', b <> b' -> cached f' (c_take b' (h_of c bn') (c_take b (h_of c bn) c)) -> rest f f' -> runs (k b b') f' Q) ->
  runs (let! b := bread dev bn in let! bno := get_lh_block t in let! b' := bread dev (w32 bno) in k b b') f Q.
Proof.
  intros Hlh Hpos Hc He Hne H1 H2 Hd Hsz Hsz' Hk.
  eapply runs_bind; [apply (bread_spec i pid dev f c bn Hc); [rewrite He; intros b h; rewrite lookup_empty; discriminate | exact H1|]|].
  { intros _. rewrite He, map_size_empty. exact Hsz. }
  intros b f1 (_ & Hc1 & Hr1). set (c1 := c_take b (h_of c bn) c) in *.
  assert (Hd1 : c_dirty c1 = c_dirty c) by (apply delete_id, Hd).
  eapply runs_step; [apply goes_lh_block; rewrite (proj1 Hr1); exact Hlh|]. rewrite (w32_small bn') by (unfold FSSIZE, u32 in *; lia).
  eapply runs_bind; [apply (bread_spec i pid dev f1 c1 bn' Hc1); [| exact H2|]|].
  - intros b0 h0. cbn [c1 c_take c_held]. rewrite He. intros [[_ <-] | [_ E]]%lookup_insert_Some; [exact Hne | rewrite lookup_empty in E; discriminate].
  - rewrite Hd1. intros E. cbn [c1 c_take c_held]. rewrite He, map_size_insert_None, map_size_empty by apply lookup_empty. exact (Hsz' E).
  - intros b' f2 (Hn & Hc2 & Hr2). assert (Hbb : b <> b') by (intros ->; cbn [c1 c_take c_held] in Hn; rewrite lookup_insert_eq in Hn; discriminate).
    apply (Hk b b' f2 Hbb); [|eapply rest_trans; eassumption]. replace (h_of c bn') with (h_of c1 bn'); [exact Hc2|].
    unfold h_of, view. rewrite Hd1. reflexivity.
Qed.

(** The common part of [write_log] and [install_trans]: buffer [b'] is copied to
    buffer [b], which is written; both are released. *)
Lemma copy_out f c b b' h h' {A} (k : K A) Q :
  cached f c -> c_held c !! b = Some h -> c_held c !! b' = Some h' -> b <> b' -> h_bn h < FSSIZE ->
  (h_dirty h' = false -> h_data h' = c_disk c (h_bn h')) ->
  (forall f',
     cached f' (mkCache (fupd (c_disk c) (h_bn h) (h_data h')) ((disk_of dev, h_bn h, h_data h') :: c_writes c)
       (delete b (delete b' (c_held c))) (if h_dirty h' then <[h_bn h' := h_data h']> (c_dirty c) else c_dirty c)) ->
     rest f f' -> runs k f' Q) ->
  runs (let! x := get_buf b' in upd_buf b (set_b_data (b_data x)) ;; bwrite b ;; brelse b' ;; brelse b ;; k) f Q.
Proof.
  intros Hc E1 E2 Hb Hbn Hclean Hk. destruct (held_at pid dev f c b h Hc E1) as (x & Hx & Hhx). destruct (held_at pid dev f c b' h' Hc E2) as (x' & Hx' & Hhx').
  assert (Hne : h_bn h' <> h_bn h) by (intros E; apply Hb, (held_inj pid dev f c b b' h h' Hc E1 E2); auto).
  eapply runs_step; [apply goes_get_buf, Hx'|]. rewrite (hb_data _ _ _ _ Hhx'). eapply runs_step; [apply goes_upd_buf, _|].
  set (h3 := mkHbuf (h_bn h) (h_dirty h) (h_data h')). set (f3 := ub b _ f).
  assert (Hc3 : cached f3 (c_hold b h3 c)).
  { eapply hold_ok; [exact Hc | exact E1 | exact Hx | split; reflexivity | | reflexivity]. destruct Hhx. constructor; try assumption. reflexivity. }
  assert (E3 : c_held (c_hold b h3 c) !! b = Some h3) by apply lookup_insert_eq.
  eapply runs_bind; [exact (bwrite_spec i pid dev b h3 f3 _ Hc3 E3 Hbn)|].
  intros [] f4 [Hc4 Hr4]. set (c4 := c_hold b _ _) in Hc4.
  assert (E4 : c_held c4 !! b' = Some h') by (unfold c4; cbn; rewrite !lookup_insert_ne by exact Hb; exact E2).
  destruct (brelse_spec i pid dev b' h' f4 c4 Hc4 E4) as (f5 & Hgo5 & Hc5 & Hr5); [intros E; unfold c4; cbn; rewrite fupd_ne by exact Hne; auto|].
  eapply runs_step; [exact Hgo5|]. set (h5 := mkHbuf (h_bn h3) false (h_data h3)) in *.
  assert (E5 : c_held (c_put b' h' c4) !! b = Some h5) by (cbn; rewrite lookup_delete_ne, lookup_insert_eq by congruence; reflexivity).
  destruct (brelse_spec i pid dev b h5 f5 _ Hc5 E5) as (f6 & Hgo6 & Hc6 & Hr6); [intros _; cbn; rewrite fupd_eq; reflexivity|].
  eapply runs_step; [exact Hgo6|]. apply Hk; [|eapply rest_trans; [exact Hr4 | eapply rest_trans; eassumption]].
  match goal with |- cached f6 ?c => replace c with (c_put b h5 (c_put b' h' c4)); [exact Hc6|] end.
  unfold c4, c_put, c_hold. cbn. f_equal. rewrite !insert_insert_eq, delete_insert_ne, delete_insert_eq by congruence. reflexivity.
Qed.

(** The header in memory lists [bl] from entry [t] on. *)
Definition listed (f : fs_t) (t : nat) (bl : list Z) : Prop :=
  lg_dev (fs_log f) = dev /\ lg_start (fs_log f) = L /\
  forall j bn, bl !! j = Some bn -> lh_block (lg_lh (fs_log f)) !! (t + j)%nat = Some bn.

Lemma listed_next f f' t bn bl : listed f t (bn :: bl) -> fs_log f' = fs_log f -> listed f' (S t) bl.
Proof.
  intros (H1 & H2 & H3) E. unfold listed. rewrite E. split; [exact H1|]. split; [exact H2|]. intros j b Hj.
  replace (S t + j)%nat with (t + S j)%nat by lia. apply H3. exact Hj.
Qed.

Lemma listed_head f t bn bl : listed f t (bn :: bl) -> lh_block (lg_lh (fs_log f)) !! t = Some bn.
Proof. intros (_ & _ & H3). rewrite <- (Nat.add_0_r t). apply H3. reflexivity. Qed.

Definition log_clean (c : cache) : Prop := forall bn, L <= bn < L + nlog -> c_dirty c !! bn = None.

Lemma view_write c bn x bn' : bn' <> bn -> view (c_write bn x c) bn' = view c bn'.
Proof. intros Hne. unfold view. cbn. rewrite fupd_ne by exact Hne. reflexivity. Qed.

(** Slot [t] of the log. *)
Lemma slot_facts t bn : Z.of_nat t + 1 < nlog -> home bn ->
  let lbn := L + Z.of_nat t + 1 in 0 <= lbn /\ lbn < FSSIZE /\ L <= lbn < L + nlog /\ lbn <> bn /\ 0 <= bn /\ bn < FSSIZE.
Proof. unfold home. lia. Qed.

Lemma write_log_loop_spec bl t f c :
  cached f c -> c_held c = ∅ -> listed f t bl -> Z.of_nat t + Z.of_nat (length bl) < nlog -> log_clean c ->
  Forall home bl -> Forall (fun bn => is_Some (c_dirty c !! bn)) bl -> (size (c_dirty c) < NBUF)%nat ->
  runs (write_log_loop t (length bl)) f (fun _ f' =>
    cached f' (c_apply (log_writes (L + Z.of_nat t) (map (view c) bl)) (c_dirty c) c) /\ rest f f').
Proof.
  revert t f c. induction bl as [|bn bl IH]; intros t f c Hc He Hl Ht Hcl Hh Hd Hsz; cbn [length write_log_loop map].
  { eapply goes_runs; [apply goes_ret|]. split; [|repeat split]. destruct c. exact Hc. }
  apply Forall_cons in Hh as [Hh Hhs], Hd as [[d Hd] Hds]. pose proof Hl as (Edev & Est & _).
  eapply runs_step; [apply goes_get_fs|]. rewrite Edev, Est. cbn [length] in Ht.
  set (lbn := L + Z.of_nat t + 1). destruct (slot_facts t bn) as (H0 & H1 & H2 & Hne & H3 & H4); [lia | exact Hh|]. fold lbn in H0, H1, H2, Hne.
  rewrite (w32_small lbn) by (unfold u32; unfold FSSIZE in H1; lia).
  eapply bread_two with (bn' := bn); [apply listed_head in Hl; exact Hl | exact H3 | exact Hc | exact He | exact Hne | exact H1 | exact H4 | apply Hcl, H2 | exact Hsz | congruence|].
  intros b b' f1 Hb Hc1 Hr1. rewrite (h_of_clean c lbn) in Hc1 by apply Hcl, H2.
  set (h := mkHbuf lbn false (c_disk c lbn)) in *. set (c1 := c_take b' _ _) in Hc1.
  eapply (copy_out f1 c1 b b' h (h_of c bn)); [exact Hc1 | cbn; rewrite lookup_insert_ne, lookup_insert_eq by congruence; reflexivity | apply lookup_insert_eq | exact Hb | exact H1 | cbn; rewrite Hd; discriminate|].
  intros f2 Hc2 Hr2. assert (Er : fs_log f2 = fs_log f) by (rewrite (proj1 Hr2); apply Hr1).
  match type of Hc2 with Cache.cached _ _ _ ?c2 => assert (E2 : c2 = c_write lbn (view c bn) c) end.
  { unfold c_write. f_equal.
    - cbn. rewrite He, delete_insert_id, delete_insert_id; [reflexivity | apply lookup_empty|]. rewrite lookup_insert_ne, lookup_empty by congruence. reflexivity.
    - cbn. unfold view. rewrite Hd. cbn. rewrite insert_delete_id; [apply delete_id, Hcl, H2|]. rewrite lookup_delete_ne by exact Hne. exact Hd. }
  rewrite E2 in Hc2. clear E2.
  eapply runs_mono; [apply (IH (S t) f2 _ Hc2); [exact He | eapply listed_next; eassumption | lia | exact Hcl | exact Hhs | exact Hds | exact Hsz]|].
  intros _ f3 [Hc3 Hr3]. split; [|eapply rest_trans; [exact Hr1 | eapply rest_trans; eassumption]].
  rewrite log_writes_cons, c_apply_cons. fold lbn. replace (L + Z.of_nat (S t)) with lbn in Hc3 by (unfold lbn; lia).
  replace (map (view c) bl) with (map (view (c_write lbn (view c bn) c)) bl); [exact Hc3|].
  apply map_ext_in. intros bn' Hin%list_elem_of_In. apply view_write. rewrite Forall_forall in Hhs. specialize (Hhs bn' Hin). unfold home in Hhs. lia.
Qed.

(** The dirty blocks that are left when those of [bl] have been installed. *)
Definition undirty (bl : list Z) (D : gmap Z (list Z)) : gmap Z (list Z) := foldl (fun D bn => delete bn D) D bl.

Lemma install_loop_spec bl t f c :
  cached f c -> c_held c = ∅ -> listed f t bl -> Z.of_nat t + Z.of_nat (length bl) < nlog -> log_clean c ->
  Forall home bl -> (size (c_dirty c) < NBUF)%nat ->
  (forall bn, bn ∈ bl -> c_dirty c !! bn = None -> (S (size (c_dirty c)) < NBUF)%nat) ->
  NoDup bl ->
  runs (install_loop t (length bl)) f (fun _ f' =>
    cached f' (c_apply (zip bl (map (c_disk c) (seqZ (L + Z.of_nat t + 1) (Z.of_nat (length bl))))) (undirty bl (c_dirty c)) c) /\ rest f f').
Proof.
  revert t f c. induction bl as [|bn bl IH]; intros t f c Hc He Hl Ht Hcl Hh Hsz Hsz' Hnd; cbn [length install_loop].
  { eapply goes_runs; [apply goes_ret|]. split; [|repeat split]. destruct c. exact Hc. }
  apply Forall_cons in Hh as [Hh Hhs]. apply NoDup_cons in Hnd as [Hnin Hnd]. pose proof Hl as (Edev & Est & _).
  eapply runs_step; [apply goes_get_fs|]. rewrite Edev, Est. cbn [length] in Ht.
  set (lbn := L + Z.of_nat t + 1). destruct (slot_facts t bn) as (H0 & H1 & H2 & Hne & H3 & H4); [lia | exact Hh|]. fold lbn in H0, H1, H2, Hne.
  rewrite (w32_small lbn) by (unfold u32; unfold FSSIZE in H1; lia).
  eapply bread_two with (bn' := bn); [apply listed_head in Hl; exact Hl | exact H3 | exact Hc | exact He | exact Hne | exact H1 | exact H4 | apply Hcl, H2 | exact Hsz | apply Hsz'; left|].
  intros b b' f1 Hb Hc1 Hr1. rewrite (h_of_clean c lbn) in Hc1 by apply Hcl, H2.
  set (h := mkHbuf lbn false (c_disk c lbn)) in *. set (c1 := c_take b' _ _) in Hc1.
  eapply (copy_out f1 c1 b' b (h_of c bn) h); [exact Hc1 | apply lookup_insert_eq | cbn; rewrite lookup_insert_ne, lookup_insert_eq by congruence; reflexivity | congruence | exact H4 | reflexivity|].
  intros f2 Hc2 Hr2. assert (Er : fs_log f2 = fs_log f) by (rewrite (proj1 Hr2); apply Hr1).
  set (c3 := mkCache (fupd (c_disk c) bn (c_disk c lbn)) ((disk_of dev, bn, c_disk c lbn) :: c_writes c) ∅ (delete bn (c_dirty c))).
  match type of Hc2 with Cache.cached _ _ _ ?c2 => assert (E2 : c2 = c3) end.
  { unfold c3. f_equal.
    - cbn. rewrite He, (insert_insert_ne ∅), delete_insert_id, delete_insert_id; [reflexivity | apply lookup_empty | | congruence]. rewrite lookup_insert_ne, lookup_empty by congruence. reflexivity.
    - cbn. rewrite (delete_id _ lbn); [reflexivity | apply Hcl, H2]. }
  rewrite E2 in Hc2. clear E2.
  assert (Hsm : (size (c_dirty c3) <= size (c_dirty c))%nat) by (unfold c3; cbn [c_dirty]; rewrite map_size_delete; unfold id; case_match; lia).
  eapply runs_mono; [apply (IH (S t) f2 _ Hc2); [reflexivity | eapply listed_next; eassumption | lia | | exact Hhs | lia | | exact Hnd]|].
  { intros bn' Hbn'. cbn. rewrite lookup_delete_ne by (unfold home in Hh; lia). apply Hcl, Hbn'. }
  { intros bn' Hin. cbn. rewrite lookup_delete_ne by (intros ->; contradiction). intros E. specialize (Hsz' bn' ltac:(right; exact Hin) E). cbn in Hsm. lia. }
  intros _ f3 [Hc3 Hr3]. split; [|eapply rest_trans; [exact Hr1 | eapply rest_trans; eassumption]].
  rewrite seqZ_cons by lia. cbn [map zip zip_with]. fold lbn. rewrite c_apply_cons.
  replace (Z.pred (Z.of_nat (S (length bl)))) with (Z.of_nat (length bl)) by lia. replace (L + Z.of_nat (S t) + 1) with (Z.succ lbn) in Hc3 by (unfold lbn; lia).
  replace (map (c_disk c) (seqZ (Z.succ lbn) (Z.of_nat (length bl)))) with (map (c_disk c3) (seqZ (Z.succ lbn) (Z.of_nat (length bl)))).
  2:{ apply map_ext_in. intros a Ha%list_elem_of_In%elem_of_seqZ. cbn. apply fupd_ne. unfold lbn, home in *. lia. }
  unfold c_apply in *. cbn [c_write c_disk c_writes c_held]. rewrite He. exact Hc3.
Qed.

(** ** The header block *)

Definition lg_ok (f : fs_t) : Prop :=
  lg_dev (fs_log f) = dev /\ lg_start (fs_log f) = L /\ length (lh_block (lg_lh (fs_log f))) = Z.to_nat LOGSIZE.

(** [bread] and [brelse] around code on the buffer of a clean block. *)
Lemma bread_clean f c bn {A} (k : nat -> K A) Q :
  cached f c -> c_held c = ∅ -> c_dirty c !! bn = None -> (size (c_dirty c) < NBUF)%nat -> bn < FSSIZE ->
  (forall b f', cached f' (c_take b (mkHbuf bn false (c_disk c bn)) c) -> rest f f' -> runs (k b) f' Q) ->
  runs (let! b := bread dev bn in k b) f Q.
Proof.
  intros Hc He Hd Hsz Hbn Hk.
  eapply runs_bind; [apply (bread_spec i pid dev f c bn Hc); [rewrite He; intros b h; rewrite lookup_empty; discriminate | exact Hbn|]|].
  { intros _. rewrite He, map_size_empty. exact Hsz. }
  intros b f' (_ & Hc' & Hr). rewrite (h_of_clean c bn Hd) in Hc'. apply Hk; assumption.
Qed.

Lemma take_clean b h c : c_held c = ∅ -> h_dirty h = false -> c_dirty c !! h_bn h = None -> c_put b h (c_take b h c) = c.
Proof. intros He Eh Ed. apply put_take; [rewrite He; apply lookup_empty | rewrite Eh; exact Ed]. Qed.

Lemma write_head_spec f c :
  cached f c -> c_held c = ∅ -> log_clean c -> (size (c_dirty c) < NBUF)%nat -> lg_ok f ->
  runs write_head f (fun _ f' => cached f' (c_write L (encode_head (lg_lh (fs_log f)) (c_disk c L)) c) /\ rest f f').
Proof.
  intros Hc He Hcl Hsz (Edev & Est & _). unfold write_head. eapply runs_step; [apply goes_get_fs|]. rewrite Edev, Est, w32_small by (unfold u32; unfold FSSIZE in Hlayout; lia).
  assert (Hd : c_dirty c !! L = None) by (apply Hcl; lia).
  eapply (bread_clean f c L); [exact Hc | exact He | exact Hd | exact Hsz | lia|]. intros b f1 Hc1 Hr1. eapply runs_step; [apply goes_get_fs|]. rewrite (proj1 Hr1).
  set (h := mkHbuf L false _) in Hc1. assert (E1 : c_held (c_take b h c) !! b = Some h) by apply lookup_insert_eq.
  destruct (held_at pid dev f1 _ b h Hc1 E1) as (x & Hx & Hh). set (dat := encode_head (lg_lh (fs_log f)) (c_disk c L)).
  set (g := fun x => set_b_data (encode_head (lg_lh (fs_log f)) (b_data x)) x). eapply runs_step; [apply goes_upd_buf, _|]. fold g.
  set (h2 := mkHbuf L false dat).
  assert (Hc2 : cached (ub b g f1) (c_hold b h2 (c_take b h c))).
  { eapply hold_ok; [exact Hc1 | exact E1 | exact Hx | split; reflexivity | | reflexivity]. unfold g. destruct Hh as [? ? ? Edat]. constructor; try assumption. cbn. rewrite Edat. reflexivity. }
  eapply runs_bind; [eapply (bwrite_spec i pid dev b h2 _ _ Hc2); [apply lookup_insert_eq | cbn; lia]|]. intros [] f3 [Hc3 Hr3].
  match type of Hc3 with Cache.cached _ _ _ ?c3 => assert (E3 : c_held c3 !! b = Some h2) by apply lookup_insert_eq end.
  destruct (brelse_spec i pid dev b h2 f3 _ Hc3 E3) as (f4 & Hgo & Hc4 & Hr4); [intros _; cbn; rewrite fupd_eq; reflexivity|].
  eapply goes_runs; [exact Hgo|]. split; [|eapply rest_trans; [exact Hr1 | eapply rest_trans; [exact Hr3 | exact Hr4]]].
  match type of Hc4 with Cache.cached _ _ _ ?c4 => replace (c_write L dat c) with c4; [exact Hc4|] end.
  unfold c_put, c_write. cbn. rewrite He, !insert_insert_eq, delete_insert_id, delete_id by (exact Hd || apply lookup_empty). reflexivity.
Qed.

(** The block numbers of a header block. *)
Definition entry (hd : list Z) (j : nat) : Z := s32 (le32 hd (4 + 4 * j)).

Lemma goes_upd_log P `{Stable P} h f : goes P P (upd_log h) f tt (set_log (h (fs_log f)) f).
Proof. exact (goes_upd_fs P (fun fs => set_log (h (fs_log fs)) fs) f). Qed.

Lemma goes_set_lh_block P `{Stable P} j bn f :
  (j < length (lh_block (lg_lh (fs_log f))))%nat ->
  goes P P (set_lh_block j bn) f tt
    (set_log (set_lg_lh (mkLogheader (lh_n (lg_lh (fs_log f))) (<[j := bn]> (lh_block (lg_lh (fs_log f))))) (fs_log f)) f).
Proof. intros Hj. eapply goes_bind; [apply goes_get_fs|]. rewrite decide_True by exact Hj. apply (goes_upd_log P (fun l => set_lg_lh (mkLogheader (lh_n (lg_lh l)) (<[j := bn]> (lh_block (lg_lh l)))) l)). Qed.

Lemma read_head_loop_spec hd n j f :
  (j + n <= length (lh_block (lg_lh (fs_log f))))%nat ->
  exists bl, goes (quiet i pid) (quiet i pid) (read_head_loop hd j n) f tt (set_log (set_lg_lh (mkLogheader (lh_n (lg_lh (fs_log f))) bl) (fs_log f)) f) /\
    length bl = length (lh_block (lg_lh (fs_log f))) /\
    forall k, bl !! k = if decide (j <= k < j + n)%nat then Some (entry hd k) else lh_block (lg_lh (fs_log f)) !! k.
Proof.
  revert j f. induction n as [|n IH]; intros j f Hj; cbn [read_head_loop].
  - exists (lh_block (lg_lh (fs_log f))). split; [|split; [reflexivity | intros k; rewrite decide_False by lia; reflexivity]].
    destruct f as [bf [? ? ? ? ? []]]. apply goes_ret.
  - set (f1 := set_log (set_lg_lh (mkLogheader (lh_n (lg_lh (fs_log f))) (<[j := entry hd j]> (lh_block (lg_lh (fs_log f))))) (fs_log f)) f).
    destruct (IH (S j) f1) as (bl & Hgo & Hlen & Hbl); [unfold f1; cbn; rewrite length_insert; lia|].
    exists bl. split; [eapply goes_cons; [apply goes_set_lh_block; [apply _ | lia] | exact Hgo]|].
    unfold f1 in Hlen, Hbl. cbn in Hlen, Hbl. rewrite length_insert in Hlen. split; [exact Hlen|]. intros k. rewrite Hbl.
    destruct (decide (k = j)) as [-> | Hne]; [rewrite list_lookup_insert_eq by lia | rewrite list_lookup_insert_ne by congruence];
      repeat case_decide; try reflexivity; lia.
Qed.

(** [bl] is what the header block [hd] lists. *)
Definition header (hd : list Z) (bl : list Z) : Prop :=
  s32 (le32 hd 0) = Z.of_nat (length bl) /\ forall j bn, bl !! j = Some bn -> entry hd j = bn.

(** The header in memory is [bl]. *)
Definition in_log (f : fs_t) (bl : list Z) : Prop :=
  lg_ok f /\ lh_n (lg_lh (fs_log f)) = Z.of_nat (length bl) /\
  forall j bn, bl !! j = Some bn -> lh_block (lg_lh (fs_log f)) !! j = Some bn.

Lemma in_log_listed f bl : in_log f bl -> listed f 0 bl.
Proof. intros ((H1 & H2 & _) & _ & H3). split; [exact H1|]. split; [exact H2 | exact H3]. Qed.

Lemma in_log_rest f f' bl : in_log f bl -> fs_log f' = fs_log f -> in_log f' bl.
Proof. unfold in_log, lg_ok. intros Hi ->. exact Hi. Qed.

(** What the log keeps when it reads and writes headers. *)
Definition same_log (f f' : fs_t) : Prop :=
  let l := fs_log f in
  let l' := fs_log f' in
  lg_start l' = lg_start l /\ lg_size l' = lg_size l /\ lg_outstanding l' = lg_outstanding l /\
  lg_committing l' = lg_committing l /\ kept f f'.

Ltac samelog :=
  unfold same_log, kept, rest in *; cbn in *; repeat match goal with H : _ /\ _ |- _ => destruct H end;
  repeat match goal with H : fs_log _ = _ |- _ => rewrite H in *; clear H end; cbn in *; repeat split; congruence.

Lemma read_head_spec f c bl :
  cached f c -> c_held c = ∅ -> log_clean c -> (size (c_dirty c) < NBUF)%nat -> lg_ok f ->
  header (c_disk c L) bl -> Z.of_nat (length bl) < nlog ->
  runs read_head f (fun _ f' => cached f' c /\ in_log f' bl /\ same_log f f').
Proof.
  intros Hc He Hcl Hsz (Edev & Est & Elen) [Hn Hbl] Hlt. unfold read_head. eapply runs_step; [apply goes_get_fs|]. rewrite Edev, Est, w32_small by (unfold u32; unfold FSSIZE in Hlayout; lia).
  assert (Hd : c_dirty c !! L = None) by (apply Hcl; lia).
  eapply (bread_clean f c L); [exact Hc | exact He | exact Hd | exact Hsz | lia|]. intros b f1 Hc1 Hr1.
  set (h := mkHbuf L false _) in Hc1. assert (E1 : c_held (c_take b h c) !! b = Some h) by apply lookup_insert_eq.
  destruct (held_at pid dev f1 _ b h Hc1 E1) as (x & Hx & Hh). eapply runs_step; [apply goes_get_buf, Hx|]. rewrite (hb_data _ _ _ _ Hh). cbn [h_data h].
  rewrite Hn, Nat2Z.id. eapply runs_step; [apply goes_upd_log, _|]. rewrite (proj1 Hr1).
  set (f2 := set_log _ f1). destruct (read_head_loop_spec (c_disk c L) (length bl) 0 f2) as (bl' & Hgo & Hlen & Hbl').
  { unfold f2. cbn. rewrite Elen. lia. }
  eapply runs_step; [exact Hgo|]. set (f3 := set_log _ f2). assert (Hc3 : cached f3 (c_take b h c)) by apply cached_set_log, cached_set_log, Hc1.
  destruct (brelse_spec i pid dev b h f3 _ Hc3 E1) as (f4 & Hgo4 & Hc4 & Hr4); [reflexivity|]. eapply goes_runs; [exact Hgo4|].
  rewrite (take_clean b h c He eq_refl Hd) in Hc4. split; [exact Hc4|]. split; [|unfold f3, f2 in Hr4; clear -Hr1 Hr4; samelog].
  apply (in_log_rest f3); [|apply Hr4]. split; [split; [exact Edev|]; split; [exact Est | cbn in *; congruence]|]. split; [reflexivity|].
  intros j bn Hj. cbn. rewrite Hbl', decide_True by (apply lookup_lt_Some in Hj; lia). f_equal. apply Hbl, Hj.
Qed.

(** What is written to a header block to empty the log. *)
Definition zero_head (hd : list Z) : list Z := put 0 (bytes32 0) hd.

Lemma encode_zero bl hd : encode_head (mkLogheader 0 bl) hd = zero_head hd.
Proof. destruct bl; reflexivity. Qed.

Lemma set_lh_n_runs n f c : cached f c -> exists f', goes (quiet i pid) (quiet i pid) (set_lh_n n) f tt f' /\ cached f' c /\
  f' = set_log (set_lg_lh (mkLogheader n (lh_block (lg_lh (fs_log f)))) (fs_log f)) f.
Proof. intros Hc. eexists. split; [apply (goes_upd_log _ (fun l => set_lg_lh (mkLogheader n (lh_block (lg_lh l))) l))|]. split; [apply cached_set_log, Hc | reflexivity]. Qed.

(** Emptying the log, the end of both [commit] and [recover_from_log]. *)
Lemma clear_log_spec f c :
  cached f c -> c_held c = ∅ -> log_clean c -> (size (c_dirty c) < NBUF)%nat -> lg_ok f ->
  runs (set_lh_n 0 ;; write_head) f (fun _ f' =>
    cached f' (c_write L (zero_head (c_disk c L)) c) /\ in_log f' [] /\ same_log f f').
Proof.
  intros Hc He Hcl Hsz Hok. destruct (set_lh_n_runs 0 f c Hc) as (f1 & Hgo & Hc1 & Ef1). eapply runs_step; [exact Hgo|].
  assert (Hok1 : lg_ok f1) by (rewrite Ef1; exact Hok).
  eapply runs_mono; [apply (write_head_spec f1 c Hc1 He Hcl Hsz Hok1)|]. intros _ f2 [Hc2 Hr2]. rewrite Ef1 in Hc2. cbn [set_log fs_log set_lg_lh lg_lh] in Hc2. rewrite encode_zero in Hc2. split; [exact Hc2|].
  split; [|rewrite Ef1 in Hr2; clear -Hr2; samelog]. apply (in_log_rest f1); [|apply Hr2]. split; [exact Hok1|]. rewrite Ef1. split; [reflexivity | intros j bn; discriminate].
Qed.

(** ** Recovery and commit *)

Definition install_writes (d : Z -> list Z) (bl : list Z) : list (Z * list Z) :=
  zip bl (map d (seqZ (L + 1) (Z.of_nat (length bl)))).
Definition recover_writes (d : Z -> list Z) (bl : list Z) : list (Z * list Z) :=
  install_writes d bl ++ [(L, zero_head (d L))].

Lemma install_fst d bl : (install_writes d bl).*1 = bl.
Proof. apply fst_zip. rewrite length_map, length_seqZ. lia. Qed.

Lemma home_not_log bl bn : Forall home bl -> L <= bn < L + nlog -> bn ∉ bl.
Proof. intros Hh Hb Hin. rewrite Forall_forall in Hh. specialize (Hh bn Hin). unfold home in Hh. lia. Qed.

Lemma c_apply_app ws ws' D D' c : c_apply (ws ++ ws') D c = c_apply ws' D (c_apply ws D' c).
Proof. unfold c_apply, tagged. cbn. rewrite apply_app, map_app, rev_app_distr, <- app_assoc. reflexivity. Qed.

Lemma c_apply_write bn x D c : c_write bn x (c_apply [] D c) = c_apply [(bn, x)] D c.
Proof. reflexivity. Qed.

Lemma install_trans_spec f c bl :
  cached f c -> c_held c = ∅ -> in_log f bl -> Z.of_nat (length bl) < nlog -> log_clean c ->
  Forall home bl -> (size (c_dirty c) < NBUF)%nat ->
  (forall bn, bn ∈ bl -> c_dirty c !! bn = None -> (S (size (c_dirty c)) < NBUF)%nat) -> NoDup bl ->
  runs install_trans f (fun _ f' => cached f' (c_apply (install_writes (c_disk c) bl) (undirty bl (c_dirty c)) c) /\ rest f f').
Proof.
  intros Hc He Hi Hlt Hcl Hh Hsz Hsz' Hnd. eapply runs_step; [apply goes_get_fs|]. destruct Hi as (Hok & Hn & Hb). rewrite Hn, Nat2Z.id.
  eapply runs_mono; [apply (install_loop_spec bl 0 f c); try assumption; apply in_log_listed; split; auto|].
  intros ? f' [Hc' Hr']. rewrite Z.add_0_r in Hc'. split; assumption.
Qed.

Lemma recover_spec f c bl :
  cached f c -> c_held c = ∅ -> c_dirty c = ∅ -> lg_ok f ->
  header (c_disk c L) bl -> Z.of_nat (length bl) < nlog -> Forall home bl -> NoDup bl ->
  runs recover_from_log f (fun _ f' =>
    cached f' (c_apply (recover_writes (c_disk c) bl) ∅ c) /\ in_log f' [] /\ same_log f f').
Proof.
  intros Hc He Hd Hok Hhd Hlt Hh Hnd. assert (Hcl : log_clean c) by (intros bn _; rewrite Hd; apply lookup_empty).
  assert (Hsz : (S (size (c_dirty c)) < NBUF)%nat) by (rewrite Hd, map_size_empty; unfold NBUF; lia).
  unfold recover_from_log. eapply runs_bind; [apply (read_head_spec f c bl); try assumption; lia|]. intros [] f1 (Hc1 & Hi1 & Hs1).
  eapply runs_bind; [apply (install_trans_spec f1 c bl); try assumption; [lia | intros; exact Hsz]|]. intros [] f2 [Hc2 Hr2].
  assert (Hu : undirty bl (c_dirty c) = ∅) by (rewrite Hd; clear; induction bl as [|bn bl IH]; [reflexivity | unfold undirty; cbn; rewrite delete_empty; exact IH]).
  rewrite Hu in Hc2. eapply runs_mono; [apply (clear_log_spec f2 _ Hc2); [exact He | intros bn _; apply lookup_empty | cbn; rewrite map_size_empty; unfold NBUF; lia|]|].
  { pose proof (in_log_rest f1 f2 bl Hi1 (proj1 Hr2)) as [Hk _]. exact Hk. }
  intros _ f3 (Hc3 & Hi3 & Hs3). split; [|split; [exact Hi3|]].
  - unfold recover_writes. erewrite c_apply_app. cbn [c_disk c_apply] in Hc3. rewrite apply_other in Hc3; [exact Hc3|]. rewrite install_fst. apply home_not_log; [exact Hh | lia].
  - clear -Hs1 Hr2 Hs3. samelog.
Qed.

Lemma goes_initlock l nm f : goes (quiet i pid) (quiet i pid) (initlock l nm) f tt f.
Proof.
  intros s [Hr Hf Hp] Es. eexists. split; [reflexivity|]. split; [|exact Es].
  assert (Hf' : forall l', lock_free l' (set_locks (fupd (k_locks s) l (mkSpinlock 0 nm None)) s)).
  { intros l'. unfold lock_free. cbn [k_locks set_locks]. unfold fupd. case_match; [auto | apply Hf]. }
  constructor; [destruct Hr; constructor; try assumption; [cpuok | apply Hf'] | exact Hf' | exact Hp].
Qed.

Lemma readsb_spec f c :
  cached f c -> c_held c = ∅ -> c_dirty c = ∅ ->
  runs (readsb dev) f (fun sb f' => sb = decode_sb (c_disk c 1) /\ cached f' c /\ rest f f').
Proof.
  intros Hc He Hd. unfold readsb. assert (Hd1 : c_dirty c !! 1 = None) by (rewrite Hd; apply lookup_empty).
  eapply (bread_clean f c 1); [exact Hc | exact He | exact Hd1 | rewrite Hd, map_size_empty; unfold NBUF; lia | unfold FSSIZE; lia|].
  intros b f1 Hc1 Hr1. set (h := mkHbuf 1 false _) in Hc1. assert (E1 : c_held (c_take b h c) !! b = Some h) by apply lookup_insert_eq.
  destruct (held_at pid dev f1 _ b h Hc1 E1) as (x & Hx & Hh). eapply runs_step; [apply goes_get_buf, Hx|].
  destruct (brelse_spec i pid dev b h f1 _ Hc1 E1) as (f2 & Hgo & Hc2 & Hr2); [reflexivity|]. eapply runs_step; [exact Hgo|].
  eapply goes_runs; [apply goes_ret|]. rewrite (hb_data _ _ _ _ Hh). rewrite (take_clean b h c He eq_refl Hd1) in Hc2.
  split; [reflexivity|]. split; [exact Hc2 | eapply rest_trans; eassumption].
Qed.

(** The super block says where the log is. *)
Definition layout (d : Z -> list Z) : Prop :=
  s32 (sb_logstart (decode_sb (d 1))) = L /\ s32 (sb_nlog (decode_sb (d 1))) = nlog.

Lemma initlog_spec f c bl :
  cached f c -> c_held c = ∅ -> c_dirty c = ∅ -> length (lh_block (lg_lh (fs_log f))) = Z.to_nat LOGSIZE ->
  layout (c_disk c) -> header (c_disk c L) bl -> Z.of_nat (length bl) < nlog -> Forall home bl -> NoDup bl ->
  runs (initlog dev) f (fun _ f' =>
    cached f' (c_apply (recover_writes (c_disk c) bl) ∅ c) /\ in_log f' [] /\ lg_size (fs_log f') = nlog /\
    lg_outstanding (fs_log f') = lg_outstanding (fs_log f) /\ lg_committing (fs_log f') = lg_committing (fs_log f) /\ kept f f').
Proof.
  intros Hc He Hd Hlen [Hsb1 Hsb2] Hhd Hlt Hh Hnd. unfold initlog. change (BSIZE <=? 4 + 4 * LOGSIZE) with false. cbn beta iota.
  eapply runs_step; [apply goes_initlock|]. eapply runs_bind; [apply (readsb_spec f c Hc He Hd)|]. intros sb f1 (-> & Hc1 & Hr1). rewrite Hsb1, Hsb2.
  do 3 (eapply runs_step; [apply goes_upd_log, _|]). set (f2 := set_log _ _).
  assert (Hc2 : cached f2 c) by (do 3 apply cached_set_log; exact Hc1).
  eapply runs_mono; [apply (recover_spec f2 c bl); try assumption|].
  - split; [reflexivity|]. split; [reflexivity|]. unfold f2. cbn. rewrite (proj1 Hr1). exact Hlen.
  - intros _ f3 (Hc3 & Hi3 & Hs3). split; [exact Hc3|]. split; [exact Hi3|]. unfold f2 in Hs3. clear -Hs3 Hr1. samelog.
Qed.

Lemma undirty_lookup bl D k : undirty bl D !! k = if decide (k ∈ bl) then None else D !! k.
Proof.
  revert D. induction bl as [|bn bl IH]; intros D; [reflexivity|]. unfold undirty. cbn [foldl]. fold (undirty bl (delete bn D)). rewrite IH.
  destruct (decide (k = bn)) as [-> | Hne]; [rewrite lookup_delete_eq, (decide_True (P := bn ∈ bn :: bl)) by left; case_decide; reflexivity|].
  rewrite lookup_delete_ne by congruence. repeat case_decide; try reflexivity; elems.
Qed.

(** A transaction that is ready to be committed: nobody holds a buffer, and the
    log lists the dirty blocks. *)
Record ready (f : fs_t) (c : cache) (bl : list Z) : Prop := {
  rd_cached : cached f c;
  rd_held : c_held c = ∅;
  rd_log : in_log f bl;
  rd_nodup : NoDup bl;
  rd_home : Forall home bl;
  rd_len : Z.of_nat (length bl) < nlog;
  rd_dirty bn : bn ∈ bl <-> is_Some (c_dirty c !! bn);
  rd_block : length (c_disk c L) = Z.to_nat BSIZE }.

Lemma ready_size f c bl : ready f c bl -> size (c_dirty c) = length bl.
Proof.
  intros Hr. rewrite <- (size_dom (D := gset Z)), <- (size_list_to_set (C := gset Z) bl) by apply Hr.
  f_equal. apply set_eq. intros bn. rewrite elem_of_dom, elem_of_list_to_set. symmetry. apply Hr.
Qed.

Lemma ready_clean f c bl : ready f c bl -> log_clean c.
Proof.
  intros Hr bn Hbn. destruct (c_dirty c !! bn) as [d|] eqn:E; [|reflexivity]. exfalso.
  apply (home_not_log bl bn (rd_home _ _ _ Hr) Hbn), (rd_dirty _ _ _ Hr). eauto.
Qed.

Definition commit_writes (lh : logheader) (c : cache) (bl : list Z) : list (Z * list Z) :=
  let datas := map (view c) bl in
  let hd := encode_head lh (c_disk c L) in
  match bl with
  | [] => []
  | _ => log_writes L datas ++ [(L, hd)] ++ zip bl datas ++ [(L, zero_head hd)]
  end.

Lemma log_slots d datas hd :
  map (fupd (apply_writes (log_writes L datas) d) L hd) (seqZ (L + 1) (Z.of_nat (length datas))) = datas.
Proof.
  apply list_eq. intros j. rewrite list_lookup_fmap. destruct (datas !! j) as [x|] eqn:E.
  - pose proof (lookup_lt_Some _ _ _ E) as Hj. rewrite lookup_seqZ_lt by lia. cbn. f_equal. rewrite fupd_ne by lia.
    apply (apply_lookup _ _ j); [rewrite log_writes_fst; apply NoDup_seqZ|]. unfold log_writes. apply lookup_zip_with_Some.
    exists (L + 1 + Z.of_nat j), x. rewrite lookup_seqZ_lt by lia. auto.
  - apply lookup_ge_None in E. rewrite lookup_seqZ_ge by lia. reflexivity.
Qed.

Lemma commit_spec f c bl :
  ready f c bl ->
  runs commit f (fun _ f' =>
    cached f' (c_apply (commit_writes (lg_lh (fs_log f)) c bl) ∅ c) /\ in_log f' [] /\ same_log f f').
Proof.
  intros Hr. pose proof (ready_size f c bl Hr) as Hsize. pose proof (ready_clean f c bl Hr) as Hcl. pose proof Hr as [Hc He Hi Hnd Hh Hlt Hd Hblk].
  pose proof Hi as (Hok & Hn & Hb). unfold commit. eapply runs_step; [apply goes_get_fs|]. rewrite Hn.
  assert (Hsz : (size (c_dirty c) < NBUF)%nat) by (rewrite Hsize; unfold LOGSIZE, MAXOPBLOCKS in Hlayout; unfold NBUF; lia).
  destruct bl as [|bn0 bl0] eqn:Ebl.
  { change (0 <? Z.of_nat (length [])) with false. eapply goes_runs; [apply goes_ret|]. split; [|split; [exact Hi | repeat split]].
    assert (Ed : c_dirty c = ∅) by (apply map_empty; intros k; apply eq_None_not_Some; rewrite <- Hd; apply not_elem_of_nil).
    destruct c. cbn in *. subst. exact Hc. }
  rewrite <- Ebl in *. replace (0 <? Z.of_nat (length bl)) with true by (symmetry; apply Z.ltb_lt; rewrite Ebl; cbn [length]; lia). cbn [when].
  set (datas := map (view c) bl). set (lh := lg_lh (fs_log f)) in *. assert (Hlen : length datas = length bl) by apply length_map.
  eapply runs_bind with (Q' := fun _ f' => cached f' (c_apply (log_writes L datas) (c_dirty c) c) /\ rest f f').
  { unfold write_log. eapply runs_step; [apply goes_get_fs|]. fold lh. rewrite Hn, Nat2Z.id.
    eapply runs_mono; [apply (write_log_loop_spec bl 0 f c); try assumption; [apply in_log_listed, Hi | apply Forall_forall; intros bn; apply Hd]|].
    intros ? f' [H1 H2]. rewrite Z.add_0_r in H1. split; assumption. }
  intros [] f1 [Hc1 Hr1]. set (c1 := c_apply _ _ c) in Hc1. eapply runs_bind; [apply (write_head_spec f1 c1 Hc1 He Hcl Hsz); unfold lg_ok; rewrite (proj1 Hr1); exact Hok|].
  intros [] f2 [Hc2 Hr2]. rewrite (proj1 Hr1) in Hc2. fold lh in Hc2. cbn [c_disk c_apply c1] in Hc2.
  rewrite apply_other in Hc2 by (rewrite log_writes_fst, elem_of_seqZ; lia). set (hd := encode_head lh (c_disk c L)) in *.
  assert (El2 : fs_log f2 = fs_log f) by (rewrite (proj1 Hr2); apply Hr1). set (c2 := c_write L hd c1) in Hc2.
  assert (Hi2 : in_log f2 bl) by (eapply in_log_rest; [exact Hi | exact El2]).
  eapply runs_bind; [apply (install_trans_spec f2 c2 bl Hc2); try assumption; intros bn Hin E; apply Hd in Hin as [x Hx]; cbn in E; congruence|].
  intros [] f3 [Hc3 Hr3]. replace (install_writes (c_disk c2) bl) with (zip bl datas) in Hc3 by (unfold install_writes; rewrite <- Hlen; f_equal; symmetry; apply log_slots).
  assert (Hu : undirty bl (c_dirty c2) = ∅).
  { apply map_empty. intros k. rewrite undirty_lookup. case_decide as Hk; [reflexivity|]. apply eq_None_not_Some. cbn. rewrite <- Hd. exact Hk. }
  rewrite Hu in Hc3. eapply runs_mono; [apply (clear_log_spec f3 _ Hc3); [exact He | intros bn _; apply lookup_empty | cbn; rewrite map_size_empty; unfold NBUF; lia|]|].
  { unfold lg_ok. rewrite (proj1 Hr3), El2. exact Hok. }
  intros _ f4 (Hc4 & Hi4 & Hs4). split; [|split; [exact Hi4|]; clear -Hr1 Hr2 Hr3 Hs4; samelog].
  replace (c_apply (commit_writes lh c bl) ∅ c) with (c_write L (zero_head hd) (c_apply (zip bl datas) ∅ c2)).
  - replace (c_disk _ L) with hd in Hc4; [exact Hc4|]. cbn [c_disk c_apply].
    rewrite apply_other by (rewrite fst_zip by lia; apply home_not_log; [exact Hh | lia]). symmetry. apply fupd_eq.
  - unfold commit_writes. fold datas hd. rewrite Ebl at 2. rewrite !app_assoc. rewrite (c_apply_app _ _ _ ∅), (c_apply_app _ (zip bl datas) _ ∅), (c_apply_app _ _ _ ∅). reflexivity.
Qed.

(** ** Transactions *)

(** Between two system calls: the buffers are free and clean, the log is empty. *)
Record in_tx (f : fs_t) (c : cache) (bl : list Z) (out com : Z) : Prop := {
  tx_ready : ready f c bl;
  tx_size : lg_size (fs_log f) = nlog;
  tx_out : lg_outstanding (fs_log f) = out;
  tx_com : lg_committing (fs_log f) = com }.

Lemma log_index_spec blocks bn k n : (n <= length blocks)%nat ->
  log_index blocks bn k n = (k + n)%nat /\ (forall j, (j < n)%nat -> blocks !! j <> Some bn) \/
  exists j, (j < n)%nat /\ log_index blocks bn k n = (k + j)%nat /\ blocks !! j = Some bn.
Proof.
  revert k n. induction blocks as [|b bs IH]; intros k [|n] Hn; cbn [length log_index] in *; try lia; try (left; split; [lia | intros j Hj; lia]).
  destruct (b =? bn) eqn:E; [right; exists 0%nat; apply Z.eqb_eq in E; subst; split; [lia|]; split; [lia | reflexivity]|].
  destruct (IH (S k) n) as [[-> Hno] | (j & Hj & -> & Hb)]; [lia | left | right; exists (S j); split; [lia|]; split; [lia | exact Hb]].
  split; [lia|]. intros [|j] Hj; cbn; [intros [= ->]; lia | apply Hno; lia].
Qed.

(** The blocks in the log when block [bn] has been logged. *)
Definition absorb (bn : Z) (bl : list Z) : list Z := if decide (bn ∈ bl) then bl else bl ++ [bn].

Lemma log_write_log f bl bn :
  in_log f bl -> Z.of_nat (length bl) < LOGSIZE ->
  let l := lg_lh (fs_log f) in
  let j := log_index (lh_block l) bn 0 (length bl) in
  let n' := if decide (j = length bl) then lh_n l + 1 else lh_n l in
  (j < length (lh_block l))%nat /\ forall f', fs_log f' = set_lg_lh (mkLogheader n' (<[j := bn]> (lh_block l))) (fs_log f) -> in_log f' (absorb bn bl).
Proof.
  intros ((H1 & H2 & Hlen) & Hn & Hb) Hlt. cbn zeta. set (blocks := lh_block _) in *. assert (Hle : (length bl <= length blocks)%nat) by lia.
  assert (Hnth : forall j, (j < length bl)%nat -> blocks !! j = bl !! j).
  { intros j Hj. destruct (lookup_lt_is_Some_2 bl j Hj) as [x Hx]. rewrite Hx. apply Hb, Hx. }
  destruct (log_index_spec blocks bn 0 (length bl) Hle) as [[-> Hno] | (j & Hj & -> & Hbn)]; cbn [Nat.add]; (split; [lia|]); intros f' E; unfold in_log, lg_ok; rewrite E; cbn.
  - rewrite decide_True by reflexivity. unfold absorb. rewrite decide_False.
    2:{ intros (j & Hj)%list_elem_of_lookup. apply (Hno j); [apply lookup_lt_Some in Hj; exact Hj|]. apply Hb, Hj. }
    rewrite length_insert, length_app. cbn [length]. split; [auto|]. split; [lia|]. intros k x [Hk | [Hk Hx]]%lookup_app_Some.
    + rewrite list_lookup_insert_ne by (apply lookup_lt_Some in Hk; lia). apply Hb, Hk.
    + apply list_lookup_singleton_Some in Hx as [Hk0 <-]. replace k with (length bl) by lia. apply list_lookup_insert_eq. lia.
  - rewrite decide_False by lia. rewrite Hnth in Hbn by exact Hj. unfold absorb. rewrite decide_True by (eapply list_elem_of_lookup_2, Hbn).
    rewrite length_insert, list_insert_id by (apply Hb, Hbn). auto.
Qed.

Lemma log_write_spec b h f c bl :
  cached f c -> c_held c !! b = Some h -> in_log f bl -> lg_size (fs_log f) = nlog -> 1 <= lg_outstanding (fs_log f) ->
  Z.of_nat (length bl) + 1 < nlog -> home (h_bn h) ->
  exists f', goes (quiet i pid) (quiet i pid) (log_write b) f tt f' /\ cached f' (c_hold b (mkHbuf (h_bn h) true (h_data h)) c) /\
    in_log f' (absorb (h_bn h) bl) /\ same_log f f'.
Proof.
  intros Hc Hh Hi Hsz Hout Hlt Hhome. destruct (held_at pid dev f c b h Hc Hh) as (x & Hx & Hb). pose proof Hi as (_ & Hn & _).
  destruct (log_write_log f bl (h_bn h) Hi ltac:(lia)) as [Hj Hi']. cbn zeta in Hj, Hi'. set (lh := lg_lh (fs_log f)) in *.
  set (j := log_index (lh_block lh) (h_bn h) 0 (length bl)) in *. set (n' := if decide _ then _ else _) in Hi'.
  assert (Es : s32 (b_blockno x) = h_bn h) by (rewrite (hb_bn _ _ _ _ Hb); unfold home, FSSIZE in Hhome; rewrite <- (w32_small (h_bn h)) at 1 by (unfold u32; lia); apply s32_w32_id; lia).
  set (g := fun x => set_b_flags (Z.lor (b_flags x) B_DIRTY) x). set (f1 := set_log (set_lg_lh (mkLogheader n' (<[j := h_bn h]> (lh_block lh))) (fs_log f)) f).
  exists (ub b g f1). split.
  - unfold log_write. eapply goes_bind; [apply goes_get_fs|]. fold lh. rewrite Hn, Hsz.
    replace ((LOGSIZE <=? Z.of_nat (length bl)) || (nlog - 1 <=? Z.of_nat (length bl))) with false by (symmetry; apply orb_false_iff; split; apply Z.leb_gt; lia).
    replace (lg_outstanding (fs_log f) <? 1) with false by (symmetry; apply Z.ltb_ge; lia).
    eapply goes_cons; [apply goes_acquire; discriminate|]. eapply goes_bind; [apply goes_get_fs|]. eapply goes_bind; [apply goes_get_buf, Hx|]. fold lh.
    rewrite Es, Hn, Nat2Z.id. fold j. cbn zeta. eapply goes_cons; [apply goes_set_lh_block; [apply _ | exact Hj]|].
    eapply goes_cons with (f1 := f1); [|eapply goes_cons; [apply goes_upd_buf, _ | apply goes_release; discriminate]].
    unfold f1, n'. destruct (decide (j = length bl)) as [E | E].
    + rewrite bool_decide_eq_true_2 by exact E. cbn [when]. rewrite Hn.
      match goal with |- goes _ _ _ ?f2 _ _ => exact (goes_upd_log _ (fun l => set_lg_lh (mkLogheader (Z.of_nat (length bl) + 1) (lh_block (lg_lh l))) l) f2) end.
    + rewrite bool_decide_eq_false_2 by exact E. apply goes_ret.
  - split; [|split; [apply Hi'; reflexivity | repeat split]].
    eapply (hold_ok pid dev b g x h); [apply cached_set_log, Hc | exact Hh | exact Hx | split; reflexivity | | reflexivity].
    destruct Hb as [? ? Hfl]. constructor; try assumption. cbn. rewrite Hfl. destruct (h_dirty h); reflexivity.
Qed.

(** The typical use of [log_write] that log.c describes: read a block, modify
    its data, log it, release it. *)
Definition log_update (bn : Z) (g : list Z -> list Z) : K unit :=
  let! b := bread dev bn in
  upd_buf b (fun x => set_b_data (g (b_data x)) x) ;;
  log_write b ;;
  brelse b.

Definition c_dirtied (bn : Z) (x : list Z) (c : cache) : cache :=
  mkCache (c_disk c) (c_writes c) (c_held c) (<[bn := x]> (c_dirty c)).

Lemma absorb_elem bn bl bn' : bn' ∈ absorb bn bl <-> bn' = bn \/ bn' ∈ bl.
Proof. unfold absorb. case_decide; rewrite ?elem_of_app, ?list_elem_of_singleton; [intuition (subst; auto) | tauto]. Qed.
Lemma absorb_nodup bn bl : NoDup bl -> NoDup (absorb bn bl).
Proof. intros Hnd. unfold absorb. case_decide as Hin; [exact Hnd|]. apply NoDup_app. split; [exact Hnd|]. split; [intros x Hx ->%list_elem_of_singleton; contradiction | apply NoDup_singleton]. Qed.
Lemma absorb_length bn bl : (length (absorb bn bl) <= S (length bl))%nat.
Proof. unfold absorb. case_decide; rewrite ?length_app; cbn; lia. Qed.

Lemma log_update_spec bn g f c bl com :
  in_tx f c bl 1 com -> home bn -> Z.of_nat (length bl) + 1 < nlog ->
  runs (log_update bn g) f (fun _ f' => in_tx f' (c_dirtied bn (g (view c bn)) c) (absorb bn bl) 1 com /\ kept f f').
Proof.
  intros [Hr Hsz Hout Hcom] Hhome Hlt. pose proof (ready_size f c bl Hr) as Hsize. pose proof Hr as [Hc He Hi Hnd Hh _ Hd Hblk].
  unfold log_update. eapply runs_bind; [apply (bread_spec i pid dev f c bn Hc); [rewrite He; intros b h; rewrite lookup_empty; discriminate | apply Hhome|]|].
  { intros _. rewrite He, map_size_empty, Hsize. unfold LOGSIZE, MAXOPBLOCKS in Hlayout. unfold NBUF. lia. }
  intros b f1 (_ & Hc1 & Hr1). set (h := h_of c bn) in Hc1. assert (E1 : c_held (c_take b h c) !! b = Some h) by apply lookup_insert_eq.
  destruct (held_at pid dev f1 _ b h Hc1 E1) as (x & Hx & Hb). set (gg := fun x => set_b_data (g (b_data x)) x). eapply runs_step; [apply goes_upd_buf, _|]. fold gg.
  set (h2 := mkHbuf bn (h_dirty h) (g (view c bn))).
  assert (Hc2 : cached (ub b gg f1) (c_hold b h2 (c_take b h c))).
  { eapply hold_ok; [exact Hc1 | exact E1 | exact Hx | split; reflexivity | | reflexivity]. unfold gg. destruct Hb as [? ? ? Edat]. constructor; try assumption. cbn. rewrite Edat. reflexivity. }
  destruct (log_write_spec b h2 (ub b gg f1) _ bl Hc2) as (f3 & Hgo3 & Hc3 & Hi3 & Hs3).
  { apply lookup_insert_eq. } { apply (in_log_rest f); [exact Hi | apply Hr1]. } { cbn. rewrite (proj1 Hr1). exact Hsz. }
  { cbn. rewrite (proj1 Hr1). lia. } { exact Hlt. } { exact Hhome. }
  eapply runs_step; [exact Hgo3|]. set (h3 := mkHbuf (h_bn h2) true (h_data h2)) in *.
  match type of Hc3 with Cache.cached _ _ _ ?c3 => assert (E3 : c_held c3 !! b = Some h3) by apply lookup_insert_eq end.
  destruct (brelse_spec i pid dev b h3 f3 _ Hc3 E3) as (f4 & Hgo4 & Hc4 & Hr4); [discriminate|]. eapply goes_runs; [exact Hgo4|].
  split; [|clear -Hr1 Hs3 Hr4; samelog]. destruct Hs3 as (S1 & S2 & S3 & S4 & S5). cbn [ub set_bufs fs_log] in S1, S2, S3, S4. rewrite (proj1 Hr1) in S2, S3, S4.
  constructor; [|rewrite (proj1 Hr4); congruence ..]. constructor.
  - match type of Hc4 with Cache.cached _ _ _ ?c4 => replace (c_dirtied _ _ c) with c4; [exact Hc4|] end.
    unfold c_put, c_dirtied. cbn. rewrite He, !insert_insert_eq, delete_insert_id, insert_delete_eq by apply lookup_empty. reflexivity.
  - exact He.
  - apply (in_log_rest f3); [exact Hi3 | apply Hr4].
  - apply absorb_nodup, Hnd.
  - apply Forall_forall. intros bn' [-> | Hin]%absorb_elem; [exact Hhome|]. rewrite Forall_forall in Hh. exact (Hh bn' Hin).
  - pose proof (absorb_length bn bl). lia.
  - intros bn'. rewrite absorb_elem. cbn. destruct (decide (bn' = bn)) as [-> | Hne]; [rewrite lookup_insert_eq; split; eauto|].
    rewrite lookup_insert_ne by congruence. rewrite Hd. intuition congruence.
  - exact Hblk.
Qed.

Lemma set_log_tx f c bl out com l :
  in_tx f c bl out com -> lg_lh l = lg_lh (fs_log f) -> lg_dev l = lg_dev (fs_log f) -> lg_start l = lg_start (fs_log f) ->
  lg_size l = lg_size (fs_log f) -> in_tx (set_log l f) c bl (lg_outstanding l) (lg_committing l).
Proof.
  intros [[] Hsz _ _] E1 E2 E3 E4. constructor; [constructor; try assumption; [apply cached_set_log; assumption|] | cbn; congruence | reflexivity | reflexivity].
  unfold in_log, lg_ok in *. cbn. rewrite E1, E2, E3. assumption.
Qed.

Lemma begin_op_spec f c : in_tx f c [] 0 0 -> exists f', goes (quiet i pid) (quiet i pid) begin_op f tt f' /\ in_tx f' c [] 1 0 /\ kept f f'.
Proof.
  intros Ht. pose proof Ht as [[_ _ (_ & Hn & _)] _ Hout Hcom]. eexists. split.
  - unfold begin_op. eapply goes_cons; [apply goes_acquire; discriminate|]. pose proof patient as Hp. destruct rounds as [|r]; [lia|]. cbn [begin_op_loop].
    eapply goes_bind; [apply goes_get_fs|]. rewrite Hn, Hout, Hcom. cbn [Z.eqb negb]. change (LOGSIZE <? Z.of_nat (length []) + (0 + 1) * MAXOPBLOCKS) with false.
    eapply goes_cons; [apply (goes_upd_log _ (set_lg_outstanding (0 + 1))) | apply goes_release; discriminate].
  - cbv beta. split; [|split; reflexivity]. pose proof (set_log_tx f c [] 0 0 (set_lg_outstanding (0 + 1) (fs_log f)) Ht eq_refl eq_refl eq_refl eq_refl) as Ht'. cbn [lg_outstanding lg_committing set_lg_outstanding] in Ht'. rewrite Hcom in Ht'. exact Ht'.
Qed.

(** The end of a transaction whose writes are in the cache. *)
Lemma end_op_spec f c bl :
  in_tx f c bl 1 0 ->
  runs end_op f (fun _ f' => cached f' (c_apply (commit_writes (lg_lh (fs_log f)) c bl) ∅ c) /\ in_log f' [] /\ lg_size (fs_log f') = nlog /\
    lg_outstanding (fs_log f') = 0 /\ lg_committing (fs_log f') = 0 /\ kept f f').
Proof.
  intros Ht. pose proof Ht as [Hr Hsz Hout Hcom]. unfold end_op. set (l1 := set_lg_committing 1 (set_lg_outstanding (1 - 1) (fs_log f))).
  pose proof (set_log_tx f c bl 1 0 l1 Ht eq_refl eq_refl eq_refl eq_refl) as Ht1.
  eapply runs_in_step; [apply goes_acquire; discriminate|]. eapply runs_in_step; [apply (goes_upd_log _ (fun l => set_lg_outstanding (lg_outstanding l - 1) l))|].
  eapply runs_in_step; [apply goes_get_fs|]. cbn [set_log fs_log set_lg_outstanding lg_committing lg_outstanding]. rewrite Hcom, Hout. cbn [Z.eqb negb Z.sub Z.add Z.opp Z.pos_sub].
  eapply runs_in_step; [eapply goes_cons; [apply (goes_upd_log _ (set_lg_committing 1)) | apply goes_ret]|]. eapply runs_in_step; [apply goes_release; discriminate|]. cbn [when].
  eapply runs_bind; [apply (commit_spec (set_log l1 f) c bl), Ht1|]. intros [] f2 (Hc2 & Hi2 & S1 & S2 & S3 & S4 & S5).
  eapply runs_in_step; [apply goes_acquire; discriminate|]. eapply runs_in_step; [apply (goes_upd_log _ (set_lg_committing 0))|].
  eapply runs_in_step; [apply goes_wakeup; discriminate|]. eapply goes_runs_in; [apply goes_release; discriminate|].
  split; [apply cached_set_log, Hc2|]. split; [exact Hi2|]. cbn. rewrite S2, S3. repeat (split; [assumption || reflexivity|]). exact S5.
Qed.

Fixpoint log_updates (ups : list (Z * (list Z -> list Z))) : K unit :=
  match ups with
  | [] => ret tt
  | (bn, g) :: ups' => log_update bn g ;; log_updates ups'
  end.
Definition transaction (ups : list (Z * (list Z -> list Z))) : K unit :=
  begin_op ;;
  log_updates ups ;;
  end_op.

(** What the transaction means: the updates, one after the other. *)
Definition apply_updates (ups : list (Z * (list Z -> list Z))) (d : Z -> list Z) : Z -> list Z :=
  foldl (fun d u => fupd d u.1 (u.2 (d u.1))) d ups.
Definition logged (ups : list (Z * (list Z -> list Z))) (bl : list Z) : list Z := foldl (fun bl u => absorb u.1 bl) bl ups.

Lemma view_dirtied bn x c : view (c_dirtied bn x c) = fupd (view c) bn x.
Proof.
  extensionality k. unfold view, c_dirtied. cbn. destruct (decide (k = bn)) as [-> | Hne]; [rewrite lookup_insert_eq, fupd_eq; reflexivity|].
  rewrite lookup_insert_ne, fupd_ne by congruence. reflexivity.
Qed.

Lemma logged_length ups bl : (length bl <= length (logged ups bl))%nat.
Proof.
  revert bl. induction ups as [|u ups IH]; intros bl; [reflexivity|]. specialize (IH (absorb u.1 bl)). unfold logged in *. cbn [foldl].
  assert (length bl <= length (absorb u.1 bl))%nat by (unfold absorb; case_decide; rewrite ?length_app; lia). lia.
Qed.

Lemma logged_bound ups : (length (logged ups []) <= length (remove_dups ups.*1))%nat.
Proof.
  assert (Hgen : forall (bl l : list Z), NoDup bl -> (forall b, b ∈ bl -> b ∈ l) -> NoDup (logged ups bl) /\ forall b, b ∈ logged ups bl -> b ∈ l \/ b ∈ ups.*1).
  { induction ups as [|u ups IH]; intros bl l Hnd Hin; [split; auto|]. destruct (IH (absorb u.1 bl) (u.1 :: l)) as [H1 H2].
    - apply absorb_nodup, Hnd.
    - intros b [-> | Hb]%absorb_elem; [left | right; auto].
    - split; [exact H1|]. intros b Hb. destruct (H2 b Hb) as [[-> | H3]%elem_of_cons | H3]; [right; left | left; exact H3 | right; right; exact H3]. }
  destruct (Hgen [] []) as [H1 H2]; [constructor | auto|]. apply submseteq_length, NoDup_submseteq; [exact H1|]. intros b Hb. apply elem_of_remove_dups.
  destruct (H2 b Hb) as [H3 | H3]; [apply not_elem_of_nil in H3; destruct H3 | exact H3].
Qed.

Lemma log_updates_spec ups f c bl :
  in_tx f c bl 1 0 -> Forall home ups.*1 -> Z.of_nat (length (logged ups bl)) + 1 < nlog ->
  runs (log_updates ups) f (fun _ f' => exists D,
    let c' := mkCache (c_disk c) (c_writes c) (c_held c) D in
    in_tx f' c' (logged ups bl) 1 0 /\ view c' = apply_updates ups (view c)).
Proof.
  revert f c bl. induction ups as [|[bn g] ups IH]; intros f c bl Ht Hh Hlen; cbn [log_updates].
  { eapply goes_runs; [apply goes_ret|]. exists (c_dirty c). destruct c. auto. }
  cbn [fmap list_fmap fst] in Hh. apply Forall_cons in Hh as [Hh Hhs].
  assert (Hb : (length bl <= length (logged ((bn, g) :: ups) bl))%nat) by apply logged_length.
  eapply runs_bind; [apply (log_update_spec bn g f c bl 0 Ht Hh); lia|]. intros [] f1 [Ht1 _].
  eapply runs_mono; [apply (IH f1 _ _ Ht1 Hhs Hlen)|]. intros _ f2 (D & Ht2 & Hv). exists D. split; [exact Ht2|].
  unfold apply_updates. cbn [foldl fst snd]. rewrite <- view_dirtied. exact Hv.
Qed.

(** The file system between system calls, with contents [d]. *)
Definition idle (f : fs_t) (d : Z -> list Z) : Prop :=
  in_tx f (mkCache d (fs_writes f) ∅ ∅) [] 0 0 /\ layout d /\ header (d L) [].

End Process.

(** ** What a crash leaves *)

Definition outside (bn : Z) : Prop := ~ (L <= bn < L + nlog).

(** A disk from which a recovery produces the contents [new]. *)
Record good (new d : Z -> list Z) (bl : list Z) : Prop := {
  go_layout : layout d;
  go_header : header (d L) bl;
  go_len : Z.of_nat (length bl) < nlog;
  go_home : Forall home bl;
  go_nodup : NoDup bl;
  go_block : length (d L) = Z.to_nat BSIZE;
  go_new bn : outside bn -> apply_writes (recover_writes d bl) d bn = new bn }.

Lemma zero_header x : length x = Z.to_nat BSIZE -> header (zero_head x) [] /\ length (zero_head x) = Z.to_nat BSIZE.
Proof.
  intros Hx. unfold zero_head. rewrite put_length. split; [|exact Hx]. split; [|intros j bn; discriminate].
  rewrite le32_put by (rewrite ?Hx; unfold BSIZE; cbn [length bytes32]; lia). rewrite <- (app_nil_r (bytes32 0)), le32_bytes32. reflexivity.
Qed.

Lemma good_empty d : layout d -> header (d L) [] -> length (d L) = Z.to_nat BSIZE -> good d d [].
Proof.
  intros H1 H2 H3. constructor; try assumption; [cbn; lia | constructor | constructor|]. intros bn Hb. apply apply_other. cbn.
  rewrite list_elem_of_singleton. unfold outside in Hb. lia.
Qed.

Lemma good_ext new new' d bl : good new d bl -> (forall bn, outside bn -> new bn = new' bn) -> good new' d bl.
Proof. intros [] E. constructor; try assumption. intros bn Hb. rewrite <- E by exact Hb. auto. Qed.

Lemma take_fst {A} k (ws : list (Z * A)) bn : bn ∈ (take k ws).*1 -> bn ∈ ws.*1.
Proof. rewrite fmap_take. intros H. eapply elem_of_submseteq; [exact H | apply submseteq_take]. Qed.

(** Writes may be repeated. *)
Lemma apply_again ws k d bn : NoDup ws.*1 -> apply_writes ws (apply_writes (take k ws) d) bn = apply_writes ws d bn.
Proof.
  intros Hnd. destruct (decide (bn ∈ ws.*1)) as [(w & -> & (j & Hj)%list_elem_of_lookup)%list_elem_of_fmap | Hno].
  - destruct w as [a x]. rewrite !(apply_lookup ws _ j a x) by assumption. reflexivity.
  - assert (bn ∉ (take k ws).*1) by (intros Hb%take_fst; contradiction). rewrite !apply_other by assumption. reflexivity.
Qed.

Lemma recover_fst d bl : (recover_writes d bl).*1 = bl ++ [L].
Proof. unfold recover_writes. rewrite fmap_app, install_fst. reflexivity. Qed.

(** A recovery may stop after any of its writes. *)
Lemma good_prefix new d bl k :
  good new d bl -> exists bl', good new (apply_writes (take k (recover_writes d bl)) d) bl'.
Proof.
  intros [Hl Hh Hlen Hhome Hnd Hblk Hnew]. set (ws := recover_writes d bl). set (d' := apply_writes (take k ws) d).
  assert (Hnin : L ∉ bl) by (apply home_not_log; [exact Hhome | lia]).
  assert (H1 : d' 1 = d 1).
  { apply apply_other. intros H%take_fst. unfold ws in H. rewrite recover_fst, elem_of_app, list_elem_of_singleton in H. destruct H as [H | H]; [|lia].
    rewrite Forall_forall in Hhome. specialize (Hhome 1 H). unfold home in Hhome. lia. }
  destruct (decide (k <= length bl)%nat) as [Hk | Hk].
  - exists bl. assert (Ek : take k ws = take k (install_writes d bl)).
    { unfold ws, recover_writes. apply take_app_le. unfold install_writes. rewrite length_zip, length_map, length_seqZ. lia. }
    assert (HL : forall bn, L <= bn < L + nlog -> d' bn = d bn).
    { intros bn Hbn. unfold d'. rewrite Ek. apply apply_other. intros H%take_fst. rewrite install_fst in H. apply (home_not_log bl bn Hhome Hbn H). }
    assert (Hws : recover_writes d' bl = ws).
    { unfold ws, recover_writes, install_writes. rewrite HL by lia. do 2 f_equal. apply map_ext_in. intros a Ha%list_elem_of_In%elem_of_seqZ. apply HL. lia. }
    constructor; try assumption; [unfold layout; rewrite H1; exact Hl | rewrite HL by lia; exact Hh | rewrite HL by lia; exact Hblk|].
    intros bn Hb. rewrite Hws. unfold d'. rewrite apply_again; [apply Hnew, Hb|]. unfold ws. rewrite recover_fst. apply NoDup_app.
    split; [exact Hnd|]. split; [intros x Hx ->%list_elem_of_singleton; contradiction | apply NoDup_singleton].
  - exists []. assert (Ek : take k ws = ws).
    { apply take_ge. unfold ws. rewrite <- (length_fmap fst), recover_fst, length_app. cbn. lia. }
    unfold d'. rewrite Ek in *. assert (HL : apply_writes ws d L = zero_head (d L)) by (unfold ws, recover_writes; rewrite apply_app; apply fupd_eq).
    destruct (zero_header (d L) Hblk) as [Hz1 Hz2]. eapply good_ext; [apply good_empty; [unfold layout; fold d'; unfold d' in H1; rewrite Ek in H1; rewrite H1; exact Hl | rewrite HL; exact Hz1 | rewrite HL; exact Hz2] | exact Hnew].
Qed.

(** A recovery that is not interrupted. *)
Lemma recover_final new d bl :
  good new d bl ->
  let d' := apply_writes (recover_writes d bl) d in
  layout d' /\ header (d' L) [] /\ length (d' L) = Z.to_nat BSIZE /\ forall bn, outside bn -> d' bn = new bn.
Proof.
  intros [Hl _ _ Hh _ Hblk Hnew]. cbn zeta. destruct (zero_header _ Hblk) as [Hz1 Hz2].
  assert (HL : apply_writes (recover_writes d bl) d L = zero_head (d L)) by (unfold recover_writes; rewrite apply_app; apply fupd_eq).
  rewrite HL. split; [|auto]. unfold layout. rewrite apply_other; [exact Hl|]. rewrite recover_fst, elem_of_app, list_elem_of_singleton. intros [H1 | H1]; [|lia].
  rewrite Forall_forall in Hh. specialize (Hh 1 H1). unfold home in Hh. lia.
Qed.

Lemma header_encode f bl hd :
  in_log f bl -> Z.of_nat (length bl) < nlog -> Forall home bl -> length hd = Z.to_nat BSIZE ->
  header (encode_head (lg_lh (fs_log f)) hd) bl /\ length (encode_head (lg_lh (fs_log f)) hd) = Z.to_nat BSIZE.
Proof.
  intros ((_ & _ & Hlen) & Hn & Hb) Hlt Hh Hhd. split; [|unfold encode_head; rewrite put_length; exact Hhd].
  assert (Htake : take (Z.to_nat (lh_n (lg_lh (fs_log f)))) (lh_block (lg_lh (fs_log f))) = bl).
  { apply list_eq. intros j. rewrite Hn, Nat2Z.id. destruct (decide (j < length bl)%nat) as [Hj | Hj].
    - rewrite lookup_take_lt by exact Hj. destruct (lookup_lt_is_Some_2 bl j Hj) as [x Hx]. rewrite Hx. apply Hb, Hx.
    - rewrite lookup_take_ge, (lookup_ge_None_2 bl) by lia. reflexivity. }
  destruct (log_header_roundtrip (lg_lh (fs_log f)) hd) as [H1 H2]; [exact Hhd | lia | rewrite Hn, Hlen; lia | |].
  { rewrite Htake. eapply Forall_impl; [exact Hh|]. unfold home, FSSIZE. lia. }
  split; [rewrite H1; exact Hn|]. intros j bn Hj. apply H2; [apply lookup_lt_Some in Hj; lia | apply Hb, Hj].
Qed.

(** The writes of a commit are those to the log and then those of a recovery. *)
Lemma commit_split pid f c bl :
  ready pid f c bl -> bl <> [] -> layout (c_disk c) -> header (c_disk c L) [] ->
  exists W, let d2 := apply_writes W (c_disk c) in
    commit_writes (lg_lh (fs_log f)) c bl = W ++ recover_writes d2 bl /\ good (view c) d2 bl /\
    forall k, (k < length W)%nat -> good (c_disk c) (apply_writes (take k W) (c_disk c)) [].
Proof.
  intros [Hc He Hi Hnd Hh Hlt Hd Hblk] Hne Hlay Hhd. set (d := c_disk c) in *. destruct (header_encode f bl (d L) Hi Hlt Hh Hblk) as [Hh1 Hh2].
  set (hd := encode_head _ (d L)) in *. set (datas := map (view c) bl). assert (Hlen : length datas = length bl) by apply length_map.
  set (W := log_writes L datas). assert (HW : W.*1 = seqZ (L + 1) (Z.of_nat (length bl))) by (unfold W; rewrite log_writes_fst, Hlen; reflexivity).
  assert (Hlen' : length W = length bl) by (rewrite <- (length_fmap fst), HW, length_seqZ; lia).
  exists (W ++ [(L, hd)]). cbn zeta. rewrite apply_app. set (d2 := apply_writes [(L, hd)] (apply_writes W d)).
  assert (Hd2 : forall bn, outside bn -> d2 bn = d bn).
  { intros bn Hb. unfold outside in Hb. unfold d2. rewrite !apply_other; [reflexivity | rewrite HW, elem_of_seqZ; lia | cbn; rewrite list_elem_of_singleton; lia]. }
  assert (E2 : recover_writes d2 bl = zip bl datas ++ [(L, zero_head hd)]).
  { unfold recover_writes, install_writes. rewrite <- Hlen. unfold d2, W. cbn [apply_writes foldl fst snd]. rewrite log_slots, fupd_eq. reflexivity. }
  assert (HdL : d2 L = hd) by apply fupd_eq. split; [|split].
  - unfold commit_writes. destruct bl; [congruence|]. rewrite E2, <- app_assoc. reflexivity.
  - constructor; rewrite ?HdL; try assumption.
    + unfold layout. rewrite Hd2 by (unfold outside; lia). exact Hlay.
    + intros bn Hb. rewrite E2, apply_app. rewrite apply_other by (cbn; rewrite list_elem_of_singleton; unfold outside in Hb; lia).
      destruct (decide (bn ∈ bl)) as [(j & Hj)%list_elem_of_lookup | Hno].
      * apply (apply_lookup _ _ j); [rewrite fst_zip by lia; exact Hnd|]. apply lookup_zip_with_Some. exists bn, (view c bn). unfold datas. rewrite list_lookup_fmap, Hj. auto.
      * rewrite apply_other by (rewrite fst_zip by lia; exact Hno). rewrite Hd2 by exact Hb. unfold view. rewrite Hd in Hno. apply eq_None_not_Some in Hno. rewrite Hno. reflexivity.
  - intros k Hk. rewrite length_app in Hk. cbn in Hk. rewrite take_app_le by lia.
    assert (Hno : forall bn, outside bn \/ bn = L -> apply_writes (take k W) d bn = d bn).
    { intros bn Hb. apply apply_other. intros H%take_fst. rewrite HW, elem_of_seqZ in H. unfold outside in Hb. lia. }
    eapply good_ext; [apply good_empty | intros bn Hb; apply Hno; auto]; rewrite ?Hno by auto; try assumption. unfold layout. rewrite Hno by (left; unfold outside; lia). exact Hlay.
Qed.

(** A commit may stop after any of its writes: the old contents come back
    before the header is written, the new ones afterwards. *)
Lemma commit_crash pid f c bl k :
  ready pid f c bl -> layout (c_disk c) -> header (c_disk c L) [] ->
  let d' := apply_writes (take k (commit_writes (lg_lh (fs_log f)) c bl)) (c_disk c) in
  exists bl', good (c_disk c) d' bl' \/ good (view c) d' bl'.
Proof.
  intros Hr Hlay Hhd. cbn zeta. destruct (decide (bl = [])) as [-> | Hne].
  { exists []. left. cbn [commit_writes]. rewrite take_nil. apply good_empty; [exact Hlay | exact Hhd | apply Hr]. }
  destruct (commit_split pid f c bl Hr Hne Hlay Hhd) as (W & E & Hgood & Hold). cbn zeta in E, Hgood. rewrite E.
  destruct (decide (k < length W)%nat) as [Hk | Hk]; [exists []; left; rewrite take_app_le by lia; apply Hold, Hk|].
  destruct (good_prefix _ _ bl (k - length W) Hgood) as [bl' Hg]. exists bl'. right. rewrite take_app, take_ge, apply_app by lia. exact Hg.
Qed.

Lemma commit_final pid f c bl :
  ready pid f c bl -> layout (c_disk c) -> header (c_disk c L) [] ->
  let d' := apply_writes (commit_writes (lg_lh (fs_log f)) c bl) (c_disk c) in
  layout d' /\ header (d' L) [] /\ length (d' L) = Z.to_nat BSIZE /\ forall bn, outside bn -> d' bn = view c bn.
Proof.
  intros Hr Hlay Hhd. cbn zeta. destruct (decide (bl = [])) as [-> | Hne].
  { split; [exact Hlay|]. split; [exact Hhd|]. split; [apply Hr|]. intros bn _. unfold view. destruct (c_dirty c !! bn) as [x|] eqn:E; [|reflexivity].
    destruct (not_elem_of_nil bn). apply Hr. eauto. }
  destruct (commit_split pid f c bl Hr Hne Hlay Hhd) as (W & E & Hgood & _). cbn zeta in E, Hgood. rewrite E, apply_app. apply recover_final, Hgood.
Qed.

(** The writes of a transaction: what they leave, all of them or some. *)
Record atomic (ws : list (Z * list Z)) (d new : Z -> list Z) : Prop := {
  at_done bn : outside bn -> apply_writes ws d bn = new bn;
  at_crash k : exists bl, good d (apply_writes (take k ws) d) bl \/ good new (apply_writes (take k ws) d) bl }.

Lemma transaction_spec i pid ups f d :
  idle pid f d -> Forall home ups.*1 -> Z.of_nat (length (remove_dups ups.*1)) + 1 < nlog ->
  runs i pid (transaction ups) f (fun _ f' => exists ws,
    idle pid f' (apply_writes ws d) /\ fs_writes f' = rev (tagged ws) ++ fs_writes f /\ atomic ws d (apply_updates ups d)).
Proof.
  intros (Ht & Hlay & Hhd) Hh Hlen. destruct (begin_op_spec i pid f _ Ht) as (f1 & Hgo & Ht1 & _). unfold transaction. eapply runs_step; [exact Hgo|].
  pose proof (logged_bound ups) as Hb. eapply runs_bind; [apply (log_updates_spec i pid ups f1 _ [] Ht1 Hh); lia|]. intros [] f2 (D & Ht2 & Hv). cbn zeta in Ht2, Hv.
  cbn [c_disk c_writes c_held] in Ht2, Hv. set (c := mkCache d (fs_writes f) ∅ D) in *. pose proof Ht2 as [Hr2 _ _ _].
  change (view (mkCache d (fs_writes f) ∅ ∅)) with (fun bn => default (d bn) ((∅ : gmap Z (list Z)) !! bn)) in Hv.
  assert (Hv' : view c = apply_updates ups d) by (rewrite Hv; f_equal; extensionality bn; rewrite lookup_empty; reflexivity).
  eapply runs_mono; [apply (end_op_spec i pid f2 c _ Ht2)|]. intros _ f3 (Hc3 & Hi3 & Hsz3 & Hout3 & Hcom3 & _).
  set (ws := commit_writes _ _ _) in Hc3. destruct (commit_final pid f2 c _ Hr2 Hlay Hhd) as (Hf1 & Hf2 & Hf3 & Hf4). cbn zeta in Hf1, Hf2, Hf3, Hf4. fold ws in Hf1, Hf2, Hf3, Hf4.
  exists ws. rewrite (ca_writes _ _ _ _ Hc3). split; [|split; [reflexivity|]].
  - split; [|split; [exact Hf1 | exact Hf2]]. constructor; try assumption. constructor; try assumption; try reflexivity; [| constructor | constructor | cbn; lia|].
    + rewrite (ca_writes _ _ _ _ Hc3). exact Hc3.
    + intros bn. cbn. rewrite lookup_empty. split; [intros []%not_elem_of_nil | intros [? [=]]].
  - rewrite <- Hv'. constructor; [exact Hf4|]. intros k. exact (commit_crash pid f2 c _ k Hr2 Hlay Hhd).
Qed.
End Log.
