(* ===== verification/Fs.v ===== *)
(** * solution/fs.c: blocks, inodes, directories, path names

    The operations of fs.c over the buffer cache and the log.  A file's
    contents travel as lists of bytes: [readi] returns the bytes it copies to
    its destination, [writei] takes the bytes at its source.  A path and a
    path element are the bytes of a C string without the terminating NUL. *)

From Stdlib Require Import ZArith Lia FunctionalExtensionality.
From stdpp Require Import base list strings gmap.
From S2P Require Import Prelude Mem Mmu Kernel Spinlock Kalloc Vm VmFacts Sched Bio Log.

(** ** fs.h, stat.h *)

Definition ROOTINO : Z := 1.
Definition NDIRECT : nat := 12.
Definition NINDIRECT : nat := 128.
Definition MAXFILE : Z := Z.of_nat NDIRECT + Z.of_nat NINDIRECT.
Definition DINODE_SIZE : Z := 64.
Definition IPB : Z := BSIZE / DINODE_SIZE.
Definition IBLOCK (i : Z) (sb : superblock) : Z := w32 (i / IPB + sb_inodestart sb).
Definition BPB : Z := BSIZE * 8.
Definition BBLOCK (b : Z) (sb : superblock) : Z := w32 (b / BPB + sb_bmapstart sb).
Definition DIRSIZ : nat := 14.
Definition DIRENT_SIZE : Z := 16.
Definition T_DIR : Z := 1.
Definition T_FILE : Z := 2.
Definition T_DEV : Z := 3.

Definition s16 (x : Z) : Z := let y := x mod 65536 in if y <? 32768 then y else y - 65536.

Record dinode : Type := mkDinode {
  d_type : Z; d_major : Z; d_minor : Z; d_nlink : Z; d_size : Z; d_addrs : list Z }.

(** The inode at byte offset [o] of a block. *)
Definition decode_dinode (l : list Z) (o : nat) : dinode :=
  mkDinode (s16 (le16 l o)) (s16 (le16 l (o + 2))) (s16 (le16 l (o + 4))) (s16 (le16 l (o + 6)))
    (le32 l (o + 8)) (map (fun k => le32 l (o + 12 + 4 * k)) (seq 0 (S NDIRECT))).
Definition encode_dinode (d : dinode) : list Z :=
  bytes16 (d_type d) ++ bytes16 (d_major d) ++ bytes16 (d_minor d) ++ bytes16 (d_nlink d) ++
  bytes32 (d_size d) ++ mjoin (map bytes32 (d_addrs d)).
Definition inode_off (inum : Z) : nat := Z.to_nat (inum mod IPB * DINODE_SIZE).

Record dirent : Type := mkDirent { de_inum : Z; de_name : list Z }.
Definition decode_dirent (l : list Z) : dirent := mkDirent (le16 l 0) (take DIRSIZ (drop 2 l)).
Definition encode_dirent (d : dirent) : list Z := bytes16 (de_inum d) ++ de_name d.

Record stat : Type := mkStat { st_type : Z; st_dev : Z; st_ino : Z; st_nlink : Z; st_size : Z }.

(** ** Blocks *)

Definition bzero `{Rounds} (dev bno : Z) : K unit :=
  let! bp := bread dev (w32 bno) in
  upd_buf bp (set_b_data (replicate (Z.to_nat BSIZE) 0)) ;;
  log_write bp ;;
  brelse bp.

Definition bit_mask (bi : Z) : Z := Z.shiftl 1 (bi mod 8).
Definition bit_byte (bi : Z) : nat := Z.to_nat (bi / 8).

(** The inner loop of [balloc]: the first clear bit from [bi] on, among [n]
    bits, of a block [b + bi] below [size]. *)
Fixpoint balloc_scan (data : list Z) (b size bi : Z) (n : nat) : option Z :=
  match n with
  | O => None
  | S n' =>
      if b + bi <? size then
        if Z.land (byte_at data (bit_byte bi)) (bit_mask bi) =? 0 then Some bi
        else balloc_scan data b size (bi + 1) n'
      else None
  end.

Fixpoint balloc_loop `{Rounds} (dev b : Z) (fuel : nat) : K Z :=
  match fuel with
  | O => nofuel
  | S f =>
      let! sb := get_fs fs_sb in
      if b <? sb_size sb then
        let! bp := bread dev (BBLOCK b sb) in
        let! x := get_buf bp in
        match balloc_scan (b_data x) b (sb_size sb) 0 (Z.to_nat BPB) with
        | Some bi =>
            let c := Z.lor (byte_at (b_data x) (bit_byte bi)) (bit_mask bi) in
            upd_buf bp (set_b_data (put (bit_byte bi) [c] (b_data x))) ;;
            log_write bp ;;
            brelse bp ;;
            bzero dev (b + bi) ;;
            ret (b + bi)
        | None => brelse bp ;; balloc_loop dev (b + BPB) f
        end
      else panic "balloc: out of blocks"
  end.
(** One bitmap block per [BPB] blocks of the file system. *)
Definition balloc `{Rounds} (dev : Z) : K Z :=
  let! sb := get_fs fs_sb in
  balloc_loop dev 0 (S (S (Z.to_nat (sb_size sb / BPB)))).

Definition bfree `{Rounds} (dev b : Z) : K unit :=
  let! sb := get_fs fs_sb in
  let! bp := bread dev (BBLOCK b sb) in
  let bi := b mod BPB in
  let m := bit_mask bi in
  let! x := get_buf bp in
  let c := byte_at (b_data x) (bit_byte bi) in
  if Z.land c m =? 0 then panic "freeing free block"
  else
    upd_buf bp (set_b_data (put (bit_byte bi) [Z.land c (Z.lnot m)] (b_data x))) ;;
    log_write bp ;;
    brelse bp.

(** ** Inodes *)

Fixpoint iinit_loop (i n : nat) : K unit :=
  match n with
  | O => ret tt
  | S n' => initsleeplock (LInode i) "inode" ;; iinit_loop (S i) n'
  end.
(** The numbers the message prints are not part of the model of the console. *)
Definition iinit `{Rounds} (dev : Z) : K unit :=
  initlock LIcache "icache" ;;
  iinit_loop 0 NINODE ;;
  let! sb := readsb dev in
  upd_fs (set_sb sb) ;;
  cprintf "sb: size %d nblocks %d ninodes %d nlog %d logstart %d inodestart %d bmap start %d\n".

(** The search of [iget] over entries [i] on: the entry for the inode, or the
    first empty entry. *)
Fixpoint iget_scan (dev inum : Z) (inos : list inode) (i : nat) (empty : option nat) : (nat + option nat) :=
  match inos with
  | [] => inr empty
  | ip :: inos' =>
      if (0 <? i_ref ip) && (i_dev ip =? dev) && (i_inum ip =? inum) then inl i
      else
        let empty' := match empty with
                      | None => if i_ref ip =? 0 then Some i else None
                      | Some _ => empty
                      end in
        iget_scan dev inum inos' (S i) empty'
  end.

Definition iget (dev inum : Z) : K nat :=
  acquire LIcache ;;
  let! inos := get_fs fs_inodes in
  match iget_scan dev inum inos 0 None with
  | inl i =>
      upd_inode i (fun ip => set_i_ref (i_ref ip + 1) ip) ;;
      release LIcache ;;
      ret i
  | inr None => panic "iget: no inodes"
  | inr (Some i) =>
      upd_inode i (set_i_dev dev) ;;
      upd_inode i (set_i_inum inum) ;;
      upd_inode i (set_i_ref 1) ;;
      upd_inode i (set_i_valid 0) ;;
      release LIcache ;;
      ret i
  end.

(** [ialloc] tries [n] inode numbers from [inum] on. *)
Fixpoint ialloc_loop `{Rounds} (dev type inum : Z) (n : nat) : K nat :=
  match n with
  | O => panic "ialloc: no inodes"
  | S n' =>
      let! sb := get_fs fs_sb in
      let! bp := bread dev (IBLOCK inum sb) in
      let! x := get_buf bp in
      let o := inode_off inum in
      if d_type (decode_dinode (b_data x) o) =? 0 then
        upd_buf bp (set_b_data
          (put o (encode_dinode (mkDinode type 0 0 0 0 (replicate (S NDIRECT) 0))) (b_data x))) ;;
        log_write bp ;;
        brelse bp ;;
        iget dev inum
      else
        brelse bp ;;
        ialloc_loop dev type (inum + 1) n'
  end.
Definition ialloc `{Rounds} (dev type : Z) : K nat :=
  let! sb := get_fs fs_sb in
  ialloc_loop dev type 1 (Z.to_nat (sb_ninodes sb - 1)).

Definition iupdate `{Rounds} (i : nat) : K unit :=
  let! ip := get_inode i in
  let! sb := get_fs fs_sb in
  let! bp := bread (i_dev ip) (IBLOCK (i_inum ip) sb) in
  let! ip := get_inode i in
  let d := mkDinode (i_type ip) (i_major ip) (i_minor ip) (i_nlink ip) (i_size ip) (i_addrs ip) in
  upd_buf bp (fun x => set_b_data (put (inode_off (i_inum ip)) (encode_dinode d) (b_data x)) x) ;;
  log_write bp ;;
  brelse bp.

Definition idup (i : nat) : K nat :=
  acquire LIcache ;;
  upd_inode i (fun ip => set_i_ref (i_ref ip + 1) ip) ;;
  release LIcache ;;
  ret i.

Definition ilock `{Rounds} (i : nat) : K unit :=
  let! ip := get_inode i in
  if i_ref ip <? 1 then panic "ilock"
  else
    acquiresleep (LInode i) ;;
    let! ip := get_inode i in
    when (i_valid ip =? 0)
      (let! sb := get_fs fs_sb in
       let! bp := bread (i_dev ip) (IBLOCK (i_inum ip) sb) in
       let! x := get_buf bp in
       let d := decode_dinode (b_data x) (inode_off (i_inum ip)) in
       upd_inode i (fun ip =>
         set_i_addrs (d_addrs d) (set_i_size (d_size d) (set_i_nlink (d_nlink d)
           (set_i_minor (d_minor d) (set_i_major (d_major d) (set_i_type (d_type d) ip)))))) ;;
       brelse bp ;;
       upd_inode i (set_i_valid 1) ;;
       let! ip := get_inode i in
       when (i_type ip =? 0) (panic "ilock: no type")).

Definition iunlock (i : nat) : K unit :=
  let! h := holdingsleep (LInode i) in
  let! ip := get_inode i in
  if negb h || (i_ref ip <? 1) then panic "iunlock"
  else releasesleep (LInode i).

(** ** Contents *)

Definition set_addr (i : nat) (k : nat) (a : Z) : K unit :=
  upd_inode i (fun ip => set_i_addrs (<[k := a]> (i_addrs ip)) ip).

Definition bmap `{Rounds} (i : nat) (bn : Z) : K Z :=
  let! ip := get_inode i in
  if bn <? Z.of_nat NDIRECT then
    let k := Z.to_nat bn in
    let addr := byte_at (i_addrs ip) k in
    if addr =? 0 then
      let! addr := balloc (i_dev ip) in
      set_addr i k addr ;;
      ret addr
    else ret addr
  else
    let bn := bn - Z.of_nat NDIRECT in
    if bn <? Z.of_nat NINDIRECT then
      let addr := byte_at (i_addrs ip) NDIRECT in
      let! addr :=
        (if addr =? 0 then
           let! addr := balloc (i_dev ip) in
           set_addr i NDIRECT addr ;;
           ret addr
         else ret addr) in
      let! bp := bread (i_dev ip) addr in
      let! x := get_buf bp in
      let o := Z.to_nat (4 * bn) in
      let addr := le32 (b_data x) o in
      let! addr :=
        (if addr =? 0 then
           let! addr := balloc (i_dev ip) in
           upd_buf bp (fun x => set_b_data (put o (bytes32 addr) (b_data x)) x) ;;
           log_write bp ;;
           ret addr
         else ret addr) in
      brelse bp ;;
      ret addr
    else panic "bmap: out of range".

(** The two loops of [itrunc], from entry [k] on. *)
Fixpoint itrunc_direct `{Rounds} (i k n : nat) : K unit :=
  match n with
  | O => ret tt
  | S n' =>
      let! ip := get_inode i in
      when (negb (byte_at (i_addrs ip) k =? 0))
        (bfree (i_dev ip) (byte_at (i_addrs ip) k) ;;
         set_addr i k 0) ;;
      itrunc_direct i (S k) n'
  end.
Fixpoint itrunc_indirect `{Rounds} (dev : Z) (bp : nat) (j n : nat) : K unit :=
  match n with
  | O => ret tt
  | S n' =>
      let! x := get_buf bp in
      let a := le32 (b_data x) (4 * j) in
      when (negb (a =? 0)) (bfree dev a) ;;
      itrunc_indirect dev bp (S j) n'
  end.
Definition itrunc `{Rounds} (i : nat) : K unit :=
  itrunc_direct i 0 NDIRECT ;;
  let! ip := get_inode i in
  let a := byte_at (i_addrs ip) NDIRECT in
  when (negb (a =? 0))
    (let! bp := bread (i_dev ip) a in
     itrunc_indirect (i_dev ip) bp 0 NINDIRECT ;;
     brelse bp ;;
     bfree (i_dev ip) a ;;
     set_addr i NDIRECT 0) ;;
  upd_inode i (set_i_size 0) ;;
  iupdate i.

Definition iput `{Rounds} (i : nat) : K unit :=
  acquiresleep (LInode i) ;;
  let! ip := get_inode i in
  when (negb (i_valid ip =? 0) && (i_nlink ip =? 0))
    (acquire LIcache ;;
     let! ip := get_inode i in
     let r := i_ref ip in
     release LIcache ;;
     when (r =? 1)
       (itrunc i ;;
        upd_inode i (set_i_type 0) ;;
        iupdate i ;;
        upd_inode i (set_i_valid 0))) ;;
  releasesleep (LInode i) ;;
  acquire LIcache ;;
  upd_inode i (fun ip => set_i_ref (i_ref ip - 1) ip) ;;
  release LIcache.

Definition iunlockput `{Rounds} (i : nat) : K unit :=
  iunlock i ;;
  iput i.

Definition stati (i : nat) : K stat :=
  let! ip := get_inode i in
  ret (mkStat (i_type ip) (i_dev ip) (i_inum ip) (i_nlink ip) (i_size ip)).

(** The device switch: [devsw[major].read] and [.write] of console.c.  They
    are defined after the file system, so they are arguments here. *)
Record devsw_t : Type := mkDevsw {
  dev_read : Z -> option (nat -> Z -> K (option (list Z)));
  dev_write : Z -> option (nat -> list Z -> K Z) }.

(** The bytes read, or [None] for the result -1. *)
Fixpoint readi_loop `{Rounds} (i : nat) (off n : Z) (fuel : nat) : K (list Z) :=
  match fuel with
  | O => nofuel
  | S f =>
      if 0 <? n then
        let! ip := get_inode i in
        let! bno := bmap i (off / BSIZE) in
        let! bp := bread (i_dev ip) bno in
        let m := Z.min n (BSIZE - off mod BSIZE) in
        let! x := get_buf bp in
        let bs := take (Z.to_nat m) (drop (Z.to_nat (off mod BSIZE)) (b_data x)) in
        brelse bp ;;
        let! rest := readi_loop i (w32 (off + m)) (n - m) f in
        ret (bs ++ rest)
      else ret []
  end.

Definition io_fuel (n : Z) : nat := S (S (S (Z.to_nat (n / BSIZE)))).

Definition readi `{Rounds} (dv : devsw_t) (i : nat) (off n : Z) : K (option (list Z)) :=
  let! ip := get_inode i in
  if i_type ip =? T_DEV then
    if (i_major ip <? 0) || (NDEV <=? i_major ip) then ret None
    else match dev_read dv (i_major ip) with
         | None => ret None
         | Some rd => rd i n
         end
  else if (i_size ip <? off) || (w32 (off + n) <? off) then ret None
  else
    let n := if i_size ip <? w32 (off + n) then i_size ip - off else n in
    let! bs := readi_loop i off n (io_fuel n) in
    ret (Some bs).

Fixpoint writei_loop `{Rounds} (i : nat) (src : list Z) (off n : Z) (fuel : nat) : K Z :=
  match fuel with
  | O => nofuel
  | S f =>
      if 0 <? n then
        let! ip := get_inode i in
        let! bno := bmap i (off / BSIZE) in
        let! bp := bread (i_dev ip) bno in
        let m := Z.min n (BSIZE - off mod BSIZE) in
        upd_buf bp (fun x => set_b_data
          (put (Z.to_nat (off mod BSIZE)) (take (Z.to_nat m) src) (b_data x)) x) ;;
        log_write bp ;;
        brelse bp ;;
        writei_loop i (drop (Z.to_nat m) src) (w32 (off + m)) (n - m) f
      else ret off
  end.

(** [n] bytes at [src]; the result is [n] or -1. *)
Definition writei `{Rounds} (dv : devsw_t) (i : nat) (src : list Z) (off n : Z) : K Z :=
  let! ip := get_inode i in
  if i_type ip =? T_DEV then
    if (i_major ip <? 0) || (NDEV <=? i_major ip) then ret (-1)
    else match dev_write dv (i_major ip) with
         | None => ret (-1)
         | Some wr => wr i src
         end
  else if (i_size ip <? off) || (w32 (off + n) <? off) then ret (-1)
  else if MAXFILE * BSIZE <? w32 (off + n) then ret (-1)
  else
    let! off' := writei_loop i src off n (io_fuel n) in
    let! ip := get_inode i in
    when ((0 <? n) && (i_size ip <? off'))
      (upd_inode i (set_i_size off') ;;
       iupdate i) ;;
    ret n.

(** ** Directories *)

(** strncmp on the bytes of two C strings. *)
Fixpoint strncmp_bytes (p q : list Z) (n : nat) : Z :=
  match n with
  | O => 0
  | S n' =>
      let c := hd 0 p in
      let d := hd 0 q in
      if negb (c =? 0) && (c =? d) then strncmp_bytes (tl p) (tl q) n' else c - d
  end.
Definition namecmp (s t : list Z) : Z := strncmp_bytes s t DIRSIZ.

(** strncpy into a field of [n] bytes. *)
Fixpoint strncpy_bytes (s : list Z) (n : nat) : list Z :=
  match n with
  | O => []
  | S n' =>
      match s with
      | [] => 0 :: strncpy_bytes [] n'
      | c :: s' => if c =? 0 then 0 :: strncpy_bytes [] n' else c :: strncpy_bytes s' n'
      end
  end.

Definition read_dirent `{Rounds} (dv : devsw_t) (dp : nat) (off : Z) (msg : string) : K dirent :=
  let! r := readi dv dp off DIRENT_SIZE in
  match r with
  | Some bs =>
      if Z.of_nat (length bs) =? DIRENT_SIZE then ret (decode_dirent bs) else panic msg
  | None => panic msg
  end.

Fixpoint dirlookup_loop `{Rounds} (dv : devsw_t) (dp : nat) (name : list Z) (off : Z) (fuel : nat)
    : K (option (nat * Z)) :=
  match fuel with
  | O => nofuel
  | S f =>
      let! ip := get_inode dp in
      if off <? i_size ip then
        let! de := read_dirent dv dp off "dirlookup read" in
        if de_inum de =? 0 then dirlookup_loop dv dp name (w32 (off + DIRENT_SIZE)) f
        else if namecmp name (de_name de) =? 0 then
          let! ip' := iget (i_dev ip) (de_inum de) in
          ret (Some (ip', off))
        else dirlookup_loop dv dp name (w32 (off + DIRENT_SIZE)) f
      else ret None
  end.
Definition dir_fuel (size : Z) : nat := S (S (Z.to_nat (size / DIRENT_SIZE))).

(** The inode and the offset of its entry. *)
Definition dirlookup `{Rounds} (dv : devsw_t) (dp : nat) (name : list Z) : K (option (nat * Z)) :=
  let! ip := get_inode dp in
  if negb (i_type ip =? T_DIR) then panic "dirlookup not DIR"
  else dirlookup_loop dv dp name 0 (dir_fuel (i_size ip)).

Fixpoint dirlink_loop `{Rounds} (dv : devsw_t) (dp : nat) (off : Z) (fuel : nat) : K Z :=
  match fuel with
  | O => nofuel
  | S f =>
      let! ip := get_inode dp in
      if off <? i_size ip then
        let! de := read_dirent dv dp off "dirlink read" in
        if de_inum de =? 0 then ret off
        else dirlink_loop dv dp (off + DIRENT_SIZE) f
      else ret off
  end.

Definition dirlink `{Rounds} (dv : devsw_t) (dp : nat) (name : list Z) (inum : Z) : K Z :=
  let! r := dirlookup dv dp name in
  match r with
  | Some (ip, _) => iput ip ;; ret (-1)
  | None =>
      let! ip := get_inode dp in
      let! off := dirlink_loop dv dp 0 (dir_fuel (i_size ip)) in
      let de := mkDirent (inum mod 65536) (strncpy_bytes name DIRSIZ) in
      let! r := writei dv dp (encode_dirent de) off DIRENT_SIZE in
      if negb (r =? DIRENT_SIZE) then panic "dirlink" else ret 0
  end.

(** ** Paths *)

Definition slash : Z := 47.
Fixpoint skip_slashes (path : list Z) : list Z :=
  match path with
  | c :: path' => if c =? slash then skip_slashes path' else path
  | [] => []
  end.
(** The bytes up to the next slash, and the rest. *)
Fixpoint split_elem (path : list Z) : list Z * list Z :=
  match path with
  | c :: path' =>
      if c =? slash then ([], path)
      else let '(s, rest) := split_elem path' in (c :: s, rest)
  | [] => ([], [])
  end.
(** The rest of the path and the element, cut to DIRSIZ bytes. *)
Definition skipelem (path : list Z) : option (list Z * list Z) :=
  match skip_slashes path with
  | [] => None
  | path' =>
      let '(s, rest) := split_elem path' in
      Some (skip_slashes rest, take DIRSIZ s)
  end.

(** The loop of [namex]; the result with [nameiparent] also has the last
    element.  Every iteration removes an element from the path. *)
Fixpoint namex_loop `{Rounds} (dv : devsw_t) (ip : nat) (path : list Z) (parent : bool)
    (name : list Z) (fuel : nat) : K (option (nat * list Z)) :=
  match fuel with
  | O => nofuel
  | S f =>
      match skipelem path with
      | None =>
          if parent then iput ip ;; ret None else ret (Some (ip, name))
      | Some (path', name') =>
          ilock ip ;;
          let! x := get_inode ip in
          if negb (i_type x =? T_DIR) then iunlockput ip ;; ret None
          else if parent && bool_decide (path' = []) then
            iunlock ip ;;
            ret (Some (ip, name'))
          else
            let! r := dirlookup dv ip name' in
            match r with
            | None => iunlockput ip ;; ret None
            | Some (next, _) =>
                iunlockput ip ;;
                namex_loop dv next path' parent name' f
            end
      end
  end.

Definition namex `{Rounds} (dv : devsw_t) (path : list Z) (parent : bool) : K (option (nat * list Z)) :=
  let! ip :=
    (if decide (head path = Some slash) then iget ROOTDEV ROOTINO
     else
       let! cur := myproc in
       let! i := deref cur in
       let! p := get_proc i in
       let! c := deref (p_cwd p) in
       idup c) in
  namex_loop dv ip path parent [] (S (length path)).

Definition namei `{Rounds} (dv : devsw_t) (path : list Z) : K (option nat) :=
  let! r := namex dv path false in
  ret (fst <$> r).
Definition nameiparent `{Rounds} (dv : devsw_t) (path : list Z) : K (option (nat * list Z)) :=
  namex dv path true.

(** ** Round trips *)

Record dinode_ok (d : dinode) : Prop := {
  dk_type : -32768 <= d_type d < 32768;
  dk_major : -32768 <= d_major d < 32768;
  dk_minor : -32768 <= d_minor d < 32768;
  dk_nlink : -32768 <= d_nlink d < 32768;
  dk_size : u32 (d_size d);
  dk_len : length (d_addrs d) = S NDIRECT;
  dk_addrs : Forall u32 (d_addrs d) }.

Lemma s16_mod x : -32768 <= x < 32768 -> s16 (x mod 65536) = x.
Proof.
  intros Hx. unfold s16. rewrite Z.mod_mod by lia. destruct (Z_lt_le_dec x 0).
  - rewrite <- (Z_mod_plus_full x 1), Z.mod_small by lia. zcase.
  - rewrite Z.mod_small by lia. zcase.
Qed.

Lemma encode_dinode_length d : length (d_addrs d) = S NDIRECT -> length (encode_dinode d) = 64%nat.
Proof.
  intros H. unfold encode_dinode. rewrite !length_app, words_length, H. reflexivity.
Qed.

Lemma encode_dinode_fields d :
  let l := encode_dinode d in
  le16 l 0 = d_type d mod 65536 /\ le16 l 2 = d_major d mod 65536 /\ le16 l 4 = d_minor d mod 65536 /\
  le16 l 6 = d_nlink d mod 65536 /\ le32 l 8 = w32 (d_size d) /\
  forall k w, d_addrs d !! k = Some w -> le32 l (12 + 4 * k) = w32 w.
Proof.
  unfold encode_dinode. cbv zeta. split; [apply le16_bytes16|].
  split; [rewrite le16_app_r by (cbn; lia); apply le16_bytes16|].
  split; [do 2 rewrite le16_app_r by (cbn; lia); apply le16_bytes16|].
  split; [do 3 rewrite le16_app_r by (cbn; lia); apply le16_bytes16|].
  split; [do 4 rewrite le32_app_r by (cbn; lia); apply le32_bytes32|].
  intros k w Hw. do 5 rewrite le32_app_r by (cbn; lia). cbn [length bytes16 bytes32].
  replace (12 + 4 * k - 2 - 2 - 2 - 2 - 4)%nat with (4 * k)%nat by lia.
  rewrite <- (app_nil_r (mjoin _)). apply le32_words, Hw.
Qed.

(** fs.c, [iupdate] and [ilock]; fs.h, struct dinode: an inode is read
    back from its block as it was written.  Storing an in-memory inode at its
    place in a block and loading it again gives the same type, device numbers,
    link count, size and block addresses, and every other inode of the block
    reads as before. *)
Lemma inode_roundtrip d data inum inum' :
  length data = Z.to_nat BSIZE -> dinode_ok d -> 0 <= inum -> 0 <= inum' ->
  decode_dinode (put (inode_off inum) (encode_dinode d) data) (inode_off inum) = d /\
  (inum mod IPB <> inum' mod IPB ->
   decode_dinode (put (inode_off inum) (encode_dinode d) data) (inode_off inum') =
   decode_dinode data (inode_off inum')).
Proof.
  intros Hd [H1 H2 H3 H4 H5 H6 H7] Hi Hi'. pose proof (encode_dinode_length d H6) as Hlen.
  assert (Ho : forall n, 0 <= n -> (inode_off n = 64 * Z.to_nat (n mod 8))%nat /\ 0 <= n mod 8 < 8).
  { intros n Hn. change (inode_off n) with (Z.to_nat (n mod 8 * 64)).
    pose proof (Z.mod_pos_bound n 8 ltac:(lia)). lia. }
  destruct (Ho inum Hi) as [Eo Ho1], (Ho inum' Hi') as [Eo' Ho1'].
  change (Z.to_nat BSIZE) with 512%nat in Hd. change IPB with 8.
  generalize dependent (inode_off inum). generalize dependent (inode_off inum'). intros o' Eo' o Eo.
  destruct (encode_dinode_fields d) as (F1 & F2 & F3 & F4 & F5 & F6). unfold decode_dinode. split.
  - rewrite !le16_put, !le32_put by lia.
    replace (map _ (seq 0 (S NDIRECT))) with (d_addrs d).
    + replace (o - o)%nat with 0%nat by lia. replace (o + 2 - o)%nat with 2%nat by lia.
      replace (o + 4 - o)%nat with 4%nat by lia. replace (o + 6 - o)%nat with 6%nat by lia.
      replace (o + 8 - o)%nat with 8%nat by lia. rewrite F1, F2, F3, F4, F5.
      rewrite w32_small, !s16_mod by assumption. destruct d; reflexivity.
    + apply list_eq. intros k. destruct (decide (k < 13)%nat) as [Hk | Hk].
      * destruct (lookup_lt_is_Some_2 (d_addrs d) k) as [w Hw]; [rewrite H6; exact Hk|].
        change (map ?f ?l) with (f <$> l). rewrite Hw, list_lookup_fmap, lookup_seq_lt by exact Hk.
        cbn [fmap option_fmap option_map]. f_equal. rewrite le32_put by lia.
        replace (o + 12 + 4 * (0 + k) - o)%nat with (12 + 4 * k)%nat by lia. rewrite (F6 k w Hw).
        symmetry. apply w32_small. rewrite Forall_lookup in H7. eapply H7, Hw.
      * rewrite !lookup_ge_None_2; [reflexivity | rewrite length_map, length_seq; unfold NDIRECT; lia | rewrite H6; unfold NDIRECT; lia].
  - intros Hne. rewrite !le16_put_off, !le32_put_off by lia. f_equal.
    apply map_ext_in. intros k Hk%in_seq. unfold NDIRECT in Hk. apply le32_put_off; lia.
Qed.

(** The elements of a path: the maximal runs of bytes other than slashes. *)
Fixpoint elems (path cur : list Z) : list (list Z) :=
  match path with
  | [] => if decide (cur = []) then [] else [cur]
  | c :: path' =>
      if c =? slash then (if decide (cur = []) then [] else [cur]) ++ elems path' []
      else elems path' (cur ++ [c])
  end.

Lemma elems_skip path : elems (skip_slashes path) [] = elems path [].
Proof.
  induction path as [|c path IH]; [reflexivity|]. cbn. destruct (c =? slash) eqn:E; [exact IH|].
  cbn. rewrite E. reflexivity.
Qed.

Lemma skip_slashes_head path : head (skip_slashes path) <> Some slash.
Proof.
  induction path as [|c path IH]; [discriminate|]. cbn. destruct (Z.eqb_spec c slash) as [-> | Hne]; [exact IH|].
  cbn. congruence.
Qed.

Lemma skip_slashes_length path : (length (skip_slashes path) <= length path)%nat.
Proof. induction path as [|c path IH]; cbn; [lia|]. destruct (c =? slash); cbn; lia. Qed.

Lemma split_elem_spec path : forall cur s rest,
  split_elem path = (s, rest) ->
  path = s ++ rest /\ (slash ∉ s) /\
  elems path cur = (if decide (cur ++ s = []) then [] else [cur ++ s]) ++ elems rest [].
Proof.
  induction path as [|c path IH]; intros cur s rest; cbn [split_elem elems].
  - intros E. injection E as <- <-. split; [reflexivity|]. split; [apply not_elem_of_nil|].
    rewrite app_nil_r. cbn [elems]. destruct (decide (@nil Z = [])); [|congruence]. rewrite app_nil_r. reflexivity.
  - destruct (Z.eqb_spec c slash) as [-> | Hne].
    + intros E. injection E as <- <-. split; [reflexivity|]. split; [apply not_elem_of_nil|].
      rewrite app_nil_r. cbn [elems]. rewrite Z.eqb_refl. reflexivity.
    + destruct (split_elem path) as [s' rest'] eqn:Es. intros E. injection E as <- <-.
      destruct (IH (cur ++ [c]) s' rest' eq_refl) as (E1 & E2 & E3). split; [cbn; congruence|].
      split; [apply not_elem_of_cons; split; [congruence | exact E2]|].
      rewrite E3, <- app_assoc. reflexivity.
Qed.

(** Path parsing: [skipelem] fails exactly on paths
    with no element.  Otherwise it returns the first element, cut to DIRSIZ
    bytes, and a path that has no leading slash, has exactly the remaining
    elements, and is shorter, so that the loop of [namex] ends. *)
Lemma skipelem_next path :
  match skipelem path with
  | None => elems path [] = []
  | Some (rest, name) =>
      exists e, elems path [] = e :: elems rest [] /\ name = take DIRSIZ e /\ e <> [] /\ (slash ∉ e) /\
        head rest <> Some slash /\ (length rest < length path)%nat
  end.
Proof.
  unfold skipelem. pose proof (elems_skip path) as He. pose proof (skip_slashes_head path) as Hh.
  pose proof (skip_slashes_length path) as Hl.
  destruct (skip_slashes path) as [|c p]; [symmetry; exact He|].
  destruct (split_elem (c :: p)) as [s rest] eqn:Es.
  destruct (split_elem_spec (c :: p) [] s rest Es) as (E1 & E2 & E3). cbn [app] in E3.
  assert (s <> []) as Hs.
  { intros ->. cbn in Es. destruct (Z.eqb_spec c slash) as [-> | Hne]; [apply Hh; reflexivity|].
    destruct (split_elem p). discriminate Es. }
  exists s. rewrite <- He, E3, decide_False by exact Hs. rewrite elems_skip. split; [reflexivity|].
  split; [reflexivity|]. split; [exact Hs|]. split; [exact E2|]. split; [apply skip_slashes_head|].
  pose proof (skip_slashes_length rest). apply (f_equal length) in E1. rewrite length_app in E1.
  destruct s; [congruence|]. cbn in *. lia.
Qed.

Lemma inode_roundtrip_witness :
  decode_dinode (put (inode_off 11) (encode_dinode (mkDinode 2 0 0 (-1) 700 (replicate 13 77))) (replicate 512 1))
    (inode_off 11) = mkDinode 2 0 0 (-1) 700 (replicate 13 77).
Proof.
  apply (inode_roundtrip (mkDinode 2 0 0 (-1) 700 (replicate 13 77)) (replicate 512 1) 11 12); try reflexivity; try lia.
  constructor; cbn; try lia; try reflexivity; [unfold u32; lia|].
  repeat (constructor; [unfold u32; lia|]). constructor.
Defined.

(** ** The inode cache *)

(** At most one entry in use per inode. *)
Record icache_ok (inos : list inode) : Prop := {
  ic_ref a x : inos !! a = Some x -> 0 <= i_ref x;
  ic_unique a b x y : inos !! a = Some x -> inos !! b = Some y -> 0 < i_ref x -> 0 < i_ref y ->
    i_dev x = i_dev y -> i_inum x = i_inum y -> a = b }.

Definition is_entry (dev inum : Z) (x : inode) : Prop := 0 < i_ref x /\ i_dev x = dev /\ i_inum x = inum.

Lemma is_entry_spec dev inum x :
  (0 <? i_ref x) && (i_dev x =? dev) && (i_inum x =? inum) = true <-> is_entry dev inum x.
Proof. unfold is_entry. rewrite !andb_true_iff, Z.ltb_lt, !Z.eqb_eq. tauto. Qed.

Lemma iget_scan_spec dev inum l : forall k empty,
  match iget_scan dev inum l k empty with
  | inl i => exists j x, i = (k + j)%nat /\ l !! j = Some x /\ is_entry dev inum x
  | inr e => (forall j x, l !! j = Some x -> ~ is_entry dev inum x) /\
      match e with
      | Some i => empty = Some i \/ empty = None /\ exists j x, i = (k + j)%nat /\ l !! j = Some x /\ i_ref x = 0
      | None => empty = None /\ forall j x, l !! j = Some x -> i_ref x <> 0
      end
  end.
Proof.
  induction l as [|x l IH]; intros k empty; cbn [iget_scan].
  { split; [intros j x Hj; discriminate Hj|]. destruct empty; [auto | split; [reflexivity | intros j x Hj; discriminate Hj]]. }
  destruct ((0 <? i_ref x) && (i_dev x =? dev) && (i_inum x =? inum)) eqn:Hx;
    [apply is_entry_spec in Hx | rewrite <- not_true_iff_false, is_entry_spec in Hx].
  { exists 0%nat, x. split; [lia | auto]. }
  set (empty' := match empty with None => if i_ref x =? 0 then Some k else None | Some _ => empty end).
  specialize (IH (S k) empty'). destruct (iget_scan dev inum l (S k) empty') as [i | e].
  { destruct IH as (j & y & -> & Hy & He). exists (S j), y. split; [lia | auto]. }
  destruct IH as [Hno He]. split; [intros [|j] y Hy; [injection Hy as <-; exact Hx | eapply Hno, Hy]|].
  unfold empty' in He. destruct empty as [e0|].
  - destruct e as [i|]; [|destruct He as [E _]; discriminate E].
    destruct He as [E | [E _]]; [left; exact E | discriminate E].
  - destruct (Z.eqb_spec (i_ref x) 0) as [Hr | Hr].
    + destruct e as [i|]; [|destruct He as [E _]; discriminate E].
      right. split; [reflexivity|]. destruct He as [E | [E _]]; [|discriminate E].
      injection E as <-. exists 0%nat, x. split; [lia | auto].
    + destruct e as [i|].
      * destruct He as [E | (_ & j & y & -> & Hy & Hr')]; [discriminate E|].
        right. split; [reflexivity|]. exists (S j), y. split; [lia | auto].
      * destruct He as [_ He]. split; [reflexivity|].
        intros [|j] y Hy; [injection Hy as <-; exact Hr | eapply He, Hy].
Qed.

Lemma alter_insert {A} (f : A -> A) (l : list A) i x : l !! i = Some x -> alter f i l = <[i := f x]> l.
Proof.
  intros Hx. apply list_eq. intros j. destruct (decide (j = i)) as [-> | Hne].
  - rewrite list_lookup_alter_eq, Hx, list_lookup_insert_eq by (eapply lookup_lt_Some; exact Hx). reflexivity.
  - rewrite list_lookup_alter_ne, list_lookup_insert_ne by congruence. reflexivity.
Qed.

(** Replacing entry [i] by one for an inode that no other entry has. *)
Lemma icache_insert inos i x y :
  icache_ok inos -> inos !! i = Some y -> 0 < i_ref x ->
  (forall j z, j <> i -> inos !! j = Some z -> ~ is_entry (i_dev x) (i_inum x) z) ->
  icache_ok (<[i := x]> inos).
Proof.
  intros [H1 H2] Hy Hr Hno. assert (Hi : (i < length inos)%nat) by (eapply lookup_lt_Some; exact Hy).
  assert (Hl : forall a z, <[i := x]> inos !! a = Some z -> a = i /\ z = x \/ a <> i /\ inos !! a = Some z).
  { intros a z. destruct (decide (a = i)) as [-> | Hne].
    - rewrite list_lookup_insert_eq by exact Hi. intros E. left. split; congruence.
    - rewrite list_lookup_insert_ne by congruence. auto. }
  constructor.
  - intros a z Hz. destruct (Hl a z Hz) as [[_ ->] | [_ Hz']]; [lia | eapply H1, Hz'].
  - intros a b u v Hu Hv Hru Hrv Ed En.
    destruct (Hl a u Hu) as [[-> ->] | [Ha Hu']], (Hl b v Hv) as [[-> ->] | [Hb Hv']]; try reflexivity.
    + exfalso. apply (Hno b v Hb Hv'). split; [exact Hrv | split; congruence].
    + exfalso. apply (Hno a u Ha Hu'). split; [exact Hru | split; congruence].
    + eapply H2; eassumption.
Qed.

(** [iget] with the cache lock: what the search and the update do. *)
Lemma iget_locked dev inum s :
  icache_ok (fs_inodes (k_fs s)) -> lock_free LIcache s -> cpu_ok s ->
  let inos := fs_inodes (k_fs s) in
  match iget_scan dev inum inos 0 None with
  | inl i => exists y, inos !! i = Some y /\ is_entry dev inum y /\
      iget dev inum s = Ok i (touch (set_fs (set_inodes (<[i := set_i_ref (i_ref y + 1) y]> inos) (k_fs s)) s))
  | inr (Some i) => exists y, inos !! i = Some y /\ i_ref y = 0 /\
      iget dev inum s = Ok i (touch (set_fs (set_inodes
        (<[i := set_i_valid 0 (set_i_ref 1 (set_i_inum inum (set_i_dev dev y)))]> inos) (k_fs s)) s))
  | inr None => iget dev inum s = Panic "iget: no inodes"
  end.
Proof.
  intros Hi Hl Hc inos. pose proof (iget_scan_spec dev inum inos 0 None) as Hs.
  unfold iget. rewrite !(bind_ok _ _ _ _ _ (acquire_ok LIcache s Hc (proj1 Hl))).
  rewrite !(bind_ok _ _ _ (fs_inodes (k_fs s)) (locked_state LIcache s)) by reflexivity. fold inos.
  destruct (iget_scan dev inum inos 0 None) as [i | [i|]].
  - destruct Hs as (j & y & -> & Hy & He). exists y. split; [exact Hy|]. split; [exact He|].
    erewrite bind_ok by reflexivity. cbn [k_fs locked_state set_locks set_cpu fs_inodes]. cbv beta. fold inos. rewrite (alter_insert _ _ _ y) by exact Hy.
    erewrite bind_ok by (apply (release_balanced LIcache s); [exact Hc | exact Hl | reflexivity..]).
    reflexivity.
  - destruct Hs as [_ [E | (_ & j & y & -> & Hy & Hr)]]; [discriminate E|]. exists y. split; [exact Hy|].
    split; [exact Hr|]. do 4 (erewrite bind_ok by reflexivity; cbv beta).
    erewrite bind_ok by (apply (release_balanced LIcache s); [exact Hc | exact Hl | reflexivity..]).
    unfold ret. do 2 f_equal. cbn. fold inos. rewrite (alter_insert _ inos _ y) by exact Hy.
    assert (Hlt : (0 + j < length inos)%nat) by (eapply lookup_lt_Some; exact Hy).
    do 3 (erewrite (alter_insert _ (<[_ := _]> _)) by (apply list_lookup_insert_eq; rewrite ?length_insert; exact Hlt);
      rewrite list_insert_insert_eq). reflexivity.
  - reflexivity.
Qed.

(** fs.c, [iget]: the inode cache holds every inode at most once.  With
    the cache lock free, [iget] of an inode either finds the only entry in use
    for it and adds one reference, everything else unchanged, or, when no entry
    is for that inode, takes an entry with no references and makes it a fresh
    one, with one reference and not yet read from disk; the lock is free again
    and no inode has two entries.  It panics only when every entry is in use
    and none is for that inode. *)
Lemma iget_unique dev inum s :
  cpu_ok s -> lock_free LIcache s -> icache_ok (fs_inodes (k_fs s)) ->
  let inos := fs_inodes (k_fs s) in
  (exists i x s', iget dev inum s = Ok i s' /\ lock_free LIcache s' /\
     fs_inodes (k_fs s') = <[i := x]> inos /\ icache_ok (fs_inodes (k_fs s')) /\
     i_dev x = dev /\ i_inum x = inum /\
     ((exists y, inos !! i = Some y /\ 0 < i_ref y /\ x = set_i_ref (i_ref y + 1) y) \/
      (exists y, inos !! i = Some y /\ i_ref y = 0) /\ i_ref x = 1 /\ i_valid x = 0 /\
        forall j z, inos !! j = Some z -> ~ is_entry dev inum z)) \/
  (iget dev inum s = Panic "iget: no inodes" /\
   forall j z, inos !! j = Some z -> 0 < i_ref z /\ ~ is_entry dev inum z).
Proof.
  intros Hc Hl Hi inos. pose proof (iget_scan_spec dev inum inos 0 None) as Hs.
  pose proof (iget_locked dev inum s Hi Hl Hc) as Hg. cbv zeta in Hg. fold inos in Hg.
  destruct (iget_scan dev inum inos 0 None) as [i | [i|]].
  - left. destruct Hg as (y & Hy & He & E). eexists i, (set_i_ref (i_ref y + 1) y), _.
    split; [exact E|]. split; [exact Hl|]. split; [reflexivity|]. destruct He as (Hr & Ed & En). split.
    + apply (icache_insert inos i _ y); [exact Hi | exact Hy | cbn; lia|].
      intros j z Hne Hz (Hrz & Ez1 & Ez2). apply Hne.
      apply (ic_unique inos Hi j i z y Hz Hy Hrz Hr Ez1 Ez2).
    + split; [exact Ed|]. split; [exact En|]. left. eauto.
  - left. destruct Hg as (y & Hy & Hr & E). destruct Hs as [Hno _].
    eexists i, (set_i_valid 0 (set_i_ref 1 (set_i_inum inum (set_i_dev dev y)))), _. split; [exact E|]. split; [exact Hl|].
    split; [reflexivity|]. split.
    + apply (icache_insert inos i _ y); [exact Hi | exact Hy | cbn; lia|]. intros j z _ Hz. apply (Hno j z Hz).
    + split; [reflexivity|]. split; [reflexivity|]. right. split; [eauto|]. auto.
  - right. split; [exact Hg|]. destruct Hs as [Hno [_ Hr]]. intros j z Hz. split; [|apply (Hno j z Hz)].
    pose proof (ic_ref inos Hi j z Hz). specialize (Hr j z Hz). lia.
Qed.

