(* ===== verification/Recovery.v ===== *)
(** * Crashes and restarts

    The kernel starts on a disk that a crash has left: [binit] and [ideinit] of
    main.c, then [iinit] and [initlog] of the first process.  With the
    transactions of Crash.v this gives the promise of log.c: whenever the
    machine stops, the next start finds all of a system call's writes or none. *)

From Stdlib Require Import ZArith Lia FunctionalExtensionality.
From stdpp Require Import base list strings gmap.
From S2P Require Import Prelude Mem Mmu Kernel Spinlock Kalloc Vm VmFacts Sched Runs Bio Cache Log Crash Fs.

(** ** The buffer cache after binit *)

Definition anyhow (_ : kstate) : Prop := True.
#[local] Instance anyhow_stable : Stable anyhow.
Proof. intros s f _. exact I. Qed.

Definition blank (x : buf) : Prop := b_flags x = 0 /\ b_dev x = 0 /\ b_refcnt x = 0 /\ sk_locked (b_lock x) = 0.

Lemma blank_ub b g f : (forall x, blank x -> blank (g x)) -> Forall blank (fs_bufs f) -> Forall blank (fs_bufs (ub b g f)).
Proof.
  intros Hg Hf. rewrite Forall_lookup in *. intros j x Hx. destruct (decide (b = j)) as [<- | Hne]; [|rewrite ub_lookup_ne in Hx by exact Hne; eauto].
  unfold ub in Hx. cbn [fs_bufs set_bufs] in Hx. rewrite list_lookup_alter_eq in Hx. destruct (fs_bufs f !! b) as [y|] eqn:E; [|discriminate].
  injection Hx as <-. apply Hg, (Hf b), E.
Qed.

Lemma goes_initsleeplock b nm f : goes anyhow anyhow (initsleeplock (LBuf b) nm) f tt (ub b (set_b_lock (mkSleeplock 0 nm 0)) f).
Proof. intros s _ <-. eexists. split; [reflexivity|]. split; reflexivity || exact I. Qed.

Lemma binit_one_spec b f :
  length (fs_bufs f) = S NBUF -> Forall blank (fs_bufs f) -> (b < NBUF)%nat -> chain (nx f) (pv f) NBUF (rev (seq 0 b)) NBUF ->
  exists f', goes anyhow anyhow (binit_one b) f tt f' /\ length (fs_bufs f') = S NBUF /\ Forall blank (fs_bufs f') /\
    chain (nx f') (pv f') NBUF (rev (seq 0 (S b))) NBUF /\ f' = set_bufs (fs_bufs f') f.
Proof.
  intros Hl Hbl Hb Hch. destruct (lookup_lt_is_Some_2 (fs_bufs f) NBUF) as [hd Hhd]; [lia|].
  assert (En : b_next hd = nx f NBUF) by (unfold nx; rewrite Hhd; reflexivity).
  assert (Hin : forall y, y ∈ rev (seq 0 b) -> (y < b)%nat) by (intros y Hy%list_elem_of_In%in_rev%list_elem_of_In%elem_of_seq; lia).
  assert (Hn : (nx f NBUF < S NBUF)%nat) by (apply chain_next, elem_of_cons in Hch as [-> | Hy%Hin]; lia).
  eexists. split; [unfold binit_one; eapply goes_bind; [apply goes_get_buf, Hhd|]; rewrite En; do 2 (eapply goes_cons; [apply goes_upd_buf, _|]);
    eapply goes_cons; [apply goes_initsleeplock|]; eapply goes_cons; [apply goes_upd_buf, _|]; apply goes_upd_buf, _|].
  split; [rewrite !ub_length; exact Hl|]. split; [repeat apply blank_ub; try exact Hbl; intros x (H1 & H2 & H3 & H4); repeat split; assumption|].
  split; [|reflexivity]. replace (rev (seq 0 (S b))) with (b :: rev (seq 0 b)) by (rewrite seq_S, rev_app_distr; reflexivity).
  rewrite nx_next, nx_prev, nx_ub, nx_prev, nx_next by (rewrite ?ub_length; lia || (split; reflexivity)).
  rewrite pv_next, pv_prev, pv_ub, pv_prev, pv_next by (rewrite ?ub_length; lia || (split; reflexivity)).
  apply chain_front; [exact Hch | |]; [apply NoDup_cons; split; [intros Hy%Hin; lia|]; rewrite <- Permutation_rev; apply NoDup_seq|].
  intros [-> | Hy%Hin]%elem_of_cons; lia.
Qed.

Lemma binit_loop_spec n b f :
  (b + n)%nat = NBUF -> length (fs_bufs f) = S NBUF -> Forall blank (fs_bufs f) -> chain (nx f) (pv f) NBUF (rev (seq 0 b)) NBUF ->
  exists f', goes anyhow anyhow (binit_loop b n) f tt f' /\ length (fs_bufs f') = S NBUF /\ Forall blank (fs_bufs f') /\ ring f' /\ f' = set_bufs (fs_bufs f') f.
Proof.
  revert b f. induction n as [|n IH]; intros b f Hb Hl Hbl Hch; cbn [binit_loop].
  - exists f. split; [apply goes_ret|]. split; [exact Hl|]. split; [exact Hbl|]. split; [|destruct f; reflexivity].
    exists (rev (seq 0 b)). replace b with NBUF in * by lia. split; [symmetry; apply Permutation_rev | exact Hch].
  - destruct (binit_one_spec b f Hl Hbl ltac:(lia) Hch) as (f1 & Hgo1 & Hl1 & Hbl1 & Hch1 & E1).
    destruct (IH (S b) f1 ltac:(lia) Hl1 Hbl1 Hch1) as (f2 & Hgo2 & Hl2 & Hbl2 & Hr2 & E2). exists f2.
    split; [eapply goes_cons; eassumption|]. repeat (split; [assumption|]). rewrite E2, E1. reflexivity.
Qed.

Lemma binit_spec f :
  length (fs_bufs f) = S NBUF -> Forall blank (fs_bufs f) ->
  exists f', goes anyhow anyhow binit f tt f' /\ length (fs_bufs f') = S NBUF /\ Forall blank (fs_bufs f') /\ ring f' /\ f' = set_bufs (fs_bufs f') f.
Proof.
  intros Hl Hbl. set (f1 := ub NBUF (set_b_next NBUF) (ub NBUF (set_b_prev NBUF) f)).
  assert (Hl1 : length (fs_bufs f1) = S NBUF) by (unfold f1; rewrite !ub_length; exact Hl).
  assert (Hbl1 : Forall blank (fs_bufs f1)) by (unfold f1; repeat apply blank_ub; try exact Hbl; intros x (H1 & H2 & H3 & H4); repeat split; assumption).
  destruct (binit_loop_spec NBUF 0 f1 eq_refl Hl1 Hbl1) as (f2 & Hgo & Hl2 & Hbl2 & Hr2 & E2).
  { cbn [seq rev chain]. unfold f1. rewrite nx_next, pv_next, pv_prev by (rewrite ?ub_length; lia). rewrite !upd_eq. auto. }
  exists f2. split; [|repeat (split; [assumption|]); rewrite E2; reflexivity].
  unfold binit. eapply (goes_cons anyhow anyhow anyhow) with (f1 := f); [intros s _ Es; eexists; split; [reflexivity|]; split; [exact I | exact Es]|].
  do 2 (eapply goes_cons; [apply goes_upd_buf, _|]). exact Hgo.
Qed.

(** ** Starting on a disk *)

(** The file-system state in which main.c leaves the kernel for the first
    process, when the second drive, of the root file system, is there. *)
Definition boot (d : Z -> list Z) (g : fs_t) : Prop :=
  exists disk s s', k_fs s = zero_fs disk /\ disk (disk_of ROOTDEV) = d /\ (binit ;; ideinit true) s = Ok tt s' /\ k_fs s' = g.

Lemma boot_state_of disk : exists g, (forall s, k_fs s = zero_fs disk -> exists s', (binit ;; ideinit true) s = Ok tt s' /\ k_fs s' = g) /\
  (forall pid, cached pid ROOTDEV g (mkCache (disk (disk_of ROOTDEV)) [] ∅ ∅)) /\ fs_log g = fs_log (zero_fs disk) /\ fs_writes g = [] /\ fs_inodes g = replicate NINODE zero_inode.
Proof.
  assert (Hbl : Forall blank (fs_bufs (zero_fs disk))) by (apply Forall_replicate; repeat split).
  destruct (binit_spec (zero_fs disk) eq_refl Hbl) as (f & Hgo & Hl & Hb & Hr & E). exists (set_havedisk1 1 f).
  assert (Hgo' : goes anyhow anyhow (binit ;; ideinit true) (zero_fs disk) tt (set_havedisk1 1 f)).
  { eapply goes_cons; [exact Hgo|]. intros s _ <-. eexists. split; [reflexivity|]. split; [exact I | reflexivity]. }
  split; [intros s Es; destruct (Hgo' s I Es) as (s' & H1 & _ & H2); eauto|]. split; [|rewrite E; repeat split].
  intros pid. rewrite Forall_lookup in Hb. constructor; cbn [c_disk c_writes c_held c_dirty set_havedisk1 fs_bufs fs_idequeue fs_ideerr fs_disk fs_writes]; try (rewrite E; reflexivity).
  - exact Hl.
  - exact Hr.
  - intros b x [_ Hx]. destruct (Hb b x Hx) as (H1 & H2 & H3 & H4). unfold cell. cbn. constructor; [exact H4 | exact H3|]. left. split; [exact H1 | rewrite H2; discriminate].
  - intros b b' x x' [_ Hx] _ Hd. destruct (Hb b x Hx) as (_ & H2 & _). rewrite H2 in Hd. discriminate.
  - intros b h. rewrite lookup_empty. discriminate.
  - intros bn d0. rewrite lookup_empty. discriminate.
  - right. discriminate.
Qed.

Lemma boot_cached d g pid : boot d g -> cached pid ROOTDEV g (mkCache d (fs_writes g) ∅ ∅) /\ fs_log g = mkLog 0 0 0 0 0 (mkLogheader 0 (replicate 30 0)) /\ fs_writes g = [] /\
  fs_inodes g = replicate NINODE zero_inode.
Proof.
  intros (disk & s & s' & Es & <- & E & <-). destruct (boot_state_of disk) as (g & H1 & H2 & H3 & H4 & H5). destruct (H1 s Es) as (s2 & E2 & E3).
  rewrite E in E2. injection E2 as <-. rewrite E3, H4. split; [apply H2|]. split; [exact H3|]. split; [reflexivity | exact H5].
Qed.

(** ** The buffer cache as a refinement *)

(** C15 (bio.c, ide.c, sleeplock.c): the buffer cache implements an abstract cache,
    which knows the disk, the dirty blocks and the buffers the process holds.
    In a state that represents the abstract cache [c]: [bread] of a block that
    the process does not hold yet returns a buffer, held from now on, with the
    dirty contents if the block is dirty and what the disk has otherwise, as
    long as it is cached or fewer than NBUF buffers are held or dirty; assigning
    to the data of a buffer that is held changes just this buffer; [bwrite]
    writes its contents to its block of the disk and makes it clean; [brelse]
    gives the buffer up, and its block stays dirty if it was.  Each leaves a
    state that represents the abstract result: the LRU list stays a ring of all
    buffers, no block is cached twice, and no call panics. *)
Theorem buffer_cache_refines {HR : Rounds} {HP : Patient} i pid dev f c :
  cached pid dev f c ->
  (forall bn, (forall b h, c_held c !! b = Some h -> h_bn h <> bn) -> bn < FSSIZE ->
     (c_dirty c !! bn = None -> (size (c_held c) + size (c_dirty c) < NBUF)%nat) ->
     runs i pid (bread dev bn) f (fun b f' => c_held c !! b = None /\ cached pid dev f' (c_take b (h_of c bn) c))) /\
  (forall b h, c_held c !! b = Some h ->
     (forall data, runs i pid (upd_buf b (set_b_data data)) f (fun _ f' =>
        cached pid dev f' (c_hold b (mkHbuf (h_bn h) (h_dirty h) data) c))) /\
     (h_bn h < FSSIZE -> runs i pid (bwrite b) f (fun _ f' =>
        cached pid dev f' (c_hold b (mkHbuf (h_bn h) false (h_data h)) (c_write dev (h_bn h) (h_data h) c)))) /\
     ((h_dirty h = false -> h_data h = c_disk c (h_bn h)) ->
        runs i pid (brelse b) f (fun _ f' => cached pid dev f' (c_put b h c)))).
Proof.
  intros Hc. split; [|intros b h Hh; split; [|split]].
  - intros bn H1 H2 H3. eapply runs_mono; [apply (bread_spec i pid dev f c bn Hc H1 H2 H3)|]. intros b f' (H4 & H5 & _). auto.
  - intros data. destruct (held_at pid dev f c b h Hc Hh) as (x & Hx & Hb). eapply goes_runs; [apply goes_upd_buf, _|].
    eapply hold_ok; [exact Hc | exact Hh | exact Hx | split; reflexivity | | reflexivity]. destruct Hb. constructor; try assumption. reflexivity.
  - intros Hbn. eapply runs_mono; [apply (bwrite_spec i pid dev b h f c Hc Hh Hbn)|]. intros _ f' [H4 _]. exact H4.
  - intros Hcl. destruct (brelse_spec i pid dev b h f c Hc Hh Hcl) as (f' & Hgo & H4 & _). eapply goes_runs; [exact Hgo | exact H4].
Qed.

(** ** The first process *)

Section Restart.
Context {HR : Rounds} {HP : Patient}.

(** The first time in [forkret]. *)
Definition restart : K unit := iinit ROOTDEV ;; initlog ROOTDEV.

Lemma cached_set_inodes pid f c v : cached pid ROOTDEV f c -> cached pid ROOTDEV (set_inodes v f) c.
Proof. intros []. constructor; assumption. Qed.
Lemma cached_set_sb pid f c v : cached pid ROOTDEV f c -> cached pid ROOTDEV (set_sb v f) c.
Proof. intros []. constructor; assumption. Qed.

Lemma goes_cprintf i pid msg f : goes (quiet i pid) (quiet i pid) (cprintf msg) f tt f.
Proof.
  intros s [Hr Hf Hp] Es. eexists. split; [reflexivity|]. split; [|exact Es].
  constructor; [eapply running_ext; [exact Hr | | | |]; reflexivity | exact Hf | exact Hp].
Qed.

(** An inode cache in which no entry is in use. *)
Definition all_free (v : list inode) : Prop := length v = NINODE /\ Forall (fun x => i_ref x = 0 /\ sk_locked (i_lock x) = 0) v.

Lemma all_free_init v j : all_free v -> all_free (alter (set_i_lock (mkSleeplock 0 "inode" 0)) j v).
Proof. intros [Hl Hv]. split; [rewrite length_alter; exact Hl|]. apply Forall_alter; [exact Hv|]. intros x _ [Hr _]. split; [exact Hr | reflexivity]. Qed.

Lemma iinit_loop_spec i pid n j f : all_free (fs_inodes f) -> exists v, goes (quiet i pid) (quiet i pid) (iinit_loop j n) f tt (set_inodes v f) /\ all_free v.
Proof.
  revert j f. induction n as [|n IH]; intros j f Ha; cbn [iinit_loop]; [exists (fs_inodes f); split; [destruct f; apply goes_ret | exact Ha]|].
  set (v1 := alter (set_i_lock (mkSleeplock 0 "inode" 0)) j (fs_inodes f)). destruct (IH (S j) (set_inodes v1 f) (all_free_init _ j Ha)) as [v [Hv Ha']]. exists v. split; [|exact Ha'].
  eapply goes_cons; [|exact Hv]. unfold initsleeplock. eapply goes_cons; [apply goes_initlock|].
  exact (goes_upd_fs _ (fun fs => set_inodes (alter (set_i_lock (mkSleeplock 0 "inode" 0)) j (fs_inodes fs)) fs) f).
Qed.

Context (L nlog : Z) (Hlayout : 2 <= L /\ 0 < nlog <= LOGSIZE /\ L + nlog <= FSSIZE).

Lemma iinit_spec i pid f c :
  cached pid ROOTDEV f c -> c_held c = ∅ -> c_dirty c = ∅ -> all_free (fs_inodes f) ->
  runs i pid (iinit ROOTDEV) f (fun _ f' => cached pid ROOTDEV f' c /\ fs_log f' = fs_log f /\ fs_sb f' = decode_sb (c_disk c 1) /\ all_free (fs_inodes f')).
Proof.
  intros Hc He Hd Ha. unfold iinit. eapply runs_step; [apply goes_initlock|]. destruct (iinit_loop_spec i pid NINODE 0 f Ha) as [v [Hv Ha']]. eapply runs_step; [exact Hv|].
  eapply runs_bind; [apply (readsb_spec ROOTDEV i pid _ c (cached_set_inodes pid f c v Hc) He Hd)|]. intros sb f1 (-> & Hc1 & Hr1 & Hr2 & Hr3).
  eapply runs_step; [apply goes_upd_fs, _|]. eapply goes_runs; [apply goes_cprintf|]. split; [apply cached_set_sb, Hc1|]. split; [exact Hr1|]. split; [reflexivity|].
  cbn [set_sb fs_inodes]. rewrite Hr3. exact Ha'.
Qed.

(** From the disk [d] the system starts with the contents [new] outside the log,
    also when up to [n] further crashes interrupt the starts. *)
Fixpoint survives (n : nat) (new d : Z -> list Z) : Prop :=
  forall i pid g, boot d g -> runs i pid restart g (fun _ g' => exists ws,
    idle ROOTDEV L nlog pid g' (apply_writes ws d) /\ fs_writes g' = rev (tagged ROOTDEV ws) /\
    (forall bn, outside L nlog bn -> apply_writes ws d bn = new bn) /\
    match n with O => True | S n' => forall k, survives n' new (apply_writes (take k ws) d) end).

Lemma restart_spec i pid g d new bl :
  good L nlog new d bl -> boot d g ->
  runs i pid restart g (fun _ g' =>
    idle ROOTDEV L nlog pid g' (apply_writes (recover_writes L d bl) d) /\ fs_writes g' = rev (tagged ROOTDEV (recover_writes L d bl)) /\
    fs_sb g' = decode_sb (d 1) /\ all_free (fs_inodes g')).
Proof.
  intros Hg Hb. destruct (boot_cached d g pid Hb) as (Hc & El & Ew & Ei). destruct (recover_final L nlog Hlayout new d bl Hg) as (H1 & H2 & H3 & _). destruct Hg as [G1 G2 G3 G4 G5 G6 _].
  eapply runs_bind; [apply (iinit_spec i pid g _ Hc eq_refl eq_refl)|].
  { rewrite Ei. split; [apply length_replicate | apply Forall_replicate; split; reflexivity]. }
  intros [] f1 (Hc1 & El1 & Es1 & Ha1). rewrite El in El1.
  eapply runs_mono; [apply (initlog_spec ROOTDEV L nlog Hlayout i pid f1 _ bl Hc1); try assumption; try reflexivity; rewrite El1; reflexivity|].
  intros _ f2 (Hc2 & Hi2 & Hsz & Hout & Hcom & Hk1 & Hk2). assert (Ew2 : fs_writes f2 = rev (tagged ROOTDEV (recover_writes L d bl))).
  { rewrite (ca_writes _ _ _ _ Hc2). cbn. rewrite Ew, app_nil_r. reflexivity. }
  split; [|split; [exact Ew2|]; split; [rewrite Hk1; exact Es1 | rewrite Hk2; exact Ha1]]. split; [|split; [exact H1 | exact H2]]. constructor; [|exact Hsz | rewrite Hout, El1; reflexivity | rewrite Hcom, El1; reflexivity].
  constructor; try assumption; try reflexivity; [| constructor | constructor | cbn; lia|].
  - rewrite (ca_writes _ _ _ _ Hc2). exact Hc2.
  - intros bn. cbn. rewrite lookup_empty. split; [intros []%not_elem_of_nil | intros [? [=]]].
Qed.

Lemma good_survives n new d bl : good L nlog new d bl -> survives n new d.
Proof.
  revert d bl. induction n as [|n IH]; intros d bl Hg; cbn [survives]; intros i pid g Hb; (eapply runs_mono; [apply (restart_spec i pid g d new bl Hg Hb)|]).
  all: intros _ g' (Hi & Hw & _); exists (recover_writes L d bl); split; [exact Hi|]; split; [exact Hw|]; split; [apply (recover_final L nlog Hlayout new d bl Hg)|].
  - exact I.
  - intros k. destruct (good_prefix L nlog Hlayout new d bl k Hg) as [bl' Hg']. exact (IH _ bl' Hg').
Qed.

(** C5 (log.c, with bio.c, ide.c and the recovery of [initlog]): a transaction is
    atomic with respect to crashes.  A process without competition runs
    [begin_op], any sequence of the uses that log.c describes (read a block,
    modify it, [log_write], release it) on blocks outside the log, few enough
    for the log, and [end_op]; the model of the rest of the system is the
    interrupt of the disk.  Then nothing panics or waits forever, and afterwards
    the disk has exactly the updates made, the caches are clean and the log is
    empty.  If the machine stops after any number [k] of the disk writes [ws]
    that were made, the next start from that disk, through [binit], [ideinit],
    [iinit] and [initlog], finds the blocks outside the log either all as before
    or all as after the transaction, and this stays so when up to [n] further
    crashes interrupt these starts after any of their own writes. *)
Theorem transaction_atomic i pid ups f d :
  idle ROOTDEV L nlog pid f d -> Forall (home L nlog) ups.*1 -> Z.of_nat (length (remove_dups ups.*1)) + 1 < nlog ->
  runs i pid (transaction ROOTDEV ups) f (fun _ f' => exists ws,
    idle ROOTDEV L nlog pid f' (apply_writes ws d) /\ fs_writes f' = rev (tagged ROOTDEV ws) ++ fs_writes f /\
    (forall bn, outside L nlog bn -> apply_writes ws d bn = apply_updates ups d bn) /\
    forall k, (forall n, survives n d (apply_writes (take k ws) d)) \/
              (forall n, survives n (apply_updates ups d) (apply_writes (take k ws) d))).
Proof.
  intros Hi Hh Hlen. eapply runs_mono; [apply (transaction_spec ROOTDEV L nlog Hlayout i pid ups f d Hi Hh Hlen)|]. intros _ f' (ws & Hi' & Hw & [Hdone Hcrash]).
  exists ws. split; [exact Hi'|]. split; [exact Hw|]. split; [exact Hdone|]. intros k.
  destruct (Hcrash k) as (bl & [Hg | Hg]); [left | right]; intros n; exact (good_survives n _ _ bl Hg).
Qed.
End Restart.

(** A small file system: the super block of the image that mkfs.c writes, an
    empty log at block 2, and zeroes. *)
Definition small_disk (bn : Z) : list Z :=
  if bn =? 1 then mjoin (map bytes32 [1000; 941; 200; 30; 2; 32; 58]) ++ replicate 484 0 else replicate 512 0.
Definition small_ups : list (Z * (list Z -> list Z)) :=
  [(100, fun x => put 0 [1; 2; 3] x); (200, fun x => put 8 [9] x); (100, fun x => put 1 [7] x)].
Definition small_rounds : Rounds := {| rounds := 2 |}.
Definition small_patient : @Patient small_rounds := @Build_Patient small_rounds (le_n 2).
Definition mounted (g : fs_t) : fs_t := set_log (mkLog 2 30 0 0 1 (mkLogheader 0 (replicate 30 0))) g.

Lemma small_boot : exists g, boot small_disk g.
Proof.
  destruct (boot_state_of (fun _ => small_disk)) as (g & Hg & _). exists g.
  pose (s := boot_state (fun _ => 0) (fun _ => small_disk)). destruct (Hg s eq_refl) as (s' & E & Eg).
  exists (fun _ => small_disk), s, s'. auto.
Qed.

Lemma small_idle pid g : boot small_disk g -> idle ROOTDEV 2 30 pid (mounted g) small_disk.
Proof.
  intros Hb. destruct (boot_cached small_disk g pid Hb) as (Hc & _ & Ew & _). split; [|split; [split; vm_compute; reflexivity | split; [vm_compute; reflexivity | intros j bn; discriminate]]].
  constructor; try reflexivity. constructor; try reflexivity; [| | constructor | constructor |].
  - apply cached_set_log. exact Hc.
  - split; [repeat split | split; [reflexivity | intros j bn; discriminate]].
  - intros bn. cbn. rewrite lookup_empty. split; [intros []%not_elem_of_nil | intros [? [=]]].
Qed.

Lemma transaction_atomic_witness :
  exists g, boot small_disk g /\
    @runs 3 4 unit (@transaction small_rounds ROOTDEV small_ups) (mounted g) (fun _ f' => exists ws,
      fs_writes f' = rev (tagged ROOTDEV ws) /\ apply_writes ws small_disk 100 = put 0 [1; 7; 3] (replicate 512 0)).
Proof.
  destruct small_boot as [g Hb]. exists g. split; [exact Hb|]. eapply runs_mono.
  - refine (@transaction_atomic small_rounds small_patient 2 30 _ 3 4 small_ups (mounted g) small_disk (small_idle 4 g Hb) _ _).
    + split; [|split; [split|]]; vm_compute; congruence.
    + repeat (apply Forall_cons; split; [split; vm_compute; congruence|]). constructor.
    + vm_compute. reflexivity.
  - intros _ f' (ws & _ & Hw & Hdone & _). exists ws. rewrite Hw. destruct (boot_cached small_disk g 4 Hb) as (_ & _ & Ew & _). change (fs_writes (mounted g)) with (fs_writes g). rewrite Ew, app_nil_r.
    split; [reflexivity|]. rewrite Hdone by (unfold outside; lia). vm_compute. reflexivity.
Defined.

Lemma buffer_cache_refines_witness : exists g, boot small_disk g /\
  @runs 3 4 nat (@bread small_rounds ROOTDEV 1) g (fun b f' =>
    cached 4 ROOTDEV f' (mkCache small_disk [] {[b := mkHbuf 1 false (small_disk 1)]} ∅)).
Proof.
  destruct small_boot as [g Hb]. exists g. split; [exact Hb|]. destruct (boot_cached small_disk g 4 Hb) as (Hc & _ & Ew & _). rewrite Ew in Hc.
  destruct (@buffer_cache_refines small_rounds small_patient 3 4 ROOTDEV g _ Hc) as [Hread _]. eapply runs_mono.
  - apply (Hread 1); [intros b h; cbn [c_held]; rewrite lookup_empty; discriminate | reflexivity | intros _; cbn [c_held c_dirty]; rewrite !map_size_empty; unfold NBUF; lia].
  - intros b f' [_ H]. unfold c_take, h_of, view in H. cbn in H. rewrite delete_empty in H. exact H.
Defined.
