(* ===== verification/Files.v ===== *)
(** * Files and paths over the buffer cache

    What the inodes, directories and paths of fs.c mean in terms of the
    contents of the disk: the bytes of a file, the inode a directory entry
    names, the inode a path leads to.  The operations of fs.c that read the
    file system compute exactly these, while one process runs them. *)

From Stdlib Require Import ZArith Lia ZifyNat FunctionalExtensionality.
From stdpp Require Import base list strings gmap gmultiset.
From S2P Require Import Prelude Mem Mmu Kernel Spinlock Kalloc Vm VmFacts Sched Runs Bio Cache Log Crash Fs Recovery.

(** ** Contents of the disk *)

Abbreviation BLK := 512%nat.

(** Division with remainder, of natural numbers and of integers. *)
Ltac ndm := zify; Z.div_mod_to_equations; lia.

(** The number of blocks for [n] bytes. *)
Definition nblk (n : nat) : nat := ((n + 511) / 512)%nat.

Lemma nblk_mono n n' : (n <= n')%nat -> (nblk n <= nblk n')%nat.
Proof. unfold nblk. intros H. ndm. Qed.
Lemma nblk_max n : (n <= BLK * (NDIRECT + NINDIRECT))%nat -> (nblk n <= NDIRECT + NINDIRECT)%nat.
Proof. unfold nblk, NDIRECT, NINDIRECT. intros H. ndm. Qed.

Section Contents.
Context (d : Z -> list Z).

Definition disk_inode (inum : Z) : dinode := decode_dinode (d (IBLOCK inum (decode_sb (d 1)))) (inode_off inum).

(** The sector of block [k] of a file, as [bmap] finds it, and the file. *)
Definition block_of (di : dinode) (k : nat) : Z :=
  if decide (k < NDIRECT)%nat then byte_at (d_addrs di) k else le32 (d (byte_at (d_addrs di) NDIRECT)) (4 * (k - NDIRECT)).
Definition blocks_data (di : dinode) (n : nat) : list Z := mjoin (map (fun k => d (block_of di k)) (seq 0 n)).
Definition file_data (di : dinode) : list Z :=
  take (Z.to_nat (d_size di)) (blocks_data di (nblk (Z.to_nat (d_size di)))).

(** All blocks of the file are there. *)
Record file_wf (di : dinode) : Prop := {
  fw_size : 0 <= d_size di <= MAXFILE * BSIZE;
  fw_block k : (k < nblk (Z.to_nat (d_size di)))%nat -> block_of di k <> 0 /\ block_of di k < FSSIZE /\ length (d (block_of di k)) = BLK;
  fw_ind : (NDIRECT < nblk (Z.to_nat (d_size di)))%nat -> byte_at (d_addrs di) NDIRECT <> 0 /\ byte_at (d_addrs di) NDIRECT < FSSIZE }.

Lemma blocks_data_length di n : (forall k, (k < n)%nat -> length (d (block_of di k)) = BLK) -> length (blocks_data di n) = (BLK * n)%nat.
Proof.
  intros Hl. unfold blocks_data. induction n as [|n IH]; [reflexivity|]. rewrite seq_S, map_app, join_app, length_app, IH by (intros k Hk; apply Hl; lia).
  cbn [map mjoin list_join]. rewrite app_nil_r, Hl by lia. lia.
Qed.

Lemma blocks_data_split di n k : (forall k, (k < n)%nat -> length (d (block_of di k)) = BLK) -> (k < n)%nat ->
  drop (BLK * k) (blocks_data di n) = d (block_of di k) ++ drop (BLK * S k) (blocks_data di n).
Proof.
  intros Hl Hk. assert (E : blocks_data di n = blocks_data di k ++ d (block_of di k) ++ mjoin (map (fun k => d (block_of di k)) (seq (S k) (n - S k)))).
  { unfold blocks_data. replace n with (k + S (n - S k))%nat at 1 by lia. rewrite seq_app, map_app, join_app. reflexivity. }
  assert (Hlk : length (blocks_data di k) = (BLK * k)%nat) by (apply blocks_data_length; intros j Hj; apply Hl; lia).
  rewrite E, <- Hlk, drop_app_length, app_assoc. f_equal. rewrite drop_app_length'; [reflexivity|]. rewrite length_app, Hlk, Hl by lia. lia.
Qed.

Lemma file_data_length di : file_wf di -> length (file_data di) = Z.to_nat (d_size di).
Proof.
  intros Hw. unfold file_data. rewrite length_take, blocks_data_length by (intros k Hk; apply Hw, Hk). unfold nblk. ndm.
Qed.
End Contents.

(** ** Reading blocks *)

Section Reading.
Context {HR : Rounds} {HP : Patient} (i : nat) (pid : Z).
Abbreviation cached := (cached pid ROOTDEV).
Abbreviation runs := (runs i pid).
Abbreviation goes := (goes (quiet i pid) (quiet i pid)).

(** Nobody holds a buffer, and there is room for a clean one. *)
Record calm (f : fs_t) (c : cache) : Prop := {
  cm_cached : cached f c;
  cm_held : c_held c = ∅;
  cm_room : (size (c_dirty c) < NBUF)%nat }.

Lemma goes_get_inode {P} j x f : fs_inodes f !! j = Some x -> Cache.goes P P (get_inode j) f x f.
Proof. intros E s Hq <-. exists s. unfold get_inode. rewrite E. auto. Qed.

Lemma bread_view {A} f c bn (k : nat -> K A) Q :
  calm f c -> bn < FSSIZE ->
  (forall b x f', fs_bufs f' !! b = Some x -> b_data x = view c bn -> cached f' (c_take b (h_of c bn) c) -> rest f f' -> runs (k b) f' Q) ->
  runs (let! b := bread ROOTDEV bn in k b) f Q.
Proof.
  intros [Hc He Hsz] Hbn Hk. eapply runs_bind; [apply (bread_spec i pid ROOTDEV f c bn Hc); [rewrite He; intros b h; rewrite lookup_empty; discriminate | exact Hbn|]|].
  { intros _. rewrite He, map_size_empty. exact Hsz. }
  intros b f' (_ & Hc' & Hr). destruct (held_at pid ROOTDEV f' _ b (h_of c bn) Hc' (lookup_insert_eq _ _ _)) as (x & [_ Hx] & Hh).
  apply (Hk b x); try assumption. exact (hb_data _ _ _ _ Hh).
Qed.

Lemma brelse_view b bn f c :
  cached f (c_take b (h_of c bn) c) -> c_held c = ∅ -> exists f', goes (brelse b) f tt f' /\ cached f' c /\ rest f f'.
Proof.
  intros Hc He. destruct (brelse_spec i pid ROOTDEV b (h_of c bn) f _ Hc (lookup_insert_eq _ _ _)) as (f' & Hgo & Hc' & Hr).
  { cbn. intros Hd%bool_decide_eq_false. unfold view. apply eq_None_not_Some in Hd. rewrite Hd. reflexivity. }
  exists f'. split; [exact Hgo|]. split; [|exact Hr]. rewrite put_take in Hc'; [exact Hc' | rewrite He; apply lookup_empty|].
  cbn. unfold view. destruct (c_dirty c !! bn); reflexivity.
Qed.

(** ** Reading files *)

Definition as_dinode (x : inode) : dinode := mkDinode (i_type x) (i_major x) (i_minor x) (i_nlink x) (i_size x) (i_addrs x).

(** [bmap] on a block that is there. *)
Lemma bmap_spec j x k f c :
  calm f c -> fs_inodes f !! j = Some x -> i_dev x = ROOTDEV -> (k < NDIRECT + NINDIRECT)%nat ->
  let a := block_of (view c) (as_dinode x) k in
  a <> 0 -> ((NDIRECT <= k)%nat -> byte_at (i_addrs x) NDIRECT <> 0 /\ byte_at (i_addrs x) NDIRECT < FSSIZE) ->
  runs (bmap j (Z.of_nat k)) f (fun a' f' => a' = a /\ cached f' c /\ rest f f').
Proof.
  intros Hm Hx Hdev Hk a Ha Hind. unfold bmap. eapply runs_step; [apply goes_get_inode, Hx|]. unfold a, block_of in *. cbn [as_dinode d_addrs] in *. case_decide as Hd.
  - replace (Z.of_nat k <? Z.of_nat NDIRECT) with true by (symmetry; apply Z.ltb_lt; lia). rewrite Nat2Z.id, (proj2 (Z.eqb_neq _ _) Ha).
    eapply goes_runs; [apply goes_ret|]. split; [reflexivity|]. split; [apply Hm | repeat split].
  - replace (Z.of_nat k <? Z.of_nat NDIRECT) with false by (symmetry; apply Z.ltb_ge; lia).
    replace (Z.of_nat k - Z.of_nat NDIRECT <? Z.of_nat NINDIRECT) with true by (symmetry; apply Z.ltb_lt; lia).
    destruct Hind as [Hz Hlt]; [lia|]. rewrite (proj2 (Z.eqb_neq _ _) Hz). eapply runs_step; [apply goes_ret|]. rewrite Hdev.
    replace (Z.to_nat (4 * (Z.of_nat k - Z.of_nat NDIRECT))) with (4 * (k - NDIRECT))%nat by lia.
    apply (bread_view f c); [exact Hm | exact Hlt|]. intros b y f1 Hy Ey Hc1 Hr1. eapply runs_step; [apply goes_get_buf, Hy|]. rewrite Ey, (proj2 (Z.eqb_neq _ _) Ha).
    eapply runs_step; [apply goes_ret|]. destruct (brelse_view b _ f1 c Hc1 (cm_held _ _ Hm)) as (f2 & Hgo & Hc2 & Hr2).
    eapply runs_step; [exact Hgo|]. eapply goes_runs; [apply goes_ret|]. split; [reflexivity|]. split; [exact Hc2 | eapply rest_trans; eassumption].
Qed.

Lemma calm_rest f f' c : calm f c -> cached f' c -> calm f' c.
Proof. intros [] Hc. constructor; assumption. Qed.

(** One iteration of the copying loop, in terms of the blocks. *)
Lemma blocks_step d di nb off n : (forall k, (k < nb)%nat -> length (d (block_of d di k)) = BLK) -> (0 < n)%nat -> (off + n <= BLK * nb)%nat ->
  let o := (off mod BLK)%nat in
  let m := Nat.min n (BLK - o) in
  take n (drop off (blocks_data d di nb)) =
    take m (drop o (d (block_of d di (off / BLK)))) ++ take (n - m) (drop (off + m) (blocks_data d di nb)).
Proof.
  intros Hl Hn Hle o m. set (k := (off / BLK)%nat). assert (Hk : (k < nb)%nat) by (unfold k; ndm). assert (Eo : off = (BLK * k + o)%nat) by (unfold k, o; ndm). assert (Ho : (o < BLK)%nat) by (unfold o; ndm).
  assert (E : drop off (blocks_data d di nb) = drop o (d (block_of d di k)) ++ drop (BLK * S k) (blocks_data d di nb)).
  { rewrite <- (drop_app_le _ _ o) by (rewrite Hl by exact Hk; lia). rewrite <- (blocks_data_split d di nb k Hl Hk), drop_drop. f_equal. exact Eo. }
  specialize (Hl k Hk). rewrite E. destruct (Nat.le_gt_cases n (BLK - o)) as [Hs | Hs].
  - replace m with n by (unfold m; lia). rewrite Nat.sub_diag, take_0, app_nil_r. apply take_app_le. rewrite length_drop. lia.
  - assert (Em : m = (BLK - o)%nat) by (unfold m; lia). rewrite Em, take_app, length_drop, Hl, (take_ge _ n), (take_ge _ (BLK - o)) by (rewrite length_drop; lia).
    do 3 f_equal. lia.
Qed.

(** The blocks that [n] bytes from [off] on lie in. *)
Definition touched (off n : Z) : Z := if 0 <? n then (off + n - 1) / BSIZE - off / BSIZE + 1 else 0.

Lemma touched_next off n : 0 <= off -> 0 < n -> let m := Z.min n (BSIZE - off mod BSIZE) in touched (off + m) (n - m) = touched off n - 1.
Proof.
  intros Ho Hn m. unfold touched, BSIZE in *. replace (0 <? n) with true by (symmetry; apply Z.ltb_lt; lia). replace (off + m + (n - m) - 1) with (off + n - 1) by lia.
  assert (Hm : m = n \/ m = 512 - off mod 512) by (unfold m; lia). destruct (Z.ltb_spec 0 (n - m)) as [H | H].
  - destruct Hm as [Hm | Hm]; [lia|]. rewrite Hm. Z.div_mod_to_equations. lia.
  - assert (m = n) by (unfold m; lia). assert (n <= 512 - off mod 512) by (unfold m in *; lia). Z.div_mod_to_equations. lia.
Qed.

Lemma touched_fuel off n : 0 <= off -> 0 <= n -> 0 <= touched off n <= n / BSIZE + 2.
Proof. intros Ho Hn. unfold touched, BSIZE. destruct (Z.ltb_spec 0 n); Z.div_mod_to_equations; lia. Qed.

Lemma chunk_nat off n : 0 <= off -> 0 <= n ->
  Z.to_nat (off mod BSIZE) = (Z.to_nat off mod BLK)%nat /\ Nat.min (Z.to_nat n) (BLK - Z.to_nat off mod BLK) = Z.to_nat (Z.min n (BSIZE - off mod BSIZE)).
Proof.
  intros Ho Hn. assert (Eo : Z.to_nat (off mod BSIZE) = (Z.to_nat off mod BLK)%nat) by (unfold BSIZE; ndm). split; [exact Eo|]. rewrite <- Eo.
  pose proof (Z.mod_pos_bound off BSIZE ltac:(reflexivity)). unfold BSIZE in *. lia.
Qed.

Lemma chunk_facts off n size : 0 <= off -> 0 < n -> off + n <= size -> size <= 71680 ->
  let k := (Z.to_nat off / BLK)%nat in
  off / BSIZE = Z.of_nat k /\ (k < nblk (Z.to_nat size))%nat /\ (nblk (Z.to_nat size) <= NDIRECT + NINDIRECT)%nat /\ (Z.to_nat off + Z.to_nat n <= BLK * nblk (Z.to_nat size))%nat /\
  0 < Z.min n (BSIZE - off mod BSIZE) <= n.
Proof.
  intros Ho Hn Hle Hs k. assert (Hx : (Z.to_nat off + Z.to_nat n <= Z.to_nat size)%nat) by lia. assert (Hy : (Z.to_nat size <= BLK * nblk (Z.to_nat size))%nat) by (unfold nblk; ndm).
  split; [unfold k, BSIZE; ndm|]. split; [unfold k; clear -Hn Hx Hy; ndm|]. split; [apply nblk_max; unfold NDIRECT, NINDIRECT; lia|]. split; [lia|].
  pose proof (Z.mod_pos_bound off BSIZE ltac:(reflexivity)). unfold BSIZE in *. lia.
Qed.

Lemma readi_loop_spec j x c fuel : forall off n f,
  calm f c -> fs_inodes f !! j = Some x -> i_dev x = ROOTDEV -> file_wf (view c) (as_dinode x) ->
  0 <= off -> 0 <= n -> off + n <= i_size x -> touched off n < Z.of_nat fuel ->
  runs (readi_loop j off n fuel) f (fun bs f' =>
    bs = take (Z.to_nat n) (drop (Z.to_nat off) (blocks_data (view c) (as_dinode x) (nblk (Z.to_nat (i_size x))))) /\ cached f' c /\ rest f f').
Proof.
  induction fuel as [|fuel IH]; intros off n f Hm Hx Hdev Hw Ho Hn Hle Hf; [pose proof (touched_fuel off n Ho Hn); lia|]. cbn [readi_loop].
  destruct (Z.ltb_spec 0 n) as [Hpos | Hz]; [|eapply goes_runs; [apply goes_ret|]; replace (Z.to_nat n) with 0%nat by lia; rewrite take_0; split; [reflexivity | split; [apply Hm | repeat split]]].
  eapply runs_step; [apply goes_get_inode, Hx|]. pose proof Hw as [W1 W2 W3]. cbn [as_dinode d_size d_addrs] in W1, W2, W3. change (MAXFILE * BSIZE) with 71680 in W1.
  destruct (chunk_facts off n (i_size x) Ho Hpos Hle (proj2 W1)) as (Ek & Hk & Hnb & Hin & Hmr). destruct (chunk_nat off n Ho Hn) as [Eo Em]. pose proof (touched_next off n Ho Hpos) as Et. cbn zeta in Et.
  assert (Hn0 : (0 < Z.to_nat n)%nat) by (clear -Hpos; lia).
  pose proof (blocks_step (view c) (as_dinode x) _ (Z.to_nat off) (Z.to_nat n) (fun k Hk => proj2 (proj2 (W2 k Hk))) Hn0 Hin) as E. cbn zeta in E. rewrite Em, <- Eo in E. rewrite E. clear Em Eo Hin E.
  set (nb := nblk (Z.to_nat (i_size x))) in *. set (k := (Z.to_nat off / BLK)%nat) in *. set (m := Z.min n (BSIZE - off mod BSIZE)) in *. clearbody nb k m.
  destruct (W2 k Hk) as (Ha & Hlt & _). rewrite Ek.
  eapply runs_bind; [apply (bmap_spec j x k f c Hm Hx Hdev); [lia | exact Ha | intros Hd; apply W3; lia]|]. intros a f1 (-> & Hc1 & Hr1). rewrite Hdev.
  apply (bread_view f1 c); [eapply calm_rest; eassumption | exact Hlt|]. intros b y f2 Hy Ey Hc2 Hr2. eapply runs_step; [apply goes_get_buf, Hy|]. rewrite Ey.
  destruct (brelse_view b _ f2 c Hc2 (cm_held _ _ Hm)) as (f3 & Hgo & Hc3 & Hr3). eapply runs_step; [exact Hgo|]. assert (Hr : rest f f3) by (eapply rest_trans; [exact Hr1 | eapply rest_trans; eassumption]).
  rewrite w32_small by (unfold u32; lia).
  eapply runs_bind; [apply (IH (off + m) (n - m) f3); try assumption; try lia; [eapply calm_rest; eassumption | rewrite (proj2 (proj2 Hr)); exact Hx]|].
  intros bs f4 (-> & Hc4 & Hr4). eapply goes_runs; [apply goes_ret|]. split; [|split; [exact Hc4 | eapply rest_trans; eassumption]].
  f_equal. replace (Z.to_nat (n - m)) with (Z.to_nat n - Z.to_nat m)%nat by lia. replace (Z.to_nat (off + m)) with (Z.to_nat off + Z.to_nat m)%nat by lia. reflexivity.
Qed.

(** [readi] of a file or directory. *)
Lemma readi_spec dv j x c off n f :
  calm f c -> fs_inodes f !! j = Some x -> i_dev x = ROOTDEV -> file_wf (view c) (as_dinode x) -> i_type x <> T_DEV ->
  0 <= off <= i_size x -> 0 <= n -> off + n < 4294967296 ->
  runs (readi dv j off n) f (fun r f' =>
    r = Some (take (Z.to_nat n) (drop (Z.to_nat off) (file_data (view c) (as_dinode x)))) /\ cached f' c /\ rest f f').
Proof.
  intros Hm Hx Hdev Hw Ht Ho Hn Hlt. unfold readi. eapply runs_step; [apply goes_get_inode, Hx|]. rewrite (proj2 (Z.eqb_neq _ _) Ht), (w32_small (off + n)) by (unfold u32; lia).
  replace ((i_size x <? off) || (off + n <? off)) with false by (symmetry; apply orb_false_iff; split; apply Z.ltb_ge; lia).
  set (n' := if i_size x <? off + n then _ else _). assert (Hn' : 0 <= n' <= n /\ off + n' <= i_size x /\ (n' = n \/ off + n' = i_size x)) by (unfold n'; destruct (Z.ltb_spec (i_size x) (off + n)); lia).
  eapply runs_bind; [apply (readi_loop_spec j x c (io_fuel n') off n' f); try assumption; try lia|].
  { pose proof (touched_fuel off n' ltac:(lia) ltac:(lia)). unfold io_fuel. lia. }
  intros bs f1 (-> & Hc1 & Hr1). eapply goes_runs; [apply goes_ret|]. split; [|split; assumption]. f_equal. unfold file_data. cbn [as_dinode d_size]. fold (as_dinode x).
  set (X := blocks_data _ _ _). set (sz := Z.to_nat (i_size x)). rewrite skipn_firstn_comm, take_take. f_equal. unfold sz. lia.
Qed.

(** ** The inode cache *)

(** The cache as a multiset of the references to inodes.  [H] are the entries
    the process has locked; an entry that has been read agrees with the disk,
    whose contents are [d]. *)
Record itable (d : Z -> list Z) (R : gmultiset Z) (H : gset nat) (f : fs_t) : Prop := {
  it_len : length (fs_inodes f) = NINODE;
  it_sb : fs_sb f = decode_sb (d 1);
  it_pos j x : fs_inodes f !! j = Some x -> 0 <= i_ref x;
  it_ref j x : fs_inodes f !! j = Some x -> 0 < i_ref x -> i_dev x = ROOTDEV /\ i_ref x = Z.of_nat (multiplicity (i_inum x) R);
  it_uniq j j' x x' : fs_inodes f !! j = Some x -> fs_inodes f !! j' = Some x' -> 0 < i_ref x -> 0 < i_ref x' -> i_inum x = i_inum x' -> j = j';
  it_all inum : inum ∈ R -> exists j x, fs_inodes f !! j = Some x /\ 0 < i_ref x /\ i_inum x = inum;
  it_valid j x : fs_inodes f !! j = Some x -> 0 < i_ref x -> i_valid x <> 0 -> as_dinode x = disk_inode d (i_inum x);
  it_lock j x : fs_inodes f !! j = Some x -> if decide (j ∈ H) then sk_locked (i_lock x) = 1 /\ sk_pid (i_lock x) = pid else sk_locked (i_lock x) = 0 }.

(** Entry [j] is for inode [inum]. *)
Definition names (f : fs_t) (j : nat) (inum : Z) : Prop := exists x, fs_inodes f !! j = Some x /\ 0 < i_ref x /\ i_inum x = inum.

Lemma itable_set d R R' H H' f j x x' :
  itable d R H f -> fs_inodes f !! j = Some x -> 0 <= i_ref x' ->
  0 < i_ref x /\ i_inum x' = i_inum x \/ i_ref x = 0 /\ 0 < i_ref x' /\ (i_inum x' ∉ R) ->
  (0 < i_ref x' -> i_dev x' = ROOTDEV /\ (i_valid x' <> 0 -> as_dinode x' = disk_inode d (i_inum x'))) ->
  i_ref x' = Z.of_nat (multiplicity (i_inum x') R') -> (forall n, n <> i_inum x' -> multiplicity n R' = multiplicity n R) ->
  (if decide (j ∈ H') then sk_locked (i_lock x') = 1 /\ sk_pid (i_lock x') = pid else sk_locked (i_lock x') = 0) -> (forall j', j' <> j -> j' ∈ H' <-> j' ∈ H) ->
  itable d R' H' (set_inodes (<[j := x']> (fs_inodes f)) f).
Proof.
  intros [I1 I2 I3 I4 I5 I6 I7 I8] Hx Hp Hcase Hok Hr Hoth Hl Hh. pose proof (lookup_lt_Some _ _ _ Hx) as Hlt.
  assert (Hsep : forall j' y, j' <> j -> fs_inodes f !! j' = Some y -> 0 < i_ref y -> i_inum y <> i_inum x').
  { intros j' y Hne Hy Hry E. destruct Hcase as [[H1 H2] | (_ & _ & Hn)]; [apply Hne; apply (I5 j' j y x); congruence|].
    destruct (I4 j' y Hy Hry) as [_ E']. apply Hn. apply elem_of_multiplicity. rewrite <- E. lia. }
  assert (Hlook : forall j' y, <[j := x']> (fs_inodes f) !! j' = Some y -> j' = j /\ y = x' \/ j' <> j /\ fs_inodes f !! j' = Some y).
  { intros j' y [(<- & <- & _) | [Hne Hy]]%list_lookup_insert_Some; [left | right]; auto. }
  constructor; cbn [set_inodes fs_inodes fs_sb].
  - rewrite length_insert. exact I1.
  - exact I2.
  - intros j' y [[_ ->] | [_ Hy]]%Hlook; [exact Hp | eapply I3, Hy].
  - intros j' y [[_ ->] | [Hne Hy]]%Hlook Hry; [split; [apply Hok, Hry | exact Hr]|]. destruct (I4 j' y Hy Hry) as [H1 H2]. split; [exact H1|]. rewrite Hoth; [exact H2 | eapply Hsep; eassumption].
  - intros j1 j2 y1 y2 [[-> ->] | [N1 H1]]%Hlook [[-> ->] | [N2 H2]]%Hlook R1 R2 E; [reflexivity | | |eapply I5; eassumption]; exfalso; [eapply (Hsep j2 y2) | eapply (Hsep j1 y1)]; eauto.
  - intros n Hn. rewrite elem_of_multiplicity in Hn. destruct (decide (n = i_inum x')) as [-> | Hne].
    + exists j, x'. split; [apply list_lookup_insert_eq, Hlt | split; [rewrite Hr; lia | reflexivity]].
    + rewrite Hoth, <- elem_of_multiplicity in Hn by exact Hne. apply I6 in Hn as (j' & y & Hy & Hry & <-). exists j', y.
      split; [|auto]. rewrite list_lookup_insert_ne; [exact Hy|]. intros <-. rewrite Hx in Hy. injection Hy as <-. destruct Hcase as [[_ E] | (E & _)]; [congruence | lia].
  - intros j' y [[_ ->] | [_ Hy]]%Hlook Hry Hv; [apply Hok; assumption | eapply I7; eassumption].
  - intros j' y [[-> ->] | [Hne Hy]]%Hlook; [exact Hl|]. specialize (I8 j' y Hy). specialize (Hh j' Hne). repeat case_decide; tauto.
Qed.

Lemma itable_full d R H f : itable d R H f -> (forall j x, fs_inodes f !! j = Some x -> i_ref x <> 0) -> (NINODE <= size (dom R))%nat.
Proof.
  intros [I1 I2 I3 I4 I5 I6 I7 I8] Hall. assert (Hp : forall j x, fs_inodes f !! j = Some x -> 0 < i_ref x) by (intros j x Hx; pose proof (I3 j x Hx); specialize (Hall j x Hx); lia).
  assert (Hnd : NoDup (map i_inum (fs_inodes f))).
  { apply NoDup_alt. intros a b n Ha Hb. rewrite list_lookup_fmap in Ha, Hb. apply fmap_Some in Ha as (x & Hx & ->), Hb as (y & Hy & E). apply (I5 a b x y); eauto. }
  rewrite <- I1, <- (length_map i_inum), <- (size_list_to_set (C := gset Z) _ Hnd). apply subseteq_size. intros n Hn%elem_of_list_to_set.
  apply list_elem_of_fmap in Hn as (x & -> & (j & Hj)%list_elem_of_lookup). apply gmultiset_elem_of_dom, elem_of_multiplicity. destruct (I4 j x Hj (Hp j x Hj)) as [_ E]. specialize (Hp j x Hj). lia.
Qed.

(** The state of the file system while a process reads it: the cache [c], the
    log [l], the references [R] and the locked entries [H]. *)
Record serving (c : cache) (l : log_t) (R : gmultiset Z) (H : gset nat) (f : fs_t) : Prop := {
  us_calm : calm f c;
  us_log : fs_log f = l;
  us_table : itable (view c) R H f }.

Lemma itable_ext d R H f f' : itable d R H f -> fs_inodes f' = fs_inodes f -> fs_sb f' = fs_sb f -> itable d R H f'.
Proof. intros [] E1 E2. constructor; rewrite ?E1, ?E2; assumption. Qed.

Lemma serving_rest c l R H f f' : serving c l R H f -> cached f' c -> rest f f' -> serving c l R H f'.
Proof.
  intros [U1 U2 U3] Hc (E1 & E2 & E3). constructor; [eapply calm_rest; eassumption | congruence | eapply itable_ext; eassumption].
Qed.

Lemma serving_inodes c l R H R' H' f v : serving c l R H f -> itable (view c) R' H' (set_inodes v f) -> serving c l R' H' (set_inodes v f).
Proof. intros [[U1 U2 U3] U4 _] Ht. constructor; [constructor; [apply cached_set_inodes, U1 | exact U2 | exact U3] | exact U4 | exact Ht]. Qed.

Lemma names_insert f j x y j' n : fs_inodes f !! j = Some x -> 0 < i_ref y -> i_inum y = i_inum x -> names f j' n -> names (set_inodes (<[j := y]> (fs_inodes f)) f) j' n.
Proof.
  intros Hx Hr Ei (z & Hz & H1 & H2). destruct (decide (j' = j)) as [-> | Hne].
  - exists y. cbn [set_inodes fs_inodes]. rewrite list_lookup_insert_eq by (eapply lookup_lt_Some; exact Hx). rewrite Hx in Hz. injection Hz as ->. split; [reflexivity | split; [exact Hr | congruence]].
  - exists z. cbn [set_inodes fs_inodes]. rewrite list_lookup_insert_ne by congruence. auto.
Qed.

Lemma goes_upd_inode P `{Stable P} j g f x : fs_inodes f !! j = Some x -> Cache.goes P P (upd_inode j g) f tt (set_inodes (<[j := g x]> (fs_inodes f)) f).
Proof. intros Hx. rewrite <- (alter_insert _ _ _ _ Hx). exact (goes_upd_fs P _ f). Qed.

Lemma inodes_insert_twice f j x y : set_inodes (<[j := y]> (fs_inodes (set_inodes (<[j := x]> (fs_inodes f)) f))) (set_inodes (<[j := x]> (fs_inodes f)) f) = set_inodes (<[j := y]> (fs_inodes f)) f.
Proof. cbn [set_inodes fs_inodes]. rewrite list_insert_insert_eq. reflexivity. Qed.

Lemma iget_spec c l R H f inum :
  serving c l R H f -> inum ∈ R \/ (size (dom R) < NINODE)%nat ->
  exists j f', goes (iget ROOTDEV inum) f j f' /\ serving c l (R ⊎ {[+ inum +]}) H f' /\ names f' j inum /\ forall j' n, names f j' n -> names f' j' n.
Proof.
  intros Hu Hroom. pose proof (us_table _ _ _ _ _ Hu) as Ht. pose proof (iget_scan_spec ROOTDEV inum (fs_inodes f) 0 None) as Hs.
  destruct (iget_scan ROOTDEV inum (fs_inodes f) 0 None) as [j | [j|]] eqn:Escan.
  - destruct Hs as (j' & x & -> & Hx & Hr & _ & <-). destruct (it_ref _ _ _ _ Ht _ _ Hx Hr) as [Hdev Href].
    set (y := set_i_ref (i_ref x + 1) x). exists j', (set_inodes (<[j' := y]> (fs_inodes f)) f). split; [|split; [|split]].
    + unfold iget. eapply goes_cons; [apply goes_acquire; discriminate|]. eapply goes_bind; [apply goes_get_fs|]. rewrite Escan. cbn [Nat.add].
      eapply goes_cons; [apply goes_upd_inode; [apply _ | exact Hx]|]. eapply goes_cons; [apply goes_release; discriminate | apply goes_ret].
    + eapply serving_inodes; [exact Hu|]. apply (itable_set _ R _ H H f j' x y Ht Hx); cbn [y set_i_ref i_ref i_inum i_dev i_valid i_lock]; [lia | left; auto | | | | |tauto].
      * intros _. split; [exact Hdev | intros Hv; exact (it_valid _ _ _ _ Ht _ _ Hx Hr Hv)].
      * rewrite multiplicity_disj_union, multiplicity_singleton, decide_True by reflexivity. lia.
      * intros n Hn. rewrite multiplicity_disj_union, multiplicity_singleton, decide_False by congruence. lia.
      * exact (it_lock _ _ _ _ Ht _ _ Hx).
    + exists y. cbn [set_inodes fs_inodes]. rewrite list_lookup_insert_eq by (eapply lookup_lt_Some; exact Hx). split; [reflexivity | cbn; split; [lia | reflexivity]].
    + intros j2 n. apply (names_insert f j' x y); [exact Hx | cbn; lia | reflexivity].
  - destruct Hs as [Hno [E | (_ & j' & x & -> & Hx & Hr)]]; [discriminate E|]. cbn [Nat.add] in *. set (y := set_i_valid 0 (set_i_ref 1 (set_i_inum inum (set_i_dev ROOTDEV x)))).
    assert (HnR : inum ∉ R). { intros (j2 & x2 & Hx2 & Hr2 & E2)%(it_all _ _ _ _ Ht). apply (Hno j2 x2 Hx2). split; [exact Hr2|]. split; [apply (it_ref _ _ _ _ Ht _ _ Hx2 Hr2) | exact E2]. }
    pose proof (lookup_lt_Some _ _ _ Hx) as Hlt. exists j', (set_inodes (<[j' := y]> (fs_inodes f)) f). split; [|split; [|split]].
    + unfold iget. eapply goes_cons; [apply goes_acquire; discriminate|]. eapply goes_bind; [apply goes_get_fs|]. rewrite Escan. cbn [Nat.add].
      eapply goes_cons; [apply goes_upd_inode; [apply _ | exact Hx]|]. do 3 (eapply goes_cons; [apply goes_upd_inode; [apply _ | apply list_lookup_insert_eq; rewrite ?length_insert; exact Hlt]|]; rewrite inodes_insert_twice).
      eapply goes_cons; [apply goes_release; discriminate | apply goes_ret].
    + eapply serving_inodes; [exact Hu|]. apply (itable_set _ R _ H H f j' x y Ht Hx); cbn [y set_i_valid set_i_ref set_i_inum set_i_dev i_ref i_inum i_dev i_valid i_lock]; [lia | right; split; [exact Hr | split; [lia | exact HnR]] | | | | |tauto].
      * intros _. split; [reflexivity | intros []; reflexivity].
      * rewrite multiplicity_disj_union, multiplicity_singleton, decide_True by reflexivity. rewrite elem_of_multiplicity in HnR. lia.
      * intros n Hn. rewrite multiplicity_disj_union, multiplicity_singleton, decide_False by congruence. lia.
      * exact (it_lock _ _ _ _ Ht _ _ Hx).
    + exists y. cbn [set_inodes fs_inodes]. rewrite list_lookup_insert_eq by exact Hlt. split; [reflexivity | cbn; split; [lia | reflexivity]].
    + intros j2 n (z & Hz & H1 & H2). exists z. cbn [set_inodes fs_inodes]. rewrite list_lookup_insert_ne; [auto|]. intros ->. rewrite Hx in Hz. injection Hz as ->. lia.
  - destruct Hs as [Hno [_ Hall]]. exfalso. pose proof (itable_full _ _ _ _ Ht Hall). destruct Hroom as [Hin | Hlt]; [|lia].
    apply (it_all _ _ _ _ Ht) in Hin as (j2 & x2 & Hx2 & Hr2 & E2). apply (Hno j2 x2 Hx2). split; [exact Hr2|]. split; [apply (it_ref _ _ _ _ Ht _ _ Hx2 Hr2) | exact E2].
Qed.

(** ** Locking inodes *)

Definition put_entry (j : nat) (x : inode) (f : fs_t) : fs_t := set_inodes (<[j := x]> (fs_inodes f)) f.

Lemma put_entry_lookup j x y f : fs_inodes f !! j = Some y -> fs_inodes (put_entry j x f) !! j = Some x.
Proof. intros Hy. apply list_lookup_insert_eq. eapply lookup_lt_Some, Hy. Qed.
Lemma put_entry_twice j x y f : put_entry j y (put_entry j x f) = put_entry j y f.
Proof. apply inodes_insert_twice. Qed.

Definition locked_by (x : inode) : inode := set_i_lock (mkSleeplock 1 (sk_name (i_lock x)) pid) x.
Definition unlocked (x : inode) : inode := set_i_lock (mkSleeplock 0 (sk_name (i_lock x)) 0) x.

Lemma goes_put_entry P `{Stable P} j g f x : fs_inodes f !! j = Some x -> Cache.goes P P (upd_inode j g) f tt (put_entry j (g x) f).
Proof. apply goes_upd_inode, _. Qed.

Lemma acquiresleep_inode j x f :
  fs_inodes f !! j = Some x -> sk_locked (i_lock x) = 0 -> goes (acquiresleep (LInode j)) f tt (put_entry j (locked_by x) f).
Proof.
  intros E Hl. unfold acquiresleep. eapply goes_bind; [apply goes_acquire; discriminate|]. eapply goes_bind.
  { pose proof patient. destruct rounds as [|r]; [lia|]. cbn [acquiresleep_loop get_slock]. eapply goes_bind; [eapply goes_bind; [apply goes_get_inode, E | apply goes_ret]|]. rewrite Hl. apply goes_ret. }
  cbn [get_slock set_slock]. eapply goes_bind; [eapply goes_bind; [apply goes_get_inode, E | apply goes_ret]|].
  eapply goes_bind; [apply goes_put_entry; [apply _ | exact E]|]. eapply goes_bind; [apply goes_mypid|].
  eapply goes_bind; [eapply goes_bind; [eapply goes_get_inode, put_entry_lookup, E | apply goes_ret]|].
  eapply goes_bind; [apply goes_put_entry; [apply _ | eapply put_entry_lookup, E]|]. rewrite put_entry_twice. apply goes_release. discriminate.
Qed.

Lemma releasesleep_inode j x f : fs_inodes f !! j = Some x -> goes (releasesleep (LInode j)) f tt (put_entry j (unlocked x) f).
Proof.
  intros E. unfold releasesleep. eapply goes_bind; [apply goes_acquire; discriminate|]. cbn [get_slock set_slock].
  eapply goes_bind; [eapply goes_bind; [apply goes_get_inode, E | apply goes_ret]|]. eapply goes_bind; [apply goes_put_entry; [apply _ | exact E]|].
  eapply goes_bind; [apply goes_wakeup; discriminate|]. apply goes_release. discriminate.
Qed.

Lemma holdingsleep_inode j x f : fs_inodes f !! j = Some x -> sk_locked (i_lock x) = 1 -> sk_pid (i_lock x) = pid -> goes (holdingsleep (LInode j)) f true f.
Proof.
  intros E Hl Hp. unfold holdingsleep. eapply goes_bind; [apply goes_acquire; discriminate|]. cbn [get_slock].
  eapply goes_bind; [eapply goes_bind; [apply goes_get_inode, E | apply goes_ret]|]. rewrite Hl. cbn [Z.eqb].
  eapply goes_bind; [eapply goes_bind; [apply goes_mypid | apply goes_ret]|]. rewrite Hp, Z.eqb_refl.
  eapply goes_bind; [apply goes_release; discriminate | apply goes_ret].
Qed.

(** Changing an entry in use, its references and its name aside. *)
Lemma serving_put c l R H H' f j x y :
  serving c l R H f -> fs_inodes f !! j = Some x -> 0 < i_ref x -> i_ref y = i_ref x -> i_inum y = i_inum x -> i_dev y = i_dev x ->
  (i_valid y <> 0 -> as_dinode y = disk_inode (view c) (i_inum y)) ->
  (if decide (j ∈ H') then sk_locked (i_lock y) = 1 /\ sk_pid (i_lock y) = pid else sk_locked (i_lock y) = 0) -> (forall j', j' <> j -> j' ∈ H' <-> j' ∈ H) ->
  serving c l R H' (put_entry j y f) /\ forall j' n, names f j' n -> names (put_entry j y f) j' n.
Proof.
  intros Hu Hx Hr E1 E2 E3 Hv Hl Hh. pose proof (us_table _ _ _ _ _ Hu) as Ht. destruct (it_ref _ _ _ _ Ht _ _ Hx Hr) as [Hd Href].
  split; [|intros j' n; apply (names_insert f j x y j' n Hx); [lia | exact E2]]. apply (serving_inodes c l R H); [exact Hu|].
  apply (itable_set _ R _ H H' f j x y Ht Hx); [lia | left; auto | intros _; split; [congruence | exact Hv] | congruence | reflexivity | exact Hl | exact Hh].
Qed.

(** A locked and loaded entry. *)
Definition holds (c : cache) (f : fs_t) (j : nat) (inum : Z) : Prop :=
  exists x, fs_inodes f !! j = Some x /\ 0 < i_ref x /\ i_inum x = inum /\ i_dev x = ROOTDEV /\ i_valid x <> 0 /\ as_dinode x = disk_inode (view c) inum.

Lemma names_rest f f' j n : rest f f' -> names f j n -> names f' j n.
Proof. intros (_ & _ & E) (x & H1 & H2). exists x. rewrite E. auto. Qed.

(** The fields [ilock] reads. *)
Definition load (d : dinode) (x : inode) : inode :=
  set_i_addrs (d_addrs d) (set_i_size (d_size d) (set_i_nlink (d_nlink d) (set_i_minor (d_minor d) (set_i_major (d_major d) (set_i_type (d_type d) x))))).
Lemma load_fields d x : let y := set_i_valid 1 (load d x) in
  as_dinode y = d /\ i_ref y = i_ref x /\ i_inum y = i_inum x /\ i_dev y = i_dev x /\ i_lock y = i_lock x /\ i_valid y = 1 /\ i_type y = d_type d.
Proof. destruct d, x. repeat split. Qed.

Lemma ilock_load c l R H f j x1 inum :
  serving c l R H f -> fs_inodes f !! j = Some x1 -> 0 < i_ref x1 -> i_inum x1 = inum -> j ∈ H ->
  d_type (disk_inode (view c) inum) <> 0 -> IBLOCK inum (decode_sb (view c 1)) < FSSIZE ->
  runs (let! sb := get_fs fs_sb in
        let! bp := bread (i_dev x1) (IBLOCK (i_inum x1) sb) in
        let! x := get_buf bp in
        let d := decode_dinode (b_data x) (inode_off (i_inum x1)) in
        upd_inode j (load d) ;;
        brelse bp ;;
        upd_inode j (set_i_valid 1) ;;
        let! ip := get_inode j in
        when (i_type ip =? 0) (panic "ilock: no type")) f
    (fun _ f' => serving c l R H f' /\ holds c f' j inum /\ forall j' n, names f j' n -> names f' j' n).
Proof.
  intros Hu Hx Hr <- HjH Ht Hb. pose proof (us_table _ _ _ _ _ Hu) as Htab. destruct (it_ref _ _ _ _ Htab _ _ Hx Hr) as [Hd _]. pose proof (it_lock _ _ _ _ Htab _ _ Hx) as Hlk. rewrite decide_True in Hlk by exact HjH.
  eapply runs_step; [apply goes_get_fs|]. rewrite (it_sb _ _ _ _ Htab), Hd. apply (bread_view f c); [apply Hu | exact Hb|]. intros b y f1 Hy Ey Hc1 Hr1.
  eapply runs_step; [apply goes_get_buf, Hy|]. rewrite Ey. cbn zeta. change (decode_dinode _ _) with (disk_inode (view c) (i_inum x1)). set (di := disk_inode (view c) (i_inum x1)) in *.
  assert (Hx1 : fs_inodes f1 !! j = Some x1) by (rewrite (proj2 (proj2 Hr1)); exact Hx). eapply runs_step; [apply goes_put_entry; [apply _ | exact Hx1]|].
  destruct (brelse_view b _ (put_entry j (load di x1) f1) c (cached_set_inodes _ _ _ _ Hc1) (cm_held _ _ (us_calm _ _ _ _ _ Hu))) as (f2 & Hgo2 & Hc2 & Hr2). eapply runs_step; [exact Hgo2|].
  assert (Hx2 : fs_inodes f2 !! j = Some (load di x1)) by (rewrite (proj2 (proj2 Hr2)); eapply put_entry_lookup, Hx1). eapply runs_step; [apply goes_put_entry; [apply _ | exact Hx2]|].
  set (x3 := set_i_valid 1 (load di x1)). eapply runs_step; [eapply goes_get_inode, put_entry_lookup, Hx2|]. destruct (load_fields di x1) as (L1 & L2 & L3 & L4 & L5 & L6 & L7). fold x3 in L1, L2, L3, L4, L5, L6, L7. clearbody x3.
  rewrite L7, (proj2 (Z.eqb_neq _ _) Ht). cbn [when]. eapply goes_runs; [apply goes_ret|].
  destruct (serving_put c l R H H f j x1 x3 Hu Hx Hr L2 L3 L4) as [Hu3 Hn3]; [intros _; rewrite L1, L3; reflexivity | rewrite decide_True, L5 by exact HjH; exact Hlk | tauto|].
  assert (Hrest : rest (put_entry j x3 f) (put_entry j x3 f2)).
  { destruct Hr1 as (A1 & A2 & A3), Hr2 as (B1 & B2 & B3). cbn [put_entry set_inodes fs_log fs_sb fs_inodes] in B1, B2, B3. repeat split; cbn; [congruence | congruence|]. rewrite B3, A3, list_insert_insert_eq. reflexivity. }
  split; [eapply serving_rest; [exact Hu3 | apply cached_set_inodes, Hc2 | exact Hrest]|]. split; [|intros j' n Hn; eapply names_rest; [exact Hrest | apply Hn3, Hn]].
  exists x3. split; [eapply put_entry_lookup, Hx2|]. rewrite L2, L3, L4, L6. repeat (split; [assumption || discriminate || reflexivity|]). exact L1.
Qed.

Lemma ilock_spec c l R H f j inum :
  serving c l R H f -> names f j inum -> (j ∉ H) -> d_type (disk_inode (view c) inum) <> 0 -> IBLOCK inum (decode_sb (view c 1)) < FSSIZE ->
  runs (ilock j) f (fun _ f' => serving c l R ({[j]} ∪ H) f' /\ holds c f' j inum /\ forall j' n, names f j' n -> names f' j' n).
Proof.
  intros Hu (x & Hx & Hr & <-) HjH Ht Hb. pose proof (us_table _ _ _ _ _ Hu) as Htab. destruct (it_ref _ _ _ _ Htab _ _ Hx Hr) as [Hd _]. pose proof (it_lock _ _ _ _ Htab _ _ Hx) as Hlk. rewrite decide_False in Hlk by exact HjH.
  unfold ilock. eapply runs_step; [apply goes_get_inode, Hx|]. replace (i_ref x <? 1) with false by (symmetry; apply Z.ltb_ge; lia).
  eapply runs_step; [apply (acquiresleep_inode j x f Hx Hlk)|]. eapply runs_step; [eapply goes_get_inode, put_entry_lookup, Hx|].
  destruct (serving_put c l R H ({[j]} ∪ H) f j x (locked_by x) Hu Hx Hr) as [Hu1 Hn1]; try reflexivity; [intros Hv; exact (it_valid _ _ _ _ Htab _ _ Hx Hr Hv) | rewrite decide_True by set_solver; split; reflexivity | set_solver|].
  cbn [locked_by set_i_lock i_valid]. destruct (Z.eqb_spec (i_valid x) 0) as [Hv | Hv]; cbn [when].
  - eapply runs_mono; [apply (ilock_load c l R ({[j]} ∪ H) (put_entry j (locked_by x) f) j (locked_by x) (i_inum x) Hu1); try assumption; [eapply put_entry_lookup, Hx | reflexivity | set_solver]|].
    intros _ f' (H1 & H2 & H3). split; [exact H1|]. split; [exact H2 | auto].
  - eapply goes_runs; [apply goes_ret|]. split; [exact Hu1|]. split; [|exact Hn1]. exists (locked_by x). split; [eapply put_entry_lookup, Hx|].
    repeat (split; [assumption || reflexivity|]). exact (it_valid _ _ _ _ Htab _ _ Hx Hr Hv).
Qed.

Lemma iunlock_spec c l R H f j inum :
  serving c l R H f -> names f j inum -> j ∈ H ->
  exists f', goes (iunlock j) f tt f' /\ serving c l R (H ∖ {[j]}) f' /\ forall j' n, names f j' n -> names f' j' n.
Proof.
  intros Hu (x & Hx & Hr & <-) HjH. pose proof (us_table _ _ _ _ _ Hu) as Htab. pose proof (it_lock _ _ _ _ Htab _ _ Hx) as Hlk. rewrite decide_True in Hlk by exact HjH.
  exists (put_entry j (unlocked x) f). split.
  - unfold iunlock. eapply goes_bind; [apply (holdingsleep_inode j x); [exact Hx | apply Hlk..]|]. eapply goes_bind; [apply goes_get_inode, Hx|].
    replace (negb true || (i_ref x <? 1)) with false by (symmetry; apply orb_false_iff; split; [reflexivity | apply Z.ltb_ge; lia]). apply releasesleep_inode, Hx.
  - apply (serving_put c l R H _ f j x (unlocked x) Hu Hx Hr); try reflexivity; [intros Hv; exact (it_valid _ _ _ _ Htab _ _ Hx Hr Hv) | rewrite decide_False by set_solver; reflexivity | set_solver].
Qed.

Lemma iput_spec c l R H f j inum :
  serving c l R H f -> names f j inum -> (j ∉ H) -> d_nlink (disk_inode (view c) inum) <> 0 ->
  exists f', goes (iput j) f tt f' /\ serving c l (R ∖ {[+ inum +]}) H f' /\
    forall j' n, names f j' n -> n <> inum \/ (2 <= multiplicity inum R)%nat -> names f' j' n.
Proof.
  intros Hu (x & Hx & Hr & <-) HjH Hnl. pose proof (us_table _ _ _ _ _ Hu) as Htab. destruct (it_ref _ _ _ _ Htab _ _ Hx Hr) as [Hd Href]. pose proof (it_lock _ _ _ _ Htab _ _ Hx) as Hlk. rewrite decide_False in Hlk by exact HjH.
  set (x1 := locked_by x). set (x2 := unlocked x1). set (x3 := set_i_ref (i_ref x - 1) x2). exists (put_entry j x3 f). split; [|split].
  - unfold iput. eapply goes_cons; [apply (acquiresleep_inode j x f Hx Hlk)|]. eapply goes_bind; [eapply goes_get_inode, put_entry_lookup, Hx|].
    replace (negb (i_valid (locked_by x) =? 0) && (i_nlink (locked_by x) =? 0)) with false.
    2:{ symmetry. cbn [locked_by set_i_lock i_valid i_nlink]. destruct (Z.eqb_spec (i_valid x) 0) as [Hv | Hv]; [reflexivity|]. cbn [negb andb]. apply Z.eqb_neq.
        rewrite <- (it_valid _ _ _ _ Htab _ _ Hx Hr Hv) in Hnl. exact Hnl. }
    cbn [when]. eapply goes_cons; [apply goes_ret|]. eapply goes_cons; [eapply releasesleep_inode, put_entry_lookup, Hx|]. rewrite put_entry_twice.
    eapply goes_cons; [apply goes_acquire; discriminate|]. eapply goes_cons; [apply goes_put_entry; [apply _ | eapply put_entry_lookup, Hx]|]. rewrite put_entry_twice. apply goes_release. discriminate.
  - apply (serving_inodes c l R H); [exact Hu|]. apply (itable_set _ R _ H H f j x x3 Htab Hx); cbn [x3 x2 x1 set_i_ref unlocked locked_by set_i_lock i_ref i_inum i_dev i_valid i_lock sk_locked]; [lia | left; auto | | | | | tauto].
    + intros _. split; [exact Hd | intros Hv; exact (it_valid _ _ _ _ Htab _ _ Hx Hr Hv)].
    + rewrite multiplicity_difference, multiplicity_singleton, decide_True by reflexivity. lia.
    + intros n Hn. rewrite multiplicity_difference, multiplicity_singleton, decide_False by congruence. lia.
    + rewrite decide_False by exact HjH. reflexivity.
  - intros j' n (z & Hz & Hrz & <-) Hcase. destruct (decide (j' = j)) as [-> | Hne].
    + rewrite Hx in Hz. injection Hz as <-. destruct Hcase as [[] | Hm]; [reflexivity|]. exists x3. split; [eapply put_entry_lookup, Hx|]. split; [cbn; lia | reflexivity].
    + exists z. cbn [put_entry set_inodes fs_inodes]. rewrite list_lookup_insert_ne by congruence. auto.
Qed.

Lemma iunlockput_spec c l R H f j inum :
  serving c l R H f -> names f j inum -> j ∈ H -> d_nlink (disk_inode (view c) inum) <> 0 ->
  exists f', goes (iunlockput j) f tt f' /\ serving c l (R ∖ {[+ inum +]}) (H ∖ {[j]}) f' /\
    forall j' n, names f j' n -> n <> inum \/ (2 <= multiplicity inum R)%nat -> names f' j' n.
Proof.
  intros Hu Hn HjH Hnl. destruct (iunlock_spec c l R H f j inum Hu Hn HjH) as (f1 & Hgo1 & Hu1 & Hn1).
  destruct (iput_spec c l R _ f1 j inum Hu1 (Hn1 j inum Hn) ltac:(set_solver) Hnl) as (f2 & Hgo2 & Hu2 & Hn2).
  exists f2. split; [eapply goes_cons; eassumption|]. split; [exact Hu2 | auto].
Qed.

(** ** Directories *)

Definition dir_entry (data : list Z) (k : nat) : dirent := decode_dirent (take 16 (drop (16 * k) data)).

(** The first entry with the name, among [n] entries from [k] on. *)
Fixpoint dir_find (name data : list Z) (k n : nat) : option (Z * nat) :=
  match n with
  | O => None
  | S n' =>
      let de := dir_entry data k in
      if (de_inum de =? 0) || negb (namecmp name (de_name de) =? 0) then dir_find name data (S k) n'
      else Some (de_inum de, k)
  end.
Definition dir_slots (di : dinode) : nat := Z.to_nat (d_size di / DIRENT_SIZE).
Definition lookup_name (d : Z -> list Z) (di : dinode) (name : list Z) : option (Z * nat) := dir_find name (file_data d di) 0 (dir_slots di).

Record dir_wf (d : Z -> list Z) (di : dinode) : Prop := {
  dw_file : file_wf d di;
  dw_type : d_type di = T_DIR;
  dw_size : d_size di mod DIRENT_SIZE = 0 }.

Lemma holds_rest c f f' j inum : rest f f' -> holds c f j inum -> holds c f' j inum.
Proof. intros (_ & _ & E) (x & H1 & H2). exists x. rewrite E. auto. Qed.

Lemma read_dirent_spec dv c l R H f j inum k msg :
  serving c l R H f -> holds c f j inum -> let di := disk_inode (view c) inum in dir_wf (view c) di -> (k < dir_slots di)%nat ->
  runs (read_dirent dv j (16 * Z.of_nat k) msg) f (fun de f' => de = dir_entry (file_data (view c) di) k /\ cached f' c /\ rest f f').
Proof.
  intros Hu (x & Hx & _ & _ & Hdev & _ & E) di [W1 W2 W3] Hk. change (disk_inode (view c) inum) with di in E.
  assert (Esz : i_size x = d_size di) by (rewrite <- E; reflexivity). assert (Ety : i_type x = d_type di) by (rewrite <- E; reflexivity). pose proof (fw_size _ _ W1) as Hs. change (MAXFILE * BSIZE) with 71680 in Hs.
  assert (Hin : 16 * Z.of_nat k + 16 <= d_size di) by (unfold dir_slots, DIRENT_SIZE in *; clear -Hk W3 Hs; zify; Z.div_mod_to_equations; lia).
  unfold read_dirent. eapply runs_bind; [apply (readi_spec dv j x c _ DIRENT_SIZE f (us_calm _ _ _ _ _ Hu) Hx Hdev); rewrite ?E, ?Esz, ?Ety; try assumption; unfold DIRENT_SIZE; try lia; rewrite W2; discriminate|].
  intros r f1 (-> & Hc1 & Hr1). rewrite E. change (Z.to_nat DIRENT_SIZE) with 16%nat. replace (Z.to_nat (16 * Z.of_nat k)) with (16 * k)%nat by lia.
  replace (Z.of_nat (length _) =? DIRENT_SIZE) with true; [eapply goes_runs; [apply goes_ret | auto]|].
  symmetry. apply Z.eqb_eq. rewrite length_take, length_drop, file_data_length by exact W1. unfold DIRENT_SIZE. lia.
Qed.

Lemma dirlookup_loop_spec dv c l R H j inum name n : forall k fuel f,
  serving c l R H f -> holds c f j inum -> let di := disk_inode (view c) inum in let data := file_data (view c) di in
  dir_wf (view c) di -> (k + n)%nat = dir_slots di -> (n < fuel)%nat -> (size (dom R) < NINODE)%nat ->
  runs (dirlookup_loop dv j name (16 * Z.of_nat k) fuel) f (fun r f' =>
    match dir_find name data k n with
    | None => r = None /\ serving c l R H f'
    | Some (inum', k') => exists j', r = Some (j', 16 * Z.of_nat k') /\ serving c l (R ⊎ {[+ inum' +]}) H f' /\ names f' j' inum'
    end /\ forall j' n, names f j' n -> names f' j' n).
Proof.
  induction n as [|n IH]; intros k [|fuel] f Hu Hh di data Hw Hk Hf Hroom; try lia; cbn [dirlookup_loop dir_find]; pose proof Hh as (x & Hx & _ & _ & Hdev & _ & E); change (disk_inode (view c) inum) with di in E;
    (eapply runs_step; [apply goes_get_inode, Hx|]); assert (Esz : i_size x = d_size di) by (rewrite <- E; reflexivity); rewrite Esz; pose proof (fw_size _ _ (dw_file _ _ Hw)) as Hs; change (MAXFILE * BSIZE) with 71680 in Hs.
  - replace (16 * Z.of_nat k <? d_size di) with false by (symmetry; apply Z.ltb_ge; pose proof (dw_size _ _ Hw); unfold dir_slots, DIRENT_SIZE in *; zify; Z.div_mod_to_equations; lia).
    eapply goes_runs; [apply goes_ret|]. auto.
  - assert (Hin : 16 * Z.of_nat k + 16 <= d_size di) by (pose proof (dw_size _ _ Hw) as W3; clear -Hk W3 Hs; unfold dir_slots, DIRENT_SIZE in *; zify; Z.div_mod_to_equations; lia).
    replace (16 * Z.of_nat k <? d_size di) with true by (symmetry; apply Z.ltb_lt; lia).
    eapply runs_bind; [apply (read_dirent_spec dv c l R H f j inum k _ Hu Hh Hw); fold di; lia|]. intros de f1 (-> & Hc1 & Hr1). fold di data. pose proof (serving_rest _ _ _ _ _ _ Hu Hc1 Hr1) as Hu1.
    assert (Hnext : runs (dirlookup_loop dv j name (w32 (16 * Z.of_nat k + DIRENT_SIZE)) fuel) f1 (fun r f' =>
      match dir_find name data (S k) n with
      | None => r = None /\ serving c l R H f'
      | Some (inum', k') => exists j', r = Some (j', 16 * Z.of_nat k') /\ serving c l (R ⊎ {[+ inum' +]}) H f' /\ names f' j' inum'
      end /\ forall j' n, names f j' n -> names f' j' n)).
    { replace (w32 (16 * Z.of_nat k + DIRENT_SIZE)) with (16 * Z.of_nat (S k)) by (rewrite w32_small by (unfold u32, DIRENT_SIZE; lia); unfold DIRENT_SIZE; lia).
      eapply runs_mono; [apply (IH (S k) fuel f1 Hu1 (holds_rest _ _ _ _ _ Hr1 Hh) Hw); fold di; lia|]. intros r f2 [H1 H2]. split; [exact H1|]. intros j' m Hn. apply H2. eapply names_rest; eassumption. }
    destruct (de_inum (dir_entry data k) =? 0) eqn:E0; cbn [orb]; [exact Hnext|]. destruct (namecmp name (de_name (dir_entry data k)) =? 0); cbn [negb]; [|exact Hnext].
    rewrite Hdev. destruct (iget_spec c l R H f1 (de_inum (dir_entry data k)) Hu1 (or_intror Hroom)) as (j' & f2 & Hgo & Hu2 & Hn2 & Hp2). eapply runs_step; [exact Hgo|]. eapply goes_runs; [apply goes_ret|].
    split; [exists j'; auto|]. intros j2 m Hn. apply Hp2. eapply names_rest; eassumption.
Qed.

(** [dirlookup] finds the entry and takes a reference to its inode. *)
Lemma dirlookup_spec dv c l R H f j inum name :
  serving c l R H f -> holds c f j inum -> let di := disk_inode (view c) inum in dir_wf (view c) di -> (size (dom R) < NINODE)%nat ->
  runs (dirlookup dv j name) f (fun r f' =>
    match lookup_name (view c) di name with
    | None => r = None /\ serving c l R H f'
    | Some (inum', k') => exists j', r = Some (j', 16 * Z.of_nat k') /\ serving c l (R ⊎ {[+ inum' +]}) H f' /\ names f' j' inum'
    end /\ forall j' n, names f j' n -> names f' j' n).
Proof.
  intros Hu Hh di Hw Hroom. pose proof Hh as (x & Hx & _ & _ & Hdev & _ & E). change (disk_inode (view c) inum) with di in E. unfold dirlookup. eapply runs_step; [apply goes_get_inode, Hx|].
  assert (Ety : i_type x = T_DIR) by (rewrite <- (dw_type _ _ Hw), <- E; reflexivity). assert (Esz : i_size x = d_size di) by (rewrite <- E; reflexivity). rewrite Ety, Esz. cbn [Z.eqb negb T_DIR Pos.eqb].
  apply (dirlookup_loop_spec dv c l R H j inum name (dir_slots di) 0); try assumption; [reflexivity | unfold dir_fuel, dir_slots; lia].
Qed.

(** ** Paths *)

(** The inode that the elements [es] lead to from [inum]. *)
Fixpoint walk (d : Z -> list Z) (inum : Z) (es : list (list Z)) : option Z :=
  match es with
  | [] => Some inum
  | e :: es' =>
      let di := disk_inode d inum in
      if d_type di =? T_DIR then
        match lookup_name d di (take DIRSIZ e) with
        | Some (inum', _) => walk d inum' es'
        | None => None
        end
      else None
  end.

(** A file system: a set of inodes, in use and linked, closed under the entries
    of their directories. *)
Record fs_wf (d : Z -> list Z) (live : Z -> Prop) : Prop := {
  wf_type inum : live inum -> d_type (disk_inode d inum) <> 0;
  wf_link inum : live inum -> d_nlink (disk_inode d inum) <> 0;
  wf_block inum : live inum -> IBLOCK inum (decode_sb (d 1)) < FSSIZE;
  wf_dir inum : live inum -> d_type (disk_inode d inum) = T_DIR -> dir_wf d (disk_inode d inum);
  wf_entry inum name inum' k : live inum -> d_type (disk_inode d inum) = T_DIR -> lookup_name d (disk_inode d inum) name = Some (inum', k) -> live inum' }.

Lemma walk_live d live es : fs_wf d live -> forall inum inum', live inum -> walk d inum es = Some inum' -> live inum'.
Proof.
  intros Hw. induction es as [|e es IH]; intros inum inum' Hl; cbn [walk]; [intros [= <-]; exact Hl|].
  destruct (Z.eqb_spec (d_type (disk_inode d inum)) T_DIR) as [Ht | _]; [|discriminate]. destruct (lookup_name _ _ _) as [[n k]|] eqn:E; [|discriminate].
  apply IH. eapply wf_entry; eassumption.
Qed.

Lemma dom_add (R : gmultiset Z) n : (size (dom (R ⊎ {[+ n +]})) <= S (size (dom R)))%nat.
Proof.
  transitivity (size ({[n]} ∪ dom R)).
  - apply subseteq_size. intros m. rewrite elem_of_union, elem_of_singleton, !gmultiset_elem_of_dom. multiset_solver.
  - rewrite size_union_alt, size_singleton. assert (size (dom R ∖ {[n]}) <= size (dom R))%nat by (apply subseteq_size; set_solver). lia.
Qed.

Lemma add_sub (R : gmultiset Z) a b : (R ⊎ {[+ a +]} ⊎ {[+ b +]}) ∖ {[+ a +]} = R ⊎ {[+ b +]}.
Proof. multiset_solver. Qed.

Lemma namex_loop_spec dv c l R live fuel : forall path f j inum nm,
  fs_wf (view c) live -> live inum -> serving c l (R ⊎ {[+ inum +]}) ∅ f -> names f j inum -> (S (size (dom R)) < NINODE)%nat -> (length path < fuel)%nat ->
  runs (namex_loop dv j path false nm fuel) f (fun r f' =>
    match walk (view c) inum (elems path []) with
    | None => r = None /\ serving c l R ∅ f'
    | Some inum' => exists j' nm', r = Some (j', nm') /\ serving c l (R ⊎ {[+ inum' +]}) ∅ f' /\ names f' j' inum'
    end).
Proof.
  induction fuel as [|fuel IH]; intros path f j inum nm Hwf Hlive Hu Hn Hroom Hf; [lia|]. cbn [namex_loop]. pose proof (skipelem_next path) as Hs.
  destruct (skipelem path) as [[rest name]|]; [|rewrite Hs; eapply goes_runs; [apply goes_ret|]; exists j, nm; auto].
  destruct Hs as (e & -> & -> & _ & _ & _ & Hlt). cbn [walk]. pose proof (wf_type _ _ Hwf _ Hlive) as Hty. pose proof (wf_link _ _ Hwf _ Hlive) as Hnl. pose proof (wf_block _ _ Hwf _ Hlive) as Hbl.
  eapply runs_bind; [apply (ilock_spec c l _ ∅ f j inum Hu Hn ltac:(set_solver) Hty Hbl)|]. intros [] f1 (Hu1 & Hh1 & Hp1). pose proof Hh1 as (x & Hx & _ & _ & _ & _ & E). eapply runs_step; [apply goes_get_inode, Hx|].
  assert (Ety : i_type x = d_type (disk_inode (view c) inum)) by (rewrite <- E; reflexivity). rewrite Ety. cbn [andb].
  assert (Hfail : forall f2, serving c l (R ⊎ {[+ inum +]}) ({[j]} ∪ ∅) f2 -> names f2 j inum -> runs (iunlockput j ;; ret (@None (nat * list Z))) f2 (fun r f' => r = None /\ serving c l R ∅ f')).
  { intros f2 Hu2 Hn2. destruct (iunlockput_spec c l _ _ f2 j inum Hu2 Hn2 ltac:(set_solver) Hnl) as (f3 & Hgo & Hu3 & _). eapply runs_step; [exact Hgo|]. eapply goes_runs; [apply goes_ret|]. split; [reflexivity|].
    replace R with ((R ⊎ {[+ inum +]}) ∖ {[+ inum +]}) by multiset_solver. replace ∅ with (({[j]} ∪ ∅) ∖ {[j]} : gset nat) by set_solver. exact Hu3. }
  destruct (Z.eqb_spec (d_type (disk_inode (view c) inum)) T_DIR) as [Ht | Ht]; cbn [negb]; [|apply Hfail; [exact Hu1 | apply Hp1, Hn]].
  pose proof (dom_add R inum) as Hdom. eapply runs_bind; [apply (dirlookup_spec dv c l _ _ f1 j inum (take DIRSIZ e) Hu1 Hh1 (wf_dir _ _ Hwf _ Hlive Ht)); lia|].
  intros r f2 [Hres Hp2]. destruct (lookup_name _ _ _) as [[inum' k]|] eqn:El; [|destruct Hres as [-> Hu2]; apply Hfail; [exact Hu2 | apply Hp2, Hp1, Hn]].
  destruct Hres as (j' & -> & Hu2 & Hn2). destruct (iunlockput_spec c l _ _ f2 j inum Hu2 (Hp2 _ _ (Hp1 _ _ Hn)) ltac:(set_solver) Hnl) as (f3 & Hgo & Hu3 & Hp3). eapply runs_step; [exact Hgo|].
  rewrite add_sub in Hu3. replace (({[j]} ∪ ∅) ∖ {[j]} : gset nat) with (∅ : gset nat) in Hu3 by set_solver.
  apply (IH rest f3 j' inum'); try assumption; [eapply wf_entry; eassumption | | lia]. apply Hp3; [exact Hn2|]. destruct (decide (inum' = inum)) as [-> | Hne]; [right | left; exact Hne].
  rewrite !multiplicity_disj_union, !multiplicity_singleton, !decide_True by reflexivity. lia.
Qed.

Lemma namei_spec dv c l R live path f :
  serving c l R ∅ f -> fs_wf (view c) live -> live ROOTINO -> head path = Some slash -> (S (size (dom R)) < NINODE)%nat ->
  runs (namei dv path) f (fun r f' =>
    match walk (view c) ROOTINO (elems path []) with
    | None => r = None /\ serving c l R ∅ f'
    | Some inum => exists j, r = Some j /\ serving c l (R ⊎ {[+ inum +]}) ∅ f' /\ names f' j inum
    end).
Proof.
  intros Hu Hw Hl Hp Hroom. unfold namei, namex. rewrite decide_True by exact Hp. destruct (iget_spec c l R ∅ f ROOTINO Hu) as (j & f1 & Hgo & Hu1 & Hn1 & _); [right; lia|].
  eapply runs_bind; [eapply runs_step; [exact Hgo|]; apply (namex_loop_spec dv c l R live (S (length path)) path f1 j ROOTINO [] Hw Hl Hu1 Hn1 Hroom); lia|].
  intros r f2 Hr. eapply goes_runs; [apply goes_ret|]. destruct (walk _ _ _) as [inum|]; [|destruct Hr as [-> Hu2]; auto]. destruct Hr as (j' & nm & -> & Hu2 & Hn2). exists j'. auto.
Qed.

(** C7 (fs.c, [namei] with [namex], [dirlookup], [readi], [bmap], [iget],
    [ilock], [iunlock], [iput]): on a well-formed file system with contents [d],
    the look-up of an absolute path, of any depth, leads to the inode that
    walking the directories on the disk gives, or to nothing when the walk
    fails.  The entry it returns is for that inode and holds one more
    reference; all other references are given back, no lock is held, the disk,
    the log and the dirty blocks are as before, and nothing panics, as long as
    two entries of the inode cache are free. *)
Theorem namei_resolves dv c l R live path f :
  serving c l R ∅ f -> fs_wf (view c) live -> live ROOTINO -> head path = Some slash -> (S (size (dom R)) < NINODE)%nat ->
  runs (namei dv path) f (fun r f' =>
    match walk (view c) ROOTINO (elems path []) with
    | None => r = None /\ serving c l R ∅ f'
    | Some inum => exists j, r = Some j /\ serving c l (R ⊎ {[+ inum +]}) ∅ f' /\ names f' j inum
    end).
Proof. apply namei_spec. Qed.
End Reading.
