(* ===== verification/Mkfs.v ===== *)
(** * solution/mkfs.c: the file system image

    The program that writes the image with the initial files.  The image is a
    file of sectors, those behind its end are empty; the host's open of the
    image, lseek and write are taken to succeed, a read behind the end fails,
    and the host is little-endian like the target.  A failed assert and exit(1)
    are [Panic].  An argument of the program is a name and, if the file can be
    opened, the pieces that successive reads of it return. *)

From Stdlib Require Import ZArith Lia ZifyNat FunctionalExtensionality.
From stdpp Require Import base list strings gmap.
From S2P Require Import Prelude Mem Mmu Kernel Spinlock Kalloc Vm VmFacts Sched Runs Bio Cache Log Crash Fs Recovery Files.

Module Mkfs.

(** ** State *)

Definition NINODES : Z := 200.
Definition nbitmap : Z := FSSIZE / (BSIZE * 8) + 1.
Definition ninodeblocks : Z := NINODES / IPB + 1.
Definition nlog : Z := LOGSIZE.

Record image : Type := mkImage {
  im_sect : Z -> list Z;
  im_sb : superblock;
  im_freeinode : Z;
  im_freeblock : Z }.

Definition F (A : Type) : Type := M image A.

Definition set_sect v m := mkImage v (im_sb m) (im_freeinode m) (im_freeblock m).
Definition set_im_sb v m := mkImage (im_sect m) v (im_freeinode m) (im_freeblock m).
Definition set_freeinode v m := mkImage (im_sect m) (im_sb m) v (im_freeblock m).
Definition set_freeblock v m := mkImage (im_sect m) (im_sb m) (im_freeinode m) v.

(** The bytes are stored in the order of the target and loaded by the host. *)
Definition xshort (x : Z) : Z := le16 (bytes16 x) 0.
Definition xint (x : Z) : Z := le32 (bytes32 x) 0.

Definition assert (b : bool) : F unit := if b then ret tt else panic "assert".

(** ** Sectors, inodes *)

(** The offset is an unsigned int. *)
Definition sector (sec : Z) : Z := w32 (sec * BSIZE) / BSIZE.
Definition wsect (sec : Z) (buf : list Z) : F unit :=
  modify (fun m => set_sect (fupd (im_sect m) (sector sec) buf) m).
Definition rsect (sec : Z) : F (list Z) :=
  let! buf := gets (fun m => im_sect m (sector sec)) in
  if Z.of_nat (length buf) =? BSIZE then ret buf else panic "read".

Definition winode (inum : Z) (ip : dinode) : F unit :=
  let! sb := gets im_sb in
  let bn := IBLOCK inum sb in
  let! buf := rsect bn in
  wsect bn (put (inode_off inum) (encode_dinode ip) buf).

Definition rinode (inum : Z) : F dinode :=
  let! sb := gets im_sb in
  let! buf := rsect (IBLOCK inum sb) in
  ret (decode_dinode buf (inode_off inum)).

Definition ialloc (type : Z) : F Z :=
  let! inum := gets im_freeinode in
  modify (set_freeinode (w32 (inum + 1))) ;;
  winode inum (mkDinode (xshort type) 0 0 (xshort 1) (xint 0) (replicate (S NDIRECT) 0)) ;;
  ret inum.

(** The loop of [balloc], for bits [i] on. *)
Fixpoint balloc_bits (i : Z) (n : nat) (buf : list Z) : list Z :=
  match n with
  | O => buf
  | S n' => balloc_bits (i + 1) n' (put (bit_byte i) [Z.lor (byte_at buf (bit_byte i)) (bit_mask i)] buf)
  end.
Definition balloc (used : Z) : F unit :=
  assert (used <? BSIZE * 8) ;;
  let buf := balloc_bits 0 (Z.to_nat used) (replicate (Z.to_nat BSIZE) 0) in
  let! sb := gets im_sb in
  wsect (sb_bmapstart sb) buf.

(** [freeblock++] *)
Definition next_block : F Z :=
  let! b := gets im_freeblock in
  modify (set_freeblock (w32 (b + 1))) ;;
  ret b.

Definition set_d_addr (k : nat) (a : Z) (d : dinode) : dinode :=
  mkDinode (d_type d) (d_major d) (d_minor d) (d_nlink d) (d_size d) (<[k := a]> (d_addrs d)).
Definition set_d_size (n : Z) (d : dinode) : dinode :=
  mkDinode (d_type d) (d_major d) (d_minor d) (d_nlink d) n (d_addrs d).

(** The sector of block [fbn] of the file, allocated if it is new. *)
Definition iappend_block (din : dinode) (fbn : Z) : F (Z * dinode) :=
  if fbn <? Z.of_nat NDIRECT then
    let k := Z.to_nat fbn in
    let! din :=
      (if xint (byte_at (d_addrs din) k) =? 0 then
         let! b := next_block in ret (set_d_addr k (xint b) din)
       else ret din) in
    ret (xint (byte_at (d_addrs din) k), din)
  else
    let! din :=
      (if xint (byte_at (d_addrs din) NDIRECT) =? 0 then
         let! b := next_block in ret (set_d_addr NDIRECT (xint b) din)
       else ret din) in
    let a := xint (byte_at (d_addrs din) NDIRECT) in
    let! indirect := rsect a in
    let o := Z.to_nat (4 * (fbn - Z.of_nat NDIRECT)) in
    let! indirect :=
      (if le32 indirect o =? 0 then
         let! b := next_block in
         let indirect := put o (bytes32 (xint b)) indirect in
         wsect a indirect ;;
         ret indirect
       else ret indirect) in
    ret (xint (le32 indirect o), din).

(** The loop of [iappend]; every iteration stores at least one byte. *)
Fixpoint iappend_loop (din : dinode) (off : Z) (p : list Z) (fuel : nat) : F (Z * dinode) :=
  match p with
  | [] => ret (off, din)
  | _ =>
      match fuel with
      | O => nofuel
      | S f =>
          let fbn := off / BSIZE in
          assert (fbn <? MAXFILE) ;;
          let! (x, din) := iappend_block din fbn in
          let n1 := Z.min (Z.of_nat (length p)) (w32 (w32 ((fbn + 1) * BSIZE) - off)) in
          let! buf := rsect x in
          wsect x (put (Z.to_nat (off - fbn * BSIZE)) (take (Z.to_nat n1) p) buf) ;;
          iappend_loop din (w32 (off + n1)) (drop (Z.to_nat n1) p) f
      end
  end.
Definition iappend (inum : Z) (p : list Z) : F unit :=
  let! din := rinode inum in
  let! (off, din) := iappend_loop din (xint (d_size din)) p (S (length p)) in
  winode inum (set_d_size (xint off) din).

(** ** main *)

Definition zeroes : list Z := replicate (Z.to_nat BSIZE) 0.

Fixpoint clear_sects (i : Z) (n : nat) : F unit :=
  match n with
  | O => ret tt
  | S n' => wsect i zeroes ;; clear_sects (i + 1) n'
  end.

Fixpoint append_all (inum : Z) (pieces : list (list Z)) : F unit :=
  match pieces with
  | [] => ret tt
  | p :: ps => iappend inum p ;; append_all inum ps
  end.

Definition dirent_bytes (inum : Z) (name : list Z) : list Z := encode_dirent (mkDirent (xshort inum) name).

(** [argv[i]] without a leading underscore. *)
Definition skip_underscore (name : list Z) : list Z :=
  match name with c :: name' => if c =? 95 then name' else name | [] => [] end.

(** One argument. *)
Definition add_file (rootino : Z) (name : list Z) (file : option (list (list Z))) : F unit :=
  assert (bool_decide (slash ∉ name)) ;;
  match file with
  | None => panic "open"
  | Some pieces =>
      let! inum := ialloc T_FILE in
      iappend rootino (dirent_bytes inum (strncpy_bytes (skip_underscore name) DIRSIZ)) ;;
      append_all inum pieces
  end.
Fixpoint add_files (rootino : Z) (files : list (list Z * option (list (list Z)))) : F unit :=
  match files with
  | [] => ret tt
  | (name, file) :: fs => add_file rootino name file ;; add_files rootino fs
  end.

(** The super block that main computes, and its bytes. *)
Definition nmeta : Z := 2 + nlog + ninodeblocks + nbitmap.
Definition nblocks : Z := FSSIZE - nmeta.
Definition main_sb : superblock :=
  mkSuperblock (xint FSSIZE) (xint nblocks) (xint NINODES) (xint nlog) (xint 2) (xint (2 + nlog)) (xint (2 + nlog + ninodeblocks)).
Definition sb_bytes (sb : superblock) : list Z :=
  mjoin (map bytes32 [sb_size sb; sb_nblocks sb; sb_ninodes sb; sb_nlog sb; sb_logstart sb; sb_inodestart sb; sb_bmapstart sb]).

Definition main (files : list (list Z * option (list (list Z)))) : F unit :=
  assert ((BSIZE mod DINODE_SIZE =? 0) && (BSIZE mod DIRENT_SIZE =? 0)) ;;
  modify (set_im_sb main_sb) ;;
  modify (set_freeblock nmeta) ;;
  clear_sects 0 (Z.to_nat FSSIZE) ;;
  wsect 1 (put 0 (sb_bytes main_sb) zeroes) ;;
  let! rootino := ialloc T_DIR in
  assert (rootino =? ROOTINO) ;;
  iappend rootino (dirent_bytes rootino (strncpy_bytes [46] DIRSIZ)) ;;
  iappend rootino (dirent_bytes rootino (strncpy_bytes [46; 46] DIRSIZ)) ;;
  add_files rootino files ;;
  let! din := rinode rootino in
  let off := xint (d_size din) in
  let off := w32 (w32 (off / BSIZE + 1) * BSIZE) in
  winode rootino (set_d_size (xint off) din) ;;
  let! used := gets im_freeblock in
  balloc (s32 used).

(** The state in which main() starts, on the (empty) image file. *)
Definition start : image := mkImage (fun _ => []) (mkSuperblock 0 0 0 0 0 0 0) 1 0.

(** ** What is in the image *)

Lemma xint_id x : u32 x -> xint x = x.
Proof. intros Hx. unfold xint. rewrite <- (app_nil_r (bytes32 x)), le32_bytes32. apply w32_small, Hx. Qed.

Lemma xshort_id x : 0 <= x < 65536 -> xshort x = x.
Proof. intros Hx. unfold xshort. rewrite <- (app_nil_r (bytes16 x)), le16_bytes16. apply Z.mod_small, Hx. Qed.

Lemma sector_id sec : 0 <= sec < 8388608 -> sector sec = sec.
Proof. intros Hs. unfold sector, BSIZE. rewrite w32_small by (unfold u32; lia). apply Z.div_mul. lia. Qed.

Lemma rsect_ok sec m : 0 <= sec < 8388608 -> length (im_sect m sec) = BLK -> rsect sec m = Ok (im_sect m sec) m.
Proof. intros Hs Hl. unfold rsect, gets. erewrite bind_ok by reflexivity. rewrite sector_id, Hl by exact Hs. reflexivity. Qed.

(** The addresses in the inode of a file with data blocks [bl] and indirect
    block [ind]. *)
Definition has_ind (bl : list Z) : Prop := (NDIRECT < length bl)%nat.
#[global] Instance has_ind_dec bl : Decision (has_ind bl) := decide (NDIRECT < length bl)%nat.
Definition addrs_of (bl : list Z) (ind : Z) : list Z :=
  map (fun k => nth k bl 0) (seq 0 NDIRECT) ++ [if decide (has_ind bl) then ind else 0].
Definition own (bl : list Z) (ind : Z) : list Z := bl ++ (if decide (has_ind bl) then [ind] else []).

(** The blocks [bl] hold [data], and zeroes behind it. *)
Record body (sect : Z -> list Z) (bl : list Z) (ind : Z) (data : list Z) : Prop := {
  bo_fit : (length data <= BLK * length bl)%nat;
  bo_data : mjoin (map sect bl) = data ++ replicate (BLK * length bl - length data) 0;
  bo_ind : has_ind bl -> forall k, (k < NINDIRECT)%nat -> le32 (sect ind) (4 * k) = nth (NDIRECT + k) bl 0 }.

(** Sectors: all have the length of a block, those from [fb] on are empty. *)
Record sects (sect : Z -> list Z) (fb : Z) : Prop := {
  se_len b : 0 <= b < FSSIZE -> length (sect b) = BLK;
  se_fresh b : fb <= b < FSSIZE -> sect b = zeroes }.

Definition owned (fb : Z) (l : list Z) : Prop := NoDup l /\ Forall (fun b => nmeta <= b < fb) l.

(** ** Writing into a block *)

Implicit Types (sect : Z -> list Z) (bl : list Z).

Lemma put_app_l o p l1 l2 : (o + length p <= length l1)%nat -> put o p (l1 ++ l2) = put o p l1 ++ l2.
Proof.
  unfold put. revert o. induction p as [|x p IH]; intros o Hl; cbn [list_inserts length] in *; [reflexivity|].
  rewrite IH by lia. apply insert_app_l. rewrite length_inserts. lia.
Qed.

Lemma put_app_r o p l1 l2 : put (length l1 + o) p (l1 ++ l2) = l1 ++ put o p l2.
Proof.
  unfold put. revert o. induction p as [|x p IH]; intros o; cbn [list_inserts]; [reflexivity|].
  replace (S (length l1 + o)) with (length l1 + S o)%nat by lia. rewrite IH. apply insert_app_r.
Qed.

Lemma put_zero p l : (length p <= length l)%nat -> put 0 p l = p ++ drop (length p) l.
Proof.
  intros Hl. rewrite <- (take_drop (length p) l) at 1. rewrite put_app_l by (rewrite length_take; lia). f_equal.
  apply list_eq. intros j. unfold put. destruct (decide (j < length p)%nat) as [Hj | Hj].
  - rewrite list_lookup_inserts by (rewrite ?length_take; lia). f_equal. lia.
  - rewrite !lookup_ge_None_2; [reflexivity | lia |]. rewrite length_inserts, length_take. lia.
Qed.

Lemma put_end p l n : (length p <= n)%nat -> put (length l) p (l ++ replicate n 0) = (l ++ p) ++ replicate (n - length p) 0.
Proof.
  intros Hp. rewrite <- (Nat.add_0_r (length l)) at 1. rewrite put_app_r, put_zero by (rewrite length_replicate; exact Hp).
  rewrite drop_replicate, <- app_assoc. reflexivity.
Qed.

(** Storing [p] at offset [o] of block [k] of a file. *)
Lemma join_put sect bl k x o p :
  NoDup bl -> (forall b, b ∈ bl -> length (sect b) = BLK) -> bl !! k = Some x -> (o + length p <= BLK)%nat ->
  mjoin (map (fupd sect x (put o p (sect x))) bl) = put (BLK * k + o) p (mjoin (map sect bl)).
Proof.
  revert k. induction bl as [|b bl IH]; intros [|k] Hnd Hlen Hk Ho; try discriminate Hk; apply NoDup_cons in Hnd as [Hn Hnd].
  - injection Hk as ->. change (fupd sect x (put o p (sect x)) x ++ mjoin (map (fupd sect x (put o p (sect x))) bl) = put (0 + o) p (sect x ++ mjoin (map sect bl))).
    rewrite fupd_eq, put_app_l by (rewrite Hlen by left; lia). do 2 f_equal. apply map_ext_in. intros y Hy%list_elem_of_In. apply fupd_ne. intros ->. contradiction.
  - assert (Hbx : b <> x) by (intros ->; apply Hn; eapply list_elem_of_lookup_2, Hk).
    change (fupd sect x (put o p (sect x)) b ++ mjoin (map (fupd sect x (put o p (sect x))) bl) = put (BLK * S k + o) p (sect b ++ mjoin (map sect bl))).
    rewrite fupd_ne by exact Hbx. replace (BLK * S k + o)%nat with (length (sect b) + (BLK * k + o))%nat by (rewrite Hlen by left; lia).
    rewrite put_app_r, (IH k Hnd); [reflexivity | intros b' Hb'; apply Hlen; right; exact Hb' | exact Hk | exact Ho].
Qed.

Lemma body_ext sect sect' bl ind data :
  (forall b, b ∈ own bl ind -> sect' b = sect b) -> body sect bl ind data -> body sect' bl ind data.
Proof.
  intros E [H1 H2 H3]. constructor; [exact H1 | |].
  - rewrite <- H2. f_equal. apply map_ext_in. intros b Hb%list_elem_of_In. apply E. unfold own. apply elem_of_app. auto.
  - intros Hi k Hk. rewrite E by (unfold own; rewrite decide_True by exact Hi; apply elem_of_app; right; left). apply H3; assumption.
Qed.

(** ** The block of an offset *)

Lemma addrs_length bl ind : length (addrs_of bl ind) = S NDIRECT.
Proof. unfold addrs_of. rewrite length_app, length_map, length_seq. cbn [length]. lia. Qed.

Lemma addrs_direct bl ind k : (k < NDIRECT)%nat -> byte_at (addrs_of bl ind) k = nth k bl 0.
Proof.
  intros Hk. unfold byte_at, addrs_of. rewrite app_nth1 by (rewrite length_map, length_seq; exact Hk).
  rewrite (nth_indep _ 0 (nth 0 bl 0)) by (rewrite length_map, length_seq; exact Hk). rewrite (map_nth (fun k => nth k bl 0)), seq_nth by exact Hk. reflexivity.
Qed.

Lemma addrs_indirect bl ind : byte_at (addrs_of bl ind) NDIRECT = if decide (has_ind bl) then ind else 0.
Proof. unfold byte_at, addrs_of. rewrite app_nth2 by (rewrite length_map, length_seq; lia). rewrite length_map, length_seq, Nat.sub_diag. reflexivity. Qed.

Lemma addrs_ext l bl ind :
  length l = S NDIRECT -> (forall k, (k < NDIRECT)%nat -> byte_at l k = nth k bl 0) ->
  byte_at l NDIRECT = (if decide (has_ind bl) then ind else 0) -> l = addrs_of bl ind.
Proof.
  intros Hl Hd Hi. apply (nth_ext _ _ 0 0); [rewrite addrs_length; exact Hl|]. intros k Hk. destruct (decide (k < NDIRECT)%nat) as [H | H].
  - unfold byte_at in Hd. rewrite (Hd k H). symmetry. apply addrs_direct, H.
  - replace k with NDIRECT by lia. unfold byte_at in Hi. rewrite Hi. symmetry. apply addrs_indirect.
Qed.

Lemma byte_insert l k v j : (k < length l)%nat -> byte_at (<[k := v]> l) j = if decide (j = k) then v else byte_at l j.
Proof.
  intros Hk. unfold byte_at. rewrite !nth_lookup. case_decide as E; [subst; rewrite list_lookup_insert_eq by exact Hk; reflexivity|].
  rewrite list_lookup_insert_ne by congruence. reflexivity.
Qed.

Lemma nth_snoc bl b k : nth k (bl ++ [b]) 0 = if decide (k = length bl) then b else nth k bl 0.
Proof.
  case_decide as E; [subst; rewrite app_nth2, Nat.sub_diag by lia; reflexivity|]. destruct (decide (k < length bl)%nat); [apply app_nth1; assumption|].
  rewrite !nth_overflow; [reflexivity | lia | rewrite length_app; cbn; lia].
Qed.

(** The indirect block [t] lists the blocks of [bl] behind the direct ones. *)
Definition table (t bl : list Z) : Prop := forall k, (k < NINDIRECT)%nat -> le32 t (4 * k) = nth (NDIRECT + k) bl 0.

Lemma le32_zeroes o : le32 zeroes o = 0.
Proof.
  assert (H : forall k, byte_at zeroes k = 0).
  { intros k. unfold byte_at, zeroes. rewrite nth_lookup. destruct (replicate _ _ !! k) as [x|] eqn:E; [apply lookup_replicate in E as [-> _]|]; reflexivity. }
  unfold le32. rewrite !H. reflexivity.
Qed.

Lemma table_zero bl : (length bl <= NDIRECT)%nat -> table zeroes bl.
Proof. intros Hl k Hk. rewrite le32_zeroes, nth_overflow by lia. reflexivity. Qed.

Lemma table_put t bl b :
  table t bl -> length t = BLK -> (NDIRECT <= length bl)%nat -> (length bl < NDIRECT + NINDIRECT)%nat -> u32 b ->
  table (put (4 * (length bl - NDIRECT)) (bytes32 b) t) (bl ++ [b]).
Proof.
  unfold NDIRECT, NINDIRECT. intros Ht Hl H1 H2 Hb k Hk. rewrite nth_snoc. case_decide as E.
  - rewrite le32_put by (cbn [length bytes32]; unfold NDIRECT in *; lia). unfold NDIRECT in E. replace (4 * k - 4 * (length bl - 12))%nat with 0%nat by lia.
    rewrite <- (app_nil_r (bytes32 b)), le32_bytes32. apply w32_small, Hb.
  - rewrite le32_put_off by (cbn [length bytes32]; unfold NDIRECT in *; lia). apply Ht. exact Hk.
Qed.

(** Appending [p] to the data of a file, in block [k], which has room. *)
Lemma body_write sect bl ind data p x :
  body sect bl ind data -> NoDup (own bl ind) -> (forall b, b ∈ own bl ind -> length (sect b) = BLK) ->
  bl !! (length data / BLK)%nat = Some x -> (length data mod BLK + length p <= BLK)%nat ->
  body (fupd sect x (put (length data mod BLK) p (sect x))) bl ind (data ++ p).
Proof.
  intros [H1 H2 H3] Hnd Hlen Hx Ho. pose proof (Nat.div_mod (length data) BLK ltac:(lia)) as Hdm. pose proof (lookup_lt_Some _ _ _ Hx) as Hk.
  assert (Hnd1 : NoDup bl) by (unfold own in Hnd; apply NoDup_app in Hnd; apply Hnd).
  constructor.
  - rewrite length_app. nia.
  - rewrite (join_put sect bl (length data / BLK) x (length data mod BLK) p Hnd1) by (assumption || (intros b Hb; apply Hlen; unfold own; apply elem_of_app; auto)).
    rewrite H2, <- Hdm, put_end by nia. rewrite length_app. do 2 f_equal. lia.
  - intros Hi k Hk'. rewrite fupd_ne; [apply H3; assumption|]. intros ->. unfold own in Hnd. rewrite decide_True in Hnd by exact Hi.
    apply NoDup_app in Hnd as (_ & Hno & _). apply (Hno x); [eapply list_elem_of_lookup_2, Hx | left].
Qed.

(** ** Growing a file *)

(** The file of the inode [din] in memory, with contents [data]. *)
Record growing (m : image) (din : dinode) bl (ind : Z) (data : list Z) : Prop := {
  gr_sects : sects (im_sect m) (im_freeblock m);
  gr_fb : nmeta <= im_freeblock m <= FSSIZE;
  gr_own : owned (im_freeblock m) (own bl ind);
  gr_addrs : d_addrs din = addrs_of bl ind;
  gr_body : body (im_sect m) bl ind data }.

(** What growing a file that owns [l] leaves alone. *)
Record apart (l : list Z) (m m' : image) : Prop := {
  ap_sect b : b ∉ l -> b < im_freeblock m -> im_sect m' b = im_sect m b;
  ap_sb : im_sb m' = im_sb m;
  ap_inode : im_freeinode m' = im_freeinode m }.

Definition set_d_addrs (l : list Z) (d : dinode) : dinode :=
  mkDinode (d_type d) (d_major d) (d_minor d) (d_nlink d) (d_size d) l.

(** The number of blocks, the indirect one included, of a file of [n] blocks. *)
Definition cost (n : nat) : nat := (n + if decide (NDIRECT < n) then 1 else 0)%nat.

Lemma own_length bl ind : length (own bl ind) = cost (length bl).
Proof. unfold own, cost, has_ind. rewrite length_app. repeat case_decide; try reflexivity; contradiction. Qed.

Lemma block_u32 b : 0 <= b <= FSSIZE -> u32 b.
Proof. unfold FSSIZE, u32. lia. Qed.

Lemma next_block_ok m : 0 <= im_freeblock m < FSSIZE -> next_block m = Ok (im_freeblock m) (set_freeblock (im_freeblock m + 1) m).
Proof. intros Hb. unfold next_block, gets, modify. erewrite bind_ok by reflexivity. erewrite bind_ok by reflexivity. rewrite w32_small by (apply block_u32; lia). reflexivity. Qed.

Lemma owned_in fb l b : owned fb l -> b ∈ l -> nmeta <= b < fb.
Proof. intros [_ H] Hb. rewrite Forall_forall in H. exact (H b Hb). Qed.

Lemma owned_nth fb bl ind k x : owned fb (own bl ind) -> fb <= FSSIZE -> bl !! k = Some x ->
  nth k bl 0 = x /\ u32 x /\ x <> 0 /\ nmeta <= x < fb.
Proof.
  intros Ho Hf Hx. pose proof (owned_in _ _ x Ho) as H. unfold own in H. rewrite elem_of_app in H. specialize (H (or_introl (list_elem_of_lookup_2 _ _ _ Hx))).
  split; [apply nth_lookup_Some; exact Hx|]. change nmeta with 59 in *. split; [apply block_u32; lia|]. lia.
Qed.

Lemma owned_ind fb bl ind : owned fb (own bl ind) -> fb <= FSSIZE -> has_ind bl -> u32 ind /\ ind <> 0 /\ nmeta <= ind < fb /\ ind ∉ bl.
Proof.
  intros Ho Hf Hi. pose proof (owned_in _ _ ind Ho) as H. pose proof Ho as [Hnd _]. unfold own in H, Hnd. rewrite decide_True in H, Hnd by exact Hi.
  specialize (H ltac:(apply elem_of_app; right; left)). change nmeta with 59 in *. split; [apply block_u32; lia|]. split; [lia|]. split; [lia|].
  apply NoDup_app in Hnd as (_ & Hno & _). intros Hin. apply (Hno ind Hin). left.
Qed.

(** The block exists. *)
Lemma iappend_block_old m din bl ind data k x :
  growing m din bl ind data -> bl !! k = Some x -> (k < NDIRECT + NINDIRECT)%nat -> iappend_block din (Z.of_nat k) m = Ok (x, din) m.
Proof.
  intros [Hs Hf Ho Ha Hb] Hx Hk. destruct (owned_nth _ _ _ _ _ Ho (proj2 Hf) Hx) as (En & Hu & Hz & Hr). unfold iappend_block.
  destruct (decide (k < NDIRECT)%nat) as [Hd | Hd].
  - replace (Z.of_nat k <? Z.of_nat NDIRECT) with true by (symmetry; apply Z.ltb_lt; lia). rewrite Nat2Z.id, Ha, addrs_direct, En, xint_id by assumption.
    rewrite (proj2 (Z.eqb_neq x 0) Hz). erewrite bind_ok by reflexivity. rewrite Ha, addrs_direct, En, xint_id by assumption. reflexivity.
  - replace (Z.of_nat k <? Z.of_nat NDIRECT) with false by (symmetry; apply Z.ltb_ge; lia). pose proof (lookup_lt_Some _ _ _ Hx) as Hlt.
    assert (Hi : has_ind bl) by (unfold has_ind; lia). destruct (owned_ind _ _ _ Ho (proj2 Hf) Hi) as (Hu' & Hz' & Hr' & _).
    rewrite Ha, addrs_indirect, decide_True, xint_id by assumption. rewrite (proj2 (Z.eqb_neq ind 0) Hz'). erewrite bind_ok by reflexivity.
    rewrite Ha, addrs_indirect, decide_True, xint_id by assumption. 
    assert (Hrs : 0 <= ind < 1000) by (unfold FSSIZE in Hf; change nmeta with 59 in *; lia). rewrite (bind_ok _ _ _ _ _ (rsect_ok ind m ltac:(lia) (se_len _ _ Hs ind Hrs))).
    replace (Z.to_nat (4 * (Z.of_nat k - Z.of_nat NDIRECT))) with (4 * (k - NDIRECT))%nat by lia. rewrite (bo_ind _ _ _ _ Hb Hi) by lia. replace (NDIRECT + (k - NDIRECT))%nat with k by lia.
    rewrite En, (proj2 (Z.eqb_neq x 0) Hz). erewrite bind_ok by reflexivity. rewrite (bo_ind _ _ _ _ Hb Hi) by lia. replace (NDIRECT + (k - NDIRECT))%nat with k by lia. rewrite En, xint_id by exact Hu. reflexivity.
Qed.

(** A new block [x] at the end of the file. *)
Lemma owned_snoc fb fb' bl ind x ind' :
  owned fb (own bl ind) -> fb <= fb' -> nmeta <= x < fb' -> x ∉ bl ->
  (has_ind (bl ++ [x]) -> nmeta <= ind' < fb' /\ ind' <> x /\ ind' ∉ bl) -> owned fb' (own (bl ++ [x]) ind').
Proof.
  intros Ho Hle Hx Hn Hi. assert (Hbl : NoDup bl) by (destruct Ho as [Ho _]; apply NoDup_app in Ho; apply Ho).
  assert (Hin : forall b, b ∈ bl -> nmeta <= b < fb) by (intros b Hb; eapply owned_in; [exact Ho | apply elem_of_app; auto]).
  assert (H1 : NoDup (bl ++ [x])) by (apply NoDup_app; split; [exact Hbl|]; split; [intros b Hb ->%list_elem_of_singleton; contradiction | apply NoDup_singleton]).
  unfold own. case_decide as Hd; [|rewrite app_nil_r]; split.
  - destruct (Hi Hd) as (_ & H3 & H4). apply NoDup_app. split; [exact H1|]. split; [|apply NoDup_singleton]. intros b Hb ->%list_elem_of_singleton.
    apply elem_of_app in Hb as [Hb | ->%list_elem_of_singleton]; contradiction.
  - destruct (Hi Hd) as (H2 & _ & _). apply Forall_app. split; [|apply Forall_singleton; exact H2]. apply Forall_app. split; [|apply Forall_singleton; exact Hx].
    apply Forall_forall. intros b Hb%Hin. lia.
  - exact H1.
  - apply Forall_app. split; [|apply Forall_singleton; exact Hx]. apply Forall_forall. intros b Hb%Hin. lia.
Qed.

Lemma mjoin_snoc (ls : list (list Z)) l : mjoin (ls ++ [l]) = mjoin ls ++ l.
Proof. induction ls as [|x ls IH]; [apply app_nil_r|]. change (x ++ mjoin (ls ++ [l]) = (x ++ mjoin ls) ++ l). rewrite IH. apply app_assoc. Qed.

Lemma body_snoc sect sect' bl ind ind' data x :
  body sect bl ind data -> length data = (BLK * length bl)%nat -> (forall b, b ∈ bl -> sect' b = sect b) -> sect' x = zeroes ->
  (has_ind (bl ++ [x]) -> table (sect' ind') (bl ++ [x])) -> body sect' (bl ++ [x]) ind' data.
Proof.
  intros [H1 H2 H3] Hl He Hx Ht. constructor; [rewrite length_app; cbn [length]; lia | | exact Ht].
  rewrite map_app. change (mjoin (map sect' bl ++ [sect' x]) = data ++ replicate (BLK * length (bl ++ [x]) - length data) 0). rewrite mjoin_snoc, Hx.
  replace (map sect' bl) with (map sect bl) by (symmetry; apply map_ext_in; intros b Hb%list_elem_of_In; apply He, Hb).
  rewrite H2, Hl, Nat.sub_diag, length_app. cbn [length replicate]. rewrite app_nil_r. replace (BLK * (length bl + 1) - BLK * length bl)%nat with BLK by lia. reflexivity.
Qed.

Lemma has_ind_snoc bl x : has_ind (bl ++ [x]) <-> (NDIRECT <= length bl)%nat.
Proof. unfold has_ind. rewrite length_app. cbn [length]. lia. Qed.

Lemma addrs_new bl ind x ind' : (length bl < NDIRECT)%nat -> <[length bl := x]> (addrs_of bl ind) = addrs_of (bl ++ [x]) ind'.
Proof.
  intros Hl. apply addrs_ext; [rewrite length_insert; apply addrs_length | |].
  - intros k Hk. rewrite byte_insert, nth_snoc by (rewrite addrs_length; lia). case_decide; [reflexivity | apply addrs_direct, Hk].
  - rewrite byte_insert by (rewrite addrs_length; lia). rewrite decide_False by lia. rewrite addrs_indirect, !decide_False by (rewrite ?has_ind_snoc; unfold has_ind; lia). reflexivity.
Qed.

Lemma addrs_new_ind bl ind x ind' : length bl = NDIRECT -> <[NDIRECT := ind']> (addrs_of bl ind) = addrs_of (bl ++ [x]) ind'.
Proof.
  intros Hl. apply addrs_ext; [rewrite length_insert; apply addrs_length | |].
  - intros k Hk. rewrite byte_insert, nth_snoc by (rewrite addrs_length; lia). rewrite !decide_False by lia. apply addrs_direct, Hk.
  - rewrite byte_insert by (rewrite addrs_length; lia). rewrite !decide_True by (rewrite ?has_ind_snoc; lia). reflexivity.
Qed.

Lemma addrs_more bl ind x : has_ind bl -> addrs_of bl ind = addrs_of (bl ++ [x]) ind.
Proof.
  unfold has_ind. intros Hl. apply addrs_ext; [apply addrs_length | |].
  - intros k Hk. rewrite nth_snoc, decide_False by lia. apply addrs_direct, Hk.
  - rewrite addrs_indirect, !decide_True by (rewrite ?has_ind_snoc; unfold has_ind; lia). reflexivity.
Qed.

Lemma own_snoc_in bl x ind ind' b : b ∈ own (bl ++ [x]) ind' -> b ∈ own bl ind \/ b = x \/ (NDIRECT <= length bl)%nat /\ b = ind'.
Proof.
  unfold own at 1. rewrite !elem_of_app, list_elem_of_singleton. intros [[H | H] | H]; [left; apply elem_of_app; auto | auto|].
  destruct (decide (has_ind (bl ++ [x]))) as [Hi | Hi]; [|apply not_elem_of_nil in H; destruct H]. apply list_elem_of_singleton in H. rewrite has_ind_snoc in Hi. auto.
Qed.

(** The result of allocating a block. *)
Record grown (m : image) (din : dinode) bl (ind : Z) (data : list Z) (x : Z) (din' : dinode) (m' : image) : Prop := {
  gn_growing : exists ind', growing m' din' (bl ++ [x]) ind' data /\
    forall b, b ∈ own (bl ++ [x]) ind' -> b ∈ own bl ind \/ im_freeblock m <= b;
  gn_fb : im_freeblock m' = im_freeblock m + Z.of_nat (cost (S (length bl)) - cost (length bl));
  gn_apart : apart (own bl ind) m m';
  gn_din : exists l, din' = set_d_addrs l din }.

Lemma grow_direct m din bl ind data :
  growing m din bl ind data -> length data = (BLK * length bl)%nat -> (length bl < NDIRECT)%nat -> im_freeblock m < FSSIZE ->
  exists x din' m', iappend_block din (Z.of_nat (length bl)) m = Ok (x, din') m' /\ grown m din bl ind data x din' m'.
Proof.
  intros [Hs Hf Ho Ha Hb] Hl Hk Hroom. set (fb := im_freeblock m) in *. change nmeta with 59 in Hf.
  assert (Hu : u32 fb) by (apply block_u32; lia). exists fb, (set_d_addr (length bl) (xint fb) din), (set_freeblock (fb + 1) m). rewrite xint_id by exact Hu.
  assert (Ea : d_addrs (set_d_addr (length bl) fb din) = addrs_of (bl ++ [fb]) ind) by (cbn; rewrite Ha; apply addrs_new, Hk).
  split.
  - unfold iappend_block. replace (Z.of_nat (length bl) <? Z.of_nat NDIRECT) with true by (symmetry; apply Z.ltb_lt; lia). rewrite Nat2Z.id, Ha, addrs_direct, nth_overflow by lia.
    change (xint 0 =? 0) with true. cbn beta iota. erewrite bind_ok by (erewrite bind_ok by (apply next_block_ok; fold fb; lia); reflexivity). fold fb.
    rewrite (xint_id fb Hu), Ea, addrs_direct, nth_snoc, decide_True, xint_id by (exact Hu || lia || reflexivity). reflexivity.
  - constructor; [exists ind; split; [|intros b [H | [-> | [H _]]]%(own_snoc_in bl fb ind); [auto | right; fold fb; lia | lia]] | | constructor; reflexivity | eexists; reflexivity].
    + constructor; cbn [im_sect im_freeblock set_freeblock]; [| change nmeta with 59; lia | | exact Ea |].
      * destruct Hs as [S1 S2]. constructor; [exact S1 | intros b Hb'; apply S2; fold fb; lia].
      * eapply owned_snoc; [exact Ho | lia | change nmeta with 59; lia | | rewrite has_ind_snoc; lia].
        intros Hin. pose proof (owned_in _ _ fb Ho ltac:(apply elem_of_app; auto)). lia.
      * eapply body_snoc; [exact Hb | exact Hl | reflexivity | apply (se_fresh _ _ Hs); fold fb; lia | rewrite has_ind_snoc; lia].
    + cbn [im_freeblock set_freeblock]. fold fb. unfold cost. rewrite !decide_False by lia. lia.
Qed.

(** The two cases with an indirect block, once its address is known. *)
Lemma grow_table m din bl ind x :
  (NDIRECT <= length bl < NDIRECT + NINDIRECT)%nat -> u32 ind -> ind < FSSIZE -> im_freeblock m = x -> 0 <= x < FSSIZE ->
  table (im_sect m ind) bl -> length (im_sect m ind) = BLK ->
  byte_at (d_addrs din) NDIRECT = ind -> ind <> 0 ->
  iappend_block din (Z.of_nat (length bl)) m =
    Ok (x, din) (set_sect (fupd (im_sect m) ind (put (4 * (length bl - NDIRECT)) (bytes32 x) (im_sect m ind))) (set_freeblock (x + 1) m)).
Proof.
  intros Hk Hu Hlt Hx Hxr Ht Hlen Ha Hz. unfold iappend_block. replace (Z.of_nat (length bl) <? Z.of_nat NDIRECT) with false by (symmetry; apply Z.ltb_ge; lia).
  rewrite Ha, xint_id, (proj2 (Z.eqb_neq ind 0) Hz) by exact Hu. erewrite bind_ok by reflexivity. rewrite Ha, xint_id by exact Hu. 
  assert (Hrs : 0 <= ind < 8388608) by (unfold u32, FSSIZE in *; lia). rewrite (bind_ok _ _ _ _ _ (rsect_ok ind m Hrs Hlen)). assert (Es : sector ind = ind) by apply sector_id, Hrs.
  replace (Z.to_nat (4 * (Z.of_nat (length bl) - Z.of_nat NDIRECT))) with (4 * (length bl - NDIRECT))%nat by lia. rewrite Ht by lia. rewrite nth_overflow by lia. cbn [Z.eqb].
  erewrite bind_ok by (erewrite bind_ok by (apply next_block_ok; rewrite Hx; exact Hxr); unfold wsect, modify; erewrite bind_ok by reflexivity; reflexivity).
  rewrite Hx, Es, (xint_id x) by (apply block_u32; lia). set (t := put _ _ _).
  assert (Et : le32 t (4 * (length bl - NDIRECT)) = x).
  { pose proof (table_put (im_sect m ind) bl x Ht Hlen ltac:(lia) ltac:(lia) ltac:(apply block_u32; lia)) as Hp. unfold t. rewrite Hp by lia.
    rewrite nth_snoc, decide_True by lia. reflexivity. }
  rewrite Et, xint_id by (apply block_u32; lia). reflexivity.
Qed.

(** The invariant after [grow_table]. *)
Lemma grow_table_ok m0 m din din' bl ind ind' data x :
  growing m0 din bl ind data -> length data = (BLK * length bl)%nat -> (NDIRECT <= length bl < NDIRECT + NINDIRECT)%nat ->
  d_addrs din' = addrs_of (bl ++ [x]) ind' -> im_sect m = im_sect m0 -> im_freeblock m = x -> im_freeblock m0 <= x < FSSIZE ->
  nmeta <= ind' < x -> ind' ∉ bl -> table (im_sect m ind') bl ->
  growing (set_sect (fupd (im_sect m) ind' (put (4 * (length bl - NDIRECT)) (bytes32 x) (im_sect m ind'))) (set_freeblock (x + 1) m)) din' (bl ++ [x]) ind' data.
Proof.
  intros [[S1 S2] Hf Ho Ha Hb] Hl Hk Ea Es Ex Hx Hi Hni Ht. change nmeta with 59 in *. rewrite Es in *.
  assert (Hin : forall b, b ∈ bl -> 59 <= b < im_freeblock m0) by (intros b Hb'; eapply (owned_in _ _ b Ho); apply elem_of_app; auto).
  assert (Hlen : length (im_sect m0 ind') = BLK) by (apply S1; lia). constructor; cbn [im_sect im_freeblock set_sect set_freeblock].
  - constructor; [intros b Hb' | intros b Hb']; unfold fupd; case_decide as E; [rewrite put_length; exact Hlen | apply S1; lia | lia | apply S2; lia].
  - change nmeta with 59. lia.
  - eapply owned_snoc; [exact Ho | lia | change nmeta with 59; lia | intros H%Hin; lia | intros _; change nmeta with 59; split; [lia | split; [lia | exact Hni]]].
  - exact Ea.
  - eapply body_snoc; [exact Hb | exact Hl | intros b Hb'; apply fupd_ne; intros ->; contradiction | rewrite fupd_ne by lia; apply S2; lia|].
    intros _. rewrite fupd_eq. apply table_put; [exact Ht | exact Hlen | lia | lia | apply block_u32; lia].
Qed.

Lemma apart_table m0 m l ind' t x fb' :
  im_sect m = im_sect m0 -> im_sb m = im_sb m0 -> im_freeinode m = im_freeinode m0 -> (ind' ∈ l \/ im_freeblock m0 <= ind') ->
  apart l m0 (set_sect (fupd (im_sect m) ind' (put x t (im_sect m ind'))) (set_freeblock fb' m)).
Proof.
  intros E1 E2 E3 Hi. constructor; [|exact E2 | exact E3]. intros b Hb Hlt. cbn. rewrite E1. apply fupd_ne. intros ->. destruct Hi; [contradiction | lia].
Qed.

Lemma grow_indirect m din bl ind data :
  growing m din bl ind data -> length data = (BLK * length bl)%nat -> (NDIRECT <= length bl < NDIRECT + NINDIRECT)%nat ->
  im_freeblock m + Z.of_nat (cost (S (length bl)) - cost (length bl)) <= FSSIZE ->
  exists x din' m', iappend_block din (Z.of_nat (length bl)) m = Ok (x, din') m' /\ grown m din bl ind data x din' m'.
Proof.
  intros Hg Hl Hk Hroom. pose proof Hg as [Hs Hf Ho Ha Hb]. set (fb := im_freeblock m) in *. change nmeta with 59 in Hf. destruct (decide (has_ind bl)) as [Hi | Hi].
  - assert (Ec : (cost (S (length bl)) - cost (length bl) = 1)%nat) by (unfold cost, has_ind in *; rewrite !decide_True by lia; lia). rewrite Ec in Hroom.
    destruct (owned_ind _ _ _ Ho ltac:(lia) Hi) as (Hu & Hz & Hr & Hni). exists fb, din. eexists. split.
    + apply (grow_table m din bl ind fb); try assumption; try reflexivity; try lia; [exact (bo_ind _ _ _ _ Hb Hi) | apply (se_len _ _ Hs); change nmeta with 59 in Hr; lia|].
      rewrite Ha, addrs_indirect, decide_True by exact Hi. reflexivity.
    + assert (Ea : d_addrs din = addrs_of (bl ++ [fb]) ind) by (rewrite Ha; apply addrs_more, Hi).
      assert (Hoi : ind ∈ own bl ind) by (unfold own; rewrite decide_True by exact Hi; apply elem_of_app; right; left).
      constructor; [exists ind; split; [|intros b [H | [-> | [_ ->]]]%(own_snoc_in bl fb ind); [auto | right; fold fb; lia | auto]] | rewrite Ec; reflexivity | | exists (d_addrs din); destruct din; reflexivity].
      * eapply grow_table_ok; [exact Hg | exact Hl | exact Hk | exact Ea | reflexivity | reflexivity | fold fb; lia | exact Hr | exact Hni | exact (bo_ind _ _ _ _ Hb Hi)].
      * apply apart_table; try reflexivity. left. exact Hoi.
  - assert (Hlen : length bl = NDIRECT) by (unfold has_ind in Hi; lia).
    assert (Ec : (cost (S (length bl)) - cost (length bl) = 2)%nat) by (unfold cost; rewrite Hlen, decide_True, decide_False by lia; lia). rewrite Ec in Hroom.
    set (m1 := set_freeblock (fb + 1) m). set (din1 := set_d_addr NDIRECT fb din).
    assert (Hu : u32 fb) by (apply block_u32; lia). assert (Hfresh : im_sect m fb = zeroes) by (apply (se_fresh _ _ Hs); fold fb; lia).
    assert (Ea : d_addrs din1 = addrs_of (bl ++ [fb + 1]) fb) by (cbn; rewrite Ha; apply addrs_new_ind, Hlen).
    assert (E1 : iappend_block din (Z.of_nat (length bl)) m = iappend_block din1 (Z.of_nat (length bl)) m1).
    { unfold iappend_block. replace (Z.of_nat (length bl) <? Z.of_nat NDIRECT) with false by (symmetry; apply Z.ltb_ge; lia).
      rewrite Ea, Ha, !addrs_indirect, (decide_False (P := has_ind bl)), decide_True by (exact Hi || (rewrite has_ind_snoc; lia)).
      change (xint 0 =? 0) with true. rewrite (xint_id fb Hu), (proj2 (Z.eqb_neq fb 0)) by lia.
      erewrite bind_ok by (erewrite bind_ok by (apply next_block_ok; fold fb; lia); reflexivity). fold fb m1. rewrite (xint_id fb Hu). fold din1. symmetry. erewrite bind_ok by reflexivity. reflexivity. }
    exists (fb + 1), din1. eexists. split; [rewrite E1; apply (grow_table m1 din1 bl fb (fb + 1)); try assumption; try reflexivity; try lia|].
    + cbn [m1 im_sect set_freeblock]. rewrite Hfresh. apply table_zero. lia.
    + cbn [m1 im_sect set_freeblock]. rewrite Hfresh. reflexivity.
    + rewrite Ea, addrs_indirect, decide_True by (rewrite has_ind_snoc; lia). reflexivity.
    + constructor; [exists fb; split; [|intros b [H | [-> | [_ ->]]]%(own_snoc_in bl (fb + 1) ind); [auto | right; fold fb; lia | right; fold fb; lia]] | rewrite Ec; cbn; fold fb; lia | | eexists; reflexivity].
      * eapply grow_table_ok; [exact Hg | exact Hl | exact Hk | exact Ea | reflexivity | reflexivity | fold fb; lia | change nmeta with 59; lia | |].
        { intros Hin. pose proof (owned_in _ _ fb Ho ltac:(apply elem_of_app; auto)). lia. }
        { cbn [m1 im_sect set_freeblock]. rewrite Hfresh. apply table_zero. lia. }
      * apply apart_table; try reflexivity. right. fold fb. lia.
Qed.


(** The block in which byte [length data] lies, with [bl] just enough for [data]. *)
Lemma iappend_block_ok m din bl ind data :
  growing m din bl ind data -> length bl = nblk (length data) -> (length data < BLK * (NDIRECT + NINDIRECT))%nat ->
  let k := (length data / BLK)%nat in
  im_freeblock m + Z.of_nat (cost (S k) - cost (length bl)) <= FSSIZE ->
  exists x din' bl' ind' m', iappend_block din (Z.of_nat k) m = Ok (x, din') m' /\ growing m' din' bl' ind' data /\
    bl' !! k = Some x /\ length bl' = S k /\ im_freeblock m' = im_freeblock m + Z.of_nat (cost (S k) - cost (length bl)) /\
    apart (own bl ind) m m' /\ (exists l, din' = set_d_addrs l din) /\
    (forall b, b ∈ own bl' ind' -> b ∈ own bl ind \/ im_freeblock m <= b).
Proof.
  intros Hg Hbl Hmax k Hroom. unfold nblk in Hbl. destruct (decide (length data mod BLK = 0)%nat) as [E0 | E0].
  - assert (Hk : k = length bl) by (unfold k; ndm). assert (Hl : length data = (BLK * length bl)%nat) by ndm. rewrite Hk in *.
    assert (Hn : exists x din' m', iappend_block din (Z.of_nat (length bl)) m = Ok (x, din') m' /\ grown m din bl ind data x din' m').
    { destruct (decide (length bl < NDIRECT)%nat) as [Hd | Hd]; [apply grow_direct; try assumption | apply grow_indirect; try assumption; lia].
      unfold cost in Hroom. rewrite !decide_False in Hroom by lia. lia. }
    destruct Hn as (x & din' & m' & E & [(ind' & Hg' & Hown) Hfb Hap Hdin]). exists x, din', (bl ++ [x]), ind', m'. split; [exact E|]. split; [exact Hg'|].
    split; [apply list_lookup_middle; reflexivity|]. split; [rewrite length_app; cbn; lia|]. auto.
  - assert (Hk : length bl = S k) by (unfold k; ndm). destruct (lookup_lt_is_Some_2 bl k) as [x Hx]; [lia|].
    exists x, din, bl, ind, m. split; [apply (iappend_block_old m din bl ind data k x Hg Hx); ndm|]. split; [exact Hg|]. split; [exact Hx|]. split; [exact Hk|].
    rewrite Hk, Nat.sub_diag, Z.add_0_r. split; [reflexivity|]. split; [constructor; reflexivity|]. split; [exists (d_addrs din); destruct din; reflexivity | auto].
Qed.

Lemma apart_trans l l' m m1 m2 :
  apart l m m1 -> apart l' m1 m2 -> im_freeblock m <= im_freeblock m1 ->
  (forall b, b ∈ l' -> b ∈ l \/ im_freeblock m <= b) -> apart l m m2.
Proof.
  intros [A1 A2 A3] [B1 B2 B3] Hf Hsub. constructor; [|congruence | congruence]. intros b Hb Hlt. rewrite B1; [apply A1; assumption | | lia].
  intros Hin. destruct (Hsub b Hin); [contradiction | lia].
Qed.

Lemma set_sect_apart l m x v : x ∈ l -> apart l m (set_sect (fupd (im_sect m) x v) m).
Proof. intros Hx. constructor; [|reflexivity | reflexivity]. intros b Hb _. cbn. apply fupd_ne. intros ->. contradiction. Qed.

Lemma cost_mono n n' : (n <= n')%nat -> (cost n <= cost n')%nat.
Proof. unfold cost. repeat case_decide; lia. Qed.

(** Storing part of the new bytes in the block found. *)
Lemma growing_write m din bl ind data p x :
  growing m din bl ind data -> bl !! (length data / BLK)%nat = Some x -> (length data mod BLK + length p <= BLK)%nat ->
  growing (set_sect (fupd (im_sect m) x (put (length data mod BLK) p (im_sect m x))) m) din bl ind (data ++ p).
Proof.
  intros [[S1 S2] Hf Ho Ha Hb] Hx Hp. pose proof (owned_nth _ _ _ _ _ Ho (proj2 Hf) Hx) as (_ & _ & _ & Hr). change nmeta with 59 in *. constructor; cbn [im_sect im_freeblock set_sect]; try assumption.
  - constructor; intros b Hb'; unfold fupd; case_decide; subst; [rewrite put_length; apply S1; exact Hb' | apply S1, Hb' | lia | apply S2, Hb'].
  - apply body_write; try assumption; [apply Ho|]. intros b Hb'. apply S1. pose proof (owned_in _ _ b Ho Hb'). change nmeta with 59 in *. lia.
Qed.

Lemma iappend_loop_S din off p f : p <> [] ->
  iappend_loop din off p (S f) =
    (let fbn := off / BSIZE in
     assert (fbn <? MAXFILE) ;;
     let! (x, din) := iappend_block din fbn in
     let n1 := Z.min (Z.of_nat (length p)) (w32 (w32 ((fbn + 1) * BSIZE) - off)) in
     let! buf := rsect x in
     wsect x (put (Z.to_nat (off - fbn * BSIZE)) (take (Z.to_nat n1) p) buf) ;;
     iappend_loop din (w32 (off + n1)) (drop (Z.to_nat n1) p) f).
Proof. destruct p; [congruence | reflexivity]. Qed.

Lemma iappend_loop_ok fuel : forall p m din bl ind data,
  growing m din bl ind data -> length bl = nblk (length data) -> (length data + length p <= BLK * (NDIRECT + NINDIRECT))%nat ->
  im_freeblock m + Z.of_nat (cost (nblk (length data + length p)) - cost (length bl)) <= FSSIZE -> (length p < fuel)%nat ->
  exists din' bl' ind' m', iappend_loop din (Z.of_nat (length data)) p fuel m = Ok (Z.of_nat (length (data ++ p)), din') m' /\
    growing m' din' bl' ind' (data ++ p) /\ length bl' = nblk (length (data ++ p)) /\
    im_freeblock m' = im_freeblock m + Z.of_nat (cost (length bl') - cost (length bl)) /\ apart (own bl ind) m m' /\
    (exists l, din' = set_d_addrs l din) /\ (forall b, b ∈ own bl' ind' -> b ∈ own bl ind \/ im_freeblock m <= b).
Proof.
  induction fuel as [|fuel IH]; intros p m din bl ind data Hg Hbl Hmax Hroom Hfuel; [lia|]. destruct p as [|c p'] eqn:Ep.
  { exists din, bl, ind, m. rewrite !app_nil_r. cbn [iappend_loop]. split; [reflexivity|]. split; [exact Hg|]. split; [exact Hbl|]. rewrite Nat.sub_diag, Z.add_0_r. split; [reflexivity|].
    split; [constructor; reflexivity|]. split; [exists (d_addrs din); destruct din; reflexivity | auto]. }
  rewrite <- Ep in *. assert (Hpos : (0 < length p)%nat) by (rewrite Ep; cbn; lia). clear Ep c p'. set (k := (length data / BLK)%nat). set (n1 := Nat.min (length p) (BLK - length data mod BLK)).
  assert (Hn1 : (0 < n1)%nat /\ (n1 <= length p)%nat /\ (length data mod BLK + n1 <= BLK)%nat) by (unfold n1; ndm). destruct Hn1 as (Hn1 & Hn2 & Hn3).
  assert (Hnk : nblk (length data + n1) = S k) by (unfold nblk, k; ndm). assert (Hnk' : (S k <= nblk (length data + length p))%nat) by (unfold nblk, k; ndm).
  assert (Hbk : (length bl <= S k)%nat) by (rewrite Hbl; unfold nblk, k; ndm). pose proof (cost_mono _ _ Hnk') as Hc1. pose proof (cost_mono _ _ Hbk) as Hc2.
  destruct (iappend_block_ok m din bl ind data Hg Hbl) as (x & din1 & bl1 & ind1 & m1 & E1 & Hg1 & Hx1 & Hl1 & Hf1 & Ha1 & [l1 Ed1] & Ho1); [lia | fold k; lia|]. fold k in E1, Hx1, Hl1, Hf1.
  set (m2 := set_sect (fupd (im_sect m1) x (put (length data mod BLK) (take n1 p) (im_sect m1 x))) m1).
  assert (Hg2 : growing m2 din1 bl1 ind1 (data ++ take n1 p)) by (apply growing_write; [exact Hg1 | exact Hx1 | rewrite length_take; lia]).
  destruct (IH (drop n1 p) m2 din1 bl1 ind1 (data ++ take n1 p) Hg2) as (din' & bl' & ind' & m' & E & Hg' & Hl' & Hf' & Ha' & [l' Ed'] & Ho').
  { rewrite Hl1, length_app, length_take, Nat.min_l by lia. symmetry. exact Hnk. }
  { rewrite length_app, length_take, length_drop. lia. }
  { rewrite length_app, length_take, length_drop, Hl1. cbn [m2 im_freeblock set_sect]. rewrite Hf1. replace (length data + n1 `min` length p + (length p - n1))%nat with (length data + length p)%nat by lia. lia. }
  { rewrite length_drop. lia. }
  rewrite <- app_assoc, take_drop in E, Hg', Hl'. exists din', bl', ind', m'. split; [|split; [exact Hg'|]; split; [exact Hl'|]].
  - rewrite iappend_loop_S by (intros ->; cbn in Hpos; lia).
    replace (Z.of_nat (length data) / BSIZE) with (Z.of_nat k) by (unfold k, BSIZE; ndm). cbn zeta. erewrite bind_ok by (unfold assert; replace (Z.of_nat k <? MAXFILE) with true; [reflexivity|]; symmetry; apply Z.ltb_lt; change MAXFILE with 140; unfold NDIRECT, NINDIRECT in Hmax; unfold k; ndm).
    rewrite (bind_ok _ _ _ _ _ E1). cbn beta iota. unfold NDIRECT, NINDIRECT in Hmax. rewrite (w32_small ((Z.of_nat k + 1) * BSIZE)) by (unfold u32, BSIZE, k; ndm).
    replace (w32 ((Z.of_nat k + 1) * BSIZE - Z.of_nat (length data))) with (512 - Z.of_nat (length data mod BLK)) by (rewrite w32_small by (unfold u32, BSIZE, k; ndm); unfold k, BSIZE; ndm).
    replace (Z.min (Z.of_nat (length p)) (512 - Z.of_nat (length data mod BLK))) with (Z.of_nat n1) by (unfold n1; lia). rewrite Nat2Z.id.
    replace (Z.to_nat (Z.of_nat (length data) - Z.of_nat k * BSIZE)) with (length data mod BLK)%nat by (unfold k, BSIZE; ndm).
    assert (Hrs : 0 <= x < 1000). { destruct Hg1 as [_ Hfb1 Hown1 _ _]. destruct (owned_nth _ _ _ _ _ Hown1 (proj2 Hfb1) Hx1) as (_ & _ & _ & Hr). change nmeta with 59 in *. unfold FSSIZE in *. lia. }
    rewrite (bind_ok _ _ _ _ _ (rsect_ok x m1 ltac:(lia) (se_len _ _ (gr_sects _ _ _ _ _ Hg1) x Hrs))). unfold wsect, modify. erewrite bind_ok by reflexivity. rewrite (sector_id x) by lia. fold m2. rewrite w32_small by (unfold u32; lia). replace (Z.of_nat (length data) + Z.of_nat n1) with (Z.of_nat (length (data ++ take n1 p))) by (rewrite length_app, length_take; lia). exact E.
  - assert (Hx : x ∈ own bl1 ind1) by (apply elem_of_app; left; eapply list_elem_of_lookup_2, Hx1). assert (Hle : (cost (S k) <= cost (length bl'))%nat) by (apply cost_mono; rewrite Hl', length_app; exact Hnk').
    split; [rewrite Hf'; cbn [m2 im_freeblock set_sect]; rewrite Hf1, Hl1; lia|]. split; [|split; [exists l'; rewrite Ed', Ed1; reflexivity|]].
    + eapply apart_trans; [exact Ha1 | | lia | exact Ho1]. eapply apart_trans; [apply set_sect_apart, Hx | exact Ha' | cbn; lia | auto].
    + intros b Hb. destruct (Ho' b Hb) as [H | H]; [exact (Ho1 b H) | right; cbn in H; lia].
Qed.

(** ** Inodes on the image *)

Definition inode_at sect (inum : Z) : dinode := decode_dinode (sect (32 + inum / 8)) (inode_off inum).
Definition put_inode sect (inum : Z) (d : dinode) : Z -> list Z :=
  fupd sect (32 + inum / 8) (put (inode_off inum) (encode_dinode d) (sect (32 + inum / 8))).

Lemma iblock_main inum : 0 <= inum < 208 -> IBLOCK inum main_sb = 32 + inum / 8 /\ 32 <= 32 + inum / 8 < 58 /\ sector (32 + inum / 8) = 32 + inum / 8.
Proof.
  intros Hi. assert (H : 32 <= 32 + inum / 8 < 58) by zdm. split; [|split; [exact H | apply sector_id; lia]].
  unfold IBLOCK. change (sb_inodestart main_sb) with 32. change IPB with 8. rewrite Z.add_comm. apply w32_small. unfold u32. lia.
Qed.

Lemma rinode_ok inum m fb : im_sb m = main_sb -> sects (im_sect m) fb -> 0 <= inum < 208 -> rinode inum m = Ok (inode_at (im_sect m) inum) m.
Proof.
  intros Hs Hf Hi. destruct (iblock_main inum Hi) as (E1 & E3 & _). unfold rinode, gets. erewrite bind_ok by reflexivity.
  rewrite Hs, E1. erewrite bind_ok by (apply rsect_ok; [lia | apply (se_len _ _ Hf); unfold FSSIZE; lia]). reflexivity.
Qed.

Lemma winode_ok inum d m fb : im_sb m = main_sb -> sects (im_sect m) fb -> 0 <= inum < 208 -> winode inum d m = Ok tt (set_sect (put_inode (im_sect m) inum d) m).
Proof.
  intros Hs Hf Hi. destruct (iblock_main inum Hi) as (E1 & E3 & E2). unfold winode, wsect, gets, modify. erewrite bind_ok by reflexivity. cbn zeta.
  rewrite Hs, E1. erewrite bind_ok by (apply rsect_ok; [lia | apply (se_len _ _ Hf); unfold FSSIZE; lia]). rewrite E2. reflexivity.
Qed.

Lemma put_inode_same sect inum d : dinode_ok d -> 0 <= inum -> length (sect (32 + inum / 8)) = BLK -> inode_at (put_inode sect inum d) inum = d.
Proof. intros Hd Hi Hl. unfold inode_at, put_inode. rewrite fupd_eq. apply (inode_roundtrip d _ inum inum); assumption. Qed.

Lemma put_inode_other sect inum inum' d : dinode_ok d -> 0 <= inum -> 0 <= inum' -> inum' <> inum -> length (sect (32 + inum / 8)) = BLK ->
  inode_at (put_inode sect inum d) inum' = inode_at sect inum'.
Proof.
  intros Hd Hi Hi' Hne Hl. unfold inode_at, put_inode. destruct (decide (32 + inum' / 8 = 32 + inum / 8)) as [E | E]; [|rewrite fupd_ne by exact E; reflexivity].
  rewrite E, fupd_eq. apply (inode_roundtrip d _ inum inum'); try assumption. change IPB with 8. clear -Hne E. intros Hm. zdm.
Qed.

(** ** All files *)

Record fileinfo : Type := mkFi { fi_type : Z; fi_bl : list Z; fi_ind : Z; fi_data : list Z }.

Definition dinode_of (fi : fileinfo) : dinode :=
  mkDinode (fi_type fi) 0 0 1 (Z.of_nat (length (fi_data fi))) (addrs_of (fi_bl fi) (fi_ind fi)).
Definition fi_own (fi : fileinfo) : list Z := own (fi_bl fi) (fi_ind fi).
Definition total (fs : list fileinfo) : nat := sum_list (map (fun fi => cost (length (fi_bl fi))) fs).

Record file_ok sect (fb : Z) (inum : Z) (fi : fileinfo) : Prop := {
  fk_inode : inode_at sect inum = dinode_of fi;
  fk_body : body sect (fi_bl fi) (fi_ind fi) (fi_data fi);
  fk_len : length (fi_bl fi) = nblk (length (fi_data fi));
  fk_max : (length (fi_data fi) <= BLK * (NDIRECT + NINDIRECT))%nat;
  fk_own : owned fb (fi_own fi);
  fk_type : 0 <= fi_type fi < 32768 }.

Definition meta sect : Prop :=
  sect 1 = put 0 (sb_bytes main_sb) zeroes /\ forall b, b = 0 \/ 2 <= b < 32 \/ b = 58 -> sect b = zeroes.

Record files (m : image) (fs : list fileinfo) : Prop := {
  fl_sb : im_sb m = main_sb;
  fl_inode : im_freeinode m = 1 + Z.of_nat (length fs);
  fl_max : (length fs < 200)%nat;
  fl_sects : sects (im_sect m) (im_freeblock m);
  fl_fb : im_freeblock m = nmeta + Z.of_nat (total fs);
  fl_room : im_freeblock m <= FSSIZE;
  fl_each i fi : fs !! i = Some fi -> file_ok (im_sect m) (im_freeblock m) (1 + Z.of_nat i) fi;
  fl_disj i j fi fj b : fs !! i = Some fi -> fs !! j = Some fj -> b ∈ fi_own fi -> b ∈ fi_own fj -> i = j;
  fl_free inum : Z.of_nat (length fs) < inum < 208 -> d_type (inode_at (im_sect m) inum) = 0;
  fl_meta : meta (im_sect m) }.

Lemma total_cons fi fs : total (fi :: fs) = (cost (length (fi_bl fi)) + total fs)%nat.
Proof. reflexivity. Qed.

Lemma total_insert fs i fi fi' : fs !! i = Some fi ->
  (total (<[i := fi']> fs) + cost (length (fi_bl fi)) = total fs + cost (length (fi_bl fi')))%nat.
Proof.
  revert i. induction fs as [|f fs IH]; intros [|i] E; try discriminate E.
  - injection E as ->. change (<[0%nat := fi']> (fi :: fs)) with (fi' :: fs). rewrite !total_cons. lia.
  - change (<[S i := fi']> (f :: fs)) with (f :: <[i := fi']> fs). rewrite !total_cons. specialize (IH i E). lia.
Qed.

Lemma total_app fs fi : total (fs ++ [fi]) = (total fs + cost (length (fi_bl fi)))%nat.
Proof. induction fs as [|f fs IH]; cbn [app]; rewrite !total_cons; [unfold total; cbn; lia | lia]. Qed.

Lemma addrs_u32 fb bl ind : owned fb (own bl ind) -> fb <= FSSIZE -> Forall u32 (addrs_of bl ind).
Proof.
  intros Ho Hf. unfold addrs_of. apply Forall_app. split; [|apply Forall_singleton; case_decide as Hi; [apply (owned_ind _ _ _ Ho Hf Hi) | unfold u32; lia]].
  apply Forall_forall. intros x Hx%list_elem_of_In. apply in_map_iff in Hx as (k & <- & _). destruct (bl !! k) as [y|] eqn:E.
  - destruct (owned_nth _ _ _ _ _ Ho Hf E) as (-> & Hu & _). exact Hu.
  - apply lookup_ge_None in E. rewrite nth_overflow by exact E. unfold u32. lia.
Qed.

Lemma dinode_of_ok fb fi :
  owned fb (fi_own fi) -> fb <= FSSIZE -> (length (fi_data fi) <= BLK * (NDIRECT + NINDIRECT))%nat -> 0 <= fi_type fi < 32768 -> dinode_ok (dinode_of fi).
Proof.
  intros Ho Hf Hm Ht. unfold NDIRECT, NINDIRECT in Hm.
  constructor; cbn [dinode_of d_type d_major d_minor d_nlink d_size d_addrs]; try lia; [unfold u32; lia | apply addrs_length | eapply addrs_u32; eassumption].
Qed.

Lemma owned_mono fb fb' l : owned fb l -> fb <= fb' -> owned fb' l.
Proof. intros [H1 H2] Hle. split; [exact H1|]. eapply Forall_impl; [exact H2|]. cbn. lia. Qed.

Lemma files_growing m fs i fi : files m fs -> fs !! i = Some fi -> growing m (dinode_of fi) (fi_bl fi) (fi_ind fi) (fi_data fi).
Proof.
  intros Hf Hi. pose proof (fl_each m fs Hf i fi Hi) as [H1 H2 H3 H4 H5 H6]. constructor; [apply Hf | | exact H5 | reflexivity | exact H2].
  split; [rewrite (fl_fb m fs Hf); lia | apply Hf].
Qed.

(** Sectors of inodes and data do not meet. *)
Lemma put_inode_data sect inum d b : 0 <= inum < 208 -> nmeta <= b \/ b < 32 \/ b = 58 -> put_inode sect inum d b = sect b.
Proof. intros Hi Hb. destruct (iblock_main inum Hi) as (_ & H & _). change nmeta with 59 in Hb. apply fupd_ne. lia. Qed.

Lemma put_inode_sects sect inum d fb : sects sect fb -> 0 <= inum < 208 -> nmeta <= fb -> sects (put_inode sect inum d) fb.
Proof.
  intros [S1 S2] Hi Hfb. destruct (iblock_main inum Hi) as (_ & Hs & _). constructor; intros b Hb.
  - unfold put_inode, fupd. case_decide as E; [rewrite put_length, <- E; apply S1, Hb | apply S1, Hb].
  - rewrite put_inode_data by (exact Hi || lia). apply S2, Hb.
Qed.

(** A new version of file [i]: blocks from the free ones, its inode stored. *)
Lemma files_update m m1 fs i fi fi' :
  files m fs -> fs !! i = Some fi -> growing m1 (dinode_of fi') (fi_bl fi') (fi_ind fi') (fi_data fi') ->
  length (fi_bl fi') = nblk (length (fi_data fi')) -> (length (fi_data fi') <= BLK * (NDIRECT + NINDIRECT))%nat -> fi_type fi' = fi_type fi ->
  im_freeblock m1 = nmeta + Z.of_nat (total (<[i := fi']> fs)) -> im_freeblock m <= im_freeblock m1 -> apart (fi_own fi) m m1 ->
  (forall b, b ∈ fi_own fi' -> b ∈ fi_own fi \/ im_freeblock m <= b) ->
  files (set_sect (put_inode (im_sect m1) (1 + Z.of_nat i) (dinode_of fi')) m1) (<[i := fi']> fs).
Proof.
  intros Hf Hi Hg Hl Hmax Ht Hfb Hle [A1 A2 A3] Hown. pose proof (lookup_lt_Some _ _ _ Hi) as Hlt. pose proof (fl_max m fs Hf) as Hm. pose proof (fl_each m fs Hf i fi Hi) as Hk.
  assert (Hr : 0 <= 1 + Z.of_nat i < 208) by lia. pose proof Hg as [Hs Hfr Ho _ Hb]. pose proof (fl_fb m fs Hf) as Hfbm.
  assert (Hd : dinode_ok (dinode_of fi')) by (apply (dinode_of_ok (im_freeblock m1)); [exact Ho | lia | exact Hmax | rewrite Ht; apply Hk]).
  destruct (iblock_main _ Hr) as (_ & Hsec & _).
  assert (Hlow : forall b, b < 59 -> im_sect m1 b = im_sect m b).
  { intros b Hb59. apply A1; [|change nmeta with 59 in *; lia]. intros Hin. pose proof (owned_in _ _ b (fk_own _ _ _ _ Hk) Hin). change nmeta with 59 in *. lia. }
  assert (Hslen : length (im_sect m1 (32 + (1 + Z.of_nat i) / 8)) = BLK) by (apply (se_len _ _ Hs); unfold FSSIZE; lia).
  constructor; cbn [im_sb im_freeinode im_sect im_freeblock set_sect].
  - rewrite A2. apply Hf.
  - rewrite A3, length_insert. apply Hf.
  - rewrite length_insert. exact Hm.
  - apply put_inode_sects; [exact Hs | exact Hr | lia].
  - exact Hfb.
  - apply Hfr.
  - intros j fj Hj. apply list_lookup_insert_Some in Hj as [(-> & -> & _) | [Hne Hj]].
    + constructor; try assumption; [apply put_inode_same; [exact Hd | lia | exact Hslen] | | rewrite Ht; apply Hk].
      eapply body_ext; [|exact Hb]. intros b Hb'. apply put_inode_data; [exact Hr | left; eapply owned_in; eassumption].
    + pose proof (fl_each m fs Hf j fj Hj) as [K1 K2 K3 K4 K5 K6]. pose proof (lookup_lt_Some _ _ _ Hj) as Hltj. constructor; try assumption; [| |eapply owned_mono; eassumption].
      * rewrite put_inode_other by (assumption || lia). unfold inode_at. rewrite Hlow; [exact K1|]. assert (0 <= 1 + Z.of_nat j < 208) as Hrj by lia. destruct (iblock_main _ Hrj) as (_ & ? & _). lia.
      * eapply body_ext; [|exact K2]. intros b Hb'. pose proof (owned_in _ _ b K5 Hb'). rewrite put_inode_data by (exact Hr || (left; lia)). apply A1; [|lia].
        intros Hin. apply Hne. exact (fl_disj m fs Hf i j fi fj b Hi Hj Hin Hb').
  - assert (Hnew : forall j fj b, j <> i -> fs !! j = Some fj -> b ∈ fi_own fi' -> b ∈ fi_own fj -> False).
    { intros j fj b Hne Hj Hb1 Hb2. destruct (Hown b Hb1) as [H | H]; [apply Hne; exact (fl_disj m fs Hf j i fj fi b Hj Hi Hb2 H)|].
      pose proof (owned_in _ _ b (fk_own _ _ _ _ (fl_each m fs Hf j fj Hj)) Hb2). lia. }
    intros j1 j2 f1 f2 b H1 H2 Hb1 Hb2. apply list_lookup_insert_Some in H1 as [(<- & <- & _) | [N1 H1]], H2 as [(<- & <- & _) | [N2 H2]]; [reflexivity | | |].
    + exfalso. exact (Hnew j2 f2 b ltac:(congruence) H2 Hb1 Hb2).
    + exfalso. exact (Hnew j1 f1 b ltac:(congruence) H1 Hb2 Hb1).
    + exact (fl_disj m fs Hf j1 j2 f1 f2 b H1 H2 Hb1 Hb2).
  - rewrite length_insert. intros inum Hin. rewrite put_inode_other by (assumption || lia). unfold inode_at. assert (0 <= inum < 208) as Hrj by lia. destruct (iblock_main _ Hrj) as (_ & ? & _).
    rewrite Hlow by lia. apply Hf. exact Hin.
  - destruct (fl_meta m fs Hf) as [M1 M2]. split; [rewrite put_inode_data by (exact Hr || lia); rewrite Hlow by lia; exact M1|].
    intros b Hb'. rewrite put_inode_data by (exact Hr || lia). rewrite Hlow by lia. apply M2, Hb'.
Qed.

(** Appending to file [i]. *)
Lemma iappend_ok m fs i fi p :
  files m fs -> fs !! i = Some fi -> (length (fi_data fi) + length p <= BLK * (NDIRECT + NINDIRECT))%nat ->
  nmeta + Z.of_nat (total fs + (cost (nblk (length (fi_data fi) + length p)) - cost (length (fi_bl fi)))) <= FSSIZE ->
  exists m' bl' ind', iappend (1 + Z.of_nat i) p m = Ok tt m' /\ files m' (<[i := mkFi (fi_type fi) bl' ind' (fi_data fi ++ p)]> fs) /\
    length bl' = nblk (length (fi_data fi) + length p).
Proof.
  intros Hf Hi Hmax Hroom. pose proof (lookup_lt_Some _ _ _ Hi) as Hlt. pose proof (fl_max m fs Hf) as Hm. assert (Hr : 0 <= 1 + Z.of_nat i < 208) by lia.
  pose proof (fl_each m fs Hf i fi Hi) as Hk. pose proof (files_growing m fs i fi Hf Hi) as Hg.
  destruct (iappend_loop_ok (S (length p)) p m (dinode_of fi) _ _ _ Hg (fk_len _ _ _ _ Hk) Hmax) as (din' & bl' & ind' & m1 & E & Hg1 & Hl1 & Hf1 & Ha1 & [l Ed] & Ho1);
    [rewrite (fl_fb m fs Hf); lia | lia|].
  set (fi' := mkFi (fi_type fi) bl' ind' (fi_data fi ++ p)).
  assert (Hmono : (cost (length (fi_bl fi)) <= cost (length bl'))%nat) by (apply cost_mono; rewrite Hl1, (fk_len _ _ _ _ Hk), length_app; unfold nblk; ndm).
  assert (Edin : set_d_size (xint (Z.of_nat (length (fi_data fi ++ p)))) din' = dinode_of fi').
  { rewrite xint_id by (unfold u32, NDIRECT, NINDIRECT in *; rewrite length_app; lia). pose proof (gr_addrs _ _ _ _ _ Hg1) as Ea. rewrite Ed in Ea |- *. cbn in Ea. subst l. reflexivity. }
  exists (set_sect (put_inode (im_sect m1) (1 + Z.of_nat i) (dinode_of fi')) m1), bl', ind'. split; [|split; [|rewrite Hl1, length_app; reflexivity]].
  - unfold iappend. erewrite bind_ok by (eapply rinode_ok; [apply Hf | apply Hf | exact Hr]). rewrite (fk_inode _ _ _ _ Hk). cbn [dinode_of d_size].
    rewrite xint_id by (unfold u32, NDIRECT, NINDIRECT in *; lia). rewrite (bind_ok _ _ _ _ _ E). rewrite Edin. eapply winode_ok; [rewrite (ap_sb _ _ _ Ha1); apply Hf | apply Hg1 | exact Hr].
  - apply (files_update m m1 fs i fi fi' Hf Hi); cbn [fi' fi_bl fi_ind fi_data fi_type]; try assumption; try reflexivity.
    + destruct Hg1 as [G1 G2 G3 G4 G5]. constructor; try assumption. reflexivity.
    + rewrite length_app. exact Hmax.
    + pose proof (total_insert fs i fi fi' Hi) as Htot. cbn [fi' fi_bl] in Htot. fold fi' in Htot. rewrite Hf1, (fl_fb m fs Hf). fold fi'. lia.
    + lia.
Qed.

Lemma ialloc_ok m fs type :
  files m fs -> (length fs < 199)%nat -> 0 <= type < 32768 ->
  exists m', ialloc type m = Ok (1 + Z.of_nat (length fs)) m' /\ files m' (fs ++ [mkFi type [] 0 []]).
Proof.
  intros Hf Hlt Ht. pose proof Hf as [F1 F2 F3 F4 F5 F6 F7 F8 F9 [M1 M2]]. set (n := length fs) in *. assert (Hr : 0 <= 1 + Z.of_nat n < 208) by lia.
  set (fi := mkFi type [] 0 []). set (m1 := set_freeinode (w32 (1 + Z.of_nat n + 1)) m). assert (Hd : dinode_ok (dinode_of fi)).
  { apply (dinode_of_ok (im_freeblock m)); [split; [constructor | constructor] | exact F6 | apply Nat.le_0_l | exact Ht]. }
  destruct (iblock_main _ Hr) as (_ & Hsec & _). assert (Hslen : length (im_sect m (32 + (1 + Z.of_nat n) / 8)) = BLK) by (apply (se_len _ _ F4); unfold FSSIZE; lia).
  exists (set_sect (put_inode (im_sect m) (1 + Z.of_nat n) (dinode_of fi)) m1). split.
  - unfold ialloc, gets, modify. erewrite bind_ok by reflexivity. rewrite F2. erewrite bind_ok by reflexivity. fold m1.
    rewrite (xshort_id type) by lia. change (mkDinode type 0 0 (xshort 1) (xint 0) (replicate (S NDIRECT) 0)) with (dinode_of fi).
    erewrite bind_ok by (eapply winode_ok; [exact F1 | exact F4 | exact Hr]). reflexivity.
  - constructor; cbn [im_sb im_freeinode im_sect im_freeblock set_sect m1 set_freeinode]; try assumption.
    + rewrite w32_small by (unfold u32; lia). rewrite length_app. cbn [length]. lia.
    + rewrite length_app. cbn [length]. lia.
    + apply put_inode_sects; [exact F4 | exact Hr | lia].
    + rewrite total_app. change (cost (length (fi_bl fi))) with 0%nat. rewrite Nat.add_0_r. exact F5.
    + intros j fj [Hj | [Hj Hx]]%lookup_app_Some.
      * destruct (F7 j fj Hj) as [K1 K2 K3 K4 K5 K6]. pose proof (lookup_lt_Some _ _ _ Hj) as Hltj. fold n in Hltj. constructor; try assumption.
        -- rewrite put_inode_other by (assumption || lia). exact K1.
        -- eapply body_ext; [|exact K2]. intros b Hb. apply put_inode_data; [exact Hr | left; eapply owned_in; eassumption].
      * apply list_lookup_singleton_Some in Hx as [Hj0 <-]. replace j with n by (unfold n; lia). constructor.
        -- apply put_inode_same; [exact Hd | lia | exact Hslen].
        -- constructor; [apply Nat.le_0_l | reflexivity | unfold has_ind; cbn; lia].
        -- reflexivity.
        -- apply Nat.le_0_l.
        -- split; constructor.
        -- exact Ht.
    + intros j1 j2 f1 f2 b [H1 | [H1 H1']]%lookup_app_Some [H2 | [H2 H2']]%lookup_app_Some Hb1 Hb2; [exact (F8 j1 j2 f1 f2 b H1 H2 Hb1 Hb2) | | |].
      all: try (apply list_lookup_singleton_Some in H1' as [_ <-]; cbn in Hb1; apply not_elem_of_nil in Hb1; destruct Hb1).
      all: apply list_lookup_singleton_Some in H2' as [_ <-]; cbn in Hb2; apply not_elem_of_nil in Hb2; destruct Hb2.
    + rewrite length_app. cbn [length]. intros inum Hin. rewrite put_inode_other by (assumption || lia). apply F9. lia.
    + split; [rewrite put_inode_data by (exact Hr || lia); exact M1|]. intros b Hb. rewrite put_inode_data by (exact Hr || lia). apply M2, Hb.
Qed.

Lemma append_all_ok pieces : forall m fs i fi,
  files m fs -> fs !! i = Some fi -> (length (fi_data fi) + length (mjoin pieces) <= BLK * (NDIRECT + NINDIRECT))%nat ->
  nmeta + Z.of_nat (total fs + (cost (nblk (length (fi_data fi) + length (mjoin pieces))) - cost (length (fi_bl fi)))) <= FSSIZE ->
  exists m' bl' ind', append_all (1 + Z.of_nat i) pieces m = Ok tt m' /\ files m' (<[i := mkFi (fi_type fi) bl' ind' (fi_data fi ++ mjoin pieces)]> fs) /\
    length bl' = nblk (length (fi_data fi) + length (mjoin pieces)).
Proof.
  induction pieces as [|p ps IH]; intros m fs i fi Hf Hi Hmax Hroom; cbn [append_all].
  - exists m, (fi_bl fi), (fi_ind fi). split; [reflexivity|]. change (mjoin (@nil (list Z))) with (@nil Z). rewrite app_nil_r. cbn [length]. rewrite Nat.add_0_r.
    split; [|apply (fl_each m fs Hf i fi Hi)]. rewrite list_insert_id; [exact Hf | rewrite Hi; destruct fi; reflexivity].
  - change (mjoin (p :: ps)) with (p ++ mjoin ps) in *. rewrite length_app in *. set (n := length (fi_data fi)) in *.
    assert (H1 : (cost (nblk (n + length p)) <= cost (nblk (n + (length p + length (mjoin ps)))))%nat) by (apply cost_mono, nblk_mono; lia).
    assert (H0 : (cost (length (fi_bl fi)) <= cost (nblk (n + length p)))%nat) by (apply cost_mono; rewrite (fk_len _ _ _ _ (fl_each m fs Hf i fi Hi)); apply nblk_mono; fold n; lia).
    destruct (iappend_ok m fs i fi p Hf Hi) as (m1 & bl1 & ind1 & E1 & Hf1 & Hl1); [fold n; lia | fold n; lia|]. fold n in Hl1.
    set (f1 := mkFi (fi_type fi) bl1 ind1 (fi_data fi ++ p)) in *. pose proof (total_insert fs i fi f1 Hi) as Htot. cbn [f1 fi_bl] in Htot. fold f1 in Htot. rewrite Hl1 in Htot.
    assert (Hi1 : <[i := f1]> fs !! i = Some f1) by (apply list_lookup_insert_eq; eapply lookup_lt_Some, Hi).
    destruct (IH m1 (<[i := f1]> fs) i f1 Hf1 Hi1) as (m2 & bl2 & ind2 & E2 & Hf2 & Hl2); cbn [f1 fi_data fi_bl]; fold f1; rewrite ?length_app; fold n.
    { lia. } { rewrite Hl1. replace (n + length p + length (mjoin ps))%nat with (n + (length p + length (mjoin ps)))%nat by lia. lia. }
    cbn [f1 fi_data fi_type] in Hf2, Hl2. fold f1 in Hf2. rewrite list_insert_insert_eq in Hf2. rewrite <- app_assoc in Hf2. rewrite length_app in Hl2. fold n in Hl2.
    exists m2, bl2, ind2. split; [rewrite (bind_ok _ _ _ _ _ E1); exact E2|]. split; [exact Hf2|]. rewrite Hl2. f_equal. lia.
Qed.

(** ** The arguments *)

Definition contents (f : list Z * option (list (list Z))) : list Z := match f.2 with Some ps => mjoin ps | None => [] end.
Definition entry (inum : Z) (name : list Z) : list Z := encode_dirent (mkDirent inum (strncpy_bytes name DIRSIZ)).
Fixpoint listing (inum : Z) (fs : list (list Z * option (list (list Z)))) : list Z :=
  match fs with
  | [] => []
  | (name, _) :: fs' => entry inum (skip_underscore name) ++ listing (inum + 1) fs'
  end.
Definition space (ds : list (list Z)) : nat := sum_list (map (fun d => cost (nblk (length d))) ds).

Lemma strncpy_length s n : length (strncpy_bytes s n) = n.
Proof. revert s. induction n as [|n IH]; intros [|c s]; cbn [strncpy_bytes length]; rewrite ?IH; try reflexivity. destruct (c =? 0); cbn [length]; rewrite IH; reflexivity. Qed.

Lemma entry_length inum name : length (entry inum name) = 16%nat.
Proof. unfold entry, encode_dirent. rewrite length_app. cbn [de_name]. rewrite strncpy_length. reflexivity. Qed.

Lemma dirent_entry inum name : 0 <= inum < 65536 -> dirent_bytes inum (strncpy_bytes name DIRSIZ) = entry inum name.
Proof. intros Hi. unfold dirent_bytes, entry. rewrite xshort_id by exact Hi. reflexivity. Qed.

Lemma space_cons d ds : space (d :: ds) = (cost (nblk (length d)) + space ds)%nat.
Proof. reflexivity. Qed.
Lemma space_app ds ds' : space (ds ++ ds') = (space ds + space ds')%nat.
Proof. induction ds as [|d ds IH]; [reflexivity|]. change ((d :: ds) ++ ds') with (d :: (ds ++ ds')). rewrite !space_cons. lia. Qed.

Lemma total_space m fs : files m fs -> total fs = space (map fi_data fs).
Proof.
  intros Hf. assert (Hall : Forall (fun fi => length (fi_bl fi) = nblk (length (fi_data fi))) fs).
  { apply Forall_lookup. intros i fi Hi. apply (fl_each m fs Hf i fi Hi). }
  clear Hf. induction Hall as [|fi fs Hfi _ IH]; [reflexivity|]. cbn [map]. rewrite total_cons, space_cons, IH, Hfi. reflexivity.
Qed.

Lemma add_file_ok m r rest name pieces :
  files m (r :: rest) -> (length rest < 198)%nat -> slash ∉ name ->
  (length (fi_data r) + 16 <= BLK * (NDIRECT + NINDIRECT))%nat -> (length (mjoin pieces) <= BLK * (NDIRECT + NINDIRECT))%nat ->
  nmeta + Z.of_nat (cost (nblk (length (fi_data r) + 16)) + space (map fi_data rest) + cost (nblk (length (mjoin pieces)))) <= FSSIZE ->
  exists m' r' f', add_file ROOTINO name (Some pieces) m = Ok tt m' /\ files m' (r' :: rest ++ [f']) /\
    fi_data r' = fi_data r ++ entry (2 + Z.of_nat (length rest)) (skip_underscore name) /\ fi_type r' = fi_type r /\
    fi_data f' = mjoin pieces /\ fi_type f' = T_FILE.
Proof.
  intros Hf Hlt Hs Hr Hp Hroom. set (inum := 2 + Z.of_nat (length rest)). pose proof (total_space _ _ Hf) as Ht. cbn [map] in Ht. rewrite space_cons in Ht.
  destruct (ialloc_ok m (r :: rest) T_FILE Hf) as (m1 & E1 & Hf1); [cbn; lia | unfold T_FILE; lia|]. cbn [length app] in E1, Hf1. replace (1 + Z.of_nat (S (length rest))) with inum in E1 by (unfold inum; lia).
  assert (Hlr : length (fi_bl r) = nblk (length (fi_data r))) by (apply (fl_each _ _ Hf 0%nat r eq_refl)).
  set (f0 := mkFi T_FILE [] 0 []) in *. assert (Ht1 : total (r :: rest ++ [f0]) = total (r :: rest)) by (rewrite !total_cons, total_app; change (cost (length (fi_bl f0))) with 0%nat; lia).
  assert (Hmono : (cost (nblk (length (fi_data r))) <= cost (nblk (length (fi_data r) + 16)))%nat) by (apply cost_mono, nblk_mono; lia).
  destruct (iappend_ok m1 _ 0 r (entry inum (skip_underscore name)) Hf1 eq_refl) as (m2 & bl2 & ind2 & E2 & Hf2 & Hl2); [rewrite entry_length; exact Hr | rewrite entry_length, Ht1, Hlr; lia|].
  rewrite entry_length in Hl2. set (r' := mkFi _ bl2 ind2 _) in Hf2. change (<[0%nat := r']> (r :: rest ++ [f0])) with (r' :: rest ++ [f0]) in Hf2.
  assert (Hi : (r' :: rest ++ [f0]) !! S (length rest) = Some f0) by (cbn; apply list_lookup_middle; reflexivity).
  assert (Ht2 : total (r' :: rest ++ [f0]) = (cost (nblk (length (fi_data r) + 16)) + space (map fi_data rest))%nat).
  { rewrite total_cons, total_app. change (cost (length (fi_bl f0))) with 0%nat. cbn [r' fi_bl]. rewrite Hl2. rewrite total_cons, Hlr in Ht. lia. }
  destruct (append_all_ok pieces m2 _ (S (length rest)) f0 Hf2 Hi) as (m3 & bl3 & ind3 & E3 & Hf3 & Hl3); cbn [f0 fi_data fi_bl length Nat.add]; [exact Hp | fold f0; rewrite Ht2; change (cost 0) with 0%nat; lia|].
  set (f' := mkFi _ bl3 ind3 _) in Hf3. exists m3, r', f'. split; [|split; [|repeat split]].
  - unfold add_file. erewrite bind_ok by (unfold assert; rewrite bool_decide_eq_true_2 by exact Hs; reflexivity). rewrite (bind_ok _ _ _ _ _ E1).
    rewrite dirent_entry by (unfold inum; lia). change (1 + Z.of_nat 0) with ROOTINO in E2. rewrite (bind_ok _ _ _ _ _ E2). replace (1 + Z.of_nat (S (length rest))) with inum in E3 by (unfold inum; lia). exact E3.
  - replace (<[S (length rest) := f']> (r' :: rest ++ [f0])) with (r' :: rest ++ [f']) in Hf3; [exact Hf3|].
    change (<[S (length rest) := f']> (r' :: rest ++ [f0])) with (r' :: <[length rest := f']> (rest ++ [f0])). f_equal.
    rewrite <- (Nat.add_0_r (length rest)) at 1. rewrite insert_app_r. reflexivity.
Qed.

Lemma add_files_ok args : forall m r rest,
  files m (r :: rest) -> Forall (fun f => (slash ∉ f.1) /\ is_Some f.2 /\ (length (contents f) <= BLK * (NDIRECT + NINDIRECT))%nat) args ->
  (length rest + length args < 199)%nat -> (length (fi_data r) + 16 * length args <= BLK * (NDIRECT + NINDIRECT))%nat ->
  nmeta + Z.of_nat (cost (nblk (length (fi_data r) + 16 * length args)) + space (map fi_data rest) + space (map contents args)) <= FSSIZE ->
  exists m' r' new, add_files ROOTINO args m = Ok tt m' /\ files m' (r' :: rest ++ new) /\
    fi_data r' = fi_data r ++ listing (2 + Z.of_nat (length rest)) args /\ fi_type r' = fi_type r /\
    map fi_data new = map contents args /\ Forall (fun f => fi_type f = T_FILE) new.
Proof.
  induction args as [|[name file] args IH]; intros m r rest Hf Hall Hlt Hr Hroom; cbn [add_files listing].
  { exists m, r, []. rewrite !app_nil_r. split; [reflexivity|]. split; [exact Hf|]. repeat split. constructor. }
  apply Forall_cons in Hall as [(Hs & [pieces Hp] & Hc) Hall]. cbn [fst snd] in Hs, Hp. subst file. cbn [length map] in *. rewrite space_cons in Hroom. unfold contents in Hc, Hroom at 1. cbn [snd] in Hc, Hroom.
  assert (Hmono : (cost (nblk (length (fi_data r) + 16)) <= cost (nblk (length (fi_data r) + 16 * S (length args))))%nat) by (apply cost_mono, nblk_mono; lia).
  destruct (add_file_ok m r rest name pieces Hf) as (m1 & r1 & f1 & E1 & Hf1 & Hd1 & Ht1 & Hc1 & Hk1); [lia | exact Hs | lia | exact Hc | lia|].
  destruct (IH m1 r1 (rest ++ [f1]) Hf1 Hall) as (m2 & r2 & new & E2 & Hf2 & Hd2 & Ht2 & Hc2 & Hk2).
  { rewrite length_app. cbn. lia. } { rewrite Hd1, length_app, entry_length. lia. }
  { rewrite Hd1, length_app, entry_length, map_app, space_app. cbn [map]. rewrite space_cons, Hc1. replace (length (fi_data r) + 16 + 16 * length args)%nat with (length (fi_data r) + 16 * S (length args))%nat by lia. change (space []) with 0%nat. lia. }
  exists m2, r2, (f1 :: new). split; [rewrite (bind_ok _ _ _ _ _ E1); exact E2|]. rewrite <- app_assoc in Hf2. split; [exact Hf2|].
  split; [rewrite Hd2, Hd1, <- app_assoc, length_app; cbn [length]; replace (2 + Z.of_nat (length rest + 1)) with (2 + Z.of_nat (length rest) + 1) by lia; reflexivity|]. split; [congruence|]. split; [cbn [map]; rewrite Hc1, Hc2; reflexivity | constructor; assumption].
Qed.

(** ** The parts of main *)

Lemma clear_sects_ok n : forall i m, 0 <= i -> i + Z.of_nat n <= FSSIZE ->
  exists m', clear_sects i n m = Ok tt m' /\ im_sb m' = im_sb m /\ im_freeinode m' = im_freeinode m /\ im_freeblock m' = im_freeblock m /\
    forall b, im_sect m' b = if decide (i <= b < i + Z.of_nat n) then zeroes else im_sect m b.
Proof.
  induction n as [|n IH]; intros i m Hi Hn; cbn [clear_sects].
  - exists m. repeat split. intros b. rewrite decide_False by lia. reflexivity.
  - set (m1 := set_sect (fupd (im_sect m) i zeroes) m). destruct (IH (i + 1) m1 ltac:(lia) ltac:(lia)) as (m' & E & H1 & H2 & H3 & H4).
    exists m'. split; [unfold wsect, modify; erewrite bind_ok by reflexivity; rewrite sector_id by (unfold FSSIZE in Hn; lia); exact E|].
    split; [exact H1|]. split; [exact H2|]. split; [exact H3|]. intros b. rewrite H4. cbn [m1 im_sect set_sect]. unfold fupd. repeat case_decide; try reflexivity; lia.
Qed.

Lemma zeroes_inode o : d_type (decode_dinode zeroes o) = 0.
Proof.
  assert (H : forall k, byte_at zeroes k = 0).
  { intros k. unfold byte_at, zeroes. rewrite nth_lookup. destruct (replicate _ _ !! k) as [x|] eqn:E; [apply lookup_replicate in E as [-> _]|]; reflexivity. }
  cbn [decode_dinode d_type]. unfold le16. rewrite !H. reflexivity.
Qed.

(** The image before the first inode is made. *)
Lemma main_head : exists m, files m [] /\ forall (k : F unit),
  (modify (set_im_sb main_sb) ;; modify (set_freeblock nmeta) ;; clear_sects 0 (Z.to_nat FSSIZE) ;; wsect 1 (put 0 (sb_bytes main_sb) zeroes) ;; k) start = k m.
Proof.
  set (m0 := set_freeblock nmeta (set_im_sb main_sb start)).
  destruct (clear_sects_ok (Z.to_nat FSSIZE) 0 m0) as (m & E & H1 & H2 & H3 & H4); [lia | unfold FSSIZE; lia|].
  assert (Hz : forall b, 0 <= b < FSSIZE -> im_sect m b = zeroes) by (intros b Hb; rewrite H4, decide_True by (unfold FSSIZE in *; lia); reflexivity).
  set (m1 := set_sect (fupd (im_sect m) 1 (put 0 (sb_bytes main_sb) zeroes)) m). unfold FSSIZE in Hz.
  exists m1. split; [|intros k; unfold modify; erewrite bind_ok by reflexivity; erewrite bind_ok by reflexivity; fold m0; rewrite (bind_ok _ _ _ _ _ E); reflexivity].
  assert (Hfb : im_freeblock m1 = 59) by exact H3. constructor; rewrite ?Hfb; cbn [m1 im_sect set_sect].
  - exact H1.
  - exact H2.
  - apply Nat.lt_0_succ.
  - constructor; intros b Hb; unfold fupd; unfold FSSIZE in Hb; case_decide; [rewrite put_length; reflexivity | rewrite Hz by lia; reflexivity | lia | apply Hz; lia].
  - reflexivity.
  - unfold FSSIZE. lia.
  - intros i fi [=].
  - intros i j fi fj b [=].
  - cbn [length]. intros inum Hi. unfold inode_at. assert (0 <= inum < 208) as Hr by lia. destruct (iblock_main _ Hr) as (_ & ? & _). rewrite fupd_ne by lia. rewrite Hz by lia. apply zeroes_inode.
  - split; [apply fupd_eq|]. intros b Hb. rewrite fupd_ne by lia. apply Hz. lia.
Qed.

(** ** Reading the image *)

Lemma block_of_nth sect bl ind data d k :
  body sect bl ind data -> sect 0 = zeroes -> d_addrs d = addrs_of bl ind -> (k < NDIRECT + NINDIRECT)%nat -> block_of sect d k = nth k bl 0.
Proof.
  intros Hb H0 Ha Hk. unfold block_of. rewrite Ha. case_decide as Hd; [apply addrs_direct, Hd|]. rewrite addrs_indirect. case_decide as Hi.
  - rewrite (bo_ind _ _ _ _ Hb Hi) by lia. f_equal. lia.
  - rewrite H0, le32_zeroes, nth_overflow by (unfold has_ind in Hi; lia). reflexivity.
Qed.

(** A size [n] that ends in the last block of the file, or in one block more. *)
Lemma file_data_size sect bl ind data d :
  body sect bl ind data -> sect 0 = zeroes -> d_addrs d = addrs_of bl ind -> let n := Z.to_nat (d_size d) in
  (length data <= n)%nat -> length bl = nblk (length data) -> (nblk n <= S (length bl))%nat -> (nblk n <= NDIRECT + NINDIRECT)%nat ->
  file_data sect d = data ++ replicate (n - length data) 0.
Proof.
  intros Hb H0 Ha n Hn Hl Hn1 Hn2. unfold file_data, blocks_data. fold n. set (pad := (nblk n - length bl)%nat).
  assert (Hmap : map (fun k => sect (block_of sect d k)) (seq 0 (nblk n)) = map sect (bl ++ replicate pad 0)).
  { pose proof (nblk_mono _ _ Hn) as Hm. apply list_eq. intros j. rewrite !list_lookup_fmap. destruct (decide (j < nblk n)%nat) as [Hj | Hj].
    - rewrite lookup_seq_lt by exact Hj. cbn [fmap option_fmap option_map]. rewrite (block_of_nth sect bl ind data d) by (assumption || lia). cbn [Nat.add].
      destruct (decide (j < length bl)%nat) as [Hjl | Hjl].
      + destruct (lookup_lt_is_Some_2 bl j Hjl) as [x Hx]. rewrite lookup_app_l, Hx by exact Hjl. cbn. rewrite (nth_lookup_Some _ _ _ _ Hx). reflexivity.
      + rewrite lookup_app_r, lookup_replicate_2 by (unfold pad; lia). cbn. rewrite nth_overflow by lia. reflexivity.
    - rewrite lookup_seq_ge by lia. rewrite lookup_ge_None_2; [reflexivity|]. rewrite length_app, length_replicate. unfold pad. lia. }
  rewrite Hmap, map_app. assert (Hj : mjoin (map sect bl ++ map sect (replicate pad 0)) = mjoin (map sect bl) ++ replicate (BLK * pad) 0).
  { assert (Hp : pad = 0%nat \/ pad = 1%nat) by (unfold pad; lia). destruct Hp as [-> | ->]; cbn [replicate map]; [rewrite !app_nil_r; reflexivity | rewrite mjoin_snoc, H0; reflexivity]. }
  rewrite Hj, (bo_data _ _ _ _ Hb), <- app_assoc, <- replicate_add, take_app, take_replicate, (take_ge data) by exact Hn. do 2 f_equal.
  pose proof (bo_fit _ _ _ _ Hb). pose proof (nblk_mono _ _ Hn) as Hm. rewrite <- Hl in Hm. assert (n <= BLK * nblk n)%nat by (unfold nblk; ndm). unfold pad. nia.
Qed.

(** ** The bitmap *)

(** Block [b] is in use, as [balloc] and [bfree] of fs.c see it. *)
Definition marked (buf : list Z) (b : Z) : bool := negb (Z.land (byte_at buf (bit_byte b)) (bit_mask b) =? 0).

Lemma marked_testbit buf b : 0 <= b -> marked buf b = Z.testbit (byte_at buf (bit_byte b)) (b mod 8).
Proof.
  intros Hb. unfold marked, bit_mask. pose proof (Z.mod_pos_bound b 8 ltac:(lia)) as Hm. set (x := byte_at _ _). set (k := b mod 8) in *.
  destruct (Z.testbit x k) eqn:E; destruct (Z.land x (Z.shiftl 1 k) =? 0) eqn:E0; try reflexivity; exfalso.
  - apply Z.eqb_eq in E0. assert (H : Z.testbit (Z.land x (Z.shiftl 1 k)) k = false) by (rewrite E0; apply Z.bits_0).
    rewrite Z.land_spec, E, Z.shiftl_spec, Z.sub_diag in H by lia. discriminate.
  - apply Z.eqb_neq in E0. apply E0. apply Z.bits_inj'. intros j Hj. rewrite Z.land_spec, Z.bits_0, Z.shiftl_spec by exact Hj.
    destruct (decide (j = k)) as [-> | Hne]; [rewrite E; reflexivity|]. apply andb_false_iff. right. destruct (Z.lt_ge_cases j k); [apply Z.testbit_neg_r; lia|].
    apply Z.bits_above_log2; [lia|]. change (Z.log2 1) with 0. lia.
Qed.

Lemma balloc_bits_ok n : forall i buf, length buf = BLK -> 0 <= i -> i + Z.of_nat n <= 4096 ->
  length (balloc_bits i n buf) = BLK /\
  forall b, 0 <= b < 4096 -> marked (balloc_bits i n buf) b = marked buf b || (i <=? b) && (b <? i + Z.of_nat n).
Proof.
  induction n as [|n IH]; intros i buf Hl Hi Hn; cbn [balloc_bits].
  - split; [exact Hl|]. intros b Hb. replace ((i <=? b) && (b <? i + Z.of_nat 0)) with false; [rewrite orb_false_r; reflexivity|]. destruct (Z.leb_spec i b), (Z.ltb_spec b (i + Z.of_nat 0)); try reflexivity. lia.
  - set (buf1 := put _ _ buf). assert (Hl1 : length buf1 = BLK) by (unfold buf1; rewrite put_length; exact Hl).
    destruct (IH (i + 1) buf1 Hl1 ltac:(lia) ltac:(lia)) as [H1 H2]. split; [exact H1|]. intros b Hb. rewrite H2 by exact Hb.
    assert (Hm : marked buf1 b = marked buf b || (b =? i)).
    { rewrite !marked_testbit by lia. unfold buf1, bit_byte. assert (Hib : 0 <= i / 8 < 512) by zdm. rewrite byte_at_put by (cbn [length]; lia).
      assert (Hbb : 0 <= b / 8 < 512) by zdm. case_decide as Hd; cbn [length] in Hd.
      - replace (Z.to_nat (b / 8) - Z.to_nat (i / 8))%nat with 0%nat by lia. assert (E8 : b / 8 = i / 8) by lia. unfold byte_at at 1. cbn [nth]. rewrite Z.lor_spec, E8. f_equal.
        unfold bit_mask. pose proof (Z.mod_pos_bound b 8 ltac:(lia)). pose proof (Z.mod_pos_bound i 8 ltac:(lia)). rewrite Z.shiftl_spec by lia.
        destruct (Z.eqb_spec b i) as [-> | Hne]; [rewrite Z.sub_diag; reflexivity|]. assert (b mod 8 <> i mod 8) by (intros E; apply Hne; zdm).
        destruct (Z.lt_ge_cases (b mod 8) (i mod 8)); [apply Z.testbit_neg_r; lia|]. apply Z.bits_above_log2; [lia|]. change (Z.log2 1) with 0. lia.
      - assert (b <> i) by (intros ->; lia). rewrite (proj2 (Z.eqb_neq b i)) by assumption. rewrite orb_false_r. reflexivity. }
    rewrite Hm. destruct (marked buf b); [reflexivity|]. cbn [orb]. destruct (Z.eqb_spec b i), (Z.leb_spec (i + 1) b), (Z.leb_spec i b), (Z.ltb_spec b (i + 1 + Z.of_nat n)), (Z.ltb_spec b (i + Z.of_nat (S n))); try reflexivity; lia.
Qed.

Lemma balloc_ok m used : im_sb m = main_sb -> 0 <= used < 4096 ->
  exists buf, balloc used m = Ok tt (set_sect (fupd (im_sect m) 58 buf) m) /\ length buf = BLK /\ forall b, 0 <= b < 4096 -> marked buf b = (b <? used).
Proof.
  intros Hs Hu. eexists. split.
  - unfold balloc, assert. replace (used <? BSIZE * 8) with true by (symmetry; apply Z.ltb_lt; change (BSIZE * 8) with 4096; lia). erewrite bind_ok by reflexivity.
    unfold gets, wsect, modify. cbn zeta. erewrite bind_ok by reflexivity. rewrite Hs. change (sector (sb_bmapstart main_sb)) with 58. reflexivity.
  - destruct (balloc_bits_ok (Z.to_nat used) 0 zeroes eq_refl ltac:(lia) ltac:(lia)) as [Hlen H]. split; [exact Hlen|]. intros b Hb. unfold zeroes in H. rewrite H by exact Hb.
    replace (marked (replicate (Z.to_nat BSIZE) 0) b) with false.
    + replace (0 <=? b) with true by (symmetry; apply Z.leb_le; lia). cbn [orb andb]. f_equal. lia.
    + unfold marked, byte_at. rewrite nth_lookup. destruct (replicate _ _ !! _) as [x|] eqn:E; [apply lookup_replicate in E as [-> _]|]; cbn; rewrite Z.land_0_l; reflexivity.
Qed.

(** ** The finished image *)

(** Block number [k] of an inode; the last one is the indirect block. *)
Definition uses sect (d : dinode) (k : nat) : Z :=
  if decide (k < NDIRECT + NINDIRECT)%nat then block_of sect d k else byte_at (d_addrs d) NDIRECT.

Definition root_data (args : list (list Z * option (list (list Z)))) : list Z :=
  entry ROOTINO [46] ++ entry ROOTINO [46; 46] ++ listing 2 args.

(** The image of the files [args]: what the kernel finds on the disk. *)
Record image_of (args : list (list Z * option (list (list Z)))) sect (used : Z) : Prop := {
  io_sb : decode_sb (sect 1) = main_sb;
  io_log b : 2 <= b < 32 -> sect b = zeroes;
  io_root : let d := inode_at sect ROOTINO in d_type d = T_DIR /\ d_nlink d = 1 /\
    file_data sect d = root_data args ++ replicate (BLK - length (root_data args) mod BLK) 0;
  io_file i f : args !! i = Some f -> let d := inode_at sect (2 + Z.of_nat i) in d_type d = T_FILE /\ d_nlink d = 1 /\ file_data sect d = contents f;
  io_free inum : 2 + Z.of_nat (length args) <= inum < 208 -> d_type (inode_at sect inum) = 0;
  io_bitmap b : 0 <= b < FSSIZE -> marked (sect 58) b = (b <? used);
  io_used inum k : 1 <= inum < 2 + Z.of_nat (length args) -> (k <= NDIRECT + NINDIRECT)%nat ->
    let b := uses sect (inode_at sect inum) k in b = 0 \/ nmeta <= b < used;
  io_once inum inum' k k' : 1 <= inum < 2 + Z.of_nat (length args) -> 1 <= inum' < 2 + Z.of_nat (length args) ->
    (k <= NDIRECT + NINDIRECT)%nat -> (k' <= NDIRECT + NINDIRECT)%nat -> uses sect (inode_at sect inum) k <> 0 ->
    uses sect (inode_at sect inum) k = uses sect (inode_at sect inum') k' -> inum = inum' /\ k = k';
  io_there inum : 1 <= inum < 2 + Z.of_nat (length args) -> (inum = ROOTINO -> (2 + length args) mod 32 <> 0)%nat ->
    let d := inode_at sect inum in let nb := nblk (Z.to_nat (d_size d)) in
    0 <= d_size d <= MAXFILE * BSIZE /\ (forall k, (k < nb)%nat -> uses sect d k <> 0) /\ ((NDIRECT < nb)%nat -> uses sect d (NDIRECT + NINDIRECT) <> 0);
  io_len b : 0 <= b < FSSIZE -> length (sect b) = BLK;
  io_room : used <= FSSIZE }.

(** The blocks of an inode, as a list. *)
Lemma uses_own sect bl ind data d k :
  body sect bl ind data -> sect 0 = zeroes -> d_addrs d = addrs_of bl ind -> (length bl <= NDIRECT + NINDIRECT)%nat -> (k <= NDIRECT + NINDIRECT)%nat ->
  uses sect d k = 0 \/ own bl ind !! (if decide (k < NDIRECT + NINDIRECT)%nat then k else length bl) = Some (uses sect d k) /\ ((k < NDIRECT + NINDIRECT)%nat -> (k < length bl)%nat).
Proof.
  intros Hb H0 Ha Hl Hk. unfold uses, own. case_decide as Hd.
  - rewrite (block_of_nth sect bl ind data d) by assumption. destruct (bl !! k) as [x|] eqn:E.
    + right. rewrite (nth_lookup_Some _ _ _ _ E). pose proof (lookup_lt_Some _ _ _ E). rewrite lookup_app_l by assumption. auto.
    + left. apply lookup_ge_None in E. apply nth_overflow, E.
  - rewrite Ha, addrs_indirect. case_decide as Hi; [right | left; reflexivity]. rewrite lookup_app_r, Nat.sub_diag by lia. split; [reflexivity | lia].
Qed.

Lemma uses_once sect bl ind data d k k' :
  body sect bl ind data -> sect 0 = zeroes -> d_addrs d = addrs_of bl ind -> (length bl <= NDIRECT + NINDIRECT)%nat -> NoDup (own bl ind) ->
  (k <= NDIRECT + NINDIRECT)%nat -> (k' <= NDIRECT + NINDIRECT)%nat -> uses sect d k <> 0 -> uses sect d k = uses sect d k' -> k = k'.
Proof.
  intros Hb H0 Ha Hl Hn Hk Hk' Hz E.
  destruct (uses_own _ _ _ _ _ k Hb H0 Ha Hl Hk) as [? | [H1 L1]]; [contradiction|]. destruct (uses_own _ _ _ _ _ k' Hb H0 Ha Hl Hk') as [? | [H2 L2]]; [congruence|].
  rewrite E in H1. pose proof (NoDup_lookup _ _ _ _ Hn H1 H2) as Ei. repeat case_decide; try lia.
Qed.

(** The size of the root directory, as main rounds it. *)
Definition round_size (n : nat) : nat := (BLK * (n / BLK + 1))%nat.
Definition finish sect (r : fileinfo) (buf : list Z) : Z -> list Z :=
  fupd (put_inode sect ROOTINO (set_d_size (Z.of_nat (round_size (length (fi_data r)))) (dinode_of r))) 58 buf.

Section Finish.
Context (m : image) (r : fileinfo) (fs : list fileinfo) (buf : list Z).
Context (Hf : files m (r :: fs)) (Hr : (length (fi_data r) <= 4096)%nat).

Lemma finish_data b : nmeta <= b \/ b < 32 -> finish (im_sect m) r buf b = im_sect m b.
Proof. intros Hb. unfold finish. change nmeta with 59 in Hb. rewrite fupd_ne by lia. apply put_inode_data; change nmeta with 59; unfold ROOTINO; lia. Qed.

Lemma finish_inode_sect inum d : 0 <= inum < 208 -> inode_at (fupd (put_inode (im_sect m) ROOTINO d) 58 buf) inum = inode_at (put_inode (im_sect m) ROOTINO d) inum.
Proof. intros Hi. destruct (iblock_main inum Hi) as (_ & H & _). unfold inode_at. rewrite fupd_ne by lia. reflexivity. Qed.

Lemma finish_root_ok : dinode_ok (set_d_size (Z.of_nat (round_size (length (fi_data r)))) (dinode_of r)).
Proof.
  pose proof (fl_each m _ Hf 0%nat r eq_refl) as [K1 K2 K3 K4 K5 K6]. destruct (dinode_of_ok _ r K5 (fl_room _ _ Hf) K4 K6) as [D1 D2 D3 D4 D5 D6 D7].
  constructor; cbn [set_d_size d_type d_major d_minor d_nlink d_size d_addrs]; try assumption. clear -Hr. unfold u32, round_size. ndm.
Qed.

Lemma finish_root : inode_at (finish (im_sect m) r buf) ROOTINO = set_d_size (Z.of_nat (round_size (length (fi_data r)))) (dinode_of r).
Proof.
  unfold finish. rewrite finish_inode_sect by (unfold ROOTINO; lia). apply put_inode_same; [apply finish_root_ok | unfold ROOTINO; lia|].
  apply (se_len _ _ (fl_sects _ _ Hf)). unfold FSSIZE, ROOTINO. zdm.
Qed.

Lemma finish_other inum : 0 <= inum < 208 -> inum <> 1 -> inode_at (finish (im_sect m) r buf) inum = inode_at (im_sect m) inum.
Proof.
  intros Hi Hne. unfold finish. rewrite finish_inode_sect by exact Hi. apply put_inode_other; [apply finish_root_ok | unfold ROOTINO; lia | lia | exact Hne|].
  apply (se_len _ _ (fl_sects _ _ Hf)). unfold FSSIZE, ROOTINO. zdm.
Qed.

Lemma finish_zero : finish (im_sect m) r buf 0 = zeroes.
Proof. rewrite finish_data by lia. apply (proj2 (fl_meta _ _ Hf)). left. reflexivity. Qed.

(** What an inode of the finished image says about its blocks. *)
Lemma finish_each i fi : (r :: fs) !! i = Some fi ->
  let d := inode_at (finish (im_sect m) r buf) (1 + Z.of_nat i) in
  d_type d = fi_type fi /\ d_nlink d = 1 /\ d_addrs d = addrs_of (fi_bl fi) (fi_ind fi) /\
  body (finish (im_sect m) r buf) (fi_bl fi) (fi_ind fi) (fi_data fi) /\ (length (fi_bl fi) <= NDIRECT + NINDIRECT)%nat.
Proof.
  intros Hi d. pose proof (lookup_lt_Some _ _ _ Hi) as Hlt. pose proof (fl_max _ _ Hf) as Hm. pose proof (fl_each m _ Hf i fi Hi) as [K1 K2 K3 K4 K5 K6].
  assert (Hd : d_type d = fi_type fi /\ d_nlink d = 1 /\ d_addrs d = addrs_of (fi_bl fi) (fi_ind fi)).
  { unfold d. destruct i as [|i]; [injection Hi as <-; change (1 + Z.of_nat 0) with ROOTINO; rewrite finish_root; auto|]. rewrite finish_other, K1 by lia. auto. }
  destruct Hd as (D1 & D2 & D3). repeat (split; [assumption|]). split; [|rewrite K3; apply nblk_max, K4].
  eapply body_ext; [|exact K2]. intros b Hb. apply finish_data. left. eapply owned_in; eassumption.
Qed.

Lemma finish_file i fi : fs !! i = Some fi -> file_data (finish (im_sect m) r buf) (inode_at (finish (im_sect m) r buf) (2 + Z.of_nat i)) = fi_data fi.
Proof.
  intros Hi. pose proof (lookup_lt_Some _ _ _ Hi) as Hlt. pose proof (fl_max _ _ Hf) as Hm. cbn [length] in Hm. pose proof (fl_each m _ Hf (S i) fi Hi) as [K1 K2 K3 K4 K5 K6].
  destruct (finish_each (S i) fi Hi) as (_ & _ & Ha & Hb & Hl). replace (1 + Z.of_nat (S i)) with (2 + Z.of_nat i) in * by lia.
  assert (Es : Z.to_nat (d_size (inode_at (finish (im_sect m) r buf) (2 + Z.of_nat i))) = length (fi_data fi)) by (rewrite finish_other, K1 by lia; apply Nat2Z.id).
  rewrite (file_data_size _ _ _ _ _ Hb finish_zero Ha), Es; rewrite ?Es; [rewrite Nat.sub_diag; apply app_nil_r | lia | exact K3 | lia | apply nblk_max, K4].
Qed.

Lemma finish_root_data : file_data (finish (im_sect m) r buf) (inode_at (finish (im_sect m) r buf) ROOTINO) = fi_data r ++ replicate (BLK - length (fi_data r) mod BLK) 0.
Proof.
  pose proof (fl_each m _ Hf 0%nat r eq_refl) as [K1 K2 K3 K4 K5 K6]. destruct (finish_each 0 r eq_refl) as (_ & _ & Ha & Hb & Hl). change (1 + Z.of_nat 0) with ROOTINO in *.
  assert (Es : Z.to_nat (d_size (inode_at (finish (im_sect m) r buf) ROOTINO)) = round_size (length (fi_data r))) by (rewrite finish_root; apply Nat2Z.id).
  rewrite (file_data_size _ _ _ _ _ Hb finish_zero Ha), Es; rewrite ?Es; [do 2 f_equal; unfold round_size; ndm | unfold round_size; ndm | exact K3 | rewrite K3; unfold round_size, nblk; ndm|].
  unfold round_size, nblk, NDIRECT, NINDIRECT. ndm.
Qed.

Lemma finish_uses i fi k : (r :: fs) !! i = Some fi -> (k <= NDIRECT + NINDIRECT)%nat ->
  let b := uses (finish (im_sect m) r buf) (inode_at (finish (im_sect m) r buf) (1 + Z.of_nat i)) k in b = 0 \/ b ∈ fi_own fi /\ nmeta <= b < im_freeblock m.
Proof.
  intros Hi Hk b. destruct (finish_each i fi Hi) as (_ & _ & Ha & Hb & Hl). destruct (uses_own _ _ _ _ _ k Hb finish_zero Ha Hl Hk) as [H | [H _]]; [left; exact H | right].
  apply list_elem_of_lookup_2 in H. split; [exact H|]. eapply owned_in; [apply (fl_each m _ Hf i fi Hi) | exact H].
Qed.

Lemma finish_there i fi : (r :: fs) !! i = Some fi ->
  let d := inode_at (finish (im_sect m) r buf) (1 + Z.of_nat i) in
  (forall k, (k < length (fi_bl fi))%nat -> uses (finish (im_sect m) r buf) d k <> 0) /\
  ((NDIRECT < length (fi_bl fi))%nat -> uses (finish (im_sect m) r buf) d (NDIRECT + NINDIRECT) <> 0).
Proof.
  intros Hi d. destruct (finish_each i fi Hi) as (_ & _ & Ha & Hb & Hl). fold d in Ha. pose proof (fl_each m _ Hf i fi Hi) as [K1 K2 K3 K4 K5 K6]. unfold uses. split.
  - intros k Hk. rewrite decide_True by lia. rewrite (block_of_nth _ _ _ _ _ k Hb finish_zero Ha) by lia. destruct (lookup_lt_is_Some_2 _ _ Hk) as [b Hbk]. rewrite (nth_lookup_Some _ _ _ _ Hbk).
    pose proof (owned_in _ _ b K5 ltac:(apply elem_of_app; left; eapply list_elem_of_lookup_2, Hbk)) as Hr'. change nmeta with 59 in Hr'. lia.
  - intros Hk. rewrite decide_False, Ha, addrs_indirect, decide_True by (exact Hk || lia).
    pose proof (owned_in _ _ (fi_ind fi) K5 ltac:(unfold fi_own, own; rewrite decide_True by exact Hk; apply elem_of_app; right; left)) as Hr'. change nmeta with 59 in Hr'. lia.
Qed.

Lemma finish_len b : length buf = BLK -> 0 <= b < FSSIZE -> length (finish (im_sect m) r buf b) = BLK.
Proof.
  intros Hbuf Hb. unfold finish, fupd. case_decide; [exact Hbuf|]. unfold put_inode, fupd. case_decide as E; [rewrite put_length, <- E|]; apply (se_len _ _ (fl_sects _ _ Hf)), Hb.
Qed.
End Finish.

(** The arguments main accepts: base names of files that can be opened and that
    are not larger than a file of xv6 can be, and no more of them than inodes and
    blocks suffice for. *)
Definition fits (args : list (list Z * option (list (list Z)))) : Prop :=
  Forall (fun f => (slash ∉ f.1) /\ is_Some f.2 /\ (length (contents f) <= BLK * (NDIRECT + NINDIRECT))%nat) args /\
  (length args < 199)%nat /\ nmeta + Z.of_nat (cost (nblk (16 * (2 + length args))) + space (map contents args)) <= FSSIZE.

Lemma listing_length args inum : length (listing inum args) = (16 * length args)%nat.
Proof. revert inum. induction args as [|[name f] args IH]; intros inum; cbn [listing length]; [reflexivity|]. rewrite length_app, entry_length, IH. lia. Qed.

Lemma root_data_length args : length (root_data args) = (16 * (2 + length args))%nat.
Proof. unfold root_data. rewrite !length_app, !entry_length, listing_length. lia. Qed.

Lemma fits_head (args : list (list Z * option (list (list Z)))) n : (length args < 199)%nat -> (n <= 16 * (2 + length args))%nat ->
  (cost (nblk n) <= cost (nblk (16 * (2 + length args))))%nat /\ (n <= BLK * (NDIRECT + NINDIRECT))%nat.
Proof. intros Hl Hn. split; [apply cost_mono, nblk_mono, Hn | unfold NDIRECT, NINDIRECT; lia]. Qed.

(** The root directory with its first two entries. *)
Lemma main_root m : files m [] -> nmeta + Z.of_nat (cost (nblk 32)) <= FSSIZE -> exists m' r,
  files m' [r] /\ fi_data r = entry ROOTINO [46] ++ entry ROOTINO [46; 46] /\ fi_type r = T_DIR /\
  forall k : Z -> F unit,
    (let! rootino := ialloc T_DIR in
     assert (rootino =? ROOTINO) ;;
     iappend rootino (dirent_bytes rootino (strncpy_bytes [46] DIRSIZ)) ;;
     iappend rootino (dirent_bytes rootino (strncpy_bytes [46; 46] DIRSIZ)) ;; k rootino) m = k ROOTINO m'.
Proof.
  intros Hf Hroom. destruct (ialloc_ok m [] T_DIR Hf) as (m1 & E1 & Hf1); [apply Nat.lt_0_succ | unfold T_DIR; lia|].
  change (1 + Z.of_nat (length (@nil fileinfo))) with ROOTINO in E1.
  destruct (iappend_ok m1 _ 0 _ (entry ROOTINO [46]) Hf1 eq_refl) as (m2 & bl2 & ind2 & E2 & Hf2 & Hl2); [rewrite entry_length; unfold NDIRECT, NINDIRECT; cbn [fi_data length]; lia | rewrite entry_length; vm_compute; congruence|].
  change (1 + Z.of_nat 0) with ROOTINO in E2. cbn [fi_data fi_type app] in Hf2, Hl2.
  destruct (iappend_ok m2 _ 0 _ (entry ROOTINO [46; 46]) Hf2 eq_refl) as (m3 & bl3 & ind3 & E3 & Hf3 & Hl3).
  { cbn [fi_data]. rewrite !entry_length. unfold NDIRECT, NINDIRECT. lia. }
  { cbn [fi_data fi_bl]. rewrite Hl2. change (total _) with (cost (length bl2) + 0)%nat. rewrite Hl2, !entry_length. vm_compute. congruence. }
  change (1 + Z.of_nat 0) with ROOTINO in E3. eexists m3, _. split; [exact Hf3|]. split; [reflexivity|]. split; [reflexivity|]. intros k.
  rewrite (bind_ok _ _ _ _ _ E1). erewrite bind_ok by reflexivity. rewrite !dirent_entry by (unfold ROOTINO; lia). rewrite (bind_ok _ _ _ _ _ E2), (bind_ok _ _ _ _ _ E3). reflexivity.
Qed.

Lemma main_files args : fits args -> exists m r new,
  main args start = (let! din := rinode ROOTINO in
    let off := xint (d_size din) in
    let off := w32 (w32 (off / BSIZE + 1) * BSIZE) in
    winode ROOTINO (set_d_size (xint off) din) ;;
    let! used := gets im_freeblock in
    balloc (s32 used)) m /\
  files m (r :: new) /\ fi_data r = root_data args /\ fi_type r = T_DIR /\ map fi_data new = map contents args /\ Forall (fun f => fi_type f = T_FILE) new.
Proof.
  intros (Hall & Hlen & Hroom). destruct main_head as (m0 & Hf0 & E0). destruct (fits_head args 32 Hlen ltac:(lia)) as [Hc _].
  destruct (main_root m0 Hf0 ltac:(lia)) as (m1 & r1 & Hf1 & Hd1 & Ht1 & E1). assert (Hl1 : length (fi_data r1) = 32%nat) by (rewrite Hd1, length_app, !entry_length; reflexivity).
  destruct (add_files_ok args m1 r1 [] Hf1 Hall) as (m2 & r2 & new & E2 & Hf2 & Hd2 & Ht2 & Hc2 & Hk2); [exact Hlen | rewrite Hl1; unfold NDIRECT, NINDIRECT; lia | |].
  { rewrite Hl1. replace (32 + 16 * length args)%nat with (16 * (2 + length args))%nat by lia. change (space (map fi_data [])) with 0%nat. lia. }
  exists m2, r2, new. split; [|split; [exact Hf2|]; split; [rewrite Hd2, Hd1, <- app_assoc; reflexivity|]; split; [congruence|]; split; assumption].
  unfold main. erewrite bind_ok by reflexivity. rewrite E0, E1, (bind_ok _ _ _ _ _ E2). reflexivity.
Qed.

(** The end of main. *)
Lemma main_tail m r new : files m (r :: new) -> (length (fi_data r) <= 4096)%nat ->
  exists buf, length buf = BLK /\ (forall b, 0 <= b < 4096 -> marked buf b = (b <? im_freeblock m)) /\
  (let! din := rinode ROOTINO in
   let off := xint (d_size din) in
   let off := w32 (w32 (off / BSIZE + 1) * BSIZE) in
   winode ROOTINO (set_d_size (xint off) din) ;;
   let! used := gets im_freeblock in
   balloc (s32 used)) m = Ok tt (set_sect (finish (im_sect m) r buf) m).
Proof.
  intros Hf Hr. pose proof (fl_sb _ _ Hf) as Hs. pose proof (fk_inode _ _ _ _ (fl_each _ _ Hf 0%nat r eq_refl)) as Ei. change (1 + Z.of_nat 0) with ROOTINO in Ei.
  pose proof (fl_room _ _ Hf) as Hroom. pose proof (fl_fb _ _ Hf) as Hfb. change nmeta with 59 in Hfb. unfold FSSIZE in Hroom.
  set (d := set_d_size (Z.of_nat (round_size (length (fi_data r)))) (dinode_of r)). set (m1 := set_sect (put_inode (im_sect m) ROOTINO d) m).
  destruct (balloc_ok m1 (im_freeblock m) Hs ltac:(lia)) as (buf & E & Hlb & Hbuf). exists buf. split; [exact Hlb|]. split; [exact Hbuf|].
  erewrite bind_ok by (eapply rinode_ok; [exact Hs | apply Hf | unfold ROOTINO; lia]). rewrite Ei. cbn [dinode_of d_size]. cbn zeta. rewrite (xint_id (Z.of_nat (length (fi_data r)))) by (unfold u32; lia).
  replace (xint _) with (Z.of_nat (round_size (length (fi_data r)))).
  - fold d. erewrite bind_ok by (eapply winode_ok; [exact Hs | apply Hf | unfold ROOTINO; lia]). fold m1. unfold gets. erewrite bind_ok by reflexivity. rewrite s32_small by (cbn [m1 im_freeblock set_sect]; lia). exact E.
  - clear -Hr. unfold BSIZE, round_size. rewrite (w32_small (_ / _ + 1)) by (unfold u32; ndm). rewrite w32_small by (unfold u32; ndm). rewrite xint_id by (unfold u32; ndm). ndm.
Qed.

Lemma finish_image args m r new buf :
  files m (r :: new) -> (length args < 199)%nat -> fi_data r = root_data args -> fi_type r = T_DIR -> map fi_data new = map contents args -> Forall (fun f => fi_type f = T_FILE) new ->
  length buf = BLK -> (forall b, 0 <= b < 4096 -> marked buf b = (b <? im_freeblock m)) -> image_of args (finish (im_sect m) r buf) (im_freeblock m).
Proof.
  intros Hf Hlen Hd Ht Hc Hk Hblen Hbuf. destruct (fl_meta _ _ Hf) as [M1 M2]. assert (Hr : (length (fi_data r) <= 4096)%nat) by (rewrite Hd, root_data_length; lia).
  assert (Hl : length new = length args) by (rewrite <- (length_map fi_data), Hc; apply length_map).
  assert (Hfile : forall inum, 1 <= inum < 2 + Z.of_nat (length args) -> exists i fi, inum = 1 + Z.of_nat i /\ (r :: new) !! i = Some fi).
  { intros inum Hi. destruct (lookup_lt_is_Some_2 (r :: new) (Z.to_nat (inum - 1))) as [fi Hfi]; [cbn [length]; lia|]. exists (Z.to_nat (inum - 1)), fi. split; [lia | exact Hfi]. }
  constructor.
  - rewrite finish_data by lia. rewrite M1. vm_compute. reflexivity.
  - intros b Hb. rewrite finish_data by lia. apply M2. lia.
  - destruct (finish_each m r new buf Hf Hr 0 r eq_refl) as (T1 & T2 & _). split; [rewrite <- Ht; exact T1|]. split; [exact T2|]. rewrite <- Hd. apply (finish_root_data m r new buf Hf Hr).
  - intros i f Hi. assert (Hi2 : map fi_data new !! i = Some (contents f)) by (rewrite Hc, list_lookup_fmap, Hi; reflexivity). rewrite list_lookup_fmap in Hi2. destruct (new !! i) as [fi|] eqn:Efi; [|discriminate Hi2].
    injection Hi2 as Ec. destruct (finish_each m r new buf Hf Hr (S i) fi Efi) as (T1 & T2 & _). replace (1 + Z.of_nat (S i)) with (2 + Z.of_nat i) in * by lia.
    split; [rewrite T1; exact (Forall_lookup_1 _ _ _ _ Hk Efi)|]. split; [exact T2|]. rewrite <- Ec. apply (finish_file m r new buf Hf Hr), Efi.
  - intros inum Hi. rewrite (finish_other m r new buf Hf Hr) by lia. apply (fl_free _ _ Hf). cbn [length]. lia.
  - intros b Hb. unfold finish. rewrite fupd_eq. apply Hbuf. unfold FSSIZE in Hb. lia.
  - intros inum k Hi Hk'. destruct (Hfile inum Hi) as (i & fi & -> & Hfi). destruct (finish_uses m r new buf Hf Hr i fi k Hfi Hk') as [H | [_ H]]; [left | right]; exact H.
  - intros inum inum' k k' Hi Hi' Hk1 Hk2 Hz E. destruct (Hfile inum Hi) as (i & fi & -> & Hfi), (Hfile inum' Hi') as (i' & fi' & -> & Hfi').
    destruct (finish_uses m r new buf Hf Hr i fi k Hfi Hk1) as [? | [Hb1 _]]; [contradiction|]. destruct (finish_uses m r new buf Hf Hr i' fi' k' Hfi' Hk2) as [? | [Hb2 _]]; [congruence|].
    rewrite E in Hb1. pose proof (fl_disj _ _ Hf i i' fi fi' _ Hfi Hfi' Hb1 Hb2) as <-. split; [reflexivity|]. rewrite Hfi in Hfi'. injection Hfi' as <-.
    destruct (finish_each m r new buf Hf Hr i fi Hfi) as (_ & _ & Ha & Hb & Hlb).
    exact (uses_once _ _ _ _ _ k k' Hb (finish_zero m r new buf Hf Hr) Ha Hlb (proj1 (fk_own _ _ _ _ (fl_each _ _ Hf i fi Hfi))) Hk1 Hk2 Hz E).
  - intros inum Hi Hroot d nb. destruct (Hfile inum Hi) as (i & fi & -> & Hfi). pose proof (fl_each _ _ Hf i fi Hfi) as [K1 K2 K3 K4 K5 K6]. destruct (finish_there m r new buf Hf Hr i fi Hfi) as [H1 H2]. fold d in H1, H2.
    assert (Hsz : 0 <= d_size d <= MAXFILE * BSIZE /\ nb = length (fi_bl fi)); [|destruct Hsz as [Hsz ->]; auto]. change (MAXFILE * BSIZE) with 71680. unfold nb, d. destruct i as [|i].
    + injection Hfi as <-. change (1 + Z.of_nat 0) with ROOTINO in *. rewrite (finish_root m r new buf Hf Hr), K3. cbn [set_d_size d_size]. specialize (Hroot eq_refl). clear -Hd Hlen Hroot.
      rewrite Nat2Z.id, Hd, root_data_length. unfold round_size, nblk. split; ndm.
    + rewrite (finish_other m r new buf Hf Hr), K1 by lia. cbn [dinode_of d_size]. rewrite Nat2Z.id, K3. split; [unfold NDIRECT, NINDIRECT in K4; lia | reflexivity].
  - intros b Hb. apply (finish_len m r new buf Hf); assumption.
  - apply (fl_room _ _ Hf).
Qed.

Lemma log_layout : 2 <= 2 /\ 0 < 30 <= LOGSIZE /\ 2 + 30 <= FSSIZE.
Proof. unfold LOGSIZE, MAXOPBLOCKS, FSSIZE. lia. Qed.

(** The log of the image is empty. *)
Lemma image_good args sect used : image_of args sect used -> Crash.good 2 30 sect sect [].
Proof.
  intros Hi. apply (good_empty 2 30 log_layout).
  - split; rewrite (io_sb _ _ _ Hi); reflexivity.
  - rewrite (io_log _ _ _ Hi) by lia. split; [reflexivity | intros j bn [=]].
  - rewrite (io_log _ _ _ Hi) by lia. reflexivity.
Qed.

Lemma main_ok args : fits args -> exists m, main args start = Ok tt m /\ image_of args (im_sect m) (im_freeblock m).
Proof.
  intros Hfit. destruct (main_files args Hfit) as (m & r & new & E & Hf & Hd & Ht & Hc & Hk). destruct Hfit as (_ & Hlen & _).
  destruct (main_tail m r new Hf) as (buf & Hblen & Hbuf & E2); [rewrite Hd, root_data_length; lia|].
  eexists. split; [rewrite E; exact E2|]. exact (finish_image args m r new buf Hf Hlen Hd Ht Hc Hk Hblen Hbuf).
Qed.

(** C8 (mkfs.c, with the recovery of log.c): for arguments that fit, main
    succeeds; the image has the super block the kernel reads, an empty log, a
    root directory that lists the files, their contents under the inodes the
    entries name, no type in any other inode, a bitmap that marks the
    blocks in use, and no block with two owners; a kernel that starts from it
    finds it unchanged outside the log, also when starts are cut short. *)
Theorem mkfs_writes_files {HR : Rounds} {HP : Patient} args :
  fits args -> exists m, main args start = Ok tt m /\ image_of args (im_sect m) (im_freeblock m) /\
    forall n, survives 2 30 n (im_sect m) (im_sect m).
Proof.
  intros Hfit. destruct (main_ok args Hfit) as (m & E & Hi). exists m. split; [exact E|]. split; [exact Hi|].
  intros n. apply (good_survives 2 30 log_layout n _ _ []). exact (image_good _ _ _ Hi).
Qed.

(** Two files: [README], read in two pieces, and [_sh], read in one. *)
Definition two_files : list (list Z * option (list (list Z))) :=
  [([82; 69; 65; 68; 77; 69], Some [replicate 512 120; [121; 10]]); ([95; 115; 104], Some [[127; 69; 76; 70]])].

Lemma two_files_fit : fits two_files.
Proof.
  split; [|split; [cbn; lia | vm_compute; congruence]]. apply Forall_cons. split; [|apply Forall_cons; split; [|constructor]].
  all: split; [apply (bool_decide_unpack _); vm_compute; exact I|]; split; [eexists; reflexivity | apply Nat.leb_le; vm_compute; reflexivity].
Qed.

Lemma mkfs_writes_files_witness :
  exists m, main two_files start = Ok tt m /\ im_freeblock m = 63 /\ d_size (inode_at (im_sect m) 2) = 514 /\
    file_data (im_sect m) (inode_at (im_sect m) 3) = [127; 69; 76; 70] /\ @survives small_rounds 2 30 3 (im_sect m) (im_sect m).
Proof.
  destruct (@mkfs_writes_files small_rounds small_patient two_files two_files_fit) as (m & E & Hi & Hs).
  exists m. split; [exact E|]. split; [|split; [|split; [apply (io_file _ _ _ Hi 1 _ eq_refl) | apply Hs]]].
  all: enough (H : match main two_files start with Ok _ m => (im_freeblock m, d_size (inode_at (im_sect m) 2)) | _ => (0, 0) end = (63, 514)) by (rewrite E in H; congruence).
  all: vm_compute; reflexivity.
Defined.
End Mkfs.
