(* ===== verification/Mount.v ===== *)
(** * The kernel on the image of mkfs

    The image that Mkfs.v describes is a file system in the sense of Files.v:
    a kernel that starts from it finds every file under its name, with its
    contents. *)

From Stdlib Require Import ZArith Lia ZifyNat FunctionalExtensionality.
From stdpp Require Import base list strings gmap gmultiset.
From S2P Require Import Prelude Mem Mmu Kernel Spinlock Kalloc Vm VmFacts Sched Runs Bio Cache Log Crash Fs Recovery Files Mkfs.

(** ** Names *)

(** A C string has no NUL. *)
Abbreviation cstring := (Forall (fun c : Z => c <> 0)).

Lemma strncmp_strncpy n : forall s t, cstring s -> cstring t -> strncmp_bytes (take n s) (strncpy_bytes t n) n = 0 <-> take n s = take n t.
Proof.
  induction n as [|n IH]; intros s t Hs Ht; [cbn; tauto|]. destruct s as [|c s], t as [|x t]; cbn [take strncpy_bytes strncmp_bytes hd tl].
  - cbn. tauto.
  - apply Forall_cons_1 in Ht as [Hx _]. rewrite (proj2 (Z.eqb_neq x 0) Hx). cbn [hd]. cbn. split; [lia | discriminate].
  - apply Forall_cons_1 in Hs as [Hc _]. cbn [hd]. rewrite (proj2 (Z.eqb_neq c 0) Hc). cbn. split; [lia | discriminate].
  - apply Forall_cons_1 in Hs as [Hc Hs], Ht as [Hx Ht]. rewrite (proj2 (Z.eqb_neq x 0) Hx), (proj2 (Z.eqb_neq c 0) Hc). cbn [hd tl negb andb]. destruct (Z.eqb_spec c x) as [-> | Hne].
    + rewrite IH by assumption. split; [intros ->; reflexivity | intros [=]; assumption].
    + split; [lia | intros [=]; contradiction].
Qed.

(** ** Entries of a directory *)

Lemma dir_find_at name data t : forall n k, (k <= t < k + n)%nat ->
  de_inum (dir_entry data t) <> 0 -> namecmp name (de_name (dir_entry data t)) = 0 ->
  (forall u, (k <= u < t)%nat -> namecmp name (de_name (dir_entry data u)) <> 0) ->
  dir_find name data k n = Some (de_inum (dir_entry data t), t).
Proof.
  induction n as [|n IH]; intros k Hk Hi Hn Hno; [lia|]. cbn [dir_find]. destruct (decide (k = t)) as [-> | Hne].
  - rewrite (proj2 (Z.eqb_neq _ _) Hi), Hn. reflexivity.
  - rewrite (proj2 (Z.eqb_neq _ _) (Hno k ltac:(lia))), orb_true_r. apply IH; [lia | assumption | assumption|]. intros u Hu. apply Hno. lia.
Qed.

Lemma dir_find_some name data : forall n k inum t, dir_find name data k n = Some (inum, t) -> (k <= t < k + n)%nat /\ inum = de_inum (dir_entry data t) /\ inum <> 0.
Proof.
  induction n as [|n IH]; intros k inum t; cbn [dir_find]; [discriminate|]. destruct (Z.eqb_spec (de_inum (dir_entry data k)) 0) as [E | E]; cbn [orb].
  - intros (H1 & H2)%IH. split; [lia | exact H2].
  - destruct (negb _); [intros (H1 & H2)%IH; split; [lia | exact H2]|]. intros [= <- <-]. split; [lia | auto].
Qed.

(** Entries one after the other. *)
Lemma chunk_lookup (ls : list (list Z)) rest k c : Forall (fun l => length l = 16%nat) ls -> ls !! k = Some c -> take 16 (drop (16 * k) (mjoin ls ++ rest)) = c.
Proof.
  revert k. induction ls as [|l ls IH]; intros k Hl Hk; [discriminate Hk|]. apply Forall_cons_1 in Hl as [H0 Hl]. destruct k as [|k].
  - injection Hk as <-. change (mjoin (l :: ls)) with (l ++ mjoin ls). rewrite <- app_assoc. cbn [Nat.mul drop]. apply take_app_length'. symmetry. exact H0.
  - change (mjoin (l :: ls)) with (l ++ mjoin ls). rewrite <- app_assoc. replace (16 * S k)%nat with (length l + 16 * k)%nat by lia. rewrite drop_app_add. apply IH; assumption.
Qed.

Lemma decode_entry inum name : 0 <= inum < 65536 -> decode_dirent (Mkfs.entry inum name) = mkDirent inum (strncpy_bytes name DIRSIZ).
Proof.
  intros Hi. unfold decode_dirent, Mkfs.entry, encode_dirent. cbn [de_inum de_name]. rewrite le16_bytes16, Z.mod_small by exact Hi. f_equal.
  change (drop 2 (bytes16 inum ++ strncpy_bytes name DIRSIZ)) with (strncpy_bytes name DIRSIZ). apply take_ge. rewrite Mkfs.strncpy_length. reflexivity.
Qed.

Abbreviation args_t := (list (list Z * option (list (list Z)))).

(** The entries of the root directory. *)
Definition root_entries (args : args_t) : list (Z * list Z) :=
  (ROOTINO, [46]) :: (ROOTINO, [46; 46]) :: zip (seqZ 2 (Z.of_nat (length args))) (map (fun f => Mkfs.skip_underscore f.1) args).

Lemma listing_zip inum (args : args_t) :
  Mkfs.listing inum args = mjoin (map (fun e => Mkfs.entry e.1 e.2) (zip (seqZ inum (Z.of_nat (length args))) (map (fun f => Mkfs.skip_underscore f.1) args))).
Proof.
  revert inum. induction args as [|[name f] args IH]; intros inum; [reflexivity|]. cbn [Mkfs.listing length]. rewrite seqZ_cons by lia. cbn [map zip zip_with fst snd].
  rewrite IH. replace (Z.pred (Z.of_nat (S (length args)))) with (Z.of_nat (length args)) by lia. replace (Z.succ inum) with (inum + 1) by lia. reflexivity.
Qed.

Lemma root_data_entries args : Mkfs.root_data args = mjoin (map (fun e => Mkfs.entry e.1 e.2) (root_entries args)).
Proof. unfold Mkfs.root_data, root_entries. rewrite listing_zip. reflexivity. Qed.

Lemma root_entries_length args : length (root_entries args) = (2 + length args)%nat.
Proof. unfold root_entries. cbn [length]. rewrite length_zip, length_seqZ, length_map. lia. Qed.

Lemma root_entries_file args i f : args !! i = Some f -> root_entries args !! (2 + i)%nat = Some (2 + Z.of_nat i, Mkfs.skip_underscore f.1).
Proof.
  intros Hi. pose proof (lookup_lt_Some _ _ _ Hi). change (zip (seqZ 2 (Z.of_nat (length args))) (map (fun f => Mkfs.skip_underscore f.1) args) !! i = Some (2 + Z.of_nat i, Mkfs.skip_underscore f.1)).
  apply lookup_zip_with_Some. eexists _, _. split; [reflexivity|]. split; [rewrite lookup_seqZ_lt by lia; reflexivity | rewrite list_lookup_fmap, Hi; reflexivity].
Qed.

Lemma root_entries_inum args k e : root_entries args !! k = Some e -> 1 <= e.1 < 2 + Z.of_nat (length args).
Proof.
  destruct k as [|[|k]]; cbn [root_entries lookup list_lookup]; [intros [= <-]; cbn; unfold ROOTINO; lia..|]. intros (x & y & -> & Hx & _)%lookup_zip_with_Some. apply lookup_seqZ in Hx as [-> Hlt]. cbn. lia.
Qed.

(** ** The image as a file system *)

Section Image.
Context (args : args_t) (sect : Z -> list Z) (used : Z) (Him : Mkfs.image_of args sect used).
Context (Hlen : (length args < 199)%nat) (Hroot : ((2 + length args) mod 32 <> 0)%nat).

Lemma image_inode inum : 0 <= inum < 208 -> disk_inode sect inum = Mkfs.inode_at sect inum.
Proof. intros Hi. unfold disk_inode, Mkfs.inode_at. rewrite (Mkfs.io_sb _ _ _ Him). destruct (Mkfs.iblock_main inum Hi) as (-> & _). reflexivity. Qed.

Lemma image_file inum : 1 <= inum < 2 + Z.of_nat (length args) -> file_wf sect (Mkfs.inode_at sect inum).
Proof.
  intros Hi. destruct (Mkfs.io_there _ _ _ Him inum Hi (fun _ => Hroot)) as (H1 & H2 & H3). cbn zeta in H1, H2, H3. pose proof (Mkfs.io_room _ _ _ Him) as Hroom. set (di := Mkfs.inode_at sect inum) in *.
  assert (Hnb : (nblk (Z.to_nat (d_size di)) <= NDIRECT + NINDIRECT)%nat) by (apply nblk_max; change (MAXFILE * BSIZE) with 71680 in H1; unfold NDIRECT, NINDIRECT; lia).
  constructor; [exact H1 | |].
  - intros k Hk. specialize (H2 k Hk). pose proof (Mkfs.io_used _ _ _ Him inum k Hi ltac:(lia)) as Hu. cbn zeta in Hu. fold di in Hu. unfold Mkfs.uses in H2, Hu. rewrite decide_True in H2, Hu by lia.
    destruct Hu as [Hu | Hu]; [contradiction|]. change Mkfs.nmeta with 59 in Hu. split; [exact H2|]. split; [lia|]. apply (Mkfs.io_len _ _ _ Him). lia.
  - intros Hk. specialize (H3 Hk). pose proof (Mkfs.io_used _ _ _ Him inum (NDIRECT + NINDIRECT) Hi ltac:(lia)) as Hu. cbn zeta in Hu. fold di in Hu. unfold Mkfs.uses in H3, Hu. rewrite decide_False in H3, Hu by lia.
    destruct Hu as [Hu | Hu]; [contradiction|]. split; [exact H3 | lia].
Qed.

Definition root_inode : dinode := Mkfs.inode_at sect ROOTINO.
Definition root_pad : nat := (BLK - length (Mkfs.root_data args) mod BLK)%nat.

Lemma root_file : file_data sect root_inode = Mkfs.root_data args ++ replicate root_pad 0.
Proof. apply (Mkfs.io_root _ _ _ Him). Qed.

Lemma root_size : d_size root_inode = Z.of_nat (16 * (2 + length args) + root_pad) /\ (root_pad mod 16 = 0)%nat.
Proof.
  assert (Hi : 1 <= ROOTINO < 2 + Z.of_nat (length args)) by (unfold ROOTINO; lia). pose proof (image_file ROOTINO Hi) as Hw. pose proof (file_data_length sect _ Hw) as Hl. fold root_inode in Hl.
  rewrite root_file, length_app, length_replicate, Mkfs.root_data_length in Hl. pose proof (fw_size _ _ Hw) as Hs. fold root_inode in Hs. split; [lia|]. unfold root_pad. rewrite Mkfs.root_data_length. clear. ndm.
Qed.

Lemma root_entry k e : root_entries args !! k = Some e -> dir_entry (file_data sect root_inode) k = mkDirent e.1 (strncpy_bytes e.2 DIRSIZ).
Proof.
  intros Hk. pose proof (root_entries_inum args k e Hk). unfold dir_entry. rewrite root_file, root_data_entries.
  rewrite (chunk_lookup _ _ k (Mkfs.entry e.1 e.2)); [apply decode_entry; lia | | rewrite list_lookup_fmap, Hk; reflexivity].
  apply Forall_forall. intros l (y & <- & _)%in_map_iff. apply Mkfs.entry_length.
Qed.

Lemma root_entry_zero k : (2 + length args <= k)%nat -> de_inum (dir_entry (file_data sect root_inode) k) = 0.
Proof.
  intros Hk. unfold dir_entry. rewrite root_file, drop_app_ge by (rewrite Mkfs.root_data_length; lia). cbn [decode_dirent de_inum]. set (l := take 16 _).
  assert (Hz : forall j, byte_at l j = 0).
  { intros j. unfold byte_at. rewrite nth_lookup. destruct (l !! j) as [x|] eqn:E; [|reflexivity]. apply lookup_take_Some in E as [E _]. rewrite lookup_drop in E. apply lookup_replicate in E as [-> _]. reflexivity. }
  unfold le16. rewrite !Hz. reflexivity.
Qed.

Lemma image_wf : fs_wf sect (fun inum => 1 <= inum < 2 + Z.of_nat (length args)).
Proof.
  assert (Hin : forall inum, 1 <= inum < 2 + Z.of_nat (length args) -> disk_inode sect inum = Mkfs.inode_at sect inum /\
    (inum = ROOTINO /\ d_type (Mkfs.inode_at sect inum) = T_DIR \/ d_type (Mkfs.inode_at sect inum) = T_FILE) /\ d_nlink (Mkfs.inode_at sect inum) = 1).
  { intros inum Hi. split; [apply image_inode; lia|]. destruct (decide (inum = ROOTINO)) as [-> | Hne]; [destruct (Mkfs.io_root _ _ _ Him) as (H1 & H2 & _); auto|].
    unfold ROOTINO in Hne. destruct (lookup_lt_is_Some_2 args (Z.to_nat (inum - 2))) as [f Hf]; [lia|]. destruct (Mkfs.io_file _ _ _ Him _ _ Hf) as (H1 & H2 & _).
    replace (2 + Z.of_nat (Z.to_nat (inum - 2))) with inum in * by lia. auto. }
  assert (Hdir : forall inum, 1 <= inum < 2 + Z.of_nat (length args) -> d_type (disk_inode sect inum) = T_DIR -> disk_inode sect inum = root_inode).
  { intros inum Hi Ht. destruct (Hin inum Hi) as (E & [[-> _] | H] & _); [exact E|]. rewrite E, H in Ht. discriminate Ht. }
  constructor.
  - intros inum Hi. destruct (Hin inum Hi) as (-> & [[_ ->] | ->] & _); discriminate.
  - intros inum Hi. destruct (Hin inum Hi) as (-> & _ & ->). discriminate.
  - intros inum Hi. rewrite (Mkfs.io_sb _ _ _ Him). destruct (Mkfs.iblock_main inum ltac:(lia)) as (-> & H & _). unfold FSSIZE. lia.
  - intros inum Hi Ht. rewrite (Hdir inum Hi Ht) in Ht |- *. constructor; [apply image_file; unfold ROOTINO; lia | exact Ht|]. destruct root_size as [-> Hp]. unfold DIRENT_SIZE. clear -Hp. ndm.
  - intros inum name inum' k Hi Ht. rewrite (Hdir inum Hi Ht). unfold lookup_name. intros (_ & -> & Hz)%dir_find_some. destruct (decide (k < 2 + length args)%nat) as [Hk | Hk]; [|rewrite root_entry_zero in Hz by lia; contradiction].
    destruct (lookup_lt_is_Some_2 (root_entries args) k) as [e He]; [rewrite root_entries_length; exact Hk|]. rewrite (root_entry k e He). apply (root_entries_inum args k e He).
Qed.

(** The name of argument [i] is a name of a file and not used before. *)
Definition fresh_name (i : nat) (name : list Z) : Prop :=
  cstring name /\ (slash ∉ name) /\ name <> [] /\ name <> [46] /\ name <> [46; 46] /\
  forall i' f, (i' < i)%nat -> args !! i' = Some f -> cstring (Mkfs.skip_underscore f.1) /\ take DIRSIZ (Mkfs.skip_underscore f.1) <> take DIRSIZ name.

Lemma elems_name name : forall cur, (slash ∉ name) -> cur ++ name <> [] -> elems name cur = [cur ++ name].
Proof.
  induction name as [|c name IH]; intros cur Hs Hne; cbn [elems]; [rewrite app_nil_r in *; rewrite decide_False by exact Hne; reflexivity|].
  apply not_elem_of_cons in Hs as [Hc Hs]. rewrite (proj2 (Z.eqb_neq c slash)) by congruence. rewrite IH, <- app_assoc; [reflexivity | exact Hs|]. destruct cur; discriminate.
Qed.

Lemma image_walk i f : args !! i = Some f -> fresh_name i (Mkfs.skip_underscore f.1) ->
  walk sect ROOTINO (elems (slash :: Mkfs.skip_underscore f.1) []) = Some (2 + Z.of_nat i).
Proof.
  intros Hf (Hc & Hs & Hne & H1 & H2 & Hno). set (name := Mkfs.skip_underscore f.1) in *. pose proof (lookup_lt_Some _ _ _ Hf) as Hlt.
  cbn [elems]. rewrite Z.eqb_refl, decide_True, (elems_name name []) by (assumption || reflexivity). cbn [app walk]. rewrite image_inode by (unfold ROOTINO; lia). destruct (Mkfs.io_root _ _ _ Him) as (-> & _). cbn [Z.eqb Pos.eqb T_DIR]. fold root_inode.
  pose proof (root_entries_file args i f Hf) as He. fold name in He. pose proof (root_entry _ _ He) as Hde. cbn [fst snd] in Hde.
  unfold lookup_name. rewrite (dir_find_at (take DIRSIZ name) _ (2 + i)); [rewrite Hde; reflexivity | | | |].
  - split; [lia|]. unfold dir_slots, DIRENT_SIZE. destruct root_size as [-> _]. clear -Hlt. ndm.
  - rewrite Hde. cbn. lia.
  - rewrite Hde. cbn [de_name]. apply strncmp_strncpy; [exact Hc | exact Hc | reflexivity].
  - intros u Hu. destruct (lookup_lt_is_Some_2 (root_entries args) u) as [e Heu]; [rewrite root_entries_length; lia|]. rewrite (root_entry u e Heu). cbn [de_name]. unfold namecmp.
    assert (Hd : cstring e.2 /\ take DIRSIZ e.2 <> take DIRSIZ name).
    { destruct u as [|[|u]]; cbn [root_entries lookup list_lookup] in Heu.
      - injection Heu as <-. split; [repeat constructor; discriminate|]. cbn [snd]. intros E. apply H1. destruct name as [|a [|b name]]; [discriminate E | exact (eq_sym E) | discriminate E].
      - injection Heu as <-. split; [repeat constructor; discriminate|]. cbn [snd]. intros E. apply H2. destruct name as [|a [|b [|x name]]]; [discriminate E | discriminate E | exact (eq_sym E) | discriminate E].
      - destruct (lookup_lt_is_Some_2 args u) as [g Hg]; [lia|]. pose proof (root_entries_file args u g Hg) as Hg2. cbn [root_entries lookup list_lookup Nat.add] in Hg2. rewrite Heu in Hg2. injection Hg2 as ->. apply (Hno u g); [lia | exact Hg]. }
    rewrite strncmp_strncpy by (exact Hc || apply Hd). intros E. apply (proj2 Hd). symmetry. exact E.
Qed.
End Image.

(** ** The kernel on the image *)

Section Kernel.
Context {HR : Rounds} {HP : Patient} (i : nat) (pid : Z).

Lemma free_table d g : all_free (fs_inodes g) -> fs_sb g = decode_sb (d 1) -> itable pid d ∅ ∅ g.
Proof.
  clear HP HR i. intros [Hl Hf] Hs. rewrite Forall_lookup in Hf. assert (Hz : forall j x, fs_inodes g !! j = Some x -> 0 < i_ref x -> False) by (intros j x Hx Hr; destruct (Hf j x Hx); lia).
  constructor; [exact Hl | exact Hs | | | | | |].
  - intros j x Hx. destruct (Hf j x Hx) as [-> _]. lia.
  - intros j x Hx Hr. destruct (Hz j x Hx Hr).
  - intros j j' x x' Hx _ Hr. destruct (Hz j x Hx Hr).
  - intros inum Hin. multiset_solver.
  - intros j x Hx Hr. destruct (Hz j x Hx Hr).
  - intros j x Hx. destruct (Hf j x Hx) as [_ ->]. rewrite decide_False by set_solver. reflexivity.
Qed.

Lemma image_recovered args sect used : Mkfs.image_of args sect used -> apply_writes (recover_writes 2 sect []) sect = sect.
Proof.
  intros Him. pose proof (Mkfs.io_log _ _ _ Him 2 ltac:(lia)) as E2. extensionality b. unfold recover_writes. cbn [install_writes zip zip_with app apply_writes foldl]. rewrite E2. change (zero_head Mkfs.zeroes) with Mkfs.zeroes.
  destruct (decide (b = 2)) as [-> | Hne]; [rewrite E2; reflexivity|]. cbn [fst snd]. rewrite fupd_ne by exact Hne. reflexivity.
Qed.

(** The first process mounts the image. *)
Lemma mount_image args sect used g :
  Mkfs.image_of args sect used -> boot sect g ->
  runs i pid restart g (fun _ f => serving pid (mkCache sect (fs_writes f) ∅ ∅) (fs_log f) ∅ ∅ f).
Proof.
  intros Him Hb. eapply runs_mono; [apply (restart_spec 2 30 Mkfs.log_layout i pid g sect sect [] (Mkfs.image_good _ _ _ Him) Hb)|].
  intros _ f ((Ht & _) & _ & Hs & Ha). rewrite (image_recovered _ _ _ Him) in Ht. pose proof (rd_cached _ _ _ _ _ _ _ (tx_ready _ _ _ _ _ _ _ _ _ Ht)) as Hc.
  constructor; [constructor; [exact Hc | reflexivity | cbn; rewrite map_size_empty; unfold NBUF; lia] | reflexivity|]. apply free_table; [exact Ha|]. exact Hs.
Qed.
End Kernel.

(** The first process looks a file up and reads [n] bytes of it. *)
Definition read_file {HR : Rounds} (dv : devsw_t) (path : list Z) (n : Z) : K (option (list Z)) :=
  restart ;;
  let! r := namei dv path in
  match r with
  | None => ret None
  | Some j => ilock j ;; readi dv j 0 n
  end.

(** C6 (mkfs.c with fs.c, log.c, bio.c and ide.c): the kernel reads back what
    mkfs writes.  For arguments that fit, with a number of files that does not
    make the root directory end exactly at a block, mkfs writes an image such
    that a kernel which starts from it, recovers the log, looks up the name of an
    argument (the first with that name), locks the inode and reads, gets the
    first bytes of this argument's contents, as many as it asks for. *)
Theorem kernel_reads_image {HR : Rounds} {HP : Patient} (args : args_t) k f :
  Mkfs.fits args -> ((2 + length args) mod 32 <> 0)%nat -> args !! k = Some f -> fresh_name args k (Mkfs.skip_underscore f.1) ->
  exists m, Mkfs.main args Mkfs.start = Ok tt m /\
    forall i pid g dv n, boot (Mkfs.im_sect m) g -> 0 <= n < 4294967296 ->
      runs i pid (read_file dv (slash :: Mkfs.skip_underscore f.1) n) g (fun r _ => r = Some (take (Z.to_nat n) (Mkfs.contents f))).
Proof.
  intros Hfit Hroot Hk Hname. destruct (Mkfs.main_ok args Hfit) as (m & E & Him). exists m. split; [exact E|]. intros i pid g dv n Hb Hn. destruct Hfit as (_ & Hlen & _).
  set (d := Mkfs.im_sect m) in *. clearbody d. pose proof (image_wf args d _ Him Hlen Hroot) as Hwf. pose proof (lookup_lt_Some _ _ _ Hk) as Hlt.
  eapply runs_bind; [apply (mount_image i pid args d _ g Him Hb)|]. intros [] f1 Hu. set (c := mkCache d (fs_writes f1) ∅ ∅) in Hu. assert (Ev : view c = d) by (extensionality b; unfold view, c; cbn; rewrite lookup_empty; reflexivity).
  eapply runs_bind; [apply (namei_spec i pid dv c (fs_log f1) ∅ (fun inum => 1 <= inum < 2 + Z.of_nat (length args)) (slash :: Mkfs.skip_underscore f.1) f1 Hu); rewrite ?Ev; try assumption; [unfold ROOTINO; lia | reflexivity | vm_compute; lia]|].
  rewrite Ev, (image_walk args d _ Him Hlen Hroot k f Hk Hname). intros r f2 (j & -> & Hu2 & Hn2). set (inum := 2 + Z.of_nat k) in *. assert (Hin : 1 <= inum < 2 + Z.of_nat (length args)) by (unfold inum; clear -Hlt; lia).
  eapply runs_bind; [apply (ilock_spec i pid c _ _ ∅ f2 j inum Hu2 Hn2); rewrite ?Ev; [apply not_elem_of_empty | apply (wf_type _ _ Hwf), Hin | apply (wf_block _ _ Hwf), Hin]|].
  intros [] f3 (Hu3 & (x & Hx & _ & _ & Hdev & _ & Ex) & _). rewrite Ev, (image_inode args d _ Him) in Ex by (clear -Hin Hlen; lia). destruct (Mkfs.io_file _ _ _ Him k f Hk) as (Ht & _ & Hdata). fold inum in Ht, Hdata.
  pose proof (image_file args d _ Him Hlen Hroot inum Hin) as Hw. assert (Ety : i_type x = T_FILE) by (rewrite <- Ht, <- Ex; reflexivity). assert (Esz : i_size x = d_size (Mkfs.inode_at d inum)) by (rewrite <- Ex; reflexivity).
  eapply runs_mono; [apply (readi_spec i pid dv j x c 0 n f3 (us_calm _ _ _ _ _ _ Hu3) Hx Hdev); rewrite ?Ev, ?Ex, ?Ety; try assumption; [discriminate | rewrite Esz; pose proof (fw_size _ _ Hw) as Hs; clear -Hs; lia | clear -Hn; lia | clear -Hn; lia]|].
  intros r f4 (-> & _). rewrite Ev, Ex, Hdata. reflexivity.
Qed.

(** ** Examples *)

Definition no_devices : devsw_t := mkDevsw (fun _ => None) (fun _ => None).
Definition sh_path : list Z := [47; 115; 104].

Lemma sh_fresh : fresh_name Mkfs.two_files 1 [115; 104].
Proof.
  split; [repeat constructor; discriminate|]. split; [apply (bool_decide_unpack _); exact I|]. repeat (split; [discriminate|]). intros [|i'] f Hi Hf; [|lia]. injection Hf as <-.
  split; [repeat constructor; discriminate | discriminate].
Qed.

Lemma boots d : exists g, boot d g.
Proof.
  set (disk := fun _ : Z => d). destruct (boot_state_of disk) as (g & H & _). destruct (H (boot_state (fun _ => 0) disk) eq_refl) as (s' & E & Eg).
  exists g, disk, (boot_state (fun _ => 0) disk), s'. auto.
Qed.

Lemma kernel_reads_image_witness :
  exists m g, Mkfs.main Mkfs.two_files Mkfs.start = Ok tt m /\ boot (Mkfs.im_sect m) g /\
    runs 3 4 (@read_file small_rounds no_devices sh_path 100) g (fun r _ => r = Some [127; 69; 76; 70]).
Proof.
  destruct (@kernel_reads_image small_rounds small_patient Mkfs.two_files 1 _ Mkfs.two_files_fit ltac:(discriminate) eq_refl sh_fresh) as (m & E & Hrun).
  destruct (boots (Mkfs.im_sect m)) as [g Hg]. exists m, g. split; [exact E|]. split; [exact Hg|]. apply (Hrun 3%nat 4 g no_devices 100 Hg). lia.
Defined.

Lemma namei_resolves_witness :
  exists f, runs 3 4 (@namei small_rounds no_devices sh_path) f (fun r f' => exists j, r = Some j /\ names f' j 3).
Proof.
  destruct (Mkfs.main_ok _ Mkfs.two_files_fit) as (m & _ & Him). set (d := Mkfs.im_sect m) in *. destruct (boots d) as [g Hg]. destruct (boot_cached d g 4 Hg) as (Hc & _ & _ & Hi).
  exists (set_sb (decode_sb (d 1)) g). pose (c := mkCache d (fs_writes g) ∅ ∅). assert (Ev : view c = d) by (extensionality b; unfold view, c; cbn; rewrite lookup_empty; reflexivity).
  assert (Hu : serving 4 c (fs_log g) ∅ ∅ (set_sb (decode_sb (d 1)) g)).
  { constructor; [constructor; [apply cached_set_sb, Hc | reflexivity | cbn; rewrite map_size_empty; unfold NBUF; lia] | reflexivity|]. apply free_table; [|cbn [set_sb fs_sb]; rewrite Ev; reflexivity].
    cbn [set_sb fs_inodes]. rewrite Hi. split; [apply length_replicate | apply Forall_replicate; split; reflexivity]. }
  eapply runs_mono; [apply (@namei_resolves small_rounds small_patient 3 4 no_devices c (fs_log g) ∅ (fun inum => 1 <= inum < 4) sh_path _ Hu)|].
  - rewrite Ev. apply (image_wf Mkfs.two_files d _ Him); [cbn; lia | discriminate].
  - unfold ROOTINO. lia.
  - reflexivity.
  - vm_compute. lia.
  - rewrite Ev. pose proof (image_walk Mkfs.two_files d _ Him ltac:(cbn; lia) ltac:(discriminate) 1 _ eq_refl sh_fresh) as E. change (slash :: _) with sh_path in E. rewrite E.
    intros r f' (j & -> & _ & Hn). exists j. auto.
Defined.
