(* ===== verification/Uaccess.v ===== *)
(** * Kernel accesses to user memory

    The kernel dereferences user pointers through the page table that cr3
    points to.  A supervisor access needs a present page, and a writable one
    to write, because entry.S sets CR0_WP; otherwise it faults. *)

From Stdlib Require Import ZArith Lia FunctionalExtensionality.
From stdpp Require Import base list strings gmap.
From S2P Require Import Prelude Mem Mmu Kernel Spinlock Kalloc Vm VmFacts Sched.

Definition utrans (s : kstate) (va : Z) : option (Z * bool * bool) :=
  hw_translate (k_mem s) (P2V (c_cr3 (k_cpu s))) (w32 va).

(** The byte at a user address, where a page is mapped. *)
Definition ubyte (s : kstate) (va : Z) : option Z :=
  '(pa, _, _) ← utrans s va; Some (load8 (k_mem s) (P2V pa)).

Definition uload8 (va : Z) : K Z := fun s =>
  match ubyte s va with
  | Some c => Ok c s
  | None => Fault
  end.

Definition ustore8 (va c : Z) : K unit := fun s =>
  match utrans s va with
  | Some (pa, _, true) => Ok tt (set_mem (store8 (k_mem s) (P2V pa) c) s)
  | _ => Fault
  end.

Fixpoint uload (va : Z) (n : nat) : K (list Z) :=
  match n with
  | O => ret []
  | S n' => let! c := uload8 va in let! l := uload (va + 1) n' in ret (c :: l)
  end.

Fixpoint ustore (va : Z) (l : list Z) : K unit :=
  match l with
  | [] => ret tt
  | c :: l' => ustore8 va c ;; ustore (va + 1) l'
  end.

Definition uload32 (va : Z) : K Z :=
  let! l := uload va 4 in
  ret (nth 0 l 0 + 256 * nth 1 l 0 + 65536 * nth 2 l 0 + 16777216 * nth 3 l 0).
Definition ustore32 (va v : Z) : K unit :=
  ustore va [v mod 256; (v / 256) mod 256; (v / 65536) mod 256; (v / 16777216) mod 256].

(** memmove from a buffer of the kernel or the user to kernel address [a]. *)
Fixpoint store_bytes (m : mem) (a : Z) (l : list Z) : mem :=
  match l with
  | [] => m
  | c :: l' => store_bytes (store8 m a c) (a + 1) l'
  end.
Definition kstore (a : Z) (l : list Z) : K unit := modify (fun s => set_mem (store_bytes (k_mem s) a l) s).

(** ** vm.c *)

(** [uva2ka] does not test [pte] for null before it reads through it: a null
    pointer reads the word at address 0 of the current address space. *)
Definition uva2ka (pgdir uva : Z) : K Z :=
  let! pte := walkpgdir pgdir uva false in
  let! e := (if pte =? 0 then uload32 0 else ld32 pte) in
  if negb (has e PTE_P) then ret 0
  else if negb (has e PTE_U) then ret 0
  else ret (P2V (PTE_ADDR e)).

(** [copyout]: one page per iteration, at most [len / PGSIZE + 2] of them.
    The source buffer is the list of its [len] bytes. *)
Fixpoint copyout_loop (pgdir va : Z) (buf : list Z) (fuel : nat) : K Z :=
  match fuel with
  | O => nofuel
  | S f =>
      let len := Z.of_nat (length buf) in
      if 0 <? len then
        let va0 := PGROUNDDOWN va in
        let! pa0 := uva2ka pgdir va0 in
        if pa0 =? 0 then ret (-1)
        else
          let n0 := PGSIZE - (va - va0) in
          let n := Z.to_nat (if len <? n0 then len else n0) in
          kstore (w32 (pa0 + (va - va0))) (take n buf) ;;
          copyout_loop pgdir (w32 (va0 + PGSIZE)) (drop n buf) f
      else ret 0
  end.

Definition copyout (pgdir va : Z) (p : list Z) : K Z :=
  copyout_loop pgdir va p (S (S (S (length p / 4096)))).

Lemma ubyte_ext s s' va :
  k_mem s' = k_mem s -> c_cr3 (k_cpu s') = c_cr3 (k_cpu s) -> ubyte s' va = ubyte s va.
Proof. unfold ubyte, utrans. intros -> ->. reflexivity. Qed.

(** ** Buffers the kernel may write to

    The [n] bytes at [addr] are mapped writable to distinct bytes of memory,
    none of which belongs to the page tables that map them. *)
Definition in_buf_at (addr n va : Z) : Prop := addr <= va < addr + n.
Definition buf_byte (s : kstate) (addr n a : Z) : Prop :=
  exists va pa u w, in_buf_at addr n va /\ utrans s va = Some (pa, u, w) /\ a = P2V pa.

Record ubuf (s : kstate) (addr n : Z) : Prop := {
  ub_map va : in_buf_at addr n va -> exists pa u, utrans s va = Some (pa, u, true);
  ub_inj va va' pa pa' u u' w w' : in_buf_at addr n va -> in_buf_at addr n va' ->
    utrans s va = Some (pa, u, w) -> utrans s va' = Some (pa', u', w') -> P2V pa = P2V pa' -> va = va';
  ub_stable m' : (forall a, ~ buf_byte s addr n a -> load8 m' a = load8 (k_mem s) a) ->
    forall va, in_buf_at addr n va -> utrans (set_mem m' s) va = utrans s va }.

Lemma ubuf_mem s addr n m' :
  ubuf s addr n -> (forall a, ~ buf_byte s addr n a -> load8 m' a = load8 (k_mem s) a) ->
  ubuf (set_mem m' s) addr n /\
  forall va, in_buf_at addr n va -> utrans (set_mem m' s) va = utrans s va.
Proof.
  intros [H1 H2 H3] Hm. pose proof (H3 m' Hm) as Ht. split; [|exact Ht].
  assert (Hb : forall a, buf_byte (set_mem m' s) addr n a <-> buf_byte s addr n a).
  { intros a. split; intros (va & pa & u & w & Hv & Hp & ->); exists va, pa, u, w; split; auto;
      rewrite Ht in * by exact Hv; auto. }
  constructor.
  - intros va Hv. rewrite Ht by exact Hv. apply H1, Hv.
  - intros va va' pa pa' u u' w w' Hv Hv'. rewrite !Ht by assumption. apply H2; assumption.
  - intros m2 Hm2 va Hv. rewrite Ht by exact Hv. apply (H3 m2); [|exact Hv].
    intros a Ha. rewrite <- Hm by exact Ha. apply Hm2. rewrite Hb. exact Ha.
Qed.

(** A store into such a buffer changes that byte and no other. *)
Lemma ustore8_ok s addr n va c :
  ubuf s addr n -> in_buf_at addr n va ->
  exists m', ustore8 va c s = Ok tt (set_mem m' s) /\ ubuf (set_mem m' s) addr n /\
    ubyte (set_mem m' s) va = Some (c mod 256) /\
    (forall va', in_buf_at addr n va' -> va' <> va -> ubyte (set_mem m' s) va' = ubyte s va').
Proof.
  intros Hu Hv. destruct (ub_map _ _ _ Hu va Hv) as (pa & u & Et).
  exists (store8 (k_mem s) (P2V pa) c). unfold ustore8. rewrite Et. split; [reflexivity|].
  assert (Hm : forall a, ~ buf_byte s addr n a ->
    load8 (store8 (k_mem s) (P2V pa) c) a = load8 (k_mem s) a).
  { intros a Ha. apply load8_store8_ne. intros ->. apply Ha. exists va, pa, u, true. auto. }
  destruct (ubuf_mem _ _ _ _ Hu Hm) as [Hu' Ht]. split; [exact Hu'|]. unfold ubyte. split.
  - rewrite Ht, Et by exact Hv. cbn. rewrite load8_store8_same. reflexivity.
  - intros va' Hv' Hne. rewrite Ht by exact Hv'.
    destruct (ub_map _ _ _ Hu va' Hv') as (pa' & u' & Et'). rewrite Et'. cbn. f_equal.
    apply load8_store8_ne. intros Heq. apply Hne.
    eapply (ub_inj _ _ _ Hu); eassumption.
Qed.

Lemma ubuf_ext s s' addr n :
  k_mem s' = k_mem s -> c_cr3 (k_cpu s') = c_cr3 (k_cpu s) -> ubuf s addr n -> ubuf s' addr n.
Proof.
  intros Em Ec [H1 H2 H3].
  assert (Ht : forall va, utrans s' va = utrans s va) by (intros; unfold utrans; rewrite Em, Ec; reflexivity).
  assert (Ht2 : forall m va, utrans (set_mem m s') va = utrans (set_mem m s) va)
    by (intros; unfold utrans; cbn; rewrite Ec; reflexivity).
  assert (Hb : forall a, buf_byte s' addr n a -> buf_byte s addr n a).
  { intros a (va & pa & u & w & Hv & Hp & ->). exists va, pa, u, w. rewrite <- Ht. auto. }
  constructor.
  - intros va Hv. rewrite Ht. apply H1, Hv.
  - intros va va' pa pa' u u' w w'. rewrite !Ht. apply H2.
  - intros m' Hm va Hv. rewrite Ht2, Ht. apply H3; [|exact Hv]. intros a Ha. rewrite <- Em. apply Hm. auto.
Qed.

(** ** Buffers in the user half of an address space *)

Section UserBuffers.
Context `{Image}.
Context (fl hl : list Z) (pgdir : Z) (pt : gmap Z Z) (lim : Z) (s : kstate).
Context (U : uspace fl hl pgdir pt lim s) (Hcr : P2V (c_cr3 (k_cpu s)) = pgdir).

Lemma utrans_mapped v :
  0 <= v < lim -> present (k_mem s) pt v = true ->
  exists pa, utrans s v = Some (pa, has (pteval (k_mem s) pt v) PTE_U, has (pteval (k_mem s) pt v) PTE_W) /\
    P2V pa = frame (k_mem s) pt v + v mod 4096.
Proof.
  intros Hv Hp. pose proof (us_lim _ _ _ _ _ _ U) as Hl.
  assert (u32 v) by (unfold u32, KERNBASE in *; lia).
  unfold utrans. rewrite Hcr, w32_small by assumption.
  rewrite (hw_mapped _ _ pt v) by (try assumption; apply (us_ps _ _ _ _ _ _ U)).
  eexists. split; [reflexivity|]. unfold frame.
  destruct (us_owned _ _ _ _ _ _ U v Hv Hp) as ((Hm & _ & _) & _). pose proof (us_owned _ _ _ _ _ _ U v Hv Hp) as (Hk & _).
  apply page_ok_addr in Hk. unfold frame in *. revert Hm Hk. unfold P2V. unfold w32, KERNBASE, PHYSTOP.
  generalize (PTE_ADDR (pteval (k_mem s) pt v)). intros. zdm.
Qed.

Lemma uspace_ubuf addr n :
  0 <= addr -> addr + n <= lim ->
  (forall v, addr <= v < addr + n ->
     present (k_mem s) pt v = true /\ has (pteval (k_mem s) pt v) PTE_W = true) ->
  ubuf s addr n.
Proof.
  intros Ha Hn Hw. pose proof (us_lim _ _ _ _ _ _ U) as Hl. pose proof (us_ps _ _ _ _ _ _ U) as [_ P _].
  assert (Hin : forall v, in_buf_at addr n v -> 0 <= v < lim) by (unfold in_buf_at; lia).
  constructor.
  - intros va Hv. destruct (Hw va Hv) as [Hp Hpw]. destruct (utrans_mapped va (Hin va Hv) Hp) as (pa & -> & _).
    rewrite Hpw. eauto.
  - intros va va' pa pa' u u' w w' Hv Hv' E E' Heq.
    destruct (Hw va Hv) as [Hp _], (Hw va' Hv') as [Hp' _].
    destruct (utrans_mapped va (Hin va Hv) Hp) as (pb & Eb & Hb).
    destruct (utrans_mapped va' (Hin va' Hv') Hp') as (pb' & Eb' & Hb').
    assert (pb = pa) as -> by congruence. assert (pb' = pa') as -> by congruence.
    destruct (us_owned _ _ _ _ _ _ U va (Hin va Hv) Hp) as ((Hf & _) & _).
    destruct (us_owned _ _ _ _ _ _ U va' (Hin va' Hv') Hp') as ((Hf' & _) & _).
    assert (frame (k_mem s) pt va = frame (k_mem s) pt va') as Hfr by zdm.
    pose proof (us_inj _ _ _ _ _ _ U va va' (Hin va Hv) (Hin va' Hv') Hp Hp' Hfr). zdm.
  - intros m' Hm va Hv. destruct (Hw va Hv) as [Hp _]. pose proof (Hin va Hv) as Hlt.
    assert (Hu : u32 va) by (unfold u32, KERNBASE in *; lia).
    assert (Hoff : agree_off (fun x => ~ pt_page pgdir pt x) (k_mem s) m').
    { intros x Hx. apply Hm. intros (v' & pa & u & w & Hv' & E & ->). apply Hx. intros Hpg.
      destruct (Hw v' Hv') as [Hp' _]. destruct (utrans_mapped v' (Hin v' Hv') Hp') as (pb & Eb & Hb).
      assert (pb = pa) as -> by congruence.
      destruct (us_owned _ _ _ _ _ _ U v' (Hin v' Hv') Hp') as ((Hf & _) & _ & Hno). apply Hno.
      rewrite Hb in Hpg. replace (frame (k_mem s) pt v') with
        (frame (k_mem s) pt v' + v' mod 4096 - (frame (k_mem s) pt v' + v' mod 4096) mod 4096) by zdm.
      exact Hpg. }
    assert (Hpde : forall i, 0 <= i < 1024 -> pde_at m' pgdir i = pde_at (k_mem s) pgdir i).
    { intros i Hi. apply (agree_off_word _ _ _ _ _ Hoff); [apply (pd_page _ _ _ P) | exact Hi|].
      intros Hno. apply Hno. left. reflexivity. }
    unfold utrans. cbn [k_mem set_mem k_cpu]. rewrite Hcr, w32_small by exact Hu.
    apply (hw_same _ _ _ pt); [exact P | eapply pd_ok_ext; eassumption | exact Hu | apply Hpde, PDX_range, Hu |].
    unfold pteval. destruct (pt !! PDX va) as [p|] eqn:Ep; [|reflexivity].
    destruct (pd_some _ _ _ P _ _ Ep) as (_ & Hpk & _ & _).
    apply (agree_off_word _ _ _ _ _ Hoff); [apply Hpk | apply PTX_range, Hu |].
    intros Hno. apply Hno. right. eauto.
Qed.
End UserBuffers.
