(* ===== verification/Pipe.v ===== *)
(** * solution/pipe.c: pipes

    A pipe lives in a page from kalloc; [k_pipes] maps the page to the
    [struct pipe] in it.  This file has the operations on a pipe that exists;
    [pipealloc], which needs the file table, is in File. *)

From Stdlib Require Import ZArith Lia FunctionalExtensionality.
From stdpp Require Import base list strings gmap.
From S2P Require Import Prelude Mem Mmu Kernel Spinlock Kalloc Vm VmFacts Sched Runs Bio Uaccess.

Definition PIPESIZE : Z := 512.

Definition set_pi_data v p := mkPipe v (pi_nread p) (pi_nwrite p) (pi_readopen p) (pi_writeopen p).
Definition set_pi_nread v p := mkPipe (pi_data p) v (pi_nwrite p) (pi_readopen p) (pi_writeopen p).
Definition set_pi_nwrite v p := mkPipe (pi_data p) (pi_nread p) v (pi_readopen p) (pi_writeopen p).
Definition set_pi_readopen v p := mkPipe (pi_data p) (pi_nread p) (pi_nwrite p) v (pi_writeopen p).
Definition set_pi_writeopen v p := mkPipe (pi_data p) (pi_nread p) (pi_nwrite p) (pi_readopen p) v.

Definition get_pipe (p : Z) : K pipe := fun s =>
  match k_pipes s !! p with Some x => Ok x s | None => Fault end.
Definition upd_pipe (p : Z) (f : pipe -> pipe) : K unit :=
  modify (fun s => set_pipes (alter f p (k_pipes s)) s).

Definition mykilled : K Z :=
  let! cur := myproc in
  let! i := deref cur in
  let! p := get_proc i in
  ret (p_killed p).

(** The page goes back to the allocator, and with it the pipe. *)
Definition pipeclose `{Image} (p : Z) (writable : bool) : K unit :=
  acquire (LPipe p) ;;
  (if writable then
     upd_pipe p (set_pi_writeopen 0) ;;
     wakeup (ChPipeRead p)
   else
     upd_pipe p (set_pi_readopen 0) ;;
     wakeup (ChPipeWrite p)) ;;
  let! x := get_pipe p in
  if (pi_readopen x =? 0) && (pi_writeopen x =? 0) then
    release (LPipe p) ;;
    modify (fun s => set_pipes (delete p (k_pipes s)) s) ;;
    kfree p
  else release (LPipe p).

(** The [while] loop of [pipewrite]: whether there is room now. *)
Fixpoint pipe_full_loop (p : Z) (fuel : nat) : K bool :=
  match fuel with
  | O => nofuel
  | S f =>
      let! x := get_pipe p in
      if pi_nwrite x =? w32 (pi_nread x + PIPESIZE) then
        let! dead := (if pi_readopen x =? 0 then ret true
                      else let! k := mykilled in ret (negb (k =? 0))) in
        if (dead : bool) then release (LPipe p) ;; ret false
        else
          wakeup (ChPipeRead p) ;;
          sleep (ChPipeWrite p) (Some (LPipe p)) ;;
          pipe_full_loop p f
      else ret true
  end.

Definition push_byte (c : Z) (x : pipe) : pipe :=
  set_pi_nwrite (w32 (pi_nwrite x + 1))
    (set_pi_data (<[Z.to_nat (pi_nwrite x mod PIPESIZE) := c]> (pi_data x)) x).

(** The [for] loop with [n] bytes left at [addr]; [false] when the call has
    returned -1. *)
Fixpoint pipewrite_loop `{Rounds} (p addr : Z) (n : nat) : K bool :=
  match n with
  | O => ret true
  | S n' =>
      let! room := pipe_full_loop p rounds in
      if (room : bool) then
        let! c := uload8 addr in
        upd_pipe p (push_byte c) ;;
        pipewrite_loop p (addr + 1) n'
      else ret false
  end.

Definition pipewrite `{Rounds} (p addr n : Z) : K Z :=
  acquire (LPipe p) ;;
  let! done := pipewrite_loop p addr (Z.to_nat n) in
  if (done : bool) then
    wakeup (ChPipeRead p) ;;
    release (LPipe p) ;;
    ret n
  else ret (-1).

(** The [while] loop of [piperead]: whether the pipe can be read now. *)
Fixpoint pipe_empty_loop (p : Z) (fuel : nat) : K bool :=
  match fuel with
  | O => nofuel
  | S f =>
      let! x := get_pipe p in
      if (pi_nread x =? pi_nwrite x) && negb (pi_writeopen x =? 0) then
        let! k := mykilled in
        if negb (k =? 0) then release (LPipe p) ;; ret false
        else
          sleep (ChPipeRead p) (Some (LPipe p)) ;;
          pipe_empty_loop p f
      else ret true
  end.

Definition front_byte (x : pipe) : Z := nth (Z.to_nat (pi_nread x mod PIPESIZE)) (pi_data x) 0.

(** The copy loop: up to [n] bytes to [addr]; [i] have been copied. *)
Fixpoint piperead_loop (p addr i : Z) (n : nat) : K Z :=
  match n with
  | O => ret i
  | S n' =>
      let! x := get_pipe p in
      if pi_nread x =? pi_nwrite x then ret i
      else
        let c := front_byte x in
        upd_pipe p (fun x => set_pi_nread (w32 (pi_nread x + 1)) x) ;;
        ustore8 (addr + i) c ;;
        piperead_loop p addr (i + 1) n'
  end.

Definition piperead `{Rounds} (p addr n : Z) : K Z :=
  acquire (LPipe p) ;;
  let! ready := pipe_empty_loop p rounds in
  if (ready : bool) then
    let! i := piperead_loop p addr 0 (Z.to_nat n) in
    wakeup (ChPipeWrite p) ;;
    release (LPipe p) ;;
    ret i
  else ret (-1).

(** ** The ring buffer

    The bytes in the pipe, oldest first. *)
Definition count (x : pipe) : Z := w32 (pi_nwrite x - pi_nread x).
Definition slot (x : pipe) (j : nat) : nat := Z.to_nat ((pi_nread x + Z.of_nat j) mod PIPESIZE).
Definition contents (x : pipe) : list Z :=
  map (fun j => nth (slot x j) (pi_data x) 0) (seq 0 (Z.to_nat (count x))).

Record pipe_ok (x : pipe) : Prop := {
  pk_data : length (pi_data x) = 512%nat;
  pk_nread : u32 (pi_nread x);
  pk_nwrite : u32 (pi_nwrite x);
  pk_count : count x <= PIPESIZE }.

Lemma w32_mod_512 x : w32 x mod 512 = x mod 512.
Proof.
  unfold w32. apply Z.mod_mod_divide. exists 8388608. reflexivity.
Qed.

Lemma count_range x : 0 <= count x.
Proof. unfold count, w32. apply Z.mod_pos_bound. lia. Qed.

Lemma contents_length x : length (contents x) = Z.to_nat (count x).
Proof. unfold contents. rewrite length_map, length_seq. reflexivity. Qed.

Lemma nwrite_count x : pipe_ok x -> pi_nwrite x = w32 (pi_nread x + count x).
Proof.
  intros [_ Hr Hw _]. unfold count, w32, u32 in *.
  rewrite Z.add_mod_idemp_r by lia. replace (pi_nread x + _) with (pi_nwrite x) by lia.
  rewrite Z.mod_small; [reflexivity | exact Hw].
Qed.

Lemma full_spec x : pipe_ok x -> (pi_nwrite x =? w32 (pi_nread x + PIPESIZE)) = (count x =? PIPESIZE).
Proof.
  intros Hx. pose proof (count_range x). pose proof (pk_count x Hx) as Hc. unfold PIPESIZE in *.
  rewrite (nwrite_count x Hx) at 1. destruct Hx as [_ Hr _ _]. unfold u32, w32 in *.
  destruct (Z.eqb_spec (count x) 512) as [-> | Hne]; [apply Z.eqb_refl|].
  apply Z.eqb_neq. intros Heq. apply Hne.
  assert (Hd : (512 - count x) mod 4294967296 = 0).
  { replace (512 - count x) with ((pi_nread x + 512) - (pi_nread x + count x)) by lia.
    rewrite Zminus_mod, <- Heq, Z.sub_diag. reflexivity. }
  rewrite Z.mod_small in Hd by lia. lia.
Qed.

Lemma empty_spec x : pipe_ok x -> (pi_nread x =? pi_nwrite x) = (count x =? 0).
Proof.
  intros [_ Hr Hw _]. unfold count, w32, u32 in *. destruct (Z.eqb_spec (pi_nread x) (pi_nwrite x)) as [E | Hne].
  - rewrite E, Z.sub_diag. reflexivity.
  - symmetry. apply Z.eqb_neq. intros Hz. apply Z.mod_divide in Hz; [|lia]. destruct Hz as [k Hk]. lia.
Qed.

Lemma count_push c x : pipe_ok x -> count x < PIPESIZE -> count (push_byte c x) = count x + 1.
Proof.
  intros Hx Hlt. pose proof (count_range x). unfold PIPESIZE in *. unfold count at 1, push_byte.
  cbn [pi_nwrite pi_nread set_pi_nwrite set_pi_data]. unfold w32.
  rewrite <- Zminus_mod_idemp_l, Z.mod_mod, Zminus_mod_idemp_l by lia.
  replace (pi_nwrite x + 1 - pi_nread x) with (pi_nwrite x - pi_nread x + 1) by lia.
  rewrite <- Z.add_mod_idemp_l by lia. fold (w32 (pi_nwrite x - pi_nread x)). fold (count x).
  apply Z.mod_small. lia.
Qed.

(** A push puts a byte behind the others, as long as the buffer is not full. *)
Lemma push_spec c x :
  pipe_ok x -> count x < PIPESIZE ->
  pipe_ok (push_byte c x) /\ contents (push_byte c x) = contents x ++ [c].
Proof.
  intros Hx Hlt. pose proof (count_push c x Hx Hlt) as Hc. pose proof (count_range x) as H0.
  assert (Hw : pi_nwrite x mod 512 = (pi_nread x + count x) mod 512)
    by (rewrite (nwrite_count x Hx) at 1; apply w32_mod_512).
  pose proof Hx as [Hd Hr Hww _]. unfold PIPESIZE in *. split.
  - constructor; [cbn; rewrite length_insert; exact Hd | exact Hr | | unfold PIPESIZE; lia].
    cbn. unfold u32, w32. apply Z.mod_pos_bound. lia.
  - unfold contents at 1. rewrite Hc, Z2Nat.inj_add, Nat.add_1_r by lia. rewrite seq_S, map_app. f_equal.
    + unfold contents. apply map_ext_in. intros j Hj. apply in_seq in Hj.
      change (slot (push_byte c x) j) with (slot x j). cbn [pi_data push_byte set_pi_nwrite set_pi_data].
      rewrite !nth_lookup, list_lookup_insert_ne; [reflexivity|]. unfold slot, PIPESIZE. rewrite Hw.
      pose proof (Z.mod_pos_bound (pi_nread x + count x) 512 ltac:(lia)).
      pose proof (Z.mod_pos_bound (pi_nread x + Z.of_nat j) 512 ltac:(lia)).
      rewrite Z2Nat.inj_iff by lia. intros Heq.
      assert (Hdiv : (count x - Z.of_nat j) mod 512 = 0).
      { replace (count x - Z.of_nat j) with ((pi_nread x + count x) - (pi_nread x + Z.of_nat j)) by lia.
        rewrite Zminus_mod, Heq, Z.sub_diag. reflexivity. }
      rewrite Z.mod_small in Hdiv by lia. lia.
    + cbn [map]. f_equal. change (slot (push_byte c x)) with (slot x).
      cbn [pi_data push_byte set_pi_nwrite set_pi_data]. unfold slot, PIPESIZE. cbn [Nat.add].
      rewrite Z2Nat.id by lia. rewrite <- Hw, nth_lookup, list_lookup_insert_eq; [reflexivity|].
      rewrite Hd. pose proof (Z.mod_pos_bound (pi_nwrite x) 512 ltac:(lia)). lia.
Qed.

Definition pop_byte (x : pipe) : pipe := set_pi_nread (w32 (pi_nread x + 1)) x.

(** A pop takes the oldest byte. *)
Lemma pop_spec x :
  pipe_ok x -> 0 < count x ->
  pipe_ok (pop_byte x) /\ contents x = front_byte x :: contents (pop_byte x).
Proof.
  intros Hx Hpos. pose proof (pk_count x Hx) as Hle. unfold PIPESIZE in Hle.
  assert (Hc : count (pop_byte x) = count x - 1).
  { unfold count at 1, pop_byte. cbn [pi_nwrite pi_nread set_pi_nread]. unfold w32.
    rewrite Zminus_mod_idemp_r by lia.
    replace (pi_nwrite x - (pi_nread x + 1)) with (pi_nwrite x - pi_nread x - 1) by lia.
    rewrite <- Zminus_mod_idemp_l by lia. fold (w32 (pi_nwrite x - pi_nread x)). fold (count x).
    apply Z.mod_small. lia. }
  pose proof Hx as [Hd Hr Hw _]. split.
  - constructor; [exact Hd | | exact Hw | unfold PIPESIZE; lia].
    cbn. unfold u32, w32. apply Z.mod_pos_bound. lia.
  - unfold contents at 1. replace (Z.to_nat (count x)) with (S (Z.to_nat (count (pop_byte x)))) by lia.
    cbn [seq map]. f_equal.
    + unfold front_byte, slot. rewrite Z.add_0_r. reflexivity.
    + rewrite <- seq_shift, map_map. unfold contents. apply map_ext. intros j. f_equal.
      unfold slot, pop_byte, PIPESIZE. cbn [pi_nread set_pi_nread]. f_equal.
      rewrite <- (w32_mod_512 (pi_nread x + Z.of_nat (S j))), <- (w32_mod_512 (w32 _ + _)).
      f_equal. unfold w32. rewrite Z.add_mod_idemp_l by lia. f_equal. lia.
Qed.

(** ** What a call writes

    The bytes in pipe [p], and the bytes that a call has appended over the
    stretches [h] and the current one, from [s0] to [s]. *)
Definition pipe_bytes (p : Z) (s : kstate) : list Z :=
  match k_pipes s !! p with Some x => contents x | None => [] end.
Definition appends (p : Z) (seg : kstate * kstate) (bs : list Z) : Prop :=
  pipe_bytes p seg.2 = pipe_bytes p seg.1 ++ bs.
Definition wrote (p : Z) : hist -> kstate -> kstate -> list Z -> Prop := over (appends p).

Lemma appends_stay p s : appends p (s, s) [].
Proof. symmetry. apply app_nil_r. Qed.
Lemma appends_more p s s' s'' b b' : appends p (s, s') b -> appends p (s', s'') b' -> appends p (s, s'') (b ++ b').
Proof. unfold appends. cbn. intros E ->. rewrite E, app_assoc. reflexivity. Qed.

Lemma wrote_start p s : wrote p [] s s [].
Proof. apply over_start, appends_stay. Qed.

Lemma wrote_more p h s0 s s' bs b :
  wrote p h s0 s bs -> appends p (s, s') b -> wrote p h s0 s' (bs ++ b).
Proof. apply over_more, appends_more. Qed.

Lemma wrote_same p h s0 s s' bs : wrote p h s0 s bs -> k_pipes s' = k_pipes s -> wrote p h s0 s' bs.
Proof.
  intros Hw E. rewrite <- (app_nil_r bs). eapply wrote_more; [exact Hw|].
  unfold appends, pipe_bytes. cbn. rewrite E. symmetry. apply app_nil_r.
Qed.

Lemma wrote_switch p h s0 s s' bs : wrote p h s0 s bs -> wrote p (h ++ [(s0, s)]) s' s' bs.
Proof. apply over_switch, appends_stay. Qed.

(** A running process that holds the lock of pipe [p], in which [x] is. *)
Record in_pipe (i : nat) (p : Z) (x : pipe) (s : kstate) : Prop := {
  ip_running : running i 1 s;
  ip_lock : mine (LPipe p) s;
  ip_pipe : k_pipes s !! p = Some x;
  ip_ok : pipe_ok x }.

(** What the rest of the system may do while process [i] sleeps in an
    operation on pipe [p]: it hands the CPU back with the pipe's lock free,
    keeps the pipe well formed, and does not touch the user's buffer. *)
Record pipe_env (i : nat) (p : Z) (buf : Z -> Prop) (s s' : kstate) : Prop := {
  pe_resumes : resumes i (LPipe p) s';
  pe_pipe : exists x, k_pipes s' !! p = Some x /\ pipe_ok x;
  pe_buf va : buf va -> ubyte s' va = ubyte s va }.

Lemma get_pipe_ok p x s : k_pipes s !! p = Some x -> get_pipe p s = Ok x s.
Proof. unfold get_pipe. intros ->. reflexivity. Qed.

Lemma mykilled_ok i n s : running i n s -> 0 < n -> exists q, k_procs s !! i = Some q /\ mykilled s = Ok (p_killed q) s.
Proof.
  intros Hr Hn. pose proof (ru_entry i n s Hr) as [q Hq]. exists q. split; [exact Hq|].
  unfold mykilled. erewrite bind_ok by (eapply run_myproc; eassumption).
  erewrite bind_ok by reflexivity. erewrite bind_ok by (apply get_proc_ok, Hq). reflexivity.
Qed.

Lemma in_pipe_wakeup i p x ch s :
  in_pipe i p x s -> wakeup ch s = Ok tt (woken ch s) /\ in_pipe i p x (woken ch s).
Proof.
  intros [Hr Hm Hx Ho]. destruct (run_wakeup i 1 ch s Hr ltac:(lia)) as [E Hr'].
  split; [exact E | constructor; assumption].
Qed.

Lemma in_pipe_update i p x f s :
  in_pipe i p x s -> pipe_ok (f x) ->
  in_pipe i p (f x) (set_pipes (alter f p (k_pipes s)) s).
Proof.
  intros [Hr Hm Hx Ho] Hf. constructor; [eapply running_ext; [exact Hr | reflexivity..] | exact Hm | | exact Hf].
  cbn. rewrite lookup_alter_eq, Hx. reflexivity.
Qed.

Section Writing.
Context (i : nat) (p : Z) (buf : Z -> Prop) (g : Z -> option Z) (R : nat).

Definition sees (s : kstate) : Prop := forall va, buf va -> ubyte s va = g va.

(** Process [i] has left the pipe: why a write gives up. *)
Definition write_fails (s : kstate) : Prop :=
  running i 0 s /\ lock_free (LPipe p) s /\
  exists x, k_pipes s !! p = Some x /\ pipe_ok x /\ count x = PIPESIZE /\
    (pi_readopen x = 0 \/ exists q, k_procs s !! i = Some q /\ p_killed q <> 0).

Definition full_post (bs : list Z) (h : hist) (s0 : kstate) (room : bool) (s : kstate) : Prop :=
  wrote p h s0 s bs /\
  if room then sees s /\ exists x, in_pipe i p x s /\ count x < PIPESIZE else write_fails s.

Lemma write_stops bs h s0 s x :
  in_pipe i p x s -> wrote p h s0 s bs -> count x = PIPESIZE ->
  (pi_readopen x = 0 \/ exists q, k_procs s !! i = Some q /\ p_killed q <> 0) ->
  wp (pipe_env i p buf) R (full_post bs) h s0 ((release (LPipe p) ;; ret false) s).
Proof.
  intros [Hr Hm Hx Ho] Hw Hc Hwhy.
  destruct (run_release i 1 (LPipe p) s Hr ltac:(discriminate) ltac:(lia) Hm) as (E & Hr' & Hf).
  eapply wp_step; [exact E|]. apply wp_ok. split; [eapply wrote_same; [exact Hw | reflexivity]|].
  split; [exact Hr'|]. split; [exact Hf|]. exists x. auto.
Qed.

Lemma full_loop_spec bs fuel : forall h s0 s x,
  in_pipe i p x s -> wrote p h s0 s bs -> sees s -> (R <= length h + fuel)%nat ->
  wp (pipe_env i p buf) R (full_post bs) h s0 (pipe_full_loop p fuel s).
Proof.
  induction fuel as [|fuel IH]; intros h s0 s x Hin Hw Hs HR; cbn [pipe_full_loop].
  { apply wp_nofuel. lia. }
  pose proof Hin as [Hr Hm Hx Ho].
  eapply wp_step; [apply get_pipe_ok, Hx|]. rewrite full_spec by exact Ho.
  destruct (Z.eqb_spec (count x) PIPESIZE) as [Hc | Hc].
  2: { apply wp_ok. split; [exact Hw|]. split; [exact Hs|]. exists x. split; [exact Hin|].
       pose proof (pk_count x Ho). lia. }
  destruct (Z.eqb_spec (pi_readopen x) 0) as [Hro | Hro].
  { eapply wp_step; [reflexivity|]. eapply write_stops; eauto. }
  destruct (mykilled_ok i 1 s Hr ltac:(lia)) as (q & Hq & Ek).
  eapply wp_step; [erewrite bind_ok by exact Ek; reflexivity|].
  destruct (Z.eqb_spec (p_killed q) 0) as [Hk | Hk]; cbn [negb].
  2: { eapply write_stops; eauto. }
  destruct (in_pipe_wakeup i p x (ChPipeRead p) s Hin) as [Ew [Hr1 Hm1 Hx1 _]].
  eapply wp_step; [exact Ew|]. eapply wp_bind.
  { eapply (wp_sleep i) with (Q := fun h s0 _ s => wrote p h s0 s bs /\ sees s /\
      (R <= length h + fuel)%nat /\ exists x, in_pipe i p x s); try assumption; [discriminate|].
    intros s1 s' Em Ep _ _ Ecr He. split; [apply He|]. intros b q' Hq' s2 Hr2 Hm2.
    split; [|split; [|split]].
    - apply (wrote_same p _ s' s'); [|reflexivity]. apply wrote_switch. eapply wrote_same; [exact Hw | exact Ep].
    - intros va Hva. rewrite <- (Hs va Hva). transitivity (ubyte s' va); [reflexivity|].
      rewrite (pe_buf _ _ _ _ _ He va Hva). apply ubyte_ext; assumption.
    - rewrite length_app. cbn. lia.
    - destruct (pe_pipe _ _ _ _ _ He) as (x' & Hx' & Ho'). exists x'. constructor; assumption. }
  cbv beta. intros h' s0' _ s' (Hw' & Hs' & HR' & x' & Hin'). eapply IH; eassumption.
Qed.

(** [data] is what is left to write, at [addr]. *)
Definition write_post (bs data : list Z) (h : hist) (s0 : kstate) (done : bool) (s : kstate) : Prop :=
  if done then wrote p h s0 s (bs ++ data) /\ exists x, in_pipe i p x s
  else write_fails s /\ exists d, d `prefix_of` data /\ wrote p h s0 s (bs ++ d).

Lemma write_loop_spec `{Rounds} data : forall addr bs h s0 s x,
  (R <= rounds)%nat ->
  in_pipe i p x s -> wrote p h s0 s bs -> sees s ->
  (forall j c, data !! j = Some c -> buf (addr + Z.of_nat j) /\ g (addr + Z.of_nat j) = Some c) ->
  wp (pipe_env i p buf) R (write_post bs data) h s0 (pipewrite_loop p addr (length data) s).
Proof.
  induction data as [|c data IH]; intros addr bs h s0 s x HR Hin Hw Hs Hd; cbn [pipewrite_loop length].
  { apply wp_ok. split; [rewrite app_nil_r; exact Hw | eauto]. }
  eapply wp_bind; [eapply full_loop_spec; [eassumption.. | lia]|].
  intros h' s0' [|] s' (Hw' & Hroom).
  2: { apply wp_ok. split; [exact Hroom|]. exists []. split; [apply prefix_nil | rewrite app_nil_r; exact Hw']. }
  destruct Hroom as (Hs' & x' & Hin' & Hc').
  destruct (Hd 0%nat c eq_refl) as [Hb Hg]. rewrite Z.add_0_r in Hb, Hg.
  eapply wp_step.
  { unfold uload8. rewrite (Hs' addr Hb), Hg. reflexivity. }
  destruct (push_spec c x' (ip_ok _ _ _ _ Hin') Hc') as [Hok Hcont].
  pose proof (in_pipe_update i p x' (push_byte c) s' Hin' Hok) as Hin2.
  eapply wp_step; [reflexivity|].
  assert (Hw2 : wrote p h' s0' (set_pipes (alter (push_byte c) p (k_pipes s')) s') (bs ++ [c])).
  { eapply wrote_more; [exact Hw'|]. unfold appends, pipe_bytes. cbn [fst snd].
    rewrite (ip_pipe _ _ _ _ Hin2), (ip_pipe _ _ _ _ Hin'). exact Hcont. }
  eapply wp_mono.
  { eapply (IH (addr + 1) (bs ++ [c])); [exact HR | exact Hin2 | exact Hw2 | exact Hs'|].
    intros j c' Hj. replace (addr + 1 + Z.of_nat j) with (addr + Z.of_nat (S j)) by lia. apply Hd. exact Hj. }
  intros h3 s3 [|] s4; unfold write_post.
  - rewrite <- app_assoc. cbn [app]. auto.
  - intros (Hf & d & Hpre & Hw3). split; [exact Hf|]. exists (c :: d).
    split; [apply prefix_cons, Hpre|]. rewrite <- app_assoc in Hw3. exact Hw3.
Qed.
End Writing.

(** C10 (pipe.c, [pipewrite]): first in, first out.  Process [i] writes the
    [n] bytes [data] of its buffer at [addr] to a pipe.  Whatever the rest of
    the system does each time the call sleeps (readers and other writers change
    the pipe, signals arrive), as long as the pipe stays well formed and the
    user's buffer is not touched: the call does not panic, fault or spin; every
    stretch of it between two context switches only appends bytes behind those
    in the pipe; and when it returns, with the pipe's lock free, either the
    result is [n] and the appended bytes are [data], in order, nothing lost or
    duplicated, or the result is -1, a prefix of [data] has been appended, and
    the pipe is full with its read end closed or the process killed.  It
    exceeds the bound on wakeups only after that many sleeps. *)
Theorem pipewrite_fifo `{Rounds} i p addr data x s :
  running i 0 s -> lock_free (LPipe p) s -> k_pipes s !! p = Some x -> pipe_ok x ->
  (forall j c, data !! j = Some c -> ubyte s (addr + Z.of_nat j) = Some c) ->
  wp (pipe_env i p (fun va => addr <= va < addr + Z.of_nat (length data))) rounds
    (fun h s0 r s' => running i 0 s' /\ lock_free (LPipe p) s' /\
       (r = Z.of_nat (length data) /\ wrote p h s0 s' data \/
        r = -1 /\ write_fails i p s' /\ exists d, d `prefix_of` data /\ wrote p h s0 s' d))
    [] s (pipewrite p addr (Z.of_nat (length data)) s).
Proof.
  intros Hr Hl Hx Ho Hd. unfold pipewrite.
  destruct (run_acquire i 0 (LPipe p) s Hr ltac:(discriminate) Hl) as (E & Hr1 & Hm1).
  eapply wp_step; [exact E|]. rewrite Nat2Z.id. eapply wp_bind.
  { eapply (write_loop_spec i p _ (ubyte s) rounds data addr [] [] s (locked_state (LPipe p) s) x).
    - lia.
    - constructor; assumption.
    - eapply wrote_same; [apply wrote_start | reflexivity].
    - intros va _. reflexivity.
    - intros j c Hj. split; [pose proof (lookup_lt_Some _ _ _ Hj); lia | apply Hd, Hj]. }
  intros h s0 [|] s'; unfold write_post; cbn [app].
  - intros (Hw & x' & Hin). destruct (in_pipe_wakeup i p x' (ChPipeRead p) s' Hin) as [Ew [Hr2 Hm2 _ _]].
    eapply wp_step; [exact Ew|].
    destruct (run_release i 1 (LPipe p) _ Hr2 ltac:(discriminate) ltac:(lia) Hm2) as (Er & Hr3 & Hf3).
    eapply wp_step; [exact Er|]. apply wp_ok. split; [exact Hr3|]. split; [exact Hf3|]. left.
    split; [reflexivity|]. eapply wrote_same; [exact Hw | reflexivity].
  - intros (Hf & d & Hp & Hw). apply wp_ok. pose proof Hf as (Hr2 & Hl2 & _).
    split; [exact Hr2|]. split; [exact Hl2|]. right. eauto.
Qed.

(** ** Reading *)

Section Reading.
Context (i : nat) (p addr N : Z).

Lemma in_pipe_mem x s m : in_pipe i p x s -> in_pipe i p x (set_mem m s).
Proof. intros [Hr Hm Hx Ho]. constructor; try assumption. eapply running_ext; [exact Hr | reflexivity..]. Qed.

Lemma read_loop_spec n : forall k s x,
  in_pipe i p x s -> ubuf s addr N -> 0 <= k -> k + Z.of_nat n <= N ->
  exists s' x', let bs := take n (contents x) in
    piperead_loop p addr k n s = Ok (k + Z.of_nat (length bs)) s' /\ in_pipe i p x' s' /\
    contents x = bs ++ contents x' /\ pi_writeopen x' = pi_writeopen x /\
    (forall va, in_buf_at addr N va -> va < addr + k -> ubyte s' va = ubyte s va) /\
    (forall j c, bs !! j = Some c -> ubyte s' (addr + k + Z.of_nat j) = Some (c mod 256)).
Proof.
  assert (Hnil : forall s k j c, ([] : list Z) !! j = Some c -> ubyte s (addr + k + Z.of_nat j) = Some (c mod 256))
    by (intros s k [|j] c Hj; discriminate Hj).
  induction n as [|n IH]; intros k s x Hin Hu Hk Hn; cbn [piperead_loop].
  { exists s, x. cbn. rewrite Z.add_0_r. split; [reflexivity|]. split; [exact Hin|]. auto. }
  pose proof Hin as [_ _ Hx Ho]. erewrite bind_ok by (apply get_pipe_ok, Hx). cbv beta.
  rewrite empty_spec by exact Ho. destruct (Z.eqb_spec (count x) 0) as [Hc | Hc].
  { exists s, x. assert (contents x = []) as -> by (unfold contents; rewrite Hc; reflexivity).
    cbn. rewrite Z.add_0_r. split; [reflexivity|]. split; [exact Hin|]. auto. }
  pose proof (count_range x). destruct (pop_spec x Ho ltac:(lia)) as [Ho' Hcont].
  erewrite bind_ok by reflexivity. cbv beta.
  set (s1 := set_pipes (alter (fun x => set_pi_nread (w32 (pi_nread x + 1)) x) p (k_pipes s)) s).
  assert (Hin1 : in_pipe i p (pop_byte x) s1) by (apply in_pipe_update; assumption).
  assert (Hv : in_buf_at addr N (addr + k)) by (unfold in_buf_at; lia).
  destruct (ustore8_ok s1 addr N (addr + k) (front_byte x)) as (m' & Es & Hu' & Hnew & Hold);
    [eapply ubuf_ext; [| | exact Hu]; reflexivity | exact Hv|].
  erewrite bind_ok by exact Es. cbv beta.
  destruct (IH (k + 1) (set_mem m' s1) (pop_byte x)) as (s' & x' & E & Hin' & Hc' & Hwo & Hlow & Hhi);
    [apply in_pipe_mem, Hin1 | exact Hu' | lia | lia |].
  exists s', x'. rewrite Hcont. cbn [take length]. rewrite E. split; [f_equal; lia|].
  split; [exact Hin'|]. split; [cbn; rewrite <- Hc'; reflexivity|]. split; [exact Hwo|]. split.
  - intros va Hva Hlt. rewrite Hlow by (assumption || lia). rewrite Hold by (assumption || lia). reflexivity.
  - intros [|j] c Hj.
    + cbn in Hj. injection Hj as <-. rewrite Z.add_0_r, Hlow by (assumption || lia). exact Hnew.
    + replace (addr + k + Z.of_nat (S j)) with (addr + (k + 1) + Z.of_nat j) by lia. apply Hhi, Hj.
Qed.

(** What the rest of the system may do while the reader sleeps. *)
Record read_env (s s' : kstate) : Prop := {
  rd_resumes : resumes i (LPipe p) s';
  rd_pipe : exists x, k_pipes s' !! p = Some x /\ pipe_ok x;
  rd_buf : ubuf s' addr N }.

(** The stretches before the last took nothing from the pipe. *)
Definition quiet (h : hist) : Prop := Forall (fun seg => pipe_bytes p seg.2 = pipe_bytes p seg.1) h.

Definition empty_post (h : hist) (s0 : kstate) (ready : bool) (s : kstate) : Prop :=
  quiet h /\ pipe_bytes p s = pipe_bytes p s0 /\
  if ready
  then ubuf s addr N /\ exists x, in_pipe i p x s /\ (contents x = [] -> pi_writeopen x = 0)
  else running i 0 s /\ lock_free (LPipe p) s /\ exists q, k_procs s !! i = Some q /\ p_killed q <> 0.

Lemma empty_loop_spec R fuel : forall h s0 s x,
  in_pipe i p x s -> ubuf s addr N -> quiet h -> pipe_bytes p s = pipe_bytes p s0 ->
  (R <= length h + fuel)%nat ->
  wp read_env R empty_post h s0 (pipe_empty_loop p fuel s).
Proof.
  induction fuel as [|fuel IH]; intros h s0 s x Hin Hu Hq Hs HR; cbn [pipe_empty_loop].
  { apply wp_nofuel. lia. }
  pose proof Hin as [Hr Hm Hx Ho].
  eapply wp_step; [apply get_pipe_ok, Hx|]. rewrite empty_spec by exact Ho.
  destruct ((count x =? 0) && negb (pi_writeopen x =? 0)) eqn:Ht.
  2: { apply wp_ok. split; [exact Hq|]. split; [exact Hs|]. split; [exact Hu|]. exists x. split; [exact Hin|].
       intros Hc. apply (f_equal length) in Hc. rewrite contents_length in Hc. cbn in Hc.
       pose proof (count_range x). assert (count x = 0) as Hz by lia. rewrite Hz in Ht. cbn in Ht.
       destruct (Z.eqb_spec (pi_writeopen x) 0); [assumption | discriminate Ht]. }
  destruct (mykilled_ok i 1 s Hr ltac:(lia)) as (q & Hqi & Ek).
  eapply wp_step; [exact Ek|]. destruct (Z.eqb_spec (p_killed q) 0) as [Hk | Hk]; cbn [negb].
  2: { destruct (run_release i 1 (LPipe p) s Hr ltac:(discriminate) ltac:(lia) Hm) as (E & Hr' & Hf).
       eapply wp_step; [exact E|]. apply wp_ok. split; [exact Hq|]. split; [exact Hs|].
       split; [exact Hr'|]. split; [exact Hf|]. eauto. }
  eapply wp_bind.
  { eapply (wp_sleep i) with (Q := fun h s0 _ s => quiet h /\ pipe_bytes p s = pipe_bytes p s0 /\
      ubuf s addr N /\ (R <= length h + fuel)%nat /\ exists x, in_pipe i p x s);
      try assumption; [discriminate|].
    intros s1 s' _ Ep _ _ _ He. split; [apply He|]. intros b q' Hq' s2 Hr2 Hm2.
    split; [|split; [|split; [|split]]].
    - apply Forall_app. split; [exact Hq|]. repeat constructor. cbn. rewrite <- Hs. unfold pipe_bytes. rewrite Ep. reflexivity.
    - reflexivity.
    - eapply ubuf_ext; [| | apply (rd_buf _ _ He)]; reflexivity.
    - rewrite length_app. cbn. lia.
    - destruct (rd_pipe _ _ He) as (x' & Hx' & Ho'). exists x'. constructor; assumption. }
  cbv beta. intros h' s0' _ s' (Hq' & Hs' & Hu' & HR' & x' & Hin'). eapply IH; eassumption.
Qed.
End Reading.

(** C11 (pipe.c, [piperead]): reading takes bytes from the front of the pipe.
    Process [i] reads up to [n] bytes into its buffer at [addr].  Whatever the
    rest of the system does while the call sleeps, as long as the pipe stays
    well formed and the buffer stays mapped: the call does not panic, fault or
    spin, and takes nothing from the pipe before its last stretch.  When it
    returns, with the pipe's lock free, either the process has been killed, the
    result is -1 and the pipe is untouched, or the result is the number of
    bytes taken, the smaller of [n] and the number of bytes in the pipe; they
    are the oldest bytes, in order, and they are in the buffer.  With [n] > 0
    the result is 0 only when the pipe is empty and its write end closed. *)
Theorem piperead_fifo `{Rounds} i p addr n x s :
  running i 0 s -> lock_free (LPipe p) s -> k_pipes s !! p = Some x -> pipe_ok x ->
  0 <= n -> ubuf s addr n ->
  wp (read_env i p addr n) rounds
    (fun h s0 r s' => running i 0 s' /\ lock_free (LPipe p) s' /\ quiet p h /\
       (r = -1 /\ pipe_bytes p s' = pipe_bytes p s0 /\
          (exists q, k_procs s' !! i = Some q /\ p_killed q <> 0) \/
        exists bs, r = Z.of_nat (length bs) /\ pipe_bytes p s0 = bs ++ pipe_bytes p s' /\
          r = Z.min n (Z.of_nat (length (pipe_bytes p s0))) /\
          (forall j c, bs !! j = Some c -> ubyte s' (addr + Z.of_nat j) = Some (c mod 256)) /\
          (r = 0 -> 0 < n -> pipe_bytes p s0 = [] /\
             exists x', k_pipes s' !! p = Some x' /\ pi_writeopen x' = 0)))
    [] s (piperead p addr n s).
Proof.
  intros Hr Hl Hx Ho Hn Hu. unfold piperead.
  destruct (run_acquire i 0 (LPipe p) s Hr ltac:(discriminate) Hl) as (E & Hr1 & Hm1).
  eapply wp_step; [exact E|]. eapply wp_bind.
  { eapply (empty_loop_spec i p addr n rounds rounds [] s (locked_state (LPipe p) s) x).
    - constructor; assumption.
    - eapply ubuf_ext; [| | exact Hu]; reflexivity.
    - constructor.
    - reflexivity.
    - lia. }
  intros h s0 [|] s' (Hq & Hs & Hpost).
  2: { destruct Hpost as (Hr2 & Hl2 & Hk). apply wp_ok. split; [exact Hr2|]. split; [exact Hl2|].
       split; [exact Hq|]. left. auto. }
  destruct Hpost as (Hu' & x1 & Hin & Heof).
  destruct (read_loop_spec i p addr n (Z.to_nat n) 0 s' x1 Hin Hu' ltac:(lia) ltac:(lia))
    as (s2 & x2 & El & Hin2 & Hc & Hwo & _ & Hb).
  assert (Hlen : Z.of_nat (length (take (Z.to_nat n) (contents x1))) = Z.min n (Z.of_nat (length (contents x1))))
    by (rewrite length_take; lia).
  eapply wp_step; [exact El|].
  destruct (in_pipe_wakeup i p x2 (ChPipeWrite p) s2 Hin2) as [Ew [Hr3 Hm3 Hx3 _]].
  eapply wp_step; [exact Ew|].
  destruct (run_release i 1 (LPipe p) _ Hr3 ltac:(discriminate) ltac:(lia) Hm3) as (Er & Hr4 & Hf4).
  eapply wp_step; [exact Er|]. apply wp_ok. split; [exact Hr4|]. split; [exact Hf4|]. split; [exact Hq|]. right.
  assert (Hp0 : pipe_bytes p s0 = contents x1) by (rewrite <- Hs; unfold pipe_bytes; rewrite (ip_pipe _ _ _ _ Hin); reflexivity).
  exists (take (Z.to_nat n) (contents x1)). rewrite Hp0. split; [lia|]. split; [|split; [lia|split]].
  - transitivity (take (Z.to_nat n) (contents x1) ++ contents x2); [exact Hc|]. f_equal.
    unfold pipe_bytes. cbn [k_pipes unlocked_state set_locks set_cpu]. rewrite Hx3. reflexivity.
  - intros j c Hj. specialize (Hb j c Hj). rewrite Z.add_0_r in Hb. exact Hb.
  - intros Hz Hpos. assert (contents x1 = []) as Hnil by (apply length_zero_iff_nil; lia).
    split; [exact Hnil|]. exists x2. split; [exact Hx3|]. rewrite Hwo. apply Heof, Hnil.
Qed.

(** ** Concrete instances

    Process 0 runs with one page mapped at address 0, which holds 7 and 8, and
    there is a pipe whose counters are about to wrap around. *)
Definition pipe_mem : mem :=
  store8 (store8 (store32 (store32 (k_mem run0) 0x80401000 0x403007) 0x80403000 0x404007)
    0x80404000 7) 0x80404001 8.
Definition pipe0 : pipe := mkPipe (<[511%nat := 5]> (replicate 512 6)) 0xffffffff 1 1 1.
Definition prun : kstate :=
  set_pipes {[0x80405000 := pipe0]} (set_mem pipe_mem (set_cpu (set_c_cr3 0x401000 (k_cpu run0)) run0)).

Lemma pipe0_ok : pipe_ok pipe0.
Proof. constructor; [reflexivity | split; discriminate || reflexivity | split; discriminate || reflexivity | discriminate]. Qed.

Lemma prun_running : running 0 0 prun.
Proof.
  constructor; [|reflexivity | reflexivity | eexists; reflexivity | split; reflexivity].
  destruct (run0_kinv) as [[H1 H2 H3] _ _ _ _ _ _ _ _]. constructor; assumption.
Qed.

Lemma prun_trans va : 0 <= va < 2 -> utrans prun va = Some (0x404000 + va, true, true).
Proof. intros Hv. assert (va = 0 \/ va = 1) as [-> | ->] by lia; vm_compute; reflexivity. Qed.

Lemma prun_stable m' :
  (forall a, ~ 0x80404000 <= a < 0x80404002 -> load8 m' a = load8 (k_mem prun) a) ->
  forall va, 0 <= va < 2 -> utrans (set_mem m' prun) va = utrans prun va.
Proof.
  intros Hm va Hv.
  assert (E1 : load32 m' 0x80401000 = load32 (k_mem prun) 0x80401000)
    by (apply load32_ext; intros; apply Hm; lia).
  assert (E2 : load32 m' 0x80403000 = load32 (k_mem prun) 0x80403000)
    by (apply load32_ext; intros; apply Hm; lia).
  rewrite prun_trans by exact Hv. unfold utrans, hw_translate.
  change (P2V (c_cr3 (k_cpu (set_mem m' prun)))) with 0x80401000. cbn [k_mem set_mem].
  assert (va = 0 \/ va = 1) as Hva by lia.
  assert (PDX (w32 va) = 0 /\ PTX (w32 va) = 0) as [-> ->] by (destruct Hva as [-> | ->]; split; reflexivity).
  change (0x80401000 + 4 * 0) with 0x80401000. rewrite E1.
  change (load32 (k_mem prun) 0x80401000) with 0x403007.
  change (P2V (PTE_ADDR 0x403007) + 4 * 0) with 0x80403000. rewrite E2.
  change (load32 (k_mem prun) 0x80403000) with 0x404007.
  destruct Hva as [-> | ->]; reflexivity.
Qed.

Lemma prun_ubuf : ubuf prun 0 2.
Proof.
  constructor; unfold in_buf_at.
  - intros va Hv. rewrite prun_trans by exact Hv. eauto.
  - intros va va' pa pa' u u' w w' Hv Hv'. rewrite !prun_trans by assumption.
    intros E E' Heq. injection E as <- _ _. injection E' as <- _ _.
    unfold P2V, KERNBASE in Heq. rewrite !w32_small in Heq by (unfold u32; lia). lia.
  - intros m' Hm. apply prun_stable. intros a Ha. apply Hm. intros (va & pa & u & w & Hv & E & ->).
    unfold in_buf_at in Hv. rewrite prun_trans in E by exact Hv. injection E as <- _ _. apply Ha.
    unfold P2V, KERNBASE. rewrite w32_small by (unfold u32; lia). lia.
Qed.

Definition rounds4 : Rounds := {| rounds := 4 |}.

Lemma pipewrite_fifo_witness :
  wp (pipe_env 0 0x80405000 (fun va => 0 <= va < 0 + 2)) 4
    (fun h s0 r s' => running 0 0 s' /\ lock_free (LPipe 0x80405000) s' /\
       (r = 2 /\ wrote 0x80405000 h s0 s' [7; 8] \/
        r = -1 /\ write_fails 0 0x80405000 s' /\
          exists d, d `prefix_of` [7; 8] /\ wrote 0x80405000 h s0 s' d))
    [] prun (@pipewrite rounds4 0x80405000 0 2 prun).
Proof.
  apply (@pipewrite_fifo rounds4 0 0x80405000 0 [7; 8] pipe0).
  - exact prun_running.
  - split; reflexivity.
  - reflexivity.
  - exact pipe0_ok.
  - intros [|[|j]] c Hj; [| |destruct j; discriminate Hj]; injection Hj as <-; vm_compute; reflexivity.
Defined.

Definition value {A} (r : result kstate A) : option A := match r with Ok a _ => Some a | _ => None end.

Lemma piperead_fifo_witness :
  exists s' : kstate, @piperead rounds4 0x80405000 0 2 prun = Ok 2 s' /\
    pipe_bytes 0x80405000 prun = [5; 6] ++ pipe_bytes 0x80405000 s' /\ ubyte s' 0 = Some 5.
Proof.
  assert (W := @piperead_fifo rounds4 0 0x80405000 0 2 pipe0 prun prun_running (conj eq_refl eq_refl)
    eq_refl pipe0_ok ltac:(lia) prun_ubuf).
  assert (V : value (@piperead rounds4 0x80405000 0 2 prun) = Some 2) by (vm_compute; reflexivity).
  assert (P : pipe_bytes 0x80405000 prun = [5; 6]) by (vm_compute; reflexivity).
  remember (@piperead rounds4 0x80405000 0 2 prun) as r eqn:Er. clear Er. rewrite P.
  destruct r as [a s'| | | | |]; try discriminate V. injection V as ->. exists s'. split; [reflexivity|].
  inversion W as [h s0 a s1 HQ Eh Es Ea | |]; subst.
  destruct HQ as (_ & _ & _ & [(E & _) | (bs & Ha & Hp & _ & Hb & _)]); [discriminate E|].
  rewrite P in Hp. destruct bs as [|b [|b' [|]]]; try discriminate Ha; try discriminate Hp.
  injection Hp as <- <- Hp'. split; [cbn; rewrite <- Hp'; reflexivity | apply (Hb 0%nat 5 eq_refl)].
Defined.
