(* ===== verification/File.v ===== *)
(** * solution/file.c: the file table, and [pipealloc] of pipe.c *)

From Stdlib Require Import ZArith Lia FunctionalExtensionality.
From stdpp Require Import base list strings gmap.
From S2P Require Import Prelude Mem Mmu Kernel Spinlock Kalloc Vm VmFacts Sched Bio Log Fs Uaccess Pipe.

Definition set_f_type v f := mkFile v (f_ref f) (f_readable f) (f_writable f) (f_pipe f) (f_ip f) (f_off f).
Definition set_f_ref v f := mkFile (f_type f) v (f_readable f) (f_writable f) (f_pipe f) (f_ip f) (f_off f).
Definition set_f_readable v f := mkFile (f_type f) (f_ref f) v (f_writable f) (f_pipe f) (f_ip f) (f_off f).
Definition set_f_writable v f := mkFile (f_type f) (f_ref f) (f_readable f) v (f_pipe f) (f_ip f) (f_off f).
Definition set_f_pipe v f := mkFile (f_type f) (f_ref f) (f_readable f) (f_writable f) v (f_ip f) (f_off f).
Definition set_f_ip v f := mkFile (f_type f) (f_ref f) (f_readable f) (f_writable f) (f_pipe f) v (f_off f).
Definition set_f_off v f := mkFile (f_type f) (f_ref f) (f_readable f) (f_writable f) (f_pipe f) (f_ip f) v.

Definition get_file (i : nat) : K file := fun s =>
  match k_files s !! i with Some f => Ok f s | None => Fault end.
Definition upd_file (i : nat) (g : file -> file) : K unit :=
  modify (fun s => set_files (alter g i (k_files s)) s).

Definition fileinit : K unit := initlock LFtable "ftable".

Fixpoint find_file (fs : list file) (i : nat) : option nat :=
  match fs with
  | [] => None
  | f :: fs' => if f_ref f =? 0 then Some i else find_file fs' (S i)
  end.

Definition filealloc : K (option nat) :=
  acquire LFtable ;;
  let! fs := gets k_files in
  match find_file fs 0 with
  | Some i => upd_file i (set_f_ref 1) ;; release LFtable ;; ret (Some i)
  | None => release LFtable ;; ret None
  end.

Definition filedup (i : nat) : K nat :=
  acquire LFtable ;;
  let! f := get_file i in
  if f_ref f <? 1 then panic "filedup"
  else
    upd_file i (fun f => set_f_ref (f_ref f + 1) f) ;;
    release LFtable ;;
    ret i.

Definition fileclose `{Image, Rounds} (i : nat) : K unit :=
  acquire LFtable ;;
  let! f := get_file i in
  if f_ref f <? 1 then panic "fileclose"
  else
    upd_file i (fun f => set_f_ref (f_ref f - 1) f) ;;
    let! ff := get_file i in
    if 0 <? f_ref ff then release LFtable
    else
      upd_file i (set_f_ref 0) ;;
      upd_file i (set_f_type FD_NONE) ;;
      release LFtable ;;
      match f_type ff with
      | FD_PIPE => pipeclose (f_pipe ff) (negb (f_writable ff =? 0))
      | FD_INODE =>
          begin_op ;;
          let! ip := deref (f_ip ff) in
          iput ip ;;
          end_op
      | FD_NONE => ret tt
      end.

(** The metadata, or [None] for the result -1. *)
Definition filestat `{Rounds} (i : nat) : K (option stat) :=
  let! f := get_file i in
  match f_type f with
  | FD_INODE =>
      let! ip := deref (f_ip f) in
      ilock ip ;;
      let! st := stati ip in
      iunlock ip ;;
      ret (Some st)
  | _ => ret None
  end.

Definition fileread `{Rounds} (dv : devsw_t) (i : nat) (addr n : Z) : K Z :=
  let! f := get_file i in
  if f_readable f =? 0 then ret (-1)
  else
    match f_type f with
    | FD_PIPE => piperead (f_pipe f) addr n
    | FD_INODE =>
        let! ip := deref (f_ip f) in
        ilock ip ;;
        let! f := get_file i in
        let! r := readi dv ip (f_off f) (w32 n) in
        let! r :=
          match r with
          | None => ret (-1)
          | Some bs => ustore addr bs ;; ret (Z.of_nat (length bs))
          end in
        when (0 <? r) (upd_file i (fun f => set_f_off (w32 (f_off f + r)) f)) ;;
        iunlock ip ;;
        ret r
    | FD_NONE => panic "fileread"
    end.

(** Bytes per transaction. *)
Definition write_max : Z := (MAXOPBLOCKS - 1 - 1 - 2) / 2 * 512.

Fixpoint filewrite_loop `{Rounds} (dv : devsw_t) (i ip : nat) (addr n done : Z) (fuel : nat) : K Z :=
  match fuel with
  | O => nofuel
  | S fu =>
      if done <? n then
        let n1 := Z.min (n - done) write_max in
        begin_op ;;
        ilock ip ;;
        let! f := get_file i in
        let! src := uload (addr + done) (Z.to_nat n1) in
        let! r := writei dv ip src (f_off f) n1 in
        when (0 <? r) (upd_file i (fun f => set_f_off (w32 (f_off f + r)) f)) ;;
        iunlock ip ;;
        end_op ;;
        if r <? 0 then ret done
        else if negb (r =? n1) then panic "short filewrite"
        else filewrite_loop dv i ip addr n (done + r) fu
      else ret done
  end.

Definition filewrite `{Rounds} (dv : devsw_t) (i : nat) (addr n : Z) : K Z :=
  let! f := get_file i in
  if f_writable f =? 0 then ret (-1)
  else
    match f_type f with
    | FD_PIPE => pipewrite (f_pipe f) addr n
    | FD_INODE =>
        let! ip := deref (f_ip f) in
        let! done := filewrite_loop dv i ip addr n 0 (S (S (Z.to_nat (n / write_max)))) in
        ret (if done =? n then n else -1)
    | FD_NONE => panic "filewrite"
    end.

(** ** pipe.c *)

(** sizeof(struct spinlock): the data of a pipe starts there. *)
Definition pipe_data_off : Z := 52.

(** The pipe in page [p] whose memory is [m]; the data bytes are what the
    page holds. *)
Definition new_pipe (m : mem) (p : Z) : pipe :=
  mkPipe (map (fun i => m (p + pipe_data_off + Z.of_nat i)) (seq 0 (Z.to_nat PIPESIZE))) 0 0 1 1.

Definition close_if `{Image, Rounds} (f : option nat) : K unit :=
  match f with Some i => fileclose i | None => ret tt end.

(** The two files, or [None] for the result -1. *)
Definition pipealloc `{Image, Rounds} : K (option (nat * nat)) :=
  let! f0 := filealloc in
  match f0 with
  | None => ret None
  | Some i0 =>
      let! f1 := filealloc in
      match f1 with
      | None => close_if f0 ;; ret None
      | Some i1 =>
          let! p := kalloc in
          if p =? 0 then close_if f0 ;; close_if f1 ;; ret None
          else
            modify (fun s => set_pipes (<[p := new_pipe (k_mem s) p]> (k_pipes s)) s) ;;
            initlock (LPipe p) "pipe" ;;
            upd_file i0 (fun f => set_f_pipe p (set_f_writable 0 (set_f_readable 1 (set_f_type FD_PIPE f)))) ;;
            upd_file i1 (fun f => set_f_pipe p (set_f_writable 1 (set_f_readable 0 (set_f_type FD_PIPE f)))) ;;
            ret (Some (i0, i1))
      end
  end.
