(* ===== verification/Proc.v ===== *)
(** * solution/proc.c: creating and ending processes

    [userinit], [fork], [exit] and [forkret], which use the file system; the
    rest of proc.c is in Sched. *)

From Stdlib Require Import ZArith Lia FunctionalExtensionality.
From stdpp Require Import base list strings gmap.
From S2P Require Import Prelude Mem Mmu Kernel Spinlock Kalloc Vm VmFacts Sched Bio Log Fs Uaccess Pipe File.

Definition set_tf_eax v t := mkTrapframe (tf_edi t) (tf_esi t) (tf_ebp t) (tf_oesp t) (tf_ebx t) (tf_edx t) (tf_ecx t) v (tf_gs t) (tf_fs t) (tf_es t) (tf_ds t) (tf_trapno t) (tf_err t) (tf_eip t) (tf_cs t) (tf_eflags t) (tf_esp t) (tf_ss t).
Definition set_tf_eip v t := mkTrapframe (tf_edi t) (tf_esi t) (tf_ebp t) (tf_oesp t) (tf_ebx t) (tf_edx t) (tf_ecx t) (tf_eax t) (tf_gs t) (tf_fs t) (tf_es t) (tf_ds t) (tf_trapno t) (tf_err t) v (tf_cs t) (tf_eflags t) (tf_esp t) (tf_ss t).
Definition set_tf_esp v t := mkTrapframe (tf_edi t) (tf_esi t) (tf_ebp t) (tf_oesp t) (tf_ebx t) (tf_edx t) (tf_ecx t) (tf_eax t) (tf_gs t) (tf_fs t) (tf_es t) (tf_ds t) (tf_trapno t) (tf_err t) (tf_eip t) (tf_cs t) (tf_eflags t) v (tf_ss t).

(** safestrcpy into a field: at most [n - 1] bytes and a NUL; the bytes after
    it stay. *)
Fixpoint safestrcpy_bytes (old src : list Z) (n : nat) : list Z :=
  match n, old with
  | S (S _ as n'), _ :: old' =>
      match src with
      | c :: src' => if c =? 0 then 0 :: old' else c :: safestrcpy_bytes old' src' n'
      | [] => 0 :: old'
      end
  | S O, _ :: old' => 0 :: old'
  | _, _ => old
  end.
Definition NAMELEN : nat := 16.

(** ["initcode"] and ["/"]. *)
Definition initcode_name : list Z := [105; 110; 105; 116; 99; 111; 100; 101].
Definition root_path : list Z := [47].
Definition FL_IF : Z := 0x200.
Definition user_tf : trapframe :=
  let cs := Z.lor (Z.shiftl (Z.of_nat SEG_UCODE) 3) DPL_USER in
  let ds := Z.lor (Z.shiftl (Z.of_nat SEG_UDATA) 3) DPL_USER in
  mkTrapframe 0 0 0 0 0 0 0 0 0 0 ds ds 0 0 0 cs FL_IF PGSIZE ds.

Definition userinit `{Image, Rounds} (dv : devsw_t) : K unit :=
  let! p := allocproc in
  modify (set_initproc p) ;;
  let! i := deref p in
  let! pgdir := setupkvm in
  upd_proc i (set_p_pgdir pgdir) ;;
  if pgdir =? 0 then panic "userinit: out of memory?"
  else
    inituvm pgdir img_initcode img_initcode_size ;;
    upd_proc i (set_p_sz PGSIZE) ;;
    upd_proc i (set_p_tf user_tf) ;;
    upd_proc i (fun p => set_p_name (safestrcpy_bytes (p_name p) initcode_name NAMELEN) p) ;;
    let! cwd := namei dv root_path in
    upd_proc i (set_p_cwd cwd) ;;
    acquire LPtable ;;
    upd_proc i (set_p_state RUNNABLE) ;;
    release LPtable.

(** Duplicate the open files of [cur] into [np], descriptors [fd] on. *)
Fixpoint fork_files (cur np fd n : nat) : K unit :=
  match n with
  | O => ret tt
  | S n' =>
      let! p := get_proc cur in
      match p_ofile p !! fd with
      | Some (Some f) =>
          let! f' := filedup f in
          upd_proc np (fun q => set_p_ofile (<[fd := Some f']> (p_ofile q)) q)
      | _ => ret tt
      end ;;
      fork_files cur np (S fd) n'
  end.

Definition fork `{Image} : K Z :=
  let! c := myproc in
  let! np := allocproc in
  match np with
  | None => ret (-1)
  | Some j =>
      let! i := deref c in
      let! p := get_proc i in
      let! pgdir := copyuvm (p_pgdir p) (p_sz p) (p_hugesz p) in
      upd_proc j (set_p_pgdir pgdir) ;;
      if pgdir =? 0 then
        let! np := get_proc j in
        kfree (p_kstack np) ;;
        upd_proc j (set_p_kstack 0) ;;
        upd_proc j (set_p_state UNUSED) ;;
        ret (-1)
      else
        upd_proc j (set_p_sz (p_sz p)) ;;
        upd_proc j (set_p_hugesz (p_hugesz p)) ;;
        upd_proc j (set_p_parent c) ;;
        upd_proc j (set_p_tf (p_tf p)) ;;
        upd_proc j (fun q => set_p_tf (set_tf_eax 0 (p_tf q)) q) ;;
        fork_files i j 0 NOFILE ;;
        let! cwd := deref (p_cwd p) in
        let! cwd := idup cwd in
        upd_proc j (set_p_cwd (Some cwd)) ;;
        upd_proc j (fun q => set_p_name (safestrcpy_bytes (p_name q) (p_name p) NAMELEN) q) ;;
        let! np := get_proc j in
        acquire LPtable ;;
        upd_proc j (set_p_state RUNNABLE) ;;
        release LPtable ;;
        ret (p_pid np)
  end.

(** Close the open files from descriptor [fd] on. *)
Fixpoint exit_files `{Image, Rounds} (cur fd n : nat) : K unit :=
  match n with
  | O => ret tt
  | S n' =>
      let! p := get_proc cur in
      match p_ofile p !! fd with
      | Some (Some f) =>
          fileclose f ;;
          upd_proc cur (fun q => set_p_ofile (<[fd := None]> (p_ofile q)) q)
      | _ => ret tt
      end ;;
      exit_files cur (S fd) n'
  end.

Definition proc_chan (p : option nat) : chan :=
  match p with Some i => ChProc i | None => NoChan end.

(** Hand the children of [cur] to init, entries [i] on. *)
Fixpoint exit_children (cur : option nat) (i n : nat) : K unit :=
  match n with
  | O => ret tt
  | S n' =>
      let! p := get_proc i in
      (if decide (p_parent p = cur) then
         let! ini := gets k_initproc in
         upd_proc i (set_p_parent ini) ;;
         when (bool_decide (p_state p = ZOMBIE)) (wakeup1 (proc_chan ini))
       else ret tt) ;;
      exit_children cur (S i) n'
  end.

Definition exit `{Image, Rounds} : K unit :=
  let! c := myproc in
  let! ini := gets k_initproc in
  if decide (c = ini) then panic "init exiting"
  else
    let! i := deref c in
    exit_files i 0 NOFILE ;;
    begin_op ;;
    let! p := get_proc i in
    let! cwd := deref (p_cwd p) in
    iput cwd ;;
    end_op ;;
    upd_proc i (set_p_cwd None) ;;
    acquire LPtable ;;
    let! p := get_proc i in
    wakeup1 (proc_chan (p_parent p)) ;;
    exit_children c 0 NPROC ;;
    upd_proc i (set_p_state ZOMBIE) ;;
    sched ;;
    panic "zombie exit".

(** [first] is the static variable of [forkret]; the result is its new value. *)
Definition forkret `{Rounds} (first : bool) : K bool :=
  release LPtable ;;
  when first (iinit ROOTDEV ;; initlog ROOTDEV) ;;
  ret false.
