(* ===== verification/Exec.v ===== *)
(** * solution/exec.c, and [loaduvm] of vm.c

    [exec] gets the path and the arguments as byte strings: the user memory
    they are read from does not change while the call runs, because no other
    process shares it and exec writes to the new address space. *)

From Stdlib Require Import ZArith Lia FunctionalExtensionality.
From stdpp Require Import base list strings gmap.
From S2P Require Import Prelude Mem Mmu Kernel Spinlock Kalloc Vm VmFacts Sched Bio Log Fs Uaccess Pipe File Proc.

(** ** vm.c *)

Fixpoint loaduvm_loop `{Rounds} (dv : devsw_t) (pgdir addr : Z) (ip : nat) (offset sz i : Z)
    (fuel : nat) : K Z :=
  match fuel with
  | O => nofuel
  | S f =>
      if i <? sz then
        let! pte := walkpgdir pgdir (w32 (addr + i)) false in
        if pte =? 0 then panic "loaduvm: address should exist"
        else
          let! e := ld32 pte in
          let pa := PTE_ADDR e in
          let n := if sz - i <? PGSIZE then sz - i else PGSIZE in
          let! r := readi dv ip (w32 (offset + i)) n in
          match r with
          | Some bs =>
              kstore (P2V pa) bs ;;
              if Z.of_nat (length bs) =? n
              then loaduvm_loop dv pgdir addr ip offset sz (i + PGSIZE) f
              else ret (-1)
          | None => ret (-1)
          end
      else ret 0
  end.

Definition loaduvm `{Rounds} (dv : devsw_t) (pgdir addr : Z) (ip : nat) (offset sz : Z) : K Z :=
  if negb (addr mod PGSIZE =? 0) then panic "loaduvm: addr must be page aligned"
  else loaduvm_loop dv pgdir addr ip offset sz 0 (S (S (Z.to_nat (sz / PGSIZE)))).

(** ** elf.h *)

Definition ELF_MAGIC : Z := 0x464C457F.
Definition ELF_PROG_LOAD : Z := 1.
Definition ELFHDR_SIZE : Z := 52.
Definition PROGHDR_SIZE : Z := 32.
(** The fields [exec] uses. *)
Record elfhdr : Type := mkElfhdr { elf_magic : Z; elf_entry : Z; elf_phoff : Z; elf_phnum : Z }.
Definition decode_elfhdr (l : list Z) : elfhdr :=
  mkElfhdr (le32 l 0) (le32 l 24) (le32 l 28) (le16 l 44).
Record proghdr : Type := mkProghdr {
  ph_type : Z; ph_off : Z; ph_vaddr : Z; ph_filesz : Z; ph_memsz : Z }.
Definition decode_proghdr (l : list Z) : proghdr :=
  mkProghdr (le32 l 0) (le32 l 4) (le32 l 8) (le32 l 16) (le32 l 20).

(** ** exec.c *)

(** The [n] program headers from file offset [off] on; the size of the image,
    or [None] for [goto bad]. *)
Fixpoint exec_load `{Image, Rounds} (dv : devsw_t) (pgdir : Z) (ip : nat) (sz off : Z) (n : nat)
    : K (option Z) :=
  match n with
  | O => ret (Some sz)
  | S n' =>
      let! r := readi dv ip (w32 off) PROGHDR_SIZE in
      match r with
      | None => ret None
      | Some bs =>
          if negb (Z.of_nat (length bs) =? PROGHDR_SIZE) then ret None
          else
            let ph := decode_proghdr bs in
            if negb (ph_type ph =? ELF_PROG_LOAD) then exec_load dv pgdir ip sz (off + PROGHDR_SIZE) n'
            else if ph_memsz ph <? ph_filesz ph then ret None
            else if w32 (ph_vaddr ph + ph_memsz ph) <? ph_vaddr ph then ret None
            else
              let! sz := allocuvm pgdir sz (w32 (ph_vaddr ph + ph_memsz ph)) in
              if sz =? 0 then ret None
              else if negb (ph_vaddr ph mod PGSIZE =? 0) then ret None
              else
                let! r := loaduvm dv pgdir (ph_vaddr ph) ip (ph_off ph) (ph_filesz ph) in
                if r <? 0 then ret None
                else exec_load dv pgdir ip sz (off + PROGHDR_SIZE) n'
      end
  end.

(** Push the argument strings; [argc] are on the stack, at the addresses
    [ptrs].  The stack pointer and the addresses, or [None] for [goto bad]. *)
Fixpoint exec_args (pgdir sp argc : Z) (ptrs : list Z) (argv : list (list Z))
    : K (option (Z * list Z)) :=
  match argv with
  | [] => ret (Some (sp, ptrs))
  | a :: argv' =>
      if MAXARG <=? argc then ret None
      else
        let sp := Z.land (w32 (sp - (Z.of_nat (length a) + 1))) (w32 (Z.lnot 3)) in
        let! r := copyout pgdir sp (a ++ [0]) in
        if r <? 0 then ret None
        else exec_args pgdir sp (argc + 1) (ptrs ++ [sp]) argv'
  end.

(** The element of the path after the last slash. *)
Fixpoint last_elem (last path : list Z) : list Z :=
  match path with
  | [] => last
  | c :: path' => if c =? slash then last_elem path' path' else last_elem last path'
  end.

Definition bad `{Image, Rounds} (pgdir : Z) (ip : option nat) : K Z :=
  when (negb (pgdir =? 0)) (freevm pgdir) ;;
  match ip with
  | Some ip => iunlockput ip ;; end_op
  | None => ret tt
  end ;;
  ret (-1).

(** The second half: the stack and the switch to the new image. *)
Definition exec_image `{Image} (cur : option nat) (path : list Z) (argv : list (list Z))
    (pgdir entry sz : Z) : K (option unit) :=
  let sz := PGROUNDUP sz in
  let! sz := allocuvm pgdir sz (w32 (sz + 2 * PGSIZE)) in
  if sz =? 0 then ret None
  else
    clearpteu pgdir (w32 (sz - 2 * PGSIZE)) ;;
    let! r := exec_args pgdir sz 0 [] argv in
    match r with
    | None => ret None
    | Some (sp, ptrs) =>
        let argc := Z.of_nat (length argv) in
        let ustack := [0xffffffff; argc; w32 (sp - (argc + 1) * 4)] ++ ptrs ++ [0] in
        let sp := w32 (sp - (3 + argc + 1) * 4) in
        let! r := copyout pgdir sp (mjoin (map bytes32 ustack)) in
        if r <? 0 then ret None
        else
          let! i := deref cur in
          upd_proc i (fun p => set_p_name (safestrcpy_bytes (p_name p) (last_elem path path) NAMELEN) p) ;;
          let! p := get_proc i in
          upd_proc i (set_p_pgdir pgdir) ;;
          upd_proc i (set_p_sz sz) ;;
          upd_proc i (fun p => set_p_tf (set_tf_eip entry (p_tf p)) p) ;;
          upd_proc i (fun p => set_p_tf (set_tf_esp sp (p_tf p)) p) ;;
          upd_proc i (set_p_hugesz 0) ;;
          switchuvm cur ;;
          freevm (p_pgdir p) ;;
          ret (Some tt)
    end.

Definition exec `{Image, Rounds} (dv : devsw_t) (path : list Z) (argv : list (list Z)) : K Z :=
  let! cur := myproc in
  begin_op ;;
  let! r := namei dv path in
  match r with
  | None => end_op ;; cprintf "exec: fail\n" ;; ret (-1)
  | Some ip =>
      ilock ip ;;
      let! r := readi dv ip 0 ELFHDR_SIZE in
      match r with
      | None => bad 0 (Some ip)
      | Some bs =>
          let elf := decode_elfhdr bs in
          if negb (Z.of_nat (length bs) =? ELFHDR_SIZE) then bad 0 (Some ip)
          else if negb (elf_magic elf =? ELF_MAGIC) then bad 0 (Some ip)
          else
            let! pgdir := setupkvm in
            if pgdir =? 0 then bad 0 (Some ip)
            else
              let! r := exec_load dv pgdir ip 0 (elf_phoff elf) (Z.to_nat (elf_phnum elf)) in
              match r with
              | None => bad pgdir (Some ip)
              | Some sz =>
                  iunlockput ip ;;
                  end_op ;;
                  let! r := exec_image cur path argv pgdir (elf_entry elf) sz in
                  match r with
                  | None => bad pgdir None
                  | Some _ => ret 0
                  end
              end
      end
  end.
