(* ===== verification/Syscall.v ===== *)
(** * solution/syscall.c: fetching system-call arguments

    The fetch functions return the value, or [None] for the result -1. *)

From Stdlib Require Import ZArith Lia FunctionalExtensionality.
From stdpp Require Import base list strings gmap.
From S2P Require Import Prelude Mem Mmu Kernel Spinlock Kalloc Vm VmFacts Sched Runs Bio Uaccess Pipe.

Definition curproc : K proc :=
  let! c := myproc in
  let! i := deref c in
  get_proc i.

Definition fetchint (addr : Z) : K (option Z) :=
  let! p := curproc in
  if (p_sz p <=? addr) || (p_sz p <? w32 (addr + 4)) then ret None
  else
    let! v := uload32 addr in
    ret (Some (s32 v)).

(** The loop of [fetchstr], at most [n] bytes from [s] on. *)
Fixpoint fetchstr_loop (s : Z) (n : nat) : K (option (list Z)) :=
  match n with
  | O => ret None
  | S n' =>
      let! c := uload8 s in
      if c =? 0 then ret (Some [])
      else
        let! r := fetchstr_loop (s + 1) n' in
        ret (cons c <$> r)
  end.
Definition fetchstr (addr : Z) : K (option (list Z)) :=
  let! p := curproc in
  if p_sz p <=? addr then ret None
  else fetchstr_loop addr (Z.to_nat (p_sz p - addr)).

Definition argint (n : Z) : K (option Z) :=
  let! p := curproc in
  fetchint (w32 (tf_esp (p_tf p) + 4 + 4 * n)).

Definition argptr (n size : Z) : K (option Z) :=
  let! p := curproc in
  let! i := argint n in
  match i with
  | None => ret None
  | Some i =>
      if (size <? 0) || (p_sz p <=? w32 i) || (p_sz p <? w32 (w32 i + size)) then ret None
      else ret (Some (w32 i))
  end.

Definition argstr (n : Z) : K (option (list Z)) :=
  let! addr := argint n in
  match addr with
  | None => ret None
  | Some addr => fetchstr (w32 addr)
  end.

(** ** What the checks guarantee

    Process [i] makes a system call; its memory below [sz] is mapped. *)
Record caller (i : nat) (p : proc) (s : kstate) : Prop := {
  ca_cpu : cpu_ok s;
  ca_cur : c_proc (k_cpu s) = Some i;
  ca_entry : k_procs s !! i = Some p;
  ca_sz : 0 <= p_sz p <= KERNBASE;
  ca_mapped va : 0 <= va < p_sz p -> is_Some (ubyte s va) }.

(** The word at a user address, when its bytes are mapped. *)
Definition uword (s : kstate) (va : Z) : option Z :=
  a ← ubyte s va; b ← ubyte s (va + 1); c ← ubyte s (va + 2); d ← ubyte s (va + 3);
  Some (a + 256 * b + 65536 * c + 16777216 * d).

Section Caller.
Context (i : nat) (p : proc).

Lemma caller_touch s : caller i p s -> caller i p (touch s).
Proof. intros [H1 H2 H3 H4 H5]. constructor; try assumption. apply cpu_ok_touch, H1. Qed.

Lemma curproc_ok s : caller i p s -> curproc s = Ok p (touch s).
Proof.
  intros [H1 H2 H3 _ _]. unfold curproc. erewrite bind_ok by (apply myproc_ok, H1).
  rewrite H2. erewrite bind_ok by reflexivity. apply get_proc_ok, H3.
Qed.

Lemma uload_4 s va :
  uload va 4 s = match ubyte s va, ubyte s (va + 1), ubyte s (va + 1 + 1), ubyte s (va + 1 + 1 + 1) with
                 | Some a, Some b, Some c, Some d => Ok [a; b; c; d] s
                 | _, _, _, _ => Fault
                 end.
Proof.
  cbn [uload]. unfold bind, ret, uload8.
  destruct (ubyte s va), (ubyte s (va + 1)), (ubyte s (va + 1 + 1)), (ubyte s (va + 1 + 1 + 1)); reflexivity.
Qed.

Lemma uload32_ok s va w : uword s va = Some w -> uload32 va s = Ok w s.
Proof.
  unfold uword, uload32. intros Hw. unfold bind at 1. rewrite uload_4.
  replace (va + 1 + 1) with (va + 2) by lia. replace (va + 2 + 1) with (va + 3) by lia.
  destruct (ubyte s va), (ubyte s (va + 1)), (ubyte s (va + 2)), (ubyte s (va + 3)); try discriminate Hw.
  cbn in *. injection Hw as <-. reflexivity.
Qed.

Lemma ubyte_range s va c : ubyte s va = Some c -> 0 <= c < 256.
Proof.
  unfold ubyte. destruct (utrans s va) as [[[pa u] w]|]; [|discriminate]. cbn.
  intros E. injection E as <-. apply load8_range.
Qed.

Lemma uword_u32 s va w : uword s va = Some w -> u32 w.
Proof.
  unfold uword. destruct (ubyte s va) eqn:E0; [|discriminate]. destruct (ubyte s (va + 1)) eqn:E1; [|discriminate].
  destruct (ubyte s (va + 2)) eqn:E2; [|discriminate]. destruct (ubyte s (va + 3)) eqn:E3; [|discriminate].
  apply ubyte_range in E0, E1, E2, E3. cbn. intros E. injection E as <-. unfold u32. lia.
Qed.

Lemma caller_word s va : caller i p s -> 0 <= va -> va + 4 <= p_sz p -> exists w, uword s va = Some w /\ u32 w.
Proof.
  intros C H0 H1. pose proof (ca_mapped _ _ _ C) as Hm.
  assert (exists w, uword s va = Some w) as [w Hw].
  { unfold uword. destruct (Hm va ltac:(lia)) as [a ->], (Hm (va + 1) ltac:(lia)) as [b Hb],
      (Hm (va + 2) ltac:(lia)) as [c Hc], (Hm (va + 3) ltac:(lia)) as [d Hd].
    cbn. rewrite Hb. cbn. rewrite Hc. cbn. rewrite Hd. eauto. }
  exists w. split; [exact Hw | eapply uword_u32; exact Hw].
Qed.

(** [fetchint] reads the word exactly when all of it is below [sz]. *)
Lemma fetchint_ok s va :
  caller i p s -> u32 va ->
  fetchint va s =
    Ok (if va + 4 <=? p_sz p then s32 <$> uword s va else None) (touch s).
Proof.
  intros C Hv. pose proof (ca_sz _ _ _ C) as Hs. unfold fetchint.
  erewrite bind_ok by (apply curproc_ok, C). unfold u32, KERNBASE in *. cbv beta.
  destruct (Z.leb_spec (va + 4) (p_sz p)) as [Hle | Hgt].
  - destruct (caller_word s va C ltac:(lia) Hle) as (w & Hw & Hwu).
    rewrite w32_small by (unfold u32; lia).
    destruct (Z.leb_spec (p_sz p) va); [lia|]. destruct (Z.ltb_spec (p_sz p) (va + 4)); [lia|]. cbn [orb].
    erewrite bind_ok by (apply (uload32_ok (touch s) va w); exact Hw). rewrite Hw. reflexivity.
  - destruct (Z.leb_spec (p_sz p) va); [reflexivity|]. rewrite w32_small by (unfold u32; lia).
    destruct (Z.ltb_spec (p_sz p) (va + 4)); [reflexivity | lia].
Qed.

(** The address of argument [n]. *)
Definition arg_addr (n : Z) : Z := w32 (tf_esp (p_tf p) + 4 + 4 * n).

Lemma argint_ok s n :
  caller i p s ->
  argint n s = Ok (if arg_addr n + 4 <=? p_sz p then s32 <$> uword s (arg_addr n) else None) (touch s).
Proof.
  intros C. unfold argint. erewrite bind_ok by (apply curproc_ok, C). fold (arg_addr n).
  rewrite fetchint_ok; [|apply caller_touch, C | unfold arg_addr, u32, w32; apply Z.mod_pos_bound; lia].
  rewrite touch_idem. reflexivity.
Qed.

Lemma s32_w32 x : u32 x -> w32 (s32 x) = x.
Proof.
  unfold u32, s32, w32. intros Hx. rewrite (Z.mod_small x) by lia.
  destruct (Z.ltb_spec x 2147483648); [apply Z.mod_small; lia|].
  rewrite <- (Z_mod_plus_full _ 1). rewrite Z.mod_small; lia.
Qed.

(** C26 (syscall.c, [argptr]): a system call never gets a pointer outside the
    process's memory.  For a process whose memory below [sz] is mapped, a
    pointer argument with its length is accepted exactly when the argument
    itself lies below [sz], the length is not negative and the whole block
    [a, a + size) lies in [0, sz), with [a] below [sz]: no arithmetic overflow
    lets a block that wraps around pass.  The call returns for every argument. *)
Theorem argptr_checks s n size :
  caller i p s -> -2147483648 <= size < 2147483648 ->
  exists r, argptr n size s = Ok r (touch s) /\
    forall a, r = Some a <->
      arg_addr n + 4 <= p_sz p /\ uword s (arg_addr n) = Some a /\
      0 <= size /\ 0 <= a < p_sz p /\ a + size <= p_sz p.
Proof.
  intros C Hsz. pose proof (ca_sz _ _ _ C) as Hs. unfold argptr.
  erewrite bind_ok by (apply curproc_ok, C). cbv beta.
  erewrite bind_ok by (apply argint_ok, caller_touch, C). rewrite touch_idem.
  change (uword (touch s)) with (uword s).
  assert (Ha : 0 <= arg_addr n) by (unfold arg_addr, w32; apply Z.mod_pos_bound; lia).
  destruct (Z.leb_spec (arg_addr n + 4) (p_sz p)) as [Hle | Hgt].
  2: { eexists. split; [reflexivity|]. intros a. split; [discriminate | lia]. }
  destruct (caller_word s (arg_addr n) C Ha Hle) as (w & Hw & Hwu). rewrite Hw. cbn [fmap option_fmap option_map].
  rewrite s32_w32 by exact Hwu. unfold u32, KERNBASE in *.
  destruct (Z.ltb_spec size 0); [|destruct (Z.leb_spec (p_sz p) w)]; cbn [orb].
  1, 2: eexists; split; [reflexivity|]; intros a; split; [discriminate|]; intros (_ & E & ?); injection E as <-; lia.
  rewrite w32_small by (unfold u32; lia).
  destruct (Z.ltb_spec (p_sz p) (w + size)).
  - eexists. split; [reflexivity|]. intros a. split; [discriminate|]. intros (_ & E & ?). injection E as <-. lia.
  - eexists. split; [reflexivity|]. intros a. split.
    + intros E. injection E as <-. split; [lia|]. split; [reflexivity | lia].
    + intros (_ & E & _). exact E.
Qed.

(** syscall.c, [argptr]: no system call accepts a buffer in a 4 MB page.
    A process whose ordinary memory ends at or below the start of the huge
    region passes an address in the huge region; [argptr] compares it with [sz],
    which does not cover huge pages, and refuses it, whether or not [shugebrk]
    has mapped the page. *)
Lemma argptr_rejects_huge s n size a :
  caller i p s -> -2147483648 <= size < 2147483648 -> p_sz p <= HUGE_VA_OFFSET ->
  uword s (arg_addr n) = Some a -> HUGE_VA_OFFSET <= a ->
  argptr n size s = Ok None (touch s).
Proof.
  intros C Hsz Hlim Hw Ha. unfold argptr. erewrite bind_ok by (apply curproc_ok, C). cbv beta.
  erewrite bind_ok by (apply argint_ok, caller_touch, C). rewrite touch_idem.
  change (uword (touch s)) with (uword s).
  destruct (Z.leb_spec (arg_addr n + 4) (p_sz p)); [|reflexivity].
  rewrite Hw. cbn [fmap option_fmap option_map]. rewrite s32_w32 by (eapply uword_u32; exact Hw).
  destruct (size <? 0); [reflexivity|]. destruct (Z.leb_spec (p_sz p) a); [reflexivity | lia].
Qed.
End Caller.

(** ** Concrete instances

    The process of [prun], with the word [a] as its first argument. *)
Definition arg_run (a : Z) : kstate := set_mem (store32 (k_mem prun) 0x80404004 a) prun.

Lemma arg_run_caller a : caller 0 proc0 (arg_run a).
Proof.
  constructor; [eapply cpu_ok_ext; [exact (ru_cpu _ _ _ prun_running) | right; reflexivity | reflexivity] | reflexivity | reflexivity | split; discriminate |].
  intros va Hv. change (p_sz proc0) with 4096 in Hv. unfold ubyte, utrans, hw_translate.
  rewrite w32_small by (unfold u32; lia).
  assert (PDX va = 0) as -> by (rewrite PDX_div by (unfold u32; lia); zdm).
  assert (PTX va = 0) as -> by (rewrite PTX_div by (unfold u32; lia); zdm).
  change (load32 (k_mem (arg_run a)) (P2V (c_cr3 (k_cpu (arg_run a))) + 4 * 0)) with 0x403007.
  change (load32 (k_mem (arg_run a)) (P2V (PTE_ADDR 0x403007) + 4 * 0)) with 0x404007.
  cbn. eauto.
Qed.

Lemma argptr_checks_witness : argptr 0 8 (arg_run 16) = Ok (Some 16) (touch (arg_run 16)).
Proof.
  destruct (argptr_checks 0 proc0 (arg_run 16) 0 8 (arg_run_caller 16) ltac:(lia)) as (r & E & H).
  rewrite E. f_equal. apply H. split; [discriminate|]. split; [vm_compute; reflexivity|].
  change (p_sz proc0) with 4096. lia.
Defined.

