(* ===== verification/Console.v ===== *)
(** * solution/console.c: console input and output

    Output is recorded as it goes to the serial port.  Input is the list of
    characters that the keyboard or the serial port has ready. *)

From Stdlib Require Import ZArith Lia FunctionalExtensionality Ascii.
From stdpp Require Import base list strings gmap.
From S2P Require Import Prelude Mem Mmu Kernel Spinlock Kalloc Vm VmFacts Sched Bio Log Fs Uaccess Pipe.

(** ** Output *)

(** [printint]: the digits of a number, most significant first, as characters. *)
Definition digits (d : Z) : Z := if d <? 10 then 48 + d else 87 + d.

(** The do-while loop: the digits of [x], least significant first.  A 32-bit
    number has at most 32 digits in any base from 2 on. *)
Fixpoint printint_loop (x base : Z) (fuel : nat) : list Z :=
  match fuel with
  | O => []
  | S f =>
      let rest := if x / base =? 0 then [] else printint_loop (x / base) base f in
      digits (x mod base) :: rest
  end.
Definition minus : Z := 45.
Definition printint (xx base : Z) (sign : bool) : list Z :=
  let neg := sign && (xx <? 0) in
  let x := if neg then w32 (- xx) else w32 xx in
  rev (printint_loop x base 32 ++ (if neg then [minus] else [])).

(** An argument of [cprintf]: a word, or a string for [%s] ([None] is null). *)
Inductive parg : Type := PInt (v : Z) | PStr (s : option (list Z)).
Definition null_str : list Z := [40; 110; 117; 108; 108; 41].
Definition percent : Z := 37.

(** The characters [cprintf] prints.  A missing or mistyped argument is not
    modelled: [None]. *)
Fixpoint cprintf_chars (fmt : list Z) (args : list parg) : option (list Z) :=
  match fmt with
  | [] => Some []
  | c :: fmt' =>
      if negb (c =? percent) then cons c <$> cprintf_chars fmt' args
      else
        match fmt' with
        | [] => Some []
        | d :: fmt'' =>
            if d =? 100 then
              match args with
              | PInt v :: args' => app (printint (s32 v) 10 true) <$> cprintf_chars fmt'' args'
              | _ => None
              end
            else if (d =? 120) || (d =? 112) then
              match args with
              | PInt v :: args' => app (printint v 16 false) <$> cprintf_chars fmt'' args'
              | _ => None
              end
            else if d =? 115 then
              match args with
              | PStr s :: args' => app (default null_str s) <$> cprintf_chars fmt'' args'
              | _ => None
              end
            else if d =? percent then cons percent <$> cprintf_chars fmt'' args
            else (fun l => percent :: d :: l) <$> cprintf_chars fmt'' args
        end
  end.

Definition BACKSPACE : Z := 0x100.
Definition chr (c : Z) : string := String (ascii_of_N (Z.to_N (c mod 256))) EmptyString.
(** The CRT is not modelled. *)
Definition consputc (c : Z) : K unit :=
  cprintf (if c =? BACKSPACE then (chr 8 ++ chr 32 ++ chr 8)%string else chr c).

(** ** Input *)

Definition INPUT_BUF : Z := 128.
Definition C_P : Z := 16.
Definition C_U : Z := 21.
Definition C_H : Z := 8.
Definition C_D : Z := 4.
Definition DEL : Z := 127.
Definition CR : Z := 13.
Definition LF : Z := 10.

Definition set_in_r v i := mkInput (in_buf i) v (in_w i) (in_e i).
Definition set_in_w v i := mkInput (in_buf i) (in_r i) v (in_e i).
Definition set_in_e v i := mkInput (in_buf i) (in_r i) (in_w i) v.
Definition set_in_buf v i := mkInput v (in_r i) (in_w i) (in_e i).
Definition get_input : K input_t := gets k_input.
Definition upd_input (f : input_t -> input_t) : K unit := modify (fun s => set_input (f (k_input s)) s).

(** [input.buf[i % INPUT_BUF]]. *)
Definition in_at (x : input_t) (i : Z) : Z := nth (Z.to_nat (i mod INPUT_BUF)) (in_buf x) 0.

(** Kill line: at most the whole buffer is erased. *)
Fixpoint kill_line (fuel : nat) : K unit :=
  match fuel with
  | O => nofuel
  | S f =>
      let! x := get_input in
      if negb (in_e x =? in_w x) && negb (in_at x (w32 (in_e x - 1)) =? LF) then
        upd_input (set_in_e (w32 (in_e x - 1))) ;;
        consputc BACKSPACE ;;
        kill_line f
      else ret tt
  end.

Definition put_char (c : Z) : K unit :=
  let! x := get_input in
  when (negb (c =? 0) && (w32 (in_e x - in_r x) <? INPUT_BUF))
    (let c := if c =? CR then LF else c in
     upd_input (fun x => set_in_e (w32 (in_e x + 1))
       (set_in_buf (<[Z.to_nat (in_e x mod INPUT_BUF) := c mod 256]> (in_buf x)) x)) ;;
     consputc c ;;
     let! x := get_input in
     when ((c =? LF) || (c =? C_D) || (in_e x =? w32 (in_r x + INPUT_BUF)))
       (upd_input (set_in_w (in_e x)) ;;
        wakeup ChInput)).

(** One character; whether to print the process list. *)
Definition console_char (c : Z) : K bool :=
  if c =? C_P then ret true
  else if c =? C_U then kill_line (S (Z.to_nat INPUT_BUF)) ;; ret false
  else if (c =? C_H) || (c =? DEL) then
    let! x := get_input in
    when (negb (in_e x =? in_w x))
      (upd_input (set_in_e (w32 (in_e x - 1))) ;;
       consputc BACKSPACE) ;;
    ret false
  else put_char c ;; ret false.

Fixpoint console_chars (cs : list Z) (doprocdump : bool) : K bool :=
  match cs with
  | [] => ret doprocdump
  | c :: cs' => let! d := console_char c in console_chars cs' (doprocdump || d)
  end.

(** proc.c, [procdump]: one line for each process, with the return addresses
    on the kernel stack of a sleeping one. *)
Definition states (st : procstate) : string :=
  match st with
  | UNUSED => "unused" | EMBRYO => "embryo" | SLEEPING => "sleep "
  | RUNNABLE => "runble" | RUNNING => "run   " | ZOMBIE => "zombie"
  end.
(** A C string in an array, and the characters of a string. *)
Fixpoint cstr (l : list Z) : list Z :=
  match l with
  | [] => []
  | c :: l' => if c =? 0 then [] else c :: cstr l'
  end.
Definition chars (s : string) : list Z := map (fun a => Z.of_N (N_of_ascii a)) (String.list_ascii_of_string s).
Definition of_chars (l : list Z) : string := fold_right (fun c r => (chr c ++ r)%string) EmptyString l.
(** [cprintf] with arguments: the characters go to the console. *)
Definition cprintf_args (fmt : string) (args : list parg) : K unit :=
  match cprintf_chars (chars fmt) args with
  | Some l => cprintf (of_chars l)
  | None => fault
  end.
(** [p->context->ebp]. *)
Definition context_ebp (context : Z) : K Z := ld32 (context + 12).
Fixpoint print_pcs (pcs : list Z) : K unit :=
  match pcs with
  | [] => ret tt
  | pc :: pcs' => if pc =? 0 then ret tt else cprintf_args " %p" [PInt pc] ;; print_pcs pcs'
  end.
Definition procdump_one (p : proc) : K unit :=
  match p_state p with
  | UNUSED => ret tt
  | st =>
      cprintf_args "%d %s %s" [PInt (p_pid p); PStr (Some (chars (states st))); PStr (Some (cstr (p_name p)))] ;;
      when (bool_decide (st = SLEEPING))
        (let! ebp := context_ebp (p_context p) in
         let! pcs := getcallerpcs (w32 (ebp + 8)) in
         print_pcs pcs) ;;
      cprintf (chr LF)
  end.
Fixpoint procdump_loop (ps : list proc) : K unit :=
  match ps with
  | [] => ret tt
  | p :: ps' => procdump_one p ;; procdump_loop ps'
  end.
Definition procdump : K unit :=
  let! ps := gets k_procs in
  procdump_loop ps.

Definition consoleintr (cs : list Z) : K unit :=
  acquire LCons ;;
  let! doprocdump := console_chars cs false in
  release LCons ;;
  when doprocdump procdump.

(** Wait for input: [false] when the process has been killed. *)
Fixpoint input_loop (fuel : nat) : K bool :=
  match fuel with
  | O => nofuel
  | S f =>
      let! x := get_input in
      if in_r x =? in_w x then
        let! k := mykilled in
        if negb (k =? 0) then ret false
        else sleep ChInput (Some LCons) ;; input_loop f
      else ret true
  end.

(** [n] bytes are left to read; [got] says whether any has been read.  The
    bytes, or [None] when the process has been killed; the bytes copied before
    that are not part of the result. *)
Fixpoint consoleread_loop `{Rounds} (n : nat) (got : bool) : K (option (list Z)) :=
  match n with
  | O => ret (Some [])
  | S n' =>
      let! ready := input_loop rounds in
      if negb ready then ret None
      else
        let! x := get_input in
        let c := in_at x (in_r x) in
        upd_input (set_in_r (w32 (in_r x + 1))) ;;
        if c =? C_D then
          when got (upd_input (fun x => set_in_r (w32 (in_r x - 1)) x)) ;;
          ret (Some [])
        else if c =? LF then ret (Some [c])
        else
          let! r := consoleread_loop n' true in
          ret (cons c <$> r)
  end.

(** The part of [consoleread] between [acquire] and [release]. *)
Definition console_take `{Rounds} (n : Z) : K (option (list Z)) :=
  acquire LCons ;;
  let! r := consoleread_loop (Z.to_nat n) false in
  release LCons ;;
  ret r.
Definition consoleread `{Rounds} (ip : nat) (n : Z) : K (option (list Z)) :=
  iunlock ip ;;
  let! r := console_take n in
  ilock ip ;;
  ret r.

Fixpoint putchars (l : list Z) : K unit :=
  match l with
  | [] => ret tt
  | c :: l' => consputc c ;; putchars l'
  end.
Definition consolewrite `{Rounds} (ip : nat) (buf : list Z) : K Z :=
  iunlock ip ;;
  acquire LCons ;;
  putchars buf ;;
  release LCons ;;
  ilock ip ;;
  ret (Z.of_nat (length buf)).

Definition CONSOLE : Z := 1.
(** The device switch after [consoleinit]. *)
Definition devsw `{Rounds} : devsw_t :=
  mkDevsw (fun m => if m =? CONSOLE then Some consoleread else None)
          (fun m => if m =? CONSOLE then Some consolewrite else None).
Definition consoleinit : K unit := initlock LCons "console".

(** ** Printing numbers *)

Definition digit_val (c : Z) : Z := if c <? 58 then c - 48 else c - 87.
(** The number that a string of digits stands for. *)
Definition number (base : Z) (l : list Z) : Z := fold_left (fun a c => a * base + digit_val c) l 0.

Lemma digit_val_digits d : 0 <= d < 16 -> digit_val (digits d) = d.
Proof. intros Hd. unfold digit_val, digits. zcase. Qed.

Lemma number_rev base l : number base (rev l) = fold_right (fun c a => digit_val c + base * a) 0 l.
Proof.
  unfold number. induction l as [|c l IH]; [reflexivity|].
  cbn [rev fold_right]. rewrite fold_left_app, IH. cbn. lia.
Qed.

Section Printing.
Context (base : Z) (Hb : 2 <= base <= 16).

Lemma printint_loop_value f : forall x,
  0 <= x < base ^ Z.of_nat f ->
  fold_right (fun c a => digit_val c + base * a) 0 (printint_loop x base f) = x.
Proof.
  induction f as [|f IH]; intros x Hx; cbn [printint_loop fold_right]; [cbn in Hx; lia|].
  pose proof (Z.mod_pos_bound x base ltac:(lia)). rewrite digit_val_digits by lia.
  pose proof (Z.div_mod x base ltac:(lia)) as Hd.
  destruct (Z.eqb_spec (x / base) 0) as [H0 | H0]; [cbn; lia|].
  rewrite IH; [lia|]. rewrite Nat2Z.inj_succ, Z.pow_succ_r in Hx by lia. split.
  - apply Z.div_pos; lia.
  - apply Z.div_lt_upper_bound; lia.
Qed.

(** The last digit produced, the first one printed, is not a zero. *)
Lemma printint_loop_last f : forall x,
  0 < x < base ^ Z.of_nat f ->
  exists l d, printint_loop x base f = l ++ [digits d] /\ 0 < d < base.
Proof.
  induction f as [|f IH]; intros x Hx; cbn [printint_loop]; [cbn in Hx; lia|].
  pose proof (Z.mod_pos_bound x base ltac:(lia)). pose proof (Z.div_mod x base ltac:(lia)) as Hd.
  destruct (Z.eqb_spec (x / base) 0) as [H0 | H0].
  - exists [], (x mod base). split; [reflexivity | lia].
  - destruct (IH (x / base)) as (l & d & E & Hdd).
    { rewrite Nat2Z.inj_succ, Z.pow_succ_r in Hx by lia. pose proof (Z.div_pos x base).
      split; [lia | apply Z.div_lt_upper_bound; lia]. }
    exists (digits (x mod base) :: l), d. rewrite E. split; [reflexivity | exact Hdd].
Qed.

Lemma printint_loop_digits f : forall x, Forall (fun c => exists d, 0 <= d < base /\ c = digits d) (printint_loop x base f).
Proof.
  induction f as [|f IH]; intros x; cbn [printint_loop]; constructor.
  - exists (x mod base). split; [apply Z.mod_pos_bound; lia | reflexivity].
  - destruct (x / base =? 0); [constructor | apply IH].
Qed.

Lemma pow_32 : 4294967296 <= base ^ 32.
Proof.
  change 4294967296 with (2 ^ 32). apply Z.pow_le_mono_l. lia.
Qed.

(** console.c, [printint]: numbers are printed in full and in order.  For
    a 32-bit value and a base from 2 to 16 the characters printed are a minus
    sign exactly when the value is printed as signed and negative, then digits
    of the base that stand for the absolute value (for an unsigned print, for
    the value of the word), without a leading zero unless the number is 0.
    This includes the most negative integer. *)
Lemma printint_prints xx (sign : bool) :
  -2147483648 <= xx < 4294967296 ->
  exists l, printint xx base sign = (if sign && (xx <? 0) then [minus] else []) ++ l /\
    number base l = (if sign then Z.abs xx else w32 xx) /\
    Forall (fun c => exists d, 0 <= d < base /\ c = digits d) l /\
    l <> [] /\ (head l = Some (digits 0) -> l = [digits 0]).
Proof.
  intros Hx. unfold printint. set (x := if sign && (xx <? 0) then w32 (- xx) else w32 xx).
  assert (Hxv : x = (if sign then Z.abs xx else w32 xx) /\ 0 <= x < 4294967296).
  { unfold x. destruct sign; cbn [andb]; [|split; [reflexivity | unfold w32; apply Z.mod_pos_bound; lia]].
    destruct (Z.ltb_spec xx 0); rewrite w32_small by (unfold u32; lia); lia. }
  destruct Hxv as [Exv Hxr]. pose proof pow_32 as Hp.
  exists (rev (printint_loop x base 32)). rewrite rev_app_distr. split; [destruct (sign && (xx <? 0)); reflexivity|].
  split; [rewrite number_rev, printint_loop_value by (cbn [Z.of_nat Pos.of_succ_nat Pos.succ]; lia); exact Exv|].
  split; [apply Forall_rev, printint_loop_digits|].
  split; [intros E; apply (f_equal length) in E; rewrite length_rev in E; discriminate E|].
  destruct (Z.eq_dec x 0) as [-> | Hne]; [reflexivity|].
  destruct (printint_loop_last 32 x) as (l & d & E & Hd); [cbn [Z.of_nat Pos.of_succ_nat Pos.succ]; lia|].
  rewrite E, rev_app_distr. cbn [rev app head]. intros Heq.
  assert (digit_val (digits d) = digit_val (digits 0)) as Hv by congruence.
  rewrite !digit_val_digits in Hv by lia. lia.
Qed.
End Printing.

