(* ===== verification/Sysproc.v ===== *)
(** * solution/sysproc.c: the process system calls

    A system call returns an [int]; addresses are returned as the signed
    value of the word. *)

From Stdlib Require Import ZArith Lia FunctionalExtensionality.
From stdpp Require Import base list strings gmap.
From S2P Require Import Prelude Mem Mmu Kernel Spinlock Kalloc Vm VmFacts Sched Bio Log Fs Uaccess Pipe File Proc Syscall.

Definition sys_fork `{Image} : K Z := fork.
Definition sys_exit `{Image, Rounds} : K Z := exit ;; ret 0.
Definition sys_wait `{Image, Rounds} : K Z := wait rounds.

Definition sys_kill : K Z :=
  let! pid := argint 0 in
  match pid with
  | None => ret (-1)
  | Some pid => kill pid
  end.

Definition sys_getpid : K Z :=
  let! p := curproc in
  ret (p_pid p).

Definition sys_sbrk `{Image} : K Z :=
  let! n := argint 0 in
  match n with
  | None => ret (-1)
  | Some n =>
      let! p := curproc in
      let addr := s32 (p_sz p) in
      let! r := growproc n in
      ret (if r <? 0 then -1 else addr)
  end.

Definition sys_shugebrk `{Image} : K Z :=
  let! n := argint 0 in
  match n with
  | None => ret (-1)
  | Some n =>
      let! p := curproc in
      let addr := s32 (p_hugesz p + HUGE_VA_OFFSET) in
      let! r := growhugeproc n in
      ret (if r <? 0 then -1 else addr)
  end.

Definition sys_setthp : K Z :=
  let! input := argint 0 in
  match input with
  | None => ret (-1)
  | Some v => modify (set_thp v) ;; ret 0
  end.
Definition sys_getthp : K Z := gets k_thp.

(** [ticks - ticks0 < n] compares in [uint]. *)
Fixpoint sleep_loop (ticks0 n : Z) (fuel : nat) : K Z :=
  match fuel with
  | O => nofuel
  | S f =>
      let! t := gets k_ticks in
      if w32 (t - ticks0) <? w32 n then
        let! p := curproc in
        if negb (p_killed p =? 0) then release LTicks ;; ret (-1)
        else sleep ChTicks (Some LTicks) ;; sleep_loop ticks0 n f
      else release LTicks ;; ret 0
  end.
Definition sys_sleep `{Rounds} : K Z :=
  let! n := argint 0 in
  match n with
  | None => ret (-1)
  | Some n =>
      acquire LTicks ;;
      let! ticks0 := gets k_ticks in
      sleep_loop ticks0 n rounds
  end.

Definition sys_uptime : K Z :=
  acquire LTicks ;;
  let! xticks := gets k_ticks in
  release LTicks ;;
  ret (s32 xticks).

Definition huge_pde (e : Z) : bool := has e PTE_PS && has e PTE_U && has e PTE_P.
Definition base_pde (e : Z) : bool := has e PTE_U && has e PTE_P && negb (has e PTE_PS).
Definition base_pte (e : Z) : bool := has e PTE_U && has e PTE_P.

(** One line per 4 MB page of the process, entries [i] on. *)
Fixpoint printhugepde_loop (pgdir i : Z) (n : nat) : K unit :=
  match n with
  | O => ret tt
  | S n' =>
      let! e := ld32 (pgdir + 4 * i) in
      when (huge_pde e) (cprintf "PID %d: PDE[%d] is 0x%x\n") ;;
      printhugepde_loop pgdir (i + 1) n'
  end.
Definition sys_printhugepde : K Z :=
  let! p := curproc in
  printhugepde_loop (p_pgdir p) 0 1024 ;;
  ret 0.

(** The inner loop of [sys_procpgdirinfo]. *)
Fixpoint count_ptes (m : mem) (pgtab j : Z) (n : nat) : Z :=
  match n with
  | O => 0
  | S n' => (if base_pte (load32 m (pgtab + 4 * j)) then 1 else 0) + count_ptes m pgtab (j + 1) n'
  end.
(** Base and huge pages of the directory entries [i] on. *)
Fixpoint count_pdes (m : mem) (pgdir i : Z) (n : nat) : Z * Z :=
  match n with
  | O => (0, 0)
  | S n' =>
      let e := load32 m (pgdir + 4 * i) in
      let '(b, h) := count_pdes m pgdir (i + 1) n' in
      ((if base_pde e then count_ptes m (P2V (PTE_ADDR e)) 0 1024 else 0) + b,
       (if huge_pde e then 1 else 0) + h)
  end.
Definition sys_procpgdirinfo : K Z :=
  let! buf := argptr 0 8 in
  match buf with
  | None => ret (-1)
  | Some buf =>
      let! p := curproc in
      let! m := gets k_mem in
      let '(base_cnt, huge_cnt) := count_pdes m (p_pgdir p) 0 1024 in
      ustore32 buf base_cnt ;;
      ustore32 (buf + 4) huge_cnt ;;
      ret 0
  end.
