(* ===== verification/Sysfile.v ===== *)
(** * solution/sysfile.c: the file system calls *)

From Stdlib Require Import ZArith Lia FunctionalExtensionality.
From stdpp Require Import base list strings gmap.
From S2P Require Import Prelude Mem Mmu Kernel Spinlock Kalloc Vm VmFacts Sched Bio Log Fs Uaccess Pipe File Proc Exec Syscall Console.

(** The descriptor and the file, or [None] for the result -1. *)
Definition argfd (n : Z) : K (option (nat * nat)) :=
  let! fd := argint n in
  match fd with
  | None => ret None
  | Some fd =>
      if (fd <? 0) || (Z.of_nat NOFILE <=? fd) then ret None
      else
        let! p := curproc in
        match p_ofile p !! Z.to_nat fd with
        | Some (Some f) => ret (Some (Z.to_nat fd, f))
        | _ => ret None
        end
  end.

Fixpoint find_fd (l : list (option nat)) (fd : nat) : option nat :=
  match l with
  | [] => None
  | None :: _ => Some fd
  | Some _ :: l' => find_fd l' (S fd)
  end.

Definition set_ofile (fd : nat) (f : option nat) : K unit :=
  let! c := myproc in
  let! i := deref c in
  upd_proc i (fun p => set_p_ofile (<[fd := f]> (p_ofile p)) p).

(** The descriptor, or [None] for the result -1. *)
Definition fdalloc (f : nat) : K (option nat) :=
  let! p := curproc in
  match find_fd (p_ofile p) 0 with
  | Some fd => set_ofile fd (Some f) ;; ret (Some fd)
  | None => ret None
  end.

Definition sys_dup : K Z :=
  let! a := argfd 0 in
  match a with
  | None => ret (-1)
  | Some (_, f) =>
      let! fd := fdalloc f in
      match fd with
      | None => ret (-1)
      | Some fd => let! _ := filedup f in ret (Z.of_nat fd)
      end
  end.

(** The arguments of read and write: the file, the buffer and the length. *)
Definition arg_rw : K (option (nat * Z * Z)) :=
  let! a := argfd 0 in
  match a with
  | None => ret None
  | Some (_, f) =>
      let! n := argint 2 in
      match n with
      | None => ret None
      | Some n =>
          let! p := argptr 1 n in
          match p with
          | None => ret None
          | Some p => ret (Some (f, p, n))
          end
      end
  end.

Definition sys_read `{Rounds} : K Z :=
  let! a := arg_rw in
  match a with
  | None => ret (-1)
  | Some (f, p, n) => fileread devsw f p n
  end.

Definition sys_write `{Rounds} : K Z :=
  let! a := arg_rw in
  match a with
  | None => ret (-1)
  | Some (f, p, n) => filewrite devsw f p n
  end.

Definition sys_close `{Image, Rounds} : K Z :=
  let! a := argfd 0 in
  match a with
  | None => ret (-1)
  | Some (fd, f) => set_ofile fd None ;; fileclose f ;; ret 0
  end.

(** struct stat in user memory; its padding is not written. *)
Definition STAT_SIZE : Z := 20.
Definition ustore_stat (a : Z) (st : stat) : K unit :=
  ustore (a + 4) (bytes32 (st_dev st)) ;;
  ustore (a + 8) (bytes32 (st_ino st)) ;;
  ustore a (bytes16 (st_type st)) ;;
  ustore (a + 12) (bytes16 (st_nlink st)) ;;
  ustore (a + 16) (bytes32 (st_size st)).

Definition sys_fstat `{Rounds} : K Z :=
  let! a := argfd 0 in
  match a with
  | None => ret (-1)
  | Some (_, f) =>
      let! p := argptr 1 STAT_SIZE in
      match p with
      | None => ret (-1)
      | Some p =>
          let! st := filestat f in
          match st with
          | None => ret (-1)
          | Some st => ustore_stat p st ;; ret 0
          end
      end
  end.

(** [end_op(); return -1]. *)
Definition fail_op `{Rounds} : K Z := end_op ;; ret (-1).

Definition add_nlink (i : nat) (d : Z) : K unit :=
  upd_inode i (fun ip => set_i_nlink (s16 (i_nlink ip + d)) ip).

(** The label [bad] of [sys_link]. *)
Definition link_bad `{Rounds} (ip : nat) : K Z :=
  ilock ip ;;
  add_nlink ip (-1) ;;
  iupdate ip ;;
  iunlockput ip ;;
  fail_op.

(** [dp->dev != ip->dev || dirlink(dp, name, ip->inum) < 0]. *)
Definition link_entry `{Rounds} (dp ip : nat) (name : list Z) : K bool :=
  let! d := get_inode dp in
  let! x := get_inode ip in
  if negb (i_dev d =? i_dev x) then ret true
  else let! r := dirlink devsw dp name (i_inum x) in ret (r <? 0).

Definition link_paths `{Rounds} (old new : list Z) : K Z :=
  begin_op ;;
  let! r := namei devsw old in
  match r with
  | None => fail_op
  | Some ip =>
      ilock ip ;;
      let! x := get_inode ip in
      if i_type x =? T_DIR then iunlockput ip ;; fail_op
      else
        add_nlink ip 1 ;;
        iupdate ip ;;
        iunlock ip ;;
        let! r := nameiparent devsw new in
        match r with
        | None => link_bad ip
        | Some (dp, name) =>
            ilock dp ;;
            let! failed := link_entry dp ip name in
            if (failed : bool) then iunlockput dp ;; link_bad ip
            else
              iunlockput dp ;;
              iput ip ;;
              end_op ;;
              ret 0
        end
  end.

Definition sys_link `{Rounds} : K Z :=
  let! old := argstr 0 in
  match old with
  | None => ret (-1)
  | Some old =>
      let! new := argstr 1 in
      match new with
      | None => ret (-1)
      | Some new => link_paths old new
      end
  end.

Fixpoint isdirempty_loop `{Rounds} (dp : nat) (off : Z) (fuel : nat) : K bool :=
  match fuel with
  | O => nofuel
  | S f =>
      let! ip := get_inode dp in
      if off <? i_size ip then
        let! de := read_dirent devsw dp off "isdirempty: readi" in
        if negb (de_inum de =? 0) then ret false
        else isdirempty_loop dp (off + DIRENT_SIZE) f
      else ret true
  end.
Definition isdirempty `{Rounds} (dp : nat) : K bool :=
  let! ip := get_inode dp in
  isdirempty_loop dp (2 * DIRENT_SIZE) (dir_fuel (i_size ip)).

Definition dot : list Z := [46].
Definition dotdot : list Z := [46; 46].

(** The label [bad] of [sys_unlink]. *)
Definition unlink_bad `{Rounds} (dp : nat) : K Z :=
  iunlockput dp ;;
  fail_op.

(** The entry at [off] of [dp], for inode [ip], both locked. *)
Definition unlink_entry `{Rounds} (dp ip : nat) (off : Z) : K Z :=
  let! x := get_inode ip in
  if i_nlink x <? 1 then panic "unlink: nlink < 1"
  else
    let! busy := (if i_type x =? T_DIR then let! e := isdirempty ip in ret (negb e) else ret false) in
    if (busy : bool) then iunlockput ip ;; unlink_bad dp
    else
      let! r := writei devsw dp (replicate 16 0) off DIRENT_SIZE in
      if negb (r =? DIRENT_SIZE) then panic "unlink: writei"
      else
        let! x := get_inode ip in
        when (i_type x =? T_DIR) (add_nlink dp (-1) ;; iupdate dp) ;;
        iunlockput dp ;;
        add_nlink ip (-1) ;;
        iupdate ip ;;
        iunlockput ip ;;
        end_op ;;
        ret 0.

Definition sys_unlink `{Rounds} : K Z :=
  let! path := argstr 0 in
  match path with
  | None => ret (-1)
  | Some path =>
      begin_op ;;
      let! r := nameiparent devsw path in
      match r with
      | None => fail_op
      | Some (dp, name) =>
          ilock dp ;;
          if (namecmp name dot =? 0) || (namecmp name dotdot =? 0) then unlink_bad dp
          else
            let! r := dirlookup devsw dp name in
            match r with
            | None => unlink_bad dp
            | Some (ip, off) => ilock ip ;; unlink_entry dp ip off
            end
      end
  end.

(** The dots of a new directory [ip] in [dp]. *)
Definition create_dots `{Rounds} (dp ip : nat) : K unit :=
  add_nlink dp 1 ;;
  iupdate dp ;;
  let! x := get_inode ip in
  let! r := dirlink devsw ip dot (i_inum x) in
  if r <? 0 then panic "create dots"
  else
    let! d := get_inode dp in
    let! r := dirlink devsw ip dotdot (i_inum d) in
    if r <? 0 then panic "create dots" else ret tt.

(** The inode, locked, or [None] for the result 0. *)
Definition create `{Rounds} (path : list Z) (type major minor : Z) : K (option nat) :=
  let! r := nameiparent devsw path in
  match r with
  | None => ret None
  | Some (dp, name) =>
      ilock dp ;;
      let! r := dirlookup devsw dp name in
      match r with
      | Some (ip, _) =>
          iunlockput dp ;;
          ilock ip ;;
          let! x := get_inode ip in
          if (type =? T_FILE) && (i_type x =? T_FILE) then ret (Some ip)
          else iunlockput ip ;; ret None
      | None =>
          let! d := get_inode dp in
          let! ip := ialloc (i_dev d) type in
          ilock ip ;;
          upd_inode ip (set_i_major major) ;;
          upd_inode ip (set_i_minor minor) ;;
          upd_inode ip (set_i_nlink 1) ;;
          iupdate ip ;;
          when (type =? T_DIR) (create_dots dp ip) ;;
          let! x := get_inode ip in
          let! r := dirlink devsw dp name (i_inum x) in
          if r <? 0 then panic "create: dirlink"
          else iunlockput dp ;; ret (Some ip)
      end
  end.

Definition O_RDONLY : Z := 0.
Definition O_WRONLY : Z := 1.
Definition O_RDWR : Z := 2.
Definition O_CREATE : Z := 0x200.

(** The inode to open, locked; [None] after [end_op] on failure. *)
Definition open_inode `{Rounds} (path : list Z) (omode : Z) : K (option nat) :=
  if has omode O_CREATE then
    let! ip := create path T_FILE 0 0 in
    match ip with
    | None => end_op ;; ret None
    | Some ip => ret (Some ip)
    end
  else
    let! ip := namei devsw path in
    match ip with
    | None => end_op ;; ret None
    | Some ip =>
        ilock ip ;;
        let! x := get_inode ip in
        if (i_type x =? T_DIR) && negb (omode =? O_RDONLY)
        then iunlockput ip ;; end_op ;; ret None
        else ret (Some ip)
    end.

Definition open_file (ip : nat) (omode : Z) (f : file) : file :=
  mkFile FD_INODE (f_ref f) (if has omode O_WRONLY then 0 else 1)
    (if has omode O_WRONLY || has omode O_RDWR then 1 else 0) (f_pipe f) (Some ip) 0.

Definition open_path `{Image, Rounds} (path : list Z) (omode : Z) : K Z :=
  begin_op ;;
  let! ip := open_inode path omode in
  match ip with
  | None => ret (-1)
  | Some ip =>
      let! f := filealloc in
      let! fd := match f with Some f => fdalloc f | None => ret None end in
      match f, fd with
      | Some f, Some fd =>
          iunlock ip ;;
          end_op ;;
          upd_file f (open_file ip omode) ;;
          ret (Z.of_nat fd)
      | _, _ =>
          close_if f ;;
          iunlockput ip ;;
          fail_op
      end
  end.

Definition sys_open `{Image, Rounds} : K Z :=
  let! path := argstr 0 in
  match path with
  | None => ret (-1)
  | Some path =>
      let! omode := argint 1 in
      match omode with
      | None => ret (-1)
      | Some omode => open_path path omode
      end
  end.

(** The end of mkdir and mknod. *)
Definition made `{Rounds} (ip : option nat) : K Z :=
  match ip with
  | None => fail_op
  | Some ip => iunlockput ip ;; end_op ;; ret 0
  end.

Definition sys_mkdir `{Rounds} : K Z :=
  begin_op ;;
  let! path := argstr 0 in
  match path with
  | None => fail_op
  | Some path => let! ip := create path T_DIR 0 0 in made ip
  end.

Definition sys_mknod `{Rounds} : K Z :=
  begin_op ;;
  let! path := argstr 0 in
  match path with
  | None => fail_op
  | Some path =>
      let! major := argint 1 in
      match major with
      | None => fail_op
      | Some major =>
          let! minor := argint 2 in
          match minor with
          | None => fail_op
          | Some minor => let! ip := create path T_DEV (s16 major) (s16 minor) in made ip
          end
      end
  end.

Definition sys_chdir `{Rounds} : K Z :=
  let! c := myproc in
  begin_op ;;
  let! path := argstr 0 in
  match path with
  | None => fail_op
  | Some path =>
      let! ip := namei devsw path in
      match ip with
      | None => fail_op
      | Some ip =>
          ilock ip ;;
          let! x := get_inode ip in
          if negb (i_type x =? T_DIR) then iunlockput ip ;; fail_op
          else
            iunlock ip ;;
            let! i := deref c in
            let! p := get_proc i in
            let! cwd := deref (p_cwd p) in
            iput cwd ;;
            end_op ;;
            upd_proc i (set_p_cwd (Some ip)) ;;
            ret 0
      end
  end.

(** The argument strings from [argv[i]] on; [None] for the result -1.  The
    array has [n] more entries. *)
Fixpoint fetch_argv (uargv i : Z) (n : nat) : K (option (list (list Z))) :=
  match n with
  | O => ret None
  | S n' =>
      let! uarg := fetchint (w32 (uargv + 4 * i)) in
      match uarg with
      | None => ret None
      | Some uarg =>
          if uarg =? 0 then ret (Some [])
          else
            let! a := fetchstr (w32 uarg) in
            match a with
            | None => ret None
            | Some a => let! r := fetch_argv uargv (i + 1) n' in ret (cons a <$> r)
            end
      end
  end.

Definition sys_exec `{Image, Rounds} : K Z :=
  let! path := argstr 0 in
  match path with
  | None => ret (-1)
  | Some path =>
      let! uargv := argint 1 in
      match uargv with
      | None => ret (-1)
      | Some uargv =>
          let! argv := fetch_argv (w32 uargv) 0 (Z.to_nat MAXARG) in
          match argv with
          | None => ret (-1)
          | Some argv => exec devsw path argv
          end
      end
  end.

Definition sys_pipe `{Image, Rounds} : K Z :=
  let! fd := argptr 0 8 in
  match fd with
  | None => ret (-1)
  | Some fd =>
      let! r := pipealloc in
      match r with
      | None => ret (-1)
      | Some (rf, wf) =>
          let! fd0 := fdalloc rf in
          let! fd1 := match fd0 with Some _ => fdalloc wf | None => ret None end in
          match fd0, fd1 with
          | Some fd0, Some fd1 =>
              ustore32 fd (Z.of_nat fd0) ;;
              ustore32 (fd + 4) (Z.of_nat fd1) ;;
              ret 0
          | _, _ =>
              match fd0 with Some fd0 => set_ofile fd0 None | None => ret tt end ;;
              fileclose rf ;;
              fileclose wf ;;
              ret (-1)
          end
      end
  end.
