(* ===== verification/Trap.v ===== *)
(** * solution/trap.c and the dispatch of syscall.c *)

From Stdlib Require Import ZArith Lia ZifyBool ZifyNat FunctionalExtensionality.
From stdpp Require Import base list strings gmap.
From S2P Require Import Prelude Mem Mmu Kernel Spinlock Kalloc Vm VmFacts Sched Bio Log Fs Uaccess Pipe File Proc Exec Syscall Console Sysproc Sysfile Runs.

(** ** syscall.c *)

(** [syscalls[num]]; the numbers are those of syscall.h. *)
Definition syscalls `{Image, Rounds} (num : Z) : option (K Z) :=
  match num with
  | 1 => Some sys_fork
  | 2 => Some sys_exit
  | 3 => Some sys_wait
  | 4 => Some sys_pipe
  | 5 => Some sys_read
  | 6 => Some sys_kill
  | 7 => Some sys_exec
  | 8 => Some sys_fstat
  | 9 => Some sys_chdir
  | 10 => Some sys_dup
  | 11 => Some sys_getpid
  | 12 => Some sys_sbrk
  | 13 => Some sys_sleep
  | 14 => Some sys_uptime
  | 15 => Some sys_open
  | 16 => Some sys_write
  | 17 => Some sys_mknod
  | 18 => Some sys_unlink
  | 19 => Some sys_link
  | 20 => Some sys_mkdir
  | 21 => Some sys_close
  | 22 => Some sys_printhugepde
  | 23 => Some sys_procpgdirinfo
  | 24 => Some sys_shugebrk
  | 25 => Some sys_setthp
  | 26 => Some sys_getthp
  | _ => None
  end.

Definition set_eax (i : nat) (v : Z) : K unit :=
  upd_proc i (fun p => set_p_tf (set_tf_eax (w32 v) (p_tf p)) p).

Definition syscall `{Image, Rounds} : K unit :=
  let! c := myproc in
  let! i := deref c in
  let! p := get_proc i in
  match syscalls (s32 (tf_eax (p_tf p))) with
  | Some call => let! r := call in set_eax i r
  | None =>
      cprintf "%d %s: unknown sys call %d\n" ;;
      set_eax i (-1)
  end.

(** ** trap.c *)

Definition T_SYSCALL : Z := 64.
Definition T_IRQ0 : Z := 32.
Definition IRQ_TIMER : Z := 0.
Definition IRQ_KBD : Z := 1.
Definition IRQ_COM1 : Z := 4.
Definition IRQ_IDE : Z := 14.
Definition IRQ_SPURIOUS : Z := 31.

(** mmu.h: gate descriptors, their fields and [SETGATE]. *)
Record gatedesc : Type := mkGate {
  g_off_15_0 : Z; g_cs : Z; g_args : Z; g_rsv1 : Z; g_type : Z; g_s : Z; g_dpl : Z; g_p : Z; g_off_31_16 : Z }.
Definition STS_IG32 : Z := 0xE.
Definition STS_TG32 : Z := 0xF.
Definition SETGATE (istrap : bool) (sel off d : Z) : gatedesc :=
  mkGate (Z.land off 0xffff) sel 0 0 (if istrap then STS_TG32 else STS_IG32) 0 d 1 (Z.shiftr (w32 off) 16).
(** The table that [tvinit] fills; [vectors] are the entry points of vectors.S. *)
Definition tvinit_idt (vectors : Z -> Z) : list gatedesc :=
  <[Z.to_nat T_SYSCALL := SETGATE true (Z.shiftl (Z.of_nat SEG_KCODE) 3) (vectors T_SYSCALL) DPL_USER]>
    (map (fun i => SETGATE false (Z.shiftl (Z.of_nat SEG_KCODE) 3) (vectors i) 0) (seqZ 0 256)).
(** The rest of [tvinit]. *)
Definition tvinit : K unit := initlock LTicks "time".

(** [myproc() && myproc()->killed && (tf->cs&3) == DPL_USER]. *)
Definition exit_if_killed `{Image, Rounds} (cs : Z) : K unit :=
  let! c := myproc in
  match c with
  | None => ret tt
  | Some i =>
      let! p := get_proc i in
      when (negb (p_killed p =? 0) && (Z.land cs 3 =? DPL_USER)) exit
  end.

Definition is_killed : K bool :=
  let! k := mykilled in ret (negb (k =? 0)).

Definition trap_syscall `{Image, Rounds} (tf : trapframe) : K unit :=
  let! k := is_killed in
  when k exit ;;
  let! c := myproc in
  let! i := deref c in
  upd_proc i (set_p_tf tf) ;;
  syscall ;;
  let! k := is_killed in
  when k exit.

(** In the kernel: a message and a panic. *)
Definition unexpected_trap (cr2 : Z) (tf : trapframe) : K unit :=
  let! id := cpuid in
  cprintf_args "unexpected trap %d from cpu %d eip %x (cr2=0x%x)
" [PInt (tf_trapno tf); PInt id; PInt (tf_eip tf); PInt cr2] ;;
  panic "trap".

(** The [switch]; [kbd] and [uart] are the characters the devices have ready,
    [cr2] is the register that [rcr2] reads.  [lapiceoi] is in Devices.v. *)
Definition trap_irq `{Image, Rounds} (kbd uart : list Z) (cr2 : Z) (tf : trapframe) : K unit :=
  if tf_trapno tf =? T_IRQ0 + IRQ_TIMER then
    let! id := cpuid in
    when (id =? 0)
      (acquire LTicks ;;
       modify (fun s => set_ticks (w32 (k_ticks s + 1)) s) ;;
       wakeup ChTicks ;;
       release LTicks)
  else if tf_trapno tf =? T_IRQ0 + IRQ_IDE then ideintr
  else if tf_trapno tf =? T_IRQ0 + IRQ_IDE + 1 then ret tt
  else if tf_trapno tf =? T_IRQ0 + IRQ_KBD then consoleintr kbd
  else if tf_trapno tf =? T_IRQ0 + IRQ_COM1 then consoleintr uart
  else if (tf_trapno tf =? T_IRQ0 + 7) || (tf_trapno tf =? T_IRQ0 + IRQ_SPURIOUS) then
    let! id := cpuid in
    cprintf_args "cpu%d: spurious interrupt at %x:%x
" [PInt id; PInt (tf_cs tf); PInt (tf_eip tf)]
  else
    let! c := myproc in
    match c with
    | None => unexpected_trap cr2 tf
    | Some i =>
        if Z.land (tf_cs tf) 3 =? 0 then unexpected_trap cr2 tf
        else
          let! p := get_proc i in
          let! id := cpuid in
          cprintf_args "pid %d %s: trap %d err %d on cpu %d eip 0x%x addr 0x%x--kill proc
" [PInt (p_pid p); PStr (Some (cstr (p_name p))); PInt (tf_trapno tf); PInt (tf_err tf); PInt id; PInt (tf_eip tf); PInt cr2] ;;
          upd_proc i (set_p_killed 1)
    end.

Definition trap `{Image, Rounds} (kbd uart : list Z) (cr2 : Z) (tf : trapframe) : K unit :=
  if tf_trapno tf =? T_SYSCALL then trap_syscall tf
  else
    trap_irq kbd uart cr2 tf ;;
    exit_if_killed (tf_cs tf) ;;
    let! c := myproc in
    match c with
    | None => ret tt
    | Some i =>
        let! p := get_proc i in
        when (bool_decide (p_state p = RUNNING) && (tf_trapno tf =? T_IRQ0 + IRQ_TIMER)) yield
    end ;;
    exit_if_killed (tf_cs tf).

(** ** The interrupt table *)

Lemma tvinit_idt_gate vectors (i : nat) g : tvinit_idt vectors !! i = Some g ->
  (i < 256)%nat /\ g = SETGATE (bool_decide (i = 64%nat)) 8 (vectors (Z.of_nat i)) (if bool_decide (i = 64%nat) then DPL_USER else 0).
Proof.
  unfold tvinit_idt. intros Hg. change (Z.to_nat T_SYSCALL) with 64%nat in Hg. case_bool_decide as E.
  - subst i. rewrite list_lookup_insert_eq in Hg by (rewrite length_map, length_seqZ; lia). injection Hg as <-. split; [lia | reflexivity].
  - rewrite list_lookup_insert_ne in Hg by congruence. rewrite list_lookup_fmap in Hg.
    destruct (seqZ 0 256 !! i) as [z|] eqn:Ez; [|discriminate Hg]. apply lookup_seqZ in Ez as [-> Hi]. injection Hg as <-. split; [lia | reflexivity].
Qed.

Lemma SETGATE_offset istrap sel off d : let g := SETGATE istrap sel off d in g_off_15_0 g + 65536 * g_off_31_16 g = w32 off.
Proof.
  cbn. change 0xffff with (Z.ones 16). rewrite Z.land_ones, Z.shiftr_div_pow2 by lia. unfold w32. change (2 ^ 16) with 65536.
  rewrite <- (Z.mod_mod_divide off 4294967296 65536) by (exists 65536; reflexivity).
  pose proof (Z.div_mod (off mod 4294967296) 65536 ltac:(lia)). lia.
Qed.

(** trap.c, [tvinit]; mmu.h, [SETGATE]: what user code may enter.  Every
    entry of the interrupt table is present and leads to its own entry point in
    the kernel's code segment.  Only the entry of system calls may be used by an
    int instruction of a user program, and it alone leaves interrupts enabled. *)
Lemma only_syscall_gate_open vectors (i : nat) :
  (i < 256)%nat -> exists g, tvinit_idt vectors !! i = Some g /\
    g_p g = 1 /\ g_cs g = 8 /\ g_off_15_0 g + 65536 * g_off_31_16 g = w32 (vectors (Z.of_nat i)) /\
    (3 <= g_dpl g <-> i = 64%nat) /\ (g_type g = STS_TG32 <-> i = 64%nat).
Proof.
  intros Hi. destruct (lookup_lt_is_Some_2 (tvinit_idt vectors) i) as [g Hg].
  { unfold tvinit_idt. rewrite length_insert, length_map, length_seqZ. lia. }
  exists g. split; [exact Hg|]. apply tvinit_idt_gate in Hg as [_ ->].
  split; [reflexivity|]. split; [reflexivity|]. split; [apply SETGATE_offset|]. cbn [SETGATE g_dpl g_type].
  case_bool_decide; unfold DPL_USER, STS_TG32, STS_IG32; split; split; intros; lia.
Qed.


(** ** The timer *)

Section Timer.
Context `{Image, Rounds} (kbd uart : list Z) (cr2 : Z) (tf : trapframe) (Htimer : tf_trapno tf = T_IRQ0 + IRQ_TIMER).
Context (i : nat).

(** The state after a tick. *)
Definition ticked (s : kstate) : kstate :=
  touch (set_procs (map (wake ChTicks) (k_procs s)) (set_ticks (w32 (k_ticks s + 1)) s)).

Lemma cpuid_first s ids : cpu_ok s -> c_if (k_cpu s) = false -> k_apicids s = c_apicid (k_cpu s) :: ids -> cpuid s = Ok 0 s.
Proof.
  intros Hc Hif Hids. unfold cpuid. erewrite bind_ok by (apply mycpu_ok; [apply Hc | exact Hif]). erewrite bind_ok by reflexivity.
  rewrite Hids. cbn [cpu_index]. rewrite Z.eqb_refl. reflexivity.
Qed.

Lemma tick s ids : running i 0 s -> c_if (k_cpu s) = false -> k_apicids s = c_apicid (k_cpu s) :: ids -> lock_free LTicks s ->
  trap_irq kbd uart cr2 tf s = Ok tt (ticked s).
Proof.
  intros [Hc Hn Hp He Hpt] Hif Hids Hl. unfold trap_irq. rewrite Htimer, Z.eqb_refl.
  rewrite (bind_ok _ _ _ _ _ (cpuid_first s ids Hc Hif Hids)). cbn [Z.eqb when].
  erewrite bind_ok by (apply acquire_ok; [exact Hc | apply Hl]). unfold modify at 1. erewrite bind_ok by reflexivity.
  erewrite bind_ok.
  2: { apply wakeup_ok; [destruct (cpu_ok_push s Hc); constructor; assumption|]. apply (free_ne LTicks LPtable); [discriminate | exact Hpt]. }
  rewrite touch_id by (cbn; lia). rewrite (release_balanced LTicks s) by (assumption || reflexivity). destruct s; reflexivity.
Qed.

Lemma running_ticked s : running i 0 s -> running i 0 (ticked s).
Proof.
  intros [Hc Hn Hp [p He] Hpt]. apply running_touch. constructor; try assumption; [cpuok|].
  exists (wake ChTicks p). cbn [k_procs set_procs]. rewrite lookup_wake. cbn [k_procs set_ticks]. rewrite He. reflexivity.
Qed.

(** A process that is not killed, or does not come from user mode, stays. *)
Lemma exit_if_killed_stays cs s p : cpu_ok s -> c_proc (k_cpu s) = Some i -> k_procs s !! i = Some p ->
  p_killed p = 0 \/ Z.land cs 3 <> DPL_USER -> exit_if_killed cs s = Ok tt (touch s).
Proof.
  intros Hc Hi Hp Hk. unfold exit_if_killed. erewrite bind_ok by (apply myproc_ok, Hc). rewrite Hi.
  erewrite bind_ok by (apply get_proc_ok; exact Hp).
  replace (negb (p_killed p =? 0) && (Z.land cs 3 =? DPL_USER)) with false; [reflexivity|].
  destruct Hk as [-> | Hk]; [reflexivity | rewrite (proj2 (Z.eqb_neq _ _) Hk), andb_false_r; reflexivity].
Qed.

Lemma exit_if_killed_exits cs s p : cpu_ok s -> c_proc (k_cpu s) = Some i -> k_procs s !! i = Some p ->
  p_killed p <> 0 -> Z.land cs 3 = DPL_USER -> exit_if_killed cs s = exit (touch s).
Proof.
  intros Hc Hi Hp Hk Hu. unfold exit_if_killed. erewrite bind_ok by (apply myproc_ok, Hc). rewrite Hi.
  erewrite bind_ok by (apply get_proc_ok; exact Hp). rewrite (proj2 (Z.eqb_neq _ _) Hk), Hu. reflexivity.
Qed.
(** [yield] switches away with the process RUNNABLE and the table locked, and
    comes back with it unlocked. *)
Lemma yield_switches s p : running i 0 s -> k_procs s !! i = Some p ->
  exists s1 k, yield s = Switch s1 k /\ holds LPtable 1 s1 /\ k_procs s1 = <[i := set_p_state RUNNABLE p]> (k_procs s) /\
    k_ticks s1 = k_ticks s /\ (forall l, l <> LPtable -> k_locks s1 l = k_locks s l) /\
    forall s2, holds LPtable 1 s2 -> exists s3, k s2 = Ok tt s3 /\ cpu_ok s3 /\ lock_free LPtable s3 /\
      k_procs s3 = k_procs s2 /\ c_proc (k_cpu s3) = c_proc (k_cpu s2).
Proof.
  intros [Hc Hn Hp He Hpt] Hpi. unfold yield. rewrite bind_andthen. rewrite (acquire_ok _ s Hc (proj1 Hpt)). cbn [andthen].
  set (s0 := locked_state LPtable s). assert (Hs0 : holds LPtable 1 s0) by (pose proof (locked_holds LPtable s Hc) as Hh; rewrite Hn in Hh; exact Hh).
  rewrite (bind_ok _ _ s0 _ _ (myproc_ok s0 (ho_cpu _ _ _ Hs0))). rewrite touch_id by (rewrite (ho_ncli _ _ _ Hs0); lia).
  change (c_proc (k_cpu s0)) with (c_proc (k_cpu s)). rewrite Hp. erewrite bind_ok by reflexivity.
  erewrite bind_ok by (apply (upd_proc_ok i _ p); exact Hpi). set (s1 := set_procs _ s0).
  assert (H1 : holds LPtable 1 s1) by (apply holds_procs, Hs0).
  assert (Hp1 : k_procs s1 !! i = Some (set_p_state RUNNABLE p)) by (apply list_lookup_insert_eq; eapply lookup_lt_Some; exact Hpi).
  rewrite bind_andthen, (sched_switch s1 i _ H1 Hp Hp1 ltac:(discriminate)). cbn [andthen].
  eexists s1, _. split; [reflexivity|]. split; [exact H1|]. split; [reflexivity|]. split; [reflexivity|].
  split; [intros l Hl; cbn [s1 s0 k_locks set_procs locked_state set_locks]; apply fupd_ne, Hl|].
  intros s2 [Hc2 Hn2 [nm2 Hl2]]. cbv beta.
  assert (Hif : c_if (k_cpu s2) = false) by (apply (cpu_masked s2 Hc2); lia).
  erewrite (bind_ok mycpu) by (apply mycpu_ok; [apply Hc2 | exact Hif]). unfold upd_cpu, modify. cbn [andthen].
  set (s3 := set_cpu _ s2). assert (H3 : holds LPtable 1 s3) by (constructor; [destruct Hc2; constructor; assumption | exact Hn2 | exists nm2; exact Hl2]).
  rewrite (release_holds LPtable 1 s3 H3 ltac:(lia)). eexists. split; [reflexivity|]. split; [|split; [|split; reflexivity]].
  - destruct (cpu_ok_pop s3 (ho_cpu _ _ _ H3) ltac:(rewrite (ho_ncli _ _ _ H3); lia)). constructor; assumption.
  - unfold lock_free, unlocked_state. cbn [k_locks set_locks]. rewrite fupd_eq. split; reflexivity.
Qed.

(** C37 (trap.c, [trap]): the clock takes the CPU away.  A timer interrupt on the
    first CPU advances the tick count modulo 2^32, makes every process that
    sleeps for ticks RUNNABLE, and then switches to the scheduler with the
    interrupted process RUNNABLE and only ptable.lock held.  When the scheduler
    comes back the handler returns with the table unlocked; if the process has
    been killed in the meantime and was in user mode, it exits instead. *)
Theorem timer_preempts s p ids :
  running i 0 s -> c_if (k_cpu s) = false -> k_apicids s = c_apicid (k_cpu s) :: ids -> lock_free LTicks s ->
  k_procs s !! i = Some p -> p_state p = RUNNING -> p_killed p = 0 ->
  exists s1 k, trap kbd uart cr2 tf s = Switch s1 k /\ k_ticks s1 = w32 (k_ticks s + 1) /\
    k_procs s1 = <[i := set_p_state RUNNABLE p]> (map (wake ChTicks) (k_procs s)) /\
    holds LPtable 1 s1 /\ lock_free LTicks s1 /\
    forall s2 q, holds LPtable 1 s2 -> c_proc (k_cpu s2) = Some i -> k_procs s2 !! i = Some q ->
      exists s3, lock_free LPtable s3 /\ k_procs s3 = k_procs s2 /\
        (p_killed q = 0 \/ Z.land (tf_cs tf) 3 <> DPL_USER -> k s2 = Ok tt s3) /\
        (p_killed q <> 0 -> Z.land (tf_cs tf) 3 = DPL_USER -> k s2 = exit s3).
Proof.
  intros Hr Hif Hids Hl Hpi Hrun Hk. unfold trap. rewrite Htimer. change (_ =? T_SYSCALL) with false. cbv iota.
  rewrite (bind_ok _ _ _ _ _ (tick s ids Hr Hif Hids Hl)). pose proof (running_ticked s Hr) as Hr1. set (s1 := ticked s) in *.
  assert (Hp1 : k_procs s1 !! i = Some p).
  { change (k_procs s1) with (map (wake ChTicks) (k_procs s)). rewrite lookup_wake, Hpi. cbn. f_equal. unfold wake. rewrite decide_False; [reflexivity|]. rewrite Hrun. intros [E _]. discriminate E. }
  erewrite bind_ok by (eapply exit_if_killed_stays; [apply Hr1 | apply Hr1 | exact Hp1 | left; exact Hk]).
  rewrite (touch_idem (set_procs _ _) : touch s1 = s1).
  erewrite bind_ok by (apply myproc_ok, Hr1). rewrite (touch_idem (set_procs _ _) : touch s1 = s1), (ru_proc _ _ _ Hr1).
  rewrite bind_andthen. erewrite bind_ok by (apply get_proc_ok, Hp1). rewrite Hrun, bool_decide_eq_true_2, Z.eqb_refl by reflexivity. cbn [andb when].
  destruct (yield_switches s1 p Hr1 Hp1) as (s2 & k & E & Hh & Hps & Ht & Hlk & Hback). rewrite E. cbn [andthen].
  eexists s2, _. split; [reflexivity|]. split; [exact Ht|]. split; [exact Hps|]. split; [exact Hh|].
  split; [unfold lock_free; rewrite (Hlk LTicks) by discriminate; exact Hl|].
  intros s3 q H3 Hi3 Hq. destruct (Hback s3 H3) as (s4 & E4 & Hc4 & Hf4 & Hp4 & Hi4). cbv beta. rewrite E4. cbn [andthen]. exists (touch s4).
  split; [exact Hf4|]. split; [exact Hp4|]. rewrite <- Hp4 in Hq. rewrite Hi3 in Hi4. split.
  - intros Hk'. eapply exit_if_killed_stays; eassumption.
  - intros Hk' Hu. eapply exit_if_killed_exits; eassumption.
Qed.
End Timer.

Definition timer_tf : trapframe := mkTrapframe 0 0 0 0 0 0 0 0 0 0 0 0 32 0 0x1000 0x1b 0 0 0x23.

Lemma timer_preempts_witness :
  exists s1 k, @trap build_image rounds4 [] [] 0 timer_tf prun = Switch s1 k /\ k_ticks s1 = 1.
Proof.
  destruct (@timer_preempts build_image rounds4 [] [] 0 timer_tf eq_refl 0 prun proc0 []) as (s1 & k & E & Ht & _).
  - exact prun_running.
  - reflexivity.
  - reflexivity.
  - split; reflexivity.
  - reflexivity.
  - reflexivity.
  - reflexivity.
  - exists s1, k. split; [exact E | exact Ht].
Defined.
