(* ===== verification/Tty.v ===== *)
(** * The line discipline of solution/console.c

    The circular input buffer with its three indices implements a queue of
    bytes that readers may take and a line that is still being edited.  This
    file says what each character does to them and what a reader gets. *)

From Stdlib Require Import ZArith Lia ZifyBool ZifyNat.
From stdpp Require Import base list strings gmap.
From S2P Require Import Prelude Mem Mmu Kernel Spinlock Kalloc Vm VmFacts Sched Runs Bio Log Fs Uaccess Pipe Console.

(** ** What the terminal does *)

(** The bytes for the readers, the line under the cursor, what has been printed
    (newest first) and whether readers have been woken. *)
Record tty : Type := mkTty { t_done : list Z; t_line : list Z; t_echo : list string; t_wakes : bool }.

Definition erase : string := (chr 8 ++ chr 32 ++ chr 8)%string.
Definition held (t : tty) : Z := Z.of_nat (length (t_done t) + length (t_line t)).

Definition tty_put (c : Z) (t : tty) : tty :=
  let line := t_line t ++ [c] in
  if (c =? LF) || (c =? C_D) || (held t + 1 =? INPUT_BUF)
  then mkTty (t_done t ++ line) [] (chr c :: t_echo t) true
  else mkTty (t_done t) line (chr c :: t_echo t) (t_wakes t).

(** Control-P does nothing here, control-U erases the line, backspace and delete
    erase a character; any other character is added unless the buffer is full.
    A newline, control-D or the last free place ends the line. *)
Definition tty_char (c : Z) (t : tty) : tty :=
  if c =? C_P then t
  else if c =? C_U then mkTty (t_done t) [] (replicate (length (t_line t)) erase ++ t_echo t) (t_wakes t)
  else if (c =? C_H) || (c =? DEL) then
    match t_line t with
    | [] => t
    | l => mkTty (t_done t) (removelast l) (erase :: t_echo t) (t_wakes t)
    end
  else if (c =? 0) || (INPUT_BUF <=? held t) then t
  else tty_put (if c =? CR then LF else c) t.
Definition tty_chars (cs : list Z) (t : tty) : tty := foldl (fun t c => tty_char c t) t cs.

(** ** The buffer implements it *)

Record shows (x : input_t) (t : tty) : Prop := {
  sh_len : length (in_buf x) = 128%nat;
  sh_r : u32 (in_r x);
  sh_w : in_w x = w32 (in_r x + Z.of_nat (length (t_done t)));
  sh_e : in_e x = w32 (in_r x + held t);
  sh_size : held t <= INPUT_BUF;
  sh_bytes : forall j c, (t_done t ++ t_line t) !! j = Some c -> in_at x (in_r x + Z.of_nat j) = c;
  sh_line : LF ∉ t_line t }.

Lemma w32_mod_128 a : w32 a mod 128 = a mod 128.
Proof. unfold w32. apply Z.mod_mod_divide. exists 33554432. reflexivity. Qed.

Lemma in_at_w32 x a : in_at x (w32 a) = in_at x a.
Proof. unfold in_at, INPUT_BUF. rewrite w32_mod_128. reflexivity. Qed.

Lemma w32_diff r a b : w32 (w32 (r + a) - w32 (r + b)) = w32 (a - b).
Proof. unfold w32. rewrite <- Zminus_mod. f_equal. lia. Qed.

Lemma w32_shift r a b : w32 (w32 (r + a) + b) = w32 (r + (a + b)).
Proof. unfold w32. rewrite Z.add_mod_idemp_l by lia. f_equal. lia. Qed.

Lemma w32_eqb r a b : 0 <= a < 4294967296 -> 0 <= b < 4294967296 -> (w32 (r + a) =? w32 (r + b)) = (a =? b).
Proof.
  intros Ha Hb. destruct (Z.eqb_spec a b) as [-> | Hne]; [apply Z.eqb_refl|]. apply Z.eqb_neq. intros E. apply Hne.
  assert (H : w32 (a - b) = 0) by (rewrite <- (w32_diff r), E, Z.sub_diag; reflexivity).
  unfold w32 in H. apply Z.mod_divide in H as [k Hk]; lia.
Qed.

Lemma in_at_ne x a b c : length (in_buf x) = 128%nat -> 0 < b - a < 128 ->
  in_at (set_in_buf (<[Z.to_nat (b mod INPUT_BUF) := c]> (in_buf x)) x) a = in_at x a.
Proof.
  intros Hl Hab. unfold in_at, INPUT_BUF. cbn [in_buf set_in_buf]. rewrite !nth_lookup, list_lookup_insert_ne; [reflexivity|].
  pose proof (Z.mod_pos_bound a 128 ltac:(lia)). pose proof (Z.mod_pos_bound b 128 ltac:(lia)). intros E.
  assert (H1 : (b - a) mod 128 = 0) by (rewrite Zminus_mod; replace (b mod 128) with (a mod 128) by lia; rewrite Z.sub_diag; reflexivity).
  rewrite Z.mod_small in H1 by lia. lia.
Qed.

Lemma in_at_eq x a c : length (in_buf x) = 128%nat ->
  in_at (set_in_buf (<[Z.to_nat (a mod INPUT_BUF) := c]> (in_buf x)) x) a = c.
Proof.
  intros Hl. unfold in_at, INPUT_BUF. cbn [in_buf set_in_buf]. pose proof (Z.mod_pos_bound a 128 ltac:(lia)).
  rewrite nth_lookup, list_lookup_insert_eq by lia. reflexivity.
Qed.

Lemma shows_ext x t t' : shows x t -> t_done t' = t_done t -> t_line t' = t_line t -> shows x t'.
Proof. intros [H1 H2 H3 H4 H5 H6 H7] E1 E2. constructor; unfold held in *; rewrite ?E1, ?E2; assumption. Qed.

Section Shows.
Context (x : input_t) (t : tty) (Hs : shows x t).

Lemma held_range : 0 <= held t <= 128.
Proof. pose proof (sh_size _ _ Hs) as H. unfold held, INPUT_BUF in *. lia. Qed.

Lemma shows_nonempty : (in_e x =? in_w x) = bool_decide (t_line t = []).
Proof.
  pose proof held_range. rewrite (sh_e _ _ Hs), (sh_w _ _ Hs), w32_eqb; unfold held in *; try lia.
  case_bool_decide as E; [apply Z.eqb_eq; rewrite E; cbn [length]; lia | apply Z.eqb_neq; destruct (t_line t); [congruence | cbn [length]; lia]].
Qed.

Lemma shows_unread : (in_r x =? in_w x) = bool_decide (t_done t = []).
Proof.
  pose proof held_range. rewrite (sh_w _ _ Hs). rewrite <- (Z.add_0_r (in_r x)) at 1. replace (in_r x + 0) with (w32 (in_r x + 0)) by (rewrite Z.add_0_r; apply w32_small, (sh_r _ _ Hs)).
  rewrite w32_eqb; unfold held in *; try lia. case_bool_decide as E; [apply Z.eqb_eq; rewrite E; cbn [length]; lia | apply Z.eqb_neq; destruct (t_done t); [congruence | cbn [length]; lia]].
Qed.

Lemma shows_room : w32 (in_e x - in_r x) = held t.
Proof.
  pose proof held_range. rewrite (sh_e _ _ Hs). replace (in_r x) with (w32 (in_r x + 0)) at 2 by (rewrite Z.add_0_r; apply w32_small, (sh_r _ _ Hs)).
  rewrite w32_diff, Z.sub_0_r. apply w32_small. unfold u32. lia.
Qed.

Lemma shows_full : (in_e x =? w32 (in_r x + INPUT_BUF)) = (held t =? INPUT_BUF).
Proof. pose proof held_range. rewrite (sh_e _ _ Hs). apply w32_eqb; unfold INPUT_BUF; lia. Qed.

(** Erasing the last character of the line. *)
Lemma shows_erase l c : t_line t = l ++ [c] -> forall e w, shows (set_in_e (w32 (in_e x - 1)) x) (mkTty (t_done t) l e w).
Proof.
  intros El e w. destruct Hs as [H1 H2 H3 H4 H5 H6 H7]. unfold held in *. rewrite El in *. rewrite length_app in *. cbn [length] in *.
  constructor; cbn [in_buf in_r in_w in_e set_in_e t_done t_line]; unfold held; cbn [t_done t_line]; [exact H1 | exact H2 | exact H3 | | lia | | set_solver].
  - rewrite H4. change (w32 (in_r x + Z.of_nat (length (t_done t) + (length l + 1))) - 1) with (w32 (in_r x + Z.of_nat (length (t_done t) + (length l + 1))) + -1).
    rewrite w32_shift. f_equal. lia.
  - intros j b Hj. apply (H6 j b). rewrite app_assoc. apply lookup_app_l_Some, Hj.
Qed.

Lemma shows_last l c : t_line t = l ++ [c] -> in_at x (w32 (in_e x - 1)) = c.
Proof.
  intros El. destruct Hs as [H1 H2 H3 H4 H5 H6 H7]. rewrite H4.
  change (w32 (in_r x + held t) - 1) with (w32 (in_r x + held t) + -1). rewrite w32_shift, in_at_w32.
  replace (held t + -1) with (Z.of_nat (length (t_done t ++ l))) by (unfold held; rewrite El, !length_app; cbn; lia).
  apply H6. rewrite El, app_assoc. rewrite lookup_app_r, Nat.sub_diag by lia. reflexivity.
Qed.

(** Adding a character, and ending the line. *)
Definition in_push (c : Z) (x : input_t) : input_t :=
  set_in_e (w32 (in_e x + 1)) (set_in_buf (<[Z.to_nat (in_e x mod INPUT_BUF) := c mod 256]> (in_buf x)) x).

Lemma push_len c : length (in_buf (in_push c x)) = 128%nat.
Proof. cbn. rewrite length_insert. apply Hs. Qed.

Lemma push_bytes c : 0 <= c < 256 -> held t < INPUT_BUF ->
  forall j b, (t_done t ++ t_line t ++ [c]) !! j = Some b -> in_at (in_push c x) (in_r x + Z.of_nat j) = b.
Proof.
  intros Hc Hlt j b Hj. rewrite app_assoc in Hj. unfold INPUT_BUF in Hlt.
  assert (Hm : in_e x mod INPUT_BUF = (in_r x + held t) mod INPUT_BUF) by (rewrite (sh_e _ _ Hs); apply w32_mod_128).
  unfold in_push. rewrite Hm, (Z.mod_small c) by lia. change (in_at (set_in_e ?e ?y) ?a) with (in_at y a).
  assert (Hh : held t = Z.of_nat (length (t_done t ++ t_line t))) by (unfold held; rewrite length_app; reflexivity).
  apply lookup_app_Some in Hj as [Hj | [Hge Hj]].
  - apply lookup_lt_Some in Hj as Hl. rewrite in_at_ne; [apply (sh_bytes _ _ Hs), Hj | apply Hs | lia].
  - destruct (j - _)%nat eqn:E in Hj; [|discriminate Hj]. injection Hj as <-. replace (Z.of_nat j) with (held t) by lia. apply in_at_eq, Hs.
Qed.

Lemma push_shows c e w : 0 <= c < 256 -> held t < INPUT_BUF -> c <> LF ->
  shows (in_push c x) (mkTty (t_done t) (t_line t ++ [c]) e w).
Proof.
  intros Hc Hlt Hne. pose proof (push_bytes c Hc Hlt) as Hb. pose proof (push_len c) as Hl. destruct Hs as [H1 H2 H3 H4 H5 H6 H7].
  constructor; cbn [t_done t_line]; unfold held; cbn [t_done t_line]; [exact Hl | exact H2 | exact H3 | | | exact Hb | set_solver].
  - cbn [in_e in_push set_in_e in_r set_in_buf]. rewrite H4, w32_shift. f_equal. unfold held. rewrite length_app. cbn. lia.
  - unfold held in Hlt. rewrite length_app. cbn. lia.
Qed.

Lemma push_commits c e w : 0 <= c < 256 -> held t < INPUT_BUF ->
  let y := in_push c x in shows (set_in_w (in_e y) y) (mkTty (t_done t ++ t_line t ++ [c]) [] e w).
Proof.
  intros Hc Hlt y. pose proof (push_bytes c Hc Hlt) as Hb. pose proof (push_len c) as Hl. destruct Hs as [H1 H2 H3 H4 H5 H6 H7].
  assert (He : in_e y = w32 (in_r x + Z.of_nat (length (t_done t ++ t_line t ++ [c])))).
  { subst y. cbn [in_e in_push set_in_e]. rewrite H4, w32_shift. f_equal. unfold held. rewrite !length_app. cbn. lia. }
  constructor; cbn [t_done t_line]; unfold held; cbn [t_done t_line]; [exact Hl | exact H2 | exact He | | | | set_solver].
  - cbn [length]. rewrite Nat.add_0_r. exact He.
  - unfold held in Hlt. rewrite !length_app. cbn [length]. lia.
  - rewrite app_nil_r. exact Hb.
Qed.

(** Taking the oldest byte. *)
Lemma pop_shows c l e w : t_done t = c :: l -> in_at x (in_r x) = c /\ shows (set_in_r (w32 (in_r x + 1)) x) (mkTty l (t_line t) e w).
Proof.
  intros E. destruct Hs as [H1 H2 H3 H4 H5 H6 H7]. unfold held in *. rewrite E in *. cbn [length] in *. split.
  - rewrite <- (Z.add_0_r (in_r x)). apply (H6 0%nat). reflexivity.
  - constructor; cbn [t_done t_line in_r set_in_r in_w in_e in_buf]; unfold held; cbn [t_done t_line]; [exact H1 | | | | lia | | exact H7].
    + unfold u32, w32. apply Z.mod_pos_bound. lia.
    + rewrite H3, w32_shift. f_equal. lia.
    + rewrite H4, w32_shift. f_equal. lia.
    + intros j b Hj. specialize (H6 (S j) b Hj). rewrite <- H6. change (in_at (set_in_r ?r x) ?a) with (in_at x a).
      rewrite <- in_at_w32, w32_shift, in_at_w32. f_equal. lia.
Qed.
End Shows.

(** ** consoleintr *)

Section Interrupt.
Context (s : kstate) (Hcpu : cpu_ok s) (Hcli : 0 < c_ncli (k_cpu s)) (Hpt : lock_free LPtable s).

(** The state after some characters. *)
Definition con (x : input_t) (o : list string) (w : bool) : kstate :=
  set_procs (if w then map (wake ChInput) (k_procs s) else k_procs s) (set_out o (set_input x s)).

Lemma wake_wake ch p : wake ch (wake ch p) = wake ch p.
Proof.
  unfold wake at 2 3. case_decide as H; unfold wake; case_decide as H'; try reflexivity; try contradiction.
Qed.

Lemma con_wakeup x o w : wakeup ChInput (con x o w) = Ok tt (con x o true).
Proof.
  rewrite wakeup_ok; [|cpuok|exact Hpt]. rewrite touch_id by exact Hcli. f_equal. unfold con. destruct w; cbn [k_procs set_procs]; [|reflexivity].
  rewrite map_map. rewrite (map_ext _ _ (wake_wake ChInput)). reflexivity.
Qed.

Lemma con_puts c x o w : consputc c (con x o w) = Ok tt (con x ((if c =? BACKSPACE then erase else chr c) :: o) w).
Proof. reflexivity. Qed.

Lemma con_get x o w : get_input (con x o w) = Ok x (con x o w).
Proof. reflexivity. Qed.
Lemma con_upd f x o w : upd_input f (con x o w) = Ok tt (con (f x) o w).
Proof. reflexivity. Qed.
Ltac con := repeat (erewrite bind_ok by first [apply con_get | apply con_upd | apply con_puts]); cbv beta.

Lemma kill_line_ok l : forall fuel x t o w, shows x t -> t_line t = l -> (length l < fuel)%nat ->
  exists x', kill_line fuel (con x o w) = Ok tt (con x' (replicate (length l) erase ++ o) w) /\
    forall e w', shows x' (mkTty (t_done t) [] e w').
Proof.
  induction l as [|c l IH] using rev_ind; intros [|fuel] x t o w Hs El Hf; try (cbn in Hf; lia); cbn [kill_line]; con.
  - exists x. rewrite (shows_nonempty x t Hs), El.
    split; [reflexivity|]. intros e w'. eapply shows_ext; [exact Hs | reflexivity | symmetry; exact El].
  - rewrite (shows_nonempty x t Hs), (shows_last x t Hs l c El), bool_decide_eq_false_2 by (rewrite El; destruct l; discriminate).
    replace (c =? LF) with false by (symmetry; apply Z.eqb_neq; pose proof (sh_line _ _ Hs) as Hl; rewrite El in Hl; set_solver). cbn [negb andb].
    con. rewrite length_app in Hf |- *. cbn [length] in Hf |- *.
    destruct (IH fuel _ _ (erase :: o) w (shows_erase x t Hs l c El [] w) eq_refl ltac:(lia)) as (x' & E & Hx').
    exists x'. split; [|exact Hx']. rewrite Z.eqb_refl, E, Nat.add_1_r. f_equal. f_equal.
    change (erase :: o) with ([erase] ++ o). rewrite app_assoc, <- replicate_cons_app. reflexivity.
Qed.

Lemma put_char_ok c x t : shows x t -> 0 <= c < 256 ->
  let t' := if (c =? 0) || (INPUT_BUF <=? held t) then t else tty_put (if c =? CR then LF else c) t in
  exists x', put_char c (con x (t_echo t) (t_wakes t)) = Ok tt (con x' (t_echo t') (t_wakes t')) /\ shows x' t'.
Proof.
  intros Hs Hc t'. unfold put_char. con. rewrite (shows_room x t Hs).
  replace (negb (c =? 0) && (held t <? INPUT_BUF)) with (negb ((c =? 0) || (INPUT_BUF <=? held t))) by lia.
  subst t'. destruct ((c =? 0) || (INPUT_BUF <=? held t)) eqn:Eg; cbn [negb when]; [exists x; split; [reflexivity | exact Hs]|].
  set (c' := if c =? CR then LF else c). assert (Hc' : 0 <= c' < 256) by (unfold c', LF; destruct (c =? CR); lia).
  assert (Hroom : held t < INPUT_BUF) by lia. con. change (set_in_e _ _) with (in_push c' x).
  replace (c' =? BACKSPACE) with false by (unfold BACKSPACE; lia).
  assert (Hfull : (in_e (in_push c' x) =? w32 (in_r x + INPUT_BUF)) = (held t + 1 =? INPUT_BUF)).
  { cbn [in_e in_push set_in_e]. rewrite (sh_e _ _ Hs), w32_shift. pose proof (held_range x t Hs). apply w32_eqb; unfold INPUT_BUF; lia. }
  change (in_r (in_push c' x)) with (in_r x). rewrite Hfull. unfold tty_put.
  destruct ((c' =? LF) || (c' =? C_D) || (held t + 1 =? INPUT_BUF)) eqn:Ec; cbn [when].
  - con. rewrite con_wakeup. eexists. split; [reflexivity|]. apply (push_commits x t Hs c' _ _ Hc' Hroom).
  - eexists. split; [reflexivity|]. apply (push_shows x t Hs c' _ _ Hc' Hroom). lia.
Qed.

Lemma console_char_ok c x t : shows x t -> 0 <= c < 256 ->
  exists x', console_char c (con x (t_echo t) (t_wakes t)) = Ok (c =? C_P) (con x' (t_echo (tty_char c t)) (t_wakes (tty_char c t))) /\
    shows x' (tty_char c t).
Proof.
  intros Hs Hc. unfold console_char, tty_char. destruct (c =? C_P); [exists x; split; [reflexivity | exact Hs]|].
  destruct (c =? C_U).
  { destruct (kill_line_ok (t_line t) (S (Z.to_nat INPUT_BUF)) x t (t_echo t) (t_wakes t) Hs eq_refl) as (x' & E & Hx').
    - pose proof (held_range x t Hs). unfold held in *. unfold INPUT_BUF. lia.
    - exists x'. rewrite (bind_ok _ _ _ _ _ E). split; [reflexivity | apply Hx']. }
  destruct ((c =? C_H) || (c =? DEL)).
  - con. rewrite (shows_nonempty x t Hs). destruct (t_line t) as [|b l] eqn:El; [exists x; split; [reflexivity | exact Hs]|].
    rewrite bool_decide_eq_false_2 by discriminate. cbn [negb when]. eexists. split; [reflexivity|]. cbn [t_echo t_wakes].
    apply (shows_erase x t Hs _ (List.last (b :: l) 0)). rewrite El. apply app_removelast_last. discriminate.
  - destruct (put_char_ok c x t Hs Hc) as (x' & E & Hx'). exists x'. rewrite (bind_ok _ _ _ _ _ E). split; [reflexivity | exact Hx'].
Qed.

Lemma console_chars_ok cs : forall x t b, shows x t -> Forall (fun c => 0 <= c < 256) cs ->
  exists x', console_chars cs b (con x (t_echo t) (t_wakes t)) =
      Ok (b || existsb (Z.eqb C_P) cs) (con x' (t_echo (tty_chars cs t)) (t_wakes (tty_chars cs t))) /\
    shows x' (tty_chars cs t).
Proof.
  induction cs as [|c cs IH]; intros x t b Hs Hcs; cbn [console_chars].
  - exists x. rewrite orb_false_r. split; [reflexivity | exact Hs].
  - apply Forall_cons_1 in Hcs as [Hc Hcs]. destruct (console_char_ok c x t Hs Hc) as (x1 & E & Hx1). rewrite (bind_ok _ _ _ _ _ E).
    destruct (IH x1 (tty_char c t) (b || (c =? C_P)) Hx1 Hcs) as (x2 & E2 & Hx2). exists x2. cbn [tty_chars foldl existsb] in *. rewrite E2.
    split; [|exact Hx2]. rewrite <- orb_assoc, (Z.eqb_sym C_P c). reflexivity.
Qed.
End Interrupt.

(** Code that only prints. *)
Definition prints (m : K unit) : Prop := forall s, exists o, m s = Ok tt (set_out (o ++ k_out s) s).

Lemma prints_ret : prints (ret tt).
Proof. intros s. exists []. destruct s; reflexivity. Qed.
Lemma prints_seq m m' : prints m -> prints m' -> prints (m ;; m').
Proof.
  intros H H' s. destruct (H s) as [o E]. rewrite (bind_ok _ _ _ _ _ E). destruct (H' (set_out (o ++ k_out s) s)) as [o' E'].
  exists (o' ++ o). rewrite E', <- app_assoc. reflexivity.
Qed.
Lemma prints_read {A} (f : kstate -> A) k : (forall a, prints (k a)) -> prints (let! a := gets f in k a).
Proof. intros H s. erewrite bind_ok by reflexivity. apply H. Qed.
Lemma prints_cprintf msg : prints (cprintf msg).
Proof. intros s. exists [msg]. reflexivity. Qed.
Lemma prints_args fmt args : is_Some (cprintf_chars (chars fmt) args) -> prints (cprintf_args fmt args).
Proof. intros [l E]. unfold cprintf_args. rewrite E. apply prints_cprintf. Qed.

Lemma print_pcs_prints pcs : prints (print_pcs pcs).
Proof.
  induction pcs as [|pc pcs IH]; cbn [print_pcs]; [apply prints_ret|]. destruct (pc =? 0); [apply prints_ret|].
  apply prints_seq; [apply prints_args; eexists; reflexivity | exact IH].
Qed.

Lemma procdump_prints : prints procdump.
Proof.
  apply prints_read. intros ps. induction ps as [|p ps IH]; cbn [procdump_loop]; [apply prints_ret|]. apply prints_seq; [|exact IH].
  unfold procdump_one. destruct (p_state p); [apply prints_ret|..].
  all: apply prints_seq; [apply prints_args; eexists; reflexivity|]; apply prints_seq; [|apply prints_cprintf].
  all: destruct (bool_decide _); cbn [when]; [|apply prints_ret].
  all: apply prints_read; intros ebp; apply prints_read; intros pcs; apply print_pcs_prints.
Qed.

Lemma consoleintr_run s t cs :
  cpu_ok s -> lock_free LCons s -> lock_free LPtable s -> Forall (fun c => 0 <= c < 256) cs ->
  shows (k_input s) t -> t_echo t = k_out s -> t_wakes t = false ->
  let t' := tty_chars cs t in
  exists x o, consoleintr cs s =
      Ok tt (touch (set_procs (if t_wakes t' then map (wake ChInput) (k_procs s) else k_procs s) (set_out (o ++ t_echo t') (set_input x s)))) /\
    shows x t' /\ (C_P ∉ cs -> o = []).
Proof.
  intros Hc Hl Hpt Hcs Hs He Hw t'. unfold consoleintr. erewrite bind_ok by (apply acquire_ok; [exact Hc | apply Hl]).
  set (s1 := locked_state LCons s). assert (H1 : cpu_ok s1) by (destruct (cpu_ok_push s Hc); constructor; assumption).
  assert (H2 : 0 < c_ncli (k_cpu s1)) by (pose proof (cpu_ncli _ Hc); cbn; lia).
  assert (H3 : lock_free LPtable s1) by (apply free_ne; [discriminate | exact Hpt]).
  destruct (console_chars_ok s1 H1 H2 H3 cs (k_input s) t false Hs Hcs) as (x & E & Hx).
  replace (con s1 (k_input s) (t_echo t) (t_wakes t)) with s1 in E by (rewrite He, Hw; destruct s; reflexivity).
  rewrite (bind_ok _ _ _ _ _ E). erewrite bind_ok by (apply (release_balanced LCons s); [exact Hc | exact Hl | reflexivity..]).
  cbn [orb]. fold t'. set (s2 := set_locks _ _). destruct (existsb (Z.eqb C_P) cs) eqn:Ep; cbn [when].
  - destruct (procdump_prints s2) as [o Eo]. exists x, o. rewrite Eo. split; [destruct s; reflexivity|]. split; [exact Hx|].
    intros Hn. exfalso. apply Hn. apply existsb_exists in Ep as (c & Hin & Heq). apply Z.eqb_eq in Heq as ->. apply list_elem_of_In, Hin.
  - exists x, []. split; [destruct s; reflexivity|]. auto.
Qed.

(** C29 (console.c, [consoleintr]): the line discipline.  Whatever characters the
    keyboard or the serial port delivers, the circular buffer behaves as a queue
    of bytes for the readers and a line that can be edited: backspace and delete
    erase one character of the line and control-U all of it, never a byte that
    readers may already take; a newline, control-D or a full buffer hands the
    line over and wakes the readers; a full buffer ignores further characters.
    What is echoed is as the terminal [tty_chars] says, control-P adds the list
    of processes, and nothing else changes. *)
Theorem consoleintr_edits s t cs :
  cpu_ok s -> lock_free LCons s -> lock_free LPtable s -> Forall (fun c => 0 <= c < 256) cs ->
  shows (k_input s) t -> t_echo t = k_out s -> t_wakes t = false ->
  let t' := tty_chars cs t in
  exists x o, consoleintr cs s =
      Ok tt (touch (set_procs (if t_wakes t' then map (wake ChInput) (k_procs s) else k_procs s) (set_out (o ++ t_echo t') (set_input x s)))) /\
    shows x t' /\ (C_P ∉ cs -> o = []).
Proof. apply consoleintr_run. Qed.

(** ** consoleread *)

(** The bytes that a reader may take. *)
Definition unread (x : input_t) : list Z :=
  map (fun j => in_at x (in_r x + Z.of_nat j)) (seq 0 (Z.to_nat (w32 (in_w x - in_r x)))).

Lemma shows_done x t : shows x t -> unread x = t_done t.
Proof.
  intros Hs. pose proof (held_range x t Hs) as Hh. 
  assert (E : w32 (in_w x - in_r x) = Z.of_nat (length (t_done t))).
  { rewrite (sh_w _ _ Hs). replace (in_r x) with (w32 (in_r x + 0)) at 2 by (rewrite Z.add_0_r; apply w32_small, (sh_r _ _ Hs)).
    rewrite w32_diff, Z.sub_0_r. apply w32_small. unfold u32, held in *. lia. }
  unfold unread. rewrite E, Nat2Z.id. clear E.
  apply list_eq. intros j. rewrite list_lookup_fmap. destruct (t_done t !! j) as [c|] eqn:E.
  - rewrite lookup_seq_lt by (eapply lookup_lt_Some; exact E). cbn. f_equal. apply (sh_bytes _ _ Hs). apply lookup_app_l_Some, E.
  - rewrite lookup_seq_ge by (apply lookup_ge_None_1, E). reflexivity.
Qed.

(** What a stretch of [consoleread] takes from the front of the queue; the line
    being edited stays as it is. *)
Definition takes (seg : kstate * kstate) (bs : list Z) : Prop :=
  unread (k_input seg.1) = bs ++ unread (k_input seg.2) /\
  in_w (k_input seg.2) = in_w (k_input seg.1) /\ in_e (k_input seg.2) = in_e (k_input seg.1).

Lemma takes_stay s : takes (s, s) [].
Proof. repeat split. Qed.
Lemma takes_more s s' s'' b b' : takes (s, s') b -> takes (s', s'') b' -> takes (s, s'') (b ++ b').
Proof. unfold takes. cbn. intros (E1 & E2 & E3) (E4 & E5 & E6). rewrite <- app_assoc, <- E4, E5, E6. auto. Qed.

Definition took : hist -> kstate -> kstate -> list Z -> Prop := over takes.

Lemma took_same h s0 s s' bs : took h s0 s bs -> k_input s' = k_input s -> took h s0 s' bs.
Proof.
  intros Ht E. rewrite <- (app_nil_r bs). eapply over_more; [exact takes_more | exact Ht|].
  unfold takes. cbn. rewrite E. repeat split.
Qed.

(** What [data] a call that may return [n] bytes gives, if the bytes [bs] have
    been taken and [rest] is left; [got] says whether it had some before.  It
    stops after [n] bytes, after a newline, or before a control-D, which is
    taken only when there is nothing before it. *)
Definition reads (n : nat) (got : bool) (data bs rest : list Z) : Prop :=
  (C_D ∉ data) /\ (length data <= n)%nat /\ (forall j, data !! j = Some LF -> S j = length data) /\
  ((bs = data /\ (length data = n \/ last data = Some LF)) \/
   (bs = data /\ (got = true \/ data <> []) /\ head rest = Some C_D) \/
   (bs = [C_D] /\ data = [] /\ got = false)).

Lemma reads_cons n got c data bs rest : c <> C_D -> c <> LF -> reads n true data bs rest -> reads (S n) got (c :: data) (c :: bs) rest.
Proof.
  intros Hc Hl (H1 & H2 & H3 & H4). split; [set_solver|]. split; [cbn; lia|]. split.
  - intros [|j] Hj; [injection Hj as Hj; contradiction | cbn in Hj |- *; rewrite (H3 j Hj); reflexivity].
  - destruct H4 as [[-> [E | E]] | [(-> & _ & E) | (-> & _ & E)]]; [left | left | right; left | discriminate E]; (split; [reflexivity|]).
    + left. cbn. lia.
    + right. rewrite last_cons, E. reflexivity.
    + split; [right; discriminate | exact E].
Qed.

Section Read.
Context (i : nat).

(** A running process that holds cons.lock. *)
Record in_cons (t : tty) (s : kstate) : Prop := {
  ic_running : running i 1 s;
  ic_lock : mine LCons s;
  ic_shows : shows (k_input s) t }.

(** What the rest of the system may do while the process sleeps: interrupts
    deliver characters, other processes read. *)
Record cons_env (s s' : kstate) : Prop := {
  ce_resumes : resumes i LCons s';
  ce_shows : exists t, shows (k_input s') t }.

Definition dead (s : kstate) : Prop := exists q, k_procs s !! i = Some q /\ p_killed q <> 0.

Definition ready_post (bs : list Z) (h : hist) (s0 : kstate) (ready : bool) (s : kstate) : Prop :=
  took h s0 s bs /\ exists t, in_cons t s /\ if ready then t_done t <> [] else dead s.

Lemma input_loop_spec R bs fuel : forall h s0 s t,
  in_cons t s -> took h s0 s bs -> (R <= length h + fuel)%nat ->
  wp cons_env R (ready_post bs) h s0 (input_loop fuel s).
Proof.
  induction fuel as [|fuel IH]; intros h s0 s t Hin Ht HR; cbn [input_loop]; [apply wp_nofuel; lia|].
  pose proof Hin as [Hr Hm Hs]. eapply wp_step; [reflexivity|]. rewrite (shows_unread _ t Hs). case_bool_decide as Ed.
  2: { apply wp_ok. split; [exact Ht|]. exists t. auto. }
  destruct (mykilled_ok i 1 s Hr ltac:(lia)) as (q & Hq & Ek). eapply wp_step; [exact Ek|].
  destruct (Z.eqb_spec (p_killed q) 0) as [Hk | Hk]; cbn [negb].
  2: { apply wp_ok. split; [exact Ht|]. exists t. split; [exact Hin|]. exists q. auto. }
  eapply wp_bind.
  { eapply (wp_sleep i) with (Q := fun h s0 _ s => took h s0 s bs /\ (R <= length h + fuel)%nat /\ exists t, in_cons t s);
      try assumption; [discriminate|].
    intros s1 s' _ _ _ Ei _ He. split; [apply He|]. intros b q' Hq' s2 Hr2 Hm2. split; [|split].
    - apply (took_same _ s' s'); [|reflexivity]. apply over_switch; [exact takes_stay|]. eapply took_same; [exact Ht | exact Ei].
    - rewrite length_app. cbn. lia.
    - destruct (ce_shows _ _ He) as [t' Ht']. exists t'. constructor; assumption. }
  cbv beta. intros h' s0' _ s' (Ht' & HR' & t' & Hin'). eapply IH; eassumption.
Qed.

Lemma in_cons_upd t t' s x : in_cons t s -> shows x t' -> in_cons t' (set_input x s).
Proof. intros [Hr Hm Hs] Hx. constructor; [eapply running_ext; [exact Hr | reflexivity..] | exact Hm | exact Hx]. Qed.

(** Taking one byte. *)
Lemma pop_takes t s c l : in_cons t s -> t_done t = c :: l ->
  let s' := set_input (set_in_r (w32 (in_r (k_input s) + 1)) (k_input s)) s in
  in_at (k_input s) (in_r (k_input s)) = c /\ in_cons (mkTty l (t_line t) [] false) s' /\ takes (s, s') [c].
Proof.
  intros Hin Ed s'. destruct (pop_shows _ t (ic_shows _ _ Hin) c l [] false Ed) as [Ec Hx]. split; [exact Ec|].
  split; [eapply in_cons_upd; eassumption|]. unfold takes. cbn [fst snd s' k_input set_input].
  rewrite (shows_done _ _ (ic_shows _ _ Hin)), (shows_done _ _ Hx), Ed. repeat split.
Qed.

Definition read_post (n : nat) (got : bool) (bs : list Z) (h : hist) (s0 : kstate) (r : option (list Z)) (s : kstate) : Prop :=
  exists t b, in_cons t s /\ took h s0 s (bs ++ b) /\
    match r with
    | None => dead s /\ (length b < n)%nat
    | Some data => reads n got data b (t_done t)
    end.

Lemma consoleread_loop_spec `{Rounds} n : forall got bs h s0 s t,
  in_cons t s -> took h s0 s bs -> wp cons_env rounds (read_post n got bs) h s0 (consoleread_loop n got s).
Proof.
  induction n as [|n IH]; intros got bs h s0 s t Hin Ht; cbn [consoleread_loop].
  { apply wp_ok. exists t, []. rewrite app_nil_r. split; [exact Hin|]. split; [exact Ht|].
    split; [set_solver|]. split; [cbn; lia|]. split; [intros j Hj; discriminate Hj|]. left. auto. }
  eapply wp_bind; [eapply (input_loop_spec rounds bs rounds); [exact Hin | exact Ht | lia]|].
  clear t s h s0 Hin Ht. intros h s0 [|] s (Ht & t & Hin & Hp).
  2: { apply wp_ok. exists t, []. rewrite app_nil_r. split; [exact Hin|]. split; [exact Ht|]. split; [exact Hp | cbn; lia]. }
  cbn [negb]. destruct (t_done t) as [|c l] eqn:Ed; [contradiction|].
  destruct (pop_takes t s c l Hin Ed) as (Ec & Hin' & Htk). set (s' := set_input _ s) in *.
  eapply wp_step; [reflexivity|]. rewrite Ec. eapply wp_step; [reflexivity|]. fold s'.
  destruct (Z.eqb_spec c C_D) as [-> | Hcd].
  { destruct got; cbn [when].
    - eapply wp_step; [reflexivity|]. apply wp_ok. set (s2 := set_input _ s'). exists t, [].
      assert (E2 : k_input s2 = k_input s).
      { unfold s2, s'. cbn [k_input set_input in_r set_in_r]. pose proof (sh_r _ _ (ic_shows _ _ Hin)) as Hr. destruct (k_input s) as [ib ir iw ie].
        unfold set_in_r. cbn [in_buf in_r in_w in_e] in *. f_equal. unfold w32. rewrite Zminus_mod_idemp_l, Z.add_simpl_r. apply Z.mod_small, Hr. }
      rewrite app_nil_r. split; [|split; [eapply took_same; [exact Ht | exact E2]|]].
      + destruct Hin' as [Hr' Hm' _]. constructor; [eapply running_ext; [exact Hr' | reflexivity..] | exact Hm' | rewrite E2; apply Hin].
      + split; [set_solver|]. split; [cbn; lia|]. split; [intros j Hj; discriminate Hj|]. right. left. rewrite Ed. auto.
    - apply wp_ok. eexists _, [C_D]. split; [exact Hin'|]. split; [eapply over_more; [exact takes_more | exact Ht | exact Htk]|].
      split; [set_solver|]. split; [cbn; lia|]. split; [intros j Hj; discriminate Hj|]. right. right. auto. }
  destruct (Z.eqb_spec c LF) as [-> | Hlf].
  { apply wp_ok. eexists _, [LF]. split; [exact Hin'|]. split; [eapply over_more; [exact takes_more | exact Ht | exact Htk]|].
    split; [unfold C_D, LF; set_solver|]. split; [cbn; lia|]. split; [intros [|j] Hj; [reflexivity | discriminate Hj]|]. left. auto. }
  eapply wp_bind; [eapply IH; [exact Hin' | eapply over_more; [exact takes_more | exact Ht | exact Htk]]|].
  intros h' s0' r s'' (t' & b & Hin'' & Ht'' & Hr). apply wp_ok. exists t', (c :: b). rewrite <- app_assoc in Ht''.
  split; [exact Hin''|]. split; [exact Ht''|]. destruct r as [data|]; cbn [fmap option_fmap option_map].
  - apply reads_cons; assumption.
  - destruct Hr as [Hd Hl]. split; [exact Hd | cbn; lia].
Qed.
End Read.

(** C30 (console.c, [consoleread]): readers get the lines that have been typed.
    Whatever interrupts and other readers do while the call sleeps, it does not
    panic, fault or wait for a spin lock, and takes bytes only from the front of
    the queue, in order, never from the line being edited.  It returns the bytes
    it took: [n] of them, or fewer that end with a newline, or those before a
    control-D, which stays for the next call unless it comes first; a control-D
    that comes first is taken and gives an empty result.  The call fails only
    when the process has been killed.  cons.lock is free again. *)
Theorem consoleread_takes `{Rounds} i n t s :
  running i 0 s -> lock_free LCons s -> shows (k_input s) t ->
  wp (cons_env i) rounds
    (fun h s0 r s' => running i 0 s' /\ lock_free LCons s' /\
       exists b, took h s0 s' b /\
         match r with
         | None => dead i s' /\ (length b < Z.to_nat n)%nat
         | Some data => reads (Z.to_nat n) false data b (unread (k_input s'))
         end)
    [] s (console_take n s).
Proof.
  intros Hr Hl Hs. unfold console_take. destruct (run_acquire i 0 LCons s Hr ltac:(discriminate) Hl) as (E & Hr1 & Hm1).
  eapply wp_step; [exact E|]. eapply wp_bind.
  { eapply (consoleread_loop_spec i (Z.to_nat n) false [] [] s (locked_state LCons s) t).
    - constructor; assumption.
    - eapply took_same; [apply over_start, takes_stay | reflexivity]. }
  intros h s0 r s' (t' & b & [Hr2 Hm2 Hs2] & Ht & Hp).
  destruct (run_release i 1 LCons s' Hr2 ltac:(discriminate) ltac:(lia) Hm2) as (Er & Hr3 & Hf3).
  eapply wp_step; [exact Er|]. apply wp_ok. split; [exact Hr3|]. split; [exact Hf3|]. exists b. split; [eapply took_same; [exact Ht | reflexivity]|].
  destruct r; [change (k_input (unlocked_state LCons s')) with (k_input s'); rewrite (shows_done _ _ Hs2); exact Hp | exact Hp].
Qed.

(** ** Examples *)

Lemma shows_empty e w : shows (mkInput (replicate 128 0) 0 0 0) (mkTty [] [] e w).
Proof.
  constructor; cbn [in_buf in_r in_w in_e t_done t_line]; unfold held; cbn [t_done t_line length app]; try reflexivity.
  - unfold u32. lia.
  - unfold INPUT_BUF. lia.
  - intros j c Hj. discriminate Hj.
  - set_solver.
Qed.

(** Typing h, i, backspace, !, enter. *)
Lemma consoleintr_edits_witness :
  exists s', consoleintr [104; 105; 8; 33; 10] prun = Ok tt s' /\ unread (k_input s') = [104; 33; 10].
Proof.
  destruct (consoleintr_edits prun (mkTty [] [] [] false) [104; 105; 8; 33; 10]) as (x & o & E & Hx & _).
  - apply (ru_cpu 0 0 prun), prun_running.
  - split; reflexivity.
  - split; reflexivity.
  - repeat (apply List.Forall_cons; [lia|]). apply List.Forall_nil.
  - apply shows_empty.
  - reflexivity.
  - reflexivity.
  - eexists. split; [exact E|]. apply (shows_done _ _ Hx).
Defined.

(** A read of ten bytes with nothing typed yet. *)
Lemma consoleread_takes_witness :
  wp (cons_env 0) 4
    (fun h s0 r s' => running 0 0 s' /\ lock_free LCons s' /\
       exists b, took h s0 s' b /\
         match r with
         | None => dead 0 s' /\ (length b < 10)%nat
         | Some data => reads 10 false data b (unread (k_input s'))
         end)
    [] prun (@console_take rounds4 10 prun).
Proof.
  apply (@consoleread_takes rounds4 0 10 (mkTty [] [] [] false) prun).
  - exact prun_running.
  - split; reflexivity.
  - apply shows_empty.
Defined.
