(* ===== verification/Devices.v ===== *)
(** * Device registers: lapic.c, ioapic.c, picirq.c, uart.c, kbd.c

    The drivers talk to ports and to memory-mapped registers.  The state
    records these accesses; what a device answers is a function of them, the
    parameter [answer].  The static variables of the drivers are fields of the
    state. *)

From Stdlib Require Import ZArith Lia ZifyBool ZifyNat.
From stdpp Require Import base list strings.
From S2P Require Import Prelude Mem Mmu Trap.

Module Devices.

(** ** Accesses *)

(** Ports, the local APIC and the I/O APIC. *)
Inductive space : Type := Port | Lapic | Ioapic.
Inductive event : Type := Wr (sp : space) (reg val : Z) | Rd (sp : space) (reg val : Z).

Class Hardware := { answer : list event -> space -> Z -> Z }.

Record devices : Type := mkDev {
  dv_trace : list event;
  dv_shift : Z;
  dv_uart : Z;
  dv_lapic : Z;
  dv_ioapicid : Z;
  dv_apicids : list Z;
  dv_out : list string }.

Definition set_trace v d := mkDev v (dv_shift d) (dv_uart d) (dv_lapic d) (dv_ioapicid d) (dv_apicids d) (dv_out d).
Definition set_shift v d := mkDev (dv_trace d) v (dv_uart d) (dv_lapic d) (dv_ioapicid d) (dv_apicids d) (dv_out d).
Definition set_uart v d := mkDev (dv_trace d) (dv_shift d) v (dv_lapic d) (dv_ioapicid d) (dv_apicids d) (dv_out d).
Definition set_lapic v d := mkDev (dv_trace d) (dv_shift d) (dv_uart d) v (dv_ioapicid d) (dv_apicids d) (dv_out d).
Definition set_ioapicid v d := mkDev (dv_trace d) (dv_shift d) (dv_uart d) (dv_lapic d) v (dv_apicids d) (dv_out d).
Definition set_apicids v d := mkDev (dv_trace d) (dv_shift d) (dv_uart d) (dv_lapic d) (dv_ioapicid d) v (dv_out d).
Definition set_dv_out v d := mkDev (dv_trace d) (dv_shift d) (dv_uart d) (dv_lapic d) (dv_ioapicid d) (dv_apicids d) v.

Definition D (A : Type) : Type := M devices A.

Section Drivers.
Context {HW : Hardware}.

Definition wr (sp : space) (reg val : Z) : D unit := modify (fun d => set_trace (Wr sp reg val :: dv_trace d) d).
(** A register of [bits] bits. *)
Definition rd (sp : space) (reg bits : Z) : D Z := fun d =>
  let v := answer (dv_trace d) sp reg mod 2 ^ bits in
  Ok v (set_trace (Rd sp reg v :: dv_trace d) d).

(** x86.h *)
Definition inb (port : Z) : D Z := rd Port port 8.
Definition outb (port data : Z) : D unit := wr Port port (data mod 256).

Definition dprintf (msg : string) : D unit := modify (fun d => set_dv_out (msg :: dv_out d) d).

(** ** picirq.c *)

Definition IO_PIC1 : Z := 0x20.
Definition IO_PIC2 : Z := 0xA0.
Definition picinit : D unit :=
  outb (IO_PIC1 + 1) 0xFF ;;
  outb (IO_PIC2 + 1) 0xFF.

(** ** ioapic.c *)

Definition REG_ID : Z := 0x00.
Definition REG_VER : Z := 0x01.
Definition REG_TABLE : Z := 0x10.
Definition INT_DISABLED : Z := 0x00010000.
(** The two registers of [struct ioapic]. *)
Definition IOREG : Z := 0.
Definition IODATA : Z := 16.

Definition ioapicread (reg : Z) : D Z :=
  wr Ioapic IOREG (w32 reg) ;;
  rd Ioapic IODATA 32.
Definition ioapicwrite (reg data : Z) : D unit :=
  wr Ioapic IOREG (w32 reg) ;;
  wr Ioapic IODATA (w32 data).

Fixpoint ioapicinit_loop (i : Z) (n : nat) : D unit :=
  match n with
  | O => ret tt
  | S n' =>
      ioapicwrite (REG_TABLE + 2 * i) (Z.lor INT_DISABLED (T_IRQ0 + i)) ;;
      ioapicwrite (REG_TABLE + 2 * i + 1) 0 ;;
      ioapicinit_loop (i + 1) n'
  end.
Definition ioapicinit : D unit :=
  let! v := ioapicread REG_VER in
  let maxintr := Z.land (Z.shiftr v 16) 0xFF in
  let! v := ioapicread REG_ID in
  let id := Z.shiftr v 24 in
  let! ioapicid := gets dv_ioapicid in
  when (negb (id =? ioapicid)) (dprintf "ioapicinit: id isn't equal to ioapicid; not a MP\n") ;;
  ioapicinit_loop 0 (S (Z.to_nat maxintr)).
Definition ioapicenable (irq cpunum : Z) : D unit :=
  ioapicwrite (REG_TABLE + 2 * irq) (T_IRQ0 + irq) ;;
  ioapicwrite (REG_TABLE + 2 * irq + 1) (Z.shiftl cpunum 24).

(** ** uart.c *)

Definition COM1 : Z := 0x3f8.

(** [microdelay] does nothing.  The loop waits for at most [n] polls. *)
Fixpoint uart_wait (n : nat) : D unit :=
  match n with
  | O => ret tt
  | S n' =>
      let! st := inb (COM1 + 5) in
      if Z.land st 0x20 =? 0 then uart_wait n' else ret tt
  end.
Definition uartputc (c : Z) : D unit :=
  let! uart := gets dv_uart in
  if uart =? 0 then ret tt
  else
    uart_wait 128 ;;
    outb (COM1 + 0) c.
Fixpoint uartputs (s : list Z) : D unit :=
  match s with
  | [] => ret tt
  | c :: s' => uartputc c ;; uartputs s'
  end.
Definition uartinit : D unit :=
  outb (COM1 + 2) 0 ;;
  outb (COM1 + 3) 0x80 ;;
  outb (COM1 + 0) (115200 / 9600) ;;
  outb (COM1 + 1) 0 ;;
  outb (COM1 + 3) 0x03 ;;
  outb (COM1 + 4) 0 ;;
  outb (COM1 + 1) 0x01 ;;
  let! st := inb (COM1 + 5) in
  if st =? 0xFF then ret tt
  else
    modify (set_uart 1) ;;
    let! _ := inb (COM1 + 2) in
    let! _ := inb (COM1 + 0) in
    ioapicenable IRQ_COM1 0 ;;
    uartputs [120; 118; 54; 46; 46; 46; 10].
(** -1 when there is no character. *)
Definition uartgetc : D Z :=
  let! uart := gets dv_uart in
  if uart =? 0 then ret (-1)
  else
    let! st := inb (COM1 + 5) in
    if Z.land st 0x01 =? 0 then ret (-1) else inb (COM1 + 0).

(** ** lapic.c *)

(** Registers, as indices of 32-bit words. *)
Definition ID : Z := 0x0020 / 4.
Definition VER : Z := 0x0030 / 4.
Definition TPR : Z := 0x0080 / 4.
Definition EOI : Z := 0x00B0 / 4.
Definition SVR : Z := 0x00F0 / 4.
Definition ENABLE : Z := 0x00000100.
Definition ESR : Z := 0x0280 / 4.
Definition ICRLO : Z := 0x0300 / 4.
Definition INIT : Z := 0x00000500.
Definition STARTUP : Z := 0x00000600.
Definition DELIVS : Z := 0x00001000.
Definition ASSERT : Z := 0x00004000.
Definition LEVEL : Z := 0x00008000.
Definition BCAST : Z := 0x00080000.
Definition ICRHI : Z := 0x0310 / 4.
Definition TIMER : Z := 0x0320 / 4.
Definition X1 : Z := 0x0000000B.
Definition PERIODIC : Z := 0x00020000.
Definition PCINT : Z := 0x0340 / 4.
Definition LINT0 : Z := 0x0350 / 4.
Definition LINT1 : Z := 0x0360 / 4.
Definition ERROR : Z := 0x0370 / 4.
Definition MASKED : Z := 0x00010000.
Definition TICR : Z := 0x0380 / 4.
Definition TDCR : Z := 0x03E0 / 4.
Definition IRQ_ERROR : Z := 19.

Definition lapicr (index : Z) : D Z := rd Lapic index 32.
Definition lapicw (index value : Z) : D unit :=
  wr Lapic index (w32 value) ;;
  let! _ := lapicr ID in
  ret tt.

(** The loop that waits for the delivery of an interrupt command. *)
Fixpoint delivered (fuel : nat) : D unit :=
  match fuel with
  | O => nofuel
  | S f =>
      let! v := lapicr ICRLO in
      if Z.land v DELIVS =? 0 then ret tt else delivered f
  end.

Definition lapicinit (fuel : nat) : D unit :=
  let! lapic := gets dv_lapic in
  if lapic =? 0 then ret tt
  else
    lapicw SVR (Z.lor ENABLE (T_IRQ0 + IRQ_SPURIOUS)) ;;
    lapicw TDCR X1 ;;
    lapicw TIMER (Z.lor PERIODIC (T_IRQ0 + IRQ_TIMER)) ;;
    lapicw TICR 10000000 ;;
    lapicw LINT0 MASKED ;;
    lapicw LINT1 MASKED ;;
    let! v := lapicr VER in
    when (4 <=? Z.land (Z.shiftr v 16) 0xFF) (lapicw PCINT MASKED) ;;
    lapicw ERROR (T_IRQ0 + IRQ_ERROR) ;;
    lapicw ESR 0 ;;
    lapicw ESR 0 ;;
    lapicw EOI 0 ;;
    lapicw ICRHI 0 ;;
    lapicw ICRLO (Z.lor (Z.lor BCAST INIT) LEVEL) ;;
    delivered fuel ;;
    lapicw TPR 0.

Definition lapicid : D Z :=
  let! lapic := gets dv_lapic in
  if lapic =? 0 then ret 0
  else
    let! v := lapicr ID in
    ret (Z.shiftr v 24).

Definition lapiceoi : D unit :=
  let! lapic := gets dv_lapic in
  when (negb (lapic =? 0)) (lapicw EOI 0).

Definition CMOS_PORT : Z := 0x70.
Definition CMOS_RETURN : Z := 0x71.

(** The memory that holds the warm reset vector is [mem]; the result is the
    memory with the vector set. *)
Definition WRV : Z := P2V (Z.lor (Z.shiftl 0x40 4) 0x67).
Definition store16 (m : mem) (a v : Z) : mem := store8 (store8 m a (v mod 256)) (a + 1) (v / 256 mod 256).
Fixpoint startup_ipis (apicid addr : Z) (n : nat) : D unit :=
  match n with
  | O => ret tt
  | S n' =>
      lapicw ICRHI (Z.shiftl apicid 24) ;;
      lapicw ICRLO (Z.lor STARTUP (Z.shiftr addr 12)) ;;
      startup_ipis apicid addr n'
  end.
Definition lapicstartap (m : mem) (apicid addr : Z) : D mem :=
  outb CMOS_PORT 0xF ;;
  outb (CMOS_PORT + 1) 0x0A ;;
  let m := store16 m WRV 0 in
  let m := store16 m (WRV + 2) (Z.shiftr addr 4 mod 65536) in
  lapicw ICRHI (Z.shiftl apicid 24) ;;
  lapicw ICRLO (Z.lor (Z.lor INIT LEVEL) ASSERT) ;;
  lapicw ICRLO (Z.lor INIT LEVEL) ;;
  startup_ipis apicid addr 2 ;;
  ret m.

(** *** The clock *)

Definition CMOS_STATA : Z := 0x0a.
Definition CMOS_STATB : Z := 0x0b.
Definition CMOS_UIP : Z := 128.
Definition SECS : Z := 0x00.
Definition MINS : Z := 0x02.
Definition HOURS : Z := 0x04.
Definition DAY : Z := 0x07.
Definition MONTH : Z := 0x08.
Definition YEAR : Z := 0x09.

Record rtcdate : Type := mkDate { second : Z; minute : Z; hour : Z; day : Z; month : Z; year : Z }.
#[local] Instance rtcdate_eq : EqDecision rtcdate.
Proof. solve_decision. Defined.

Definition cmos_read (reg : Z) : D Z :=
  outb CMOS_PORT reg ;;
  inb CMOS_RETURN.
Definition fill_rtcdate : D rtcdate :=
  let! s := cmos_read SECS in
  let! mi := cmos_read MINS in
  let! h := cmos_read HOURS in
  let! dy := cmos_read DAY in
  let! mo := cmos_read MONTH in
  let! y := cmos_read YEAR in
  ret (mkDate s mi h dy mo y).

(** Until two readings agree with no update in progress between them. *)
Fixpoint cmos_stable (fuel : nat) : D rtcdate :=
  match fuel with
  | O => nofuel
  | S f =>
      let! t1 := fill_rtcdate in
      let! sa := cmos_read CMOS_STATA in
      if negb (Z.land sa CMOS_UIP =? 0) then cmos_stable f
      else
        let! t2 := fill_rtcdate in
        if decide (t1 = t2) then ret t1 else cmos_stable f
  end.
Definition CONV (x : Z) : Z := Z.shiftr x 4 * 10 + Z.land x 0xf.
Definition conv_date (t : rtcdate) : rtcdate :=
  mkDate (CONV (second t)) (CONV (minute t)) (CONV (hour t)) (CONV (day t)) (CONV (month t)) (CONV (year t)).
Definition add_2000 (t : rtcdate) : rtcdate := mkDate (second t) (minute t) (hour t) (day t) (month t) (year t + 2000).
Definition cmostime (fuel : nat) : D rtcdate :=
  let! sb := cmos_read CMOS_STATB in
  let bcd := Z.land sb 4 =? 0 in
  let! t1 := cmos_stable fuel in
  ret (add_2000 (if bcd then conv_date t1 else t1)).

(** ** kbd.c, kbd.h *)

Definition KBSTATP : Z := 0x64.
Definition KBS_DIB : Z := 0x01.
Definition KBDATAP : Z := 0x60.
Definition NO : Z := 0.
Definition SHIFT : Z := 1.
Definition CTL : Z := 2.
Definition ALT : Z := 4.
Definition CAPSLOCK : Z := 8.
Definition NUMLOCK : Z := 16.
Definition SCROLLLOCK : Z := 32.
Definition E0ESC : Z := 64.

(** A table of 256 bytes: the first entries, then single ones. *)
Definition table (first : list Z) (more : list (Z * Z)) (i : Z) : Z :=
  match list_find (fun e => e.1 = i) more with
  | Some (_, (_, v)) => v
  | None => nth (Z.to_nat i) first 0
  end.
Fixpoint str (s : string) : list Z :=
  match s with
  | EmptyString => []
  | String c s' => Z.of_nat (Ascii.nat_of_ascii c) :: str s'
  end.

(** KEY_HOME, KEY_END and the other keys that follow the escape code. *)
Definition special_keys : list (Z * Z) :=
  [(0xC8, 0xE2); (0xD0, 0xE3); (0xC9, 0xE6); (0xD1, 0xE7); (0xCB, 0xE4); (0xCD, 0xE5); (0x97, 0xE0); (0xCF, 0xE1); (0xD2, 0xE8); (0xD3, 0xE9)].

Definition shiftcode : Z -> Z := table [] [(0x1D, CTL); (0x2A, SHIFT); (0x36, SHIFT); (0x38, ALT); (0x9D, CTL); (0xB8, ALT)].
Definition togglecode : Z -> Z := table [] [(0x3A, CAPSLOCK); (0x45, NUMLOCK); (0x46, SCROLLLOCK)].
Definition keypad : list Z := str "789-456+1230." ++ [NO; NO; NO; NO].
Definition normalmap : Z -> Z :=
  table ([NO; 0x1B] ++ str "1234567890-=" ++ [8; 9] ++ str "qwertyuiop[]" ++ [10; NO] ++ str "asdfghjkl;'`" ++ [NO] ++
         str "\zxcvbnm,./" ++ [NO] ++ str "*" ++ [NO] ++ str " " ++ replicate 13 NO ++ keypad)
        ([(0x9C, 10); (0xB5, 47)] ++ special_keys).
Definition shiftmap : Z -> Z :=
  table ([NO; 0x1B] ++ str "!@#$%^&*()_+" ++ [8; 9] ++ str "QWERTYUIOP{}" ++ [10; NO] ++ str "ASDFGHJKL:" ++ [34] ++ str "~" ++ [NO] ++
         str "|ZXCVBNM<>?" ++ [NO] ++ str "*" ++ [NO] ++ str " " ++ replicate 13 NO ++ keypad)
        ([(0x9C, 10); (0xB5, 47)] ++ special_keys).
(** [C(x)], in a byte. *)
Definition ctl (s : string) : list Z := map (fun c => (c - 64) mod 256) (str s).
Definition ctlmap : Z -> Z :=
  table (replicate 16 NO ++ ctl "QWERTYUIOP" ++ [NO; NO; 13; NO] ++ ctl "ASDFGHJKL" ++ [NO; NO; NO; NO] ++
         ctl "\ZXCVBNM" ++ [NO; NO] ++ ctl "/" ++ [NO; NO])
        ([(0x9C, 13); (0xB5, (47 - 64) mod 256)] ++ special_keys).
Definition charcode (k : Z) : Z -> Z := if k =? 0 then normalmap else if k =? 1 then shiftmap else ctlmap.

(** What one code from the keyboard does to [shift], and the character. *)
Definition kbd_code (shift data : Z) : Z * Z :=
  if data =? 0xE0 then (Z.lor shift E0ESC, 0)
  else if negb (Z.land data 0x80 =? 0) then
    let data := if Z.land shift E0ESC =? 0 then Z.land data 0x7F else data in
    (Z.land shift (Z.lnot (Z.lor (shiftcode data) E0ESC)), 0)
  else
    let '(shift, data) :=
      if Z.land shift E0ESC =? 0 then (shift, data) else (Z.land shift (Z.lnot E0ESC), Z.lor data 0x80) in
    let shift := Z.lxor (Z.lor shift (shiftcode data)) (togglecode data) in
    let c := charcode (Z.land shift (Z.lor CTL SHIFT)) data in
    let c :=
      if Z.land shift CAPSLOCK =? 0 then c
      else if (97 <=? c) && (c <=? 122) then c - 32
      else if (65 <=? c) && (c <=? 90) then c + 32
      else c in
    (shift, c).
Definition kbdgetc : D Z :=
  let! st := inb KBSTATP in
  if Z.land st KBS_DIB =? 0 then ret (-1)
  else
    let! data := inb KBDATAP in
    let! shift := gets dv_shift in
    let '(shift, c) := kbd_code shift data in
    modify (set_shift shift) ;;
    ret c.
End Drivers.

(** ** The I/O APIC *)

(** The registers of the I/O APIC after the accesses [tr]: the one selected,
    and the values of all. *)
Definition io_step (e : event) (st : Z * (Z -> Z)) : Z * (Z -> Z) :=
  match e with
  | Wr Ioapic a v => if a =? IOREG then (v, st.2) else if a =? IODATA then (st.1, fupd st.2 st.1 v) else st
  | _ => st
  end.
Definition io_state (tr : list event) : Z * (Z -> Z) := foldr io_step (0, fun _ => 0) tr.
Definition ioreg (d : devices) : Z -> Z := (io_state (dv_trace d)).2.

Section Theorems.
Context {HW : Hardware}.

Lemma ioapicwrite_ok reg data d : u32 reg -> u32 data -> exists d', ioapicwrite reg data d = Ok tt d' /\ ioreg d' = fupd (ioreg d) reg data.
Proof. intros Hr Hd. eexists. split; [reflexivity|]. unfold ioreg. cbn. rewrite !w32_small by assumption. reflexivity. Qed.

Lemma ioapicread_ok reg d : exists v d', ioapicread reg d = Ok v d' /\ ioreg d' = ioreg d /\ u32 v /\ dv_ioapicid d' = dv_ioapicid d.
Proof.
  eexists _, _. split; [reflexivity|]. split; [reflexivity|]. split; [|reflexivity]. unfold u32. change (2 ^ 32) with 4294967296. pose proof (Z.mod_pos_bound (answer (Wr Ioapic IOREG (w32 reg) :: dv_trace d) Ioapic IODATA) 4294967296 eq_refl). lia.
Qed.

Lemma ioapicinit_loop_ok n : forall i d, 0 <= i -> i + Z.of_nat n <= 256 ->
  exists d', ioapicinit_loop i n d = Ok tt d' /\
    forall r, ioreg d' r = if decide (REG_TABLE + 2 * i <= r < REG_TABLE + 2 * (i + Z.of_nat n)) then
      (if Z.even r then Z.lor INT_DISABLED (T_IRQ0 + (r - REG_TABLE) / 2) else 0) else ioreg d r.
Proof.
  induction n as [|n IH]; intros i d Hi Hn; cbn [ioapicinit_loop].
  - exists d. split; [reflexivity|]. intros r. rewrite decide_False by lia. reflexivity.
  - assert (Hl : u32 (Z.lor INT_DISABLED (T_IRQ0 + i))).
    { unfold u32, INT_DISABLED, T_IRQ0. split; [apply Z.lor_nonneg; lia|]. change 4294967296 with (2 ^ 32). apply Z.log2_lt_cancel. rewrite Z.log2_lor, Z.log2_pow2 by lia. apply Z.max_lub_lt; [reflexivity|].
      apply Z.log2_lt_pow2; lia. }
    destruct (ioapicwrite_ok (REG_TABLE + 2 * i) _ d ltac:(unfold u32, REG_TABLE; lia) Hl) as (d1 & E1 & R1).
    destruct (ioapicwrite_ok (REG_TABLE + 2 * i + 1) 0 d1 ltac:(unfold u32, REG_TABLE; lia) ltac:(unfold u32; lia)) as (d2 & E2 & R2).
    destruct (IH (i + 1) d2 ltac:(lia) ltac:(lia)) as (d3 & E3 & R3). exists d3. rewrite (bind_ok _ _ _ _ _ E1), (bind_ok _ _ _ _ _ E2). split; [exact E3|].
    intros r. rewrite R3, R2, R1. unfold fupd, REG_TABLE in *. destruct (decide (r = 16 + 2 * i)) as [-> | N1].
    + rewrite decide_False, decide_False, decide_True by lia. replace (16 + 2 * i) with (2 * (8 + i)) by lia. rewrite Z.even_mul. cbn [Z.even orb]. do 2 f_equal. replace (2 * (8 + i) - 16) with (i * 2) by lia. rewrite Z.div_mul; lia.
    + destruct (decide (r = 16 + 2 * i + 1)) as [-> | N2].
      * rewrite decide_False, decide_True by lia. replace (16 + 2 * i + 1) with (1 + 2 * (8 + i)) by lia. rewrite Z.even_add_mul_2. reflexivity.
      * repeat case_decide; try reflexivity; lia.
Qed.

(** The interrupts that the kernel enables, one after the other. *)
Fixpoint enable_all (l : list (Z * Z)) : D unit :=
  match l with
  | [] => ret tt
  | (irq, cpunum) :: l' => ioapicenable irq cpunum ;; enable_all l'
  end.

Definition enabled (l : list (Z * Z)) (i : Z) : option Z := foldl (fun r e => if e.1 =? i then Some e.2 else r) None l.

Definition entry_low (l : list (Z * Z)) (i : Z) : Z := match enabled l i with Some _ => T_IRQ0 + i | None => Z.lor INT_DISABLED (T_IRQ0 + i) end.
Definition entry_high (l : list (Z * Z)) (i : Z) : Z := match enabled l i with Some cpunum => Z.shiftl cpunum 24 | None => 0 end.

Lemma enabled_snoc l e i : enabled (l ++ [e]) i = if e.1 =? i then Some e.2 else enabled l i.
Proof. unfold enabled. rewrite foldl_snoc. reflexivity. Qed.

Lemma enable_all_snoc l e d : enable_all (l ++ [e]) d = (enable_all l ;; ioapicenable e.1 e.2) d.
Proof.
  revert d. induction l as [|[irq c] l IH]; intros d; [destruct e as [irq c]; cbn; reflexivity|]. change (enable_all (((irq, c) :: l) ++ [e])) with (ioapicenable irq c ;; enable_all (l ++ [e])). cbn [enable_all].
  rewrite bind_assoc. apply bind_ext. intros a s. apply IH.
Qed.

(** ioapic.c: after [ioapicinit] and any calls of [ioapicenable] exactly the
    interrupts enabled are unmasked, each goes to the CPU of the last call for
    it and arrives at its vector; all others are masked. *)
Lemma ioapic_routes l d : Forall (fun e => 0 <= e.1 < 256 /\ 0 <= e.2 < 256) l ->
  exists maxintr d', 0 <= maxintr < 256 /\ (ioapicinit ;; enable_all l) d = Ok tt d' /\
    forall i, 0 <= i <= maxintr -> ioreg d' (REG_TABLE + 2 * i) = entry_low l i /\ ioreg d' (REG_TABLE + 2 * i + 1) = entry_high l i.
Proof.
  intros Hl. destruct (ioapicread_ok REG_VER d) as (v & d1 & E1 & _ & Hv & Hid). set (maxintr := Z.land (Z.shiftr v 16) 0xFF).
  assert (Hm : 0 <= maxintr < 256) by (unfold maxintr; change 0xFF with (Z.ones 8); rewrite Z.land_ones by lia; apply (Z.mod_pos_bound _ 256); lia).
  destruct (ioapicread_ok REG_ID d1) as (v2 & d2 & E2 & _). exists maxintr.
  assert (Hinit : exists d3, ioapicinit d = ioapicinit_loop 0 (S (Z.to_nat maxintr)) d3).
  { unfold ioapicinit. rewrite (bind_ok _ _ _ _ _ E1), (bind_ok _ _ _ _ _ E2). fold maxintr. unfold gets. erewrite bind_ok by reflexivity. destruct (negb _); cbn [when]; erewrite bind_ok by reflexivity; eexists; reflexivity. }
  destruct Hinit as [d3 E3]. destruct (ioapicinit_loop_ok (S (Z.to_nat maxintr)) 0 d3 ltac:(lia) ltac:(lia)) as (d4 & E4 & R4).
  induction l as [|e l IH] using rev_ind.
  - exists d4. split; [exact Hm|]. rewrite (bind_ok _ _ _ _ _ (eq_trans E3 E4)). split; [reflexivity|]. intros i Hi. rewrite !R4, !decide_True by (unfold REG_TABLE; lia).
    unfold REG_TABLE. replace (16 + 2 * i) with (2 * (8 + i)) by lia. replace (2 * (8 + i) + 1) with (1 + 2 * (8 + i)) by lia. rewrite Z.even_add_mul_2, Z.even_mul. cbn [Z.even orb]. unfold entry_low, entry_high. cbn.
    replace (2 * (8 + i) - 16) with (i * 2) by lia. rewrite Z.div_mul by lia. auto.
  - apply Forall_app in Hl as [Hl He]. apply Forall_cons_1 in He as [He _]. destruct (IH Hl) as (d5 & _ & E5 & R5). destruct e as [irq c]. cbn in He. destruct He as [Hirq Hcpu].
    destruct (ioapicwrite_ok (REG_TABLE + 2 * irq) (T_IRQ0 + irq) d5 ltac:(unfold u32, REG_TABLE; lia) ltac:(unfold u32, T_IRQ0; lia)) as (d6 & E6 & R6).
    assert (Hc : u32 (Z.shiftl c 24)) by (unfold u32; rewrite Z.shiftl_mul_pow2 by lia; change (2 ^ 24) with 16777216; lia).
    destruct (ioapicwrite_ok (REG_TABLE + 2 * irq + 1) _ d6 ltac:(unfold u32, REG_TABLE; lia) Hc) as (d7 & E7 & R7). exists d7. split; [exact Hm|]. split.
    + rewrite (bind_ext _ (fun _ => enable_all (l ++ [(irq, c)])) (fun _ => enable_all l ;; ioapicenable irq c)) by (intros; apply enable_all_snoc).
      rewrite <- bind_assoc. rewrite (bind_ok _ _ _ _ _ E5). unfold ioapicenable. rewrite (bind_ok _ _ _ _ _ E6). exact E7.
    + intros i Hi. destruct (R5 i Hi) as [H1 H2]. rewrite R7, R6. unfold fupd, REG_TABLE, entry_low, entry_high in *. rewrite !enabled_snoc. cbn [fst snd]. destruct (Z.eqb_spec irq i) as [<- | Hne].
      * rewrite decide_False, decide_True, decide_True by lia. auto.
      * rewrite !decide_False by lia. auto.
Qed.

(** ** The clock *)

Definition bcd_of (n : Z) : Z := 16 * (n / 10) + n mod 10.

Lemma CONV_bcd n : 0 <= n < 100 -> CONV (bcd_of n) = n.
Proof.
  intros Hn. assert (H : forallb (fun n => CONV (bcd_of n) =? n) (seqZ 0 100) = true) by (vm_compute; reflexivity).
  rewrite forallb_forall in H. apply Z.eqb_eq, H. apply list_elem_of_In, elem_of_seqZ. lia.
Qed.

(** The clock shows [t], in one of its two formats, and is not updating. *)
Record shows (bcd : bool) (t : rtcdate) : Prop := {
  sh_reg tr reg : answer (Wr Port CMOS_PORT reg :: tr) Port CMOS_RETURN mod 256 = answer [Wr Port CMOS_PORT reg] Port CMOS_RETURN mod 256;
  sh_b : Z.land (answer [Wr Port CMOS_PORT CMOS_STATB] Port CMOS_RETURN mod 256) 4 = if bcd then 0 else 4;
  sh_a : Z.land (answer [Wr Port CMOS_PORT CMOS_STATA] Port CMOS_RETURN mod 256) CMOS_UIP = 0;
  sh_date : map (fun reg => answer [Wr Port CMOS_PORT reg] Port CMOS_RETURN mod 256) [SECS; MINS; HOURS; DAY; MONTH; YEAR] =
    map (if bcd then bcd_of else id) [second t; minute t; hour t; day t; month t; year t];
  sh_range : Forall (fun n => 0 <= n < 100) [second t; minute t; hour t; day t; month t; year t] }.

Lemma cmos_read_ok bcd t reg d : shows bcd t -> reg mod 256 = reg -> exists d', cmos_read reg d = Ok (answer [Wr Port CMOS_PORT reg] Port CMOS_RETURN mod 256) d'.
Proof. intros Hs Hr. eexists. unfold cmos_read, outb, wr, modify. erewrite bind_ok by reflexivity. unfold inb, rd. cbn zeta. cbn [dv_trace set_trace]. change (2 ^ 8) with 256. rewrite Hr, (sh_reg _ _ Hs (dv_trace d)). reflexivity. Qed.

Lemma fill_ok bcd t d : shows bcd t -> let f := (if bcd then bcd_of else id) in
  exists d', fill_rtcdate d = Ok (mkDate (f (second t)) (f (minute t)) (f (hour t)) (f (day t)) (f (month t)) (f (year t))) d'.
Proof.
  intros Hs f. pose proof (sh_date _ _ Hs) as E. fold f in E. cbn [map] in E. injection E as E1 E2 E3 E4 E5 E6. unfold fill_rtcdate.
  destruct (cmos_read_ok bcd t SECS d Hs eq_refl) as [d1 R1]. rewrite (bind_ok _ _ _ _ _ R1). destruct (cmos_read_ok bcd t MINS d1 Hs eq_refl) as [d2 R2]. rewrite (bind_ok _ _ _ _ _ R2).
  destruct (cmos_read_ok bcd t HOURS d2 Hs eq_refl) as [d3 R3]. rewrite (bind_ok _ _ _ _ _ R3). destruct (cmos_read_ok bcd t DAY d3 Hs eq_refl) as [d4 R4]. rewrite (bind_ok _ _ _ _ _ R4).
  destruct (cmos_read_ok bcd t MONTH d4 Hs eq_refl) as [d5 R5]. rewrite (bind_ok _ _ _ _ _ R5). destruct (cmos_read_ok bcd t YEAR d5 Hs eq_refl) as [d6 R6]. rewrite (bind_ok _ _ _ _ _ R6).
  exists d6. unfold ret. rewrite E1, E2, E3, E4, E5, E6. reflexivity.
Qed.

(** lapic.c: [cmostime] reads the date the clock shows, in either format. *)
Lemma cmostime_reads bcd t fuel d : shows bcd t -> (0 < fuel)%nat -> exists d', cmostime fuel d = Ok (add_2000 t) d'.
Proof.
  intros Hs Hf. destruct fuel as [|fuel]; [lia|]. unfold cmostime. destruct (cmos_read_ok bcd t CMOS_STATB d Hs eq_refl) as [d1 R1]. rewrite (bind_ok _ _ _ _ _ R1).
  destruct (fill_ok bcd t d1 Hs) as [d2 R2]. destruct (cmos_read_ok bcd t CMOS_STATA d2 Hs eq_refl) as [d3 R3]. destruct (fill_ok bcd t d3 Hs) as [d4 R4]. exists d4.
  match type of R4 with _ = Ok ?x _ => assert (Es : cmos_stable (S fuel) d1 = Ok x d4) end.
  { cbn [cmos_stable]. rewrite (bind_ok _ _ _ _ _ R2), (bind_ok _ _ _ _ _ R3), (sh_a _ _ Hs). cbn [Z.eqb negb]. rewrite (bind_ok _ _ _ _ _ R4). rewrite decide_True by reflexivity. reflexivity. }
  rewrite (bind_ok _ _ _ _ _ Es).
  rewrite (sh_b _ _ Hs). pose proof (sh_range _ _ Hs) as Hr. repeat (apply Forall_cons_1 in Hr as [? Hr]). destruct bcd; cbn [Z.eqb]; [|destruct t; reflexivity].
  unfold ret, conv_date. cbn [second minute hour day month year]. rewrite !CONV_bcd by assumption. destruct t. reflexivity.
Qed.

(** ** The serial port *)

(** uart.c: [uartputc] asks for the status at most 128 times and then sends the
    character, ready or not. *)
Lemma uart_wait_ok n d : exists polls, uart_wait n d = Ok tt (set_trace (polls ++ dv_trace d) d) /\ (length polls <= n)%nat /\ Forall (fun e => exists v, e = Rd Port (COM1 + 5) v) polls.
Proof.
  revert d. induction n as [|n IH]; intros d; cbn [uart_wait]; [exists []; split; [destruct d; reflexivity | split; [cbn; lia | constructor]]|].
  unfold inb at 1, rd at 1. erewrite bind_ok by reflexivity. set (e := Rd Port (COM1 + 5) _). destruct (Z.land _ 32 =? 0).
  - destruct (IH (set_trace (e :: dv_trace d) d)) as (polls & E & Hl & Hp). exists (polls ++ [e]). rewrite E, length_app, <- app_assoc. split; [reflexivity|]. split; [cbn; lia|]. apply Forall_app. split; [exact Hp | repeat constructor; eexists; reflexivity].
  - exists [e]. split; [reflexivity|]. split; [cbn; lia | repeat constructor; eexists; reflexivity].
Qed.

Lemma uartputc_sends c d : dv_uart d <> 0 ->
  exists polls, uartputc c d = Ok tt (set_trace (Wr Port COM1 (c mod 256) :: polls ++ dv_trace d) d) /\ (length polls <= 128)%nat.
Proof.
  intros Hu. destruct (uart_wait_ok 128 d) as (polls & E & Hl & _). exists polls. split; [|exact Hl]. unfold uartputc, gets. erewrite bind_ok by reflexivity. rewrite (proj2 (Z.eqb_neq _ _) Hu).
  rewrite (bind_ok _ _ _ _ _ E). reflexivity.
Qed.
End Theorems.

(** ** The keyboard *)

(** The codes of a list of keys, and the characters they give. *)
Definition type_codes (shift : Z) (codes : list Z) : Z * list Z :=
  foldl (fun st code => let '(shift', c) := kbd_code st.1 code in (shift', if c =? 0 then st.2 else st.2 ++ [c])) (shift, []) codes.

(** A keyboard with the US layout.  A row of keys has consecutive codes: the
    code of its first key, the characters on the keys, and those with shift. *)
Fixpoint keycaps (s : string) : list Z :=
  match s with
  | EmptyString => []
  | String a s' => Z.of_nat (Ascii.nat_of_ascii a) :: keycaps s'
  end.
Record key_row : Type := mkRow { kr_first : Z; kr_plain : list Z; kr_shift : list Z }.
Definition us_layout : list key_row := [
  mkRow 0x01 [27] [];
  mkRow 0x02 (keycaps "1234567890-=") (keycaps "!@#$%^&*()_+");
  mkRow 0x0e [8; 9] [];
  mkRow 0x10 (keycaps "qwertyuiop[]" ++ [10]) (keycaps "QWERTYUIOP{}");
  mkRow 0x1e (keycaps "asdfghjkl;'`") (keycaps "ASDFGHJKL:" ++ [34] ++ keycaps "~");
  mkRow 0x2b (keycaps "\zxcvbnm,./") (keycaps "|ZXCVBNM<>?");
  mkRow 0x39 (keycaps " ") []].
Fixpoint key_of (side : key_row -> list Z) (c : Z) (rows : list key_row) : option Z :=
  match rows with
  | [] => None
  | r :: rows' =>
      match list_find (fun x => x = c) (side r) with
      | Some (i, _) => Some (kr_first r + Z.of_nat i)
      | None => key_of side c rows'
      end
  end.
(** How to type a character: the key is pressed and released, with the shift key
    held if need be. *)
Definition chord (c : Z) : list Z :=
  match key_of kr_plain c us_layout, key_of kr_shift c us_layout with
  | Some k, _ => [k; k + 128]
  | None, Some k => [0x2A; k; k + 128; 0xAA]
  | None, None => []
  end.

(** kbd.c: every printable character of ASCII, and backspace, tab, newline and
    escape, can be typed; afterwards no modifier is left. *)
Lemma kbd_types_ascii c : 32 <= c < 127 \/ c ∈ [8; 9; 10; 27] -> type_codes 0 (chord c) = (0, [c]).
Proof.
  intros Hc. assert (H : forallb (fun c => bool_decide (type_codes 0 (chord c) = (0, [c]))) (seqZ 32 95 ++ [8; 9; 10; 27]) = true) by (vm_compute; reflexivity).
  rewrite forallb_forall in H. apply (bool_decide_eq_true_1 _), H, list_elem_of_In, elem_of_app. rewrite elem_of_seqZ. destruct Hc; [left; lia | right; assumption].
Qed.

(** The state stays in its seven bits. *)
Lemma kbd_code_range shift data : 0 <= shift < 128 -> 0 <= data < 256 -> 0 <= (kbd_code shift data).1 < 128 /\ 0 <= (kbd_code shift data).2 < 256.
Proof.
  intros Hs Hd. set (ok := fun p : Z * Z => (0 <=? p.1) && (p.1 <? 128) && (0 <=? p.2) && (p.2 <? 256)).
  assert (H : forallb (fun s => forallb (fun x => ok (kbd_code s x)) (seqZ 0 256)) (seqZ 0 128) = true) by (vm_compute; reflexivity).
  rewrite forallb_forall in H. specialize (H shift). rewrite forallb_forall in H.
  assert (Hok : ok (kbd_code shift data) = true) by (apply H; apply list_elem_of_In, elem_of_seqZ; lia). unfold ok in Hok. lia.
Qed.
End Devices.
