(* ===== verification/Mp.v ===== *)
(** * solution/mp.c: the multiprocessor tables

    The search for the tables of the firmware and their interpretation.  Memory
    is read through the kernel's window; the variables the code sets are those
    of Devices.v. *)

From Stdlib Require Import ZArith Lia ZifyBool ZifyNat.
From stdpp Require Import base list strings.
From S2P Require Import Prelude Mem Mmu Devices.
Import Devices.

Module Mp.

Definition NCPU : nat := 8.

(** mp.h: sizes, and offsets of the fields used. *)
Definition MP_SIZE : Z := 16.
Definition MPCONF_SIZE : Z := 44.
Definition MPPROC_SIZE : Z := 20.
Definition MPIOAPIC_SIZE : Z := 8.
Definition mp_physaddr (m : mem) (mp : Z) : Z := load32 m (mp + 4).
Definition mp_imcrp (m : mem) (mp : Z) : Z := load8 m (mp + 12).
Definition conf_length (m : mem) (conf : Z) : Z := load8 m (conf + 4) + 256 * load8 m (conf + 5).
Definition conf_version (m : mem) (conf : Z) : Z := load8 m (conf + 6).
Definition conf_lapicaddr (m : mem) (conf : Z) : Z := load32 m (conf + 36).
Definition MPPROC : Z := 0.
Definition MPBUS : Z := 1.
Definition MPIOAPIC : Z := 2.
Definition MPIOINTR : Z := 3.
Definition MPLINTR : Z := 4.

(** The int sum of the bytes, returned as a byte. *)
Fixpoint sum_loop (m : mem) (addr : Z) (len : nat) (acc : Z) : Z :=
  match len with
  | O => acc
  | S n => sum_loop m (addr + 1) n (s32 (acc + load8 m addr))
  end.
Definition sum (m : mem) (addr len : Z) : Z := sum_loop m addr (Z.to_nat len) 0 mod 256.

(** memcmp with a constant. *)
Definition bytes_at (m : mem) (a : Z) (n : nat) : list Z := map (fun k => load8 m (a + Z.of_nat k)) (seq 0 n).
Definition sig_mp : list Z := [95; 77; 80; 95].
Definition sig_pcmp : list Z := [80; 67; 77; 80].

(** The loop over the candidates from [p] on. *)
Fixpoint mpsearch1_loop (m : mem) (p e : Z) (fuel : nat) : option Z :=
  match fuel with
  | O => None
  | S f =>
      if p <? e then
        if bool_decide (bytes_at m p 4 = sig_mp) && (sum m p MP_SIZE =? 0) then Some p
        else mpsearch1_loop m (p + MP_SIZE) e f
      else None
  end.
Definition mpsearch1 (m : mem) (a len : Z) : option Z :=
  let addr := P2V a in
  mpsearch1_loop m addr (addr + len) (S (Z.to_nat (len / MP_SIZE))).

Definition mpsearch (m : mem) : option Z :=
  let bda := P2V 0x400 in
  let p := Z.shiftl (Z.lor (Z.shiftl (load8 m (bda + 0x0F)) 8) (load8 m (bda + 0x0E))) 4 in
  let first :=
    if negb (p =? 0) then mpsearch1 m p 1024
    else
      let p := Z.lor (Z.shiftl (load8 m (bda + 0x14)) 8) (load8 m (bda + 0x13)) * 1024 in
      mpsearch1 m (w32 (p - 1024)) 1024 in
  match first with
  | Some mp => Some mp
  | None => mpsearch1 m 0xF0000 0x10000
  end.

(** The table and the floating pointer. *)
Definition mpconfig (m : mem) : option (Z * Z) :=
  match mpsearch m with
  | None => None
  | Some mp =>
      if mp_physaddr m mp =? 0 then None
      else
        let conf := P2V (mp_physaddr m mp) in
        if negb (bool_decide (bytes_at m conf 4 = sig_pcmp)) then None
        else if negb (conf_version m conf =? 1) && negb (conf_version m conf =? 4) then None
        else if negb (sum m conf (conf_length m conf) =? 0) then None
        else Some (conf, mp)
  end.

Section Init.
Context {HW : Hardware}.

(** The loop over the entries.  The default case leaves the switch but not the
    loop, and does not advance. *)
Fixpoint mpinit_loop (m : mem) (p e : Z) (ismp : bool) (fuel : nat) : D bool :=
  match fuel with
  | O => nofuel
  | S f =>
      if p <? e then
        let t := load8 m p in
        if t =? MPPROC then
          let! ids := gets dv_apicids in
          when (length ids <? NCPU)%nat (modify (set_apicids (ids ++ [load8 m (p + 1)]))) ;;
          mpinit_loop m (p + MPPROC_SIZE) e ismp f
        else if t =? MPIOAPIC then
          modify (set_ioapicid (load8 m (p + 1))) ;;
          mpinit_loop m (p + MPIOAPIC_SIZE) e ismp f
        else if (t =? MPBUS) || (t =? MPIOINTR) || (t =? MPLINTR) then
          mpinit_loop m (p + 8) e ismp f
        else mpinit_loop m p e false f
      else ret ismp
  end.

Definition mpinit (m : mem) (fuel : nat) : D unit :=
  match mpconfig m with
  | None => panic "Expect to run on an SMP"
  | Some (conf, mp) =>
      modify (set_lapic (conf_lapicaddr m conf)) ;;
      let! ismp := mpinit_loop m (conf + MPCONF_SIZE) (conf + conf_length m conf) true fuel in
      if negb ismp then panic "Didn't find a suitable machine"
      else
        when (negb (mp_imcrp m mp =? 0))
          (outb 0x22 0x70 ;;
           let! v := inb 0x23 in
           outb 0x23 (Z.lor v 1))
  end.
End Init.

(** ** The search *)

(** A floating pointer at [p]. *)
Definition is_mp (m : mem) (p : Z) : bool := bool_decide (bytes_at m p 4 = sig_mp) && (sum m p MP_SIZE =? 0).

Lemma mpsearch1_loop_ok m e : forall fuel p, e - p < MP_SIZE * Z.of_nat fuel ->
  match mpsearch1_loop m p e fuel with
  | Some q => exists k, q = p + MP_SIZE * Z.of_nat k /\ q < e /\ is_mp m q = true /\ forall j, (j < k)%nat -> is_mp m (p + MP_SIZE * Z.of_nat j) = false
  | None => forall k, p + MP_SIZE * Z.of_nat k < e -> is_mp m (p + MP_SIZE * Z.of_nat k) = false
  end.
Proof.
  unfold MP_SIZE. induction fuel as [|fuel IH]; intros p Hf; cbn [mpsearch1_loop]; [intros k Hk; lia|]. destruct (Z.ltb_spec p e) as [Hlt | Hge]; [|intros k Hk; lia]. fold (is_mp m p). destruct (is_mp m p) eqn:E.
  - exists 0%nat. replace (p + 16 * Z.of_nat 0) with p by lia. repeat split; try assumption. intros j Hj. lia.
  - unfold MP_SIZE. specialize (IH (p + 16) ltac:(lia)). destruct (mpsearch1_loop m (p + 16) e fuel) as [q|].
    + destruct IH as (k & -> & H1 & H2 & H3). exists (S k). split; [lia|]. split; [exact H1|]. split; [exact H2|]. intros [|j] Hj; [replace (p + 16 * Z.of_nat 0) with p by lia; exact E|].
      replace (p + 16 * Z.of_nat (S j)) with (p + 16 + 16 * Z.of_nat j) by lia. apply H3. lia.
    + intros [|k] Hk; [replace (p + 16 * Z.of_nat 0) with p by lia; exact E|]. replace (p + 16 * Z.of_nat (S k)) with (p + 16 + 16 * Z.of_nat k) by lia. apply IH. lia.
Qed.

(** [mpsearch1] finds the first floating pointer in its range. *)
Lemma mpsearch1_first m a len : 0 <= len ->
  match mpsearch1 m a len with
  | Some q => exists k, q = P2V a + MP_SIZE * Z.of_nat k /\ q < P2V a + len /\ is_mp m q = true /\ forall j, (j < k)%nat -> is_mp m (P2V a + MP_SIZE * Z.of_nat j) = false
  | None => forall k, P2V a + MP_SIZE * Z.of_nat k < P2V a + len -> is_mp m (P2V a + MP_SIZE * Z.of_nat k) = false
  end.
Proof. intros Hl. apply mpsearch1_loop_ok. unfold MP_SIZE. Z.div_mod_to_equations. lia. Qed.

(** ** The table *)

Inductive mpentry : Type :=
| EProc (apicid : Z) (more : list Z)
| EIoapic (apicno : Z) (more : list Z)
| EOther (type : Z) (more : list Z).

Definition entry_bytes (e : mpentry) : list Z :=
  match e with
  | EProc i l => MPPROC :: i :: l
  | EIoapic i l => MPIOAPIC :: i :: l
  | EOther t l => t :: l
  end.
Definition entry_ok (e : mpentry) : Prop :=
  Forall (fun b => 0 <= b < 256) (entry_bytes e) /\
  match e with
  | EProc _ l => length l = 18%nat
  | EIoapic _ l => length l = 6%nat
  | EOther t l => (t = MPBUS \/ t = MPIOINTR \/ t = MPLINTR) /\ length l = 7%nat
  end.

Definition procs (es : list mpentry) : list Z := omap (fun e => match e with EProc i _ => Some i | _ => None end) es.
Definition last_ioapic (es : list mpentry) (d : Z) : Z := foldl (fun d e => match e with EIoapic i _ => i | _ => d end) d es.

Definition set_found (ids : list Z) (io : Z) (d : devices) : devices := set_ioapicid io (set_apicids ids d).

Lemma bytes_at_app m p n1 n2 : bytes_at m p (n1 + n2) = bytes_at m p n1 ++ bytes_at m (p + Z.of_nat n1) n2.
Proof.
  unfold bytes_at. rewrite seq_app, map_app. f_equal. apply list_eq. intros k. rewrite !list_lookup_fmap. destruct (decide (k < n2)%nat) as [Hk | Hk].
  - rewrite !lookup_seq_lt by exact Hk. cbn. do 2 f_equal. lia.
  - rewrite !lookup_seq_ge by lia. reflexivity.
Qed.

Lemma bytes_at_length m p n : length (bytes_at m p n) = n.
Proof. unfold bytes_at. rewrite length_map, length_seq. reflexivity. Qed.

Lemma bytes_at_first m p n b l : bytes_at m p n = b :: l -> load8 m p = b.
Proof. destruct n as [|n]; [discriminate|]. intros [= <- _]. f_equal. lia. Qed.
Lemma bytes_at_second m p n a b l : bytes_at m p n = a :: b :: l -> load8 m (p + 1) = b.
Proof. destruct n as [|[|n]]; try discriminate. intros [= _ <- _]. f_equal. Qed.

Section Table.
Context {HW : Hardware} (m : mem).

Lemma mpinit_loop_ok es : forall p d fuel ismp, Forall entry_ok es ->
  let bytes := mjoin (map entry_bytes es) in
  bytes_at m p (length bytes) = bytes -> (length es < fuel)%nat -> (length (dv_apicids d) <= NCPU)%nat ->
  mpinit_loop m p (p + Z.of_nat (length bytes)) ismp fuel d =
    Ok ismp (set_found (take NCPU (dv_apicids d ++ procs es)) (last_ioapic es (dv_ioapicid d)) d).
Proof.
  induction es as [|en es IH]; intros p d [|fuel] ismp Hok bytes Hb Hf Hn; try (cbn [length] in Hf; lia); cbn [mpinit_loop].
  - replace (p <? p + Z.of_nat (length bytes)) with false by (symmetry; apply Z.ltb_ge; cbn; lia). cbn [procs omap list_omap last_ioapic foldl]. rewrite app_nil_r, take_ge by exact Hn. destruct d; reflexivity.
  - apply Forall_cons_1 in Hok as [[Hby Hen] Hok]. change bytes with (entry_bytes en ++ mjoin (map entry_bytes es)) in Hb |- *. set (rest := mjoin (map entry_bytes es)) in *.
    rewrite length_app in Hb |- *. rewrite bytes_at_app in Hb. apply app_inj_1 in Hb as [Hb1 Hb2]; [|apply bytes_at_length].
    assert (Hpos : (0 < length (entry_bytes en))%nat) by (destruct en; cbn; lia). replace (p <? _) with true by (symmetry; apply Z.ltb_lt; lia).
    assert (Hnext : forall d', (length (dv_apicids d') <= NCPU)%nat -> mpinit_loop m (p + Z.of_nat (length (entry_bytes en))) (p + Z.of_nat (length (entry_bytes en) + length rest)) ismp fuel d' =
      Ok ismp (set_found (take NCPU (dv_apicids d' ++ procs es)) (last_ioapic es (dv_ioapicid d')) d')).
    { intros d' Hd. rewrite Nat2Z.inj_add, Z.add_assoc. apply IH; [exact Hok | exact Hb2 | cbn [length] in Hf; lia | exact Hd]. }
    destruct en as [i l | i l | t l]; cbn [entry_bytes] in Hb1, Hnext, Hen |- *.
    + rewrite (bytes_at_first m p _ _ _ Hb1), (bytes_at_second m p _ _ _ _ Hb1). cbn [Z.eqb MPPROC]. unfold gets at 1. erewrite bind_ok by reflexivity.
      change (p + MPPROC_SIZE) with (p + 20). cbn [length] in Hnext |- *. rewrite Hen in Hnext |- *. destruct (Nat.ltb_spec (length (dv_apicids d)) NCPU) as [Hlt | Hge]; cbn [when].
      * unfold modify at 1. erewrite bind_ok by reflexivity. etransitivity; [apply Hnext; cbn; rewrite length_app; cbn; lia|]. unfold set_found. cbn. rewrite <- app_assoc. reflexivity.
      * erewrite bind_ok by reflexivity. etransitivity; [apply Hnext; exact Hn|]. unfold set_found. cbn [procs omap list_omap last_ioapic foldl]. rewrite !take_app_le by lia. reflexivity.
    + rewrite (bytes_at_first m p _ _ _ Hb1), (bytes_at_second m p _ _ _ _ Hb1). cbn [Z.eqb MPPROC MPIOAPIC Pos.eqb]. unfold modify at 1. erewrite bind_ok by reflexivity.
      change (p + MPIOAPIC_SIZE) with (p + 8). cbn [length] in Hnext |- *. rewrite Hen in Hnext |- *. etransitivity; [apply Hnext; exact Hn|]. reflexivity.
    + rewrite (bytes_at_first m p _ _ _ Hb1). destruct Hen as [Ht Hl]. cbn [length] in Hnext |- *. rewrite Hl in Hnext |- *. unfold MPBUS, MPIOINTR, MPLINTR in Ht.
      destruct Ht as [-> | [-> | ->]]; cbn [Z.eqb MPPROC MPIOAPIC MPBUS MPIOINTR MPLINTR Pos.eqb orb]; etransitivity; try (apply Hnext; exact Hn); reflexivity.
Qed.

(** An entry of another type: the loop does not end. *)
Lemma mpinit_stuck p e ismp fuel d : p < e -> 4 < load8 m p -> mpinit_loop m p e ismp fuel d = NoFuel.
Proof.
  intros Hp Ht. revert ismp. induction fuel as [|fuel IH]; intros ismp; cbn [mpinit_loop]; [reflexivity|]. replace (p <? e) with true by (symmetry; apply Z.ltb_lt; lia).
  unfold MPPROC, MPIOAPIC, MPBUS, MPIOINTR, MPLINTR. rewrite !(proj2 (Z.eqb_neq _ _)) by lia. apply IH.
Qed.

(** mp.c: when the search finds a configuration table whose entries are
    processors, I/O APICs, buses and interrupt assignments, [mpinit] ends
    without a panic and has recorded the APIC ids of the first NCPU processors in
    the order of the table, the id of the last I/O APIC and the address of the
    local APIC. *)
Lemma mpinit_finds_cpus conf mp es d fuel :
  mpconfig m = Some (conf, mp) -> Forall entry_ok es ->
  let bytes := mjoin (map entry_bytes es) in
  conf_length m conf = MPCONF_SIZE + Z.of_nat (length bytes) -> bytes_at m (conf + MPCONF_SIZE) (length bytes) = bytes ->
  dv_apicids d = [] -> (length es < fuel)%nat ->
  exists d', mpinit m fuel d = Ok tt d' /\ dv_apicids d' = take NCPU (procs es) /\ dv_ioapicid d' = last_ioapic es (dv_ioapicid d) /\ dv_lapic d' = conf_lapicaddr m conf.
Proof.
  intros Hc Hok bytes Hl Hb Hd Hf. unfold mpinit. rewrite Hc. unfold modify at 1. erewrite bind_ok by reflexivity. set (d1 := set_lapic _ d).
  pose proof (mpinit_loop_ok es (conf + MPCONF_SIZE) d1 fuel true Hok Hb Hf) as E. replace (conf + MPCONF_SIZE + Z.of_nat (length (mjoin (map entry_bytes es)))) with (conf + conf_length m conf) in E by (fold bytes; lia).
  rewrite (bind_ok _ _ _ _ _ (E ltac:(cbn; rewrite Hd; cbn; lia))). cbn [negb]. cbn [d1 set_lapic dv_apicids dv_ioapicid]. rewrite Hd. cbn [app].
  destruct (mp_imcrp m mp =? 0); cbn [negb when]; eexists; (split; [reflexivity|]); cbn; auto.
Qed.
End Table.

(** ** An example *)

(** Memory with some bytes in it. *)
Definition memory (l : list (Z * list Z)) : mem := fun a =>
  foldr (fun e r => if (e.1 <=? a) && (a <? e.1 + Z.of_nat (length e.2)) then nth (Z.to_nat (a - e.1)) e.2 0 else r) 0 l.
Definition two_cpus : list mpentry :=
  [EProc 0 (replicate 18 1); EProc 3 (replicate 18 2); EOther 1 (replicate 7 0); EIoapic 5 (replicate 6 0); EOther 3 (replicate 7 9)].
Definition two_cpus_mem : mem :=
  memory [(P2V 0x40E, [0x00; 0x10]);
          (P2V 0x10010, sig_mp ++ [0; 0; 2; 0; 1; 4; 158; 0; 0; 0; 0; 0]);
          (P2V 0x20000, sig_pcmp ++ [108; 0; 4; 255] ++ replicate 28 0 ++ [0; 0; 224; 254; 0; 0; 0; 0] ++ mjoin (map entry_bytes two_cpus))].
Definition quiet_hardware : Hardware := {| answer := fun _ _ _ => 0 |}.
Definition no_devices : devices := mkDev [] 0 0 0 0 [] [].

End Mp.
