(* ===== verification/Keyboard.v ===== *)
(** * From the keyboard to a reader

    kbdintr and uartintr join the drivers of Devices.v to the console: the loop
    of consoleintr takes characters from the device until it has none.  A
    keyboard is modelled by the codes that it has to deliver. *)

From Stdlib Require Import ZArith Lia ZifyBool ZifyNat.
From stdpp Require Import base list strings gmap.
From S2P Require Import Prelude Mem Mmu Kernel Spinlock Kalloc Vm VmFacts Sched Runs Bio Log Fs Uaccess Pipe Console Tty Trap Devices.
Import Devices.

(** ** The interrupt handlers *)

Section Handlers.
Context {HW : Hardware}.

(** [while((c = getc()) >= 0)]. *)
Fixpoint drain (getc : D Z) (fuel : nat) : D (list Z) :=
  match fuel with
  | O => nofuel
  | S f =>
      let! c := getc in
      if c <? 0 then ret []
      else let! cs := drain getc f in ret (c :: cs)
  end.

(** The devices and the rest of the kernel state are apart, so that all
    characters may be fetched first. *)
Definition intr (getc : D Z) (fuel : nat) (d : devices) : K devices :=
  match drain getc fuel d with
  | Ok cs d' => consoleintr cs ;; ret d'
  | NoFuel => nofuel
  | _ => fault
  end.
Definition kbdintr : nat -> devices -> K devices := intr kbdgetc.
Definition uartintr : nat -> devices -> K devices := intr uartgetc.
End Handlers.

(** ** A keyboard *)

(** How many codes have been read, and a keyboard that delivers [codes]. *)
Definition delivered_codes (tr : list event) : nat :=
  length (List.filter (fun e => match e with Rd Port r _ => r =? KBDATAP | _ => false end) tr).
Definition typing (codes : list Z) : Hardware :=
  {| answer tr sp r :=
       let k := delivered_codes tr in
       if r =? KBSTATP then (if (k <? length codes)%nat then 1 else 0)
       else if r =? KBDATAP then nth k codes 0
       else 0 |}.

(** The state of the modifiers and the characters, zeros included. *)
Fixpoint scan (shift : Z) (codes : list Z) : Z * list Z :=
  match codes with
  | [] => (shift, [])
  | x :: codes' =>
      let st := kbd_code shift x in
      let r := scan st.1 codes' in
      (r.1, st.2 :: r.2)
  end.

Lemma kbdgetc_typing codes d k x :
  delivered_codes (dv_trace d) = k -> codes !! k = Some x -> 0 <= x < 256 ->
  exists d', @kbdgetc (typing codes) d = Ok (kbd_code (dv_shift d) x).2 d' /\
    dv_shift d' = (kbd_code (dv_shift d) x).1 /\ delivered_codes (dv_trace d') = S k.
Proof.
  intros Hk Hx Hr. unfold kbdgetc, inb, rd. erewrite bind_ok by reflexivity. cbn [answer typing].
  rewrite Hk. rewrite (proj2 (Nat.ltb_lt _ _) (lookup_lt_Some _ _ _ Hx)). change (Z.land (_ mod 2 ^ 8) KBS_DIB =? 0) with false. cbv iota.
  erewrite bind_ok by reflexivity. cbn [dv_trace set_trace answer typing]. change (delivered_codes (Rd Port KBSTATP _ :: dv_trace d)) with (delivered_codes (dv_trace d)).
  rewrite Hk, (nth_lookup_Some _ _ _ _ Hx). change (KBDATAP =? KBSTATP) with false. change (KBDATAP =? KBDATAP) with true. cbv iota.
  rewrite Z.mod_small by (change (2 ^ 8) with 256; lia). erewrite bind_ok by reflexivity. cbn [dv_shift set_trace].
  destruct (kbd_code (dv_shift d) x) as [sh c]. eexists. split; [reflexivity|]. split; [reflexivity|]. rewrite <- Hk. reflexivity.
Qed.

Lemma kbdgetc_empty codes d : delivered_codes (dv_trace d) = length codes ->
  exists d', @kbdgetc (typing codes) d = Ok (-1) d' /\ dv_shift d' = dv_shift d.
Proof.
  intros Hk. unfold kbdgetc, inb, rd. erewrite bind_ok by reflexivity. cbn [answer typing]. rewrite Hk, Nat.ltb_irrefl.
  eexists. split; reflexivity.
Qed.

Lemma drain_typing all codes : forall k d fuel,
  drop k all = codes -> delivered_codes (dv_trace d) = k -> (k + length codes = length all)%nat ->
  Forall (fun x => 0 <= x < 256) codes -> 0 <= dv_shift d < 128 -> (length codes < fuel)%nat ->
  exists d', drain (@kbdgetc (typing all)) fuel d = Ok (scan (dv_shift d) codes).2 d' /\ dv_shift d' = (scan (dv_shift d) codes).1.
Proof.
  induction codes as [|x codes IH]; intros k d [|fuel] Hd Hk Hl Hb Hs Hf; try (cbn in Hf; lia); cbn [drain].
  - destruct (kbdgetc_empty all d ltac:(cbn in Hl; lia)) as (d' & E & Hsh). exists d'. rewrite (bind_ok _ _ _ _ _ E). auto.
  - apply Forall_cons_1 in Hb as [Hx Hb].
    assert (Hat : all !! k = Some x) by (rewrite <- (Nat.add_0_r k), <- lookup_drop, Hd; reflexivity).
    destruct (kbdgetc_typing all d k x Hk Hat Hx) as (d1 & E & Hsh & Hk1). rewrite (bind_ok _ _ _ _ _ E).
    pose proof (kbd_code_range (dv_shift d) x Hs Hx) as [R1 R2]. replace (_ <? 0) with false by lia.
    destruct (IH (S k) d1 fuel) as (d2 & E2 & Hsh2); [|exact Hk1 | cbn in Hl; lia | exact Hb | lia | cbn in Hf; lia|].
    { change (S k) with (1 + k)%nat. rewrite Nat.add_comm, <- drop_drop, Hd. reflexivity. }
    exists d2. rewrite (bind_ok _ _ _ _ _ E2). cbn [scan fst snd]. rewrite Hsh2, Hsh. split; reflexivity.
Qed.

Lemma scan_app a : forall sh b, scan sh (a ++ b) = ((scan (scan sh a).1 b).1, (scan sh a).2 ++ (scan (scan sh a).1 b).2).
Proof.
  induction a as [|x a IH]; intros sh b; [cbn; destruct (scan sh b); reflexivity|]. cbn [scan app fst snd]. rewrite IH. reflexivity.
Qed.

Definition nonzero (cs : list Z) : list Z := List.filter (fun c => negb (c =? 0)) cs.

Lemma scan_types codes sh : type_codes sh codes = ((scan sh codes).1, nonzero (scan sh codes).2).
Proof.
  induction codes as [|x codes IH] using rev_ind; [reflexivity|].
  unfold type_codes in *. rewrite foldl_app, IH, scan_app. cbn [foldl scan fst snd]. destruct (kbd_code _ x) as [sh' c]. cbn [fst snd].
  unfold nonzero. rewrite List.filter_app. cbn [List.filter]. destruct (c =? 0); cbn [negb]; [rewrite app_nil_r|]; reflexivity.
Qed.

Definition key (c : Z) : Prop := 32 <= c < 127 \/ c ∈ [8; 9; 10; 27].

Lemma scan_text text : Forall key text ->
  (scan 0 (mjoin (map chord text))).1 = 0 /\ nonzero (scan 0 (mjoin (map chord text))).2 = text.
Proof.
  induction text as [|c text IH]; intros Hk; [split; reflexivity|]. apply Forall_cons_1 in Hk as [Hc Hk].
  change (mjoin (map chord (c :: text))) with (chord c ++ mjoin (map chord text)). rewrite scan_app. pose proof (kbd_types_ascii c Hc) as E. rewrite scan_types in E. injection E as E1 E2. rewrite E1.
  destruct (IH Hk) as [H1 H2]. cbn [fst snd]. split; [exact H1|]. unfold nonzero in *. rewrite List.filter_app, E2, H2. reflexivity.
Qed.

Lemma tty_nonzero cs : forall t, tty_chars cs t = tty_chars (nonzero cs) t.
Proof.
  induction cs as [|c cs IH]; intros t; [reflexivity|]. cbn [nonzero List.filter]. destruct (Z.eqb_spec c 0) as [-> | Hc]; cbn [negb].
  - unfold tty_chars at 1. cbn [foldl]. change (tty_char 0 t) with t. apply IH.
  - unfold tty_chars. cbn [foldl]. apply IH.
Qed.

(** ** A line *)

Definition printable (c : Z) : Prop := 32 <= c < 127.

Lemma tty_text text : forall d l e w, Forall printable text -> Z.of_nat (length d + length l + length text) < INPUT_BUF ->
  exists e', tty_chars text (mkTty d l e w) = mkTty d (l ++ text) e' w.
Proof.
  induction text as [|c text IH]; intros d l e w Hp Hl; [exists e; rewrite app_nil_r; reflexivity|].
  apply Forall_cons_1 in Hp as [Hc Hp]. unfold printable in Hc. unfold tty_chars. cbn [foldl length] in *. unfold INPUT_BUF in *.
  assert (E : tty_char c (mkTty d l e w) = mkTty d (l ++ [c]) (chr c :: e) w).
  { unfold tty_char, tty_put, held, INPUT_BUF, C_P, C_U, C_H, DEL, CR, LF, C_D. cbn [t_done t_line t_echo t_wakes].
    repeat match goal with |- context [if ?b then _ else _] => replace b with false by lia end. reflexivity. }
  rewrite E. destruct (IH d (l ++ [c]) (chr c :: e) w Hp) as (e' & E'); [rewrite length_app; cbn; lia|].
  exists e'. unfold tty_chars in E'. rewrite E', <- app_assoc. reflexivity.
Qed.

Lemma tty_line text e : Forall printable text -> Z.of_nat (length text) < INPUT_BUF - 1 ->
  exists e', tty_chars (text ++ [LF]) (mkTty [] [] e false) = mkTty (text ++ [LF]) [] e' true.
Proof.
  intros Hp Hl. destruct (tty_text text [] [] e false Hp ltac:(cbn; lia)) as (e' & E). unfold tty_chars in *. rewrite foldl_app, E.
  exists (chr LF :: e'). cbn [foldl app]. unfold tty_char, tty_put, held. cbn [t_done t_line t_echo t_wakes length]. unfold INPUT_BUF in *.
  change (LF =? C_P) with false. change (LF =? C_U) with false. change ((LF =? C_H) || (LF =? DEL)) with false. change (LF =? 0) with false.
  change (LF =? CR) with false. change (LF =? LF) with true. cbn [orb]. replace (128 <=? _) with false by lia. reflexivity.
Qed.

Section Read.
Context `{Rounds, Hrounds : (0 < rounds)%nat} (i : nat).

(** A whole line is read without waiting. *)
Lemma consoleread_line line : forall n got s t rest,
  in_cons i t s -> t_done t = line ++ [LF] ++ rest -> Forall printable line -> (length line < n)%nat ->
  exists s', consoleread_loop n got s = Ok (Some (line ++ [LF])) s' /\ in_cons i (mkTty rest (t_line t) [] false) s'.
Proof.
  induction line as [|c line IH]; intros [|n] got s t rest Hin Ed Hp Hn; try (cbn in Hn; lia); cbn [consoleread_loop].
  all: assert (Hready : input_loop rounds s = Ok true s) by
    (destruct rounds as [|r]; [lia|]; cbn [input_loop]; erewrite bind_ok by reflexivity;
     rewrite (shows_unread _ t (ic_shows _ _ _ Hin)), Ed; reflexivity).
  all: rewrite (bind_ok _ _ _ _ _ Hready); cbn [negb]; erewrite bind_ok by reflexivity.
  - destruct (pop_takes i t s LF rest Hin Ed) as (Ec & Hin' & _). rewrite Ec. erewrite bind_ok by reflexivity.
    eexists. split; [reflexivity | exact Hin'].
  - apply Forall_cons_1 in Hp as [Hc Hp]. unfold printable in Hc. destruct (pop_takes i t s c _ Hin Ed) as (Ec & Hin' & _). rewrite Ec.
    erewrite bind_ok by reflexivity. replace (c =? C_D) with false by (unfold C_D; lia). replace (c =? LF) with false by (unfold LF; lia).
    destruct (IH n true _ _ rest Hin' eq_refl Hp ltac:(cbn in Hn; lia)) as (s' & E & Hs'). rewrite (bind_ok _ _ _ _ _ E).
    exists s'. split; [reflexivity | exact Hs'].
Qed.

Lemma console_take_line line n s t rest : running i 0 s -> lock_free LCons s -> Tty.shows (k_input s) t ->
  t_done t = line ++ [LF] ++ rest -> Forall printable line -> Z.of_nat (length line) < n ->
  exists s', console_take n s = Ok (Some (line ++ [LF])) s' /\ running i 0 s' /\ lock_free LCons s' /\ unread (k_input s') = rest.
Proof.
  intros Hr Hl Hs Ed Hp Hn. unfold console_take. destruct (run_acquire i 0 LCons s Hr ltac:(discriminate) Hl) as (E & Hr1 & Hm1).
  rewrite (bind_ok _ _ _ _ _ E).
  destruct (consoleread_line line (Z.to_nat n) false (locked_state LCons s) t rest) as (s1 & E1 & [Hr2 Hm2 Hs2]);
    [constructor; assumption | exact Ed | exact Hp | lia|].
  rewrite (bind_ok _ _ _ _ _ E1). destruct (run_release i 1 LCons s1 Hr2 ltac:(discriminate) ltac:(lia) Hm2) as (E2 & Hr3 & Hf3).
  rewrite (bind_ok _ _ _ _ _ E2). eexists. split; [reflexivity|]. split; [exact Hr3|]. split; [exact Hf3|].
  change (k_input (unlocked_state LCons s1)) with (k_input s1). rewrite (shows_done _ _ Hs2). reflexivity.
Qed.
End Read.

Lemma scan_range codes : forall sh, 0 <= sh < 128 -> Forall (fun x => 0 <= x < 256) codes -> Forall (fun c => 0 <= c < 256) (scan sh codes).2.
Proof.
  induction codes as [|x codes IH]; intros sh Hs Hc; [constructor|]. apply Forall_cons_1 in Hc as [Hx Hc].
  pose proof (kbd_code_range sh x Hs Hx) as [R1 R2]. constructor; [exact R2 | apply IH; assumption].
Qed.

Lemma chord_range c : key c -> Forall (fun x => 0 <= x < 256) (chord c).
Proof.
  intros Hc. assert (H : forallb (fun c => forallb (fun x => (0 <=? x) && (x <? 256)) (chord c)) (seqZ 32 95 ++ [8; 9; 10; 27]) = true) by (vm_compute; reflexivity).
  rewrite forallb_forall in H. apply Forall_forall. intros x Hx. specialize (H c).
  rewrite forallb_forall in H. assert (Hr : (0 <=? x) && (x <? 256) = true); [|lia]. apply H; [|apply list_elem_of_In, Hx].
  apply list_elem_of_In, elem_of_app. rewrite elem_of_seqZ. destruct Hc; [left; lia | right; assumption].
Qed.

(** The codes of a line: the chords of its characters and of the enter key. *)
Definition line_codes (text : list Z) : list Z := mjoin (map chord (text ++ [LF])).

Lemma line_keys text : Forall printable text -> Forall key (text ++ [LF]).
Proof.
  intros Hp. apply Forall_app. split; [eapply Forall_impl; [exact Hp|]; intros c Hc; left; exact Hc|].
  constructor; [right; unfold LF; set_solver | constructor].
Qed.

Lemma line_codes_range text : Forall printable text -> Forall (fun x => 0 <= x < 256) (line_codes text).
Proof.
  intros Hp. apply line_keys in Hp. unfold line_codes. induction Hp as [|c l Hc _ IH]; [constructor|].
  change (mjoin (map chord (c :: l))) with (chord c ++ mjoin (map chord l)). apply Forall_app. split; [apply chord_range, Hc | exact IH].
Qed.

(** What the handler does with a line. *)
Lemma kbdintr_line `{Rounds} i text s d fuel :
  running i 0 s -> lock_free LCons s -> Tty.shows (k_input s) (mkTty [] [] (k_out s) false) ->
  Forall printable text -> Z.of_nat (length text) < INPUT_BUF - 1 ->
  dv_shift d = 0 -> delivered_codes (dv_trace d) = 0%nat -> (length (line_codes text) < fuel)%nat ->
  exists d' s1 e, @kbdintr (typing (line_codes text)) fuel d s = Ok d' s1 /\ dv_shift d' = 0 /\
    running i 0 s1 /\ lock_free LCons s1 /\ Tty.shows (k_input s1) (mkTty (text ++ [LF]) [] e true).
Proof.
  intros Hr Hl Hs Hp Hlen Hd Hk Hf. unfold kbdintr, intr. pose proof (line_codes_range text Hp) as Hcr.
  destruct (drain_typing (line_codes text) (line_codes text) 0 d fuel) as (d' & E & Hsh);
    [reflexivity | exact Hk | reflexivity | exact Hcr | lia | exact Hf|].
  rewrite Hd in E, Hsh. rewrite E. destruct (scan_text (text ++ [LF]) (line_keys text Hp)) as [Hz Hnz].
  set (cs := (scan 0 (line_codes text)).2) in *. pose proof Hr as [Hc Hn Hpr He Hpt].
  destruct (consoleintr_run s (mkTty [] [] (k_out s) false) cs) as (x & o & Ei & Hx & _); try assumption; try reflexivity.
  { apply scan_range; [lia | exact Hcr]. }
  rewrite (bind_ok _ _ _ _ _ Ei). rewrite tty_nonzero in Hx |- *. change (nonzero cs) with (nonzero (scan 0 (mjoin (map chord (text ++ [LF])))).2).
  change (nonzero cs) with (nonzero (scan 0 (mjoin (map chord (text ++ [LF])))).2) in Hx.
  rewrite Hnz in Hx |- *. destruct (tty_line text (k_out s) Hp Hlen) as (e & Et). rewrite Et in Hx |- *.
  eexists d', _, e. split; [reflexivity|]. split; [rewrite Hsh; exact Hz|]. split; [|split; [exact Hl | exact Hx]].
  apply running_touch. constructor; try assumption; [cpuok|]. cbn [k_procs set_procs t_wakes]. destruct He as [p Hpi]. exists (wake ChInput p).
  rewrite lookup_wake, Hpi. reflexivity.
Qed.

(** C31 (kbd.c, console.c): a line that is typed is read.  A line of printable
    characters, shorter than the input buffer, is typed on a keyboard with the
    US layout, each character as the codes of the key that has it on its cap,
    with the shift key where it is needed, and then the enter key.  After the interrupt handler has taken the codes, a
    reader that asks for enough bytes gets the line with a newline, without
    waiting, and no byte is left; no modifier of the keyboard is left pressed. *)
Theorem typed_line_read `{Rounds} i text n s d fuel :
  (0 < rounds)%nat -> running i 0 s -> lock_free LCons s -> Tty.shows (k_input s) (mkTty [] [] (k_out s) false) ->
  Forall printable text -> Z.of_nat (length text) < INPUT_BUF - 1 -> Z.of_nat (length text) < n ->
  dv_shift d = 0 -> delivered_codes (dv_trace d) = 0%nat -> (length (line_codes text) < fuel)%nat ->
  exists d' s1 s2, @kbdintr (typing (line_codes text)) fuel d s = Ok d' s1 /\ dv_shift d' = 0 /\
    console_take n s1 = Ok (Some (text ++ [LF])) s2 /\ running i 0 s2 /\ lock_free LCons s2 /\ unread (k_input s2) = [].
Proof.
  intros Hrd Hr Hl Hs Hp Hlen Hn Hd Hk Hf.
  destruct (kbdintr_line i text s d fuel Hr Hl Hs Hp Hlen Hd Hk Hf) as (d' & s1 & e & E & Hsh & Hr1 & Hl1 & Hx).
  destruct (console_take_line (Hrounds := Hrd) i text n s1 _ [] Hr1 Hl1 Hx) as (s2 & E2 & Hr2 & Hl2 & Hu); [reflexivity | exact Hp | exact Hn|].
  exists d', s1, s2. auto 10.
Qed.

(** Typing Hi, with the shift key for the capital letter. *)
Lemma typed_line_read_witness :
  exists d' s1 s2, @kbdintr (typing (line_codes [72; 105])) 20 (mkDev [] 0 0 0 0 [] []) prun = Ok d' s1 /\
    @console_take rounds4 10 s1 = Ok (Some [72; 105; 10]) s2.
Proof.
  destruct (@typed_line_read rounds4 0 [72; 105] 10 prun (mkDev [] 0 0 0 0 [] []) 20) as (d' & s1 & s2 & E & _ & E2 & _).
  - cbn. lia.
  - exact prun_running.
  - split; reflexivity.
  - apply shows_empty.
  - repeat (apply List.Forall_cons; [unfold printable; lia|]). apply List.Forall_nil.
  - cbn. unfold INPUT_BUF. lia.
  - cbn. lia.
  - reflexivity.
  - reflexivity.
  - vm_compute. lia.
  - exists d', s1, s2. split; [exact E | exact E2].
Defined.
