(* ===== verification/Screen.v ===== *)
(** * The text screen: cgaputc and consputc of solution/console.c

    The cursor lives in the video controller, which is reached through two
    ports; the characters are in memory, one cell of 16 bits each. *)

From Stdlib Require Import ZArith Lia ZifyBool ZifyNat.
From stdpp Require Import base list strings.
From S2P Require Import Prelude Mem Mmu Console Devices.
Import Devices.

Module Screen.

Definition CRTPORT : Z := 0x3d4.
(** The cell of a character: black on white. *)
Definition cell (c : Z) : Z := Z.lor (Z.land c 0xff) 0x0700.

Section Driver.
Context {HW : Hardware}.

(** [memmove(crt, crt+80, sizeof(crt[0])*23*80)] and
    [memset(crt+pos, 0, sizeof(crt[0])*(24*80 - pos))]. *)
Definition scroll (crt : Z -> Z) : Z -> Z := fun k => if (0 <=? k) && (k <? 23 * 80) then crt (k + 80) else crt k.
Definition clear_from (pos : Z) (crt : Z -> Z) : Z -> Z := fun k => if (pos <=? k) && (k <? 24 * 80) then 0 else crt k.

(** The effect of a character, then scrolling. *)
Definition cga_put (crt : Z -> Z) (pos c : Z) : (Z -> Z) * Z :=
  if c =? LF then (crt, pos + (80 - pos mod 80))
  else if c =? BACKSPACE then (crt, if 0 <? pos then pos - 1 else pos)
  else (fupd crt pos (cell c), pos + 1).
Definition cga_scroll (crt : Z -> Z) (pos : Z) : (Z -> Z) * Z :=
  if 24 <=? pos / 80 then (clear_from (pos - 80) (scroll crt), pos - 80) else (crt, pos).

Definition cgaputc (crt : Z -> Z) (c : Z) : D (Z -> Z) :=
  outb CRTPORT 14 ;;
  let! hi := inb (CRTPORT + 1) in
  outb CRTPORT 15 ;;
  let! lo := inb (CRTPORT + 1) in
  let pos := Z.lor (Z.shiftl hi 8) lo in
  let '(crt, pos) := cga_put crt pos c in
  if (pos <? 0) || (25 * 80 <? pos) then panic "pos under/overflow"
  else
    let '(crt, pos) := cga_scroll crt pos in
    outb CRTPORT 14 ;;
    outb (CRTPORT + 1) (Z.shiftr pos 8) ;;
    outb CRTPORT 15 ;;
    outb (CRTPORT + 1) pos ;;
    ret (fupd crt pos (Z.lor 32 0x0700)).

(** After a panic the CPU stops. *)
Definition consputc (panicked : bool) (crt : Z -> Z) (c : Z) : D (Z -> Z) :=
  if panicked then (fun _ => Spin)
  else
    (if c =? BACKSPACE then uartputc 8 ;; uartputc 32 ;; uartputc 8 else uartputc c) ;;
    cgaputc crt c.
Fixpoint consputs (crt : Z -> Z) (cs : list Z) : D (Z -> Z) :=
  match cs with
  | [] => ret crt
  | c :: cs' => let! crt := consputc false crt c in consputs crt cs'
  end.
End Driver.

(** ** The video controller *)

(** The register selected and the two bytes of the cursor position. *)
Definition crtc_step (e : event) (st : Z * (Z * Z)) : Z * (Z * Z) :=
  match e with
  | Wr Port a v =>
      if a =? CRTPORT then (v, st.2)
      else if a =? CRTPORT + 1 then
        (st.1, (if st.1 =? 14 then v else st.2.1, if st.1 =? 15 then v else st.2.2))
      else st
  | _ => st
  end.
Definition crtc_state (tr : list event) : Z * (Z * Z) := foldr crtc_step (0, (0, 0)) tr.
(** A controller that remembers; the other devices answer as [others] says. *)
Definition controller (others : Hardware) : Hardware :=
  {| answer tr sp r :=
       let st := crtc_state tr in
       match sp with
       | Port => if r =? CRTPORT + 1 then (if st.1 =? 14 then st.2.1 else st.2.2) else @answer others tr sp r
       | _ => @answer others tr sp r
       end |}.
Definition cursor (d : devices) : Z :=
  let st := crtc_state (dv_trace d) in 256 * st.2.1 + st.2.2.

(** ** What the screen shows *)

(** Lines, the newest first; the first one is being written. *)
Definition screen_char (c : Z) (ls : list (list Z)) : list (list Z) :=
  match ls with
  | [] => []
  | cur :: older =>
      if c =? LF then [] :: ls
      else if c =? BACKSPACE then removelast cur :: older
      else if (length cur =? 79)%nat then [] :: (cur ++ [c]) :: older
      else (cur ++ [c]) :: older
  end.
Definition screen_chars (cs : list Z) (ls : list (list Z)) : list (list Z) := foldl (fun ls c => screen_char c ls) ls cs.
(** Only characters of the line that is being written are erased. *)
Definition can_put (c : Z) (ls : list (list Z)) : Prop := c = BACKSPACE -> exists b cur older, ls = (b :: cur) :: older.
Fixpoint can_puts (cs : list Z) (ls : list (list Z)) : Prop :=
  match cs with
  | [] => True
  | c :: cs' => can_put c ls /\ can_puts cs' (screen_char c ls)
  end.

(** The cell for a character, or for none: a cell that was never written or was
    cleared has 0, one that was erased has a space; both look blank. *)
Definition shown (o : option Z) (v : Z) : Prop :=
  match o with
  | Some c => v = cell c
  | None => v = 0 \/ v = cell 32
  end.
(** The lines are on the screen with the newest in row [row], and all other
    cells of the 24 rows in use are blank. *)
Definition rows (row : Z) (ls : list (list Z)) (crt : Z -> Z) : Prop :=
  (forall (k : nat) line (j : nat), Z.of_nat k <= row -> ls !! k = Some line -> (j < 80)%nat ->
     shown (line !! j) (crt (80 * (row - Z.of_nat k) + Z.of_nat j))) /\
  (forall p, 80 * (row + 1) <= p < 1920 -> shown None (crt p)).
Record displays (ls : list (list Z)) (crt : Z -> Z) (pos : Z) : Prop := {
  di_cur : exists cur older, ls = cur :: older /\ (length cur < 80)%nat /\
             pos = 80 * Z.min (Z.of_nat (length older)) 23 + Z.of_nat (length cur);
  di_wide : Forall (fun l => (length l <= 80)%nat) ls;
  di_rows : rows (Z.min (Z.of_nat (length ls) - 1) 23) ls crt }.

Lemma rows_blank row cur older crt p : 80 * row + Z.of_nat (length cur) <= p ->
  rows row (cur :: older) crt -> rows row (cur :: older) (fupd crt p (cell 32)).
Proof.
  intros Hp [Hr Hb]. split.
  - intros k line j Hk Hl Hj. destruct (Z.eq_dec (80 * (row - Z.of_nat k) + Z.of_nat j) p) as [<- | Hne].
    + rewrite fupd_eq. destruct k as [|k]; [|lia]. injection Hl as <-. rewrite lookup_ge_None_2 by lia. right. reflexivity.
    + rewrite fupd_ne by exact Hne. apply (Hr k line j Hk Hl Hj).
  - intros x Hx. destruct (Z.eq_dec x p) as [<- | Hne]; [rewrite fupd_eq; right; reflexivity | rewrite fupd_ne by exact Hne; apply Hb, Hx].
Qed.

Lemma rows_put row cur older crt c : (length cur < 80)%nat ->
  rows row (cur :: older) crt -> rows row ((cur ++ [c]) :: older) (fupd crt (80 * row + Z.of_nat (length cur)) (cell c)).
Proof.
  intros Hc [Hr Hb]. split; [|intros x Hx; rewrite fupd_ne by lia; apply Hb, Hx].
  intros k line j Hk Hl Hj. destruct (Z.eq_dec (80 * (row - Z.of_nat k) + Z.of_nat j) (80 * row + Z.of_nat (length cur))) as [E | Hne].
  - destruct k as [|k]; [|lia]. injection Hl as <-. rewrite E, fupd_eq. rewrite (lookup_app_r cur [c]) by lia. replace (j - length cur)%nat with 0%nat by lia. reflexivity.
  - rewrite fupd_ne by exact Hne. destruct k as [|k]; [|apply (Hr (S k) line j Hk Hl Hj)]. injection Hl as <-. specialize (Hr 0%nat cur j Hk eq_refl Hj).
    destruct (decide (j < length cur)%nat) as [Hj2 | Hj2]; [rewrite lookup_app_l by exact Hj2; exact Hr|].
    rewrite lookup_ge_None_2 in Hr by lia. rewrite (lookup_ge_None_2 (cur ++ [c])) by (rewrite length_app; cbn; lia). exact Hr.
Qed.

(** The last character of the line is erased. *)
Lemma rows_erase row l x older crt : rows row ((l ++ [x]) :: older) crt ->
  rows row (l :: older) (fupd crt (80 * row + Z.of_nat (length l)) (cell 32)).
Proof.
  intros [Hr Hb]. split.
  - intros k line j Hk Hl Hj. destruct (Z.eq_dec (80 * (row - Z.of_nat k) + Z.of_nat j) (80 * row + Z.of_nat (length l))) as [E | Hne].
    + rewrite E, fupd_eq. destruct k as [|k]; [|lia]. injection Hl as <-. rewrite lookup_ge_None_2 by lia. right. reflexivity.
    + rewrite fupd_ne by exact Hne. destruct k as [|k]; [|apply (Hr (S k) line j Hk Hl Hj)]. injection Hl as <-. specialize (Hr 0%nat _ j Hk eq_refl Hj).
      destruct (decide (j < length l)%nat) as [Hj2 | Hj2]; [rewrite lookup_app_l in Hr by exact Hj2; exact Hr|].
      rewrite (lookup_ge_None_2 (l ++ [x])) in Hr by (rewrite length_app; cbn; lia). rewrite lookup_ge_None_2 by lia. exact Hr.
  - intros p Hp. destruct (Z.eq_dec p (80 * row + Z.of_nat (length l))) as [-> | Hne]; [rewrite fupd_eq; right; reflexivity|].
    rewrite fupd_ne by exact Hne. apply Hb, Hp.
Qed.

(** A new line, after scrolling if need be. *)
Lemma newline_shows ls crt : ls <> [] -> Forall (fun l => (length l <= 80)%nat) ls -> rows (Z.min (Z.of_nat (length ls) - 1) 23) ls crt ->
  let row := Z.min (Z.of_nat (length ls) - 1) 23 in
  let p2 := cga_scroll crt (80 * (row + 1)) in
  0 <= p2.2 <= 2000 /\ displays ([] :: ls) (fupd p2.1 p2.2 (cell 32)) p2.2.
Proof.
  intros Hne Hw Hr row p2. assert (Hlen : (0 < length ls)%nat) by (destruct ls; [contradiction | cbn; lia]).
  assert (Hrow : 0 <= row <= 23) by lia. subst p2. unfold cga_scroll. rewrite (Z.mul_comm 80), Z.div_mul by lia.
  destruct (Z.leb_spec 24 (row + 1)) as [H24 | H24]; cbn [fst snd].
  - assert (E23 : row = 23) by lia. assert (Hl24 : 24 <= Z.of_nat (length ls)) by lia. fold row in Hr. rewrite E23 in Hr |- *. clear row E23 Hrow H24. split; [lia|]. constructor.
    + exists [], ls. split; [reflexivity|]. cbn [length]. split; lia.
    + constructor; [cbn; lia | exact Hw].
    + replace (Z.min _ 23) with 23 by (cbn [length]; lia). apply (rows_blank 23 []); [cbn; lia|]. destruct Hr as [Hr Hb].
      split; [|intros x Hx; lia]. intros [|k] line j Hk Hl Hj; cbn in Hl; unfold clear_from, scroll.
      * injection Hl as <-. rewrite lookup_nil. replace (_ && _) with true by lia. left. reflexivity.
      * replace (_ && _) with false by lia. replace (_ && _) with true by lia. specialize (Hr k line j ltac:(lia) Hl Hj).
        replace (80 * (23 - Z.of_nat (S k)) + Z.of_nat j + 80) with (80 * (23 - Z.of_nat k) + Z.of_nat j) by lia. exact Hr.
  - split; [lia|]. assert (E : row = Z.of_nat (length ls) - 1) by lia. fold row in Hr. clearbody row. constructor.
    + exists [], ls. split; [reflexivity|]. cbn [length]. split; lia.
    + constructor; [cbn; lia | exact Hw].
    + replace (Z.min _ 23) with (row + 1) by (cbn [length]; lia). apply (rows_blank (row + 1) []); [cbn; lia|]. destruct Hr as [Hr Hb].
      split; [|intros x Hx; apply Hb; lia]. intros [|k] line j Hk Hl Hj; cbn in Hl.
      * injection Hl as <-. rewrite lookup_nil. apply Hb. lia.
      * specialize (Hr k line j ltac:(lia) Hl Hj).
        replace (80 * (row + 1 - Z.of_nat (S k)) + Z.of_nat j) with (80 * (row - Z.of_nat k) + Z.of_nat j) by lia. exact Hr.
Qed.

Lemma no_scroll crt pos : 0 <= pos < 1920 -> cga_scroll crt pos = (crt, pos).
Proof. intros Hp. unfold cga_scroll. replace (24 <=? pos / 80) with false; [reflexivity|]. symmetry. apply Z.leb_gt, Z.div_lt_upper_bound; lia. Qed.

Lemma put_shows ls crt pos c : displays ls crt pos -> can_put c ls ->
  let p1 := cga_put crt pos c in
  let p2 := cga_scroll p1.1 p1.2 in
  0 <= p1.2 <= 2000 /\ 0 <= p2.2 <= 2000 /\ displays (screen_char c ls) (fupd p2.1 p2.2 (cell 32)) p2.2.
Proof.
  intros [(cur & older & -> & Hcur & Hpos) Hw Hr] Hcan p1 p2. apply Forall_cons_1 in Hw as Hw'. destruct Hw' as [_ Ho]. subst p1.
  cbn [length] in Hr. replace (Z.of_nat (S (length older)) - 1) with (Z.of_nat (length older)) in Hr by lia. set (row := Z.min (Z.of_nat (length older)) 23) in *.
  assert (Hrow : 0 <= row <= 23) by lia. assert (Hmod : pos mod 80 = Z.of_nat (length cur)).
  { rewrite Hpos, Z.add_comm, (Z.mul_comm 80), Z.mod_add by lia. apply Z.mod_small. lia. }
  assert (Hnew : forall l crt', Forall (fun l => (length l <= 80)%nat) (l :: older) -> rows row (l :: older) crt' ->
    let p2 := cga_scroll crt' (80 * (row + 1)) in 0 <= p2.2 <= 2000 /\ displays ([] :: l :: older) (fupd p2.1 p2.2 (cell 32)) p2.2).
  { intros l crt' Hw1 Hr1. pose proof (newline_shows (l :: older) crt') as Hn. cbn [length] in Hn.
    replace (Z.of_nat (S (length older)) - 1) with (Z.of_nat (length older)) in Hn by lia. apply Hn; [discriminate | exact Hw1 | exact Hr1]. }
  subst p2. unfold cga_put, screen_char. destruct (c =? LF) eqn:El; cbn [fst snd].
  { rewrite Hmod. replace (pos + (80 - Z.of_nat (length cur))) with (80 * (row + 1)) by lia. destruct (Hnew cur crt Hw Hr) as [Hn1 Hn2]. split; [lia|]. auto. }
  destruct (Z.eqb_spec c BACKSPACE) as [Eb | Nb]; cbn [fst snd].
  { destruct (Hcan Eb) as (b & cur' & older' & E). injection E as -> ->. replace (0 <? pos) with true by (cbn [length] in Hpos; lia).
    assert (Hx : b :: cur' = removelast (b :: cur') ++ [List.last (b :: cur') 0]) by (apply app_removelast_last; discriminate).
    set (l := removelast (b :: cur')) in *. assert (Hl : length (b :: cur') = S (length l)) by (rewrite Hx, length_app; cbn; lia).
    rewrite no_scroll by lia. cbn [fst snd]. split; [lia|]. split; [lia|]. constructor.
    - exists l, older'. split; [reflexivity|]. split; lia.
    - constructor; [lia | exact Ho].
    - cbn [length]. replace (Z.of_nat (S (length older')) - 1) with (Z.of_nat (length older')) by lia. fold row.
      replace (pos - 1) with (80 * row + Z.of_nat (length l)) by lia. rewrite Hx in Hr. apply (rows_erase row l _ older' crt Hr). }
  pose proof (rows_put row cur older crt c Hcur Hr) as Hput. rewrite <- Hpos in Hput.
  destruct (Nat.eqb_spec (length cur) 79) as [E79 | N79].
  - replace (pos + 1) with (80 * (row + 1)) by lia. destruct (Hnew (cur ++ [c]) _ ltac:(constructor; [rewrite length_app; cbn; lia | exact Ho]) Hput) as [Hn1 Hn2].
    split; [lia|]. auto.
  - rewrite no_scroll by lia. cbn [fst snd]. split; [lia|]. split; [lia|]. constructor.
    + exists (cur ++ [c]), older. rewrite length_app. cbn [length]. split; [reflexivity|]. split; lia.
    + constructor; [rewrite length_app; cbn; lia | exact Ho].
    + cbn [length]. replace (Z.of_nat (S (length older)) - 1) with (Z.of_nat (length older)) by lia. fold row.
      apply (rows_blank row (cur ++ [c])); [rewrite length_app; cbn; lia | exact Hput].
Qed.

Section Put.
Context (others : Hardware).
Let HW : Hardware := controller others.

Lemma uart_wait_cursor n : forall d, exists d', @uart_wait HW n d = Ok tt d' /\ crtc_state (dv_trace d') = crtc_state (dv_trace d).
Proof.
  induction n as [|n IH]; intros d; cbn [uart_wait]; [exists d; split; reflexivity|].
  unfold inb, rd. erewrite bind_ok by reflexivity. destruct (Z.land _ 0x20 =? 0); [|eexists; split; reflexivity].
  match goal with |- exists d', uart_wait n ?d1 = _ /\ _ => destruct (IH d1) as (d' & E & Hc) end. exists d'. split; [exact E | exact Hc].
Qed.

Lemma uartputc_cursor c d : exists d', @uartputc HW c d = Ok tt d' /\ crtc_state (dv_trace d') = crtc_state (dv_trace d).
Proof.
  unfold uartputc. erewrite bind_ok by reflexivity. destruct (dv_uart d =? 0); [exists d; split; reflexivity|].
  destruct (uart_wait_cursor 128 d) as (d1 & E & Hc). rewrite (bind_ok _ _ _ _ _ E). eexists. split; [reflexivity | exact Hc].
Qed.

(** One character, in terms of the cursor. *)
Definition bytes_ok (d : devices) : Prop :=
  let st := crtc_state (dv_trace d) in 0 <= st.2.1 < 256 /\ 0 <= st.2.2 < 256.

Lemma crt_select r d : exists d', @outb CRTPORT r d = Ok tt d' /\ crtc_state (dv_trace d') = (r mod 256, (crtc_state (dv_trace d)).2).
Proof. eexists. split; reflexivity. Qed.
Lemma crt_read d : let st := crtc_state (dv_trace d) in
  exists d', @inb HW (CRTPORT + 1) d = Ok ((if st.1 =? 14 then st.2.1 else st.2.2) mod 256) d' /\ crtc_state (dv_trace d') = st.
Proof. eexists. split; reflexivity. Qed.
Lemma crt_write v d : let st := crtc_state (dv_trace d) in
  exists d', @outb (CRTPORT + 1) v d = Ok tt d' /\
    crtc_state (dv_trace d') = (st.1, (if st.1 =? 14 then v mod 256 else st.2.1, if st.1 =? 15 then v mod 256 else st.2.2)).
Proof. eexists. split; reflexivity. Qed.

Ltac crt_step L := let d := fresh "d" in let E := fresh "E" in let H := fresh "H" in
  destruct L as (d & E & H); rewrite (bind_ok _ _ _ _ _ E); clear E.

Lemma cgaputc_ok crt c d : bytes_ok d ->
  let p1 := cga_put crt (cursor d) c in
  let p2 := cga_scroll p1.1 p1.2 in
  0 <= p1.2 <= 2000 -> 0 <= p2.2 <= 2000 ->
  exists d', @cgaputc HW crt c d = Ok (fupd p2.1 p2.2 (Z.lor 32 0x0700)) d' /\ cursor d' = p2.2 /\ bytes_ok d'.
Proof.
  intros [Hhi Hlo] p1 p2 H1 H2. unfold cgaputc. crt_step (crt_select 14 d). crt_step (crt_read d0). crt_step (crt_select 15 d1). crt_step (crt_read d2).
  rewrite H in H0. rewrite H0 in H3. rewrite H3 in *. rewrite H, ?H0 in *. cbn [fst snd] in *.
  change (14 mod 256 =? 14) with true. change (15 mod 256 =? 14) with false. cbv iota. rewrite !Z.mod_small by lia.
  rewrite (lor_low_add _ _ 8) by (rewrite ?Z.shiftl_mul_pow2, ?Z.mod_mul by lia; lia). rewrite Z.shiftl_mul_pow2 by lia.
  replace (_ * 2 ^ 8 + _) with (cursor d) by (unfold cursor; lia). fold p1. destruct p1 as [crt1 pos1] eqn:E1. cbn [fst snd] in *.
  replace ((pos1 <? 0) || (25 * 80 <? pos1)) with false by lia. fold p2. destruct p2 as [crt2 pos2]. cbn [fst snd] in *.
  crt_step (crt_select 14 d3). crt_step (crt_write (Z.shiftr pos2 8) d4). crt_step (crt_select 15 d5). crt_step (crt_write pos2 d6).
  eexists. split; [reflexivity|]. unfold cursor, bytes_ok. rewrite H8, H7, H6, H5. cbn [fst snd].
  change (14 mod 256 =? 14) with true. change (14 mod 256 =? 15) with false. change (15 mod 256 =? 14) with false. change (15 mod 256 =? 15) with true. cbv iota.
  rewrite Z.shiftr_div_pow2 by lia. change (2 ^ 8) with 256. pose proof (Z.div_mod pos2 256 ltac:(lia)). pose proof (Z.mod_pos_bound pos2 256 ltac:(lia)).
  rewrite (Z.mod_small (pos2 / 256)) by (split; [apply Z.div_pos | apply Z.div_lt_upper_bound]; lia).
  split; [lia|]. split; [split; [apply Z.div_pos | apply Z.div_lt_upper_bound]; lia | lia].
Qed.

Lemma echo_uart c d : exists d', (if c =? BACKSPACE then @uartputc HW 8 ;; @uartputc HW 32 ;; @uartputc HW 8 else @uartputc HW c) d = Ok tt d' /\
  crtc_state (dv_trace d') = crtc_state (dv_trace d).
Proof.
  destruct (c =? BACKSPACE); [|apply uartputc_cursor].
  destruct (uartputc_cursor 8 d) as (d1 & E1 & H1). destruct (uartputc_cursor 32 d1) as (d2 & E2 & H2). destruct (uartputc_cursor 8 d2) as (d3 & E3 & H3).
  exists d3. rewrite (bind_ok _ _ _ _ _ E1), (bind_ok _ _ _ _ _ E2), E3. split; [reflexivity | congruence].
Qed.

Lemma consputc_shows ls crt c d : bytes_ok d -> displays ls crt (cursor d) -> can_put c ls ->
  exists crt' d', @consputc HW false crt c d = Ok crt' d' /\ bytes_ok d' /\ displays (screen_char c ls) crt' (cursor d').
Proof.
  intros Hb Hd Hc. unfold consputc. destruct (echo_uart c d) as (d1 & E & H1). rewrite (bind_ok _ _ _ _ _ E).
  assert (Hcur : cursor d1 = cursor d) by (unfold cursor; rewrite H1; reflexivity).
  destruct (put_shows ls crt (cursor d) c Hd Hc) as (R1 & R2 & Hs). rewrite <- Hcur in R1, R2, Hs.
  destruct (cgaputc_ok crt c d1) as (d2 & E2 & Hc2 & Hb2); [unfold bytes_ok; rewrite H1; exact Hb | exact R1 | exact R2|].
  eexists _, d2. split; [exact E2|]. split; [exact Hb2|]. rewrite Hc2. exact Hs.
Qed.

(** C32 (console.c, [cgaputc], [consputc]): the screen shows the end of the
    output.  Whatever is printed, as long as only characters of the line being
    written are erased, there is no panic, the cursor stays on the screen, and
    the rows of the screen hold the last 24 lines of the output, lines of more
    than 80 characters continued on the next row, with the cursor behind the last
    character.  Every other cell of these rows is blank: characters that were
    erased are gone, and a row that scrolling has opened is empty. *)
Theorem screen_shows_output cs : forall ls crt d,
  bytes_ok d -> displays ls crt (cursor d) -> can_puts cs ls ->
  exists crt' d', @consputs HW crt cs d = Ok crt' d' /\ displays (screen_chars cs ls) crt' (cursor d').
Proof.
  induction cs as [|c cs IH]; intros ls crt d Hb Hd Hc; cbn [consputs]; [exists crt, d; split; [reflexivity | exact Hd]|].
  destruct Hc as [Hc Hcs]. destruct (consputc_shows ls crt c d Hb Hd Hc) as (crt1 & d1 & E & Hb1 & Hd1). rewrite (bind_ok _ _ _ _ _ E).
  apply (IH (screen_char c ls) crt1 d1 Hb1 Hd1 Hcs).
Qed.
End Put.

(** Thirty lines, each with one character left after a backspace, scroll the first
    ones away. *)
Lemma screen_shows_output_witness :
  exists crt d, @consputs (controller {| answer := fun _ _ _ => 0 |}) (fun _ => 0) (mjoin (replicate 30 [65; 66; BACKSPACE; LF])) (mkDev [] 0 0 0 0 [] []) = Ok crt d /\
    cursor d = 23 * 80 /\ crt 0 = cell 65 /\ (crt 1 = 0 \/ crt 1 = cell 32).
Proof.
  destruct (screen_shows_output {| answer := fun _ _ _ => 0 |} (mjoin (replicate 30 [65; 66; BACKSPACE; LF])) [[]] (fun _ => 0) (mkDev [] 0 0 0 0 [] []))
    as (crt & d & E & [(cur & older & El & _ & Hp) _ [Hr _]]).
  - split; split; vm_compute; congruence.
  - constructor.
    + exists [], []. split; [reflexivity|]. split; [cbn; lia | reflexivity].
    + constructor; [cbn; lia | constructor].
    + split; [|intros p Hp; left; reflexivity]. intros [|k] line j Hk Hl Hj; [injection Hl as <-; left; reflexivity | discriminate Hl].
  - cbn. unfold can_put. repeat split; intros Hc; first [discriminate Hc | eexists _, _, _; reflexivity].
  - exists crt, d. split; [exact E|]. vm_compute in El. injection El as <- <-. split; [exact Hp|]. split.
    + apply (Hr 23%nat [65] 0%nat); [vm_compute; congruence | vm_compute; reflexivity | lia].
    + apply (Hr 23%nat [65] 1%nat); [vm_compute; congruence | vm_compute; reflexivity | lia].
Defined.
End Screen.
