(* ===== verification/Ide.v ===== *)
(** * The port accesses of solution/ide.c, and solution/memide.c

    Bio.v has the disk driver with the commands as its effect on the disk.  Here
    are the accesses to the ports of the controller that make up a command, and
    a drive that understands them. *)

From Stdlib Require Import ZArith Lia ZifyBool ZifyNat.
From stdpp Require Import base list strings.
From S2P Require Import Prelude Mem Mmu Kernel Bio Log Trap Devices.
Import Devices.

(** ** Bytes in memory *)

Definition get_bytes (m : mem) (a n : Z) : list Z := map (fun k => load8 m (a + k)) (seqZ 0 n).
Definition put_bytes (m : mem) (a : Z) (l : list Z) : mem := fun x =>
  if (a <=? x) && (x <? a + Z.of_nat (length l)) then nth (Z.to_nat (x - a)) l 0 mod 256 else m x.

Lemma get_put m a l : Forall (fun x => 0 <= x < 256) l -> get_bytes (put_bytes m a l) a (Z.of_nat (length l)) = l.
Proof.
  intros Hl. apply list_eq. intros k. unfold get_bytes. rewrite list_lookup_fmap. destruct (l !! k) as [v|] eqn:E.
  - rewrite (lookup_seqZ_lt 0) by (apply lookup_lt_Some in E; lia). cbn [fmap option_fmap option_map]. f_equal. unfold load8, put_bytes.
    replace (_ && _) with true by (apply lookup_lt_Some in E; lia). replace (Z.to_nat _) with k by lia. rewrite (nth_lookup_Some _ _ _ _ E).
    rewrite Z.mod_mod by lia. apply Z.mod_small. rewrite Forall_lookup in Hl. apply (Hl k v E).
  - apply lookup_ge_None_1 in E. rewrite (lookup_seqZ_ge 0) by lia. reflexivity.
Qed.

Lemma get_put_ne m a l a' n : a' + n <= a \/ a + Z.of_nat (length l) <= a' -> get_bytes (put_bytes m a l) a' n = get_bytes m a' n.
Proof.
  intros Hd. unfold get_bytes. apply map_ext_in. intros k Hk. apply list_elem_of_In, elem_of_seqZ in Hk. unfold load8, put_bytes. replace (_ && _) with false by lia. reflexivity.
Qed.

Module Ide.

Definition SECTOR_SIZE : Z := 512.
Definition IDE_BSY : Z := 0x80.
Definition IDE_DRDY : Z := 0x40.
Definition IDE_DF : Z := 0x20.
Definition IDE_ERR : Z := 0x01.
Definition IDE_CMD_READ : Z := 0x20.
Definition IDE_CMD_WRITE : Z := 0x30.
Definition IDE_CMD_RDMUL : Z := 0xc4.
Definition IDE_CMD_WRMUL : Z := 0xc5.

(** The words of some bytes. *)
Fixpoint words (l : list Z) : list Z :=
  match l with
  | a :: b :: c :: d :: l' => le32 [a; b; c; d] 0 :: words l'
  | _ => []
  end.

Section Driver.
Context {HW : Hardware}.

(** x86.h: [insl] and [outsl], with the bytes in memory as a list. *)
Fixpoint outsl (port : Z) (ws : list Z) : D unit :=
  match ws with
  | [] => ret tt
  | w :: ws' => wr Port port w ;; outsl port ws'
  end.
Fixpoint insl (port : Z) (cnt : nat) : D (list Z) :=
  match cnt with
  | O => ret []
  | S cnt' =>
      let! w := rd Port port 32 in
      let! l := insl port cnt' in
      ret (bytes32 w ++ l)
  end.

Fixpoint idewait (checkerr : bool) (fuel : nat) : D Z :=
  match fuel with
  | O => nofuel
  | S f =>
      let! r := inb 0x1f7 in
      if negb (Z.land r (Z.lor IDE_BSY IDE_DRDY) =? IDE_DRDY) then idewait checkerr f
      else ret (if checkerr && negb (Z.land r (Z.lor IDE_DF IDE_ERR) =? 0) then -1 else 0)
  end.

(** The probe of the second disk: whether it answers. *)
Fixpoint probe_disk1 (n : nat) : D bool :=
  match n with
  | O => ret false
  | S n' =>
      let! st := inb 0x1f7 in
      if negb (st =? 0) then ret true else probe_disk1 n'
  end.
Definition ideinit (fuel : nat) : D bool :=
  let! ids := gets dv_apicids in
  ioapicenable IRQ_IDE (Z.of_nat (length ids) - 1) ;;
  let! _ := idewait false fuel in
  outb 0x1f6 (Z.lor 0xe0 (Z.shiftl 1 4)) ;;
  let! havedisk1 := probe_disk1 1000 in
  outb 0x1f6 (Z.lor 0xe0 (Z.shiftl 0 4)) ;;
  ret havedisk1.

(** [idestart] for a buffer with this device, block, flags and data. *)
Definition idestart (fuel : nat) (dev blockno flags : Z) (data : list Z) : D unit :=
  if FSSIZE <=? blockno then panic "incorrect blockno"
  else
    let sector_per_block := BSIZE / SECTOR_SIZE in
    let sector := blockno * sector_per_block in
    let read_cmd := if sector_per_block =? 1 then IDE_CMD_READ else IDE_CMD_RDMUL in
    let write_cmd := if sector_per_block =? 1 then IDE_CMD_WRITE else IDE_CMD_WRMUL in
    if 7 <? sector_per_block then panic "idestart"
    else
      let! _ := idewait false fuel in
      outb 0x3f6 0 ;;
      outb 0x1f2 sector_per_block ;;
      outb 0x1f3 (Z.land sector 0xff) ;;
      outb 0x1f4 (Z.land (Z.shiftr sector 8) 0xff) ;;
      outb 0x1f5 (Z.land (Z.shiftr sector 16) 0xff) ;;
      outb 0x1f6 (Z.lor (Z.lor 0xe0 (Z.shiftl (Z.land dev 1) 4)) (Z.land (Z.shiftr sector 24) 0x0f)) ;;
      if has flags B_DIRTY then
        outb 0x1f7 write_cmd ;;
        outsl 0x1f0 (words data)
      else outb 0x1f7 read_cmd.

(** The transfer in [ideintr]: the data of the buffer afterwards. *)
Definition ideintr_data (fuel : nat) (flags : Z) (data : list Z) : D (list Z) :=
  if has flags B_DIRTY then ret data
  else
    let! r := idewait true fuel in
    if 0 <=? r then insl 0x1f0 (Z.to_nat (BSIZE / 4)) else ret data.
End Driver.

(** ** A drive *)

(** The registers last written, the contents of the two disks, and the transfer
    that is going on: reading, with the words to come, or writing, with the
    number of whole sectors and the words of the next one so far. *)
Inductive transfer : Type := Idle | Reading (ws : list Z) | Writing (done : Z) (ws : list Z).
Record drive : Type := mkDrive { dr_regs : Z -> Z; dr_disk : Z -> Z -> list Z; dr_xfer : transfer }.

Definition selected (regs : Z -> Z) : Z := if Z.testbit (regs 0x1f6) 4 then 1 else 0.
Definition address (regs : Z -> Z) : Z :=
  regs 0x1f3 + 256 * regs 0x1f4 + 65536 * regs 0x1f5 + 16777216 * Z.land (regs 0x1f6) 0x0f.
(** The number of sectors of a command; 0 stands for 256. *)
Definition count (regs : Z -> Z) : Z := if regs 0x1f2 =? 0 then 256 else regs 0x1f2.
(** Bit 1 of the device control register turns interrupts off. *)
Definition interrupts (s : drive) : bool := negb (Z.testbit (dr_regs s 0x3f6) 1).

Definition read_sectors (s : drive) : list Z :=
  mjoin (map (fun k => dr_disk s (selected (dr_regs s)) (address (dr_regs s) + k)) (seqZ 0 (count (dr_regs s)))).
Definition write_sector (s : drive) (k : Z) (bs : list Z) : Z -> Z -> list Z :=
  fupd (dr_disk s) (selected (dr_regs s)) (fupd (dr_disk s (selected (dr_regs s))) (address (dr_regs s) + k) bs).

Definition drive_step (e : event) (s : drive) : drive :=
  match e with
  | Wr Port p v =>
      if p =? 0x1f7 then
        if v =? IDE_CMD_READ then mkDrive (dr_regs s) (dr_disk s) (Reading (words (read_sectors s)))
        else if v =? IDE_CMD_WRITE then mkDrive (dr_regs s) (dr_disk s) (Writing 0 [])
        else s
      else if p =? 0x1f0 then
        match dr_xfer s with
        | Writing k ws =>
            let ws := ws ++ [v] in
            if (length ws =? 128)%nat then
              mkDrive (dr_regs s) (write_sector s k (mjoin (map bytes32 ws)))
                (if k + 1 =? count (dr_regs s) then Idle else Writing (k + 1) [])
            else mkDrive (dr_regs s) (dr_disk s) (Writing k ws)
        | _ => s
        end
      else mkDrive (fupd (dr_regs s) p v) (dr_disk s) (dr_xfer s)
  | Rd Port p _ =>
      if p =? 0x1f0 then
        match dr_xfer s with
        | Reading ws => mkDrive (dr_regs s) (dr_disk s) (Reading (tail ws))
        | _ => s
        end
      else s
  | _ => s
  end.
Definition drive_state (disk : Z -> Z -> list Z) (tr : list event) : drive :=
  foldr drive_step (mkDrive (fun _ => 0) disk Idle) tr.

(** A drive that starts with the contents [disk] and is always ready; the other
    devices answer as [others] says. *)
Definition ide_drive (disk : Z -> Z -> list Z) (others : Hardware) : Hardware :=
  {| answer tr sp r :=
       match sp with
       | Port =>
           if r =? 0x1f7 then IDE_DRDY
           else if r =? 0x1f0 then
             match dr_xfer (drive_state disk tr) with Reading (w :: _) => w | _ => 0 end
           else @answer others tr sp r
       | _ => @answer others tr sp r
       end |}.

(** ** A command reaches the disk *)

Lemma bytes32_le32 a b c d : Forall (fun x => 0 <= x < 256) [a; b; c; d] -> bytes32 (le32 [a; b; c; d] 0) = [a; b; c; d].
Proof.
  intros H. apply Forall_cons_1 in H as [Ha H]. apply Forall_cons_1 in H as [Hb H]. apply Forall_cons_1 in H as [Hc H]. apply Forall_cons_1 in H as [Hd _].
  unfold bytes32, le32, byte_at. cbn [nth Nat.add]. set (w := a + 256 * b + 65536 * c + 16777216 * d).
  assert (E1 : w / 256 = b + 256 * c + 65536 * d) by (symmetry; apply (Z.div_unique w 256 _ a); unfold w; lia).
  assert (E2 : w / 65536 = c + 256 * d) by (symmetry; apply (Z.div_unique w 65536 _ (a + 256 * b)); unfold w; lia).
  assert (E3 : w / 16777216 = d) by (symmetry; apply (Z.div_unique w 16777216 _ (a + 256 * b + 65536 * c)); unfold w; lia).
  rewrite E1, E2, E3. f_equal; [|f_equal; [|f_equal; [|f_equal]]].
  - symmetry. apply (Z.mod_unique w 256 (b + 256 * c + 65536 * d)); unfold w; lia.
  - symmetry. apply (Z.mod_unique _ 256 (c + 256 * d)); lia.
  - symmetry. apply (Z.mod_unique _ 256 d); lia.
  - apply Z.mod_small. lia.
Qed.

Lemma le32_range a b c d : Forall (fun x => 0 <= x < 256) [a; b; c; d] -> u32 (le32 [a; b; c; d] 0).
Proof.
  intros H. apply Forall_cons_1 in H as [Ha H]. apply Forall_cons_1 in H as [Hb H]. apply Forall_cons_1 in H as [Hc H]. apply Forall_cons_1 in H as [Hd _].
  unfold u32, le32, byte_at. cbn [nth Nat.add]. lia.
Qed.

(** The bytes of a sector. *)
Definition sector_ok (l : list Z) : Prop := length l = 512%nat /\ Forall (fun x => 0 <= x < 256) l.

Lemma words_spec n : forall l, length l = (4 * n)%nat -> Forall (fun x => 0 <= x < 256) l ->
  mjoin (map bytes32 (words l)) = l /\ length (words l) = n /\ Forall u32 (words l).
Proof.
  induction n as [|n IH]; intros l Hl Hb; [destruct l; [split; [reflexivity | split; [reflexivity | constructor]] | discriminate Hl]|].
  destruct l as [|a [|b [|c [|d l]]]]; try (cbn in Hl; lia). change (a :: b :: c :: d :: l) with ([a; b; c; d] ++ l) in Hb. apply Forall_app in Hb as [H4 Hb].
  destruct (IH l ltac:(cbn in Hl; lia) Hb) as (E1 & E2 & E3). cbn [words]. split; [|split].
  - change (mjoin (map bytes32 (?w :: ?ws))) with (bytes32 w ++ mjoin (map bytes32 ws)). rewrite E1, bytes32_le32 by exact H4. reflexivity.
  - cbn. rewrite E2. reflexivity.
  - constructor; [apply le32_range, H4 | exact E3].
Qed.

(** The registers of a command. *)
Lemma drive_select dev sector regs : 0 <= sector < 2 ^ 28 ->
  let r := fupd (fupd (fupd (fupd regs 0x1f3 (Z.land sector 0xff mod 256)) 0x1f4 (Z.land (Z.shiftr sector 8) 0xff mod 256))
             0x1f5 (Z.land (Z.shiftr sector 16) 0xff mod 256))
             0x1f6 (Z.lor (Z.lor 0xe0 (Z.shiftl (Z.land dev 1) 4)) (Z.land (Z.shiftr sector 24) 0x0f) mod 256) in
  selected r = Z.land dev 1 /\ address r = sector.
Proof.
  intros Hs r. assert (Hd : Z.land dev 1 = 0 \/ Z.land dev 1 = 1).
  { pose proof (Z.land_ones dev 1 ltac:(lia)) as E. change (Z.ones 1) with 1 in E. rewrite E. change (2 ^ 1) with 2. pose proof (Z.mod_pos_bound dev 2 ltac:(lia)). lia. }
  set (h := Z.land (Z.shiftr sector 24) 0x0f) in *. set (A := Z.lor 0xe0 (Z.shiftl (Z.land dev 1) 4)) in *.
  assert (H6 : Z.lor A h mod 256 = Z.lor A h).
  { change 256 with (2 ^ 8). rewrite <- Z.land_ones, Z.land_lor_distr_l by lia. f_equal; [unfold A; destruct Hd as [-> | ->]; reflexivity|].
    unfold h. rewrite <- Z.land_assoc. reflexivity. }
  assert (E3 : r 0x1f3 = sector mod 256 /\ r 0x1f4 = sector / 256 mod 256 /\ r 0x1f5 = sector / 65536 mod 256 /\ r 0x1f6 = Z.lor A h).
  { rewrite <- H6. unfold r. rewrite !fupd_eq, !fupd_ne, !fupd_eq by discriminate. repeat rewrite fupd_ne by discriminate. rewrite ?fupd_eq. change 0xff with (Z.ones 8). rewrite !Z.land_ones, !Z.shiftr_div_pow2 by lia.
    change (2 ^ 8) with 256. rewrite !Z.mod_mod by lia. repeat split. }
  destruct E3 as (E3 & E4 & E5 & E6). unfold selected, address. rewrite E3, E4, E5, E6. split.
  - rewrite Z.lor_spec. replace (Z.testbit h 4) with false by (unfold h; rewrite Z.land_spec, andb_comm; reflexivity).
    unfold A. destruct Hd as [-> | ->]; reflexivity.
  - rewrite Z.land_lor_distr_l. replace (Z.land A 0x0f) with 0 by (unfold A; destruct Hd as [-> | ->]; reflexivity). rewrite Z.lor_0_l.
    unfold h. rewrite <- Z.land_assoc, Z.land_diag. change 0x0f with (Z.ones 4). rewrite Z.land_ones, Z.shiftr_div_pow2 by lia. change (2 ^ 4) with 16. change (2 ^ 24) with 16777216. change (2 ^ 28) with 268435456 in Hs.
    rewrite (Z.mod_small (sector / 16777216)) by (split; [apply Z.div_pos | apply Z.div_lt_upper_bound]; lia).
    pose proof (Z.div_mod sector 256 ltac:(lia)). pose proof (Z.div_mod (sector / 256) 256 ltac:(lia)). pose proof (Z.div_mod (sector / 65536) 256 ltac:(lia)).
    rewrite Z.div_div in H0 by lia. rewrite Z.div_div in H1 by lia. change (256 * 256) with 65536 in *. change (65536 * 256) with 16777216 in *. lia.
Qed.

Lemma read_one s : count (dr_regs s) = 1 -> read_sectors s = dr_disk s (selected (dr_regs s)) (address (dr_regs s)).
Proof.
  intros E. unfold read_sectors. rewrite E. change (seqZ 0 1) with [0]. cbn [map]. rewrite Z.add_0_r. apply app_nil_r.
Qed.

Section Commands.
Context (disk : Z -> Z -> list Z) (others : Hardware).
Let HW : Hardware := ide_drive disk others.

(** The drive after the accesses so far, and what it has on its disks. *)
Definition now (d : devices) : drive := drive_state disk (dv_trace d).
Definition contents (d : devices) : Z -> Z -> list Z := dr_disk (now d).

Lemma idewait_ready ce f d : exists d', @idewait HW ce (S f) d = Ok 0 d' /\ now d' = now d.
Proof.
  cbn [idewait]. unfold inb, rd. erewrite bind_ok by reflexivity. cbn [answer HW ide_drive Z.eqb Pos.eqb].
  change (negb _) with false at 1. cbv iota. replace (ce && _) with false by (destruct ce; reflexivity). eexists. split; reflexivity.
Qed.

Lemma outb_reg p v d : p <> 0x1f7 -> p <> 0x1f0 ->
  exists d', outb p v d = Ok tt d' /\ now d' = mkDrive (fupd (dr_regs (now d)) p (v mod 256)) (dr_disk (now d)) (dr_xfer (now d)).
Proof.
  intros H7 H0. eexists. split; [reflexivity|]. unfold now, drive_state. cbn [dv_trace set_trace foldr drive_step].
  rewrite (proj2 (Z.eqb_neq p 0x1f7) H7), (proj2 (Z.eqb_neq p 0x1f0) H0). reflexivity.
Qed.

Lemma outb_cmd v d : exists d', outb 0x1f7 v d = Ok tt d' /\ now d' = drive_step (Wr Port 0x1f7 (v mod 256)) (now d).
Proof. eexists. split; reflexivity. Qed.

Lemma outsl_writes ws : forall ws0 d, ws <> [] -> (length ws0 + length ws = 128)%nat -> dr_xfer (now d) = Writing 0 ws0 ->
  exists d', outsl 0x1f0 ws d = Ok tt d' /\
    let r := dr_regs (now d) in
    contents d' = fupd (contents d) (selected r) (fupd (contents d (selected r)) (address r) (mjoin (map bytes32 (ws0 ++ ws)))) /\
    dr_regs (now d') = r.
Proof.
  induction ws as [|w ws IH]; intros ws0 d Hne Hl Hx; [contradiction|]. cbn [outsl]. unfold wr, modify. erewrite bind_ok by reflexivity.
  set (d1 := set_trace _ d). cbn [length] in Hl.
  assert (E1 : now d1 = drive_step (Wr Port 0x1f0 w) (now d)) by reflexivity. cbn [drive_step Z.eqb Pos.eqb] in E1. rewrite Hx in E1.
  destruct ws as [|w2 ws].
  - cbn [outsl]. eexists. split; [reflexivity|]. cbv zeta. unfold contents. rewrite E1, length_app. cbn [length] in *.
    replace (length ws0 + 1 =? 128)%nat with true by lia.
    cbn [dr_disk dr_regs]. unfold write_sector. rewrite Z.add_0_r. split; reflexivity.
  - rewrite length_app in E1. cbn [length] in *. replace (length ws0 + 1 =? 128)%nat with false in E1 by lia.
    destruct (IH (ws0 ++ [w]) d1 ltac:(discriminate)) as (d' & E & Hc); [rewrite length_app; cbn; lia | rewrite E1; reflexivity|].
    exists d'. split; [exact E|]. cbv zeta in *. destruct Hc as [Hc Hr]. rewrite Hc, Hr. unfold contents. rewrite E1. cbn [dr_regs dr_disk].
    rewrite <- app_assoc. split; reflexivity.
Qed.

Lemma insl_reads ws : forall d, Forall u32 ws -> dr_xfer (now d) = Reading ws ->
  exists d', @insl HW 0x1f0 (length ws) d = Ok (mjoin (map bytes32 ws)) d' /\ contents d' = contents d.
Proof.
  induction ws as [|w ws IH]; intros d Hu Hx; cbn [insl length]; [exists d; split; reflexivity|].
  apply Forall_cons_1 in Hu as [Hw Hu]. unfold rd. erewrite bind_ok by reflexivity. cbn [answer HW ide_drive Z.eqb Pos.eqb].
  change (drive_state disk (dv_trace d)) with (now d). rewrite Hx. replace (w mod 2 ^ 32) with w by (symmetry; apply Z.mod_small; exact Hw).
  set (d1 := set_trace _ d). assert (E1 : now d1 = drive_step (Rd Port 0x1f0 w) (now d)) by reflexivity. cbn [drive_step Z.eqb Pos.eqb] in E1. rewrite Hx in E1.
  destruct (IH d1 Hu) as (d' & E & Hc); [rewrite E1; reflexivity|]. rewrite (bind_ok _ _ _ _ _ E). exists d'. split; [reflexivity|].
  rewrite Hc. unfold contents. rewrite E1. reflexivity.
Qed.

Ltac port L := let d := fresh "d" in let E := fresh "E" in let H := fresh "H" in
  destruct L as (d & E & H); rewrite (bind_ok _ _ _ _ _ E); clear E.

(** The accesses of [idestart] up to the command. *)
Lemma idestart_command f dev blockno flags data d : 0 <= blockno < FSSIZE ->
  exists d1, @idestart HW (S f) dev blockno flags data d =
      (if has flags B_DIRTY then outb 0x1f7 IDE_CMD_WRITE ;; outsl 0x1f0 (words data) else outb 0x1f7 IDE_CMD_READ) d1 /\
    contents d1 = contents d /\ selected (dr_regs (now d1)) = disk_of dev /\ address (dr_regs (now d1)) = blockno /\
    count (dr_regs (now d1)) = 1 /\ interrupts (now d1) = true.
Proof.
  intros Hb. unfold idestart. replace (FSSIZE <=? blockno) with false by lia. change (BSIZE / SECTOR_SIZE) with 1. rewrite Z.mul_1_r.
  change (7 <? 1) with false. change (1 =? 1) with true. cbv iota zeta.
  port (idewait_ready false f d). port (outb_reg 0x3f6 0 d0 ltac:(discriminate) ltac:(discriminate)). port (outb_reg 0x1f2 1 d1 ltac:(discriminate) ltac:(discriminate)).
  port (outb_reg 0x1f3 (Z.land blockno 0xff) d2 ltac:(discriminate) ltac:(discriminate)).
  port (outb_reg 0x1f4 (Z.land (Z.shiftr blockno 8) 0xff) d3 ltac:(discriminate) ltac:(discriminate)).
  port (outb_reg 0x1f5 (Z.land (Z.shiftr blockno 16) 0xff) d4 ltac:(discriminate) ltac:(discriminate)).
  port (outb_reg 0x1f6 (Z.lor (Z.lor 0xe0 (Z.shiftl (Z.land dev 1) 4)) (Z.land (Z.shiftr blockno 24) 0x0f)) d5 ltac:(discriminate) ltac:(discriminate)).
  exists d6. split; [reflexivity|]. unfold contents. rewrite H5. cbn [dr_disk dr_regs]. rewrite H4, H3, H2. cbn [dr_disk dr_regs]. split.
  - rewrite H1, H0, H. reflexivity.
  - destruct (drive_select dev blockno (dr_regs (now d2))) as [Es Ea]; [unfold FSSIZE in Hb; change (2 ^ 28) with 268435456; lia|].
    split; [exact Es|]. split; [exact Ea|]. rewrite H1, H0. cbn [dr_regs]. split.
    + unfold count. repeat rewrite fupd_ne by discriminate. rewrite fupd_eq. reflexivity.
    + unfold interrupts. cbn [dr_regs]. repeat rewrite fupd_ne by discriminate. rewrite fupd_eq. reflexivity.
Qed.

End Commands.

(** Writing block 5 of disk 1. *)
Definition blank (dev n : Z) : list Z := replicate 512 0.
Definition dirty_buf : buf := mkBuf B_DIRTY 1 5 zero_sleeplock 1 0 0 (replicate 512 7).
Definition dirty_state : kstate :=
  let s := boot_state (fun _ => 0) blank in set_fs (set_bufs (dirty_buf :: fs_bufs (k_fs s)) (k_fs s)) s.

End Ide.

(** ** memide.c

    The disk is an array of bytes in the kernel's memory, at [memdisk], with
    [disksize] blocks. *)
Module Memide.

(** [disksize] of an image of [size] bytes; [memdisk] is where it has been
    linked. *)
Definition mem_ideinit (size : Z) : Z := size / BSIZE.

Definition mem_iderw (memdisk disksize : Z) (b : nat) : K unit :=
  let! h := holdingsleep (LBuf b) in
  if negb h then panic "iderw: buf not locked"
  else
    let! x := get_buf b in
    if Z.land (b_flags x) (Z.lor B_VALID B_DIRTY) =? B_VALID then panic "iderw: nothing to do"
    else if negb (b_dev x =? 1) then panic "iderw: request not for disk 1"
    else if disksize <=? b_blockno x then panic "iderw: block out of range"
    else
      let p := memdisk + b_blockno x * BSIZE in
      (if has (b_flags x) B_DIRTY then
         upd_buf b (fun x => set_b_flags (Z.land (b_flags x) (w32 (Z.lnot B_DIRTY))) x) ;;
         modify (fun s => set_mem (put_bytes (k_mem s) p (b_data x)) s)
       else
         let! m := gets k_mem in
         upd_buf b (set_b_data (get_bytes m p BSIZE))) ;;
      upd_buf b (fun x => set_b_flags (Z.lor (b_flags x) B_VALID) x).

(** Block [n] of the disk. *)
Definition block (memdisk : Z) (m : mem) (n : Z) : list Z := get_bytes m (memdisk + n * BSIZE) BSIZE.

(** For a locked buffer of a block of the disk, [mem_iderw] does at once what the
    other driver does with commands and interrupts: a dirty buffer is written to
    its block and no other, another one is filled from it; it is valid and
    clean afterwards. *)
Lemma iderw_syncs memdisk disksize b x s s1 :
  holdingsleep (LBuf b) s = Ok true s1 -> fs_bufs (k_fs s1) !! b = Some x ->
  b_dev x = 1 -> 0 <= b_blockno x < disksize -> b_flags x = 0 \/ b_flags x = B_DIRTY \/ b_flags x = Z.lor B_VALID B_DIRTY ->
  Ide.sector_ok (b_data x) ->
  exists s' y, mem_iderw memdisk disksize b s = Ok tt s' /\ fs_bufs (k_fs s') !! b = Some y /\ b_flags y = B_VALID /\
    b_data y = block memdisk (k_mem s') (b_blockno x) /\
    if has (b_flags x) B_DIRTY then b_data y = b_data x /\ forall n, n <> b_blockno x -> block memdisk (k_mem s') n = block memdisk (k_mem s1) n
    else k_mem s' = k_mem s1.
Proof.
  intros Hh Hx Hdev Hn Hf [Hl Hb]. unfold mem_iderw. rewrite (bind_ok _ _ _ _ _ Hh). cbn [negb].
  assert (Eg : get_buf b s1 = Ok x s1) by (unfold get_buf; rewrite Hx; reflexivity). rewrite (bind_ok _ _ _ _ _ Eg).
  replace (Z.land (b_flags x) _ =? B_VALID) with false by (destruct Hf as [-> | [-> | ->]]; reflexivity). rewrite Hdev. cbn [Z.eqb Pos.eqb negb].
  replace (disksize <=? b_blockno x) with false by lia.
  assert (Hhas : has (b_flags x) B_DIRTY = negb (b_flags x =? 0)) by (destruct Hf as [-> | [-> | ->]]; reflexivity). rewrite Hhas. destruct (Z.eqb_spec (b_flags x) 0) as [E0 | N0]; cbn [negb].
  - eexists _, _. split; [reflexivity|]. cbn [k_fs set_fs fs_bufs set_bufs]. rewrite list_lookup_alter_eq, list_lookup_alter_eq, Hx.
    split; [reflexivity|]. cbn [b_flags set_b_flags set_b_data b_data]. rewrite E0. split; [reflexivity|]. split; reflexivity.
  - eexists _, _. split; [reflexivity|]. cbn [k_fs set_fs fs_bufs set_bufs set_mem]. rewrite list_lookup_alter_eq, list_lookup_alter_eq, Hx.
    split; [reflexivity|]. cbn [b_flags set_b_flags b_data]. split; [destruct Hf as [E | [-> | ->]]; [contradiction | reflexivity..]|].
    cbn [k_mem set_fs set_mem]. unfold block, BSIZE. split; [|split; [reflexivity|]].
    + rewrite <- (get_put (k_mem s1) (memdisk + b_blockno x * 512) (b_data x) Hb) at 1. rewrite Hl. reflexivity.
    + intros n Hne. apply get_put_ne. rewrite Hl. lia.
Qed.
End Memide.
