(* ===== verification/Boot.v ===== *)
(** * solution/bootmain.c: the boot loader

    The loader reads the kernel, an ELF file that starts at sector 1 of the first
    disk, with the port accesses of Devices.v, and copies its segments to the
    physical addresses that they ask for.  Memory is physical; it is an argument
    and a result of the functions. *)

From Stdlib Require Import ZArith Lia ZifyBool ZifyNat.
From stdpp Require Import base list strings.
From S2P Require Import Prelude Mem Mmu Kernel Bio Log Exec Trap Devices Ide.
Import Devices.

Module Boot.

Definition SECTSIZE : Z := 512.

Section Loader.
Context {HW : Hardware} (wait : nat).

Fixpoint waitdisk (fuel : nat) : D unit :=
  match fuel with
  | O => nofuel
  | S f =>
      let! st := inb 0x1F7 in
      if negb (Z.land st 0xC0 =? 0x40) then waitdisk f else ret tt
  end.

Definition readsect (m : mem) (dst offset : Z) : D mem :=
  waitdisk wait ;;
  outb 0x1F2 1 ;;
  outb 0x1F3 offset ;;
  outb 0x1F4 (Z.shiftr offset 8) ;;
  outb 0x1F5 (Z.shiftr offset 16) ;;
  outb 0x1F6 (Z.lor (Z.shiftr offset 24) 0xE0) ;;
  outb 0x1F7 0x20 ;;
  waitdisk wait ;;
  let! l := Ide.insl 0x1F0 (Z.to_nat (SECTSIZE / 4)) in
  ret (put_bytes m dst l).

Fixpoint readseg_loop (fuel : nat) (m : mem) (pa epa offset : Z) : D mem :=
  match fuel with
  | O => nofuel
  | S f =>
      if pa <? epa then
        let! m := readsect m pa offset in
        readseg_loop f m (w32 (pa + SECTSIZE)) epa (w32 (offset + 1))
      else ret m
  end.
(** The bound is the number of sectors, and one more test of the loop. *)
Definition readseg (m : mem) (pa count offset : Z) : D mem :=
  let epa := w32 (pa + count) in
  let pa := w32 (pa - offset mod SECTSIZE) in
  let offset := offset / SECTSIZE + 1 in
  readseg_loop (Z.to_nat ((epa - pa) / SECTSIZE + 2)) m pa epa offset.

(** The fields of a program header at [ph] that the loader uses. *)
Definition ph_off (m : mem) (ph : Z) : Z := load32 m (ph + 4).
Definition ph_paddr (m : mem) (ph : Z) : Z := load32 m (ph + 12).
Definition ph_filesz (m : mem) (ph : Z) : Z := load32 m (ph + 16).
Definition ph_memsz (m : mem) (ph : Z) : Z := load32 m (ph + 20).

(** [n] program headers are left. *)
Fixpoint load_loop (m : mem) (ph : Z) (n : nat) : D mem :=
  match n with
  | O => ret m
  | S n' =>
      let pa := ph_paddr m ph in
      let! m := readseg m pa (ph_filesz m ph) (ph_off m ph) in
      let m :=
        if ph_filesz m ph <? ph_memsz m ph
        then Mem.stosb m (w32 (pa + ph_filesz m ph)) 0 (ph_memsz m ph - ph_filesz m ph) else m in
      load_loop m (w32 (ph + PROGHDR_SIZE)) n'
  end.

Definition elf : Z := 0x10000.
(** The entry point that is jumped to, or [None] when there is no ELF file. *)
Definition bootmain (m : mem) : D (option Z * mem) :=
  let! m := readseg m elf 4096 0 in
  if negb (load32 m elf =? ELF_MAGIC) then ret (None, m)
  else
    let phnum := load8 m (elf + 44) + 256 * load8 m (elf + 45) in
    let entry_at := elf + 24 in
    let! m := load_loop m (w32 (elf + load32 m (elf + 28))) (Z.to_nat phnum) in
    ret (Some (load32 m entry_at), m).
End Loader.

(** ** What is loaded *)

Section Loads.
Context (disk : Z -> Z -> list Z) (others : Hardware) (f : nat).
Let HW : Hardware := Ide.ide_drive disk others.
Let contents (d : devices) : Z -> Z -> list Z := Ide.contents disk d.

(** The file on disk 0 from sector 1 on, byte by byte. *)
Definition file_byte (d : devices) (o : Z) : Z := nth (Z.to_nat (o mod 512)) (contents d 0 (o / 512 + 1)) 0.

Lemma waitdisk_ready d : exists d', @waitdisk HW (S f) d = Ok tt d' /\ Ide.now disk d' = Ide.now disk d.
Proof. eexists. split; reflexivity. Qed.

Ltac port L := let d := fresh "d" in let E := fresh "E" in let H := fresh "H" in
  destruct L as (d & E & H); rewrite (bind_ok _ _ _ _ _ E); clear E.

Lemma select_0 offset regs : 0 <= offset < 2 ^ 28 ->
  let r := fupd (fupd (fupd (fupd regs 0x1f3 (offset mod 256)) 0x1f4 (Z.shiftr offset 8 mod 256))
             0x1f5 (Z.shiftr offset 16 mod 256)) 0x1f6 (Z.lor (Z.shiftr offset 24) 0xE0 mod 256) in
  Ide.selected r = 0 /\ Ide.address r = offset.
Proof.
  intros Ho. pose proof (Ide.drive_select 0 offset regs Ho) as H. cbv zeta in *. change (Z.lor 0xe0 (Z.shiftl (Z.land 0 1) 4)) with 0xe0 in H.
  change 0xff with (Z.ones 8) in H. rewrite !Z.land_ones in H by lia. change (2 ^ 8) with 256 in H. rewrite !Z.mod_mod in H by lia.
  replace (Z.land (Z.shiftr offset 24) 0x0f) with (Z.shiftr offset 24) in H; [rewrite (Z.lor_comm (Z.shiftr offset 24)); exact H|].
  change 0x0f with (Z.ones 4). rewrite Z.land_ones by lia. symmetry. apply Z.mod_small. rewrite Z.shiftr_div_pow2 by lia.
  change (2 ^ 28) with (2 ^ 24 * 2 ^ 4) in Ho. split; [apply Z.div_pos; lia | apply Z.div_lt_upper_bound; lia].
Qed.

Lemma readsect_ok m dst offset d : 0 <= offset < 2 ^ 28 -> Ide.sector_ok (contents d 0 offset) ->
  exists d', @readsect HW (S f) m dst offset d = Ok (put_bytes m dst (contents d 0 offset)) d' /\ contents d' = contents d.
Proof.
  intros Ho [Hl Hb]. unfold readsect. port (waitdisk_ready d). port (Ide.outb_reg disk 0x1f2 1 d0 ltac:(discriminate) ltac:(discriminate)).
  port (Ide.outb_reg disk 0x1f3 offset d1 ltac:(discriminate) ltac:(discriminate)).
  port (Ide.outb_reg disk 0x1f4 (Z.shiftr offset 8) d2 ltac:(discriminate) ltac:(discriminate)).
  port (Ide.outb_reg disk 0x1f5 (Z.shiftr offset 16) d3 ltac:(discriminate) ltac:(discriminate)).
  port (Ide.outb_reg disk 0x1f6 (Z.lor (Z.shiftr offset 24) 0xE0) d4 ltac:(discriminate) ltac:(discriminate)).
  port (Ide.outb_cmd disk 0x20 d5). port (waitdisk_ready d6).
  assert (Hn : Ide.dr_disk (Ide.now disk d5) = contents d /\ Ide.selected (Ide.dr_regs (Ide.now disk d5)) = 0 /\ Ide.address (Ide.dr_regs (Ide.now disk d5)) = offset /\
    Ide.count (Ide.dr_regs (Ide.now disk d5)) = 1).
  { rewrite H4. cbn [Ide.dr_disk Ide.dr_regs]. rewrite H3, H2, H1. cbn [Ide.dr_disk Ide.dr_regs]. split; [rewrite H0, H; reflexivity|].
    destruct (select_0 offset (Ide.dr_regs (Ide.now disk d1)) Ho) as [Es Ea]. split; [exact Es|]. split; [exact Ea|].
    rewrite H0. cbn [Ide.dr_regs]. unfold Ide.count. repeat rewrite fupd_ne by discriminate. rewrite fupd_eq. reflexivity. }
  destruct Hn as (Hd & Hs & Ha & Hn). cbn [Ide.drive_step Z.eqb Pos.eqb] in H5. change (0x20 mod 256 =? Ide.IDE_CMD_READ) with true in H5. rewrite Ide.read_one, Hs, Ha, Hd in H5 by exact Hn.
  destruct (Ide.words_spec 128 _ Hl Hb) as (Ej & El & Hu).
  destruct (Ide.insl_reads disk others (Ide.words (contents d 0 offset)) d7 Hu) as (d8 & E8 & Hc8); [rewrite H6, H5; reflexivity|].
  rewrite El in E8. change (Z.to_nat (SECTSIZE / 4)) with 128%nat. rewrite (bind_ok _ _ _ _ _ E8), Ej. exists d8. split; [reflexivity|].
  unfold contents. rewrite Hc8. unfold Ide.contents. rewrite H6, H5. reflexivity.
Qed.

Definition sectors_ok (d : devices) : Prop := forall n, Ide.sector_ok (contents d 0 n).

Lemma file_byte_ext d d' : contents d' = contents d -> file_byte d' = file_byte d.
Proof. intros E. unfold file_byte. rewrite E. reflexivity. Qed.

Lemma load8_put_bytes m a l x : load8 (put_bytes m a l) x =
  if (a <=? x) && (x <? a + Z.of_nat (length l)) then nth (Z.to_nat (x - a)) l 0 mod 256 else load8 m x.
Proof. unfold load8, put_bytes. destruct (_ && _); [apply Z.mod_mod; lia | reflexivity]. Qed.

Lemma sector_byte d o x : sectors_ok d -> 0 <= o -> 512 * o <= x < 512 * o + 512 ->
  nth (Z.to_nat (x - 512 * o)) (contents d 0 (o + 1)) 0 mod 256 = file_byte d x.
Proof.
  intros Hok Ho Hx. assert (E : x / 512 = o) by (symmetry; apply (Z.div_unique x 512 o (x - 512 * o)); lia). unfold file_byte. rewrite (Z.mod_eq x 512), E by lia.
  apply Z.mod_small. destruct (Hok (o + 1)) as [Hl Hb]. rewrite Forall_lookup in Hb.
  destruct (lookup_lt_is_Some_2 (contents d 0 (o + 1)) (Z.to_nat (x - 512 * o)) ltac:(lia)) as [v Hv]. rewrite (nth_lookup_Some _ _ _ _ Hv). apply (Hb _ _ Hv).
Qed.

Lemma readseg_loop_ok n : forall fuel m pa epa o d, sectors_ok d ->
  0 <= pa -> 0 <= o -> pa + 512 * Z.of_nat n < 4294967296 -> o + Z.of_nat n + 1 < 2 ^ 28 ->
  epa <= pa + 512 * Z.of_nat n < epa + 512 -> (n < fuel)%nat ->
  exists m' d', @readseg_loop HW (S f) fuel m pa epa (o + 1) d = Ok m' d' /\ contents d' = contents d /\
    forall x, load8 m' x = if (pa <=? x) && (x <? pa + 512 * Z.of_nat n) then file_byte d (512 * o + (x - pa)) else load8 m x.
Proof.
  induction n as [|n IH]; intros [|fuel] m pa epa o d Hok Hpa Ho Hmax Hs Hep Hf; try lia; cbn [readseg_loop].
  - replace (pa <? epa) with false by lia. exists m, d. split; [reflexivity|]. split; [reflexivity|]. intros x. replace (_ && _) with false by lia. reflexivity.
  - replace (pa <? epa) with true by lia. destruct (readsect_ok m pa (o + 1) d ltac:(lia) (Hok (o + 1))) as (d1 & E & Hc). rewrite (bind_ok _ _ _ _ _ E).
    rewrite (w32_small (pa + SECTSIZE)) by (unfold u32, SECTSIZE; lia). rewrite (w32_small (o + 1 + 1)) by (unfold u32; change (2 ^ 28) with 268435456 in Hs; lia). unfold SECTSIZE.
    destruct (IH fuel (put_bytes m pa (contents d 0 (o + 1))) (pa + 512) epa (o + 1) d1) as (m' & d' & E' & Hc' & Hm); try lia.
    { intros k. unfold contents in *. rewrite Hc. apply Hok. }
    exists m', d'. split; [exact E'|]. split; [congruence|]. intros x. rewrite Hm, load8_put_bytes, (file_byte_ext d d1 Hc).
    destruct (Hok (o + 1)) as [Hl _]. rewrite Hl. change (Z.of_nat 512) with 512. destruct ((pa + 512 <=? x) && (x <? pa + 512 + 512 * Z.of_nat n)) eqn:E1.
    + replace (_ && _) with true by lia. f_equal. lia.
    + destruct ((pa <=? x) && (x <? pa + 512)) eqn:E2.
      * replace ((pa <=? x) && _) with true by lia. rewrite <- (sector_byte d o) by (assumption || lia). do 2 f_equal. lia.
      * replace ((pa <=? x) && _) with false by lia. reflexivity.
Qed.

(** The addresses that [readseg] writes to. *)
Definition seg_lo (pa off : Z) : Z := pa - off mod 512.
Definition seg_hi (pa count off : Z) : Z := seg_lo pa off + 512 * ((off mod 512 + count + 511) / 512).

Lemma seg_hi_range pa count off : 0 <= count -> pa + count <= seg_hi pa count off < pa + count + 512.
Proof.
  intros Hc. unfold seg_hi, seg_lo. pose proof (Z.mod_pos_bound off 512 ltac:(lia)). set (a := off mod 512 + count + 511).
  pose proof (Z.div_mod a 512 ltac:(lia)). pose proof (Z.mod_pos_bound a 512 ltac:(lia)). lia.
Qed.

Lemma readseg_ok m pa count off d : sectors_ok d -> u32 count -> u32 off -> off mod 512 <= pa -> pa + count + 512 < 4294967296 ->
  exists m' d', @readseg HW (S f) m pa count off d = Ok m' d' /\ contents d' = contents d /\
    forall x, load8 m' x = if (seg_lo pa off <=? x) && (x <? seg_hi pa count off) then file_byte d (x - pa + off) else load8 m x.
Proof.
  intros Hok Hc Ho Hpa Hmax. unfold u32 in Hc, Ho. pose proof (seg_hi_range pa count off ltac:(lia)) as Hh. unfold seg_hi in Hh. unfold readseg, SECTSIZE.
  pose proof (Z.mod_pos_bound off 512 ltac:(lia)) as Hm. rewrite (w32_small (pa + count)) by (unfold u32; lia). rewrite (w32_small (pa - off mod 512)) by (unfold u32; lia).
  set (k := (off mod 512 + count + 511) / 512) in *. assert (Hk : 0 <= k) by (apply Z.div_pos; lia).
  assert (Hd : off / 512 < 8388608) by (apply Z.div_lt_upper_bound; lia). assert (H0 : 0 <= off / 512) by (apply Z.div_pos; lia). unfold seg_lo in Hh.
  assert (Hk2 : k <= (pa + count - (pa - off mod 512)) / 512 + 1).
  { unfold k. replace (pa + count - (pa - off mod 512)) with (off mod 512 + count) by lia. set (b := off mod 512 + count) in *.
    rewrite <- (Z.div_add b 1 512) by lia. apply Z.div_le_mono; lia. }
  destruct (readseg_loop_ok (Z.to_nat k) (Z.to_nat ((pa + count - (pa - off mod 512)) / 512 + 2)) m (pa - off mod 512) (pa + count) (off / 512) d) as (m' & d' & E & Hcd & Hx); try assumption; try lia.
  exists m', d'. split; [exact E|]. split; [exact Hcd|]. intros x. rewrite Hx. unfold seg_hi, seg_lo. fold k. rewrite Z2Nat.id by lia.
  destruct (_ && _); [|reflexivity]. f_equal. pose proof (Z.div_mod off 512 ltac:(lia)). lia.
Qed.

(** ** The whole kernel *)

Definition file32 (d : devices) (o : Z) : Z :=
  file_byte d o + 256 * file_byte d (o + 1) + 65536 * file_byte d (o + 2) + 16777216 * file_byte d (o + 3).

(** A segment, and the segments of the file. *)
Record segment : Type := mkSeg { sg_off : Z; sg_pa : Z; sg_filesz : Z; sg_memsz : Z }.
Definition segment_at (d : devices) (o : Z) : segment :=
  mkSeg (file32 d (o + 4)) (file32 d (o + 12)) (file32 d (o + 16)) (file32 d (o + 20)).
Fixpoint segments (d : devices) (o : Z) (n : nat) : list segment :=
  match n with
  | O => []
  | S n' => segment_at d o :: segments d (o + PROGHDR_SIZE) n'
  end.

(** The addresses that loading a segment writes to; those that it owns. *)
Definition writes (g : segment) (x : Z) : Prop :=
  seg_lo (sg_pa g) (sg_off g) <= x < Z.max (seg_hi (sg_pa g) (sg_filesz g) (sg_off g)) (sg_pa g + sg_memsz g).
Definition owns (g : segment) (x : Z) : Prop := sg_pa g <= x < sg_pa g + Z.max (sg_filesz g) (sg_memsz g).
(** A segment in memory. *)
Definition loaded (d : devices) (g : segment) (m : mem) : Prop :=
  (forall i, 0 <= i < sg_filesz g -> load8 m (sg_pa g + i) = file_byte d (sg_off g + i)) /\
  (forall i, sg_filesz g <= i < sg_memsz g -> load8 m (sg_pa g + i) = 0).

(** Segments that can be loaded: within memory, away from the scratch page, and
    each one away from those before it. *)
Definition scratch (x : Z) : Prop := elf <= x < elf + 4096.
Definition seg_ok (g : segment) : Prop :=
  sg_off g mod 512 <= sg_pa g /\ sg_pa g + Z.max (sg_filesz g) (sg_memsz g) + 512 < 4294967296 /\ (forall x, writes g x -> ~ scratch x).
Fixpoint segs_ok (gs : list segment) : Prop :=
  match gs with
  | [] => True
  | g :: gs' => seg_ok g /\ Forall (fun g' => forall x, writes g' x -> ~ owns g x) gs' /\ segs_ok gs'
  end.

(** The first page of the file is in the scratch page. *)
Definition header (d : devices) (m : mem) : Prop := forall o, 0 <= o < 4096 -> load8 m (elf + o) = file_byte d o.

Lemma header32 d m o : header d m -> 0 <= o -> o + 4 <= 4096 -> load32 m (elf + o) = file32 d o.
Proof. intros Hh Ho1 Ho2. unfold load32, file32. rewrite <- !Z.add_assoc. rewrite !Hh by lia. reflexivity. Qed.

Lemma file_byte_range d o : sectors_ok d -> 0 <= file_byte d o < 256.
Proof.
  intros Hok. unfold file_byte. destruct (Hok (o / 512 + 1)) as [Hl Hb]. rewrite Forall_lookup in Hb. pose proof (Z.mod_pos_bound o 512 ltac:(lia)).
  destruct (lookup_lt_is_Some_2 (contents d 0 (o / 512 + 1)) (Z.to_nat (o mod 512)) ltac:(lia)) as [v Hv]. rewrite (nth_lookup_Some _ _ _ _ Hv). apply (Hb _ _ Hv).
Qed.

Lemma file32_range d o : sectors_ok d -> u32 (file32 d o).
Proof.
  intros Hok. unfold u32, file32. pose proof (file_byte_range d o Hok). pose proof (file_byte_range d (o + 1) Hok).
  pose proof (file_byte_range d (o + 2) Hok). pose proof (file_byte_range d (o + 3) Hok). lia.
Qed.

Lemma load8_stosb m a n x : load8 (Mem.stosb m a 0 n) x = if (a <=? x) && (x <? a + n) then 0 else load8 m x.
Proof. unfold load8, Mem.stosb. destruct (_ && _); reflexivity. Qed.

(** The header of a segment, read from the scratch page. *)
Lemma header_segment d m o : header d m -> 0 <= o -> o + 32 <= 4096 ->
  segment_at d o = mkSeg (ph_off m (elf + o)) (ph_paddr m (elf + o)) (ph_filesz m (elf + o)) (ph_memsz m (elf + o)).
Proof. intros Hh Ho1 Ho2. unfold segment_at, ph_off, ph_paddr, ph_filesz, ph_memsz. rewrite <- !Z.add_assoc, !(header32 d m) by (assumption || lia). reflexivity. Qed.

(** One turn of the loop. *)
Definition load_one (m : mem) (ph : Z) : D mem :=
  let pa := ph_paddr m ph in
  let! m := @readseg HW (S f) m pa (ph_filesz m ph) (ph_off m ph) in
  ret (if ph_filesz m ph <? ph_memsz m ph
       then Mem.stosb m (w32 (pa + ph_filesz m ph)) 0 (ph_memsz m ph - ph_filesz m ph) else m).

Lemma load_one_ok m o d : sectors_ok d -> header d m -> 0 <= o -> o + 32 <= 4096 -> seg_ok (segment_at d o) ->
  let g := segment_at d o in
  exists m' d', load_one m (elf + o) d = Ok m' d' /\ contents d' = contents d /\ loaded d g m' /\
    forall x, ~ writes g x -> load8 m' x = load8 m x.
Proof.
  intros Hok Hh Ho1 Ho2 (Hlo & Hmax & Hsc) g.
  assert (Hu1 : u32 (sg_filesz g) /\ u32 (sg_off g) /\ u32 (sg_memsz g) /\ u32 (sg_pa g)) by (repeat split; apply file32_range, Hok). destruct Hu1 as (Hu1 & Hu2 & Hu3 & Hu4).
  pose proof (header_segment d m o Hh Ho1 Ho2) as Eg. fold g in Eg, Hlo, Hmax, Hsc. unfold load_one.
  replace (ph_paddr m (elf + o)) with (sg_pa g) by (rewrite Eg; reflexivity). replace (ph_filesz m (elf + o)) with (sg_filesz g) by (rewrite Eg; reflexivity).
  replace (ph_off m (elf + o)) with (sg_off g) by (rewrite Eg; reflexivity).
  destruct (readseg_ok m (sg_pa g) (sg_filesz g) (sg_off g) d Hok Hu1 Hu2 Hlo ltac:(lia)) as (m1 & d1 & E & Hc & Hm). rewrite (bind_ok _ _ _ _ _ E).
  pose proof (seg_hi_range (sg_pa g) (sg_filesz g) (sg_off g) ltac:(unfold u32 in Hu1; lia)) as Hhi. assert (Hlo2 : seg_lo (sg_pa g) (sg_off g) <= sg_pa g) by (unfold seg_lo; pose proof (Z.mod_pos_bound (sg_off g) 512 ltac:(lia)); lia).
  assert (Hh1 : header d m1).
  { intros k Hk. rewrite Hm. replace (_ && _) with false; [apply Hh, Hk|]. symmetry. apply not_true_is_false. intros Hb. apply (Hsc (elf + k)); unfold writes, scratch; lia. }
  pose proof (header_segment d m1 o Hh1 Ho1 Ho2) as Eg1. fold g in Eg1.
  replace (ph_filesz m1 (elf + o)) with (sg_filesz g) by (rewrite Eg1; reflexivity). replace (ph_memsz m1 (elf + o)) with (sg_memsz g) by (rewrite Eg1; reflexivity).
  rewrite w32_small by (unfold u32 in *; lia). clear Eg Eg1 E. unfold u32 in *. eexists _, d1. split; [reflexivity|]. split; [exact Hc|].
  destruct (Z.ltb_spec (sg_filesz g) (sg_memsz g)) as [Hz | Hz]; (split; [split|]).
  - intros i Hi. rewrite load8_stosb, Hm. replace (_ && _) with false by lia. replace (_ && _) with true by lia. f_equal. lia.
  - intros i Hi. rewrite load8_stosb. replace (_ && _) with true by lia. reflexivity.
  - intros x Hx. unfold writes in Hx. rewrite load8_stosb, Hm. replace (_ && _) with false by lia. replace (_ && _) with false by lia. reflexivity.
  - intros i Hi. rewrite Hm. replace (_ && _) with true by lia. f_equal. lia.
  - intros i Hi. lia.
  - intros x Hx. unfold writes in Hx. rewrite Hm. replace (_ && _) with false by lia. reflexivity.
Qed.

Lemma segments_ext d d' n : contents d' = contents d -> forall o, segments d' o n = segments d o n.
Proof. intros E. induction n as [|n IH]; intros o; cbn [segments]; [reflexivity|]. rewrite IH. unfold segment_at, file32. rewrite (file_byte_ext d d' E). reflexivity. Qed.

Lemma load_loop_step m ph n d : @load_loop HW (S f) m ph (S n) d = (let! m := load_one m ph in @load_loop HW (S f) m (w32 (ph + PROGHDR_SIZE)) n) d.
Proof. cbn [load_loop]. unfold load_one. rewrite bind_assoc. reflexivity. Qed.

Lemma load_loop_ok n : forall m o d, sectors_ok d -> header d m -> 0 <= o -> o + 32 * Z.of_nat n <= 4096 -> segs_ok (segments d o n) ->
  exists m' d', @load_loop HW (S f) m (elf + o) n d = Ok m' d' /\ contents d' = contents d /\ Forall (fun g => loaded d g m') (segments d o n) /\
    forall x, Forall (fun g => ~ writes g x) (segments d o n) -> load8 m' x = load8 m x.
Proof.
  induction n as [|n IH]; intros m o d Hok Hh Ho Hn Hsegs.
  { exists m, d. split; [reflexivity|]. split; [reflexivity|]. split; [constructor | reflexivity]. }
  destruct Hsegs as (Hg & Hsep & Hsegs). rewrite load_loop_step. cbn [segments].
  destruct (load_one_ok m o d Hok Hh Ho ltac:(lia) Hg) as (m1 & d1 & E & Hc & Hl & Hout). rewrite (bind_ok _ _ _ _ _ E). set (g := segment_at d o) in *.
  rewrite w32_small by (unfold u32, elf, PROGHDR_SIZE; lia). rewrite <- Z.add_assoc.
  assert (Hf1 : file_byte d1 = file_byte d) by (apply file_byte_ext, Hc). pose proof (segments_ext d d1 n Hc (o + PROGHDR_SIZE)) as Es.
  destruct (IH m1 (o + PROGHDR_SIZE) d1) as (m2 & d2 & E2 & Hc2 & Hl2 & Hout2); try (unfold PROGHDR_SIZE; lia).
  - intros k. rewrite Hc. apply Hok.
  - intros k Hk. rewrite Hf1, Hout; [apply Hh, Hk|]. intros Hw. apply (proj2 (proj2 Hg) _ Hw). unfold scratch. lia.
  - rewrite Es. exact Hsegs.
  - rewrite Es in Hl2, Hout2. exists m2, d2. split; [exact E2|]. split; [congruence|]. split.
    + constructor; [|eapply Forall_impl; [exact Hl2|]; intros g' Hg'; unfold loaded in *; rewrite Hf1 in Hg'; exact Hg'].
      assert (Hkeep : forall x, owns g x -> load8 m2 x = load8 m1 x).
      { intros x Hx. apply Hout2. eapply Forall_impl; [exact Hsep|]. intros g' Hg' Hw. apply (Hg' x Hw Hx). }
      assert (Hnn : 0 <= sg_filesz g) by (apply file32_range, Hok).
      destruct Hl as [L1 L2]. split; intros i Hi; (rewrite Hkeep by (unfold owns; lia)); [apply L1, Hi | apply L2, Hi].
    + intros x Hx. apply Forall_cons_1 in Hx as [Hx1 Hx2]. rewrite (Hout2 x Hx2). apply Hout, Hx1.
Qed.

(** C34 (bootmain.c): the boot loader loads the kernel.  If the file on the first
    disk has the magic number of ELF, its program headers are in its first page,
    and its segments fit in memory, away from the scratch page and from each
    other, then the loader jumps to the entry point of the file with every
    segment at its physical address: first the bytes of the file, then zeros.
    Without the magic number it returns. *)
Theorem bootmain_loads_kernel m d :
  sectors_ok d ->
  let phoff := file32 d 28 in
  let phnum := file_byte d 44 + 256 * file_byte d 45 in
  let gs := segments d phoff (Z.to_nat phnum) in
  (file32 d 0 = ELF_MAGIC -> phoff + 32 * phnum <= 4096 -> segs_ok gs ->
     exists m' d', @bootmain HW (S f) m d = Ok (Some (file32 d 24), m') d' /\ Forall (fun g => loaded d g m') gs) /\
  (file32 d 0 <> ELF_MAGIC -> exists m' d', @bootmain HW (S f) m d = Ok (None, m') d').
Proof.
  intros Hok phoff phnum gs. unfold bootmain.
  destruct (readseg_ok m elf 4096 0 d Hok) as (m1 & d1 & E & Hc & Hm); try (unfold u32, elf; cbn; lia). rewrite (bind_ok _ _ _ _ _ E).
  assert (Hh : header d m1).
  { intros o Ho. rewrite Hm. change (seg_lo elf 0) with elf. change (seg_hi elf 4096 0) with (elf + 4096). replace (_ && _) with true by lia. f_equal. lia. }
  replace (load32 m1 elf) with (file32 d 0) by (rewrite <- (header32 d m1 0 Hh) by lia; reflexivity). split.
  - intros Hmag Hph Hsegs. rewrite (proj2 (Z.eqb_eq _ _) Hmag). cbn [negb]. rewrite (Hh 44), (Hh 45) by lia. fold phnum.
    assert (Hnum : 0 <= phnum) by (unfold phnum; pose proof (file_byte_range d 44 Hok); pose proof (file_byte_range d 45 Hok); lia).
    rewrite (header32 d m1 28 Hh) by lia. fold phoff. assert (Hp0 : 0 <= phoff) by (apply file32_range, Hok). rewrite w32_small by (unfold u32, elf; lia).
    assert (Hf1 : file_byte d1 = file_byte d) by (apply file_byte_ext, Hc).
    destruct (load_loop_ok (Z.to_nat phnum) m1 phoff d1) as (m2 & d2 & E2 & Hc2 & Hl & Hout); try lia.
    { intros k. rewrite Hc. apply Hok. } { intros o Ho. rewrite Hf1. apply Hh, Ho. } { rewrite (segments_ext d d1 _ Hc). exact Hsegs. }
    rewrite (segments_ext d d1 _ Hc) in Hl, Hout. rewrite (bind_ok _ _ _ _ _ E2). exists m2, d2.
    assert (Hh2 : header d m2).
    { intros o Ho. rewrite Hout; [apply Hh, Ho|]. fold gs. clear -Hsegs Ho. induction gs as [|g gs IH]; [constructor|]. destruct Hsegs as ((_ & _ & Hg) & _ & Hs).
      constructor; [intros Hw; apply (Hg _ Hw); unfold scratch; lia | apply IH, Hs]. }
    rewrite (header32 d m2 24 Hh2) by lia. split; [reflexivity|]. eapply Forall_impl; [exact Hl|]. intros g Hg. unfold loaded in *. rewrite Hf1 in Hg. exact Hg.
  - intros Hmag. rewrite (proj2 (Z.eqb_neq _ _) Hmag). cbn [negb]. eauto.
Qed.
End Loads.

(** ** An example: a kernel with one segment of three bytes and two zeros *)

Definition pad (l : list Z) : list Z := l ++ replicate (512 - length l) 0.
Definition tiny_header : list Z :=
  pad ([0x7F; 69; 76; 70] ++ replicate 20 0 ++ bytes32 0x10000c ++ bytes32 52 ++ replicate 12 0 ++ [1; 0] ++ replicate 6 0 ++
       bytes32 1 ++ bytes32 4096 ++ bytes32 0x80100000 ++ bytes32 0x100000 ++ bytes32 3 ++ bytes32 5).
Definition tiny_disk (dev n : Z) : list Z :=
  if n =? 1 then tiny_header else if n =? 9 then pad [11; 12; 13; 14] else replicate 512 0.
Definition no_others : Hardware := {| answer := fun _ _ _ => 0 |}.
Definition tiny_devices : devices := mkDev [] 0 0 0 0 [] [].

Lemma sector_check l : (length l =? 512)%nat && forallb (fun x => (0 <=? x) && (x <? 256)) l = true -> Ide.sector_ok l.
Proof.
  intros H. apply andb_true_iff in H as [Hl Hb]. split; [apply Nat.eqb_eq, Hl|]. rewrite forallb_forall in Hb. apply Forall_forall. intros x Hx.
  apply list_elem_of_In in Hx. specialize (Hb x Hx). lia.
Qed.

Lemma bootmain_loads_kernel_witness :
  exists m' d', @bootmain (Ide.ide_drive tiny_disk no_others) 1 (fun _ => 255) tiny_devices = Ok (Some 0x10000c, m') d' /\
    load8 m' 0x100000 = 11 /\ load8 m' 0x100004 = 0.
Proof.
  destruct (bootmain_loads_kernel tiny_disk no_others 0 (fun _ => 255) tiny_devices) as [H _].
  - intros n. change (Ide.sector_ok (tiny_disk 0 n)). unfold tiny_disk. destruct (n =? 1); [|destruct (n =? 9)]; apply sector_check; vm_compute; reflexivity.
  - destruct H as (m' & d' & E & Hl).
    + vm_compute. reflexivity.
    + vm_compute. congruence.
    + change (segs_ok [mkSeg 4096 0x100000 3 5]). split; [|split; [constructor | exact I]].
      split; [vm_compute; congruence|]. split; [vm_compute; reflexivity|]. intros x Hw Hs. unfold writes in Hw. cbn [sg_pa sg_off sg_filesz sg_memsz] in Hw.
      change (seg_lo 0x100000 4096) with 0x100000 in Hw. unfold scratch, elf in Hs. lia.
    + exists m', d'. split; [exact E|]. change (Forall (fun g => loaded tiny_disk tiny_devices g m') [mkSeg 4096 0x100000 3 5]) in Hl. apply Forall_cons_1 in Hl as [[H1 H2] _].
      split; [|apply (H2 4); cbn; lia].
      transitivity (file_byte tiny_disk tiny_devices (4096 + 0)); [apply (H1 0); cbn; lia | vm_compute; reflexivity].
Defined.
End Boot.
