(* ===== verification/Main.v ===== *)
(** * solution/main.c: the order of initialization

    main() runs code on the kernel's state and code on the devices.  Both are
    lifted to a state with both parts.  Waiting for another CPU is a switch: the
    rest of the system runs until that CPU has set its flag. *)

From Stdlib Require Import ZArith Lia ZifyBool ZifyNat.
From stdpp Require Import base list strings gmap.
From S2P Require Import Prelude Mem Mmu Kernel Spinlock Kalloc Vm VmFacts Sched Bio Log Fs Uaccess Pipe File Proc Exec Syscall Console Sysproc Sysfile Trap Devices Mp Ide.
Import Devices Mp.

(** ** Kernel and devices *)

Definition B (A : Type) : Type := M (devices * kstate) A.

(** The kernel part of a state runs; the devices stay, or change while the
    kernel code has given up the CPU. *)
Fixpoint with_devices {A} (d : devices) (r : result kstate A) : result (devices * kstate) A :=
  match r with
  | Ok a s => Ok a (d, s)
  | Panic m => Panic m
  | Fault => Fault
  | Spin => Spin
  | Switch s k => Switch (d, s) (fun p => with_devices p.1 (k p.2))
  | NoFuel => NoFuel
  end.
Definition kern {A} (m : K A) : B A := fun p => with_devices p.1 (m p.2).
Fixpoint with_kernel {A} (s : kstate) (r : result devices A) : result (devices * kstate) A :=
  match r with
  | Ok a d => Ok a (d, s)
  | Panic m => Panic m
  | Fault => Fault
  | Spin => Spin
  | Switch d k => Switch (d, s) (fun p => with_kernel p.2 (k p.1))
  | NoFuel => NoFuel
  end.
Definition dev {A} (m : D A) : B A := fun p => with_kernel p.2 (m p.1).

(** ** main.c *)

Section Main.
Context `{HW : Hardware, I : Image, R : Rounds}.
(** Bounds for the loops that wait for devices and for the scheduler; the
    vectors; the image of entryother.S and the addresses of mpenter and
    entrypgdir, which the linker knows. *)
Context (wait rounds_of_scheduler : nat) (entryother_start entryother_size mpenter_addr entrypgdir_addr : Z).

Definition set_k_apicids (v : list Z) (s : kstate) : kstate :=
  mkK (k_mem s) (k_cpu s) v (k_locks s) (k_kmem s) (k_khugemem s) (k_procs s) (k_initproc s) (k_nextpid s) (k_kpgdir s) (k_ticks s) (k_thp s) (k_out s) (k_files s) (k_pipes s) (k_fs s) (k_input s).

(** [mpinit] reads the tables of the firmware in memory and fills [cpus]. *)
Definition main_mpinit : B unit :=
  let! m := kern (gets k_mem) in
  dev (mpinit m wait) ;;
  let! ids := dev (gets dv_apicids) in
  kern (modify (set_k_apicids ids)).

Definition main_consoleinit : B unit :=
  kern consoleinit ;;
  dev (ioapicenable IRQ_KBD 0).

Definition main_ideinit : B unit :=
  let! disk1 := dev (Ide.ideinit wait) in
  kern (Bio.ideinit disk1).

(** [while(c->started == 0)]. *)
Definition wait_started : B unit := fun p => Switch p (fun p' => Ok tt p').

Definition code : Z := P2V 0x7000.
(** One turn of the loop, for the CPU with this APIC id. *)
Definition startother (apicid : Z) : B unit :=
  let! c := kern mycpu in
  if apicid =? c_apicid c then ret tt
  else
    let! stack := kern kalloc in
    kern (st32 (code - 4) (w32 (stack + KSTACKSIZE))) ;;
    kern (st32 (code - 8) mpenter_addr) ;;
    kern (st32 (code - 12) (V2P entrypgdir_addr)) ;;
    let! m := kern (gets k_mem) in
    let! m := dev (lapicstartap m apicid (V2P code)) in
    kern (modify (set_mem m)) ;;
    wait_started.
Fixpoint startothers_loop (ids : list Z) : B unit :=
  match ids with
  | [] => ret tt
  | id :: ids' => startother id ;; startothers_loop ids'
  end.
Definition startothers : B unit :=
  kern (kmemmove code entryother_start entryother_size) ;;
  let! ids := kern (gets k_apicids) in
  startothers_loop ids.

(** The table that [idtinit] loads is [tvinit_idt]; [started] is the flag that
    [wait_started] waits for. *)
Definition mpmain : B unit :=
  kern (let! id := cpuid in
        cprintf_args "cpu%d: starting %d
" [PInt id; PInt id]) ;;
  kern (let! _ := mycpu in ret tt) ;;
  kern (scheduler rounds_of_scheduler).

Definition mpenter : B unit :=
  kern switchkvm ;;
  kern seginit ;;
  dev (lapicinit wait) ;;
  mpmain.

Definition main : B unit :=
  kern (modify (set_thp 0)) ;;
  kern (kinit1 img_end (P2V (4 * 1024 * 1024))) ;;
  kern kvmalloc ;;
  main_mpinit ;;
  dev (lapicinit wait) ;;
  kern seginit ;;
  dev picinit ;;
  dev ioapicinit ;;
  main_consoleinit ;;
  dev uartinit ;;
  kern pinit ;;
  kern tvinit ;;
  kern binit ;;
  kern fileinit ;;
  main_ideinit ;;
  startothers ;;
  kern (kinit2 (P2V (4 * 1024 * 1024)) (P2V PHYSTOP)) ;;
  kern (khugeinit (P2V HUGE_PAGE_START) (P2V HUGE_PAGE_END)) ;;
  kern (userinit devsw) ;;
  mpmain.
End Main.

(** ** The first page directory *)

Definition entrypgdir : list Z :=
  let e := Z.lor (Z.lor (Z.lor 0 PTE_P) PTE_W) PTE_PS in
  <[Z.to_nat (Z.shiftr KERNBASE PDXSHIFT) := e]> (<[0%nat := e]> (replicate 1024 0)).

Lemma entrypgdir_entry i : 0 <= i < 1024 -> nth (Z.to_nat i) entrypgdir 0 = if (i =? 0) || (i =? 512) then 0x83 else 0.
Proof.
  intros Hi. assert (H : forallb (fun i => nth (Z.to_nat i) entrypgdir 0 =? (if (i =? 0) || (i =? 512) then 0x83 else 0)) (seqZ 0 1024) = true) by (vm_compute; reflexivity).
  rewrite forallb_forall in H. apply Z.eqb_eq, H, list_elem_of_In, elem_of_seqZ. lia.
Qed.

(** main.c, [entrypgdir]: with this directory the first 4 MB of memory are seen
    at address 0 and at KERNBASE, for the kernel only, and nothing else is
    mapped; so main() can be entered at its high address while the code of
    entry.S still runs at its low one. *)
Lemma entrypgdir_maps m a va :
  (forall i, 0 <= i < 1024 -> load32 m (a + 4 * i) = nth (Z.to_nat i) entrypgdir 0) -> u32 va ->
  hw_translate m a va =
    if va <? 0x400000 then Some (va, false, true)
    else if (KERNBASE <=? va) && (va <? KERNBASE + 0x400000) then Some (va - KERNBASE, false, true)
    else None.
Proof.
  intros Hm Hva. unfold u32 in Hva. assert (Hp : PDX va = va / 4194304).
  { unfold PDX, PDXSHIFT. change 0x3FF with (Z.ones 10). rewrite Z.land_ones, Z.shiftr_div_pow2 by lia. change (2 ^ 22) with 4194304. change (2 ^ 10) with 1024. apply Z.mod_small. split; [apply Z.div_pos | apply Z.div_lt_upper_bound]; lia. }
  assert (Hd : 0 <= va / 4194304 < 1024) by (split; [apply Z.div_pos | apply Z.div_lt_upper_bound]; lia).
  pose proof (Z.div_mod va 4194304 ltac:(lia)) as Hdm. pose proof (Z.mod_pos_bound va 4194304 ltac:(lia)) as Hmb.
  unfold hw_translate. rewrite Hp, (Hm _ Hd), (entrypgdir_entry _ Hd). unfold KERNBASE.
  destruct ((va / 4194304 =? 0) || (va / 4194304 =? 512)) eqn:E.
  - change (negb (has 0x83 PTE_P)) with false. change (has 0x83 PTE_PS) with true. change (has 0x83 PTE_U) with false. change (has 0x83 PTE_W) with true. change (0x83 - 0x83 mod 4194304) with 0. cbv iota. rewrite Z.add_0_l.
    destruct (va <? 0x400000) eqn:E1; [f_equal; f_equal; f_equal; lia|]. replace (_ && _) with true by lia. do 3 f_equal. lia.
  - change (negb (has 0 PTE_P)) with true. cbv iota. replace (va <? 0x400000) with false by lia. replace (_ && _) with false by lia. reflexivity.
Qed.
