(* ===== verification/Asm.v ===== *)
(** * solution/swtch.S, trapasm.S, vectors.S, usys.S, initcode.S, entry.S,
    entryother.S and bootasm.S: the assembly of the system

    Each routine is a list of instructions, run by [exec] on the registers and
    the memory of one processor.  Addresses are linear and 32 bits wide; the code
    is straight, and the instructions that leave it ([Ret], [Iret], [Int],
    [Call], [Jmp], [Ljmp]) set [m_eip].  [Int] and [Call] carry the address of
    the instruction after them, which the assembler knows. *)

From Stdlib Require Import ZArith Lia ZifyBool ZifyNat.
From stdpp Require Import base list strings.
From S2P Require Import Prelude Mem Mmu Kernel Vm Bio Proc Trap Devices.
Import Devices.

Module Asm.

(** ** The processor *)

Inductive reg : Type := EAX | ECX | EDX | EBX | ESP | EBP | ESI | EDI.
#[export] Instance reg_eq_dec : EqDecision reg.
Proof. solve_decision. Defined.
Inductive sreg : Type := CS | DS | ES | FS | GS | SS.
#[export] Instance sreg_eq_dec : EqDecision sreg.
Proof. solve_decision. Defined.

Record machine : Type := mkMachine {
  m_reg : reg -> Z; m_seg : sreg -> Z; m_eip : Z; m_eflags : Z; m_cr : Z -> Z; m_gdtr : Z; m_mem : mem }.

Definition set_reg (r : reg) (v : Z) (m : machine) : machine :=
  mkMachine (fun x => if decide (x = r) then w32 v else m_reg m x) (m_seg m) (m_eip m) (m_eflags m) (m_cr m) (m_gdtr m) (m_mem m).
Definition set_seg (s : sreg) (v : Z) (m : machine) : machine :=
  mkMachine (m_reg m) (fun x => if decide (x = s) then Z.land v 0xffff else m_seg m x) (m_eip m) (m_eflags m) (m_cr m) (m_gdtr m) (m_mem m).
Definition set_eip (v : Z) (m : machine) : machine :=
  mkMachine (m_reg m) (m_seg m) (w32 v) (m_eflags m) (m_cr m) (m_gdtr m) (m_mem m).
Definition set_eflags (v : Z) (m : machine) : machine :=
  mkMachine (m_reg m) (m_seg m) (m_eip m) (w32 v) (m_cr m) (m_gdtr m) (m_mem m).
Definition set_cr (n v : Z) (m : machine) : machine :=
  mkMachine (m_reg m) (m_seg m) (m_eip m) (m_eflags m) (fun x => if x =? n then w32 v else m_cr m x) (m_gdtr m) (m_mem m).
Definition set_gdtr (v : Z) (m : machine) : machine :=
  mkMachine (m_reg m) (m_seg m) (m_eip m) (m_eflags m) (m_cr m) v (m_mem m).
Definition set_memory (v : mem) (m : machine) : machine :=
  mkMachine (m_reg m) (m_seg m) (m_eip m) (m_eflags m) (m_cr m) (m_gdtr m) v.

Definition push (v : Z) (m : machine) : machine :=
  let m := set_reg ESP (m_reg m ESP - 4) m in set_memory (store32 (m_mem m) (m_reg m ESP) v) m.
Definition top (m : machine) : Z := load32 (m_mem m) (m_reg m ESP).
Definition discard (m : machine) : machine := set_reg ESP (m_reg m ESP + 4) m.
Definition cpl (m : machine) : Z := Z.land (m_seg m CS) 3.

(** Entry through gate [n] of the interrupt table: from a less privileged level
    to the stack that the task state names; an interrupt gate clears FL_IF. *)
Section Cpu.
Context (idt : list gatedesc) (esp0 ss0 : Z).

Definition enter (n : Z) (err : option Z) (m : machine) : machine :=
  match idt !! Z.to_nat n with
  | None => m
  | Some g =>
      let m1 :=
        if Z.land (g_cs g) 3 <? cpl m
        then push (m_reg m ESP) (push (m_seg m SS) (set_reg ESP esp0 (set_seg SS ss0 m)))
        else m in
      let m2 := push (m_eip m) (push (m_seg m CS) (push (m_eflags m) m1)) in
      let m3 := match err with Some e => push e m2 | None => m2 end in
      let m4 := if g_type g =? STS_IG32 then set_eflags (Z.ldiff (m_eflags m) FL_IF) m3 else m3 in
      set_eip (g_off_15_0 g + 65536 * g_off_31_16 g) (set_seg CS (g_cs g) m4)
  end.

(** The instruction [int]: a gate that is closed to this level is a general
    protection fault. *)
Definition software_int (n : Z) (m : machine) : machine :=
  match idt !! Z.to_nat n with
  | Some g => if g_dpl g <? cpl m then enter 13 (Some (8 * n + 2)) m else enter n None m
  | None => m
  end.

Definition iret (m : machine) : machine :=
  let level := cpl m in
  let m1 := discard (set_eip (top m) m) in
  let m2 := discard (set_seg CS (top m1) m1) in
  let m3 := discard (set_eflags (top m2) m2) in
  if level <? cpl m3 then
    let esp := top m3 in
    let m4 := discard m3 in
    set_reg ESP esp (set_seg SS (top m4) m4)
  else m3.

Inductive instr : Type :=
| PushR (r : reg) | PushS (s : sreg) | PushI (v : Z) | PopR (r : reg) | PopS (s : sreg) | Pushal | Popal
| Load (disp : Z) (base dst : reg) | LoadAbs (a : Z) (dst : reg) | Store (src base : reg)
| MovR (src dst : reg) | MovI (v : Z) (dst : reg) | MovW (v : Z) (dst : reg) | MovSeg (src : reg) (dst : sreg)
| AddI (v : Z) (dst : reg) | OrI (v : Z) (dst : reg)
| FromCR (n : Z) (dst : reg) | ToCR (src : reg) (n : Z)
| Cli | Lgdt (a : Z) | Ljmp (sel a : Z) | Jmp (r : reg) | Call (target next : Z) | CallAbs (a next : Z) | Ret | Iret | Int (n next : Z).

Definition exec (i : instr) (m : machine) : machine :=
  match i with
  | PushR r => push (m_reg m r) m
  | PushS s => push (m_seg m s) m
  | PushI v => push v m
  | PopR r => set_reg r (top m) (discard m)
  | PopS s => set_seg s (top m) (discard m)
  | Pushal =>
      push (m_reg m EDI) (push (m_reg m ESI) (push (m_reg m EBP) (push (m_reg m ESP)
        (push (m_reg m EBX) (push (m_reg m EDX) (push (m_reg m ECX) (push (m_reg m EAX) m)))))))
  | Popal =>
      let m := set_reg EDI (top m) (discard m) in
      let m := set_reg ESI (top m) (discard m) in
      let m := set_reg EBP (top m) (discard m) in
      let m := discard m in
      let m := set_reg EBX (top m) (discard m) in
      let m := set_reg EDX (top m) (discard m) in
      let m := set_reg ECX (top m) (discard m) in
      set_reg EAX (top m) (discard m)
  | Load disp base dst => set_reg dst (load32 (m_mem m) (w32 (m_reg m base + disp))) m
  | LoadAbs a dst => set_reg dst (load32 (m_mem m) a) m
  | Store src base => set_memory (store32 (m_mem m) (m_reg m base) (m_reg m src)) m
  | MovR src dst => set_reg dst (m_reg m src) m
  | MovI v dst => set_reg dst v m
  | MovW v dst => set_reg dst (Z.lor (Z.land (m_reg m dst) 0xffff0000) (Z.land v 0xffff)) m
  | MovSeg src dst => set_seg dst (m_reg m src) m
  | AddI v dst => set_reg dst (m_reg m dst + v) m
  | OrI v dst => set_reg dst (Z.lor (m_reg m dst) v) m
  | FromCR n dst => set_reg dst (m_cr m n) m
  | ToCR src n => set_cr n (m_reg m src) m
  | Cli => set_eflags (Z.ldiff (m_eflags m) FL_IF) m
  | Lgdt a => set_gdtr a m
  | Ljmp sel a => set_eip a (set_seg CS sel m)
  | Jmp r => set_eip (m_reg m r) m
  | Call target next => set_eip target (push next m)
  | CallAbs a next => set_eip (load32 (m_mem m) a) (push next m)
  | Ret => discard (set_eip (top m) m)
  | Iret => iret m
  | Int n next => software_int n (set_eip next m)
  end.
Definition run (code : list instr) (m : machine) : machine := foldl (fun m i => exec i m) m code.
End Cpu.

(** ** The routines *)

(** swtch.S *)
Definition swtch_code : list instr :=
  [Load 4 ESP EAX; Load 8 ESP EDX;
   PushR EBP; PushR EBX; PushR ESI; PushR EDI;
   Store ESP EAX; MovR EDX ESP;
   PopR EDI; PopR ESI; PopR EBX; PopR EBP;
   Ret].

(** vectors.S: the processor pushes an error code for some exceptions, and the
    stubs push 0 for the others. *)
Definition has_err (n : Z) : bool := (n =? 8) || ((10 <=? n) && (n <=? 14)) || (n =? 17).
Definition vector (n : Z) : list instr :=
  (if has_err n then [] else [PushI 0]) ++ [PushI n].

(** trapasm.S *)
Definition alltraps (trap_addr next : Z) : list instr :=
  [PushS DS; PushS ES; PushS FS; PushS GS; Pushal;
   MovW (Z.shiftl (Z.of_nat SEG_KDATA) 3) EAX; MovSeg EAX DS; MovSeg EAX ES;
   PushR ESP; Call trap_addr next].
Definition trapret : list instr :=
  [Popal; PopS GS; PopS FS; PopS ES; PopS DS; AddI 8 ESP; Iret].
(** From the return of trap() on. *)
Definition after_trap : list instr := AddI 4 ESP :: trapret.

(** usys.S: the stubs, up to the [ret] that runs when the kernel returns to them,
    and the numbers of syscall.h they are for. *)
Definition SYSCALL (num next : Z) : list instr := [MovI num EAX; Int T_SYSCALL next].
Definition usys : list (string * Z) :=
  [("fork", 1); ("exit", 2); ("wait", 3); ("pipe", 4); ("read", 5); ("write", 16); ("close", 21); ("kill", 6);
   ("exec", 7); ("open", 15); ("mknod", 17); ("unlink", 18); ("fstat", 8); ("link", 19); ("mkdir", 20); ("chdir", 9);
   ("dup", 10); ("getpid", 11); ("sbrk", 12); ("sleep", 13); ("uptime", 14); ("printhugepde", 22);
   ("procpgdirinfo", 23); ("shugebrk", 24); ("setthp", 25); ("getthp", 26)]%string.

(** initcode.S: [exec(init, argv)], and the loop of [exit()]s after it. *)
Definition initcode_start (init argv next : Z) : list instr :=
  [PushI argv; PushI init; PushI 0] ++ SYSCALL 7 next.
Definition initcode_exit (next : Z) : list instr := SYSCALL 2 next.

(** entry.S *)
Definition CR0_PE : Z := 0x1.
Definition CR0_WP : Z := 0x10000.
Definition CR0_PG : Z := 0x80000000.
Definition CR4_PSE : Z := 0x10.
Definition entry (entrypgdir stack main : Z) : list instr :=
  [FromCR 4 EAX; OrI CR4_PSE EAX; ToCR EAX 4;
   MovI (V2P entrypgdir) EAX; ToCR EAX 3;
   FromCR 0 EAX; OrI (Z.lor CR0_PG CR0_WP) EAX; ToCR EAX 0;
   MovI (stack + KSTACKSIZE) ESP;
   MovI main EAX; Jmp EAX].

(** entryother.S, in 16-bit and in 32-bit code, up to the call of mpenter(), and
    the same parts of bootasm.S. *)
Definition real_to_protected (gdtdesc start32 : Z) : list instr :=
  [Lgdt gdtdesc; FromCR 0 EAX; OrI CR0_PE EAX; ToCR EAX 0; Ljmp (Z.shiftl (Z.of_nat SEG_KCODE) 3) start32].
Definition zero_segments : list instr := [Cli; MovW 0 EAX; MovSeg EAX DS; MovSeg EAX ES; MovSeg EAX SS].
Definition data_segments : list instr :=
  [MovW (Z.shiftl (Z.of_nat SEG_KDATA) 3) EAX; MovSeg EAX DS; MovSeg EAX ES; MovSeg EAX SS;
   MovW 0 EAX; MovSeg EAX FS; MovSeg EAX GS].
Definition entryother_start (gdtdesc start32 : Z) : list instr :=
  zero_segments ++ real_to_protected gdtdesc start32.
Definition entryother_start32 (start next : Z) : list instr :=
  data_segments ++
  [FromCR 4 EAX; OrI CR4_PSE EAX; ToCR EAX 4;
   LoadAbs (start - 12) EAX; ToCR EAX 3;
   FromCR 0 EAX; OrI (Z.lor (Z.lor CR0_PE CR0_PG) CR0_WP) EAX; ToCR EAX 0;
   LoadAbs (start - 4) ESP;
   CallAbs (start - 8) next].

(** bootasm.S: the address line A20, then protected mode and bootmain(). *)
Fixpoint wait_not_busy `{Hardware} (fuel : nat) : D unit :=
  match fuel with
  | O => nofuel
  | S f =>
      let! al := inb 0x64 in
      if negb (Z.land al 0x2 =? 0) then wait_not_busy f else ret tt
  end.
Definition seta20 `{Hardware} (fuel : nat) : D unit :=
  wait_not_busy fuel ;;
  outb 0x64 0xd1 ;;
  wait_not_busy fuel ;;
  outb 0x60 0xdf.
(** [seta20] runs between the two parts. *)
Definition bootasm_start (gdtdesc start32 : Z) : list instr * list instr :=
  (zero_segments, real_to_protected gdtdesc start32).
Definition bootasm_start32 (start bootmain next : Z) : list instr :=
  data_segments ++ [MovI start ESP; Call bootmain next].

(** ** Stacks *)

Definition others_kept (m m' : machine) : Prop :=
  (forall r, r <> ESP -> m_reg m' r = m_reg m r) /\ m_seg m' = m_seg m /\ m_eip m' = m_eip m /\ m_eflags m' = m_eflags m.

Definition pushes (vs : list Z) (m : machine) : machine := foldl (fun m v => push v m) m vs.

Lemma push_esp v m : 4 <= m_reg m ESP < 4294967296 -> m_reg (push v m) ESP = m_reg m ESP - 4.
Proof. intros H. cbn. apply w32_small. unfold u32. lia. Qed.
Lemma push_mem v m : 4 <= m_reg m ESP < 4294967296 -> m_mem (push v m) = store32 (m_mem m) (m_reg m ESP - 4) v.
Proof. intros H. cbn. rewrite w32_small by (unfold u32; lia). reflexivity. Qed.

(** How the parts of the state change. *)
Definition stack (m : machine) : mem * Z := (m_mem m, m_reg m ESP).
Lemma stack_set_eip v m : stack (set_eip v m) = stack m. Proof. reflexivity. Qed.
Lemma stack_set_seg r v m : stack (set_seg r v m) = stack m. Proof. reflexivity. Qed.
Lemma stack_set_eflags v m : stack (set_eflags v m) = stack m. Proof. reflexivity. Qed.
Lemma seg_push v m : m_seg (push v m) = m_seg m. Proof. reflexivity. Qed.
Lemma eip_push v m : m_eip (push v m) = m_eip m. Proof. reflexivity. Qed.
Lemma reg_push v m r : r <> ESP -> m_reg (push v m) r = m_reg m r.
Proof. intros H. cbn. apply decide_False, H. Qed.
Lemma reg_set_reg r v m x : m_reg (set_reg r v m) x = if decide (x = r) then w32 v else m_reg m x. Proof. reflexivity. Qed.
Lemma seg_set_reg r v m : m_seg (set_reg r v m) = m_seg m. Proof. reflexivity. Qed.
Lemma reg_set_seg r v m : m_reg (set_seg r v m) = m_reg m. Proof. reflexivity. Qed.
Lemma seg_set_seg r v m x : m_seg (set_seg r v m) x = if decide (x = r) then Z.land v 0xffff else m_seg m x. Proof. reflexivity. Qed.
Lemma reg_set_eip v m : m_reg (set_eip v m) = m_reg m. Proof. reflexivity. Qed.
Lemma seg_set_eip v m : m_seg (set_eip v m) = m_seg m. Proof. reflexivity. Qed.
Lemma eip_set_eip v m : m_eip (set_eip v m) = w32 v. Proof. reflexivity. Qed.
Lemma reg_set_eflags v m : m_reg (set_eflags v m) = m_reg m. Proof. reflexivity. Qed.
Lemma seg_set_eflags v m : m_seg (set_eflags v m) = m_seg m. Proof. reflexivity. Qed.
Create Rewrite HintDb asm.
#[local] Hint Rewrite stack_set_eip stack_set_seg stack_set_eflags seg_push eip_push reg_set_reg seg_set_reg reg_set_seg seg_set_seg
  reg_set_eip seg_set_eip eip_set_eip reg_set_eflags seg_set_eflags : asm.
#[local] Hint Rewrite reg_push using (assumption || discriminate) : asm.

Lemma pushes_others vs : forall m, others_kept m (pushes vs m).
Proof.
  induction vs as [|v vs IH]; intros m; [repeat split; auto|]. destruct (IH (push v m)) as (H1 & H2 & H3 & H4).
  cbn [pushes foldl]. fold (pushes vs (push v m)). unfold others_kept. rewrite H2, H3, H4. repeat split.
  intros r Hr. rewrite (H1 r Hr). cbn. rewrite decide_False by exact Hr. reflexivity.
Qed.

(** Pushes depend on the stack only. *)
Lemma stack_pushes vs : forall a b, stack a = stack b -> stack (pushes vs a) = stack (pushes vs b).
Proof.
  induction vs as [|v vs IH]; intros a b H; [exact H|]. cbn [pushes foldl]. apply IH. unfold stack in *. injection H as Hm He.
  cbn. rewrite Hm, He. reflexivity.
Qed.

Lemma stack_more l l' a m : stack a = stack (pushes l m) -> stack (pushes l' a) = stack (pushes (l ++ l') m).
Proof. intros H. unfold pushes at 2. rewrite foldl_app. apply stack_pushes, H. Qed.

Lemma pushes_ok vs : forall m, 4 * Z.of_nat (length vs) <= m_reg m ESP < 4294967296 ->
  let m' := pushes vs m in
  m_reg m' ESP = m_reg m ESP - 4 * Z.of_nat (length vs) /\
  (forall i v, vs !! i = Some v -> load32 (m_mem m') (m_reg m ESP - 4 * Z.of_nat (i + 1)) = w32 v) /\
  (forall a, m_reg m ESP <= a \/ a < m_reg m ESP - 4 * Z.of_nat (length vs) -> load8 (m_mem m') a = load8 (m_mem m) a).
Proof.
  induction vs as [|v vs IH]; intros m Hm; cbn [pushes foldl length] in *.
  - split; [lia|]. split; [intros i v Hi; rewrite lookup_nil in Hi; discriminate | auto].
  - pose proof (push_esp v m ltac:(lia)) as He. pose proof (push_mem v m ltac:(lia)) as Hmem.
    destruct (IH (push v m)) as (H1 & H6 & H7); [lia|]. rewrite He in *. fold (pushes vs (push v m)) in *.
    split; [lia|]. split.
    + intros [|i] w Hi; cbn in Hi.
      * injection Hi as <-. rewrite (load32_ext _ (m_mem (push v m)) _ (m_reg m ESP - 4));
          [rewrite Hmem; apply load32_store32_same|]. intros i Hi. rewrite H7 by lia. reflexivity.
      * rewrite <- (H6 i w Hi). f_equal. lia.
    + intros a Ha. rewrite H7, Hmem by lia. apply load8_store32_ne. lia.
Qed.

Lemma pop_ok r m e : r <> ESP -> m_reg m ESP = e -> 0 <= e -> e + 4 < 4294967296 ->
  let m' := set_reg r (top m) (discard m) in
  m_reg m' ESP = e + 4 /\ m_reg m' r = load32 (m_mem m) e /\ (forall x, x <> ESP -> x <> r -> m_reg m' x = m_reg m x) /\
  m_seg m' = m_seg m /\ m_mem m' = m_mem m.
Proof.
  intros Hr <- H0 H1 m'. subst m'. unfold discard. repeat rewrite !reg_set_reg. rewrite decide_False, !decide_True by congruence.
  rewrite (w32_small (m_reg m ESP + 4)) by (unfold u32; lia). split; [reflexivity|].
  split; [apply w32_small, load32_range|]. split; [|split; reflexivity].
  intros x H2 H3. rewrite !reg_set_reg, !decide_False by assumption. reflexivity.
Qed.
Lemma discard_ok m e : m_reg m ESP = e -> 0 <= e -> e + 4 < 4294967296 ->
  let m' := discard m in
  m_reg m' ESP = e + 4 /\ (forall x, x <> ESP -> m_reg m' x = m_reg m x) /\ m_seg m' = m_seg m /\ m_mem m' = m_mem m.
Proof.
  intros <- H0 H1 m'. subst m'. unfold discard. rewrite reg_set_reg, decide_True by reflexivity.
  rewrite (w32_small (m_reg m ESP + 4)) by (unfold u32; lia). split; [reflexivity|]. split; [|split; reflexivity].
  intros x H2. rewrite reg_set_reg, decide_False by assumption. reflexivity.
Qed.

(** Popping a list of registers; [None] is a word that is skipped. *)
Definition pop1 (m : machine) (o : option reg) : machine :=
  match o with Some r => set_reg r (top m) (discard m) | None => discard m end.
Definition pops (rs : list (option reg)) (m : machine) : machine := foldl pop1 m rs.

Lemma pop1_ok o m e : o <> Some ESP -> m_reg m ESP = e -> 0 <= e -> e + 4 < 4294967296 ->
  let m' := pop1 m o in
  m_reg m' ESP = e + 4 /\ (forall r, o = Some r -> m_reg m' r = load32 (m_mem m) e) /\
  (forall x, x <> ESP -> o <> Some x -> m_reg m' x = m_reg m x) /\
  m_seg m' = m_seg m /\ m_eip m' = m_eip m /\ m_eflags m' = m_eflags m /\ m_mem m' = m_mem m.
Proof.
  intros Ho He H0 H1 m'. subst m'. destruct o as [r|].
  - destruct (pop_ok r m e) as (A & B & C & D & E); [congruence | assumption..|]. cbn [pop1].
    split; [exact A|]. split; [intros x [= <-]; exact B|]. split; [intros x Hx Hn; apply C; congruence|]. auto.
  - destruct (discard_ok m e He H0 H1) as (A & B & C & D). cbn [pop1].
    split; [exact A|]. split; [discriminate|]. split; [auto|]. auto.
Qed.

Lemma pops_ok rs : forall m e, Some ESP ∉ rs -> NoDup rs -> m_reg m ESP = e -> 0 <= e -> e + 4 * Z.of_nat (length rs) < 4294967296 ->
  let m' := pops rs m in
  m_reg m' ESP = e + 4 * Z.of_nat (length rs) /\
  (forall i r, rs !! i = Some (Some r) -> m_reg m' r = load32 (m_mem m) (e + 4 * Z.of_nat i)) /\
  (forall x, x <> ESP -> Some x ∉ rs -> m_reg m' x = m_reg m x) /\
  m_seg m' = m_seg m /\ m_eip m' = m_eip m /\ m_eflags m' = m_eflags m /\ m_mem m' = m_mem m.
Proof.
  induction rs as [|o rs IH]; intros m e Hn Hd He H0 H1; cbn [pops foldl length] in *.
  - split; [lia|]. split; [intros i r Hi; rewrite lookup_nil in Hi; discriminate|]. auto 10.
  - apply not_elem_of_cons in Hn as [Ho Hn]. apply NoDup_cons in Hd as [Hno Hd].
    destruct (pop1_ok o m e) as (A & B & C & D & E & F & G); [congruence | assumption | assumption | lia |].
    destruct (IH (pop1 m o) (e + 4) Hn Hd A ltac:(lia) ltac:(lia)) as (A' & B' & C' & D' & E' & F' & G').
    fold (pops rs (pop1 m o)) in *. split; [lia|]. split; [|split; [|repeat split; congruence]].
    + intros [|i] r Hi; cbn in Hi.
      * injection Hi as ->. rewrite C'; [rewrite (B r eq_refl); f_equal; lia | congruence | exact Hno].
      * rewrite (B' i r Hi), G. f_equal. lia.
    + intros x Hx Hxn. apply not_elem_of_cons in Hxn as [H2 H3]. rewrite C' by assumption. apply C; congruence.
Qed.

Lemma movw_low x v : 0 <= v < 65536 -> Z.land (w32 (Z.lor (Z.land x 0xffff0000) (Z.land v 0xffff))) 0xffff = v.
Proof.
  intros Hv. change 0xffff with (Z.ones 16) at 2. rewrite Z.land_ones by lia. unfold w32.
  rewrite Z.mod_mod_divide by (exists 65536; reflexivity). rewrite <- Z.land_ones, Z.land_lor_distr_l, <- !Z.land_assoc by lia.
  change (Z.land 0xffff0000 (Z.ones 16)) with 0. change (Z.land 0xffff (Z.ones 16)) with (Z.ones 16).
  rewrite Z.land_0_r, Z.lor_0_l, Z.land_ones by lia. apply Z.mod_small. lia.
Qed.

Lemma stack_parts a b : stack a = stack b -> m_mem a = m_mem b /\ m_reg a ESP = m_reg b ESP.
Proof. intros H. injection H as H1 H2. auto. Qed.
Lemma stack_esp l a m e : stack a = stack (pushes l m) -> m_reg m ESP = e -> 4 * Z.of_nat (length l) <= e < 4294967296 ->
  m_reg a ESP = e - 4 * Z.of_nat (length l).
Proof. intros H <- He. rewrite (proj2 (stack_parts _ _ H)). apply pushes_ok, He. Qed.

(** ** The context switch *)

Lemma run_app idt esp0 ss0 a b m : run idt esp0 ss0 (a ++ b) m = run idt esp0 ss0 b (run idt esp0 ss0 a m).
Proof. apply foldl_app. Qed.

(** proc.h, [struct context]. *)
Record context : Type := mkContext { cx_edi : Z; cx_esi : Z; cx_ebx : Z; cx_ebp : Z; cx_eip : Z }.
Definition context_at (m : mem) (a : Z) : context :=
  mkContext (load32 m a) (load32 m (a + 4)) (load32 m (a + 8)) (load32 m (a + 12)) (load32 m (a + 16)).
(** The context of a function that [m] returns to. *)
Definition context_of (m : machine) (eip : Z) : context :=
  mkContext (m_reg m EDI) (m_reg m ESI) (m_reg m EBX) (m_reg m EBP) eip.

(** [swtch(old, new)] is about to run with stack pointer [e]: the return
    address and the arguments are on the stack. *)
Record calls_swtch (m : machine) (e eip old new : Z) : Prop := {
  cs_esp : m_reg m ESP = e;
  cs_range : 16 <= e /\ e + 12 < 4294967296 /\ new + 20 < 4294967296;
  cs_eip : load32 (m_mem m) e = eip;
  cs_old : load32 (m_mem m) (e + 4) = old;
  cs_new : load32 (m_mem m) (e + 8) = new;
  cs_regs : forall r, u32 (m_reg m r) }.

Lemma context_ext m m' a : (forall x, a <= x < a + 20 -> load8 m' x = load8 m x) -> context_at m' a = context_at m a.
Proof. intros H. unfold context_at. f_equal; apply load32_ext; intros i Hi; apply H; lia. Qed.

Section Swtch.
Context (idt : list gatedesc) (esp0 ss0 : Z).
#[local] Abbreviation steps := (run idt esp0 ss0).

Lemma run_saves m : steps [PushR EBP; PushR EBX; PushR ESI; PushR EDI] m = pushes [m_reg m EBP; m_reg m EBX; m_reg m ESI; m_reg m EDI] m.
Proof. reflexivity. Qed.
Lemma run_loads m : steps [PopR EDI; PopR ESI; PopR EBX; PopR EBP] m = pops [Some EDI; Some ESI; Some EBX; Some EBP] m.
Proof. reflexivity. Qed.
Lemma run_change m : let m' := steps [Store ESP EAX; MovR EDX ESP] m in
  m_mem m' = store32 (m_mem m) (m_reg m EAX) (m_reg m ESP) /\ m_reg m' ESP = w32 (m_reg m EDX).
Proof. split; reflexivity. Qed.
Lemma run_args m e : m_reg m ESP = e -> 0 <= e -> e + 12 < 4294967296 ->
  let m' := steps [Load 4 ESP EAX; Load 8 ESP EDX] m in
  stack m' = stack m /\ m_reg m' EAX = load32 (m_mem m) (e + 4) /\ m_reg m' EDX = load32 (m_mem m) (e + 8) /\
  (forall r, r <> EAX -> r <> EDX -> m_reg m' r = m_reg m r).
Proof.
  intros <- H0 H1 m'. split; [reflexivity|].
  assert (E1 : m_reg m' EAX = w32 (load32 (m_mem m) (w32 (m_reg m ESP + 4)))) by reflexivity.
  assert (E2 : m_reg m' EDX = w32 (load32 (m_mem m) (w32 (m_reg m ESP + 8)))) by reflexivity.
  rewrite E1, E2, !(w32_small (load32 _ _)), !w32_small by (apply load32_range || (unfold u32; lia)).
  split; [reflexivity|]. split; [reflexivity|]. intros r Ha Hd. subst m'. cbn. rewrite !decide_False by assumption. reflexivity.
Qed.

(** The saved context, at the new top of the old stack. *)
Lemma context_saved m e eip : m_reg m ESP = e -> 16 <= e -> e < 4294967296 -> load32 (m_mem m) e = eip -> (forall r, u32 (m_reg m r)) ->
  let m' := pushes [m_reg m EBP; m_reg m EBX; m_reg m ESI; m_reg m EDI] m in
  m_reg m' ESP = e - 16 /\ context_at (m_mem m') (e - 16) = context_of m eip /\
  (forall a, e <= a \/ a < e - 16 -> load8 (m_mem m') a = load8 (m_mem m) a).
Proof.
  intros He R1 R2 Hip Hr m'. destruct (pushes_ok [m_reg m EBP; m_reg m EBX; m_reg m ESI; m_reg m EDI] m) as (P1 & P2 & P3).
  { rewrite He. cbn. lia. }
  fold m' in P1, P2, P3. rewrite He in *. split; [exact P1|]. split; [|exact P3].
  assert (Hw : forall k v a, [m_reg m EBP; m_reg m EBX; m_reg m ESI; m_reg m EDI] !! k = Some v -> u32 v ->
            a = e - 4 * Z.of_nat (k + 1) -> load32 (m_mem m') a = v).
  { intros k v a Hk Hv ->. rewrite (P2 k v Hk). apply w32_small, Hv. }
  unfold context_at, context_of. f_equal.
  - apply (Hw 3%nat); [reflexivity | auto | lia].
  - apply (Hw 2%nat); [reflexivity | auto | lia].
  - apply (Hw 1%nat); [reflexivity | auto | lia].
  - apply (Hw 0%nat); [reflexivity | auto | lia].
  - rewrite <- Hip. apply load32_ext. intros i Hi. rewrite P3 by (cbn [length]; lia). f_equal. lia.
Qed.

Lemma swtch_ok m e eip old new : calls_swtch m e eip old new ->
  let m' := steps swtch_code m in
  exists saved, m_mem m' = store32 saved old (e - 16) /\ context_at saved (e - 16) = context_of m eip /\
  (forall a, e <= a \/ a < e - 16 -> load8 saved a = load8 (m_mem m) a) /\
  context_of m' (m_eip m') = context_at (m_mem m') new /\ m_reg m' ESP = new + 20.
Proof.
  intros [He (R1 & R2 & R3) Hip Ho Hnw Hr] m'.
  assert (U : 0 <= new) by (rewrite <- Hnw; apply load32_range).
  destruct (run_args m e He ltac:(lia) R2) as (A1 & A2 & A3 & A4).
  set (ml := steps [Load 4 ESP EAX; Load 8 ESP EDX] m) in *.
  set (mp := pushes [m_reg ml EBP; m_reg ml EBX; m_reg ml ESI; m_reg ml EDI] ml).
  set (mc := steps [Store ESP EAX; MovR EDX ESP] mp). set (mx := pops [Some EDI; Some ESI; Some EBX; Some EBP] mc).
  assert (E : m' = discard (set_eip (top mx) mx)).
  { subst m' mx mc mp ml. rewrite <- run_loads, <- run_saves, <- !run_app. reflexivity. }
  assert (Estk : stack mp = stack (pushes [m_reg m EBP; m_reg m EBX; m_reg m ESI; m_reg m EDI] m)).
  { subst mp. rewrite !A4 by discriminate. apply stack_pushes, A1. }
  destruct (pushes_others [m_reg ml EBP; m_reg ml EBX; m_reg ml ESI; m_reg ml EDI] ml) as (O1 & _). fold mp in O1.
  destruct (context_saved m e eip He R1 ltac:(lia) Hip Hr) as (S1 & S2 & S3).
  destruct (stack_parts _ _ Estk) as [Em Ee]. rewrite <- Em in S2, S3. rewrite <- Ee in S1.
  destruct (run_change mp) as [C1 C2]. fold mc in C1, C2. clearbody m' mp ml. clearbody mc.
  rewrite (O1 EAX), A2, Ho, S1 in C1 by discriminate.
  rewrite (O1 EDX), A3, Hnw, w32_small in C2 by (discriminate || (unfold u32; lia)).
  destruct (pops_ok [Some EDI; Some ESI; Some EBX; Some EBP] mc new) as (Q1 & Q2 & Q3 & Q4 & Q5 & Q6 & Q7);
    [apply (bool_decide_unpack _); vm_compute; exact I | apply (bool_decide_unpack _); vm_compute; exact I | exact C2 | exact U | cbn; lia |]. fold mx in Q1, Q2, Q3, Q4, Q5, Q6, Q7.
  exists (m_mem mp). clearbody mx. subst m'.
  assert (Hmm : m_mem (discard (set_eip (top mx) mx)) = m_mem mc) by exact Q7.
  destruct (discard_ok (set_eip (top mx) mx) (new + 16) Q1 ltac:(lia) ltac:(lia)) as (D1 & D2 & _). rewrite Hmm.
  split; [exact C1|]. split; [exact S2|]. split; [exact S3|]. split; [|rewrite D1; lia].
  unfold context_of, context_at. rewrite !D2 by discriminate. cbn [m_reg m_eip set_eip discard set_reg]. f_equal.
  - rewrite (Q2 0%nat EDI eq_refl). f_equal. lia.
  - apply (Q2 1%nat ESI eq_refl).
  - apply (Q2 2%nat EBX eq_refl).
  - apply (Q2 3%nat EBP eq_refl).
  - unfold top. rewrite Q1, Q7. apply w32_small, load32_range.
Qed.

#[local] Strategy opaque [run].

(** C17 (roundtrip; swtch.S).  A switch to another context and a later switch back
    resume the caller of the first as if the call had only returned.  The first
    call of [swtch(old, new)] leaves in [*old] the address of a context with the
    caller's registers and goes on as the context [new] says.  When another
    call, on another stack, is given that address, and the saved context has
    not been overwritten, the caller's saved registers and its stack pointer
    are as before, and it goes on at its return address. *)
Theorem swtch_roundtrip m e eip old new m2 e2 eip2 old2 :
  calls_swtch m e eip old new -> (old + 4 <= e - 16 \/ e + 4 <= old) ->
  let m1 := steps swtch_code m in
  calls_swtch m2 e2 eip2 old2 (e - 16) ->
  (forall a, e - 16 <= a < e + 4 -> load8 (m_mem m2) a = load8 (m_mem m1) a) ->
  (e2 <= e - 16 \/ e + 4 <= e2 - 16) -> (old2 + 4 <= e - 16 \/ e + 4 <= old2) ->
  let m3 := steps swtch_code m2 in
  (load32 (m_mem m1) old = e - 16 /\ context_of m1 (m_eip m1) = context_at (m_mem m1) new /\ m_reg m1 ESP = new + 20) /\
  (m_eip m3 = eip /\ m_reg m3 ESP = e + 4 /\ forall r, r ∈ [EBX; EBP; ESI; EDI] -> m_reg m3 r = m_reg m r).
Proof.
  intros H1 Hold m1 H2 Hkeep He2 Hold2 m3.
  destruct (swtch_ok m e eip old new H1) as (s1 & A1 & A2 & A3 & A4 & A5). fold m1 in A1, A4, A5.
  destruct (swtch_ok m2 e2 eip2 old2 (e - 16) H2) as (s2 & B1 & B2 & B3 & B4 & B5). fold m3 in B1, B4, B5.
  destruct H1 as [_ (R1 & R2 & R3) _ _ _ _]. clearbody m1 m3.
  split; [split; [|auto] |].
  - rewrite A1, load32_store32_same. apply w32_small. unfold u32. lia.
  - assert (Hc : context_at (m_mem m3) (e - 16) = context_of m eip).
    { rewrite <- A2. apply context_ext. intros x Hx. rewrite B1, load8_store32_ne, B3, Hkeep, A1, load8_store32_ne by lia. reflexivity. }
    rewrite Hc in B4. injection B4 as C1 C2 C3 C4 C5. split; [exact C5|]. split; [lia|].
    intros r Hr. rewrite !elem_of_cons, elem_of_nil in Hr. destruct Hr as [-> | [-> | [-> | [-> | []]]]]; assumption.
Qed.
End Swtch.

(** x86.h, [struct trapframe]: the frame at [a]. *)
Definition half (m : mem) (a : Z) : Z := Z.land (load32 m a) 0xffff.
Definition frame_at (m : mem) (a : Z) : trapframe :=
  mkTrapframe (load32 m a) (load32 m (a + 4)) (load32 m (a + 8)) (load32 m (a + 12)) (load32 m (a + 16)) (load32 m (a + 20))
    (load32 m (a + 24)) (load32 m (a + 28)) (half m (a + 32)) (half m (a + 36)) (half m (a + 40)) (half m (a + 44))
    (load32 m (a + 48)) (load32 m (a + 52)) (load32 m (a + 56)) (half m (a + 60)) (load32 m (a + 64)) (load32 m (a + 68))
    (half m (a + 72)).

(** The registers have their widths. *)
Record sound (m : machine) : Prop := {
  so_reg : forall r, u32 (m_reg m r);
  so_seg : forall r, 0 <= m_seg m r < 65536;
  so_eip : u32 (m_eip m);
  so_eflags : u32 (m_eflags m) }.

(** The frame of a program that runs as [m] when trap [n] comes. *)
Definition frame_of (m : machine) (oesp n err : Z) : trapframe :=
  mkTrapframe (m_reg m EDI) (m_reg m ESI) (m_reg m EBP) oesp (m_reg m EBX) (m_reg m EDX) (m_reg m ECX) (m_reg m EAX)
    (m_seg m GS) (m_seg m FS) (m_seg m ES) (m_seg m DS) n err (m_eip m) (m_seg m CS) (m_eflags m) (m_reg m ESP) (m_seg m SS).


Section Traps.
Context (vectors : Z -> Z) (esp0 ss0 trap_addr next : Z) (Hesp0 : 84 <= esp0 < 4294967296).
#[local] Abbreviation idt := (tvinit_idt vectors).
#[local] Abbreviation steps := (run idt esp0 ss0).

Lemma idt_gate n : 0 <= n < 256 -> exists g, idt !! Z.to_nat n = Some g /\ g_cs g = 8 /\
  g_dpl g = (if n =? T_SYSCALL then 3 else 0) /\ g_type g = (if n =? T_SYSCALL then STS_TG32 else STS_IG32) /\
  g_off_15_0 g + 65536 * g_off_31_16 g = w32 (vectors n).
Proof.
  intros Hn. destruct (lookup_lt_is_Some_2 idt (Z.to_nat n)) as [g Hg].
  { unfold tvinit_idt. rewrite length_insert, length_map, length_seqZ. lia. }
  exists g. split; [exact Hg|]. apply tvinit_idt_gate in Hg as [_ ->]. rewrite Z2Nat.id by lia.
  rewrite SETGATE_offset. replace (bool_decide (Z.to_nat n = 64%nat)) with (n =? T_SYSCALL)
    by (case_bool_decide; unfold T_SYSCALL; lia). destruct (n =? T_SYSCALL); auto.
Qed.

(** The words on the kernel stack when trap() starts, after a trap without an
    error code of a user program: those of the processor, of the stub and of
    [alltraps]. *)
Definition pushed (m : machine) (n : Z) : list Z :=
  [m_seg m SS; m_reg m ESP; m_eflags m; m_seg m CS; m_eip m; 0; n; m_seg m DS; m_seg m ES; m_seg m FS; m_seg m GS;
   m_reg m EAX; m_reg m ECX; m_reg m EDX; m_reg m EBX; esp0 - 44; m_reg m EBP; m_reg m ESI; m_reg m EDI; esp0 - 76; next].

Lemma enter_user n m g : idt !! Z.to_nat n = Some g -> g_cs g = 8 -> cpl m = 3 ->
  let m' := enter idt esp0 ss0 n None m in
  stack m' = stack (pushes [m_seg m SS; m_reg m ESP; m_eflags m; m_seg m CS; m_eip m] (set_reg ESP esp0 (set_seg SS ss0 m))) /\
  (forall r, r <> ESP -> m_reg m' r = m_reg m r) /\ (forall r, r <> CS -> r <> SS -> m_seg m' r = m_seg m r) /\ m_seg m' CS = 8.
Proof.
  intros Hg Hcs Hc. unfold enter. rewrite Hg, Hcs, Hc. change (Z.land 8 3 <? 3) with true. cbv iota.
  destruct (g_type g =? STS_IG32); autorewrite with asm; (split; [reflexivity|]); split.
  1, 3: intros r Hr; autorewrite with asm; rewrite !decide_False by exact Hr; reflexivity.
  all: split; [intros r H1 H2; autorewrite with asm; rewrite !decide_False by assumption; reflexivity | reflexivity].
Qed.

Lemma run_vector n m : has_err n = false -> steps (vector n) m = pushes [0; n] m.
Proof. intros He. unfold vector. rewrite He. reflexivity. Qed.

(** [alltraps], up to the call of trap(). *)
Lemma run_segs m : steps [PushS DS; PushS ES; PushS FS; PushS GS] m = pushes [m_seg m DS; m_seg m ES; m_seg m FS; m_seg m GS] m.
Proof. reflexivity. Qed.
Lemma run_pushal m : steps [Pushal] m =
  pushes [m_reg m EAX; m_reg m ECX; m_reg m EDX; m_reg m EBX; m_reg m ESP; m_reg m EBP; m_reg m ESI; m_reg m EDI] m.
Proof. reflexivity. Qed.
Lemma run_call m :
  let m' := steps [MovW (Z.shiftl (Z.of_nat SEG_KDATA) 3) EAX; MovSeg EAX DS; MovSeg EAX ES; PushR ESP; Call trap_addr next] m in
  stack m' = stack (pushes [m_reg m ESP; next] m) /\ m_seg m' DS = 16 /\ m_seg m' ES = 16 /\
  m_seg m' CS = m_seg m CS /\ m_eip m' = w32 trap_addr.
Proof.
  split; [reflexivity|]. split; [exact (movw_low (m_reg m EAX) 16 ltac:(lia))|].
  split; [exact (movw_low (m_reg m EAX) 16 ltac:(lia))|]. split; reflexivity.
Qed.

(** The stack when trap() starts, and the segments it runs with. *)
Lemma entry_stack n m : 0 <= n < 256 -> has_err n = false -> cpl m = 3 ->
  let m1 := steps (vector n ++ alltraps trap_addr next) (enter idt esp0 ss0 n None m) in
  stack m1 = stack (pushes (pushed m n) (set_reg ESP esp0 (set_seg SS ss0 m))) /\
  m_seg m1 CS = 8 /\ m_seg m1 DS = 16 /\ m_seg m1 ES = 16 /\ m_eip m1 = w32 trap_addr.
Proof.
  intros Hn He Hc m1. destruct (idt_gate n Hn) as (g & Hg & Hcs & _).
  set (m0 := set_reg ESP esp0 (set_seg SS ss0 m)).
  assert (H0 : m_reg m0 ESP = esp0) by (cbn; apply w32_small; unfold u32; lia).
  destruct (enter_user n m g Hg Hcs Hc) as (Est & Hr & Hsg & Hcs1).
  set (me := enter idt esp0 ss0 n None m) in *. set (mv := pushes [0; n] me).
  set (ms := pushes [m_seg mv DS; m_seg mv ES; m_seg mv FS; m_seg mv GS] mv).
  set (mq := pushes [m_reg ms EAX; m_reg ms ECX; m_reg ms EDX; m_reg ms EBX; m_reg ms ESP; m_reg ms EBP; m_reg ms ESI; m_reg ms EDI] ms).
  assert (E1 : m1 = steps [MovW (Z.shiftl (Z.of_nat SEG_KDATA) 3) EAX; MovSeg EAX DS; MovSeg EAX ES; PushR ESP; Call trap_addr next] mq).
  { subst m1 mq ms mv. rewrite <- run_pushal, <- run_segs, run_app, run_vector by exact He. rewrite <- !run_app. reflexivity. }
  destruct (run_call mq) as (Est1 & Hds & Hes & Hcs2 & Hip). rewrite <- E1 in *.
  destruct (pushes_others [0; n] me) as (Hr1 & Hs1 & _). fold mv in Hr1, Hs1.
  destruct (pushes_others [m_seg mv DS; m_seg mv ES; m_seg mv FS; m_seg mv GS] mv) as (Hr2 & Hs2 & _). fold ms in Hr2, Hs2.
  assert (Hs3 : m_seg mq = m_seg ms) by apply pushes_others.
  assert (Estv := stack_more _ [0; n] me m0 Est). fold mv in Estv.
  assert (Ests := stack_more _ [m_seg mv DS; m_seg mv ES; m_seg mv FS; m_seg mv GS] mv m0 Estv). fold ms in Ests.
  assert (Estq := stack_more _ _ ms m0 Ests : stack mq = _).
  assert (Est2 := stack_more _ [m_reg mq ESP; next] mq m0 Estq).
  assert (Ees := stack_esp _ _ _ _ Ests H0 ltac:(clear -Hesp0; cbn; lia) : m_reg ms ESP = esp0 - 44).
  assert (Eeq := stack_esp _ _ _ _ Estq H0 ltac:(clear -Hesp0; cbn; lia) : m_reg mq ESP = esp0 - 76).
  rewrite Est1, Est2, Ees, Eeq, Hs1, !Hsg, !Hr2, !Hr1, !Hr by discriminate.
  split; [reflexivity|]. rewrite Hcs2, Hs3, Hs2, Hs1. auto.
Qed.

(** Finds which of the words a field of the frame is. *)
#[local] Ltac pushed_word Hw Hh k :=
  first [apply (Hw k); [reflexivity | solve [auto | unfold u32; lia] | lia] | apply (Hh k); [reflexivity | auto | lia]
        | let k' := constr:(S k) in lazymatch eval compute in k' with 19%nat => fail 1 | ?j => pushed_word Hw Hh j end].

(** What trap() finds: the return address, a pointer to the frame, and in the
    frame the registers of the interrupted program. *)
Lemma trap_entry n m : 0 <= n < 256 -> has_err n = false -> cpl m = 3 -> sound m ->
  let m1 := steps (vector n ++ alltraps trap_addr next) (enter idt esp0 ss0 n None m) in
  m_reg m1 ESP = esp0 - 84 /\ load32 (m_mem m1) (esp0 - 84) = w32 next /\ load32 (m_mem m1) (esp0 - 80) = esp0 - 76 /\
  frame_at (m_mem m1) (esp0 - 76) = frame_of m (esp0 - 44) n 0 /\
  m_seg m1 CS = 8 /\ m_seg m1 DS = 16 /\ m_seg m1 ES = 16 /\ m_eip m1 = w32 trap_addr /\
  (forall a, esp0 <= a -> load8 (m_mem m1) a = load8 (m_mem m) a).
Proof.
  intros Hn He Hc [S1 S2 S3 S4] m1. destruct (entry_stack n m Hn He Hc) as (Hst & Hcs & Hds & Hes & Hip). fold m1 in Hst, Hcs, Hds, Hes, Hip.
  set (m0 := set_reg ESP esp0 (set_seg SS ss0 m)) in Hst.
  assert (H0 : m_reg m0 ESP = esp0) by (cbn; apply w32_small; unfold u32; lia).
  destruct (pushes_ok (pushed m n) m0 ltac:(rewrite H0; cbn; lia)) as (P1 & P2 & P3). rewrite H0 in P1, P2, P3.
  destruct (stack_parts _ _ Hst) as [Hmem Hesp]. rewrite <- Hmem in P2, P3. rewrite <- Hesp in P1. clearbody m1. clear Hmem Hesp Hst.
  assert (Hw : forall k v a, pushed m n !! k = Some v -> u32 v -> a = esp0 - 4 * Z.of_nat (k + 1) -> load32 (m_mem m1) a = v).
  { intros k v a Hk Hv ->. rewrite (P2 k v Hk). apply w32_small, Hv. }
  assert (Hh : forall k v a, pushed m n !! k = Some v -> 0 <= v < 65536 -> a = esp0 - 4 * Z.of_nat (k + 1) -> half (m_mem m1) a = v).
  { intros k v a Hk Hv Ha. unfold half. rewrite (Hw k v a Hk) by (unfold u32; lia). change 0xffff with (Z.ones 16).
    rewrite Z.land_ones by lia. apply Z.mod_small. lia. }
  assert (Hn32 : u32 n) by (unfold u32; lia). assert (He32 : u32 (esp0 - 44)) by (unfold u32; lia).
  split; [rewrite P1; reflexivity|]. split; [exact (P2 20%nat next eq_refl)|].
  split; [apply (Hw 19%nat (esp0 - 76) _ eq_refl); unfold u32; lia|]. split; [|split_and!; auto; intros a Ha; apply P3; lia].
  clear P1 P2 P3. unfold frame_at, frame_of. f_equal; pushed_word Hw Hh 0%nat.
Qed.

Lemma run_popal m : steps [Popal] m = pops [Some EDI; Some ESI; Some EBP; None; Some EBX; Some EDX; Some ECX; Some EAX] m.
Proof. unfold run, pops. cbn [foldl exec pop1]. reflexivity. Qed.

Lemma popseg_ok r m e : m_reg m ESP = e -> 0 <= e -> e + 4 < 4294967296 ->
  let m' := steps [PopS r] m in
  m_reg m' ESP = e + 4 /\ (forall x, x <> ESP -> m_reg m' x = m_reg m x) /\ m_seg m' r = half (m_mem m) e /\
  (forall x, x <> r -> m_seg m' x = m_seg m x) /\ m_mem m' = m_mem m.
Proof.
  intros He H0 H1 m'. destruct (discard_ok m e He H0 H1) as (D1 & D2 & D3 & D4).
  assert (E : m' = set_seg r (top m) (discard m)) by (subst m'; unfold run; reflexivity). clearbody m'. subst m'.
  rewrite reg_set_seg. split; [exact D1|]. split; [exact D2|]. unfold top. rewrite He, seg_set_seg, decide_True by reflexivity.
  split; [reflexivity|]. split; [|exact D4]. intros x Hx. rewrite seg_set_seg, decide_False, D3 by exact Hx. reflexivity.
Qed.

Lemma run_popsegs m e : m_reg m ESP = e -> 0 <= e -> e + 16 < 4294967296 ->
  let m' := steps [PopS GS; PopS FS; PopS ES; PopS DS] m in
  m_reg m' ESP = e + 16 /\ (forall x, x <> ESP -> m_reg m' x = m_reg m x) /\
  (m_seg m' GS = half (m_mem m) e /\ m_seg m' FS = half (m_mem m) (e + 4) /\ m_seg m' ES = half (m_mem m) (e + 8) /\
   m_seg m' DS = half (m_mem m) (e + 12) /\ m_seg m' CS = m_seg m CS) /\ m_mem m' = m_mem m.
Proof.
  intros He H0 H1 m'.
  assert (E : m' = steps [PopS DS] (steps [PopS ES] (steps [PopS FS] (steps [PopS GS] m)))) by (rewrite <- !run_app; reflexivity).
  clearbody m'. subst m'.
  destruct (popseg_ok GS m e He H0 ltac:(lia)) as (A1 & A2 & A3 & A4 & A5). set (m1 := steps [PopS GS] m) in *. clearbody m1.
  destruct (popseg_ok FS m1 (e + 4) A1 ltac:(lia) ltac:(lia)) as (B1 & B2 & B3 & B4 & B5). set (m2 := steps [PopS FS] m1) in *. clearbody m2.
  destruct (popseg_ok ES m2 (e + 4 + 4) B1 ltac:(lia) ltac:(lia)) as (C1 & C2 & C3 & C4 & C5). set (m3 := steps [PopS ES] m2) in *. clearbody m3.
  destruct (popseg_ok DS m3 (e + 4 + 4 + 4) C1 ltac:(lia) ltac:(lia)) as (D1 & D2 & D3 & D4 & D5). set (m4 := steps [PopS DS] m3) in *. clearbody m4.
  replace (e + 8) with (e + 4 + 4) by lia. replace (e + 12) with (e + 4 + 4 + 4) by lia.
  split; [lia|]. split; [intros x Hx; rewrite D2, C2, B2, A2 by exact Hx; reflexivity|].
  split; [|congruence]. rewrite D3, (D4 GS), (D4 FS), (D4 ES), (D4 CS), C3, (C4 GS), (C4 FS), (C4 CS), B3, (B4 GS), (B4 CS), A3, (A4 CS) by discriminate.
  repeat split; congruence.
Qed.

Lemma iret_user m e : m_reg m ESP = e -> 0 <= e -> e + 20 < 4294967296 -> cpl m = 0 -> Z.land (half (m_mem m) (e + 4)) 3 = 3 ->
  let m' := iret m in
  m_eip m' = load32 (m_mem m) e /\ m_seg m' CS = half (m_mem m) (e + 4) /\ m_eflags m' = load32 (m_mem m) (e + 8) /\
  m_reg m' ESP = load32 (m_mem m) (e + 12) /\ m_seg m' SS = half (m_mem m) (e + 16) /\
  (forall x, x <> ESP -> m_reg m' x = m_reg m x) /\ (forall x, x <> CS -> x <> SS -> m_seg m' x = m_seg m x) /\ m_mem m' = m_mem m.
Proof.
  intros He H0 H1 Hc Hu. unfold iret. rewrite Hc.
  destruct (discard_ok (set_eip (top m) m) e He H0 ltac:(lia)) as (A1 & A2 & A3 & A4).
  assert (A5 : m_eip (discard (set_eip (top m) m)) = load32 (m_mem m) e) by (unfold top; rewrite He; exact (w32_small _ (load32_range _ _))).
  set (m1 := discard (set_eip (top m) m)) in *. clearbody m1.
  destruct (discard_ok (set_seg CS (top m1) m1) (e + 4) A1 ltac:(lia) ltac:(lia)) as (B1 & B2 & B3 & B4).
  assert (B5 : m_eip (discard (set_seg CS (top m1) m1)) = m_eip m1) by reflexivity.
  assert (B6 : m_seg (discard (set_seg CS (top m1) m1)) CS = half (m_mem m1) (e + 4)) by (rewrite B3, seg_set_seg; unfold top; rewrite A1; reflexivity).
  assert (B7 : forall x, x <> CS -> m_seg (discard (set_seg CS (top m1) m1)) x = m_seg m1 x)
    by (intros x Hx; rewrite B3, seg_set_seg, decide_False by exact Hx; reflexivity).
  set (m2 := discard (set_seg CS (top m1) m1)) in *. clearbody m2.
  destruct (discard_ok (set_eflags (top m2) m2) (e + 4 + 4) B1 ltac:(lia) ltac:(lia)) as (C1 & C2 & C3 & C4).
  assert (C5 : m_eip (discard (set_eflags (top m2) m2)) = m_eip m2) by reflexivity.
  assert (C6 : m_eflags (discard (set_eflags (top m2) m2)) = load32 (m_mem m2) (e + 8))
    by (unfold top; rewrite B1, <- Z.add_assoc; exact (w32_small _ (load32_range _ _))).
  set (m3 := discard (set_eflags (top m2) m2)) in *. clearbody m3.
  cbn [m_seg m_reg m_mem set_eip set_seg set_eflags] in *.
  assert (Hm : m_mem m3 = m_mem m) by congruence. assert (Hm1 : m_mem m1 = m_mem m) by congruence.
  assert (Hm2 : m_mem m2 = m_mem m) by congruence. rewrite Hm1 in B6. rewrite Hm2 in C6.
  assert (Hl : cpl m3 = 3) by (unfold cpl; rewrite C3, B6; exact Hu). rewrite Hl. change (0 <? 3) with true. cbv iota.
  destruct (discard_ok m3 (e + 4 + 4 + 4) C1 ltac:(lia) ltac:(lia)) as (D1 & D2 & D3 & D4).
  assert (D5 : m_eip (discard m3) = m_eip m3) by reflexivity. assert (D6 : m_eflags (discard m3) = m_eflags m3) by reflexivity.
  set (m4 := discard m3) in *. clearbody m4. unfold top. rewrite C1, D1, D4, Hm.
  replace (e + 12) with (e + 4 + 4 + 4) by lia. replace (e + 16) with (e + 4 + 4 + 4 + 4) by lia.
  split; [cbn [m_eip set_reg set_seg]; congruence|].
  split; [rewrite seg_set_reg, seg_set_seg, decide_False, D3, C3 by discriminate; exact B6|].
  split; [cbn [m_eflags set_reg set_seg]; congruence|].
  split; [rewrite reg_set_reg, decide_True by reflexivity; apply w32_small, load32_range|].
  split; [rewrite seg_set_reg, seg_set_seg, decide_True by reflexivity; reflexivity|].
  split; [intros x Hx; rewrite reg_set_reg, decide_False, reg_set_seg, D2, C2, B2, A2 by exact Hx; reflexivity|].
  split; [intros x H2 H3; rewrite seg_set_reg, seg_set_seg, decide_False, D3, C3, B7, A3 by assumption; reflexivity|].
  cbn [m_mem set_reg set_seg]. congruence.
Qed.

(** [trapret] gives a user program the registers of the frame. *)
Lemma run_trapret m e : m_reg m ESP = e -> 0 <= e -> e + 76 < 4294967296 -> cpl m = 0 ->
  let tf := frame_at (m_mem m) e in Z.land (tf_cs tf) 3 = 3 ->
  let m' := steps trapret m in
  frame_of m' (tf_oesp tf) (tf_trapno tf) (tf_err tf) = tf /\ m_mem m' = m_mem m.
Proof.
  intros He H0 H1 Hc tf Hcs m'.
  destruct (pops_ok [Some EDI; Some ESI; Some EBP; None; Some EBX; Some EDX; Some ECX; Some EAX] m e) as (Q1 & Q2 & _ & Q4 & _ & _ & Q7);
    [apply (bool_decide_unpack _); vm_compute; exact I | apply (bool_decide_unpack _); vm_compute; exact I | exact He | exact H0 | cbn; lia |].
  assert (E : m' = iret (steps [AddI 8 ESP] (steps [PopS GS; PopS FS; PopS ES; PopS DS] (steps [Popal] m))))
    by (subst m'; rewrite <- !run_app; unfold run; reflexivity).
  clearbody m'. subst m'. rewrite run_popal. set (mp := pops _ m) in *. clearbody mp.
  destruct (run_popsegs mp (e + 32) Q1 ltac:(lia) ltac:(lia)) as (A1 & A2 & (A3 & A4 & A5 & A6 & A7) & A8).
  set (mg := steps _ mp) in *. clearbody mg.
  assert (B1 : m_reg (steps [AddI 8 ESP] mg) ESP = e + 56)
    by (unfold run; cbn [foldl exec]; rewrite reg_set_reg, decide_True, A1, w32_small by (reflexivity || (unfold u32; lia)); lia).
  assert (B2 : forall x, x <> ESP -> m_reg (steps [AddI 8 ESP] mg) x = m_reg mg x)
    by (intros x Hx; unfold run; cbn [foldl exec]; rewrite reg_set_reg, decide_False by exact Hx; reflexivity).
  assert (B3 : m_seg (steps [AddI 8 ESP] mg) = m_seg mg) by (unfold run; reflexivity).
  assert (B4 : m_mem (steps [AddI 8 ESP] mg) = m_mem mg) by (unfold run; reflexivity).
  set (ma := steps _ mg) in *. clearbody ma.
  assert (Hm : m_mem ma = m_mem m) by congruence.
  destruct (iret_user ma (e + 56) B1 ltac:(lia) ltac:(lia)) as (C1 & C2 & C3 & C4 & C5 & C6 & C7 & C8).
  { unfold cpl in *. rewrite B3, A7, Q4. exact Hc. }
  { rewrite Hm, <- Z.add_assoc. exact Hcs. }
  set (m' := iret ma) in *. clearbody m'. split; [|congruence].
  rewrite Hm, <- ?Z.add_assoc in C1, C2, C3, C4, C5. rewrite Q7, <- ?Z.add_assoc in A3, A4, A5, A6.
  unfold frame_of. rewrite !C6, !B2, !A2, !C7, !B3 by discriminate.
  rewrite (Q2 0%nat EDI eq_refl), (Q2 1%nat ESI eq_refl), (Q2 2%nat EBP eq_refl), (Q2 4%nat EBX eq_refl),
    (Q2 5%nat EDX eq_refl), (Q2 6%nat ECX eq_refl), (Q2 7%nat EAX eq_refl).
  rewrite C1, C2, C3, C4, C5, A3, A4, A5, A6. subst tf. unfold frame_at. cbn [tf_oesp tf_trapno tf_err]. f_equal; f_equal; lia.
Qed.

(** The program at the instruction after its [int]. *)
Definition at_int (num after : Z) (m : machine) : machine := set_eip after (set_reg EAX num m).

Lemma run_syscall num after m : cpl m = 3 -> steps (SYSCALL num after) m = enter idt esp0 ss0 T_SYSCALL None (at_int num after m).
Proof.
  intros Hc. assert (E : steps (SYSCALL num after) m = software_int idt esp0 ss0 T_SYSCALL (at_int num after m)) by (unfold run; reflexivity).
  rewrite E. unfold software_int. destruct (idt_gate T_SYSCALL) as (g & Hg & _ & Hd & _); [unfold T_SYSCALL; lia|].
  rewrite Hg, Hd. change (cpl (at_int num after m)) with (cpl m). rewrite Hc. reflexivity.
Qed.

Lemma at_int_sound num after m : sound m -> sound (at_int num after m).
Proof.
  intros [S1 S2 S3 S4]. split; [|exact S2 | apply w32_range | exact S4].
  intros r. unfold at_int. rewrite reg_set_eip, reg_set_reg. destruct (decide (r = EAX)); [apply w32_range | apply S1].
Qed.

Lemma run_ret m : let m' := steps [Ret] m in
  m_eip m' = load32 (m_mem m) (m_reg m ESP) /\ m_reg m' ESP = w32 (m_reg m ESP + 4) /\
  (forall x, x <> ESP -> m_reg m' x = m_reg m x) /\ m_seg m' = m_seg m /\ m_eflags m' = m_eflags m.
Proof.
  assert (E : steps [Ret] m = discard (set_eip (top m) m)) by (unfold run; reflexivity). cbv zeta. rewrite E. unfold discard, top.
  split; [exact (w32_small _ (load32_range _ _))|]. split; [reflexivity|].
  split; [|split; reflexivity]. intros x Hx. rewrite reg_set_reg, decide_False by exact Hx. reflexivity.
Qed.

Lemma frame_of_inj a b o n e o' n' e' r : frame_of a o n e = set_tf_eax r (frame_of b o' n' e') ->
  m_reg a EAX = r /\ (forall x, x <> EAX -> m_reg a x = m_reg b x) /\ (forall x, m_seg a x = m_seg b x) /\
  m_eip a = m_eip b /\ m_eflags a = m_eflags b.
Proof.
  intros H. injection H as H1 H2 H3 H4 H5 H6 H7 H8 H9 H10 H11 H12 H13 H14 H15 H16 H17 H18 H19.
  split; [assumption|]. split; [intros [] Hx; congruence|]. split; [intros []; assumption | auto].
Qed.

(** C16 (roundtrip; usys.S, vectors.S, trapasm.S).  A system call of a user
    program.  The stub, the interrupt gate and the entry code start trap() on the
    kernel stack, in the kernel's segments, with a pointer to a frame that holds
    all registers of the program, the number of the call in eax and T_SYSCALL as
    the trap.  When trap() returns to the entry code and has changed only eax in
    the frame, the program goes on at the return address of the stub with
    that value in eax, every other register and every segment as before the
    call, and its stack pointer after the return address. *)
Theorem system_call_returns num after m :
  cpl m = 3 -> sound m ->
  let m1 := steps (vector T_SYSCALL ++ alltraps trap_addr next) (steps (SYSCALL num after) m) in
  let tf := frame_of (at_int num after m) (esp0 - 44) T_SYSCALL 0 in
  (m_eip m1 = w32 trap_addr /\ m_seg m1 CS = 8 /\ m_seg m1 DS = 16 /\ m_seg m1 ES = 16 /\
   m_reg m1 ESP = esp0 - 84 /\ load32 (m_mem m1) (esp0 - 84) = w32 next /\ load32 (m_mem m1) (esp0 - 80) = esp0 - 76 /\
   frame_at (m_mem m1) (esp0 - 76) = tf /\ tf_eax tf = w32 num /\ tf_esp tf = m_reg m ESP) /\
  forall m2 r, m_reg m2 ESP = esp0 - 80 -> cpl m2 = 0 -> frame_at (m_mem m2) (esp0 - 76) = set_tf_eax r tf ->
  let m3 := steps [Ret] (steps after_trap m2) in
  m_eip (steps after_trap m2) = w32 after /\ m_eip m3 = load32 (m_mem m2) (m_reg m ESP) /\ m_reg m3 EAX = r /\ m_reg m3 ESP = w32 (m_reg m ESP + 4) /\
  (forall x, x <> EAX -> x <> ESP -> m_reg m3 x = m_reg m x) /\ (forall x, m_seg m3 x = m_seg m x) /\ m_eflags m3 = m_eflags m.
Proof.
  intros Hc Hs m1 tf. split.
  - destruct (trap_entry T_SYSCALL (at_int num after m)) as (A1 & A2 & A3 & A4 & A5 & A6 & A7 & A8 & _);
      [unfold T_SYSCALL; lia | reflexivity | exact Hc | apply at_int_sound, Hs |].
    rewrite <- run_syscall in A1, A2, A3, A4, A5, A6, A7, A8 by exact Hc. auto 15.
  - intros m2 r He Hk Hf m3.
    assert (B1 : m_reg (steps [AddI 4 ESP] m2) ESP = esp0 - 76)
      by (unfold run; cbn [foldl exec]; rewrite reg_set_reg, decide_True, He, w32_small by (reflexivity || (unfold u32; lia)); lia).
    assert (B2 : m_seg (steps [AddI 4 ESP] m2) = m_seg m2) by (unfold run; reflexivity).
    assert (B3 : m_mem (steps [AddI 4 ESP] m2) = m_mem m2) by (unfold run; reflexivity).
    assert (E : steps after_trap m2 = steps trapret (steps [AddI 4 ESP] m2)) by (rewrite <- !run_app; unfold run; reflexivity).
    subst m3. rewrite E. clear E. set (ma := steps [AddI 4 ESP] m2) in *. clearbody ma.
    destruct (run_trapret ma (esp0 - 76) B1 ltac:(lia) ltac:(lia)) as (C1 & C2).
    { unfold cpl in *. rewrite B2. exact Hk. }
    { rewrite B3, Hf. exact Hc. }
    set (mb := steps trapret ma) in *. clearbody mb. rewrite B3, Hf in C1. rewrite B3 in C2.
    destruct (run_ret mb) as (R1 & R2 & R3 & R4 & R5). set (m3 := steps [Ret] mb) in *. clearbody m3.
    apply frame_of_inj in C1 as (D1 & D2 & D3 & D4 & D5).
    assert (D6 : forall x, x <> EAX -> m_reg mb x = m_reg m x).
    { intros x Hx. rewrite (D2 x Hx). unfold at_int. rewrite reg_set_eip, reg_set_reg, decide_False by exact Hx. reflexivity. }
    rewrite R1, R2, R4, R5, (R3 EAX), (D6 ESP), C2, D5 by discriminate.
    split; [exact D4|]. split; [reflexivity|]. split; [exact D1|]. split; [reflexivity|].
    split; [intros x H1 H2; rewrite R3, D6 by assumption; reflexivity|]. split; [exact D3 | reflexivity].
Qed.
End Traps.

(** Every stub has a number that the table of syscall.c knows. *)
Lemma usys_known `{Image, Rounds} name num : (name, num) ∈ usys -> syscalls (s32 num) <> None.
Proof.
  intros Hin. apply list_elem_of_fmap_2 with (f := snd) in Hin. cbn [snd] in Hin. revert Hin. cbn [usys fmap list_fmap snd].
  rewrite !elem_of_cons, elem_of_nil. intros Hin. repeat (destruct Hin as [-> | Hin]; [discriminate|]). destruct Hin.
Qed.

(** ** The start *)

Lemma lor_u32 x y : u32 x -> u32 y -> u32 (Z.lor x y).
Proof.
  unfold u32. intros Hx Hy. assert (E : Z.lor x y = Z.lor x y mod 2 ^ 32).
  { rewrite <- Z.land_ones, Z.land_lor_distr_l, !Z.land_ones, !(Z.mod_small _ (2 ^ 32)) by lia. reflexivity. }
  rewrite E. apply Z.mod_pos_bound. reflexivity.
Qed.

(** entry.S: main() starts on the boot stack with 4 MB pages and paging on, write
    protection for the kernel, and [entrypgdir] as the page directory. *)
Lemma entry_starts_main idt esp0 ss0 pgdir stk main m : u32 (m_cr m 0) -> u32 (m_cr m 4) ->
  let m' := run idt esp0 ss0 (entry pgdir stk main) m in
  m_cr m' 0 = Z.lor (m_cr m 0) (Z.lor CR0_PG CR0_WP) /\ m_cr m' 3 = V2P pgdir /\ m_cr m' 4 = Z.lor (m_cr m 4) CR4_PSE /\
  m_reg m' ESP = w32 (stk + KSTACKSIZE) /\ m_eip m' = w32 main.
Proof.
  intros H0 H4 m'. assert (P0 : m_cr m' 0 = w32 (w32 (Z.lor (w32 (m_cr m 0)) (Z.lor CR0_PG CR0_WP)))) by reflexivity.
  assert (P3 : m_cr m' 3 = w32 (w32 (V2P pgdir))) by reflexivity.
  assert (P4 : m_cr m' 4 = w32 (w32 (Z.lor (w32 (m_cr m 4)) CR4_PSE))) by reflexivity.
  rewrite P0, P3, P4, (w32_small (m_cr m 0) H0), (w32_small (m_cr m 4) H4), !w32_idem.
  rewrite !(w32_small (Z.lor _ _)) by (apply lor_u32; [assumption | vm_compute; split; congruence]).
  split; [reflexivity|]. split; [unfold V2P; apply w32_idem|]. split; [reflexivity|].
  split; [reflexivity|]. exact (w32_idem main).
Qed.

(** entryother.S: a processor that startothers() starts enters at the address at
    [start - 8], on the stack at [start - 4], with the page directory at
    [start - 12] and paging on. *)
Lemma entryother_enters idt esp0 ss0 start next m : u32 (m_cr m 0) -> 4 <= load32 (m_mem m) (start - 4) ->
  let m' := run idt esp0 ss0 (entryother_start32 start next) m in
  m_eip m' = load32 (m_mem m) (start - 8) /\ m_reg m' ESP = load32 (m_mem m) (start - 4) - 4 /\
  m_cr m' 3 = load32 (m_mem m) (start - 12) /\ m_cr m' 0 = Z.lor (m_cr m 0) (Z.lor (Z.lor CR0_PE CR0_PG) CR0_WP) /\
  m_seg m' DS = 16 /\ m_seg m' SS = 16 /\ m_seg m' FS = 0.
Proof.
  intros H0 Hs m'. pose proof (load32_range (m_mem m) (start - 4)) as Hr. unfold u32 in Hr.
  assert (P1 : m_eip m' = w32 (load32 (m_mem m) (start - 8))) by reflexivity.
  assert (P2 : m_reg m' ESP = w32 (w32 (load32 (m_mem m) (start - 4)) - 4)) by reflexivity.
  assert (P3 : m_cr m' 3 = w32 (w32 (load32 (m_mem m) (start - 12)))) by reflexivity.
  assert (P4 : m_cr m' 0 = w32 (w32 (Z.lor (w32 (m_cr m 0)) (Z.lor (Z.lor CR0_PE CR0_PG) CR0_WP)))) by reflexivity.
  rewrite P1, P2, P3, P4, !w32_idem, w32_sub_l, !(w32_small (load32 _ _)) by apply load32_range.
  rewrite (w32_small (_ - 4)) by (unfold u32; lia). rewrite (w32_small (m_cr m 0) H0).
  rewrite !(w32_small (Z.lor _ _)) by (apply lor_u32; [assumption | vm_compute; split; congruence]).
  repeat (split; [reflexivity|]). split; [|split].
  - exact (movw_low (m_reg m EAX) 16 ltac:(lia)).
  - exact (movw_low (m_reg m EAX) 16 ltac:(lia)).
  - exact (movw_low (m_reg (run idt esp0 ss0 [MovW 16 EAX] m) EAX) 0 ltac:(lia)).
Qed.

(** ** Examples *)

Definition example_reg (r : reg) : Z :=
  match r with EAX => 1 | ECX => 2 | EDX => 3 | EBX => 4 | ESP => 1000 | EBP => 6 | ESI => 7 | EDI => 8 end.
Definition example_mem : mem := store32 (store32 (store32 (fun _ => 0) 1000 7777) 1004 500) 1008 2000.
Definition example_caller : machine := mkMachine example_reg (fun _ => 8) 0 0 (fun _ => 0) 0 example_mem.
Definition example_other : machine :=
  mkMachine (fun r => if decide (r = ESP) then 3000 else 0) (fun _ => 8) 0 0 (fun _ => 0) 0
    (store32 (store32 (store32 (m_mem (run [] 0 0 swtch_code example_caller)) 3000 1) 3004 600) 3008 984).

Lemma swtch_roundtrip_witness :
  let m3 := run [] 0 0 swtch_code example_other in
  m_eip m3 = 7777 /\ m_reg m3 ESP = 1004 /\ m_reg m3 EDI = 8.
Proof.
  assert (U : forall r, u32 (example_reg r)) by (intros []; vm_compute; split; congruence).
  destruct (swtch_roundtrip [] 0 0 example_caller 1000 7777 500 2000 example_other 3000 1 600) as (_ & H1 & H2 & H3).
  - split; [reflexivity | lia | reflexivity | reflexivity | reflexivity | exact U].
  - lia.
  - split; [reflexivity | lia | reflexivity | reflexivity | reflexivity |].
    intros r. unfold u32. cbn. destruct (decide (r = ESP)); lia.
  - intros a Ha. cbn [m_mem example_other]. rewrite !load8_store32_ne by lia. reflexivity.
  - lia.
  - lia.
  - split; [exact H1|]. split; [exact H2|]. apply H3. rewrite !elem_of_cons. auto.
Defined.

Definition example_user : machine :=
  mkMachine example_reg (fun r => match r with CS => 27 | _ => 35 end) 100 512 (fun _ => 0) 0 example_mem.
Definition example_vectors (n : Z) : Z := 0x80105000 + 16 * n.
Definition example_in_trap : machine :=
  run (tvinit_idt example_vectors) 9000 16 (vector T_SYSCALL ++ alltraps 0x80106000 0x80105f00)
    (run (tvinit_idt example_vectors) 9000 16 (SYSCALL 11 200) example_user).
Definition example_after_trap : machine :=
  mkMachine (fun r => if decide (r = ESP) then 8920 else 5) (fun _ => 8) 0x80105f00 512 (fun _ => 0) 0
    (store32 (m_mem example_in_trap) (8924 + 28) 42).

Lemma system_call_returns_witness :
  let m3 := run (tvinit_idt example_vectors) 9000 16 [Ret] (run (tvinit_idt example_vectors) 9000 16 after_trap example_after_trap) in
  frame_at (m_mem example_in_trap) 8924 = frame_of (at_int 11 200 example_user) 8956 T_SYSCALL 0 /\
  m_eip m3 = 7777 /\ m_reg m3 EAX = 42 /\ m_reg m3 ESP = 1004 /\ m_reg m3 EDI = 8 /\ m_seg m3 CS = 27.
Proof.
  destruct (system_call_returns example_vectors 9000 16 0x80106000 0x80105f00 ltac:(lia) 11 200 example_user) as (H1 & H2).
  - reflexivity.
  - split; [intros []; vm_compute; split; congruence | intros []; vm_compute; split; congruence | vm_compute; split; congruence | vm_compute; split; congruence].
  - destruct (H2 example_after_trap 42) as (_ & R1 & R2 & R3 & R4 & R5 & _);
      [reflexivity | reflexivity | vm_compute; reflexivity |].
    split; [apply H1|]. split; [rewrite R1; vm_compute; reflexivity|]. split; [exact R2|]. split; [rewrite R3; reflexivity|].
    split; [apply R4; discriminate | apply R5].
Defined.
End Asm.
