(* ===== verification/Umalloc.v ===== *)
(** * solution/umalloc.c: the user-level allocator

    Kernighan and Ritchie's allocator over two pools, ordinary memory from
    [sbrk] and huge pages from [shugebrk].  User code runs on a [ustate]: the
    process's memory, the variables of umalloc.c that are not linked by
    pointers, the process sizes that the kernel keeps, and the number of
    requests made to it.  A load or store
    outside the process's memory is a [Fault]. *)

From Stdlib Require Import ZArith Lia.
From stdpp Require Import base list strings.
From S2P Require Import Prelude Mem Mmu Kernel.

(** ** User processes *)

Record ustate : Type := mkU {
  u_mem : mem;
  u_freep : Z;
  u_hugefreep : Z;
  u_sz : Z;
  u_hugesz : Z;
  u_thp : Z;
  u_out : list string;
  u_asked : nat }.

Definition U (A : Type) : Type := M ustate A.

Definition set_umem v s := mkU v (u_freep s) (u_hugefreep s) (u_sz s) (u_hugesz s) (u_thp s) (u_out s) (u_asked s).
Definition set_ufreep v s := mkU (u_mem s) v (u_hugefreep s) (u_sz s) (u_hugesz s) (u_thp s) (u_out s) (u_asked s).
Definition set_uhugefreep v s := mkU (u_mem s) (u_freep s) v (u_sz s) (u_hugesz s) (u_thp s) (u_out s) (u_asked s).
Definition set_usz v s := mkU (u_mem s) (u_freep s) (u_hugefreep s) v (u_hugesz s) (u_thp s) (u_out s) (u_asked s).
Definition set_uhugesz v s := mkU (u_mem s) (u_freep s) (u_hugefreep s) (u_sz s) v (u_thp s) (u_out s) (u_asked s).
Definition set_uout v s := mkU (u_mem s) (u_freep s) (u_hugefreep s) (u_sz s) (u_hugesz s) (u_thp s) v (u_asked s).
(** One more request to the kernel for memory. *)
Definition ask s := mkU (u_mem s) (u_freep s) (u_hugefreep s) (u_sz s) (u_hugesz s) (u_thp s) (u_out s) (S (u_asked s)).

(** The addresses a process may use. *)
Definition umapped (s : ustate) (a n : Z) : bool :=
  ((0 <=? a) && (a + n <=? u_sz s)) ||
  ((HUGE_VA_OFFSET <=? a) && (a + n <=? HUGE_VA_OFFSET + u_hugesz s)).

Definition uld (a : Z) : U Z := fun s =>
  if umapped s a 4 then Ok (load32 (u_mem s) a) s else Fault.
Definition ust (a v : Z) : U unit := fun s =>
  if umapped s a 4 then Ok tt (set_umem (store32 (u_mem s) a v) s) else Fault.

(** *** The kernel's side

    [enough k old new] says whether the kernel finds the pages to grow the
    process from [old] to [new] when it is asked for the [k]-th time, so that
    what is free may change between two requests in any way; [enough_huge] the
    same for huge pages.  Ordinary pages come from physical memory below
    PHYSTOP and huge pages from a region of HUGE_PAGE_END - HUGE_PAGE_START
    bytes, which bounds what can be granted. *)
Class Grants := {
  enough : nat -> Z -> Z -> bool;
  enough_huge : nat -> Z -> Z -> bool;
  enough_phys k old new : enough k old new = true -> new <= PHYSTOP;
  enough_huge_phys k old new :
    enough_huge k old new = true -> new <= HUGE_VA_OFFSET + (HUGE_PAGE_END - HUGE_PAGE_START) }.

(** [sys_sbrk] and [growproc], with [allocuvm] and [deallocuvm] reduced to
    their effect on the size of the process.  Shrinking to nothing takes away
    the page of the running code. *)
Definition sbrk `{Grants} (n : Z) : U Z := fun s =>
  let sz := u_sz s in
  let newsz := w32 (sz + n) in
  if 0 <? n then
    if KERNBASE <=? newsz then Ok (w32 (-1)) s
    else if newsz <? sz then Ok sz s
    else if enough (u_asked s) sz newsz then Ok sz (set_usz newsz (ask s)) else Ok (w32 (-1)) (ask s)
  else if n <? 0 then
    if sz <=? newsz then Ok sz s
    else if newsz =? 0 then Fault else Ok sz (set_usz newsz s)
  else Ok sz s.

(** [sys_shugebrk] and [growhugeproc].  With a negative argument
    [growhugeproc] frees ordinary pages of the process, from address
    [hugesz + n] up to [hugesz], under the running program. *)
Definition shugebrk `{Grants} (n : Z) : U Z := fun s =>
  let sz := u_hugesz s in
  let old := w32 (sz + HUGE_VA_OFFSET) in
  if 0 <? n then
    let newsz := w32 (sz + n + HUGE_VA_OFFSET) in
    if newsz <? old then Ok old s
    else if enough_huge (u_asked s) old newsz then Ok old (set_uhugesz (w32 (newsz - HUGE_VA_OFFSET)) (ask s))
    else Ok (w32 (-1)) (ask s)
  else if n <? 0 then
    if sz <=? w32 (sz + n) then Ok old (set_uhugesz (w32 (sz - HUGE_VA_OFFSET)) s) else Fault
  else Ok old (set_uhugesz (w32 (sz - HUGE_VA_OFFSET)) s).

Definition getthp : U Z := gets u_thp.
Definition uprintf (msg : string) : U unit := modify (fun s => set_uout (msg :: u_out s) s).

(** ** Definitions *)

(** The static variables [base] and [hugebase], which are nodes of the free
    lists; [heap_start] is the size of the process when it starts: program,
    data and stack. *)
Class Statics := {
  base_addr : Z;
  hugebase_addr : Z;
  heap_start : Z;
  statics_pos : 0 < hugebase_addr;
  statics_apart : hugebase_addr + 8 <= base_addr \/ base_addr + 8 <= hugebase_addr;
  statics_base : 0 < base_addr /\ base_addr + 8 <= heap_start;
  statics_huge : hugebase_addr + 8 <= heap_start;
  statics_end : heap_start < HUGE_PAGE_START }.

(** sizeof(Header): [s.ptr] is at offset 0, [s.size] at offset 4. *)
Definition HDR : Z := 8.

Definition VMALLOC_SIZE_BASE : Z := 0.
Definition VMALLOC_SIZE_HUGE : Z := 1.

(** umalloc.c has each list operation twice, on [freep] and [base] and on
    [hugefreep] and [hugebase]. *)
Inductive pool : Type := Base | Huge.

Definition freep (pl : pool) (s : ustate) : Z := match pl with Base => u_freep s | Huge => u_hugefreep s end.
Definition set_freep (pl : pool) (v : Z) : U unit :=
  modify (match pl with Base => set_ufreep v | Huge => set_uhugefreep v end).
Definition base `{Statics} (pl : pool) : Z := match pl with Base => base_addr | Huge => hugebase_addr end.

(** The blocks of a pool do not overlap, so there are at most this many. *)
Definition list_fuel (s : ustate) : nat := Z.to_nat ((u_sz s + u_hugesz s) / HDR) + 4.

(** The [for] loop of [vfree]: the node after which [bp] belongs. *)
Fixpoint free_search (bp p : Z) (fuel : nat) : U Z :=
  match fuel with
  | O => nofuel
  | S f =>
      let! nx := uld p in
      if (p <? bp) && (bp <? nx) then ret p
      else if (nx <=? p) && ((p <? bp) || (bp <? nx)) then ret p
      else free_search bp nx f
  end.

Definition free_block (pl : pool) (bp : Z) : U unit :=
  let! s := gets (fun s => s) in
  let! p := free_search bp (freep pl s) (list_fuel s) in
  let! nx := uld p in
  let! bsize := uld (bp + 4) in
  (if w32 (bp + HDR * bsize) =? nx then
     let! nsize := uld (nx + 4) in
     ust (bp + 4) (w32 (bsize + nsize)) ;;
     let! nptr := uld nx in
     ust bp nptr
   else ust bp nx) ;;
  let! psize := uld (p + 4) in
  (if w32 (p + HDR * psize) =? bp then
     let! bsize := uld (bp + 4) in
     ust (p + 4) (w32 (psize + bsize)) ;;
     let! bptr := uld bp in
     ust p bptr
   else ust p bp) ;;
  set_freep pl p.

Definition vfree (ap : Z) : U unit :=
  if HUGE_PAGE_START <=? ap then free_block Huge (w32 (ap - HDR))
  else free_block Base (w32 (ap - HDR)).

Definition free (ap : Z) : U unit := vfree ap.

(** [morecore] and [morehugecore]. *)
Definition min_units (pl : pool) : Z := match pl with Base => 4096 | Huge => HUGE_PAGE_SIZE / HDR end.
Definition brk `{Grants} (pl : pool) : Z -> U Z := match pl with Base => sbrk | Huge => shugebrk end.

Definition morecore `{Grants} (pl : pool) (nu : Z) : U Z :=
  let nu := if nu <? min_units pl then min_units pl else nu in
  let! p := brk pl (s32 (w32 (nu * HDR))) in
  if p =? w32 (-1) then ret 0
  else
    ust (p + 4) nu ;;
    vfree (w32 (p + HDR)) ;;
    gets (freep pl).

(** The [for] loop of [malloc] and [vmalloc]. *)
Fixpoint alloc_search `{Grants} (pl : pool) (nunits prevp p : Z) (fuel : nat) : U Z :=
  match fuel with
  | O => nofuel
  | S f =>
      let! size := uld (p + 4) in
      if nunits <=? size then
        let! p' :=
          (if size =? nunits then
             let! nx := uld p in
             ust prevp nx ;; ret p
           else
             ust (p + 4) (w32 (size - nunits)) ;;
             let! size' := uld (p + 4) in
             let p' := w32 (p + HDR * size') in
             ust (p' + 4) nunits ;; ret p') in
        set_freep pl prevp ;;
        ret (w32 (p' + HDR))
      else
        let! fp := gets (freep pl) in
        if p =? fp then
          let! p := morecore pl nunits in
          if p =? 0 then ret 0
          else let! nx := uld p in alloc_search pl nunits p nx f
        else let! nx := uld p in alloc_search pl nunits p nx f
  end.

Definition units (nbytes : Z) : Z := w32 (w32 (nbytes + HDR - 1) / HDR + 1).

Definition alloc_pool `{Statics} `{Grants} (pl : pool) (nbytes : Z) : U Z :=
  let nunits := units nbytes in
  let! fp := gets (freep pl) in
  let! prevp :=
    (if fp =? 0 then
       set_freep pl (base pl) ;;
       ust (base pl) (base pl) ;;
       ust (base pl + 4) 0 ;;
       ret (base pl)
     else ret fp) in
  let! p := uld prevp in
  let! s := gets (fun s => s) in
  alloc_search pl nunits prevp p (2 * list_fuel s).

Definition malloc `{Statics} `{Grants} (nbytes : Z) : U Z :=
  let! thp := (if 1000000 <? nbytes then getthp else ret 0) in
  if negb (thp =? 0) then
    uprintf "Triggered thp\n" ;;
    alloc_pool Huge nbytes
  else alloc_pool Base nbytes.

Definition vmalloc `{Statics} `{Grants} (nbytes flag : Z) : U Z :=
  if flag =? VMALLOC_SIZE_BASE then malloc nbytes else alloc_pool Huge nbytes.
