(* ===== verification/Heap.v ===== *)
(** * The user-level allocator is correct

    The invariant of umalloc.c's two pools, that [vfree] and the allocation
    loop keep it, and what they promise to the program that calls them. *)

From Stdlib Require Import ZArith Lia FunctionalExtensionality.
From stdpp Require Import base list strings.
From S2P Require Import Prelude Mem Mmu Kernel Umalloc.

(** ** Blocks

    A block is its address and its size in units of 8 bytes, the header
    included. *)
Abbreviation block := (Z * Z)%type.
Definition bend (b : block) : Z := b.1 + 8 * b.2.
Definition apart (x y : block) : Prop := bend x <= y.1 \/ bend y <= x.1.

Lemma apart_sym x y : apart x y -> apart y x.
Proof. unfold apart. tauto. Qed.

(** Membership in lists built with [++] and [::]. *)
Ltac els :=
  repeat match goal with
  | |- context [_ ∈ _ ++ _] => rewrite elem_of_app
  | |- context [_ ∈ _ :: _] => rewrite elem_of_cons
  | H : context [_ ∈ _ ++ _] |- _ => rewrite elem_of_app in H
  | H : context [_ ∈ _ :: _] |- _ => rewrite elem_of_cons in H
  | H : context [_ ∈ []] |- _ => rewrite elem_of_nil in H
  end; tauto.

Fixpoint pairwise (l : list block) : Prop :=
  match l with
  | [] => True
  | x :: l' => Forall (apart x) l' /\ pairwise l'
  end.

Lemma pairwise_app l1 l2 :
  pairwise (l1 ++ l2) <-> pairwise l1 /\ pairwise l2 /\ Forall (fun x => Forall (apart x) l2) l1.
Proof.
  induction l1 as [|x l1 IH]; cbn [app pairwise]; [rewrite Forall_nil; tauto|].
  rewrite IH, Forall_app, Forall_cons. tauto.
Qed.

Lemma pairwise_perm l l' : l ≡ₚ l' -> pairwise l -> pairwise l'.
Proof.
  induction 1 as [|x l l' Hp IH|x y l|l1 l2 l3 _ IH1 _ IH2]; cbn [pairwise]; auto.
  - intros [H1 H2]. split; [rewrite <- Hp; exact H1 | auto].
  - rewrite !Forall_cons. intros [[H1 H2] [H3 H4]]. auto using apart_sym.
Qed.

Lemma pairwise_elem l x y : pairwise l -> x ∈ l -> y ∈ l -> x = y \/ apart x y.
Proof.
  induction l as [|z l IH]; intros Hp Hx Hy; [apply elem_of_nil in Hx; contradiction|]. destruct Hp as [H1 H2].
  rewrite Forall_forall in H1. apply elem_of_cons in Hx as [-> | Hx], Hy as [-> | Hy]; auto using apart_sym.
Qed.

Lemma snoc_cases (l : list block) : l = [] \/ exists l' c, l = l' ++ [c].
Proof. destruct l as [|c l _] using rev_ind; [auto | eauto]. Qed.

(** Free blocks are in address order, with a gap between two of them. *)
Fixpoint gaps (l : list block) : Prop :=
  match l with
  | x :: ((y :: _) as l') => bend x < y.1 /\ gaps l'
  | _ => True
  end.

Lemma gaps_cons x l : gaps (x :: l) <-> (forall y, head l = Some y -> bend x < y.1) /\ gaps l.
Proof.
  destruct l as [|y l]; cbn; [|split].
  - split; [intros _; split; [intros y Hy; discriminate | exact I] | auto].
  - intros [H1 H2]. split; [intros z Hz; congruence | exact H2].
  - intros [H1 H2]. auto.
Qed.

Lemma gaps_app l1 x l2 : gaps (l1 ++ x :: l2) <-> gaps (l1 ++ [x]) /\ gaps (x :: l2).
Proof.
  induction l1 as [|y l1 IH]; [cbn [app gaps]; tauto|].
  cbn [app]. rewrite (gaps_cons y (l1 ++ x :: l2)), (gaps_cons y (l1 ++ [x])), IH. destruct l1; cbn [app head]; tauto.
Qed.

Fixpoint units_of (l : list block) : Z := match l with [] => 0 | b :: l' => b.2 + units_of l' end.

Lemma units_of_app l1 l2 : units_of (l1 ++ l2) = units_of l1 + units_of l2.
Proof. induction l1 as [|x l1 IH]; cbn [app units_of]; [reflexivity | lia]. Qed.

(** ** Inserting and joining blocks *)

Lemma gaps_sorted x l : Forall (fun b => 0 < b.2) l -> gaps (x :: l) -> Forall (fun y => bend x < y.1) l.
Proof.
  revert x. induction l as [|y l IH]; intros x Hp Hg; [constructor|]. destruct Hg as [H1 H2].
  apply Forall_cons in Hp as [Hy Hp]. constructor; [exact H1|].
  eapply Forall_impl; [apply (IH y Hp H2)|]. unfold bend in *. cbn. intros z Hz. lia.
Qed.

Lemma pairwise_join l a n k r :
  Forall (fun b => 0 < b.2) (l ++ r) -> pairwise (l ++ (a, n) :: (a + 8 * n, k) :: r) -> pairwise (l ++ (a, n + k) :: r).
Proof.
  intros Hpos Hp. assert (Hp' : pairwise ((a, n) :: (a + 8 * n, k) :: l ++ r)).
  { eapply pairwise_perm; [|exact Hp]. solve_Permutation. }
  eapply (pairwise_perm ((a, n + k) :: l ++ r)); [solve_Permutation|].
  destruct Hp' as [H1 [H2 H3]]. apply Forall_cons in H1 as [_ H1]. split; [|exact H3].
  rewrite Forall_forall in *. intros y Hy. specialize (H1 y Hy). specialize (H2 y Hy). specialize (Hpos y Hy).
  unfold apart, bend in *. cbn in *. lia.
Qed.

(** A list of blocks about to become the free list: [c] may touch its
    neighbours. *)
Record between (lo hi : Z) (l1 : list block) (c : block) (l2 al : list block) : Prop := {
  bt_in b : b ∈ (l1 ++ c :: l2) ++ al -> 0 < b.2 /\ lo <= b.1 /\ bend b <= hi;
  bt_apart : pairwise ((l1 ++ c :: l2) ++ al);
  bt_left : gaps l1;
  bt_right : gaps l2;
  bt_below : Forall (fun x => bend x <= c.1) l1;
  bt_above : Forall (fun y => bend c <= y.1) l2 }.

Lemma between_join_right lo hi l1 bp n k l2 al :
  between lo hi l1 (bp, n) ((bp + 8 * n, k) :: l2) al ->
  between lo hi l1 (bp, n + k) l2 al /\ Forall (fun y => bp + 8 * (n + k) < y.1) l2.
Proof.
  intros [Hin Hap Hl Hr Hb Ha].
  assert (Hpos : forall b, b ∈ (l1 ++ (bp, n) :: (bp + 8 * n, k) :: l2) ++ al -> 0 < b.2) by (intros b Hb'; apply Hin, Hb').
  assert (Hgt : Forall (fun y => bp + 8 * (n + k) < y.1) l2).
  { eapply Forall_impl; [eapply (gaps_sorted (bp + 8 * n, k) l2); [|exact Hr]|].
    - apply Forall_forall. intros b Hb'. apply Hpos. els.
    - unfold bend. cbn. intros y Hy. lia. }
  split; [|exact Hgt]. constructor.
  - intros b Hb'. pose proof (Hin (bp, n)) as I1. pose proof (Hin (bp + 8 * n, k)) as I2.
    specialize (I1 ltac:(els)). specialize (I2 ltac:(els)). rewrite !elem_of_app, !elem_of_cons in Hb'.
    unfold bend in *. cbn in I1, I2. destruct Hb' as [[Hb' | [-> | Hb']] | Hb']; [| cbn; lia | |]; apply Hin; els.
  - rewrite <- app_assoc in *. cbn [app] in *. apply pairwise_join; [|exact Hap].
    apply Forall_forall. intros b Hb'. apply Hpos. els.
  - exact Hl.
  - apply gaps_cons in Hr. apply Hr.
  - exact Hb.
  - eapply Forall_impl; [exact Hgt|]. unfold bend. cbn. intros y Hy. lia.
Qed.

Lemma between_join_left lo hi l1 a k n l2 al :
  between lo hi (l1 ++ [(a, k)]) (a + 8 * k, n) l2 al -> between lo hi l1 (a, k + n) l2 al /\ Forall (fun x => bend x < a) l1.
Proof.
  intros [Hin Hap Hl Hr Hb Ha].
  assert (Hpos : forall b, b ∈ ((l1 ++ [(a, k)]) ++ (a + 8 * k, n) :: l2) ++ al -> 0 < b.2) by (intros b Hb'; apply Hin, Hb').
  assert (Hlt : Forall (fun x => bend x < a) l1).
  { clear -Hl Hpos. apply Forall_forall. intros x Hx. apply list_elem_of_split in Hx as (u & v & ->).
    rewrite <- app_assoc in Hl. cbn [app] in Hl. apply gaps_app in Hl as [_ Hl].
    apply (gaps_sorted x) in Hl.
    - rewrite Forall_forall in Hl. apply (Hl (a, k)). rewrite elem_of_app. right. apply list_elem_of_here.
    - apply Forall_forall. intros b Hb. apply Hpos. els. }
  split; [|exact Hlt]. constructor.
  - intros b Hb'. pose proof (Hin (a, k)) as I1. pose proof (Hin (a + 8 * k, n)) as I2.
    specialize (I1 ltac:(els)). specialize (I2 ltac:(els)). rewrite !elem_of_app, !elem_of_cons in Hb'.
    unfold bend in *. cbn in I1, I2. destruct Hb' as [[Hb' | [-> | Hb']] | Hb']; [| cbn; lia | |]; apply Hin; els.
  - rewrite <- !app_assoc in Hap. cbn [app] in Hap. rewrite <- app_assoc. cbn [app].
    apply pairwise_join; [|exact Hap].
    apply Forall_forall. intros b Hb'. apply Hpos. els.
  - destruct l1 as [|x l1]; [exact I|]. clear -Hl. change ((x :: l1) ++ [(a, k)]) with (x :: (l1 ++ [(a, k)])) in Hl.
    revert x Hl. induction l1 as [|y l1 IH]; intros x Hl; [exact I|]. destruct Hl as [H1 H2]. split; [exact H1 | apply IH, H2].
  - exact Hr.
  - eapply Forall_impl; [exact Hlt|]. cbn. intros x Hx. lia.
  - eapply Forall_impl; [exact Ha|]. unfold bend. cbn. intros y Hy. lia.
Qed.

Lemma gaps_insert l1 c l2 :
  gaps l1 -> gaps l2 -> Forall (fun x => bend x < c.1) l1 -> Forall (fun y => bend c < y.1) l2 -> gaps (l1 ++ c :: l2).
Proof.
  intros H1 H2 Hb Ha. apply gaps_app. split.
  - induction l1 as [|x l1 IH]; [exact I|]. apply Forall_cons in Hb as [Hx Hb]. cbn [app].
    apply gaps_cons in H1 as [Hh H1]. apply gaps_cons. split; [|apply IH; assumption].
    intros y Hy. destruct l1 as [|z l1]; cbn in Hy; injection Hy as <-; [exact Hx | apply Hh; reflexivity].
  - apply gaps_cons. split; [|exact H2]. intros y Hy. destruct l2; [discriminate|]. injection Hy as <-.
    apply Forall_cons in Ha. apply Ha.
Qed.

Lemma gaps_remove l1 c l2 : 0 < c.2 -> gaps (l1 ++ c :: l2) -> gaps (l1 ++ l2).
Proof.
  intros Hc. induction l1 as [|x l1 IH]; cbn [app]; intros Hg; apply gaps_cons in Hg as [Hh Hg]; [exact Hg|].
  apply gaps_cons. split; [|apply IH, Hg]. intros y Hy. destruct l1 as [|z l1]; cbn [app head] in *; [|apply Hh, Hy].
  specialize (Hh c eq_refl). apply gaps_cons in Hg as [Hh' _]. specialize (Hh' y Hy). unfold bend in *. lia.
Qed.

(** Where a block belongs. *)
Lemma split_blocks fl bp n :
  0 < n -> Forall (fun b => 0 < b.2) fl -> gaps fl -> Forall (apart (bp, n)) fl ->
  exists l1 l2, fl = l1 ++ l2 /\ Forall (fun x => bend x <= bp) l1 /\ Forall (fun y => bp + 8 * n <= y.1) l2.
Proof.
  intros Hn. induction fl as [|x fl IH]; intros Hp Hg Ha; [exists [], []; auto|].
  apply Forall_cons in Hp as [Hx Hp]. apply Forall_cons in Ha as [Hax Ha].
  destruct (Z.le_gt_cases (bend x) bp) as [Hle | Hgt].
  - destruct (IH Hp) as (l1 & l2 & -> & H1 & H2); [apply gaps_cons in Hg; apply Hg | exact Ha|].
    exists (x :: l1), l2. split; [reflexivity|]. auto.
  - exists [], (x :: fl). split; [reflexivity|]. split; [constructor|].
    assert (bp + 8 * n <= x.1) by (unfold apart, bend in *; cbn in Hax; lia).
    constructor; [assumption|]. eapply Forall_impl; [apply (gaps_sorted x fl Hp Hg)|].
    unfold bend in *. cbn. intros y Hy. lia.
Qed.

(** A free list is not longer than its memory allows. *)
Lemma gaps_length lo hi fl :
  lo <= hi -> gaps fl -> (forall b, b ∈ fl -> 0 < b.2 /\ lo <= b.1 /\ bend b <= hi) -> 8 * Z.of_nat (length fl) <= hi - lo.
Proof.
  revert lo. induction fl as [|x fl IH]; intros lo Hlo Hg Hin; [cbn; lia|].
  pose proof (Hin x (list_elem_of_here _ _)) as (Hx & Hxl & Hxh). unfold bend in *.
  assert (Hf : forall b, b ∈ fl -> 0 < b.2) by (intros b Hb; apply Hin; right; exact Hb).
  specialize (IH (x.1 + 8)). cbn [length]. rewrite Nat2Z.inj_succ.
  assert (8 * Z.of_nat (length fl) <= hi - (x.1 + 8)); [|lia]. apply IH; [lia | apply gaps_cons in Hg; apply Hg|].
  intros b Hb. destruct (Hin b) as (H1 & H2 & H3); [right; exact Hb|]. split; [exact H1|]. split; [|exact H3].
  apply gaps_sorted in Hg; [|apply Forall_forall; exact Hf]. rewrite Forall_forall in Hg. specialize (Hg b Hb). unfold bend in Hg. lia.
Qed.

(** ** Lists in memory *)

(** [x] and [y] are neighbours in [l]. *)
Definition adj (l : list Z) (x y : Z) : Prop := exists l1 l2, l = l1 ++ x :: y :: l2.

Lemma adj_cons a b l x y : adj (a :: b :: l) x y <-> (x = a /\ y = b) \/ adj (b :: l) x y.
Proof.
  split.
  - intros (l1 & l2 & E). destruct l1 as [|c l1]; cbn in E.
    + injection E as E1 E2 _. auto.
    + injection E as _ E2. right. exists l1, l2. exact E2.
  - intros [[-> ->] | (l1 & l2 & E)]; [exists [], l; reflexivity|]. exists (a :: l1), l2. cbn. congruence.
Qed.

Lemma adj_single a x y : ~ adj [a] x y.
Proof. intros (l1 & l2 & E). apply (f_equal length) in E. rewrite length_app in E. cbn in E. lia. Qed.

Lemma adj_app l1 z l2 x y : adj (l1 ++ z :: l2) x y <-> adj (l1 ++ [z]) x y \/ adj (z :: l2) x y.
Proof.
  induction l1 as [|a l1 IH]; cbn [app].
  - split; [auto|]. intros [Ha | Ha]; [apply adj_single in Ha; contradiction | exact Ha].
  - destruct l1 as [|b l1]; cbn [app] in *.
    + rewrite !adj_cons. split; [intros [|]; auto|]. intros [[Ha | Ha] | Ha]; auto. apply adj_single in Ha. contradiction.
    + rewrite !adj_cons, IH. tauto.
Qed.

Lemma adj_elem l x y : adj l x y -> x ∈ l /\ y ∈ l.
Proof.
  intros (l1 & l2 & ->). els.
Qed.

(** The first element of a pair is not the last of the list. *)
Lemma adj_last l z x y : adj (l ++ [z]) x y -> x ∈ l.
Proof.
  revert x y. induction l as [|a l IH]; intros x y Ha; [apply adj_single in Ha; contradiction|].
  destruct l as [|b l]; cbn [app] in *.
  - apply adj_cons in Ha as [[-> _] | Ha]; [apply list_elem_of_here | apply adj_single in Ha; contradiction].
  - apply adj_cons in Ha as [[-> _] | Ha]; [apply list_elem_of_here | right; eapply IH, Ha].
Qed.

(** Each node's first word is the address of the next one. *)
Definition path (m : mem) (l : list Z) : Prop := forall x y, adj l x y -> load32 m x = y.

Lemma path_app m l1 x l2 : path m (l1 ++ x :: l2) <-> path m (l1 ++ [x]) /\ path m (x :: l2).
Proof.
  unfold path. split.
  - intros Hp. split; intros a b Ha; apply Hp, adj_app; auto.
  - intros [H1 H2] a b Ha. apply adj_app in Ha as [Ha | Ha]; auto.
Qed.

Lemma path_cons m a b l : path m (a :: b :: l) <-> load32 m a = b /\ path m (b :: l).
Proof.
  unfold path. split.
  - intros Hp. split; [|intros x y Ha]; apply Hp, adj_cons; auto.
  - intros [E Hp] x y Ha. apply adj_cons in Ha as [[-> ->] | Ha]; auto.
Qed.

Lemma path_single m a : path m [a].
Proof. intros x y Ha. apply adj_single in Ha. contradiction. Qed.

(** A change that keeps the pointers of all nodes but the last. *)
Lemma path_last m m' l z :
  (forall a, a ∈ l -> load32 m' a = load32 m a) -> path m (l ++ [z]) -> path m' (l ++ [z]).
Proof. intros E Hp x y Ha. rewrite E by (eapply adj_last, Ha). apply Hp, Ha. Qed.

(** A ring [u ++ k :: v] read from [k] on has the same neighbours. *)
Lemma adj_rotate b l u k v x y :
  b :: l = u ++ k :: v -> adj ((b :: l) ++ [b]) x y <-> adj (k :: v ++ u ++ [k]) x y.
Proof.
  intros E. destruct u as [|b' u]; cbn [app] in E.
  - injection E as -> ->. reflexivity.
  - injection E as <- ->. cbn [app]. change (b :: (u ++ k :: v) ++ [b]) with ((b :: u ++ k :: v) ++ [b]).
    replace ((b :: u ++ k :: v) ++ [b]) with ((b :: u) ++ k :: (v ++ [b])) by (cbn; rewrite <- app_assoc; reflexivity).
    rewrite adj_app. change (k :: v ++ b :: u ++ [k]) with ((k :: v) ++ b :: (u ++ [k])).
    rewrite (adj_app (k :: v) b). cbn [app]. tauto.
Qed.

(** The nodes of a pool, with [b] at the front. *)
Definition nodes (b : Z) (fl : list block) : list Z := b :: map fst fl.

(** ** The invariant *)

Definition pool_lo `{Statics} (pl : pool) : Z := match pl with Base => heap_start | Huge => HUGE_VA_OFFSET end.
Definition pool_hi (pl : pool) (s : ustate) : Z :=
  match pl with Base => u_sz s | Huge => HUGE_VA_OFFSET + u_hugesz s end.

(** The sizes of the process. *)
Record sizes_ok `{Statics} (s : ustate) : Prop := {
  so_sz : heap_start <= u_sz s < HUGE_PAGE_START;
  so_huge : 0 <= u_hugesz s <= HUGE_PAGE_END - HUGE_PAGE_START }.

(** A pool with free blocks [fl] and allocated blocks [al]: they lie in the
    pool's memory and do not overlap, their sizes are in their headers, the
    free ones form a ring in address order that starts at the static variable,
    no two of them touch, and [freep] is one of the nodes. *)
Record pool_ok `{Statics} (pl : pool) (s : ustate) (fl al : list block) : Prop := {
  po_in b : b ∈ fl ++ al -> 0 < b.2 /\ pool_lo pl <= b.1 /\ bend b <= pool_hi pl s;
  po_apart : pairwise (fl ++ al);
  po_gaps : gaps fl;
  po_size b : b ∈ fl ++ al -> load32 (u_mem s) (b.1 + 4) = b.2;
  po_base : load32 (u_mem s) (base pl + 4) = 0;
  po_ring : path (u_mem s) (nodes (base pl) fl ++ [base pl]);
  po_freep : freep pl s ∈ nodes (base pl) fl }.

Section Pool.
Context `{Statics} (pl : pool).

(** Addresses of headers. *)
Definition hdr_at (s : ustate) (a : Z) : Prop :=
  0 < a /\ a + 8 <= KERNBASE /\ umapped s a 4 = true /\ umapped s (a + 4) 4 = true.

Lemma hdr_base s : sizes_ok s -> hdr_at s (base pl).
Proof.
  intros [S1 S2]. pose proof statics_pos. pose proof statics_base. pose proof statics_huge. pose proof statics_end.
  unfold hdr_at, umapped, base, HUGE_PAGE_START, KERNBASE in *.
  assert (0 < base_addr /\ base_addr + 8 <= u_sz s) by lia. assert (0 < hugebase_addr /\ hugebase_addr + 8 <= u_sz s) by lia.
  destruct pl; repeat split; lia.
Qed.

Lemma hdr_block s b :
  sizes_ok s -> 0 < b.2 -> pool_lo pl <= b.1 -> bend b <= pool_hi pl s -> hdr_at s b.1.
Proof.
  intros [S1 S2] Hn Hlo Hhi. pose proof statics_base. unfold bend, pool_lo, pool_hi, HUGE_VA_OFFSET, HUGE_PAGE_START, HUGE_PAGE_END in *.
  unfold hdr_at, umapped, HUGE_VA_OFFSET, KERNBASE.
  destruct pl; repeat split; lia.
Qed.

Lemma uld_ptr s a : hdr_at s a -> uld a s = Ok (load32 (u_mem s) a) s.
Proof. intros (_ & _ & E & _). unfold uld. rewrite E. reflexivity. Qed.
Lemma uld_size s a : hdr_at s a -> uld (a + 4) s = Ok (load32 (u_mem s) (a + 4)) s.
Proof. intros (_ & _ & _ & E). unfold uld. rewrite E. reflexivity. Qed.
Lemma ust_ptr s a v : hdr_at s a -> ust a v s = Ok tt (set_umem (store32 (u_mem s) a v) s).
Proof. intros (_ & _ & E & _). unfold ust. rewrite E. reflexivity. Qed.
Lemma ust_size s a v : hdr_at s a -> ust (a + 4) v s = Ok tt (set_umem (store32 (u_mem s) (a + 4) v) s).
Proof. intros (_ & _ & _ & E). unfold ust. rewrite E. reflexivity. Qed.

(** The static variable lies below every block, nodes are 8 bytes apart. *)
Lemma base_below s b :
  sizes_ok s -> 0 < b.2 -> pool_lo pl <= b.1 -> base pl + 8 <= b.1.
Proof.
  intros [S1 S2] Hn Hlo. pose proof statics_base. pose proof statics_huge. pose proof statics_end.
  unfold pool_lo, base, HUGE_VA_OFFSET, HUGE_PAGE_START in *. destruct pl; lia.
Qed.

(** *** Freeing a block *)

Definition stop (bp x y : Z) : bool :=
  ((x <? bp) && (bp <? y)) || ((y <=? x) && ((x <? bp) || (bp <? y))).

(** The loop of [vfree] ends at the first pair that satisfies [stop]. *)
Lemma free_search_path bp tgt s : forall l a fuel,
  path (u_mem s) (a :: l) -> (forall x, x ∈ a :: l -> hdr_at s x) ->
  (forall x y, adj (a :: l) x y -> stop bp x y = true -> x = tgt) ->
  (exists x y, adj (a :: l) x y /\ stop bp x y = true) -> (length l <= fuel)%nat ->
  free_search bp a fuel s = Ok tgt s.
Proof.
  induction l as [|b l IH]; intros a fuel Hp Hm Hs (x & y & Ha & Hxy) Hf; [apply adj_single in Ha; contradiction|].
  destruct fuel as [|f]; [cbn in Hf; lia|]. cbn [free_search].
  erewrite bind_ok by (apply uld_ptr, Hm, list_elem_of_here). apply path_cons in Hp as [-> Hp].
  destruct (stop bp a b) eqn:Es.
  - rewrite <- (Hs a b) by (assumption || (apply adj_cons; auto)). unfold stop in Es.
    destruct ((a <? bp) && (bp <? b)); [reflexivity|]. cbn [orb] in Es. rewrite Es. reflexivity.
  - pose proof Es as Es'. unfold stop in Es'. apply orb_false_iff in Es' as [-> ->].
    apply IH; [exact Hp | intros z Hz; apply Hm; right; exact Hz | | | cbn in Hf; lia].
    + intros z w Hz. apply Hs, adj_cons. auto.
    + apply adj_cons in Ha as [[-> ->] | Ha]; [congruence | eauto].
Qed.

(** Neighbours in a list of blocks are in order. *)
Lemma nodes_incr l x y : Forall (fun b => 0 < b.2) l -> gaps l -> adj (map fst l) x y -> x < y.
Proof.
  induction l as [|c l IH]; intros Hp Hg Ha; [destruct Ha as (l1 & l2 & E); destruct l1; discriminate|].
  apply Forall_cons in Hp as [Hc Hp]. destruct l as [|e l]; [apply adj_single in Ha; contradiction|].
  cbn [map] in Ha. apply adj_cons in Ha as [[-> ->] | Ha].
  - destruct Hg as [Hg _]. unfold bend in Hg. lia.
  - apply IH; [exact Hp | apply gaps_cons in Hg; apply Hg | exact Ha].
Qed.

(** The last node before the block, and the node after it. *)
Definition prev_of (b : Z) (l1 : list block) : Z := match last l1 with Some c => c.1 | None => b end.
Definition next_of (b : Z) (l2 : list block) : Z := match l2 with c :: _ => c.1 | [] => b end.

Lemma nodes_last b l1 : exists A, nodes b l1 = A ++ [prev_of b l1].
Proof.
  unfold nodes, prev_of. destruct l1 as [|c l1 _] using rev_ind; [exists []; reflexivity|].
  rewrite last_snoc, map_app. exists (b :: map fst l1). reflexivity.
Qed.

Lemma ring_split b l1 l2 :
  exists A, nodes b (l1 ++ l2) ++ [b] = A ++ prev_of b l1 :: map fst l2 ++ [b] /\ nodes b l1 = A ++ [prev_of b l1].
Proof.
  destruct (nodes_last b l1) as [A EA]. exists A. split; [|exact EA].
  unfold nodes in *. rewrite map_app. change (b :: map fst l1 ++ map fst l2) with ((b :: map fst l1) ++ map fst l2).
  rewrite EA, <- !app_assoc. reflexivity.
Qed.

(** [stop] holds exactly where the block belongs. *)
Lemma stop_ring b l1 l2 bp :
  b < bp -> Forall (fun c => 0 < c.2) (l1 ++ l2) -> gaps l1 -> gaps l2 ->
  Forall (fun c => b < c.1) (l1 ++ l2) -> Forall (fun x => x.1 < bp) l1 -> Forall (fun y => bp < y.1) l2 ->
  (forall x y, adj (nodes b (l1 ++ l2) ++ [b]) x y -> stop bp x y = true -> x = prev_of b l1) /\
  exists x y, adj (nodes b (l1 ++ l2) ++ [b]) x y /\ stop bp x y = true.
Proof.
  intros Hb Hpos Hg1 Hg2 Hlow H1 H2. apply Forall_app in Hpos as [Hp1 Hp2]. apply Forall_app in Hlow as [Hl1 Hl2].
  destruct (ring_split b l1 l2) as (A & E & EA). rewrite E.
  assert (Hin1 : forall x, x ∈ nodes b l1 -> x < bp).
  { intros x Hx. apply elem_of_cons in Hx as [-> | Hx]; [exact Hb|].
    apply list_elem_of_fmap in Hx as (c & -> & Hc). rewrite Forall_forall in H1. apply H1, Hc. }
  assert (Hp : prev_of b l1 < bp) by (apply Hin1; rewrite EA; els).
  assert (Hin2 : forall x, x ∈ map fst l2 -> bp < x).
  { intros x Hx. apply list_elem_of_fmap in Hx as (c & -> & Hc). rewrite Forall_forall in H2. apply H2, Hc. }
  assert (Hst : stop bp (prev_of b l1) (next_of b l2) = true).
  { unfold stop, next_of. destruct l2 as [|c l2]; [|specialize (Hin2 c.1 (list_elem_of_here _ _)); lia].
    assert (b <= prev_of b l1); [|lia]. unfold prev_of. destruct (last l1) as [c|] eqn:El; [|lia].
    apply last_Some_elem_of in El. rewrite Forall_forall in Hl1. specialize (Hl1 c El). lia. }
  assert (Hnext : exists B, map fst l2 ++ [b] = next_of b l2 :: B)
    by (destruct l2 as [|c l2]; [exists []; reflexivity | exists (map fst l2 ++ [b]); reflexivity]).
  destruct Hnext as [B EB]. split.
  - intros x y Ha Hs. apply adj_app in Ha as [Ha | Ha].
    + exfalso. rewrite <- EA in Ha. pose proof (adj_elem _ _ _ Ha) as [Hx Hy].
      assert (x < y).
      { unfold nodes in Ha. destruct l1 as [|c l1]; [apply adj_single in Ha; contradiction|]. cbn [map] in Ha.
        apply adj_cons in Ha as [[-> ->] | Ha]; [apply Forall_cons in Hl1; apply Hl1 | eapply (nodes_incr (c :: l1)); eassumption]. }
      specialize (Hin1 x Hx) as Bx. specialize (Hin1 y Hy) as By. unfold stop in Hs. lia.
    + rewrite EB in Ha. apply adj_cons in Ha as [[-> _] | Ha]; [reflexivity|]. exfalso. rewrite <- EB in Ha.
      pose proof (Hin2 x (adj_last _ _ _ _ Ha)) as Bx.
      destruct l2 as [|c l2 _] using rev_ind; [apply adj_single in Ha; contradiction|].
      rewrite map_app in Ha. cbn [map] in Ha. rewrite <- app_assoc in Ha. cbn [app] in Ha. apply adj_app in Ha as [Ha | Ha].
      * assert (x < y) by (eapply (nodes_incr (l2 ++ [c])); [exact Hp2 | exact Hg2 | rewrite map_app; exact Ha]).
        unfold stop in Hs. lia.
      * apply adj_cons in Ha as [[-> ->] | Ha]; [unfold stop in Hs; lia | apply adj_single in Ha; contradiction].
  - exists (prev_of b l1), (next_of b l2). split; [|exact Hst]. rewrite EB. exists A, B. reflexivity.
Qed.

Definition fp_set (v : Z) (s : ustate) : ustate := match pl with Base => set_ufreep v s | Huge => set_uhugefreep v s end.

Lemma set_freep_ok v s : set_freep pl v s = Ok tt (fp_set v s).
Proof. unfold set_freep, fp_set, modify. destruct pl; reflexivity. Qed.
Lemma fp_mem v s : u_mem (fp_set v s) = u_mem s.
Proof. unfold fp_set. destruct pl; reflexivity. Qed.
Lemma fp_freep v s : freep pl (fp_set v s) = v.
Proof. unfold fp_set, freep. destruct pl; reflexivity. Qed.
Lemma fp_hi v s : pool_hi pl (fp_set v s) = pool_hi pl s.
Proof. unfold fp_set, pool_hi. destruct pl; reflexivity. Qed.
Lemma hi_mem m s : pool_hi pl (set_umem m s) = pool_hi pl s.
Proof. unfold pool_hi. destruct pl; reflexivity. Qed.
Lemma hdr_mem m s a : hdr_at (set_umem m s) a <-> hdr_at s a.
Proof. reflexivity. Qed.

(** Nothing but the header at [a] changes. *)
Definition only_hdr (a : Z) (m m' : mem) : Prop := forall x, x < a \/ a + 8 <= x -> load8 m' x = load8 m x.

Lemma only_hdr_load a m m' b : only_hdr a m m' -> b + 4 <= a \/ a + 8 <= b -> load32 m' b = load32 m b.
Proof. intros Ho Hb. apply load32_ext. intros i Hi. apply Ho. lia. Qed.

Lemma only_hdr_ptr a m v : only_hdr a m (store32 m a v).
Proof. intros x Hx. apply load8_store32_ne. lia. Qed.

Lemma only_hdr_both a m v w : only_hdr a m (store32 (store32 m (a + 4) v) a w).
Proof. intros x Hx. rewrite !load8_store32_ne by lia. reflexivity. Qed.

Section FreeBlock.
Context (s : ustate) (al l1 l2 : list block) (bp n : Z).
Context (Hsz : sizes_ok s) (Hp : pool_ok pl s (l1 ++ l2) ((bp, n) :: al)).
Context (H1 : Forall (fun x => bend x <= bp) l1) (H2 : Forall (fun y => bp + 8 * n <= y.1) l2).

Let lo := pool_lo pl.
Let hi := pool_hi pl s.
Let b := base pl.
Let p := prev_of b l1.

Lemma fb_new : 0 < n /\ lo <= bp /\ bp + 8 * n <= hi.
Proof. apply (po_in _ _ _ _ Hp (bp, n)). els. Qed.

Lemma fb_base : 0 < b /\ b + 8 <= bp /\ bp + 8 * n <= KERNBASE.
Proof.
  destruct fb_new as (Hn & Hlo & Hhi). pose proof (hdr_base s Hsz) as (Hb & _).
  split; [exact Hb|]. split; [apply (base_below s (bp, n)); assumption|].
  destruct Hsz as [S1 S2]. unfold hi, pool_hi, HUGE_VA_OFFSET, HUGE_PAGE_START, HUGE_PAGE_END, KERNBASE in *. destruct pl; lia.
Qed.

Lemma fb_block c : c ∈ (l1 ++ l2) ++ al -> 0 < c.2 /\ lo <= c.1 /\ bend c <= hi /\ b + 8 <= c.1 /\ hdr_at s c.1.
Proof.
  intros Hc. assert (Hin : c ∈ (l1 ++ l2) ++ (bp, n) :: al) by els.
  destruct (po_in _ _ _ _ Hp c Hin) as (C1 & C2 & C3). split; [exact C1|]. split; [exact C2|]. split; [exact C3|].
  split; [apply (base_below s c); assumption | apply (hdr_block s c); assumption].
Qed.

Lemma fb_apart : pairwise ((l1 ++ (bp, n) :: l2) ++ al).
Proof. eapply pairwise_perm; [|apply (po_apart _ _ _ _ Hp)]. solve_Permutation. Qed.

Lemma fb_gaps : gaps l1 /\ gaps l2.
Proof.
  pose proof (po_gaps _ _ _ _ Hp) as Hg. clear -Hg. induction l1 as [|x l IH]; [split; [exact I | exact Hg]|].
  cbn [app] in Hg. apply gaps_cons in Hg as [Hh Hg]. destruct (IH Hg) as [G1 G2]. split; [|exact G2].
  apply gaps_cons. split; [|exact G1]. intros y Hy. apply Hh. destruct l; [discriminate | exact Hy].
Qed.

Lemma fb_between : between lo hi l1 (bp, n) l2 al.
Proof.
  destruct fb_gaps as [G1 G2]. constructor; try assumption.
  - intros c Hc. apply (po_in _ _ _ _ Hp). els.
  - exact fb_apart.
Qed.

Lemma fb_pos : Forall (fun c => 0 < c.2) (l1 ++ l2).
Proof. apply Forall_forall. intros c Hc. apply fb_block. els. Qed.

Lemma fb_nodes x : x ∈ nodes b (l1 ++ l2) -> hdr_at s x.
Proof.
  intros Hx. apply elem_of_cons in Hx as [-> | Hx]; [apply hdr_base, Hsz|].
  apply list_elem_of_fmap in Hx as (c & -> & Hc). apply fb_block. els.
Qed.

Lemma fb_search : free_search bp (freep pl s) (list_fuel s) s = Ok p s.
Proof.
  destruct fb_base as (Hb0 & Hb & _). destruct fb_new as (Hn & _). destruct fb_gaps as [G1 G2].
  pose proof (po_freep _ _ _ _ Hp) as Hf. fold b in Hf. apply list_elem_of_split in Hf as (u & v & E).
  pose proof (adj_rotate b (map fst (l1 ++ l2)) u (freep pl s) v) as R.
  destruct (stop_ring b l1 l2 bp) as [S1 (x & y & S2 & S3)]; try assumption; try lia.
  { apply fb_pos. }
  { apply Forall_forall. intros c Hc. assert (Hc' : c ∈ (l1 ++ l2) ++ al) by els. pose proof (fb_block c Hc'). lia. }
  { apply Forall_forall. intros c Hc. rewrite Forall_forall in H1. specialize (H1 c Hc).
    assert (Hc' : c ∈ (l1 ++ l2) ++ al) by els. pose proof (fb_block c Hc'). unfold bend in *. lia. }
  { eapply Forall_impl; [exact H2|]. cbn. intros c Hc. lia. }
  apply (free_search_path bp p s (v ++ u ++ [freep pl s])).
  - intros z w Hz. apply R in Hz; [|exact E]. apply (po_ring _ _ _ _ Hp). exact Hz.
  - intros z Hz. apply fb_nodes. rewrite E. els.
  - intros z w Hz. apply R in Hz; [|exact E]. apply S1, Hz.
  - exists x, y. split; [apply R; assumption | exact S3].
  - apply (f_equal length) in E. unfold nodes in E. cbn [length] in E. rewrite length_map in E.
    rewrite !length_app. cbn [length].
    pose proof (gaps_length lo hi (l1 ++ l2)) as Hlen. destruct Hsz as [[S4 S5] [S6 S7]].
    assert (8 * Z.of_nat (length (l1 ++ l2)) <= hi - lo).
    { apply Hlen; [pose proof fb_new; lia | apply (po_gaps _ _ _ _ Hp)|]. intros c Hc.
      assert (Hc' : c ∈ (l1 ++ l2) ++ al) by els. pose proof (fb_block c Hc'). tauto. }
    unfold list_fuel, HDR. pose proof statics_base. unfold hi, lo, pool_hi, pool_lo in *.
    assert (Z.of_nat (length (l1 ++ l2)) <= (u_sz s + u_hugesz s) / 8) by (destruct pl; zdm).
    rewrite !length_app in *. cbn [length] in E. lia.
Qed.

Lemma fb_ring : path (u_mem s) (nodes b l1) /\ load32 (u_mem s) p = next_of b l2 /\ path (u_mem s) (map fst l2 ++ [b]).
Proof.
  destruct (ring_split b l1 l2) as (A & E & EA). pose proof (po_ring _ _ _ _ Hp) as R. fold b in R. rewrite E in R.
  apply path_app in R as [R1 R2]. rewrite EA. split; [exact R1|].
  destruct l2 as [|c l]; cbn [map app] in *; apply path_cons in R2; exact R2.
Qed.

Lemma fb_size c : c ∈ (l1 ++ l2) ++ (bp, n) :: al -> load32 (u_mem s) (c.1 + 4) = c.2.
Proof. apply (po_size _ _ _ _ Hp). Qed.

Definition join_right : U unit :=
  let nx := next_of b l2 in
  if w32 (bp + HDR * n) =? nx then
    let! nsize := uld (nx + 4) in
    ust (bp + 4) (w32 (n + nsize)) ;;
    let! nptr := uld nx in
    ust bp nptr
  else ust bp nx.

Lemma fb_right : exists n' l2' m1,
  join_right s = Ok tt (set_umem m1 s) /\ only_hdr bp (u_mem s) m1 /\
  load32 m1 bp = next_of b l2' /\ load32 m1 (bp + 4) = n' /\
  between lo hi l1 (bp, n') l2' al /\ Forall (fun y => bp + 8 * n' < y.1) l2' /\ n <= n' /\
  n' + units_of l2' = n + units_of l2 /\ path (u_mem s) (map fst l2' ++ [b]) /\ (forall c, c ∈ l2' -> c ∈ l2) /\
  (length l2' <= length l2)%nat.
Proof.
  destruct fb_new as (Hn & Hlo & Hhi). destruct fb_base as (Hb0 & Hb & Hk). pose proof fb_between as Bt.
  pose proof (proj2 (proj2 fb_ring)) as R. unfold KERNBASE in Hk.
  pose proof fb_pos as Fp. pose proof fb_block as Fb. pose proof fb_size as Fs. pose proof (proj1 (proj2 fb_ring)) as Rp.
  assert (Hbp : hdr_at s bp) by (apply (hdr_block s (bp, n)); assumption).
  unfold join_right, HDR. rewrite w32_small by (unfold u32; lia).
  assert (Hno : bp + 8 * n <> next_of b l2 -> Forall (fun y => bp + 8 * n < y.1) l2).
  { intros Hne. destruct l2 as [|c l]; [constructor|]. cbn [next_of] in Hne. apply Forall_cons in H2 as [Hc _].
    assert (Hpos : Forall (fun e => 0 < e.2) (c :: l)).
    { apply Forall_forall. intros e He. rewrite Forall_forall in Fp. apply Fp. els. }
    constructor; [lia|]. apply Forall_cons in Hpos as [Hc2 Hpos]. eapply Forall_impl; [apply (gaps_sorted c l Hpos)|].
    - apply (bt_right _ _ _ _ _ _ Bt).
    - unfold bend. cbn. intros e He. lia. }
  destruct (Z.eqb_spec (bp + 8 * n) (next_of b l2)) as [Ej | Ej].
  - destruct l2 as [|[b2 k] l]; cbn [next_of fst] in Ej; [lia|].
    assert (Hc : hdr_at s b2) by (apply (Fb (b2, k)); els).
    assert (Hk2 : 0 < k /\ b2 + 8 * k <= hi) by (pose proof (Fb (b2, k)) as F; unfold bend in F; cbn in F; specialize (F ltac:(els)); tauto).
    cbn [next_of fst]. erewrite bind_ok by (apply uld_size, Hc).
    assert (Es : load32 (u_mem s) (b2 + 4) = k) by (apply (Fs (b2, k)); els). rewrite Es.
    erewrite bind_ok by (apply ust_size, Hbp). erewrite bind_ok by (apply uld_ptr; exact Hc).
    assert (Hkb : hi <= 2147483648).
    { destruct Hsz as [S1 S2]. unfold hi, pool_hi, HUGE_VA_OFFSET, HUGE_PAGE_START, HUGE_PAGE_END in *. destruct pl; lia. }
    rewrite ust_ptr by exact Hbp. cbn [u_mem set_umem]. rewrite load32_store32_disj by lia.
    exists (n + k), l, (store32 (store32 (u_mem s) (bp + 4) (w32 (n + k))) bp (load32 (u_mem s) b2)).
    rewrite <- Ej in *. destruct (between_join_right lo hi l1 bp n k l al Bt) as [Bt' Hgt].
    cbn [map app fst] in R.
    assert (R' : load32 (u_mem s) (bp + 8 * n) = next_of b l /\ path (u_mem s) (map fst l ++ [b])).
    { destruct l; cbn [map app next_of] in *; apply path_cons in R; exact R. }
    destruct R' as [R1 R2]. split; [reflexivity|]. split; [apply only_hdr_both|].
    split; [rewrite load32_store32_same, R1; apply w32_small; rewrite <- R1; apply load32_range|].
    split; [rewrite load32_store32_disj, load32_store32_same by lia; rewrite w32_idem; apply w32_small; unfold u32; lia|].
    split; [exact Bt'|]. split; [exact Hgt|]. split; [lia|]. cbn [units_of]. split; [cbn; lia|].
    split; [exact R2|]. split; [intros c Hc'; els | cbn; lia].
  - exists n, l2, (store32 (u_mem s) bp (next_of b l2)). rewrite ust_ptr by exact Hbp.
    split; [reflexivity|]. split; [apply only_hdr_ptr|].
    assert (Hnx : u32 (next_of b l2)).
    { rewrite <- Rp. apply load32_range. }
    split; [rewrite load32_store32_same; apply w32_small, Hnx|].
    split; [rewrite load32_store32_disj by lia; apply (Fs (bp, n)); els|].
    split; [exact Bt|]. split; [auto|]. split; [lia|]. split; [lia|]. split; [exact R | auto].
Qed.

Definition join_left : U unit :=
  let! psize := uld (p + 4) in
  if w32 (p + HDR * psize) =? bp then
    let! bsize := uld (bp + 4) in
    ust (p + 4) (w32 (psize + bsize)) ;;
    let! bptr := uld bp in
    ust p bptr
  else ust p bp.

Lemma rebuild fl' m2 :
  (forall c, c ∈ fl' ++ al -> 0 < c.2 /\ lo <= c.1 /\ bend c <= hi) -> pairwise (fl' ++ al) -> gaps fl' ->
  (forall c, c ∈ fl' ++ al -> load32 m2 (c.1 + 4) = c.2) -> load32 m2 (b + 4) = 0 ->
  path m2 (nodes b fl' ++ [b]) -> p ∈ nodes b fl' -> pool_ok pl (fp_set p (set_umem m2 s)) fl' al.
Proof.
  intros. constructor; rewrite ?fp_mem, ?fp_freep, ?fp_hi, ?hi_mem; assumption.
Qed.

Section Left.
Context (n' : Z) (l2' : list block) (m1 : mem).
Context (Ho : only_hdr bp (u_mem s) m1) (Eptr : load32 m1 bp = next_of b l2') (Esz : load32 m1 (bp + 4) = n').
Context (Bt : between lo hi l1 (bp, n') l2' al) (Hgt : Forall (fun y => bp + 8 * n' < y.1) l2').
Context (R2 : path (u_mem s) (map fst l2' ++ [b])) (Hsub : forall c, c ∈ l2' -> c ∈ l2).

Lemma fl_new : 0 < n' /\ bp + 8 * n' <= hi /\ hi <= 2147483648.
Proof.
  pose proof (bt_in _ _ _ _ _ _ Bt (bp, n') ltac:(els)) as Hin. unfold bend in Hin. cbn in Hin.
  destruct Hsz as [S1 S2]. unfold hi, pool_hi, HUGE_VA_OFFSET, HUGE_PAGE_START, HUGE_PAGE_END in *. destruct pl; lia.
Qed.

(** Blocks other than the new one are away from its header. *)
Lemma fl_far c : c ∈ (l1 ++ l2') ++ al -> c.1 + 8 <= bp \/ bp + 8 <= c.1.
Proof.
  intros Hc. pose proof fl_new as (Hn & _). assert (Hc2 : 0 < c.2) by (apply (bt_in _ _ _ _ _ _ Bt); els).
  pose proof (bt_apart _ _ _ _ _ _ Bt) as Hap.
  assert (Hap' : pairwise ((bp, n') :: (l1 ++ l2') ++ al)) by (eapply pairwise_perm; [|exact Hap]; solve_Permutation).
  destruct Hap' as [Hap' _]. rewrite Forall_forall in Hap'. specialize (Hap' c Hc). unfold apart, bend in Hap'. cbn in Hap'. lia.
Qed.

Lemma fl_size1 c : c ∈ (l1 ++ (bp, n') :: l2') ++ al -> load32 m1 (c.1 + 4) = c.2.
Proof.
  intros Hc. assert (Hcase : c = (bp, n') \/ c ∈ (l1 ++ l2') ++ al) by els. destruct Hcase as [-> | Hc']; [exact Esz|].
  pose proof (fl_far c Hc'). rewrite (only_hdr_load bp (u_mem s)) by (exact Ho || lia). apply fb_size.
  clear -Hc' Hsub. rewrite !elem_of_app in Hc'. specialize (Hsub c). els.
Qed.

Lemma fl_base1 : load32 m1 (b + 4) = 0.
Proof.
  pose proof fb_base as (_ & Hb & _). rewrite (only_hdr_load bp (u_mem s)) by (exact Ho || lia). apply (po_base _ _ _ _ Hp).
Qed.

Lemma fl_tail : path m1 (bp :: map fst l2' ++ [b]).
Proof.
  assert (R : path m1 (map fst l2' ++ [b])).
  { eapply path_last; [|exact R2]. intros a Ha. apply list_elem_of_fmap in Ha as (c & -> & Hc).
    pose proof (fl_far c ltac:(els)). apply (only_hdr_load bp); [exact Ho | lia]. }
  destruct l2' as [|c l]; cbn [map app] in *; apply path_cons; auto.
Qed.

(** Storing in the header of the last node before the block. *)
Lemma fl_prefix l1' a k m2 v r :
  l1 = l1' ++ [(a, k)] -> only_hdr a m1 m2 -> load32 m2 a = v -> path m2 (v :: r) -> path m2 (nodes b l1 ++ v :: r).
Proof.
  intros El Ho2 Ev Pv. destruct fb_ring as [R1 _]. destruct fb_base as (Hb0 & Hb & _).
  assert (Ha : b + 8 <= a) by (apply (fb_block (a, k)); rewrite El; els).
  assert (Hbelow : forall x, x ∈ b :: map fst l1' -> x + 8 <= a /\ x + 8 <= bp).
  { assert (Hab : a + 8 <= bp).
    { pose proof (fb_block (a, k) ltac:(rewrite El; els)) as F. rewrite El in H1. apply Forall_app in H1 as [_ H1].
      apply Forall_cons in H1 as [H1 _]. unfold bend in *. cbn in *. lia. }
    intros x Hx. apply elem_of_cons in Hx as [-> | Hx]; [lia|]. apply list_elem_of_fmap in Hx as (c & -> & Hc).
    assert (Hcp : 0 < c.2) by (apply (fb_block c); rewrite El; els).
    assert (bend c < a); [|unfold bend in *; lia].
    pose proof (bt_left _ _ _ _ _ _ Bt) as Hg. rewrite El in Hg. apply list_elem_of_split in Hc as (u & w & Ew). rewrite Ew in Hg.
    rewrite <- app_assoc in Hg. cbn [app] in Hg. apply gaps_app in Hg as [_ Hg].
    apply gaps_sorted in Hg; [rewrite Forall_forall in Hg; apply (Hg (a, k)); els|].
    apply Forall_forall. intros e He. apply (fb_block e). rewrite El, Ew. els. }
  unfold nodes in *. rewrite El, map_app in *. cbn [map] in *.
  change (b :: map fst l1' ++ [a]) with ((b :: map fst l1') ++ [a]) in R1.
  change (path m2 (((b :: map fst l1') ++ [a]) ++ v :: r)). rewrite <- app_assoc. cbn [app].
  change (path m2 ((b :: map fst l1') ++ a :: v :: r)). apply path_app. split; [|apply path_cons; auto].
  eapply path_last; [|exact R1]. intros x Hx. destruct (Hbelow x Hx).
  rewrite (only_hdr_load a m1) by (exact Ho2 || lia). apply (only_hdr_load bp); [exact Ho | lia].
Qed.

Definition joined : Prop := exists fl' m2,
  join_left (set_umem m1 s) = Ok tt (set_umem m2 s) /\ only_hdr p m1 m2 /\
  pool_ok pl (fp_set p (set_umem m2 s)) fl' al /\
  units_of fl' = units_of l1 + n' + units_of l2' /\ (exists c, c ∈ fl' /\ n' <= c.2) /\
  (length fl' <= S (length l1 + length l2'))%nat.

(** The block becomes a node of its own after [p]. *)
Lemma fl_separate :
  load32 m1 (p + 4) = load32 (u_mem s) (p + 4) -> p + 8 * load32 (u_mem s) (p + 4) <> bp ->
  0 <= load32 (u_mem s) (p + 4) -> p + 8 * load32 (u_mem s) (p + 4) <= KERNBASE ->
  hdr_at s p -> p + 8 <= bp -> (forall c, c ∈ (l1 ++ (bp, n') :: l2') ++ al -> c.1 + 8 <= p \/ p <= c.1) ->
  Forall (fun x => bend x < bp) l1 ->
  (forall r, path (store32 m1 p bp) (bp :: r) -> path (store32 m1 p bp) (nodes b l1 ++ bp :: r)) -> joined.
Proof.
  intros Eps Hne H0 Hk Hh Hpb Hfar Hlt Hpre. unfold KERNBASE in Hk. pose proof fb_base as (Hb0 & Hb & Hbk).
  exists (l1 ++ (bp, n') :: l2'), (store32 m1 p bp). split; [|split; [apply only_hdr_ptr|split; [|split]]].
  - unfold join_left, HDR. erewrite bind_ok by (apply uld_size; exact Hh). cbn [u_mem set_umem]. rewrite Eps.
    rewrite w32_small by (unfold u32; destruct Hh as (? & _); lia).
    destruct (Z.eqb_spec (p + 8 * load32 (u_mem s) (p + 4)) bp); [contradiction|]. exact (ust_ptr (set_umem m1 s) p bp Hh).
  - destruct Bt as [T1 T2 T3 T4 T5 T6]. apply rebuild; try assumption.
    + apply gaps_insert; assumption.
    + intros c Hc. rewrite load32_store32_disj by (destruct (Hfar c Hc); lia). apply fl_size1, Hc.
    + assert (p = b \/ b + 8 <= p).
      { unfold p, prev_of. destruct (last l1) as [c|] eqn:El; [|auto]. right. apply last_Some_elem_of in El. apply (fb_block c). els. }
      rewrite load32_store32_disj by lia. apply fl_base1.
    + unfold nodes. rewrite map_app. cbn [map fst]. change (b :: map fst l1 ++ bp :: map fst l2') with (nodes b l1 ++ bp :: map fst l2').
      rewrite <- app_assoc. cbn [app]. apply Hpre.
      eapply (path_last m1 _ (bp :: map fst l2') b); [|exact fl_tail].
      intros x Hx. apply load32_store32_disj. right. apply elem_of_cons in Hx as [-> | Hx]; [lia|].
      apply list_elem_of_fmap in Hx as (c & -> & Hc). rewrite Forall_forall in Hgt. specialize (Hgt c Hc). pose proof fl_new. lia.
    + destruct (nodes_last b l1) as [A EA]. fold p in EA. unfold nodes in *. rewrite map_app.
      change (b :: map fst l1 ++ map fst ((bp, n') :: l2')) with ((b :: map fst l1) ++ map fst ((bp, n') :: l2')). rewrite EA. els.
  - rewrite units_of_app. cbn [units_of snd]. lia.
  - split; [exists (bp, n'); split; [els | reflexivity] | rewrite length_app; cbn; lia].
Qed.

Lemma fl_none : l1 = [] -> joined.
Proof.
  intros El. pose proof fb_base as (Hb0 & Hb & Hbk). pose proof fb_new as (Hn & _). pose proof (po_base _ _ _ _ Hp) as E0. fold b in E0.
  assert (Ep : p = b) by (unfold p; rewrite El; reflexivity).
  apply fl_separate; rewrite ?Ep, ?E0; try (unfold KERNBASE in *; lia).
  - rewrite fl_base1. reflexivity.
  - apply hdr_base, Hsz.
  - intros c Hc. right. destruct (decide (c = (bp, n'))) as [-> | Hne]; [cbn; lia|].
    assert (b + 8 <= c.1); [|lia]. apply (fb_block c). specialize (Hsub c). rewrite El in *. cbn [app] in *. els.
  - rewrite El. constructor.
  - intros r Pr. rewrite El. cbn [nodes map app]. apply path_cons. split; [|exact Pr].
    rewrite load32_store32_same. apply w32_small. unfold u32, KERNBASE in *. pose proof fb_new. lia.
Qed.

Section Snoc.
Context (l1' : list block) (a k : Z) (El : l1 = l1' ++ [(a, k)]).

Lemma fs_p : p = a.
Proof. unfold p, prev_of. rewrite El, last_snoc. reflexivity. Qed.

Lemma fs_a : 0 < k /\ hdr_at s a /\ b + 8 <= a /\ a + 8 * k <= bp /\ load32 (u_mem s) (a + 4) = k /\ load32 m1 (a + 4) = k.
Proof.
  pose proof (fb_block (a, k) ltac:(rewrite El; els)) as (F1 & F2 & F3 & F4 & F5). cbn in F1, F2, F4, F5.
  assert (Hab : a + 8 * k <= bp).
  { rewrite El in H1. apply Forall_app in H1 as [_ H1]. apply Forall_cons in H1 as [H1 _]. exact H1. }
  split; [exact F1|]. split; [exact F5|]. split; [exact F4|]. split; [exact Hab|].
  split; [apply (fb_size (a, k)) | apply (fl_size1 (a, k))]; rewrite El; els.
Qed.

(** All other blocks are away from the header of [p]. *)
Lemma fs_far c : c ∈ (l1' ++ (bp, n') :: l2') ++ al -> c.1 + 8 <= a \/ a + 8 <= c.1.
Proof.
  intros Hc. destruct fs_a as (Hk & _). pose proof (bt_apart _ _ _ _ _ _ Bt) as Hap. rewrite El in Hap.
  assert (Hc2 : 0 < c.2) by (apply (bt_in _ _ _ _ _ _ Bt); rewrite El; els).
  assert (Hap' : pairwise ((a, k) :: (l1' ++ (bp, n') :: l2') ++ al)) by (eapply pairwise_perm; [|exact Hap]; solve_Permutation).
  destruct Hap' as [Hap' _]. rewrite Forall_forall in Hap'. specialize (Hap' c Hc). unfold apart, bend in Hap'. cbn in Hap'. lia.
Qed.

Lemma fl_nojoin : a + 8 * k <> bp -> joined.
Proof.
  intros Hne. destruct fs_a as (Hk & Hh & Hba & Hab & E1 & E2). pose proof fb_base as (Hb0 & Hb & Hbk). pose proof fb_new as (Hn & _).
  apply fl_separate; rewrite ?fs_p, ?E1, ?E2; try (unfold KERNBASE in *; lia); auto.
  - intros c Hc. rewrite El in Hc. destruct (decide (c = (a, k))) as [-> | Hcn]; [cbn; lia|].
    assert (Hc' : c ∈ (l1' ++ (bp, n') :: l2') ++ al) by els. pose proof (fs_far c Hc'). lia.
  - assert (Hg : gaps l1) by apply Bt. assert (Hpos : forall e, e ∈ l1 -> 0 < e.2) by (intros e He; apply (fb_block e); els).
    apply Forall_forall. intros x Hx. rewrite El in Hx, Hg, Hpos. apply elem_of_app in Hx as [Hx | Hx].
    + apply list_elem_of_split in Hx as (u & w & ->). rewrite <- app_assoc in Hg. cbn [app] in Hg. apply gaps_app in Hg as [_ Hg].
      apply gaps_sorted in Hg; [|apply Forall_forall; intros e He; apply Hpos; els].
      rewrite Forall_forall in Hg. specialize (Hg (a, k) ltac:(els)). cbn in Hg. lia.
    + apply list_elem_of_singleton in Hx as ->. unfold bend. cbn. lia.
  - intros r Pr. eapply fl_prefix; [exact El | apply only_hdr_ptr | | exact Pr].
    rewrite load32_store32_same. apply w32_small. unfold u32, KERNBASE in *. pose proof fb_new. lia.
Qed.

Lemma fl_join : a + 8 * k = bp -> joined.
Proof.
  intros Ej. destruct fs_a as (Hk & Hh & Hba & Hab & E1 & E2). destruct fl_new as (Hn & Hnh & Hhi).
  pose proof fb_base as (Hb0 & Hb & Hbk). unfold KERNBASE in Hbk.
  pose proof Bt as Bt0. rewrite El, <- Ej in Bt0. destruct (between_join_left lo hi l1' a k n' l2' al Bt0) as [Bt' Hlt].
  assert (Hbp : hdr_at s bp) by (apply (hdr_block s (bp, n)); [exact Hsz | apply fb_new..]).
  set (m2 := store32 (store32 m1 (a + 4) (w32 (k + n'))) a (next_of b l2')).
  assert (Hnx : u32 (next_of b l2')) by (rewrite <- Eptr; apply load32_range).
  assert (Hoth : forall c, c ∈ (l1' ++ l2') ++ al -> load32 m2 (c.1 + 4) = c.2).
  { intros c Hc. pose proof (fs_far c ltac:(els)). unfold m2. rewrite !load32_store32_disj by lia.
    apply fl_size1. rewrite El. els. }
  exists (l1' ++ (a, k + n') :: l2'), m2. split; [|split; [rewrite fs_p; apply only_hdr_both|split; [|split]]].
  - unfold join_left, HDR. rewrite fs_p. erewrite bind_ok by (apply uld_size; exact Hh). cbn [u_mem set_umem]. rewrite E2.
    rewrite w32_small by (unfold u32; lia). rewrite (proj2 (Z.eqb_eq _ _) Ej).
    erewrite bind_ok by (apply uld_size; exact Hbp). cbn [u_mem set_umem]. rewrite Esz.
    erewrite bind_ok by (apply ust_size; exact Hh). erewrite bind_ok by (apply uld_ptr; exact Hbp). cbn [u_mem set_umem].
    rewrite load32_store32_disj, Eptr by lia. exact (ust_ptr (set_umem _ (set_umem m1 s)) a (next_of b l2') Hh).
  - destruct Bt' as [T1 T2 T3 T4 T5 T6]. apply rebuild; try assumption.
    + apply gaps_insert; try assumption. unfold bend. cbn. eapply Forall_impl; [exact Hgt|]. cbn. intros y Hy. lia.
    + intros c Hc. destruct (decide (c ∈ (l1' ++ l2') ++ al)) as [Hc' | Hc']; [apply Hoth, Hc'|].
      assert (c = (a, k + n')) as -> by els. cbn [fst snd]. unfold m2.
      rewrite load32_store32_disj, load32_store32_same, w32_idem by lia. apply w32_small. unfold u32. lia.
    + unfold m2. rewrite !load32_store32_disj by lia. apply fl_base1.
    + pose proof (fl_prefix l1' a k m2 (next_of b l2')) as Hpre. unfold nodes in *. rewrite El in Hpre. rewrite map_app in *. cbn [map fst] in *.
      assert (Etail : exists r, map fst l2' ++ [b] = next_of b l2' :: r)
        by (destruct l2' as [|e l]; [exists []; reflexivity | exists (map fst l ++ [b]); reflexivity]).
      destruct Etail as [r Er].
      replace ((b :: map fst l1' ++ a :: map fst l2') ++ [b]) with ((b :: map fst l1' ++ [a]) ++ next_of b l2' :: r)
        by (rewrite <- Er; cbn [app]; rewrite <- !app_assoc; reflexivity).
      apply Hpre; [reflexivity | apply only_hdr_both | unfold m2; rewrite load32_store32_same; apply w32_small, Hnx|].
      rewrite <- Er. eapply path_last; [|exact R2]. intros x Hx. apply list_elem_of_fmap in Hx as (c & -> & Hc).
      pose proof (fs_far c ltac:(els)). pose proof (fl_far c ltac:(els)). unfold m2. rewrite !load32_store32_disj by lia.
      apply (only_hdr_load bp); [exact Ho | lia].
    + rewrite fs_p. unfold nodes. rewrite map_app. cbn [map fst]. els.
  - rewrite El, !units_of_app. cbn [units_of snd]. lia.
  - split; [exists (a, k + n'); split; [els | cbn; lia] | rewrite El, !length_app; cbn; lia].
Qed.
End Snoc.

Lemma fl_joined : joined.
Proof.
  destruct (snoc_cases l1) as [El | (l & [a k] & El)]; [apply fl_none, El|].
  destruct (Z.eq_dec (a + 8 * k) bp); [eapply fl_join | eapply fl_nojoin]; eassumption.
Qed.
End Left.

(** [vfree]'s work on a pool. *)
Lemma free_block_split : exists m' fl',
  free_block pl bp s = Ok tt (fp_set p (set_umem m' s)) /\ pool_ok pl (fp_set p (set_umem m' s)) fl' al /\
  units_of fl' = units_of (l1 ++ l2) + n /\ (exists c, c ∈ fl' /\ n <= c.2) /\ (length fl' <= S (length (l1 ++ l2)))%nat /\
  forall x, x < bp \/ bp + 8 <= x -> x < p \/ p + 8 <= x -> load8 m' x = load8 (u_mem s) x.
Proof.
  destruct fb_right as (n' & l2' & m1 & E1 & Ho & Eptr & Esz & Bt & Hgt & Hle & Hu & R2 & Hsub & Hlen).
  destruct (fl_joined n' l2' m1 Ho Eptr Esz Bt Hgt R2 Hsub) as (fl' & m2 & E2 & Ho2 & P2 & Hu2 & (c & Hc & Hn) & Hlen2).
  destruct fb_ring as (_ & Ep & _). destruct fb_new as (Hpos & Hlo & Hhi).
  assert (Hpp : p ∈ nodes b (l1 ++ l2)).
  { destruct (nodes_last b l1) as [A EA]. fold p in EA. unfold nodes in *. rewrite map_app.
    change (b :: map fst l1 ++ map fst l2) with ((b :: map fst l1) ++ map fst l2). rewrite EA. els. }
  exists m2, fl'. split; [|split; [exact P2|split; [rewrite units_of_app; lia|split]]].
  - unfold free_block. erewrite bind_ok by reflexivity. erewrite bind_ok by exact fb_search.
    erewrite bind_ok by (apply uld_ptr, fb_nodes, Hpp). rewrite Ep.
    erewrite bind_ok by (apply uld_size, (hdr_block s (bp, n)); assumption).
    assert (En : load32 (u_mem s) (bp + 4) = n) by (apply (fb_size (bp, n)); els). rewrite En.
    erewrite bind_ok by exact E1. fold join_left. rewrite <- bind_assoc.
    unfold join_left in E2. erewrite bind_ok by exact E2. apply set_freep_ok.
  - exists c. split; [exact Hc | lia].
  - split; [rewrite length_app; lia|]. intros x H3 H4. rewrite (Ho2 x H4). apply Ho, H3.
Qed.
End FreeBlock.

(** *** Results for a pool *)

(** What an operation may write: the pool's free blocks and static header. *)
Definition outside (fl : list block) (x : Z) : Prop :=
  (x < base pl \/ base pl + 8 <= x) /\ forall c, c ∈ fl -> x < c.1 \/ bend c <= x.

Lemma free_block_ok s fl al bp n :
  sizes_ok s -> pool_ok pl s fl ((bp, n) :: al) ->
  exists p m' fl', free_block pl bp s = Ok tt (fp_set p (set_umem m' s)) /\
    pool_ok pl (fp_set p (set_umem m' s)) fl' al /\ units_of fl' = units_of fl + n /\ (exists c, c ∈ fl' /\ n <= c.2) /\
    (length fl' <= S (length fl))%nat /\ forall x, outside ((bp, n) :: fl) x -> load8 m' x = load8 (u_mem s) x.
Proof.
  intros Hsz Hp. pose proof (po_in _ _ _ _ Hp (bp, n) ltac:(els)) as (Hn & _). cbn in Hn.
  destruct (split_blocks fl bp n Hn) as (l1 & l2 & -> & H1 & H2).
  { apply Forall_forall. intros c Hc. apply (po_in _ _ _ _ Hp). els. }
  { apply Hp. }
  { pose proof (po_apart _ _ _ _ Hp) as Ha.
    assert (Ha' : pairwise ((bp, n) :: fl ++ al)) by (eapply pairwise_perm; [|exact Ha]; solve_Permutation).
    destruct Ha' as [Ha' _]. apply Forall_app in Ha'. apply Ha'. }
  destruct (free_block_split s al l1 l2 bp n Hsz Hp H1 H2) as (m' & fl' & E & P & Hu & Hc & Hlen & F).
  exists (prev_of (base pl) l1), m', fl'. split; [exact E|]. split; [exact P|]. split; [exact Hu|]. split; [exact Hc|].
  split; [exact Hlen|]. intros x [Hx1 Hx2]. apply F.
  - specialize (Hx2 (bp, n) ltac:(els)). unfold bend in Hx2. cbn in Hx2. lia.
  - unfold prev_of. destruct (last l1) as [c|] eqn:El; [|exact Hx1]. apply last_Some_elem_of in El.
    specialize (Hx2 c ltac:(els)). pose proof (po_in _ _ _ _ Hp c ltac:(els)). unfold bend in *. lia.
Qed.

Lemma pool_ok_perm s fl al al' : al ≡ₚ al' -> pool_ok pl s fl al -> pool_ok pl s fl al'.
Proof.
  intros E [P1 P2 P3 P4 P5 P6 P7]. constructor; try assumption.
  - intros c. rewrite <- E. apply P1.
  - eapply pairwise_perm; [|exact P2]. rewrite E. reflexivity.
  - intros c. rewrite <- E. apply P4.
Qed.

(** *** The allocation loop *)

Lemma adj_lookup l x y : adj l x y <-> exists i, l !! i = Some x /\ l !! S i = Some y.
Proof.
  split.
  - intros (l1 & l2 & ->). exists (length l1). rewrite list_lookup_middle by reflexivity. split; [reflexivity|].
    rewrite lookup_app_r by lia. replace (S (length l1) - length l1)%nat with 1%nat by lia. reflexivity.
  - intros (i & Hx & Hy). exists (take i l), (drop (S (S i)) l).
    rewrite <- (take_drop_middle l i x Hx) at 1. f_equal. f_equal. apply drop_S. exact Hy.
Qed.

Lemma nodes_NoDup s fl al : sizes_ok s -> pool_ok pl s fl al -> NoDup (map fst fl ++ [base pl]).
Proof.
  intros Hsz Hp. apply NoDup_app. split; [|split; [|apply NoDup_singleton]].
  - pose proof (po_gaps _ _ _ _ Hp) as Hg.
    assert (Hpos : Forall (fun b => 0 < b.2) fl) by (apply Forall_forall; intros c Hc; apply (po_in _ _ _ _ Hp); els).
    clear -Hg Hpos. induction fl as [|c fl IH]; [constructor|]. apply Forall_cons in Hpos as [Hc Hpos]. cbn [map].
    constructor; [|apply IH; [apply gaps_cons in Hg; apply Hg | exact Hpos]].
    intros Hx. apply list_elem_of_fmap in Hx as (e & E & He). apply (gaps_sorted c fl Hpos) in Hg.
    rewrite Forall_forall in Hg. specialize (Hg e He). unfold bend in Hg. lia.
  - intros x Hx Hb. apply list_elem_of_singleton in Hb as ->. apply list_elem_of_fmap in Hx as (c & E & Hc).
    pose proof (po_in _ _ _ _ Hp c ltac:(els)) as (C1 & C2 & _). pose proof (base_below s c Hsz C1 C2). lia.
Qed.

(** The node before a block in the ring. *)
Lemma ring_pred s l1 c l2 al x :
  sizes_ok s -> pool_ok pl s (l1 ++ c :: l2) al -> adj (nodes (base pl) (l1 ++ c :: l2) ++ [base pl]) x c.1 ->
  x = prev_of (base pl) l1.
Proof.
  intros Hsz Hp Ha. pose proof (nodes_NoDup s _ al Hsz Hp) as Hnd.
  destruct (ring_split (base pl) l1 (c :: l2)) as (A & E & _).
  assert (Ha' : adj (nodes (base pl) (l1 ++ c :: l2) ++ [base pl]) (prev_of (base pl) l1) c.1).
  { rewrite E. exists A, (map fst l2 ++ [base pl]). reflexivity. }
  apply adj_lookup in Ha as (i & Hi & Hi'). apply adj_lookup in Ha' as (j & Hj & Hj').
  unfold nodes in *. cbn [app] in *. rewrite lookup_cons_ne_0 in Hi', Hj' by lia. cbn [pred] in Hi', Hj'.
  pose proof (NoDup_lookup _ _ _ _ Hnd Hi' Hj') as <-. congruence.
Qed.

(** Taking [nunits] from the block at [p]. *)
Definition take_from (nunits prevp p : Z) : U Z :=
  let! size := uld (p + 4) in
  let! p' :=
    (if size =? nunits then
       let! nx := uld p in
       ust prevp nx ;; ret p
     else
       ust (p + 4) (w32 (size - nunits)) ;;
       let! size' := uld (p + 4) in
       let p' := w32 (p + HDR * size') in
       ust (p' + 4) nunits ;; ret p') in
  set_freep pl prevp ;;
  ret (w32 (p' + HDR)).

Section Take.
Context (s : ustate) (al l1 l2 : list block) (p size nunits : Z).
Context (Hsz : sizes_ok s) (Hp : pool_ok pl s (l1 ++ (p, size) :: l2) al) (Hn : 0 < nunits <= size).

Let b := base pl.
Let prevp := prev_of b l1.
Let fl := l1 ++ (p, size) :: l2.

Lemma tk_in c : c ∈ fl ++ al -> 0 < c.2 /\ pool_lo pl <= c.1 /\ bend c <= pool_hi pl s /\ b + 8 <= c.1 /\ hdr_at s c.1.
Proof.
  intros Hc. destruct (po_in _ _ _ _ Hp c Hc) as (C1 & C2 & C3). split; [exact C1|]. split; [exact C2|]. split; [exact C3|].
  split; [apply (base_below s c); assumption | apply (hdr_block s c); assumption].
Qed.

Lemma tk_p : p + 8 * size <= KERNBASE /\ b + 8 <= p /\ 0 < b /\ hdr_at s p /\ load32 (u_mem s) (p + 4) = size.
Proof.
  pose proof (tk_in (p, size) ltac:(unfold fl; els)) as (C1 & C2 & C3 & C4 & C5). cbn in *. unfold bend in C3. cbn in C3.
  split; [destruct Hsz as [S1 S2]; unfold pool_hi, HUGE_VA_OFFSET, HUGE_PAGE_START, HUGE_PAGE_END, KERNBASE in *; destruct pl; lia|].
  split; [exact C4|]. split; [apply (hdr_base s Hsz)|]. split; [exact C5|]. apply (po_size _ _ _ _ Hp (p, size)). els.
Qed.

Lemma tk_prev : prevp ∈ nodes b (l1 ++ l2) /\ hdr_at s prevp.
Proof.
  unfold prevp, prev_of, nodes. destruct (last l1) as [c|] eqn:El.
  - apply last_Some_elem_of in El. split; [|apply tk_in; unfold fl; els]. right. apply list_elem_of_fmap. exists c. split; [reflexivity | els].
  - split; [apply list_elem_of_here | apply hdr_base, Hsz].
Qed.

(** Every other block is away from all of [p]'s. *)
Lemma tk_far c : c ∈ (l1 ++ l2) ++ al -> bend c <= p \/ p + 8 * size <= c.1.
Proof.
  intros Hc. pose proof (po_apart _ _ _ _ Hp) as Ha.
  assert (Ha' : pairwise ((p, size) :: (l1 ++ l2) ++ al)) by (eapply pairwise_perm; [|exact Ha]; solve_Permutation).
  destruct Ha' as [Ha' _]. rewrite Forall_forall in Ha'. specialize (Ha' c Hc). unfold apart, bend in Ha'. cbn in Ha'.
  unfold bend. lia.
Qed.

Lemma tk_ring : path (u_mem s) (nodes b l1) /\ load32 (u_mem s) prevp = p /\ load32 (u_mem s) p = next_of b l2 /\
  path (u_mem s) (map fst l2 ++ [b]).
Proof.
  destruct (ring_split b l1 ((p, size) :: l2)) as (A & E & EA). pose proof (po_ring _ _ _ _ Hp) as R. fold b in R. rewrite E in R.
  apply path_app in R as [R1 R2]. rewrite EA. split; [exact R1|]. cbn [map fst app] in R2. apply path_cons in R2 as [R2 R3].
  split; [exact R2|]. destruct l2 as [|c l]; cbn [map app next_of] in *; apply path_cons in R3; exact R3.
Qed.

Definition took : Prop := exists r m' fl',
  take_from nunits prevp p s = Ok (r + 8) (fp_set prevp (set_umem m' s)) /\
  pool_ok pl (fp_set prevp (set_umem m' s)) fl' ((r, nunits) :: al) /\ units_of fl' + nunits = units_of fl /\
  p <= r /\ r + 8 * nunits <= p + 8 * size /\ forall x, outside fl x -> load8 m' x = load8 (u_mem s) x.

Lemma tk_rebuild fl' r m' :
  (forall c, c ∈ fl' ++ (r, nunits) :: al -> 0 < c.2 /\ pool_lo pl <= c.1 /\ bend c <= pool_hi pl s) ->
  pairwise (fl' ++ (r, nunits) :: al) -> gaps fl' ->
  (forall c, c ∈ fl' ++ (r, nunits) :: al -> load32 m' (c.1 + 4) = c.2) -> load32 m' (b + 4) = 0 ->
  path m' (nodes b fl' ++ [b]) -> prevp ∈ nodes b fl' -> pool_ok pl (fp_set prevp (set_umem m' s)) fl' ((r, nunits) :: al).
Proof. intros. constructor; rewrite ?fp_mem, ?fp_freep, ?fp_hi, ?hi_mem; assumption. Qed.

Lemma tk_outside_hdr a x : a ∈ nodes b fl -> outside fl x -> x < a \/ a + 8 <= x.
Proof.
  intros Ha [Hx1 Hx2]. apply elem_of_cons in Ha as [-> | Ha]; [exact Hx1|].
  apply list_elem_of_fmap in Ha as (c & -> & Hc). specialize (Hx2 c Hc).
  pose proof (tk_in c ltac:(els)). unfold bend in *. lia.
Qed.

Lemma tk_split : nunits < size -> took.
Proof.
  intros Hlt. destruct tk_p as (Hk & Hb & Hb0 & Hh & Es). destruct tk_prev as [Hpv _]. unfold KERNBASE in Hk.
  set (r := p + 8 * (size - nunits)). set (m' := store32 (store32 (u_mem s) (p + 4) (size - nunits)) (r + 4) nunits).
  assert (Hfl : fl = l1 ++ (p, size) :: l2) by reflexivity.
  assert (Hhr : hdr_at s r).
  { apply (hdr_block s (r, nunits) Hsz); pose proof (tk_in (p, size) ltac:(unfold fl; els)) as (C1 & C2 & C3 & _);
      unfold bend in *; cbn [fst snd] in *; unfold r; lia. }
  assert (Hpk : forall w, w + 4 <= p \/ p + 8 * size <= w \/ w = p -> load32 m' w = load32 (u_mem s) w)
    by (intros w Hw; unfold m', r; rewrite !load32_store32_disj by lia; reflexivity).
  assert (Hptr : forall x, x ∈ nodes b (l1 ++ (p, size) :: l2) -> load32 m' x = load32 (u_mem s) x).
  { intros x Hx. apply Hpk. apply elem_of_cons in Hx as [-> | Hx]; [lia|]. apply list_elem_of_fmap in Hx as (c & -> & Hc).
    destruct (decide (c = (p, size))) as [-> | Hne]; [auto|].
    pose proof (tk_far c ltac:(els)). pose proof (tk_in c ltac:(unfold fl; els)). unfold bend in *. lia. }
  exists r, m', (l1 ++ (p, size - nunits) :: l2).
  split; [|split; [|split; [|split; [unfold r; lia|split; [unfold r; lia|]]]]].
  - unfold take_from, HDR. erewrite bind_ok by (apply uld_size, Hh). rewrite Es.
    destruct (Z.eqb_spec size nunits); [lia|]. rewrite bind_assoc. erewrite bind_ok by (apply ust_size, Hh).
    rewrite bind_assoc. erewrite bind_ok by (apply uld_size; exact Hh). cbn [u_mem set_umem].
    rewrite load32_store32_same, w32_idem, (w32_small (size - nunits)) by (unfold u32; lia). fold r. rewrite (w32_small r) by (unfold u32, r; lia).
    rewrite bind_assoc. erewrite bind_ok by (apply ust_size; exact Hhr). erewrite bind_ok by reflexivity.
    erewrite bind_ok by apply set_freep_ok. rewrite w32_small by (unfold u32, r; lia). reflexivity.
  - apply tk_rebuild.
    + intros c Hc. pose proof (po_in _ _ _ _ Hp) as Hin. pose proof (Hin (p, size) ltac:(els)) as (C1 & C2 & C3).
      unfold bend in *. cbn [fst snd] in *.
      destruct (decide (c = (p, size - nunits))) as [-> | Hn1]; [cbn; lia|].
      destruct (decide (c = (r, nunits))) as [-> | Hn2]; [cbn; unfold r; lia|]. apply Hin. els.
    + pose proof (po_apart _ _ _ _ Hp) as Ha.
      assert (Ha' : pairwise ((p, size) :: (l1 ++ l2) ++ al)) by (eapply pairwise_perm; [|exact Ha]; solve_Permutation).
      eapply (pairwise_perm ((p, size - nunits) :: (r, nunits) :: (l1 ++ l2) ++ al)); [solve_Permutation|].
      destruct Ha' as [H1 H2]. cbn [pairwise]. rewrite Forall_cons. split; [split|split; [|exact H2]].
      * unfold apart, bend, r. cbn. lia.
      * eapply Forall_impl; [exact H1|]. unfold apart, bend. cbn. intros c Hc. lia.
      * eapply Forall_impl; [exact H1|]. unfold apart, bend, r. cbn. intros c Hc. lia.
    + pose proof (po_gaps _ _ _ _ Hp) as Hg. apply gaps_app in Hg as [G1 G2]. apply gaps_app. split.
      * clear -G1. induction l1 as [|x l IH]; [exact I|]. cbn [app] in *. apply gaps_cons in G1 as [Gh G1]. apply gaps_cons.
        split; [|apply IH, G1]. intros y Hy. destruct l; cbn in *; injection Hy as <-; [apply (Gh _ eq_refl) | apply Gh; reflexivity].
      * apply gaps_cons in G2 as [Gh G2]. apply gaps_cons. split; [|exact G2]. intros y Hy. specialize (Gh y Hy).
        unfold bend in *. cbn in *. lia.
    + intros c Hc. destruct (decide (c = (p, size - nunits))) as [-> | Hn1].
      { cbn [fst snd]. unfold m', r. rewrite load32_store32_disj, load32_store32_same by lia. apply w32_small. unfold u32. lia. }
      destruct (decide (c = (r, nunits))) as [-> | Hn2].
      { cbn [fst snd]. unfold m'. rewrite load32_store32_same. apply w32_small. unfold u32. lia. }
      assert (Hc' : c ∈ (l1 ++ l2) ++ al) by els. pose proof (tk_far c Hc'). pose proof (tk_in c ltac:(unfold fl; els)).
      unfold bend in *. rewrite Hpk by lia. apply (po_size _ _ _ _ Hp). els.
    + rewrite Hpk by lia. apply (po_base _ _ _ _ Hp).
    + pose proof (po_ring _ _ _ _ Hp) as R. fold b in R. eapply path_last; [|]; [|].
      2: { unfold nodes in *. rewrite map_app in *. exact R. }
      intros x Hx. apply Hptr. unfold nodes in *. rewrite map_app in *. exact Hx.
    + unfold nodes in *. rewrite map_app in *. cbn [map fst]. els.
  - unfold fl. rewrite !units_of_app. cbn [units_of snd]. lia.
  - intros x Hx. destruct Hx as [Hx1 Hx2]. specialize (Hx2 (p, size) ltac:(unfold fl; els)). unfold bend in Hx2. cbn in Hx2.
    unfold m', r. rewrite !load8_store32_ne by lia. reflexivity.
Qed.

Lemma tk_prev_fl : prevp ∈ nodes b fl.
Proof. destruct tk_prev as [Hpv _]. unfold nodes, fl in *. rewrite map_app in *. cbn [map]. els. Qed.

Lemma tk_nodes_far x : x ∈ nodes b fl -> x = prevp \/ x + 8 <= prevp \/ prevp + 8 <= x.
Proof.
  intros Hx. pose proof tk_prev_fl as Hp'. pose proof tk_in as Hin.
  pose proof (po_apart _ _ _ _ Hp) as Ha. apply pairwise_app in Ha as [Ha _]. fold fl in Ha.
  apply elem_of_cons in Hx as [-> | Hx], Hp' as [-> | Hp']; [auto | | |].
  - apply list_elem_of_fmap in Hp' as (c & -> & Hc). specialize (Hin c ltac:(els)). lia.
  - apply list_elem_of_fmap in Hx as (c & -> & Hc). specialize (Hin c ltac:(els)). lia.
  - apply list_elem_of_fmap in Hx as (c & -> & Hc). apply list_elem_of_fmap in Hp' as (e & -> & He).
    destruct (pairwise_elem _ c e Ha Hc He) as [-> | Hap]; [auto|].
    pose proof (Hin c ltac:(els)). pose proof (Hin e ltac:(els)). unfold apart, bend in *. lia.
Qed.

Lemma tk_blocks_far c : c ∈ fl ++ al -> prevp <= c.1 \/ c.1 + 8 <= prevp.
Proof.
  intros Hc. pose proof (tk_in c Hc) as C. unfold prevp, prev_of. destruct (last l1) as [e|] eqn:El; [|left; lia].
  apply last_Some_elem_of in El. assert (He : e ∈ fl ++ al) by (unfold fl; els).
  destruct (pairwise_elem _ c e (po_apart _ _ _ _ Hp) Hc He) as [-> | Hap]; [lia|].
  pose proof (tk_in e He). unfold apart, bend in *. lia.
Qed.

(** The other nodes of the ring. *)
Lemma tk_others A : nodes b l1 = A ++ [prevp] -> forall x, x ∈ A \/ x ∈ map fst l2 -> x ∈ nodes b fl /\ x <> prevp.
Proof.
  intros EA x Hx.
  assert (Hnd : NoDup (A ++ [prevp] ++ p :: map fst l2)).
  { pose proof (nodes_NoDup s _ al Hsz Hp) as Hnd. fold b in Hnd. rewrite app_assoc, <- EA. unfold nodes.
    rewrite map_app in Hnd. cbn [map fst] in Hnd. change (NoDup (b :: (map fst l1 ++ p :: map fst l2))).
    apply NoDup_app in Hnd as (N1 & N2 & _). constructor; [|exact N1]. intros Hb. apply (N2 b Hb). els. }
  split.
  - unfold nodes, fl in *. rewrite map_app. change (b :: map fst l1 ++ map fst ((p, size) :: l2)) with ((b :: map fst l1) ++ map fst ((p, size) :: l2)).
    rewrite EA. cbn [map]. els.
  - intros ->. apply NoDup_app in Hnd as (_ & N2 & Hnd). apply NoDup_app in Hnd as (_ & N3 & _).
    destruct Hx as [Hx | Hx]; [apply (N2 prevp Hx); els | apply (N3 prevp); els].
Qed.

Lemma tk_relink :
  path (store32 (u_mem s) prevp (next_of b l2)) (nodes b (l1 ++ l2) ++ [b]).
Proof.
  destruct tk_ring as (R1 & R2 & R3 & R4). destruct (nodes_last b l1) as [A EA]. fold prevp in EA.
  assert (Hnx : u32 (next_of b l2)) by (rewrite <- R3; apply load32_range).
  assert (Hk : forall x, x ∈ A \/ x ∈ map fst l2 -> load32 (store32 (u_mem s) prevp (next_of b l2)) x = load32 (u_mem s) x).
  { intros x Hx. destruct (tk_others A EA x Hx) as [H1 H2]. apply load32_store32_disj.
    destruct (tk_nodes_far x H1) as [-> | Hf]; [contradiction | lia]. }
  assert (Et : exists t, map fst l2 ++ [b] = next_of b l2 :: t)
    by (destruct l2 as [|c l]; [exists []; reflexivity | exists (map fst l ++ [b]); reflexivity]).
  destruct Et as [t Et]. replace (nodes b (l1 ++ l2) ++ [b]) with (A ++ prevp :: next_of b l2 :: t)
    by (rewrite <- Et; unfold nodes in *; rewrite map_app; change (b :: map fst l1 ++ map fst l2) with ((b :: map fst l1) ++ map fst l2);
        rewrite EA, <- !app_assoc; reflexivity).
  apply path_app. split; [|apply path_cons; split; [rewrite load32_store32_same; apply w32_small, Hnx|]].
  - rewrite EA in R1. eapply path_last; [|exact R1]. auto.
  - rewrite <- Et. eapply path_last; [|exact R4]. auto.
Qed.

Lemma tk_exact : nunits = size -> took.
Proof.
  intros En. destruct tk_p as (Hk & Hb & Hb0 & Hh & Es). destruct tk_prev as [Hpv Hhp]. unfold KERNBASE in Hk.
  destruct tk_ring as (R1 & R2 & R3 & R4).
  exists p, (store32 (u_mem s) prevp (next_of b l2)), (l1 ++ l2). split; [|split; [|split; [|split; [lia|split; [lia|]]]]].
  - unfold take_from, HDR. erewrite bind_ok by (apply uld_size, Hh). rewrite Es, En, Z.eqb_refl.
    rewrite bind_assoc. erewrite bind_ok by (apply uld_ptr, Hh). rewrite R3.
    rewrite bind_assoc. erewrite bind_ok by (apply ust_ptr, Hhp). erewrite bind_ok by reflexivity.
    erewrite bind_ok by apply set_freep_ok. rewrite w32_small by (unfold u32; lia). reflexivity.
  - apply tk_rebuild; rewrite ?En.
    + intros c Hc. apply (po_in _ _ _ _ Hp). els.
    + eapply pairwise_perm; [|apply (po_apart _ _ _ _ Hp)]. solve_Permutation.
    + eapply gaps_remove; [|apply (po_gaps _ _ _ _ Hp)]. cbn. lia.
    + intros c Hc. assert (Hc' : c ∈ fl ++ al) by (unfold fl; els).
      rewrite load32_store32_disj by (destruct (tk_blocks_far c Hc'); lia). apply (po_size _ _ _ _ Hp), Hc'.
    + destruct (tk_nodes_far b (list_elem_of_here _ _)) as [E | E]; rewrite load32_store32_disj by lia; apply (po_base _ _ _ _ Hp).
    + exact tk_relink.
    + exact Hpv.
  - unfold fl. rewrite !units_of_app. cbn [units_of snd]. lia.
  - intros x Hx. apply load8_store32_ne. pose proof (tk_outside_hdr prevp x tk_prev_fl Hx). lia.
Qed.

Lemma take_ok : took.
Proof. destruct (Z.eq_dec nunits size); [apply tk_exact; assumption | apply tk_split; lia]. Qed.
End Take.

(** *** Walking the ring *)

Section Walk.
Context `{Grants}.

Lemma walk_fit s nunits p l2 : forall l1 a fuel,
  path (u_mem s) (a :: l1 ++ p :: l2) -> (forall x, x ∈ a :: l1 ++ [p] -> hdr_at s x) ->
  (forall x, x ∈ l1 -> load32 (u_mem s) (x + 4) < nunits /\ x <> freep pl s) ->
  nunits <= load32 (u_mem s) (p + 4) -> (length l1 < fuel)%nat ->
  exists prevp, adj (a :: l1 ++ p :: l2) prevp p /\
    alloc_search pl nunits a (hd 0 (l1 ++ [p])) fuel s = take_from nunits prevp p s.
Proof.
  induction l1 as [|x l1 IH]; intros a fuel Hpa Hm Hs Hfit Hf; (destruct fuel as [|f]; [lia|]); cbn [app hd].
  - exists a. split; [exists [], l2; reflexivity|]. cbn [alloc_search]. unfold take_from.
    do 2 erewrite bind_ok by (apply uld_size, Hm; els). rewrite (proj2 (Z.leb_le _ _) Hfit). reflexivity.
  - cbn [app] in *. apply path_cons in Hpa as [_ Hpa]. destruct (Hs x ltac:(els)) as [Hx1 Hx2].
    destruct (IH x f Hpa) as (prevp & Ha & E); [intros y Hy; apply Hm; els | intros y Hy; apply Hs; els | exact Hfit | cbn in Hf; lia |].
    exists prevp. split; [apply adj_cons; auto|]. rewrite <- E. cbn [alloc_search].
    erewrite bind_ok by (apply uld_size, Hm; els). rewrite (proj2 (Z.leb_gt _ _) Hx1).
    erewrite bind_ok by reflexivity. rewrite (proj2 (Z.eqb_neq _ _) Hx2).
    erewrite bind_ok by (apply uld_ptr, Hm; els).
    destruct l1 as [|y l1]; cbn [app hd] in *; apply path_cons in Hpa as [-> _]; reflexivity.
Qed.

Lemma walk_none s nunits : forall l a fuel,
  path (u_mem s) (a :: l ++ [freep pl s]) -> (forall x, x ∈ a :: l ++ [freep pl s] -> hdr_at s x) ->
  (forall x, x ∈ l -> x <> freep pl s) ->
  (forall x, x ∈ l ++ [freep pl s] -> load32 (u_mem s) (x + 4) < nunits) -> (length l < fuel)%nat ->
  alloc_search pl nunits a (hd 0 (l ++ [freep pl s])) fuel s =
    (let! p := morecore pl nunits in
     if p =? 0 then ret 0 else let! nx := uld p in alloc_search pl nunits p nx (fuel - S (length l))) s.
Proof.
  induction l as [|x l IH]; intros a fuel Hpa Hm Hne Hs Hf; (destruct fuel as [|f]; [lia|]); cbn [app hd alloc_search].
  - erewrite bind_ok by (apply uld_size, Hm; els). rewrite (proj2 (Z.leb_gt _ _) (Hs _ ltac:(els))).
    erewrite bind_ok by reflexivity. rewrite Z.eqb_refl. cbn [length]. rewrite Nat.sub_succ, Nat.sub_0_r. reflexivity.
  - cbn [app] in *. apply path_cons in Hpa as [_ Hpa].
    erewrite bind_ok by (apply uld_size, Hm; els). rewrite (proj2 (Z.leb_gt _ _) (Hs _ ltac:(els))).
    erewrite bind_ok by reflexivity. rewrite (proj2 (Z.eqb_neq _ _) (Hne x ltac:(els))).
    erewrite bind_ok by (apply uld_ptr, Hm; els). cbn [length] in *. rewrite Nat.sub_succ.
    rewrite <- (IH x f Hpa) by (try lia; intros y Hy; (apply Hm || apply Hne || apply Hs); els).
    destruct l as [|y l]; cbn [app hd] in *; apply path_cons in Hpa as [-> _]; reflexivity.
Qed.

(** The first node that is large enough. *)
Lemma first_fit (m : mem) nunits l :
  (forall x, x ∈ l -> load32 m (x + 4) < nunits) \/
  exists l1 p l2, l = l1 ++ p :: l2 /\ nunits <= load32 m (p + 4) /\ forall x, x ∈ l1 -> load32 m (x + 4) < nunits.
Proof.
  induction l as [|x l IH]; [left; intros x Hx; apply elem_of_nil in Hx; contradiction|].
  destruct (Z.le_gt_cases nunits (load32 m (x + 4))) as [Hle | Hlt].
  - right. exists [], x, l. split; [reflexivity|]. split; [exact Hle|]. intros y Hy. apply elem_of_nil in Hy. contradiction.
  - destruct IH as [IH | (l1 & p & l2 & -> & H1 & H2)].
    + left. intros y Hy. apply elem_of_cons in Hy as [-> | Hy]; auto.
    + right. exists (x :: l1), p, l2. split; [reflexivity|]. split; [exact H1|]. intros y Hy. apply elem_of_cons in Hy as [-> | Hy]; auto.
Qed.

Lemma snoc_prefix (l1 : list Z) p l2 w k : l1 ++ p :: l2 = w ++ [k] -> forall x, x ∈ l1 -> x ∈ w.
Proof.
  intros E x Hx. destruct l2 as [|c l2 _] using rev_ind.
  - apply app_inj_tail in E as [-> _]. exact Hx.
  - rewrite app_comm_cons, app_assoc in E. apply app_inj_tail in E as [<- _]. els.
Qed.
End Walk.

Lemma node_hdr s fl al x : sizes_ok s -> pool_ok pl s fl al -> x ∈ nodes (base pl) fl -> hdr_at s x.
Proof.
  intros Hsz Hp Hx. apply elem_of_cons in Hx as [-> | Hx]; [apply hdr_base, Hsz|].
  apply list_elem_of_fmap in Hx as (c & -> & Hc). destruct (po_in _ _ _ _ Hp c ltac:(els)) as (C1 & C2 & C3).
  apply (hdr_block s c); assumption.
Qed.

(** The ring from [freep] on. *)
Lemma ring_from s fl al :
  sizes_ok s -> pool_ok pl s fl al -> exists w,
    let k := freep pl s in
    path (u_mem s) (k :: w ++ [k]) /\ (forall x, x ∈ k :: w ++ [k] -> hdr_at s x) /\ (forall x, x ∈ w -> x <> k) /\
    (forall x, x ∈ nodes (base pl) fl <-> x ∈ w ++ [k]) /\ length w = length fl /\
    (forall x y, adj (k :: w ++ [k]) x y -> adj (nodes (base pl) fl ++ [base pl]) x y).
Proof.
  intros Hsz Hp. pose proof (po_freep _ _ _ _ Hp) as Hf. apply list_elem_of_split in Hf as (u & v & E).
  assert (Hnd : NoDup (u ++ freep pl s :: v)).
  { rewrite <- E. pose proof (nodes_NoDup s fl al Hsz Hp) as Hnd. unfold nodes.
    rewrite Permutation_app_comm in Hnd. exact Hnd. }
  exists (v ++ u). cbv zeta. rewrite <- app_assoc.
  assert (Hadj : forall x y, adj (freep pl s :: v ++ u ++ [freep pl s]) x y -> adj (nodes (base pl) fl ++ [base pl]) x y)
    by (intros x y Ha; apply (adj_rotate _ _ _ _ _ x y E); exact Ha).
  assert (Hiff : forall x, x ∈ nodes (base pl) fl <-> x ∈ v ++ u ++ [freep pl s]) by (intros x; rewrite E; split; intros Hx; els).
  split; [intros x y Ha; apply (po_ring _ _ _ _ Hp), Hadj, Ha|].
  split; [intros x Hx; eapply node_hdr; [exact Hsz | exact Hp | apply Hiff; els]|].
  split; [|split; [exact Hiff | split; [|exact Hadj]]].
  - intros x Hx ->. apply NoDup_app in Hnd as (_ & N1 & Hnd). apply NoDup_cons in Hnd as [N2 _].
    apply elem_of_app in Hx as [Hx | Hx]; [auto | apply (N1 _ Hx); els].
  - apply (f_equal length) in E. unfold nodes in E. cbn [length] in E. rewrite length_map, length_app in E. cbn [length] in E.
    rewrite length_app. lia.
Qed.

Section Alloc.
Context `{Grants}.

Lemma hd_path m a l x : path m (a :: l ++ [x]) -> hd 0 (l ++ [x]) = load32 m a.
Proof. intros Hpa. destruct l as [|y l]; cbn [app hd] in *; apply path_cons in Hpa as [-> _]; reflexivity. Qed.

Lemma node_block s fl al x :
  pool_ok pl s fl al -> x ∈ nodes (base pl) fl -> 0 < load32 (u_mem s) (x + 4) ->
  exists c, c ∈ fl /\ x = c.1 /\ load32 (u_mem s) (x + 4) = c.2.
Proof.
  intros Hp Hx Hn. apply elem_of_cons in Hx as [-> | Hx]; [rewrite (po_base _ _ _ _ Hp) in Hn; lia|].
  apply list_elem_of_fmap in Hx as (c & -> & Hc). exists c. split; [exact Hc|]. split; [reflexivity|]. apply (po_size _ _ _ _ Hp). els.
Qed.

(** With a large enough block in the list, the loop finds one. *)
Lemma alloc_fit s fl al nunits fuel c :
  sizes_ok s -> pool_ok pl s fl al -> 0 < nunits -> c ∈ fl -> nunits <= c.2 -> (length fl < fuel)%nat ->
  exists r prevp m' fl',
    alloc_search pl nunits (freep pl s) (load32 (u_mem s) (freep pl s)) fuel s =
      Ok (r + 8) (fp_set prevp (set_umem m' s)) /\
    pool_ok pl (fp_set prevp (set_umem m' s)) fl' ((r, nunits) :: al) /\ units_of fl' + nunits = units_of fl /\
    forall x, outside fl x -> load8 m' x = load8 (u_mem s) x.
Proof.
  intros Hsz Hp Hn Hc Hcn Hf. destruct (ring_from s fl al Hsz Hp) as (w & R1 & R2 & R3 & R4 & R5 & R6).
  set (k := freep pl s) in *.
  destruct (first_fit (u_mem s) nunits (w ++ [k])) as [Hno | (l1 & p & l2 & E & Hfit & Hsm)].
  { exfalso. specialize (Hno c.1). rewrite (po_size _ _ _ _ Hp c) in Hno by els.
    assert (c.2 < nunits); [|lia]. apply Hno, R4. right. apply list_elem_of_fmap. exists c. auto. }
  assert (Hpn : p ∈ nodes (base pl) fl) by (apply R4; rewrite E; els).
  destruct (node_block s fl al p Hp Hpn) as ([cp sz] & Hcp & Ep & Esz); [lia|]. cbn in Ep, Esz. subst cp.
  destruct (walk_fit s nunits p l2 l1 k fuel) as (prevp & Ha & Ew).
  - rewrite <- E. exact R1.
  - intros x Hx. apply R2. rewrite E. els.
  - intros x Hx. split; [auto|]. apply R3. eapply snoc_prefix; [symmetry; exact E | exact Hx].
  - exact Hfit.
  - apply (f_equal length) in E. rewrite !length_app in E. cbn [length] in E. lia.
  - apply list_elem_of_split in Hcp as (f1 & f2 & ->).
    assert (Epv : prevp = prev_of (base pl) f1).
    { apply (ring_pred s f1 (p, sz) f2 al); try assumption. apply R6. rewrite E. exact Ha. }
    destruct (take_ok s al f1 f2 p sz nunits Hsz Hp ltac:(lia)) as (r & m' & fl' & Et & Pt & Ut & _ & _ & Ft).
    exists r, prevp, m', fl'. rewrite Epv in *. split; [|auto]. rewrite <- Et, <- Ew. f_equal.
    rewrite <- (hd_path (u_mem s) k w k R1), E. destruct l1; reflexivity.
Qed.

(** *** Growing the heap *)

Definition grow (n : Z) (s : ustate) : ustate :=
  match pl with Base => set_usz (u_sz s + n) (ask s) | Huge => set_uhugesz (u_hugesz s + n) (ask s) end.

(** The kernel has refused: nothing has changed but the count of requests. *)
Definition refused (s s' : ustate) : Prop := s' = s \/ s' = ask s.

Lemma grow_facts n s :
  u_mem (grow n s) = u_mem s /\ pool_hi pl (grow n s) = pool_hi pl s + n /\ freep pl (grow n s) = freep pl s.
Proof. unfold grow, pool_hi, freep. destruct pl; cbn; repeat split; lia. Qed.

Lemma brk_cases n s :
  sizes_ok s -> 0 < n < 2147483648 ->
  (exists s', brk pl n s = Ok (w32 (-1)) s' /\ refused s s') \/
  brk pl n s = Ok (pool_hi pl s) (grow n s) /\ sizes_ok (grow n s).
Proof.
  unfold refused. intros [[S1 S2] [S3 S4]] Hn. unfold brk, grow, pool_hi.
  pose proof statics_base as [Hb1 Hb2]. pose proof statics_end as He.
  unfold HUGE_PAGE_START, HUGE_PAGE_END in *. destruct pl.
  - unfold sbrk. cbv zeta. rewrite (proj2 (Z.ltb_lt 0 n)) by lia. rewrite w32_small by (unfold u32; lia).
    destruct (KERNBASE <=? u_sz s + n); [eauto|]. rewrite (proj2 (Z.ltb_ge _ _)) by lia.
    destruct (enough (u_asked s) (u_sz s) (u_sz s + n)) eqn:E; [|eauto]. right. split; [reflexivity|].
    apply enough_phys in E. unfold PHYSTOP in E. constructor; cbn; unfold HUGE_PAGE_START, HUGE_PAGE_END; lia.
  - unfold shugebrk. cbv zeta. rewrite (proj2 (Z.ltb_lt 0 n)) by lia. unfold HUGE_VA_OFFSET.
    rewrite (w32_small (u_hugesz s + 503316480)), (w32_small (u_hugesz s + n + 503316480)) by (unfold u32; lia).
    rewrite (proj2 (Z.ltb_ge _ _)) by lia.
    destruct (enough_huge (u_asked s) (u_hugesz s + 503316480) (u_hugesz s + n + 503316480)) eqn:E; [|eauto]. right.
    apply enough_huge_phys in E. unfold HUGE_VA_OFFSET, HUGE_PAGE_END, HUGE_PAGE_START in E.
    replace (u_hugesz s + n + 503316480 - 503316480) with (u_hugesz s + n) by lia.
    rewrite w32_small by (unfold u32; lia). replace (u_hugesz s + 503316480) with (503316480 + u_hugesz s) by lia.
    split; [reflexivity|]. constructor; cbn; unfold HUGE_PAGE_START, HUGE_PAGE_END; lia.
Qed.

(** A new block at the end of the pool's memory, its size in its header. *)
Lemma pool_add s fl al nu :
  sizes_ok (grow (8 * nu) s) -> pool_ok pl s fl al -> 0 < nu -> 8 * nu < 2147483648 -> pool_lo pl <= pool_hi pl s ->
  let p := pool_hi pl s in
  hdr_at (grow (8 * nu) s) p /\ base pl + 8 <= p /\
  pool_ok pl (set_umem (store32 (u_mem s) (p + 4) nu) (grow (8 * nu) s)) fl ((p, nu) :: al).
Proof.
  intros Hsz Hp Hnu Hn2 Hlo p. destruct (grow_facts (8 * nu) s) as (Em & Eh & Ef).
  assert (Hh : hdr_at (grow (8 * nu) s) p) by (apply (hdr_block _ (p, nu)); try assumption; unfold bend; cbn [fst snd]; fold p in Eh; lia).
  assert (Hb : base pl + 8 <= p) by (apply (base_below _ (p, nu) Hsz); assumption).
  split; [exact Hh|]. split; [exact Hb|].
  assert (Hfar : forall c, c ∈ fl ++ al -> bend c <= p /\ 0 < c.2) by (intros c Hc; destruct (po_in _ _ _ _ Hp c Hc) as (? & ? & ?); auto).
  assert (Hst : forall w, w + 4 <= p -> load32 (store32 (u_mem s) (p + 4) nu) w = load32 (u_mem s) w)
    by (intros w Hw; apply load32_store32_disj; lia).
  destruct Hp as [P1 P2 P3 P4 P5 P6 P7]. constructor; rewrite ?hi_mem, ?Eh; cbn [u_mem set_umem]; fold p.
  - intros c Hc. destruct (decide (c = (p, nu))) as [-> | Hne]; [unfold bend; cbn [fst snd]; lia|].
    destruct (P1 c ltac:(els)) as (C1 & C2 & C3). fold p in C3. split; [exact C1|]. split; [exact C2 | lia].
  - eapply (pairwise_perm ((p, nu) :: fl ++ al)); [solve_Permutation|]. split; [|exact P2].
    apply Forall_forall. intros c Hc. right. apply (Hfar c Hc).
  - exact P3.
  - intros c Hc. destruct (decide (c = (p, nu))) as [-> | Hne].
    + cbn [fst snd]. rewrite load32_store32_same. apply w32_small. unfold u32. lia.
    + assert (Hc' : c ∈ fl ++ al) by els. destruct (Hfar c Hc'). rewrite Hst by (unfold bend in *; lia). apply P4, Hc'.
  - rewrite Hst by lia. exact P5.
  - eapply path_last; [|exact P6]. intros x Hx. apply Hst. apply elem_of_cons in Hx as [-> | Hx]; [lia|].
    apply list_elem_of_fmap in Hx as (c & -> & Hc). destruct (Hfar c ltac:(els)). unfold bend in *. lia.
  - change (freep pl (set_umem (store32 (u_mem s) (p + 4) nu) (grow (8 * nu) s))) with (freep pl (grow (8 * nu) s)).
    rewrite Ef. exact P7.
Qed.

Lemma vfree_pool s p : sizes_ok s -> pool_lo pl <= p -> p + 8 <= pool_hi pl s -> vfree (w32 (p + HDR)) s = free_block pl p s.
Proof.
  intros [S1 S2] Hlo Hhi. pose proof statics_base. unfold vfree, pool_lo, pool_hi, HDR, HUGE_VA_OFFSET, HUGE_PAGE_START, HUGE_PAGE_END in *.
  rewrite (w32_small (p + 8)) by (unfold u32; destruct pl; lia). replace (p + 8 - 8) with p by lia. rewrite (w32_small p) by (unfold u32; destruct pl; lia).
  destruct pl; [rewrite (proj2 (Z.leb_gt _ _)) by lia | rewrite (proj2 (Z.leb_le _ _)) by lia]; reflexivity.
Qed.

(** Bytes that an operation must not touch: those outside the pool and those
    of allocated blocks. *)
Definition private (s' : ustate) (al : list block) (x : Z) : Prop :=
  (x < base pl \/ base pl + 8 <= x) /\
  (x < pool_lo pl \/ pool_hi pl s' <= x \/ exists c, c ∈ al /\ c.1 <= x < bend c).

Lemma private_outside s fl al x : pool_ok pl s fl al -> private s al x -> outside fl x.
Proof.
  intros Hp [Hx1 Hx2]. split; [exact Hx1|]. intros c Hc. destruct (po_in _ _ _ _ Hp c ltac:(els)) as (C1 & C2 & C3).
  destruct Hx2 as [Hx | [Hx | (e & He & Hx)]]; [lia | lia |].
  pose proof (po_apart _ _ _ _ Hp) as Ha. apply pairwise_app in Ha as (_ & _ & Ha). rewrite Forall_forall in Ha.
  specialize (Ha c Hc). rewrite Forall_forall in Ha. specialize (Ha e He). unfold apart in Ha. lia.
Qed.

(** What an operation on the pool leaves as it is. *)
Record ustep (s s' : ustate) (al : list block) : Prop := {
  us_sizes : sizes_ok s';
  us_other pl' : pl' <> pl -> freep pl' s' = freep pl' s /\ pool_hi pl' s' = pool_hi pl' s;
  us_grows : pool_hi pl s <= pool_hi pl s';
  us_thp : u_thp s' = u_thp s;
  us_out : u_out s' = u_out s;
  us_mem x : private s' al x -> load8 (u_mem s') x = load8 (u_mem s) x }.

Lemma ustep_refl s al : sizes_ok s -> ustep s s al.
Proof. intros Hsz. constructor; auto. lia. Qed.

Lemma private_shrink s s' al x : pool_hi pl s <= pool_hi pl s' -> private s' al x -> private s al x.
Proof. intros Hh [H1 [H2 | [H2 | H2]]]; split; auto; right; left; lia. Qed.

Lemma ustep_trans s1 s2 s3 al : ustep s1 s2 al -> ustep s2 s3 al -> ustep s1 s3 al.
Proof.
  intros [A1 A2 A3 A4 A5 A6] [B1 B2 B3 B4 B5 B6]. constructor; [exact B1 | | lia | congruence | congruence |].
  - intros pl' Hne. destruct (A2 pl' Hne), (B2 pl' Hne). split; congruence.
  - intros x Hx. rewrite (B6 x Hx). apply A6. eapply private_shrink; eassumption.
Qed.

Lemma sizes_fp s p m : sizes_ok s -> sizes_ok (fp_set p (set_umem m s)).
Proof. intros [S1 S2]. unfold fp_set. destruct pl; constructor; assumption. Qed.

Lemma freep_pos s fl al : sizes_ok s -> pool_ok pl s fl al -> freep pl s <> 0.
Proof.
  intros Hsz Hp. pose proof (po_freep _ _ _ _ Hp) as Hf. destruct (node_hdr _ _ _ _ Hsz Hp Hf) as (Hq & _). lia.
Qed.

Lemma ustep_fp s p m al :
  sizes_ok s -> (forall x, private s al x -> load8 m x = load8 (u_mem s) x) -> ustep s (fp_set p (set_umem m s)) al.
Proof.
  intros Hsz Hm. constructor; rewrite ?fp_mem, ?fp_hi, ?hi_mem.
  - apply sizes_fp, Hsz.
  - intros pl' Hne. unfold fp_set, freep, pool_hi. destruct pl, pl'; try contradiction; auto.
  - lia.
  - unfold fp_set. destruct pl; reflexivity.
  - unfold fp_set. destruct pl; reflexivity.
  - intros x [H1 H2]. rewrite fp_hi, hi_mem in H2. apply Hm. split; assumption.
Qed.

(** The bytes of a fresh block are private to nobody. *)
Lemma ustep_grow s al nu p m :
  let s1 := set_umem (store32 (u_mem s) (p + 4) nu) (grow (8 * nu) s) in
  p = pool_hi pl s -> pool_lo pl <= p -> 0 < nu -> sizes_ok s1 ->
  (forall c, c ∈ al -> bend c <= p) ->
  (forall x, private s1 al x -> load8 m x = load8 (u_mem s1) x) ->
  forall q, ustep s (fp_set q (set_umem m s1)) al.
Proof.
  intros s1 -> Hlo Hnu Hs1 Hal Hm q. destruct (grow_facts (8 * nu) s) as (_ & Eh & _).
  assert (Hhi : pool_hi pl s1 = pool_hi pl s + 8 * nu) by (unfold s1; rewrite hi_mem; exact Eh).
  apply (ustep_trans _ s1); [| apply ustep_fp; assumption].
  constructor; [exact Hs1 | | lia | unfold s1, grow; destruct pl; reflexivity | unfold s1, grow; destruct pl; reflexivity |].
  - intros pl' Hne. unfold s1, grow, freep, pool_hi. destruct pl, pl'; try contradiction; auto.
  - intros x [Hx1 Hx2]. unfold s1. cbn [u_mem set_umem]. apply load8_store32_ne.
    destruct Hx2 as [Hx | [Hx | (e & He & Hx)]]; [lia | lia |]. specialize (Hal e He). lia.
Qed.

Lemma morecore_ok s fl al nunits :
  sizes_ok s -> pool_ok pl s fl al -> 0 < nunits -> 8 * nunits < 2147483648 ->
  (exists s', morecore pl nunits s = Ok 0 s' /\ refused s s') \/
  exists s' fl', morecore pl nunits s = Ok (freep pl s') s' /\ freep pl s' <> 0 /\ pool_ok pl s' fl' al /\
    (exists c, c ∈ fl' /\ nunits <= c.2) /\ (length fl' <= S (length fl))%nat /\ ustep s s' al.
Proof.
  intros Hsz Hp Hn Hb. unfold morecore. set (nu := if nunits <? min_units pl then min_units pl else nunits).
  assert (Hnu : nunits <= nu /\ 0 < nu /\ 8 * nu < 2147483648).
  { unfold nu, min_units, HUGE_PAGE_SIZE, HDR. change (4194304 / 8) with 524288.
    destruct pl; [destruct (Z.ltb_spec nunits 4096) | destruct (Z.ltb_spec nunits 524288)]; lia. }
  destruct Hnu as (Hnu1 & Hnu2 & Hnu3). assert (Ew0 : s32 (w32 (nu * HDR)) = 8 * nu)
    by (unfold HDR; rewrite w32_small, s32_small by (unfold u32; lia); lia).
  rewrite Ew0.
  destruct (brk_cases (8 * nu) s Hsz ltac:(lia)) as [(s' & E & Hr) | [E Hsz1]]; [left; exists s'; erewrite bind_ok by exact E; auto|].
  right. erewrite bind_ok by exact E. set (p := pool_hi pl s) in *.
  assert (Hlo : pool_lo pl <= p).
  { destruct Hsz as [[S1 S2] [S3 S4]]. unfold p, pool_lo, pool_hi. destruct pl; lia. }
  destruct (pool_add s fl al nu Hsz1 Hp Hnu2 Hnu3 Hlo) as (Hh & Hbp & P1). fold p in Hh, Hbp, P1.
  destruct (grow_facts (8 * nu) s) as (Em & Eh & Ef). fold p in Eh.
  pose proof Hh as (Hp0 & Hp8 & _). unfold KERNBASE in Hp8.
  destruct (Z.eqb_spec p (w32 (-1))) as [Ew | _]; [change (w32 (-1)) with 4294967295 in Ew; lia|].
  erewrite bind_ok by (apply ust_size; exact Hh). rewrite Em.
  set (s1 := set_umem (store32 (u_mem s) (p + 4) nu) (grow (8 * nu) s)) in *.
  assert (Hs1 : sizes_ok s1) by (destruct Hsz1; constructor; assumption).
  assert (Hhi : pool_hi pl s1 = p + 8 * nu) by (unfold s1; rewrite hi_mem; exact Eh).
  destruct (free_block_ok s1 fl al p nu Hs1 P1) as (q & m2 & fl' & E2 & P2 & _ & (c & Hc & Hcn) & Hlen & F2).
  erewrite bind_ok by (rewrite vfree_pool by (assumption || lia); exact E2). unfold gets.
  exists (fp_set q (set_umem m2 s1)), fl'. split; [reflexivity|].
  split; [apply (freep_pos _ fl' al); [apply sizes_fp, Hs1 | exact P2]|].
  split; [exact P2|]. split; [exists c; split; [exact Hc | lia]|]. split; [exact Hlen|].
  assert (Hal : forall e, e ∈ fl ++ al -> bend e <= p) by (intros e He; apply (po_in _ _ _ _ Hp e He)).
  apply (ustep_grow s al nu p m2); [reflexivity | exact Hlo | exact Hnu2 | exact Hs1 | intros e He; apply Hal; els |].
  fold s1. intros x Hx. apply F2. split; [apply Hx|]. intros e He. apply elem_of_cons in He as [-> | He].
  - destruct Hx as [_ [Hx | [Hx | (e & He & Hx)]]]; unfold bend; cbn [fst snd]; [lia | lia |].
    specialize (Hal e ltac:(els)). lia.
  - apply (private_outside s1 fl ((p, nu) :: al) x P1); [|exact He]. destruct Hx as [Hx1 Hx2]. split; [exact Hx1|].
    destruct Hx2 as [Hx | [Hx | (f & Hf & Hx)]]; auto. right. right. exists f. split; [els | exact Hx].
Qed.

(** The result of the allocation loop: no memory, and nothing changed, when no
    free block is large enough and the kernel refuses more; else a new block. *)
Definition served (nunits : Z) (s : ustate) (fl al : list block) (r : result ustate Z) : Prop :=
  (exists s', r = Ok 0 s' /\ (forall c, c ∈ fl -> c.2 < nunits) /\ morecore pl nunits s = Ok 0 s' /\ refused s s') \/
  exists b s' fl', r = Ok (b + 8) s' /\ pool_ok pl s' fl' ((b, nunits) :: al) /\ ustep s s' al.

Lemma alloc_fit_served s fl al nunits fuel c :
  sizes_ok s -> pool_ok pl s fl al -> 0 < nunits -> c ∈ fl -> nunits <= c.2 -> (length fl < fuel)%nat ->
  exists b s' fl', alloc_search pl nunits (freep pl s) (load32 (u_mem s) (freep pl s)) fuel s = Ok (b + 8) s' /\
    pool_ok pl s' fl' ((b, nunits) :: al) /\ ustep s s' al.
Proof.
  intros Hsz Hp Hn Hc Hcn Hf. destruct (alloc_fit s fl al nunits fuel c Hsz Hp Hn Hc Hcn Hf) as (r & q & m' & fl' & E & P & _ & F).
  exists r, (fp_set q (set_umem m' s)), fl'. split; [exact E|]. split; [exact P|].
  apply ustep_fp; [exact Hsz|]. intros x Hx. apply F. eapply private_outside; eassumption.
Qed.

Lemma alloc_loop_ok s fl al nunits fuel :
  sizes_ok s -> pool_ok pl s fl al -> 0 < nunits -> 8 * nunits < 2147483648 -> (2 * length fl + 3 < fuel)%nat ->
  served nunits s fl al (alloc_search pl nunits (freep pl s) (load32 (u_mem s) (freep pl s)) fuel s).
Proof.
  intros Hsz Hp Hn Hb Hf. destruct (ring_from s fl al Hsz Hp) as (w & R1 & R2 & R3 & R4 & R5 & _).
  destruct (first_fit (u_mem s) nunits (w ++ [freep pl s])) as [Hno | (l1 & p & l2 & E & Hfit & _)].
  - rewrite <- (hd_path _ _ _ _ R1), (walk_none s nunits w (freep pl s) fuel R1 R2 R3 Hno) by lia.
    assert (Hsm : forall c, c ∈ fl -> c.2 < nunits).
    { intros c Hc. rewrite <- (po_size _ _ _ _ Hp c) by els. apply Hno, R4. right. apply list_elem_of_fmap. exists c. auto. }
    destruct (morecore_ok s fl al nunits Hsz Hp Hn Hb) as [(s1 & E & Hr) | (s1 & f1 & E & Hf0 & P1 & (c & Hc & Hcn) & Hlen & U1)].
    + left. exists s1. erewrite bind_ok by exact E. auto.
    + right. erewrite bind_ok by exact E. rewrite (proj2 (Z.eqb_neq _ _) Hf0).
      assert (Hsz1 : sizes_ok s1) by apply U1.
      erewrite bind_ok by (apply uld_ptr, (node_hdr s1 f1 al); [exact Hsz1 | exact P1 | apply P1]).
      destruct (alloc_fit_served s1 f1 al nunits (fuel - S (length w)) c Hsz1 P1 Hn Hc Hcn ltac:(lia)) as (b & s2 & f2 & E2 & P2 & U2).
      exists b, s2, f2. split; [exact E2|]. split; [exact P2|]. eapply ustep_trans; eassumption.
  - right. assert (Hpn : p ∈ nodes (base pl) fl) by (apply R4; rewrite E; els).
    destruct (node_block s fl al p Hp Hpn) as (c & Hc & _ & Hcs); [lia|].
    apply (alloc_fit_served s fl al nunits fuel c Hsz Hp Hn Hc); lia.
Qed.
End Alloc.
End Pool.

(** ** Both pools *)

(** Before the first allocation from a pool its list pointer is null. *)
Definition pool_st `{Statics} (pl : pool) (s : ustate) (fl al : list block) : Prop :=
  (freep pl s = 0 /\ fl = [] /\ al = []) \/ pool_ok pl s fl al.

(** The heap with free blocks [F] and allocated blocks [A] in each pool. *)
Record heap_ok `{Statics} (s : ustate) (F A : pool -> list block) : Prop := {
  ho_sizes : sizes_ok s;
  ho_pool pl : pool_st pl s (F pl) (A pl) }.

Definition pset (pl : pool) (v : list block) (F : pool -> list block) : pool -> list block := fun pl' =>
  match pl, pl' with Base, Base | Huge, Huge => v | _, _ => F pl' end.

Lemma pool_cases (pl' pl : pool) : pl' = pl \/ pl' <> pl.
Proof. destruct pl, pl'; auto; right; discriminate. Qed.

Lemma pset_same pl v F : pset pl v F pl = v.
Proof. destruct pl; reflexivity. Qed.
Lemma pset_other pl pl' v F : pl' <> pl -> pset pl v F pl' = F pl'.
Proof. destruct pl, pl'; intros Hne; try contradiction; reflexivity. Qed.

(** What the program owns: the bytes of allocated blocks and all memory that
    is neither in a pool nor one of the static list heads. *)
Definition owned `{Statics} (s : ustate) (A : pool -> list block) (x : Z) : Prop :=
  (forall pl, x < base pl \/ base pl + 8 <= x) /\
  ((forall pl, x < pool_lo pl \/ pool_hi pl s <= x) \/ exists pl c, c ∈ A pl /\ c.1 <= x < bend c).

Section Heap.
Context `{Statics}.

Lemma pools_apart s pl pl' x :
  sizes_ok s -> pl' <> pl -> pool_lo pl' <= x < pool_hi pl' s -> x < pool_lo pl \/ pool_hi pl s <= x.
Proof.
  intros [S1 S2]. unfold pool_lo, pool_hi, HUGE_VA_OFFSET, HUGE_PAGE_START in *. destruct pl, pl'; try contradiction; lia.
Qed.

Lemma base_apart pl pl' x : pl' <> pl -> base pl' <= x < base pl' + 8 -> x < base pl \/ base pl + 8 <= x.
Proof. pose proof statics_apart. unfold base. destruct pl, pl'; try contradiction; lia. Qed.

Lemma base_before pl' pl : base pl' + 8 <= pool_lo pl.
Proof.
  pose proof statics_base. pose proof statics_huge. pose proof statics_end.
  unfold base, pool_lo, HUGE_VA_OFFSET, HUGE_PAGE_START in *. destruct pl, pl'; lia.
Qed.

Lemma pool_ok_ext pl s s' fl al :
  freep pl s' = freep pl s -> pool_hi pl s' = pool_hi pl s -> pool_ok pl s fl al ->
  (forall x, base pl <= x < base pl + 8 \/ (exists c, c ∈ fl ++ al /\ c.1 <= x < c.1 + 8) ->
     load8 (u_mem s') x = load8 (u_mem s) x) ->
  pool_ok pl s' fl al.
Proof.
  intros Ef Eh Hp Hm.
  assert (Hb : forall c k, c ∈ fl ++ al -> k = 0 \/ k = 4 -> load32 (u_mem s') (c.1 + k) = load32 (u_mem s) (c.1 + k)).
  { intros c k Hc Hk. apply load32_ext. intros i Hi. apply Hm. right. exists c. split; [exact Hc | lia]. }
  assert (Hb0 : forall k, k = 0 \/ k = 4 -> load32 (u_mem s') (base pl + k) = load32 (u_mem s) (base pl + k))
    by (intros k Hk; apply load32_ext; intros i Hi; apply Hm; lia).
  destruct Hp as [P1 P2 P3 P4 P5 P6 P7]. constructor; try assumption.
  - rewrite Eh. exact P1.
  - intros c Hc. rewrite Hb by auto. auto.
  - rewrite Hb0 by auto. exact P5.
  - intros x y Hxy. rewrite <- (P6 x y Hxy). assert (Hx : x ∈ nodes (base pl) fl) by (eapply adj_last; exact Hxy).
    rewrite <- (Z.add_0_r x). apply elem_of_cons in Hx as [-> | Hx]; [apply Hb0; auto|].
    apply list_elem_of_fmap in Hx as (c & -> & Hc). apply Hb; [els | auto].
  - rewrite Ef. exact P7.
Qed.

(** An operation on one pool does not disturb the other. *)
Lemma pool_frame pl pl' s s' al0 fl al :
  pl' <> pl -> ustep pl s s' al0 -> pool_st pl' s fl al -> pool_st pl' s' fl al.
Proof.
  intros Hne U Hp. destruct (us_other _ _ _ _ U pl' Hne) as [Ef Eh].
  destruct Hp as [(H0 & Hf & Ha) | Hp]; [left; rewrite Ef; auto|]. right.
  apply (pool_ok_ext pl' s); try assumption. intros x Hx. apply (us_mem _ _ _ _ U).
  assert (Hx' : base pl' <= x < base pl' + 8 \/ pool_lo pl' <= x < pool_hi pl' s).
  { destruct Hx as [Hx | (c & Hc & Hx)]; [auto|]. right. destruct (po_in _ _ _ _ Hp c Hc) as (? & ? & ?). unfold bend in *. lia. }
  clear Hx. rename Hx' into Hx. split.
  - destruct Hx as [Hx | Hx]; [eapply base_apart; eassumption|]. pose proof (base_before pl pl'). lia.
  - destruct Hx as [Hx | Hx]; [pose proof (base_before pl' pl); lia|]. rewrite <- Eh in Hx.
    destruct (pools_apart s' pl pl' x (us_sizes _ _ _ _ U) Hne Hx); auto.
Qed.

Lemma heap_block s F A pl c : heap_ok s F A -> c ∈ A pl -> 0 < c.2 /\ pool_lo pl <= c.1 /\ bend c <= pool_hi pl s.
Proof.
  intros [_ Hp] Hc. destruct (Hp pl) as [(_ & _ & Ha) | Hq]; [rewrite Ha in Hc; apply elem_of_nil in Hc; contradiction|].
  apply (po_in _ _ _ _ Hq). els.
Qed.

Lemma owned_private s F A A0 pl x :
  heap_ok s F A -> (forall pl' c, c ∈ A0 pl' -> c ∈ A pl') -> owned s A0 x -> private pl s (A0 pl) x.
Proof.
  intros Hh Hsub [Hx1 Hx2]. split; [apply Hx1|]. destruct Hx2 as [Hx2 | (pl' & c & Hc & Hx)]; [destruct (Hx2 pl); auto|].
  destruct (pool_cases pl' pl) as [-> | Hne]; [eauto|].
  destruct (heap_block s F A pl' c Hh (Hsub _ _ Hc)) as (? & ? & ?). destruct (pools_apart s pl pl' x (ho_sizes _ _ _ Hh) Hne); auto. lia.
Qed.

Lemma heap_step pl s s' F A fl al :
  heap_ok s F A -> ustep pl s s' (A pl) -> pool_st pl s' fl al -> heap_ok s' (pset pl fl F) (pset pl al A).
Proof.
  intros [Hsz Hp] U Hq. constructor; [apply U|]. intros pl'.
  destruct (pool_cases pl' pl) as [-> | Hne]; [rewrite !pset_same; exact Hq|]. rewrite !pset_other by exact Hne.
  eapply pool_frame; [exact Hne | exact U | apply Hp].
Qed.

(** The first use of a pool makes the static header a ring of its own. *)
Lemma pool_init pl s :
  sizes_ok s -> exists m', let s0 := fp_set pl (base pl) (set_umem m' s) in
    (set_freep pl (base pl) ;; ust (base pl) (base pl) ;; ust (base pl + 4) 0 ;; ret (base pl)) s = Ok (base pl) s0 /\
    pool_ok pl s0 [] [] /\ ustep pl s s0 [].
Proof.
  intros Hsz. set (b := base pl). exists (store32 (store32 (u_mem s) b b) (b + 4) 0). cbv zeta.
  assert (Hb : hdr_at s b) by (apply hdr_base, Hsz). pose proof Hb as (Hb0 & Hb8 & _). unfold KERNBASE in Hb8.
  split; [|split].
  - assert (Hsz0 : sizes_ok (fp_set pl b s)) by (destruct Hsz; unfold fp_set; destruct pl; constructor; assumption).
    pose proof (hdr_base pl _ Hsz0) as Hb'. fold b in Hb'.
    erewrite bind_ok by apply set_freep_ok.
    erewrite bind_ok by (apply ust_ptr; exact Hb'). erewrite bind_ok by (apply ust_size; exact Hb').
    unfold ret, fp_set. destruct pl; reflexivity.
  - constructor; rewrite ?fp_mem, ?fp_freep; cbn [app].
    + intros c Hc. apply elem_of_nil in Hc. contradiction.
    + exact I.
    + exact I.
    + intros c Hc. apply elem_of_nil in Hc. contradiction.
    + apply load32_store32_same.
    + intros x y Hxy. cbn in Hxy. apply adj_cons in Hxy as [[-> ->] | Hxy]; [|apply adj_single in Hxy; contradiction].
      cbn [u_mem set_umem]. fold b. rewrite load32_store32_disj, load32_store32_same by lia. apply w32_small. unfold u32. lia.
    + apply list_elem_of_here.
  - apply ustep_fp; [exact Hsz|]. intros x [Hx _]. fold b in Hx. rewrite !load8_store32_ne by lia. reflexivity.
Qed.

Lemma fuel_enough pl s fl al : sizes_ok s -> pool_ok pl s fl al -> (length fl + 4 <= list_fuel s)%nat.
Proof.
  intros Hsz Hp. pose proof Hsz as [[S1 S2] [S3 S4]]. pose proof statics_base.
  assert (Hl : 8 * Z.of_nat (length fl) <= pool_hi pl s - pool_lo pl).
  { apply gaps_length; [unfold pool_hi, pool_lo; destruct pl; lia | apply Hp | intros c Hc; apply (po_in _ _ _ _ Hp); els]. }
  unfold list_fuel, HDR. assert (Z.of_nat (length fl) <= (u_sz s + u_hugesz s) / 8) by (unfold pool_hi, pool_lo in Hl; destruct pl; zdm). lia.
Qed.

Context `{Grants}.

(** The outcome of an allocation of [nunits] units from a pool: no memory, or
    a block. *)
Definition allocated (pl : pool) (nunits : Z) (s : ustate) (A : pool -> list block) (v : Z) (s' : ustate)
    (A' : pool -> list block) : Prop :=
  ustep pl s s' (A pl) /\
  ((v = 0 /\ A' = A /\ exists s0, morecore pl nunits s0 = Ok 0 s' /\ refused s0 s') \/
   exists b, v = b + 8 /\ A' = pset pl ((b, nunits) :: A pl) A).

Lemma pset_id pl (A : pool -> list block) : pset pl (A pl) A = A.
Proof. apply functional_extensionality. intros pl'. destruct pl, pl'; reflexivity. Qed.

Lemma refused_pool pl s s0 s1 fl al al' :
  refused s0 s1 -> ustep pl s s0 al' -> pool_ok pl s0 fl al -> ustep pl s s1 al' /\ pool_ok pl s1 fl al.
Proof.
  intros [-> | ->] U P; [auto|]. split; [|apply (pool_ok_ext pl s0); auto; destruct pl; reflexivity].
  apply (ustep_trans pl s s0 (ask s0) al' U).
  constructor; try reflexivity; [destruct (us_sizes _ _ _ _ U); constructor; assumption | destruct pl'; auto].
Qed.

Lemma alloc_pool_ok pl nbytes s F A :
  heap_ok s F A -> 0 < units nbytes -> 8 * units nbytes < 2147483648 ->
  exists v s' F' A', alloc_pool pl nbytes s = Ok v s' /\ heap_ok s' F' A' /\ allocated pl (units nbytes) s A v s' A'.
Proof.
  intros Hh Hn Hb. unfold alloc_pool. erewrite bind_ok by reflexivity.
  assert (Hpre : exists s0 fl, (if freep pl s =? 0 then set_freep pl (base pl) ;; ust (base pl) (base pl) ;; ust (base pl + 4) 0 ;; ret (base pl)
                             else ret (freep pl s)) s = Ok (freep pl s0) s0 /\ pool_ok pl s0 fl (A pl) /\ ustep pl s s0 (A pl)).
  { destruct Hh as [Hsz Hp]. destruct (Hp pl) as [(Hf0 & _ & ->) | Hq].
    - destruct (pool_init pl s Hsz) as (m' & E & P & U). rewrite Hf0. cbn [Z.eqb]. eexists _, []. split; [|split; [exact P | exact U]].
      rewrite fp_freep. exact E.
    - rewrite (proj2 (Z.eqb_neq _ _) (freep_pos pl s _ _ Hsz Hq)). exists s, (F pl). split; [reflexivity|]. split; [exact Hq | apply ustep_refl, Hsz]. }
  destruct Hpre as (s0 & fl & E & P & U). erewrite bind_ok by exact E. assert (Hsz0 : sizes_ok s0) by apply U.
  erewrite bind_ok by (apply uld_ptr, (node_hdr pl s0 fl (A pl)); [exact Hsz0 | exact P | apply P]).
  erewrite bind_ok by reflexivity. pose proof (fuel_enough pl s0 fl (A pl) Hsz0 P) as Hf.
  destruct (alloc_loop_ok pl s0 fl (A pl) (units nbytes) (2 * list_fuel s0) Hsz0 P Hn Hb ltac:(lia)) as [(s1 & E1 & _ & Em & Hr) | (b & s1 & f1 & E1 & P1 & U1)].
  - destruct (refused_pool pl s s0 s1 fl (A pl) (A pl) Hr U P) as [U1 P1].
    exists 0, s1, (pset pl fl F), A. split; [exact E1|]. split; [|split; [exact U1 | left; eauto]].
    rewrite <- (pset_id pl A). eapply heap_step; [exact Hh | exact U1 | right; exact P1].
  - assert (U2 : ustep pl s s1 (A pl)) by (eapply ustep_trans; eassumption).
    exists (b + 8), s1, (pset pl f1 F), (pset pl ((b, units nbytes) :: A pl) A). split; [exact E1|].
    split; [eapply heap_step; [exact Hh | exact U2 | right; exact P1] | split; [exact U2 | right; eauto]].
Qed.

Lemma heap_out s F A o : heap_ok s F A -> heap_ok (set_uout o s) F A.
Proof.
  intros [[S1 S2] Hp]. constructor; [constructor; assumption|]. intros pl. destruct (Hp pl) as [Hq | Hq].
  - left. destruct pl; exact Hq.
  - right. apply (pool_ok_ext pl s); destruct pl; auto.
Qed.

(** The pool that a request is served from. *)
Definition pool_for (s : ustate) (nbytes flag : Z) : pool :=
  if flag =? VMALLOC_SIZE_BASE then
    if (1000000 <? nbytes) && negb (u_thp s =? 0) then Huge else Base
  else Huge.

Lemma vmalloc_pool s nbytes flag :
  exists o, vmalloc nbytes flag s = alloc_pool (pool_for s nbytes flag) nbytes (set_uout o s).
Proof.
  assert (Hs : s = set_uout (u_out s) s) by (destruct s; reflexivity).
  unfold vmalloc, pool_for, malloc. destruct (flag =? VMALLOC_SIZE_BASE); [|exists (u_out s); rewrite <- Hs; reflexivity].
  destruct (1000000 <? nbytes); cbn [andb].
  - unfold getthp. erewrite bind_ok by reflexivity. destruct (negb (u_thp s =? 0)); [|exists (u_out s); rewrite <- Hs; reflexivity].
    exists ("Triggered thp\n" :: u_out s)%string. unfold uprintf. erewrite bind_ok by reflexivity. reflexivity.
  - exists (u_out s). rewrite <- Hs. erewrite bind_ok by reflexivity. reflexivity.
Qed.

Lemma units_small nbytes : 0 <= nbytes < 4294967289 -> units nbytes = (nbytes + 7) / 8 + 1.
Proof.
  intros Hn. unfold units, HDR. replace (nbytes + 8 - 1) with (nbytes + 7) by lia.
  rewrite (w32_small (nbytes + 7)) by (unfold u32; lia). apply w32_small. unfold u32. zdm.
Qed.

Lemma allocated_keeps pl n s A v s' A' pl' c : allocated pl n s A v s' A' -> c ∈ A pl' -> c ∈ A' pl'.
Proof.
  intros [_ [(_ & -> & _) | (b & _ & ->)]] Hc; [exact Hc|].
  destruct (pool_cases pl' pl) as [-> | Hne]; [rewrite pset_same; els | rewrite pset_other by exact Hne; exact Hc].
Qed.

Lemma vmalloc_any nbytes flag s F A :
  heap_ok s F A -> 0 < units nbytes -> 8 * units nbytes < 2147483648 ->
  let pl := pool_for s nbytes flag in
  exists v s' F' A', vmalloc nbytes flag s = Ok v s' /\ heap_ok s' F' A' /\
    ((v = 0 /\ A' = A /\ exists s0, morecore pl (units nbytes) s0 = Ok 0 s' /\ refused s0 s') \/
     exists b, v = b + 8 /\ A' = pset pl ((b, units nbytes) :: A pl) A) /\
    (forall x, owned s' A x -> load8 (u_mem s') x = load8 (u_mem s) x).
Proof.
  intros Hh Hn Hb pl. destruct (vmalloc_pool s nbytes flag) as (o & ->). fold pl.
  destruct (alloc_pool_ok pl nbytes (set_uout o s) F A (heap_out _ _ _ o Hh) Hn Hb) as (v & s' & F' & A' & E & H' & U & Hv).
  exists v, s', F', A'. split; [exact E|]. split; [exact H'|]. split; [exact Hv|].
  intros x Hx. change (u_mem s) with (u_mem (set_uout o s)). apply (us_mem _ _ _ _ U).
  apply (owned_private s' F' A'); [exact H' | | exact Hx]. intros pl' c Hc. apply (allocated_keeps pl (units nbytes) (set_uout o s) A v s' A'); [split; assumption | exact Hc].
Qed.

Lemma vfree_any b n pl s F A A0 :
  heap_ok s F A -> A pl ≡ₚ (b, n) :: A0 ->
  exists s' fl', vfree (b + 8) s = Ok tt s' /\ heap_ok s' (pset pl fl' F) (pset pl A0 A) /\
    units_of fl' = units_of (F pl) + n /\ (exists c, c ∈ fl' /\ n <= c.2) /\
    u_sz s' = u_sz s /\ u_hugesz s' = u_hugesz s /\ u_out s' = u_out s /\
    (forall x, owned s (pset pl A0 A) x -> load8 (u_mem s') x = load8 (u_mem s) x).
Proof.
  intros Hh Ea. pose proof Hh as [Hsz Hp].
  assert (Hc : (b, n) ∈ A pl) by (rewrite Ea; els). destruct (heap_block s F A pl _ Hh Hc) as (Hn & Hlo & Hhi). unfold bend in Hhi. cbn in Hn, Hlo, Hhi.
  destruct (Hp pl) as [(_ & _ & E0) | Hq]; [rewrite E0 in Hc; apply elem_of_nil in Hc; contradiction|].
  assert (Hq' : pool_ok pl s (F pl) ((b, n) :: A0)) by (eapply pool_ok_perm; eassumption).
  destruct (free_block_ok pl s (F pl) A0 b n Hsz Hq') as (q & m' & fl' & E & P & Hu & Hbig & _ & Fr).
  assert (Hpr : forall x, private pl s A0 x -> load8 m' x = load8 (u_mem s) x).
  { intros x Hx. apply Fr. destruct Hx as [Hx1 Hx2]. split; [exact Hx1|]. intros c Hc'.
    assert (Hcc : c ∈ F pl ++ (b, n) :: A0) by els. destruct (po_in _ _ _ _ Hq' c Hcc) as (C1 & C2 & C3).
    destruct Hx2 as [Hx | [Hx | (e & He & Hx)]]; [lia | lia |].
    assert (Hpw : pairwise (((b, n) :: F pl) ++ A0)) by (eapply pairwise_perm; [|apply (po_apart _ _ _ _ Hq')]; solve_Permutation).
    apply pairwise_app in Hpw as (_ & _ & Hpw). rewrite Forall_forall in Hpw. specialize (Hpw c Hc').
    rewrite Forall_forall in Hpw. specialize (Hpw e He). unfold apart in Hpw. lia. }
  assert (U : ustep pl s (fp_set pl q (set_umem m' s)) A0) by (apply ustep_fp; assumption).
  exists (fp_set pl q (set_umem m' s)), fl'.
  split; [|split; [|split; [exact Hu|split; [exact Hbig|split; [|split; [|split]]]]]]; try (unfold fp_set; destruct pl; reflexivity).
  - rewrite <- E, <- (vfree_pool pl s b Hsz) by lia. f_equal. unfold HDR. symmetry. apply w32_small.
    destruct Hsz as [[S1 S2] [S3 S4]]. unfold u32, pool_lo, pool_hi, HUGE_VA_OFFSET, HUGE_PAGE_START, HUGE_PAGE_END in *. pose proof statics_base. destruct pl; lia.
  - constructor; [apply U|]. intros pl'. destruct (pool_cases pl' pl) as [-> | Hne]; [rewrite !pset_same; right; exact P|].
    rewrite !pset_other by exact Hne. eapply pool_frame; [exact Hne | exact U | apply Hp].
  - intros x Hx. rewrite fp_mem. apply Hpr. rewrite <- (pset_same pl A0 A). apply (owned_private s F A); [exact Hh | | exact Hx].
    intros pl' c Hc'. destruct (pool_cases pl' pl) as [-> | Hne]; [rewrite pset_same in Hc'; rewrite Ea; els | rewrite pset_other in Hc' by exact Hne; exact Hc'].
Qed.
End Heap.
