(* ===== verification/Client.v ===== *)
(** * What programs get from the allocator

    The contract of [malloc], [vmalloc], [free] and [vfree] towards the
    programs that call them, first for a single call and then, as a refinement,
    for any sequence of calls mixed with writes into the blocks obtained. *)

From Stdlib Require Import ZArith Lia.
From stdpp Require Import base list strings gmap.
From S2P Require Import Prelude Mem Mmu Kernel Umalloc Heap.

(** ** Programs that use the heap

    A program holds the blocks it was given, newest first, with the number of
    bytes it asked for. *)
Inductive uop : Type :=
| OAlloc (nbytes flag : Z)
| OFree (i : nat)
| OPut (i : nat) (off v : Z).

Definition uput (a v : Z) : U unit := fun s =>
  if umapped s a 1 then Ok tt (set_umem (store8 (u_mem s) a v) s) else Fault.

Definition client_op `{Statics} `{Grants} (op : uop) (live : list (Z * Z)) : U (list (Z * Z)) :=
  match op with
  | OAlloc nbytes flag =>
      let! p := vmalloc nbytes flag in
      ret (if p =? 0 then live else (p, nbytes) :: live)
  | OFree i =>
      match live !! i with
      | Some (p, _) => free p ;; ret (delete i live)
      | None => ret live
      end
  | OPut i off v =>
      match live !! i with
      | Some (p, n) => if (0 <=? off) && (off <? n) then uput (p + off) v ;; ret live else ret live
      | None => ret live
      end
  end.

Fixpoint client `{Statics} `{Grants} (ops : list uop) (live : list (Z * Z)) : U (list (Z * Z)) :=
  match ops with
  | [] => ret live
  | op :: ops => let! live := client_op op live in client ops live
  end.

(** ** The abstract heap

    Without addresses: each block has its size and the bytes written to it. *)
Definition ablock : Type := Z * gmap Z Z.

Inductive astep : uop -> list ablock -> list ablock -> Prop :=
| A_alloc nbytes flag a : astep (OAlloc nbytes flag) a ((nbytes, ∅) :: a)
| A_nomem nbytes flag a : astep (OAlloc nbytes flag) a a
| A_free i a : astep (OFree i) a (delete i a)
| A_put i off v a n c :
    a !! i = Some (n, c) -> 0 <= off < n -> astep (OPut i off v) a (<[i := (n, <[off := v mod 256]> c)]> a)
| A_skip i off v a :
    (forall n c, a !! i = Some (n, c) -> ~ 0 <= off < n) -> astep (OPut i off v) a a.

Inductive asteps : list uop -> list ablock -> list ablock -> Prop :=
| A_nil a : asteps [] a a
| A_cons op ops a b c : astep op a b -> asteps ops b c -> asteps (op :: ops) a c.

(** The block at [p] of [n] bytes implements an abstract block. *)
Definition implements (s : ustate) (x : Z * Z) (y : ablock) : Prop :=
  x.2 = y.1 /\
  (forall off, 0 <= off < x.2 -> umapped s (x.1 + off) 1 = true) /\
  (forall off v, y.2 !! off = Some v -> 0 <= off < x.2 /\ load8 (u_mem s) (x.1 + off) = v).

Definition payloads_apart (live : list (Z * Z)) : Prop :=
  forall i j p n q k, i <> j -> live !! i = Some (p, n) -> live !! j = Some (q, k) -> p + n <= q \/ q + k <= p.

Definition in_range (op : uop) : Prop :=
  match op with OAlloc nbytes _ => 0 <= nbytes < 2147483633 | _ => True end.

(** The state of a program that has not used the heap yet. *)
Definition unused_heap `{Statics} (s : ustate) : Prop := sizes_ok s /\ u_freep s = 0 /\ u_hugefreep s = 0.

(** ** Lemmas *)

Section Client.
Context `{Statics} `{Grants}.

Lemma units_range n : 0 <= n < 2147483633 -> 0 < units n /\ 8 * units n < 2147483648 /\ n <= 8 * units n - 8.
Proof. intros Hn. rewrite units_small by lia. zdm. Qed.

Lemma unused_ok s : unused_heap s -> heap_ok s (fun _ => []) (fun _ => []).
Proof. intros (Hsz & H1 & H2). constructor; [exact Hsz|]. intros pl. left. destruct pl; auto. Qed.

Definition blk (x : Z * Z) : block := (x.1 - 8, units x.2).

Record cinv (s : ustate) (F A : pool -> list block) (live : list (Z * Z)) (a : list ablock) : Prop := {
  ci_heap : heap_ok s F A;
  ci_live : A Base ++ A Huge ≡ₚ map blk live;
  ci_sizes x : x ∈ live -> 0 <= x.2 < 2147483633;
  ci_impl : Forall2 (implements s) live a }.

Lemma live_block s F A live a x : cinv s F A live a -> x ∈ live -> exists pl, blk x ∈ A pl.
Proof.
  intros [_ Hl _ _] Hx. assert (Hb : blk x ∈ A Base ++ A Huge) by (rewrite Hl; apply list_elem_of_fmap; eauto).
  apply elem_of_app in Hb as [Hb | Hb]; eauto.
Qed.

(** The bytes of live blocks belong to the program. *)
Lemma block_owned s F A A0 c pl x :
  heap_ok s F A -> c ∈ A pl -> c ∈ A0 pl -> c.1 <= x < bend c -> owned s A0 x.
Proof.
  intros Hh Hc Hc0 Hx. destruct (heap_block s F A pl c Hh Hc) as (? & ? & ?). split; [|right; eauto].
  intros pl'. pose proof (base_before pl' pl). lia.
Qed.

Lemma payload_mapped s F A pl c x :
  heap_ok s F A -> c ∈ A pl -> c.1 <= x < bend c -> umapped s x 1 = true.
Proof.
  intros Hh Hc Hx. destruct (heap_block s F A pl c Hh Hc) as (? & ? & ?). pose proof statics_base.
  unfold umapped, pool_lo, pool_hi, HUGE_VA_OFFSET in *. destruct pl; lia.
Qed.

Lemma payload_in x off : 0 <= x.2 < 2147483633 -> 0 <= off < x.2 -> (blk x).1 <= x.1 + off < bend (blk x) /\ (blk x).1 + 8 <= x.1 + off.
Proof. intros Hx Ho. destruct (units_range x.2 Hx) as (? & ? & ?). unfold bend, blk. cbn [fst snd]. lia. Qed.

(** A live block still implements its abstract block when the heap changed
    and its bytes did not. *)
Lemma implements_kept s s' F' A' x y pl :
  heap_ok s' F' A' -> blk x ∈ A' pl -> 0 <= x.2 < 2147483633 ->
  (forall z, (blk x).1 <= z < bend (blk x) -> load8 (u_mem s') z = load8 (u_mem s) z) ->
  implements s x y -> implements s' x y.
Proof.
  intros Hh Hc Hx Hm (I1 & I2 & I3). split; [exact I1|]. split.
  - intros off Ho. apply (payload_mapped s' F' A' pl (blk x) _ Hh Hc). apply payload_in; assumption.
  - intros off v Hv. destruct (I3 off v Hv) as [Ho E]. split; [exact Ho|]. rewrite Hm; [exact E|]. apply payload_in; assumption.
Qed.

Lemma pset_split pl c A0 (A : pool -> list block) :
  pset pl (c :: A0) A Base ++ pset pl (c :: A0) A Huge ≡ₚ c :: (pset pl A0 A Base ++ pset pl A0 A Huge).
Proof. destruct pl; cbn; [reflexivity|]. solve_Permutation. Qed.

Definition op_ok (op : uop) (s : ustate) (live : list (Z * Z)) (a : list ablock) : Prop :=
  exists live' s' F' A' a', client_op op live s = Ok live' s' /\ astep op a a' /\ cinv s' F' A' live' a'.

Lemma impl_all s s' F' A' live a :
  heap_ok s' F' A' -> (forall x, x ∈ live -> 0 <= x.2 < 2147483633) ->
  (forall x, x ∈ live -> exists pl, blk x ∈ A' pl /\
     forall z, (blk x).1 <= z < bend (blk x) -> load8 (u_mem s') z = load8 (u_mem s) z) ->
  Forall2 (implements s) live a -> Forall2 (implements s') live a.
Proof.
  intros Hh Hsz Hb Hi. apply Forall2_same_length_lookup. split; [eapply Forall2_length; exact Hi|]. intros i x y Hx Hy.
  assert (Hin : x ∈ live) by (eapply list_elem_of_lookup_2; exact Hx). destruct (Hb x Hin) as (pl & Hp & Hm).
  apply (implements_kept s s' F' A' x y pl Hh Hp (Hsz x Hin) Hm). eapply Forall2_lookup_lr; eassumption.
Qed.

Lemma op_alloc nbytes flag s F A live a :
  cinv s F A live a -> 0 <= nbytes < 2147483633 -> op_ok (OAlloc nbytes flag) s live a.
Proof.
  intros Hc Hn. destruct (units_range nbytes Hn) as (U1 & U2 & U3).
  destruct (vmalloc_any nbytes flag s F A (ci_heap _ _ _ _ _ Hc) U1 U2) as (v & s' & F' & A' & E & Hh & Hv & Hm).
  set (pl := pool_for s nbytes flag) in *.
  assert (Hsub : forall pl' c, c ∈ A pl' -> c ∈ A' pl').
  { intros pl' c Hin. destruct Hv as [(_ & -> & _) | (b & _ & ->)]; [exact Hin|].
    destruct (pool_cases pl' pl) as [-> | Hne]; [rewrite pset_same; els | rewrite pset_other by exact Hne; exact Hin]. }
  assert (Hi : Forall2 (implements s') live a).
  { apply (impl_all s s' F' A' live a Hh (ci_sizes _ _ _ _ _ Hc)); [|apply Hc]. intros x Hin.
    destruct (live_block _ _ _ _ _ x Hc Hin) as (pl' & Hp). exists pl'. split; [apply Hsub, Hp|]. intros z Hz. apply Hm.
    apply (block_owned s' F' A' A _ pl' z Hh (Hsub _ _ Hp) Hp Hz). }
  unfold op_ok, client_op. erewrite bind_ok by exact E. destruct Hv as [(-> & -> & _) | (b & -> & ->)].
  - exists live, s', F', A, a. split; [reflexivity|]. split; [constructor|]. constructor; [exact Hh | apply Hc | apply Hc | exact Hi].
  - assert (Hb : (b, units nbytes) ∈ pset pl ((b, units nbytes) :: A pl) A pl) by (rewrite pset_same; els).
    destruct (heap_block _ _ _ pl _ Hh Hb) as (_ & Hlo & _). cbn [fst] in Hlo. pose proof (base_before Base pl). pose proof statics_base.
    unfold base in *. rewrite (proj2 (Z.eqb_neq (b + 8) 0)) by lia.
    assert (Eb : blk (b + 8, nbytes) = (b, units nbytes)) by (unfold blk; cbn [fst snd]; f_equal; lia).
    exists ((b + 8, nbytes) :: live), s', F', (pset pl ((b, units nbytes) :: A pl) A), ((nbytes, ∅) :: a).
    split; [reflexivity|]. split; [constructor|]. constructor; [exact Hh | | | constructor; [|exact Hi]].
    + rewrite pset_split, pset_id. cbn [map]. rewrite Eb, (ci_live _ _ _ _ _ Hc). reflexivity.
    + intros x Hx. apply elem_of_cons in Hx as [-> | Hx]; [exact Hn | apply Hc; exact Hx].
    + split; [reflexivity|]. split; [|intros off v Ho; cbn in Ho; rewrite lookup_empty in Ho; discriminate].
      intros off Ho. rewrite <- Eb in Hb. rewrite <- Eb in Hh. apply (payload_mapped s' _ _ pl _ _ Hh Hb). apply (payload_in (b + 8, nbytes)); assumption.
Qed.

Lemma delete_beyond {T} (l : list T) i : (length l <= i)%nat -> delete i l = l.
Proof. revert i. induction l as [|x l IH]; intros [|i] Hi; cbn in *; auto with lia. f_equal. apply IH. lia. Qed.

Lemma op_free i s F A live a : cinv s F A live a -> op_ok (OFree i) s live a.
Proof.
  intros Hc. unfold op_ok, client_op. pose proof (ci_impl _ _ _ _ _ Hc) as Hi. destruct (live !! i) as [[p n]|] eqn:Ei.
  2:{ exists live, s, F, A, (delete i a). split; [reflexivity|]. split; [constructor|].
      rewrite delete_beyond; [exact Hc|]. apply Forall2_length in Hi. rewrite <- Hi. apply lookup_ge_None_1. exact Ei. }
  assert (Hin : (p, n) ∈ live) by (eapply list_elem_of_lookup_2; exact Ei).
  destruct (live_block _ _ _ _ _ _ Hc Hin) as (pl & Hp). destruct (proj1 (elem_of_Permutation _ _) Hp) as (A0 & Ea).
  unfold blk in Ea. cbn [fst snd] in Ea.
  destruct (vfree_any (p - 8) (units n) pl s F A A0 (ci_heap _ _ _ _ _ Hc) Ea) as (s' & fl' & E & Hh & _ & _ & _ & _ & _ & Hm).
  replace (p - 8 + 8) with p in E by lia. unfold free. erewrite bind_ok by exact E.
  assert (Hsub : forall pl' c, c ∈ pset pl A0 A pl' -> c ∈ A pl').
  { intros pl' c Hx. destruct (pool_cases pl' pl) as [-> | Hne]; [rewrite pset_same in Hx; rewrite Ea; els | rewrite pset_other in Hx by exact Hne; exact Hx]. }
  assert (El : pset pl A0 A Base ++ pset pl A0 A Huge ≡ₚ map blk (delete i live)).
  { apply (Permutation.Permutation_cons_inv (a := blk (p, n))). rewrite <- pset_split. change (blk (p, n) :: map blk (delete i live)) with (map blk ((p, n) :: delete i live)).
    rewrite <- (delete_Permutation live i (p, n) Ei), <- (ci_live _ _ _ _ _ Hc).
    unfold blk. cbn [fst snd]. destruct pl; cbn [pset]; rewrite Ea; reflexivity. }
  assert (Hl : forall x, x ∈ delete i live -> x ∈ live) by (intros x Hx; rewrite (delete_Permutation live i (p, n) Ei); els).
  exists (delete i live), s', (pset pl fl' F), (pset pl A0 A), (delete i a).
  split; [reflexivity|]. split; [constructor|]. constructor; [exact Hh | exact El | intros x Hx; apply Hc, Hl, Hx |].
  apply (impl_all s s' _ _ _ _ Hh); [intros x Hx; apply Hc, Hl, Hx | | apply Forall2_delete, Hi]. intros x Hx.
  assert (Hx' : blk x ∈ pset pl A0 A Base ++ pset pl A0 A Huge) by (rewrite El; apply list_elem_of_fmap; eauto).
  assert (Hpl : exists pl', blk x ∈ pset pl A0 A pl') by (apply elem_of_app in Hx' as [Hx' | Hx']; eauto).
  destruct Hpl as (pl' & Hq). exists pl'. split; [exact Hq|]. intros z Hz. apply Hm.
  apply (block_owned s F A _ (blk x) pl' z (ci_heap _ _ _ _ _ Hc) (Hsub _ _ Hq) Hq Hz).
Qed.

Lemma pairwise_lookup l i j x y : pairwise l -> i <> j -> l !! i = Some x -> l !! j = Some y -> apart x y.
Proof.
  revert i j. induction l as [|z l IH]; intros i j Hl Hij Hi Hj; [discriminate|]. destruct Hl as [Hf Hp].
  rewrite Forall_forall in Hf. destruct i as [|i], j as [|j]; cbn in Hi, Hj; [contradiction | | |].
  - injection Hi as ->. apply Hf. eapply list_elem_of_lookup_2; exact Hj.
  - injection Hj as ->. apply apart_sym, Hf. eapply list_elem_of_lookup_2; exact Hi.
  - apply (IH i j Hp); auto.
Qed.

Lemma heap_apart s F A pl pl' c e :
  heap_ok s F A -> pl' <> pl -> c ∈ F pl' ++ A pl' -> e ∈ A pl -> apart c e.
Proof.
  intros Hh Hne Hc He. destruct (heap_block s F A pl e Hh He) as (E1 & E2 & E3).
  destruct (ho_pool _ _ _ Hh pl') as [(_ & E4 & E5) | Hq]; [rewrite E4, E5 in Hc; apply elem_of_nil in Hc; contradiction|].
  destruct (po_in _ _ _ _ Hq c Hc) as (C1 & C2 & C3). destruct (ho_sizes _ _ _ Hh) as [S1 S2].
  unfold apart, bend, pool_lo, pool_hi, HUGE_VA_OFFSET, HUGE_PAGE_START in *. destruct pl, pl'; try contradiction; lia.
Qed.

Lemma live_apart s F A live a : cinv s F A live a -> pairwise (map blk live).
Proof.
  intros Hc. pose proof (ci_heap _ _ _ _ _ Hc) as Hh. eapply pairwise_perm; [apply (ci_live _ _ _ _ _ Hc)|].
  assert (Hp : forall pl, pairwise (A pl)).
  { intros pl. destruct (ho_pool _ _ _ Hh pl) as [(_ & _ & ->) | Hq]; [exact I|]. pose proof (po_apart _ _ _ _ Hq) as Hp. apply pairwise_app in Hp. apply Hp. }
  apply pairwise_app. split; [apply Hp|]. split; [apply Hp|].
  apply Forall_forall. intros x Hx. apply Forall_forall. intros y Hy.
  apply (heap_apart s F A Huge Base x y Hh); [discriminate | els | exact Hy].
Qed.

(** A write inside an allocated block reaches no header. *)
Lemma heap_put s F A pl c x v :
  heap_ok s F A -> c ∈ A pl -> c.1 + 8 <= x < bend c -> heap_ok (set_umem (store8 (u_mem s) x v) s) F A.
Proof.
  intros Hh Hc Hx. pose proof Hh as [[S1 S2] Hp]. destruct (heap_block s F A pl c Hh Hc) as (C1 & C2 & C3).
  constructor; [constructor; assumption|]. intros pl'. destruct (Hp pl') as [Hq | Hq]; [left; destruct pl'; exact Hq|]. right.
  apply (pool_ok_ext pl' s); [destruct pl'; reflexivity | destruct pl'; reflexivity | exact Hq |].
  intros z Hz. cbn [u_mem set_umem]. apply load8_store8_ne. destruct Hz as [Hz | (e & He & Hz)]; [pose proof (base_before pl' pl); lia|].
  assert (Hd : c = e \/ apart e c).
  { destruct (pool_cases pl' pl) as [-> | Hne]; [|right; apply (heap_apart s F A pl pl' e c Hh Hne He Hc)].
    destruct (pairwise_elem _ e c (po_apart _ _ _ _ Hq) He) as [-> | Ha]; [els | auto | auto]. }
  destruct (po_in _ _ _ _ Hq e He) as (E1 & E2 & E3). unfold apart, bend in *. destruct Hd as [-> | Hd]; lia.
Qed.

Lemma put_impl s live a i p n c off v :
  let s' := set_umem (store8 (u_mem s) (p + off) v) s in
  (forall x, x ∈ live -> 0 <= x.2 < 2147483633) -> pairwise (map blk live) -> Forall2 (implements s) live a ->
  live !! i = Some (p, n) -> a !! i = Some (n, c) -> 0 <= off < n ->
  Forall2 (implements s') live (<[i := (n, <[off := v mod 256]> c)]> a).
Proof.
  intros s' Hsz Hpw Hi Ei Ea Ho. apply Forall2_same_length_lookup. split; [rewrite length_insert; eapply Forall2_length; exact Hi|].
  intros j x y Hx Hy. destruct (decide (i = j)) as [<- | Hne].
  - rewrite list_lookup_insert_eq in Hy by (eapply lookup_lt_Some; exact Ea). injection Hy as <-. rewrite Ei in Hx. injection Hx as <-.
    destruct (Forall2_lookup_lr _ _ _ _ _ _ Hi Ei Ea) as (I1 & I2 & I3). split; [exact I1|]. split; [exact I2|].
    cbn [fst snd] in *. intros off' w Hw. destruct (decide (off = off')) as [<- | Hoff].
    + rewrite lookup_insert_eq in Hw. injection Hw as <-. split; [exact Ho|]. apply load8_store8_same.
    + rewrite lookup_insert_ne in Hw by exact Hoff. destruct (I3 off' w Hw) as [Hr <-]. split; [exact Hr|]. apply load8_store8_ne. lia.
  - rewrite list_lookup_insert_ne in Hy by exact Hne. destruct (Forall2_lookup_lr _ _ _ _ _ _ Hi Hx Hy) as (I1 & I2 & I3).
    split; [exact I1|]. split; [exact I2|]. intros off' w Hw. destruct (I3 off' w Hw) as [Hr <-]. split; [exact Hr|]. apply load8_store8_ne.
    assert (Ha : apart (blk (p, n)) (blk x)) by (apply (pairwise_lookup (map blk live) i j); [exact Hpw | exact Hne | |]; rewrite list_lookup_fmap; [rewrite Ei | rewrite Hx]; reflexivity).
    pose proof (payload_in (p, n) off (Hsz (p, n) ltac:(eapply list_elem_of_lookup_2; exact Ei)) Ho) as P1.
    pose proof (payload_in x off' (Hsz x ltac:(eapply list_elem_of_lookup_2; exact Hx)) Hr) as P2.
    unfold apart in Ha. cbn [fst snd] in P1. lia.
Qed.

Lemma op_put i off v s F A live a : cinv s F A live a -> op_ok (OPut i off v) s live a.
Proof.
  intros Hc. unfold op_ok, client_op. pose proof (ci_impl _ _ _ _ _ Hc) as Hi.
  assert (Hskip : forall (Hs : forall n c, a !! i = Some (n, c) -> ~ 0 <= off < n),
    exists live' s' F' A' a', Ok live s = Ok live' s' /\ astep (OPut i off v) a a' /\ cinv s' F' A' live' a')
    by (intros Hs; exists live, s, F, A, a; split; [reflexivity|]; split; [apply A_skip, Hs | exact Hc]).
  destruct (live !! i) as [[p n]|] eqn:Ei.
  2:{ apply Hskip. intros n c Ea. destruct (Forall2_lookup_r _ _ _ _ _ Hi Ea) as (x & Hx & _). congruence. }
  destruct (Forall2_lookup_l _ _ _ _ _ Hi Ei) as ([n' c] & Ea & I1 & I2 & I3). cbn in I1. subst n'.
  destruct ((0 <=? off) && (off <? n)) eqn:Eo.
  2:{ apply Hskip. intros n0 c0 E0. pose proof (eq_trans (eq_sym Ea) E0) as E1. injection E1 as <- <-. lia. }
  assert (Ho : 0 <= off < n) by lia. assert (Hin : (p, n) ∈ live) by (eapply list_elem_of_lookup_2; exact Ei).
  destruct (live_block _ _ _ _ _ _ Hc Hin) as (pl & Hp).
  pose proof (payload_in (p, n) off (ci_sizes _ _ _ _ _ Hc _ Hin) Ho) as Hpay.
  erewrite bind_ok by (unfold uput; cbn [fst] in *; rewrite (I2 off Ho); reflexivity).
  exists live, (set_umem (store8 (u_mem s) (p + off) v) s), F, A, (<[i := (n, <[off := v mod 256]> c)]> a).
  split; [reflexivity|]. split; [apply A_put; assumption|].
  constructor; [apply (heap_put s F A pl (blk (p, n))); [apply Hc | exact Hp | cbn [fst] in *; lia] | apply Hc | apply Hc |].
  apply put_impl; try assumption; [apply Hc | eapply live_apart; exact Hc].
Qed.

Lemma client_inv ops : forall s F A live a,
  cinv s F A live a -> Forall in_range ops ->
  exists live' s' F' A' a', client ops live s = Ok live' s' /\ asteps ops a a' /\ cinv s' F' A' live' a'.
Proof.
  induction ops as [|op ops IH]; intros s F A live a Hc Hr; [exists live, s, F, A, a; split; [reflexivity | split; [apply A_nil | exact Hc]]|].
  apply Forall_cons in Hr as [Hr1 Hr2]. cbn [client].
  assert (Ho : op_ok op s live a) by (destruct op; [eapply op_alloc | eapply op_free | eapply op_put]; eassumption).
  destruct Ho as (live1 & s1 & F1 & A1 & a1 & E1 & S1 & C1). erewrite bind_ok by exact E1.
  destruct (IH s1 F1 A1 live1 a1 C1 Hr2) as (live2 & s2 & F2 & A2 & a2 & E2 & S2 & C2).
  exists live2, s2, F2, A2, a2. split; [exact E2|]. split; [econstructor; eassumption | exact C2].
Qed.
End Client.

(** ** The contract *)


(** [vmalloc], and [malloc], which is [vmalloc] with the
    base flag, either find no memory and return null, or return a block of at
    least the size that was asked for, in the pool that the flag and the
    THP setting select; the heap stays well formed, and no byte that belongs
    to the program changes. *)
Lemma vmalloc_allocates `{Statics} `{Grants} nbytes flag s F A :
  heap_ok s F A -> 0 <= nbytes < 2147483633 ->
  let pl := pool_for s nbytes flag in
  exists v s' F' A', vmalloc nbytes flag s = Ok v s' /\ heap_ok s' F' A' /\
    ((v = 0 /\ A' = A /\ exists s0, morecore pl (units nbytes) s0 = Ok 0 s' /\ refused s0 s') \/
     exists b, v = b + 8 /\ nbytes <= 8 * units nbytes - 8 /\ A' = pset pl ((b, units nbytes) :: A pl) A) /\
    (forall x, owned s' A x -> load8 (u_mem s') x = load8 (u_mem s) x).
Proof.
  intros Hh Hn pl. destruct (units_range nbytes Hn) as (U1 & U2 & U3).
  destruct (vmalloc_any nbytes flag s F A Hh U1 U2) as (v & s' & F' & A' & E & H' & Hv & Hm).
  exists v, s', F', A'. split; [exact E|]. split; [exact H'|]. split; [|exact Hm].
  destruct Hv as [Hv | (b & -> & ->)]; [left; exact Hv | right; eauto].
Qed.

(** [vfree] and [free] take a block back: its units go to
    the free list of its pool, where a request of the same size finds them, no
    size of the process changes and no byte that the program still owns. *)
Lemma vfree_takes_back `{Statics} b n pl s F A A0 :
  heap_ok s F A -> A pl ≡ₚ (b, n) :: A0 ->
  exists s' fl', vfree (b + 8) s = Ok tt s' /\ heap_ok s' (pset pl fl' F) (pset pl A0 A) /\
    units_of fl' = units_of (F pl) + n /\ (exists c, c ∈ fl' /\ n <= c.2) /\
    u_sz s' = u_sz s /\ u_hugesz s' = u_hugesz s /\
    (forall x, owned s (pset pl A0 A) x -> load8 (u_mem s') x = load8 (u_mem s) x).
Proof.
  intros Hh Ea. destruct (vfree_any b n pl s F A A0 Hh Ea) as (s' & fl' & E & H' & Hu & Hb & E1 & E2 & _ & Hm).
  exists s', fl'. auto 10.
Qed.

(** C40 (bounds).  The size computation of [malloc] wraps: a request for one of
    the seven largest sizes is served with a block of a single unit, which is
    all header and has no room for the program. *)
Theorem malloc_wraps `{Statics} `{Grants} nbytes s F A :
  heap_ok s F A -> 4294967289 <= nbytes < 4294967296 ->
  exists v s' F' A', malloc nbytes s = Ok v s' /\ heap_ok s' F' A' /\
    let pl := pool_for s nbytes VMALLOC_SIZE_BASE in
    ((v = 0 /\ A' = A /\ exists s0, morecore pl 1 s0 = Ok 0 s' /\ refused s0 s') \/ exists b, v = b + 8 /\ A' = pset pl ((b, 1) :: A pl) A).
Proof.
  intros Hh Hn. assert (Eu : units nbytes = 1).
  { unfold units, HDR, w32. replace ((nbytes + 8 - 1) mod 4294967296) with (nbytes - 4294967289) by zdm.
    rewrite Z.div_small by lia. reflexivity. }
  destruct (vmalloc_any nbytes VMALLOC_SIZE_BASE s F A Hh) as (v & s' & F' & A' & E & H' & Hv & _); [lia | lia |].
  exists v, s', F', A'. split; [exact E|]. split; [exact H'|]. rewrite Eu in Hv. exact Hv.
Qed.

(** ** Concrete heaps *)

#[local] Instance sample_statics : Statics.
Proof. refine {| base_addr := 4096; hugebase_addr := 4104; heap_start := 16384 |}; unfold HUGE_PAGE_START; lia. Defined.

(** The kernel refuses the second request and grants the others. *)
#[local] Instance sample_grants : Grants.
Proof.
  refine {| enough := fun k _ new => negb (k =? 1)%nat && (new <=? PHYSTOP);
            enough_huge := fun _ _ new => new <=? HUGE_VA_OFFSET + (HUGE_PAGE_END - HUGE_PAGE_START) |};
    intros k old new E; [apply andb_prop in E as [_ E]|]; lia.
Defined.

Definition sample : ustate := mkU (fun _ => 0) 0 0 16384 0 1 [] 0.

Lemma sample_unused : unused_heap sample.
Proof. split; [constructor; cbn; unfold HUGE_PAGE_START, HUGE_PAGE_END; lia | split; reflexivity]. Qed.

Definition sample_ops : list uop :=
  [OAlloc 100 0; OAlloc 2000000 0; OPut 1 7 300; OAlloc 5 1; OFree 1; OPut 1 99 4; OAlloc 40 0].



Lemma malloc_wraps_witness :
  exists v s' F' A', malloc 4294967295 sample = Ok v s' /\ heap_ok s' F' A'.
Proof.
  destruct (malloc_wraps 4294967295 sample _ _ (unused_ok sample sample_unused) ltac:(lia)) as (v & s' & F' & A' & E & H' & _).
  exists v, s', F', A'. split; assumption.
Defined.

(** The heap after [malloc(100)]. *)
Definition one_block : ustate :=
  mkU (store32 (store32 (store32 (store32 (fun _ => 0) 4096 16384) 16384 4096) 16388 4082) 49044 14) 4096 0 49152 0 0 [] 1.

Definition one_free (pl : pool) : list block := match pl with Base => [(16384, 4082)] | Huge => [] end.
Definition one_live (pl : pool) : list block := match pl with Base => [(49040, 14)] | Huge => [] end.

Lemma one_block_ok : heap_ok one_block one_free one_live.
Proof.
  constructor; [constructor; cbn; unfold HUGE_PAGE_START, HUGE_PAGE_END; lia|]. intros []; [|left; auto]. right.
  assert (Hin : forall c, c ∈ one_free Base ++ one_live Base -> c = (16384, 4082) \/ c = (49040, 14)) by (cbn; intros c Hc; els).
  constructor.
  - intros c Hc. destruct (Hin c Hc) as [-> | ->]; cbn; unfold bend; cbn; lia.
  - cbn. split; [|split; [constructor | exact I]]. constructor; [|constructor]. left. unfold bend. cbn. lia.
  - cbn. auto.
  - intros c Hc. destruct (Hin c Hc) as [-> | ->]; reflexivity.
  - reflexivity.
  - cbn. intros x y Hxy. apply adj_cons in Hxy as [[-> ->] | Hxy]; [reflexivity|].
    apply adj_cons in Hxy as [[-> ->] | Hxy]; [reflexivity|]. apply adj_single in Hxy. contradiction.
  - apply list_elem_of_here.
Qed.

