(* ===== verification/Ulib.v ===== *)
(** * solution/ulib.c and printf.c: the library of the user programs

    A C string is the list of its bytes before the terminating zero, and a
    pointer into it is a suffix of that list; [*s] is [at0 s], the next byte or
    zero at the end.  [memmove], [memset] and [strcpy] work on byte memory. *)

From Stdlib Require Import ZArith Lia ZifyBool ZifyNat.
From stdpp Require Import base list strings.
From S2P Require Import Prelude Mem Console.

(** The bytes of a string constant. *)
Fixpoint chars (s : string) : list Z :=
  match s with
  | EmptyString => []
  | String c s' => Z.of_nat (Ascii.nat_of_ascii c) :: chars s'
  end.

Definition at0 (s : list Z) : Z := default 0 (head s).

(** ** Definitions *)

(** *** ulib.c *)

(** The copying loop; [None] when the source has no zero within [fuel] bytes. *)
Fixpoint strcpy (m : mem) (s t : Z) (fuel : nat) : option mem :=
  match fuel with
  | O => None
  | S f =>
      let c := load8 m t in
      let m' := store8 m s c in
      if c =? 0 then Some m' else strcpy m' (s + 1) (t + 1) f
  end.

Fixpoint strcmp (p q : list Z) : Z :=
  match p with
  | [] => 0 - at0 q
  | c :: p' => if c =? at0 q then strcmp p' (tail q) else c - at0 q
  end.

Definition strlen (s : list Z) : Z := Z.of_nat (length s).

(** The suffix that starts at the first [c]. *)
Fixpoint strchr (s : list Z) (c : Z) : option (list Z) :=
  match s with
  | [] => None
  | d :: s' => if d =? c then Some s else strchr s' c
  end.

(** [gets]: the line read from standard input [inp], one byte at a time, and
    what is left of the input. *)
Fixpoint gets_loop (inp : list Z) (room : nat) : list Z * list Z :=
  match room, inp with
  | S r, c :: inp' =>
      if (c =? 10) || (c =? 13) then ([c], inp')
      else let '(l, rest) := gets_loop inp' r in (c :: l, rest)
  | _, _ => ([], inp)
  end.
Definition gets (inp : list Z) (max : Z) : list Z * list Z := gets_loop inp (Z.to_nat (max - 1)).

Fixpoint atoi_loop (n : Z) (s : list Z) : Z :=
  match s with
  | c :: s' => if (48 <=? c) && (c <=? 57) then atoi_loop (s32 (n * 10 + c - 48)) s' else n
  | [] => n
  end.
Definition atoi (s : list Z) : Z := atoi_loop 0 s.

Fixpoint memmove_loop (m : mem) (dst src : Z) (n : nat) : mem :=
  match n with
  | O => m
  | S n' => memmove_loop (store8 m dst (load8 m src)) (dst + 1) (src + 1) n'
  end.
Definition memmove (m : mem) (vdst vsrc n : Z) : mem := memmove_loop m vdst vsrc (Z.to_nat n).

Definition memset (m : mem) (dst c n : Z) : mem := Mem.stosb m dst c n.

(** *** printf.c *)

Definition digits (d : Z) : Z := if d <? 10 then 48 + d else 55 + d.

Fixpoint printint_loop (x base : Z) (fuel : nat) : list Z :=
  match fuel with
  | O => []
  | S f =>
      let rest := if x / base =? 0 then [] else printint_loop (x / base) base f in
      digits (x mod base) :: rest
  end.
Definition printint (xx base : Z) (sgn : bool) : list Z :=
  let neg := sgn && (xx <? 0) in
  let x := if neg then w32 (- xx) else w32 xx in
  rev (printint_loop x base 32 ++ (if neg then [45] else [])).

(** The bytes that [printf] writes.  A missing or mistyped argument is not
    modelled: [None]. *)
Fixpoint printf (fmt : list Z) (args : list parg) : option (list Z) :=
  match fmt with
  | [] => Some []
  | c :: fmt' =>
      if negb (c =? 37) then cons c <$> printf fmt' args
      else
        match fmt' with
        | [] => Some []
        | d :: fmt'' =>
            if d =? 100 then
              match args with
              | PInt v :: args' => app (printint (s32 v) 10 true) <$> printf fmt'' args'
              | _ => None
              end
            else if (d =? 120) || (d =? 112) then
              match args with
              | PInt v :: args' => app (printint v 16 false) <$> printf fmt'' args'
              | _ => None
              end
            else if d =? 115 then
              match args with
              | PStr s :: args' => app (default (chars "(null)") s) <$> printf fmt'' args'
              | _ => None
              end
            else if d =? 99 then
              match args with
              | PInt v :: args' => cons (v mod 256) <$> printf fmt'' args'
              | _ => None
              end
            else if d =? 37 then cons 37 <$> printf fmt'' args
            else (fun l => 37 :: d :: l) <$> printf fmt'' args
        end
  end.

(** ** Lemmas *)

Lemma strchr_split s c r :
  strchr s c = Some r -> exists pre r', s = pre ++ c :: r' /\ r = c :: r' /\ c ∉ pre.
Proof.
  revert r. induction s as [|d s IH]; intros r Hr; [discriminate|]. cbn in Hr. destruct (Z.eqb_spec d c) as [-> | Hne].
  - injection Hr as <-. exists [], s. split; [reflexivity|]. split; [reflexivity|]. apply not_elem_of_nil.
  - destruct (IH r Hr) as (pre & r' & -> & -> & Hn). exists (d :: pre), r'. split; [reflexivity|]. split; [reflexivity|].
    apply not_elem_of_cons. split; [congruence | exact Hn].
Qed.

Lemma strchr_none s c : strchr s c = None <-> c ∉ s.
Proof.
  induction s as [|d s IH]; cbn; [split; [intros _; apply not_elem_of_nil | reflexivity]|].
  rewrite not_elem_of_cons. destruct (Z.eqb_spec d c) as [-> | Hne].
  - split; [discriminate | intros [Hc _]; contradiction].
  - rewrite IH. split; [intros Hs; split; [congruence | exact Hs] | intros [_ Hs]; exact Hs].
Qed.

Lemma strchr_app pre c r : c ∉ pre -> strchr (pre ++ c :: r) c = Some (c :: r).
Proof.
  induction pre as [|d pre IH]; intros Hn; cbn; [rewrite Z.eqb_refl; reflexivity|].
  apply not_elem_of_cons in Hn as [Hd Hn]. destruct (Z.eqb_spec d c) as [-> | _]; [contradiction | apply IH, Hn].
Qed.

(** [strcmp] is zero exactly on equal strings. *)
Lemma strcmp_eq p q :
  Forall (fun c => c <> 0) p -> Forall (fun c => c <> 0) q -> strcmp p q = 0 <-> p = q.
Proof.
  revert q. induction p as [|c p IH]; intros q Hp Hq.
  - destruct q as [|d q]; cbn; [tauto|]. apply Forall_cons in Hq as [Hd _]. split; [lia | discriminate].
  - apply Forall_cons in Hp as [Hc Hp]. destruct q as [|d q]; cbn.
    + rewrite (proj2 (Z.eqb_neq c 0) Hc). split; [lia | discriminate].
    + apply Forall_cons in Hq as [_ Hq]. destruct (Z.eqb_spec c d) as [-> | Hne].
      * rewrite (IH q Hp Hq). split; [intros -> | intros [= ->]]; reflexivity.
      * split; [lia | congruence].
Qed.

(** The loop of [memmove] runs forward only, which is right when the target
    does not start inside the source. *)
Lemma memmove_loop_fwd n : forall m dst src x,
  dst <= src \/ src + Z.of_nat n <= dst ->
  load8 (memmove_loop m dst src n) x =
    if (dst <=? x) && (x <? dst + Z.of_nat n) then load8 m (src + (x - dst)) else load8 m x.
Proof.
  induction n as [|n IH]; intros m dst src x Hd; cbn [memmove_loop]; [zcase; lia|].
  rewrite IH by lia. destruct (Z.eq_dec x dst) as [-> | Hne].
  - rewrite (proj2 (Z.leb_gt (dst + 1) dst)) by lia. rewrite Z.leb_refl, (proj2 (Z.ltb_lt dst (dst + Z.of_nat (S n)))) by lia.
    cbn [andb]. rewrite load8_store8_same, Z.sub_diag, Z.add_0_r. apply Z.mod_small, load8_range.
  - destruct ((dst <=? x) && (x <? dst + Z.of_nat (S n))) eqn:E.
    + rewrite (proj2 (andb_true_iff (dst + 1 <=? x) (x <? dst + 1 + Z.of_nat n))) by (split; lia).
      rewrite load8_store8_ne by lia. f_equal. lia.
    + rewrite (proj2 (andb_false_iff (dst + 1 <=? x) (x <? dst + 1 + Z.of_nat n))) by (destruct (Z.leb_spec (dst + 1) x); [right | left]; lia).
      apply load8_store8_ne. exact Hne.
Qed.
