(* ===== verification/Grep.v ===== *)
(** * solution/grep.c and wc.c: text filters

    The regular expression matcher of grep.c against a reference semantics of
    the patterns, the line buffering around it, and the counters of wc.c. *)

From Stdlib Require Import ZArith Lia ZifyBool ZifyNat.
From stdpp Require Import base list strings.
From S2P Require Import Prelude Mem Console Ulib.

(** ** Definitions *)

Definition ch_star : Z := 42.
Definition ch_dot : Z := 46.
Definition ch_dollar : Z := 36.
Definition ch_caret : Z := 94.
Definition ch_nl : Z := 10.

(** [matchstar]: the loop over the text, [m] being [matchhere] with the rest of
    the pattern. *)
Fixpoint matchstar (c : Z) (m : list Z -> bool) (text : list Z) : bool :=
  if m text then true
  else
    match text with
    | [] => false
    | t :: text' => if (t =? c) || (c =? ch_dot) then matchstar c m text' else false
    end.

Fixpoint matchhere (re text : list Z) : bool :=
  match re with
  | [] => true
  | r0 :: re1 =>
      match re1 with
      | r1 :: re2 =>
          if r1 =? ch_star then matchstar r0 (matchhere re2) text
          else
            match text with
            | t :: text' => if (r0 =? ch_dot) || (r0 =? t) then matchhere re1 text' else false
            | [] => false
            end
      | [] =>
          if r0 =? ch_dollar then match text with [] => true | _ => false end
          else
            match text with
            | t :: text' => if (r0 =? ch_dot) || (r0 =? t) then matchhere re1 text' else false
            | [] => false
            end
      end
  end.

(** The do-while loop of [match] over the suffixes of the text. *)
Fixpoint match_loop (re text : list Z) : bool :=
  if matchhere re text then true
  else match text with [] => false | _ :: text' => match_loop re text' end.

Definition rmatch (re text : list Z) : bool :=
  match re with
  | r0 :: re1 => if r0 =? ch_caret then matchhere re1 text else match_loop re text
  | [] => match_loop re text
  end.

(** *** The buffer of [grep] *)

Definition BUFSZ : Z := 1024.

(** The inner loop of [grep] on the bytes between [p] and the zero that ends
    the buffer: what is written, and the bytes from [p] on when it stops. *)
Fixpoint grep_lines (pattern p : list Z) (fuel : nat) : list Z * list Z :=
  match fuel with
  | O => ([], p)
  | S f =>
      match strchr p ch_nl with
      | Some q =>
          let line := take (length p - length q) p in
          let '(out, rest) := grep_lines pattern (tail q) f in
          ((if rmatch pattern line then line ++ [ch_nl] else []) ++ out, rest)
      | None => ([], p)
      end
  end.

(** [read] returns what is left of the file up to the room that is left, and
    not more than the next entry of [sizes]: pipes and the console give less
    than what was asked for.  [held] is [buf[0 .. m)].  The result is what is
    written to standard output.  Files with a zero byte are not modelled. *)
Fixpoint grep (pattern held file : list Z) (sizes : list nat) : list Z :=
  match sizes with
  | [] => []
  | k :: sizes' =>
      let room := Z.to_nat (BUFSZ - Z.of_nat (length held) - 1) in
      let n := Nat.min k (Nat.min room (length file)) in
      if (n =? 0)%nat then []
      else
        let buf := held ++ take n file in
        let '(out, rest) := grep_lines pattern buf (S (length buf)) in
        let held' := if (length rest =? length buf)%nat then [] else rest in
        out ++ grep pattern held' (drop n file) sizes'
  end.

(** *** wc.c *)

Record counts : Type := mkCounts { wc_l : Z; wc_w : Z; wc_c : Z; wc_inword : bool }.

Definition wc_space : list Z := [32; 13; 9; 10; 11].

Definition wc_byte (x : counts) (b : Z) : counts :=
  let c := s32 (wc_c x + 1) in
  let l := if b =? ch_nl then s32 (wc_l x + 1) else wc_l x in
  match strchr wc_space b with
  | Some _ => mkCounts l (wc_w x) c false
  | None => if wc_inword x then mkCounts l (wc_w x) c true else mkCounts l (s32 (wc_w x + 1)) c true
  end.

(** The loop over the bytes of one [read], and the one over the reads. *)
Definition wc_buf (x : counts) (buf : list Z) : counts := foldl wc_byte x buf.
Definition wc (reads : list (list Z)) : counts := foldl wc_buf (mkCounts 0 0 0 false) reads.

(** ** What patterns mean *)

(** One element of a pattern. *)
Inductive item : Type := One (c : Z) | Star (c : Z) | Eol.

Fixpoint items (re : list Z) : list item :=
  match re with
  | [] => []
  | r0 :: re1 =>
      match re1 with
      | r1 :: re2 => if r1 =? ch_star then Star r0 :: items re2 else One r0 :: items re1
      | [] => if r0 =? ch_dollar then [Eol] else [One r0]
      end
  end.

(** A character of a pattern stands for itself, a dot for any character. *)
Definition stands (c t : Z) : Prop := c = ch_dot \/ c = t.

(** [accepts its s rest]: the items match [s] when [rest] follows it. *)
Inductive accepts : list item -> list Z -> list Z -> Prop :=
| acc_nil rest : accepts [] [] rest
| acc_one c t its s rest : stands c t -> accepts its s rest -> accepts (One c :: its) (t :: s) rest
| acc_star c ts its s rest : Forall (stands c) ts -> accepts its s rest -> accepts (Star c :: its) (ts ++ s) rest
| acc_eol : accepts [Eol] [] [].

(** Somewhere in the text, or at its beginning when the pattern starts with a
    caret. *)
Definition found (re text : list Z) : Prop :=
  match re with
  | r0 :: re1 =>
      if r0 =? ch_caret then exists s rest, text = s ++ rest /\ accepts (items re1) s rest
      else exists pre s rest, text = pre ++ s ++ rest /\ accepts (items re) s rest
  | [] => True
  end.

(** ** Lemmas *)

Lemma stands_spec c t : (t =? c) || (c =? ch_dot) = true <-> stands c t.
Proof. unfold stands. lia. Qed.

Lemma matchstar_spec c m text :
  matchstar c m text = true <-> exists ts rest, text = ts ++ rest /\ Forall (stands c) ts /\ m rest = true.
Proof.
  induction text as [|t text IH]; cbn [matchstar].
  - destruct (m []) eqn:Em; split; auto; [intros _; exists [], []; auto | discriminate |].
    intros (ts & rest & E & _ & Hm). destruct ts, rest; try discriminate. congruence.
  - destruct (m (t :: text)) eqn:Em; [split; auto; intros _; exists [], (t :: text); auto|].
    destruct ((t =? c) || (c =? ch_dot)) eqn:Es.
    + rewrite IH. split; [intros (ts & rest & -> & Hts & Hm); exists (t :: ts), rest; split; [reflexivity|]; split; [|exact Hm]; constructor; [apply stands_spec, Es | exact Hts]|].
      intros (ts & rest & E & Hts & Hm). destruct ts as [|u ts]; cbn in E; [subst rest; congruence|].
      injection E as <- ->. apply Forall_cons in Hts as [_ Hts]. eauto.
    + split; [discriminate|]. intros (ts & rest & E & Hts & Hm). destruct ts as [|u ts]; cbn in E; [subst rest; congruence|].
      injection E as <- ->. apply Forall_cons in Hts as [Ht _]. apply stands_spec in Ht. congruence.
Qed.

Definition here (re text : list Z) : Prop := exists s rest, text = s ++ rest /\ accepts (items re) s rest.

Lemma here_one c its text :
  (exists s rest, text = s ++ rest /\ accepts (One c :: its) s rest) <->
  exists t text', text = t :: text' /\ stands c t /\ exists s rest, text' = s ++ rest /\ accepts its s rest.
Proof.
  split.
  - intros (s & rest & -> & Ha). inversion Ha as [|c' t its' s' rest' Hs Ha'| |]; subst. exists t, (s' ++ rest). eauto 10.
  - intros (t & text' & -> & Hs & s & rest & -> & Ha). exists (t :: s), rest. split; [reflexivity | constructor; assumption].
Qed.

Lemma one_step c (b : list Z -> bool) text :
  (match text with t :: text' => if (c =? ch_dot) || (c =? t) then b text' else false | [] => false end) = true <->
  exists t text', text = t :: text' /\ stands c t /\ b text' = true.
Proof.
  destruct text as [|t text]; [split; [discriminate | intros (t & text' & [=] & _)]|].
  destruct ((c =? ch_dot) || (c =? t)) eqn:E.
  - split; [intros Hb; exists t, text; split; [reflexivity|]; split; [unfold stands; lia | exact Hb] | intros (t' & text' & [= <- <-] & _ & Hb); exact Hb].
  - split; [discriminate|]. intros (t' & text' & [= <- <-] & Hs & _). unfold stands in Hs. lia.
Qed.

Lemma matchhere_spec re : forall text, matchhere re text = true <-> here re text.
Proof.
  induction re as [re IH] using (well_founded_induction (Wf_nat.well_founded_ltof _ (@length Z))). unfold Wf_nat.ltof in IH.
  intros text. destruct re as [|r0 [|r1 re2]]; unfold here; cbn [matchhere items].
  - split; [intros _; exists [], text; split; [reflexivity | constructor] | reflexivity].
  - destruct (Z.eqb_spec r0 ch_dollar) as [-> | _].
    + destruct text; split; intros Hx; try discriminate; [exists [], []; split; [reflexivity | constructor] | reflexivity|].
      destruct Hx as (s & rest & E & Ha). inversion Ha; subst. discriminate.
    + rewrite (one_step r0 (fun _ => true)), here_one. split; intros (t & text' & -> & Hs & _); exists t, text'; split; auto; split; auto.
      exists [], text'. split; [reflexivity | constructor].
  - destruct (Z.eqb_spec r1 ch_star) as [-> | _].
    + rewrite matchstar_spec. split.
      * intros (ts & rest & -> & Hts & Hm). apply IH in Hm as (s & rest' & -> & Ha); [|cbn; lia].
        exists (ts ++ s), rest'. split; [rewrite app_assoc; reflexivity | constructor; assumption].
      * intros (s & rest & -> & Ha). inversion Ha as [| |c ts its s' rest' Hts Ha'|]; subst. exists ts, (s' ++ rest).
        split; [rewrite app_assoc; reflexivity|]. split; [exact Hts|]. apply IH; [cbn; lia | exists s', rest; auto].
    + rewrite (one_step r0 (matchhere (r1 :: re2))), here_one.
      split; intros (t & text' & -> & Hs & Hm); exists t, text'; split; auto; split; auto.
      * apply (IH (r1 :: re2) ltac:(cbn; lia) text') in Hm. exact Hm.
      * apply (IH (r1 :: re2) ltac:(cbn; lia) text'). exact Hm.
Qed.

Lemma match_loop_spec re text : match_loop re text = true <-> exists pre rest, text = pre ++ rest /\ here re rest.
Proof.
  induction text as [|t text IH]; cbn [match_loop].
  - destruct (matchhere re []) eqn:Em.
    + split; [intros _; exists [], []; split; [reflexivity | apply matchhere_spec, Em] | reflexivity].
    + split; [discriminate|]. intros (pre & rest & E & Hh). destruct pre, rest; try discriminate. apply matchhere_spec in Hh. congruence.
  - destruct (matchhere re (t :: text)) eqn:Em.
    + split; [intros _; exists [], (t :: text); split; [reflexivity | apply matchhere_spec, Em] | reflexivity].
    + rewrite IH. split; [intros (pre & rest & -> & Hh); exists (t :: pre), rest; auto|].
      intros (pre & rest & E & Hh). destruct pre as [|u pre]; cbn in E; [subst rest; apply matchhere_spec in Hh; congruence|].
      injection E as <- ->. eauto.
Qed.

(** C25 (equivalence).  The matcher of grep.c decides the meaning of its
    patterns: it reports a match exactly when the pattern, read as a sequence
    of characters, dots, stars and a final dollar, matches somewhere in the
    text, or at its beginning after a caret. *)
Theorem match_decides re text : rmatch re text = true <-> found re text.
Proof.
  unfold rmatch, found. assert (Hl : forall r, match_loop r text = true <-> exists pre s rest, text = pre ++ s ++ rest /\ accepts (items r) s rest).
  { intros r. rewrite match_loop_spec. split.
    - intros (pre & rest & -> & s & rest' & -> & Ha). eauto.
    - intros (pre & s & rest & -> & Ha). exists pre, (s ++ rest). split; [reflexivity|]. exists s, rest. auto. }
  destruct re as [|r0 re1].
  - rewrite Hl. split; [auto|]. intros _. exists [], [], text. split; [reflexivity | constructor].
  - destruct (r0 =? ch_caret); [apply matchhere_spec | apply Hl].
Qed.

(** ** Lines *)

(** The lines of a text that end in a newline, [cur] being what has been read
    of the first one. *)
Fixpoint lines (cur file : list Z) : list (list Z) :=
  match file with
  | [] => []
  | c :: file' => if c =? ch_nl then cur :: lines [] file' else lines (cur ++ [c]) file'
  end.

(** The lines that match, as grep should print them. *)
Definition matching (pattern file : list Z) : list Z :=
  concat (map (fun l => l ++ [ch_nl]) (filter (fun l => rmatch pattern l = true) (lines [] file))).

(** No more than 1022 bytes without a newline. *)
Definition short_lines (file : list Z) : Prop :=
  forall a b c, file = a ++ b ++ c -> ch_nl ∉ b -> (length b <= 1022)%nat.

Lemma lines_none cur f : ch_nl ∉ f -> lines cur f = [].
Proof.
  revert cur. induction f as [|c f IH]; intros cur Hf; [reflexivity|]. apply not_elem_of_cons in Hf as [Hc Hf]. cbn.
  rewrite (proj2 (Z.eqb_neq c ch_nl)) by congruence. apply IH, Hf.
Qed.

Lemma lines_line cur l f : ch_nl ∉ l -> lines cur (l ++ ch_nl :: f) = (cur ++ l) :: lines [] f.
Proof.
  revert cur. induction l as [|c l IH]; intros cur Hl; cbn; [rewrite app_nil_r; reflexivity|].
  apply not_elem_of_cons in Hl as [Hc Hl]. rewrite (proj2 (Z.eqb_neq c ch_nl)) by congruence. rewrite IH by exact Hl.
  rewrite <- app_assoc. reflexivity.
Qed.

Lemma matching_none pattern f : ch_nl ∉ f -> matching pattern f = [].
Proof. intros Hf. unfold matching. rewrite lines_none by exact Hf. reflexivity. Qed.

Lemma matching_line pattern l f :
  ch_nl ∉ l -> matching pattern (l ++ ch_nl :: f) = (if rmatch pattern l then l ++ [ch_nl] else []) ++ matching pattern f.
Proof.
  intros Hl. unfold matching. rewrite lines_line by exact Hl. cbn [app]. rewrite filter_cons.
  destruct (rmatch pattern l) eqn:E; [rewrite decide_True by reflexivity | rewrite decide_False by discriminate]; reflexivity.
Qed.

Lemma grep_lines_spec pattern fuel : forall p after,
  (length p < fuel)%nat ->
  exists rest, let '(out, r) := grep_lines pattern p fuel in
    r = rest /\ (ch_nl ∉ rest) /\ (exists front, p = front ++ rest /\ (front = [] -> ch_nl ∉ p)) /\
    matching pattern (p ++ after) = out ++ matching pattern (rest ++ after).
Proof.
  induction fuel as [|fuel IH]; intros p after Hf; [lia|]. cbn [grep_lines].
  destruct (strchr p ch_nl) as [q|] eqn:Eq.
  2:{ exists p. apply strchr_none in Eq. split; [reflexivity|]. split; [exact Eq|]. split; [exists []; auto | reflexivity]. }
  apply strchr_split in Eq as (pre & r' & -> & -> & Hn). cbn [tail].
  rewrite length_app in Hf. cbn [length] in Hf.
  replace (length (pre ++ ch_nl :: r') - length (ch_nl :: r'))%nat with (length pre) by (rewrite length_app; lia).
  rewrite take_app_length. destruct (IH r' after ltac:(lia)) as (rest & Hr). destruct (grep_lines pattern r' fuel) as [out r].
  destruct Hr as (-> & H1 & (front & -> & _) & H3). exists rest. split; [reflexivity|]. split; [exact H1|]. split.
  - exists (pre ++ ch_nl :: front). split; [rewrite <- app_assoc; reflexivity|]. intros E. destruct pre; discriminate.
  - rewrite <- app_assoc. cbn [app]. rewrite matching_line by exact Hn. rewrite H3, app_assoc. reflexivity.
Qed.

Lemma short_suffix a f : short_lines (a ++ f) -> short_lines f.
Proof. intros Hs x b c -> Hb. apply (Hs (a ++ x) b c); [rewrite <- app_assoc; reflexivity | exact Hb]. Qed.

Lemma grep_whole pattern sizes : forall held file,
  ch_nl ∉ held -> short_lines (held ++ file) -> Forall (fun k => 1024 <= k)%nat sizes -> (length file < length sizes)%nat ->
  grep pattern held file sizes = matching pattern (held ++ file).
Proof.
  induction sizes as [|k sizes IH]; intros held file Hh Hs Hk Hl; [cbn in Hl; lia|].
  apply Forall_cons in Hk as [Hk Hks]. cbn [grep]. unfold BUFSZ.
  assert (Hhl : (length held <= 1022)%nat) by (apply (Hs [] held file); [reflexivity | exact Hh]).
  set (n := Nat.min k (Nat.min (Z.to_nat (1024 - Z.of_nat (length held) - 1)) (length file))).
  destruct (Nat.eqb_spec n 0) as [H0 | H0].
  { assert (length file = 0)%nat by (unfold n in H0; lia). destruct file; [|discriminate]. rewrite app_nil_r.
    symmetry. apply matching_none, Hh. }
  destruct (grep_lines_spec pattern (S (length (held ++ take n file))) (held ++ take n file) (drop n file) ltac:(lia)) as (rest & Hr).
  destruct (grep_lines pattern (held ++ take n file) (S (length (held ++ take n file)))) as [out r].
  destruct Hr as (-> & Hnr & (front & Ef & Hnf) & Hm). rewrite <- app_assoc, take_drop in Hm. rewrite Hm. f_equal.
  assert (Hlen : length (take n file) = n) by (rewrite length_take; unfold n; lia).
  assert (Hdl : (length (drop n file) < length sizes)%nat) by (rewrite length_drop; cbn in Hl; unfold n in *; lia).
  assert (Hs' : short_lines (rest ++ drop n file)).
  { apply (short_suffix front). rewrite app_assoc, <- Ef, <- app_assoc, take_drop. exact Hs. }
  destruct (Nat.eqb_spec (length rest) (length (held ++ take n file))) as [He | He].
  - assert (Hf0 : front = []) by (apply (f_equal length) in Ef; rewrite !length_app in *; destruct front; [reflexivity | cbn in Ef; lia]).
    specialize (Hnf Hf0).
    assert (Hbl : (length (held ++ take n file) <= 1022)%nat).
    { apply (Hs [] (held ++ take n file) (drop n file)); [|exact Hnf]. cbn. rewrite <- app_assoc, take_drop. reflexivity. }
    rewrite length_app, Hlen in Hbl. assert (Hn : n = length file) by (unfold n in *; lia).
    rewrite Hn, drop_all in *. rewrite app_nil_r. rewrite (matching_none pattern rest Hnr).
    rewrite (IH [] []); [apply matching_none, not_elem_of_nil | apply not_elem_of_nil | | exact Hks | exact Hdl].
    intros a b c E Hb. destruct a, b, c; try discriminate. cbn. lia.
  - apply IH; assumption.
Qed.

(** On a file, where [read] gives what is asked for until the
    end, [grep] prints exactly the lines that match, each with its newline and
    in order, provided no line is longer than its buffer. *)
Lemma grep_prints_matching pattern file sizes :
  short_lines file -> Forall (fun k => 1024 <= k)%nat sizes -> (length file < length sizes)%nat ->
  grep pattern [] file sizes = matching pattern file.
Proof. intros Hs Hk Hl. apply (grep_whole pattern sizes [] file); auto. apply not_elem_of_nil. Qed.



(** When a line arrives in two pieces, as it can from a pipe or
    the console, and there is no newline in the first one, [grep] forgets the
    first piece: here the line [abc] is not found with the pattern [ab]. *)
Lemma grep_forgets_partial_line :
  grep (chars "ab") [] (chars "abc" ++ [ch_nl]) [2; 1024; 1024]%nat = [] /\
  matching (chars "ab") (chars "abc" ++ [ch_nl]) = chars "abc" ++ [ch_nl].
Proof. split; reflexivity. Qed.
