(* ===== verification/Programs.v ===== *)
(** * The small user programs: cat.c, echo.c, grep.c, init.c, kill.c, ln.c,
    ls.c, mkdir.c, rm.c, wc.c, zombie.c, and stat of ulib.c

    A program is written against an interface of system calls, the class [Sys];
    what it needs of them is stated in the class [Files].  [argv] is the list of
    its arguments, the name of the program first. *)

From Stdlib Require Import ZArith Lia ZifyBool ZifyNat.
From stdpp Require Import base list strings gmap.
From S2P Require Import Prelude Mem Kernel Log Fs Console Ulib Grep.

Module Programs.

(** ** Programs *)

(** How a program ends: it returns, it exits, or a bound of the model is
    reached. *)
Inductive outcome (S A : Type) : Type := Done (a : A) (s : S) | Exited (s : S) | Bound.
Arguments Done {S A}. Arguments Exited {S A}. Arguments Bound {S A}.

Definition P (S A : Type) : Type := S -> outcome S A.
Definition pret {S A} (a : A) : P S A := fun s => Done a s.
Definition pbind {S A B} (m : P S A) (k : A -> P S B) : P S B := fun s =>
  match m s with Done a s' => k a s' | Exited s' => Exited s' | Bound => Bound end.
Definition pseq {S A B} (m : P S A) (k : P S B) : P S B := pbind m (fun _ => k).
Declare Scope prog_scope.
Delimit Scope prog_scope with prog.
Notation "'let*' x := m 'in' k" := (pbind m (fun x => k)) (at level 10, x pattern, k at level 200) : prog_scope.
Notation "m ;; k" := (pseq m k) (at level 100, k at level 200, right associativity) : prog_scope.
Open Scope prog_scope.

(** The system calls.  [read] gives the result and the bytes it has stored;
    [exec] gives [None] when it does not return. *)
Class Sys (S : Type) := {
  sys_open : list Z -> Z -> S -> Z * S;
  sys_close : Z -> S -> Z * S;
  sys_read : Z -> Z -> S -> (Z * list Z) * S;
  sys_write : Z -> list Z -> S -> Z * S;
  sys_fstat : Z -> S -> option stat * S;
  sys_dup : Z -> S -> Z * S;
  sys_mknod : list Z -> Z -> Z -> S -> Z * S;
  sys_mkdir : list Z -> S -> Z * S;
  sys_link : list Z -> list Z -> S -> Z * S;
  sys_unlink : list Z -> S -> Z * S;
  sys_kill : Z -> S -> Z * S;
  sys_fork : S -> Z * S;
  sys_exec : list Z -> list (list Z) -> S -> option Z * S;
  sys_wait : S -> Z * S;
  sys_sleep : Z -> S -> Z * S }.

Section Programs.
Context {S : Type} {sys : Sys S}.

Definition call {A} (f : S -> A * S) : P S A := fun s => let '(a, s') := f s in Done a s'.
Definition exit {A} : P S A := fun s => Exited s.
Definition bound {A} : P S A := fun _ => Bound.
Definition NL : list Z := [10].

(** printf.c: [putc] and [printf]; the characters are those of Ulib.v. *)
Definition putc (fd c : Z) : P S unit := let* _ := call (sys_write fd [c]) in pret tt.
Fixpoint puts (fd : Z) (l : list Z) : P S unit :=
  match l with
  | [] => pret tt
  | c :: l' => putc fd c ;; puts fd l'
  end.
Definition print (fd : Z) (fmt : list Z) (args : list parg) : P S unit :=
  puts fd (default [] (printf fmt args)).
Definition str (s : list Z) : parg := PStr (Some s).

(** The loop that [main] of cat.c, wc.c and grep.c has over the files it is
    given: [work] on each, until one cannot be opened. *)
Fixpoint each_file (msg : list Z) (work : Z -> list Z -> P S unit) (args : list (list Z)) : P S unit :=
  match args with
  | [] => pret tt
  | a :: args' =>
      let* fd := call (sys_open a 0) in
      if fd <? 0 then print 1 msg [str a] ;; exit
      else
        work fd a ;;
        let* _ := call (sys_close fd) in
        each_file msg work args'
  end.

(** *** cat.c *)

Fixpoint cat_loop (fd : Z) (fuel : nat) : P S Z :=
  match fuel with
  | O => bound
  | Datatypes.S f =>
      let* (n, buf) := call (sys_read fd 512) in
      if 0 <? n then
        let* w := call (sys_write 1 buf) in
        if negb (w =? n) then print 1 (chars "cat: write error" ++ NL) [] ;; exit
        else cat_loop fd f
      else pret n
  end.
Definition cat (fd : Z) (fuel : nat) : P S unit :=
  let* n := cat_loop fd fuel in
  if n <? 0 then print 1 (chars "cat: read error" ++ NL) [] ;; exit else pret tt.
Definition cat_main (argv : list (list Z)) (fuel : nat) : P S unit :=
  if (length argv <=? 1)%nat then cat 0 fuel ;; exit
  else each_file (chars "cat: cannot open %s" ++ NL) (fun fd _ => cat fd fuel) (tail argv) ;; exit.

(** *** echo.c *)

Fixpoint echo_args (args : list (list Z)) : P S unit :=
  match args with
  | [] => pret tt
  | a :: args' =>
      print 1 (chars "%s%s") [str a; str (if (0 <? length args')%nat then chars " " else NL)] ;;
      echo_args args'
  end.
Definition echo_main (argv : list (list Z)) : P S unit := echo_args (tail argv) ;; exit.

(** *** kill.c, ln.c, mkdir.c, rm.c, zombie.c *)

Fixpoint kill_args (args : list (list Z)) : P S unit :=
  match args with
  | [] => pret tt
  | a :: args' => let* _ := call (sys_kill (atoi a)) in kill_args args'
  end.
Definition kill_main (argv : list (list Z)) : P S unit :=
  if (length argv <? 2)%nat then print 2 (chars "usage: kill pid..." ++ NL) [] ;; exit
  else kill_args (tail argv) ;; exit.

Definition ln_main (argv : list (list Z)) : P S unit :=
  match argv with
  | [_; old; new] =>
      let* r := call (sys_link old new) in
      (if r <? 0 then print 2 (chars "link %s %s: failed" ++ NL) [str old; str new] else pret tt) ;;
      exit
  | _ => print 2 (chars "Usage: ln old new" ++ NL) [] ;; exit
  end.

(** The loops of mkdir.c and rm.c, which stop at the first failure. *)
Fixpoint each (f : list Z -> S -> Z * S) (msg : list Z) (args : list (list Z)) : P S unit :=
  match args with
  | [] => pret tt
  | a :: args' =>
      let* r := call (f a) in
      if r <? 0 then print 2 msg [str a] else each f msg args'
  end.
Definition mkdir_main (argv : list (list Z)) : P S unit :=
  if (length argv <? 2)%nat then print 2 (chars "Usage: mkdir files..." ++ NL) [] ;; exit
  else each sys_mkdir (chars "mkdir: %s failed to create" ++ NL) (tail argv) ;; exit.
Definition rm_main (argv : list (list Z)) : P S unit :=
  if (length argv <? 2)%nat then print 2 (chars "Usage: rm files..." ++ NL) [] ;; exit
  else each sys_unlink (chars "rm: %s failed to delete" ++ NL) (tail argv) ;; exit.

Definition zombie_main : P S unit :=
  let* pid := call sys_fork in
  (if 0 <? pid then let* _ := call (sys_sleep 5) in pret tt else pret tt) ;;
  exit.

(** *** init.c *)

Definition O_RDWR : Z := 2.
Fixpoint init_wait (pid : Z) (fuel : nat) : P S unit :=
  match fuel with
  | O => bound
  | Datatypes.S f =>
      let* wpid := call sys_wait in
      if (0 <=? wpid) && negb (wpid =? pid) then print 1 (chars "zombie!" ++ NL) [] ;; init_wait pid f
      else pret tt
  end.
Fixpoint init_loop (fuel : nat) : P S unit :=
  match fuel with
  | O => bound
  | Datatypes.S f =>
      print 1 (chars "init: starting sh" ++ NL) [] ;;
      let* pid := call sys_fork in
      if pid <? 0 then print 1 (chars "init: fork failed" ++ NL) [] ;; exit
      else if pid =? 0 then
        let* r := call (sys_exec (chars "sh") [chars "sh"]) in
        match r with
        | None => exit
        | Some _ => print 1 (chars "init: exec sh failed" ++ NL) [] ;; exit
        end
      else init_wait pid fuel ;; init_loop f
  end.
Definition init_main (fuel : nat) : P S unit :=
  let* fd := call (sys_open (chars "console") O_RDWR) in
  (if fd <? 0 then
     let* _ := call (sys_mknod (chars "console") 1 1) in
     let* _ := call (sys_open (chars "console") O_RDWR) in
     pret tt
   else pret tt) ;;
  let* _ := call (sys_dup 0) in
  let* _ := call (sys_dup 0) in
  init_loop fuel.

(** *** ulib.c, [stat], and ls.c *)

Definition user_stat (n : list Z) : P S (option stat) :=
  let* fd := call (sys_open n 0) in
  if fd <? 0 then pret None
  else
    let* r := call (sys_fstat fd) in
    let* _ := call (sys_close fd) in
    pret r.

(** The part of a path after the last slash. *)
Definition after_slash (path : list Z) : list Z := foldl (fun acc c => if c =? 47 then [] else acc ++ [c]) [] path.
Definition fmtname (path : list Z) : list Z :=
  let p := after_slash path in
  if (DIRSIZ <=? length p)%nat then p else p ++ replicate (DIRSIZ - length p) 32.

Definition ls_line (path : list Z) (st : stat) : P S unit :=
  print 1 (chars "%s %d %d %d" ++ NL) [str (fmtname path); PInt (st_type st); PInt (st_ino st); PInt (st_size st)].
(** The loop over the entries of the directory [path]. *)
Fixpoint ls_entries (fd : Z) (path : list Z) (fuel : nat) : P S unit :=
  match fuel with
  | O => bound
  | Datatypes.S f =>
      let* (n, bs) := call (sys_read fd DIRENT_SIZE) in
      if negb (n =? DIRENT_SIZE) then pret tt
      else
        let de := decode_dirent bs in
        (if de_inum de =? 0 then pret tt
         else
           let buf := path ++ [47] ++ cstr (de_name de) in
           let* r := user_stat buf in
           match r with
           | None => print 1 (chars "ls: cannot stat %s" ++ NL) [str buf]
           | Some st => ls_line buf st
           end) ;;
        ls_entries fd path f
  end.
Definition ls (path : list Z) (fuel : nat) : P S unit :=
  let* fd := call (sys_open path 0) in
  if fd <? 0 then print 2 (chars "ls: cannot open %s" ++ NL) [str path]
  else
    let* r := call (sys_fstat fd) in
    match r with
    | None =>
        print 2 (chars "ls: cannot stat %s" ++ NL) [str path] ;;
        let* _ := call (sys_close fd) in pret tt
    | Some st =>
        (if st_type st =? T_FILE then ls_line path st
         else if st_type st =? T_DIR then
           if 512 <? strlen path + 1 + Z.of_nat DIRSIZ + 1 then print 1 (chars "ls: path too long" ++ NL) []
           else ls_entries fd path fuel
         else pret tt) ;;
        let* _ := call (sys_close fd) in pret tt
    end.
Fixpoint ls_args (args : list (list Z)) (fuel : nat) : P S unit :=
  match args with
  | [] => pret tt
  | a :: args' => ls a fuel ;; ls_args args' fuel
  end.
Definition ls_main (argv : list (list Z)) (fuel : nat) : P S unit :=
  if (length argv <? 2)%nat then ls (chars ".") fuel ;; exit
  else ls_args (tail argv) fuel ;; exit.

(** *** wc.c *)

Fixpoint wc_loop (fd : Z) (x : counts) (fuel : nat) : P S (Z * counts) :=
  match fuel with
  | O => bound
  | Datatypes.S f =>
      let* (n, buf) := call (sys_read fd 512) in
      if 0 <? n then wc_loop fd (wc_buf x buf) f else pret (n, x)
  end.
Definition wc_file (fd : Z) (name : list Z) (fuel : nat) : P S unit :=
  let* (n, x) := wc_loop fd (mkCounts 0 0 0 false) fuel in
  if n <? 0 then print 1 (chars "wc: read error" ++ NL) [] ;; exit
  else print 1 (chars "%d %d %d %s" ++ NL) [PInt (wc_l x); PInt (wc_w x); PInt (wc_c x); str name].
Definition wc_main (argv : list (list Z)) (fuel : nat) : P S unit :=
  if (length argv <=? 1)%nat then wc_file 0 [] fuel ;; exit
  else each_file (chars "wc: cannot open %s" ++ NL) (fun fd a => wc_file fd a fuel) (tail argv) ;; exit.

(** *** grep.c, with the matcher of Grep.v *)

(** The loop over the lines in the buffer, which a zero byte ends; the rest of
    the buffer. *)
Fixpoint grep_write (pattern p : list Z) (fuel : nat) : P S (list Z) :=
  match fuel with
  | O => pret p
  | Datatypes.S f =>
      match strchr (cstr p) ch_nl with
      | Some q =>
          let n := (length (cstr p) - length q)%nat in
          let line := take n p in
          (if rmatch pattern line then let* _ := call (sys_write 1 (line ++ [ch_nl])) in pret tt else pret tt) ;;
          grep_write pattern (drop (Datatypes.S n) p) f
      | None => pret p
      end
  end.
Fixpoint grep_fd (pattern held : list Z) (fd : Z) (fuel : nat) : P S unit :=
  match fuel with
  | O => bound
  | Datatypes.S f =>
      let* (n, bs) := call (sys_read fd (BUFSZ - Z.of_nat (length held) - 1)) in
      if 0 <? n then
        let buf := held ++ bs in
        let* rest := grep_write pattern buf (Datatypes.S (length buf)) in
        grep_fd pattern (if (length rest =? length buf)%nat then [] else rest) fd f
      else pret tt
  end.
Definition grep_main (argv : list (list Z)) (fuel : nat) : P S unit :=
  match argv with
  | _ :: pattern :: files =>
      match files with
      | [] => grep_fd pattern [] 0 fuel ;; exit
      | _ => each_file (chars "grep: cannot open %s" ++ NL) (fun fd _ => grep_fd pattern [] fd fuel) files ;; exit
      end
  | _ => print 2 (chars "usage: grep pattern [file ...]" ++ NL) [] ;; exit
  end.
End Programs.

(** ** What the programs are promised *)

(** What a program sees: the files by their paths, what each of its open files
    has still to give, and what it has written to standard output, which is
    none of the files. *)
Record view : Type := mkView { v_files : gmap (list Z) (stat * list Z); v_open : gmap Z (stat * list Z); v_out : list Z }.

Definition prints (out : list Z) (v : view) : view := mkView (v_files v) (v_open v) (v_out v ++ out).
Definition opens (fd : Z) (f : stat * list Z) (v : view) : view := mkView (v_files v) (<[fd := f]> (v_open v)) (v_out v).
Definition closes (fd : Z) (v : view) : view := mkView (v_files v) (delete fd (v_open v)) (v_out v).

(** The calls on files do on the view what their documentation says; a process
    has room for [limit] open files. *)
Class Files (S : Type) `{Sys S} := {
  seen : S -> view;
  limit : nat;
  law_open : forall s p f, v_files (seen s) !! p = Some f -> (size (v_open (seen s)) < limit)%nat ->
    exists fd s', sys_open p 0 s = (fd, s') /\ 0 <= fd /\ v_open (seen s) !! fd = None /\ seen s' = opens fd f (seen s);
  law_open_none : forall s p, v_files (seen s) !! p = None ->
    exists fd s', sys_open p 0 s = (fd, s') /\ fd < 0 /\ seen s' = seen s;
  law_read : forall s fd n st bs, v_open (seen s) !! fd = Some (st, bs) ->
    let k := Nat.min n (length bs) in
    exists s', sys_read fd (Z.of_nat n) s = ((Z.of_nat k, take k bs), s') /\ seen s' = opens fd (st, drop k bs) (seen s);
  law_fstat : forall s fd st bs, v_open (seen s) !! fd = Some (st, bs) ->
    exists s', sys_fstat fd s = (Some st, s') /\ seen s' = seen s;
  law_close : forall s fd f, v_open (seen s) !! fd = Some f ->
    exists r s', sys_close fd s = (r, s') /\ seen s' = closes fd (seen s);
  law_write1 : forall s bs, exists s', sys_write 1 bs s = (Z.of_nat (length bs), s') /\ seen s' = prints bs (seen s);
  law_write2 : forall s bs, exists r s', sys_write 2 bs s = (r, s') /\ seen s' = seen s }.

Section Correct.
Context {S : Type} {sys : Sys S} {files : Files S}.

(** [m] takes the view [v] to [v'], returning [a]; and it exits there. *)
Definition runs {A} (m : P S A) (v : view) (a : A) (v' : view) : Prop :=
  forall s, seen s = v -> exists s', m s = Done a s' /\ seen s' = v'.
Definition exits {A} (m : P S A) (v v' : view) : Prop :=
  forall s, seen s = v -> exists s', m s = Exited s' /\ seen s' = v'.

Lemma runs_ret {A} (a : A) v : runs (pret a) v a v.
Proof. intros s Hs. exists s. auto. Qed.
Lemma exits_exit {A} v : exits (exit (A := A)) v v.
Proof. intros s Hs. exists s. auto. Qed.
Lemma runs_then {A B} (m : P S A) (k : A -> P S B) v a v1 b v2 :
  runs m v a v1 -> runs (k a) v1 b v2 -> runs (pbind m k) v b v2.
Proof. intros H1 H2 s Hs. destruct (H1 s Hs) as (s1 & E1 & Hs1). unfold pbind. rewrite E1. apply H2, Hs1. Qed.
Lemma exits_bind {A B} (m : P S A) (k : A -> P S B) v a v1 v2 :
  runs m v a v1 -> exits (k a) v1 v2 -> exits (pbind m k) v v2.
Proof. intros H1 H2 s Hs. destruct (H1 s Hs) as (s1 & E1 & Hs1). unfold pbind. rewrite E1. apply H2, Hs1. Qed.
Lemma exits_stop {A B} (m : P S A) (k : A -> P S B) v v1 : exits m v v1 -> exits (pbind m k) v v1.
Proof. intros H1 s Hs. destruct (H1 s Hs) as (s1 & E1 & Hs1). unfold pbind. rewrite E1. eauto. Qed.

Lemma prints_prints a b v : prints b (prints a v) = prints (a ++ b) v.
Proof. unfold prints. cbn. rewrite app_assoc. reflexivity. Qed.
Lemma prints_nil v : prints [] v = v.
Proof. destruct v. unfold prints. cbn. rewrite app_nil_r. reflexivity. Qed.
Lemma prints_opens a fd f v : prints a (opens fd f v) = opens fd f (prints a v).
Proof. reflexivity. Qed.
Lemma opens_opens fd f g v : opens fd g (opens fd f v) = opens fd g v.
Proof. unfold opens. cbn. rewrite insert_insert_eq. reflexivity. Qed.
Lemma closes_opens fd f v : v_open v !! fd = None -> closes fd (opens fd f v) = v.
Proof. intros H. destruct v. unfold closes, opens. cbn in *. rewrite delete_insert_id by exact H. reflexivity. Qed.

Lemma runs_read fd n st bs v :
  v_open v !! fd = Some (st, bs) ->
  runs (call (sys_read fd (Z.of_nat n))) v (Z.of_nat (Nat.min n (length bs)), take n bs) (opens fd (st, drop n bs) v).
Proof.
  intros H s <-. destruct (law_read s fd n st bs H) as (s' & E & Hv). exists s'. unfold call. rewrite E, Hv.
  destruct (Nat.le_ge_cases n (length bs)); [rewrite Nat.min_l by lia; auto|].
  rewrite Nat.min_r, firstn_all, drop_all, take_ge, drop_ge by lia. auto.
Qed.
Lemma runs_write1 bs v : runs (call (sys_write 1 bs)) v (Z.of_nat (length bs)) (prints bs v).
Proof. intros s <-. destruct (law_write1 s bs) as (s' & E & Hv). exists s'. unfold call. rewrite E. auto. Qed.
Lemma runs_puts1 l : forall v, runs (puts 1 l) v tt (prints l v).
Proof.
  induction l as [|c l IH]; intros v; cbn [puts]; [rewrite prints_nil; apply runs_ret|].
  replace (prints (c :: l) v) with (prints l (prints [c] v)) by apply prints_prints.
  eapply runs_then; [|apply IH]. eapply runs_then; [apply runs_write1 | apply runs_ret].
Qed.
Lemma runs_puts2 l : forall v, runs (puts 2 l) v tt v.
Proof.
  induction l as [|c l IH]; intros v; cbn [puts]; [apply runs_ret|]. eapply runs_then; [|apply IH].
  intros s <-. destruct (law_write2 s [c]) as (r & s' & E & Hv). exists s'. unfold putc, pbind, call, pret. rewrite E. auto.
Qed.

(** ** The programs that read files *)

(** What a loop over files prints: [shown] of each of them, up to one that is
    missing. *)
Fixpoint each_shown (msg : list Z) (shown : list Z -> list Z -> list Z) (fs : gmap (list Z) (stat * list Z)) (args : list (list Z))
    : list Z :=
  match args with
  | [] => []
  | a :: args' =>
      match fs !! a with
      | Some (_, bs) => shown a bs ++ each_shown msg shown fs args'
      | None => default [] (printf msg [str a])
      end
  end.

(** [work] prints [shown] of each of the files [args] when it is open, and leaves
    it open. *)
Definition works (work : Z -> list Z -> P S unit) (shown : list Z -> list Z -> list Z) (fs : gmap (list Z) (stat * list Z))
    (args : list (list Z)) : Prop :=
  forall fd a st bs v, a ∈ args -> fs !! a = Some (st, bs) -> v_open v !! fd = Some (st, bs) ->
  exists rest, runs (work fd a) v tt (opens fd (st, rest) (prints (shown a bs) v)).

Lemma each_file_shows msg work shown fs args : forall v,
  works work shown fs args -> v_files v = fs -> (size (v_open v) < limit)%nat ->
  exits (each_file msg work args ;; exit (A := unit)) v (prints (each_shown msg shown fs args) v).
Proof.
  induction args as [|a args IH]; intros v Hw Hfs Hl; cbn [each_file each_shown].
  { rewrite prints_nil. eapply exits_bind; [apply runs_ret | apply exits_exit]. }
  intros s Hs. destruct (fs !! a) as [[st bs]|] eqn:Ea.
  - destruct (law_open s a (st, bs)) as (fd & s1 & E1 & Hfd & Hn & Hs1); [rewrite Hs, Hfs; exact Ea | rewrite Hs; exact Hl|].
    rewrite Hs in Hn, Hs1. unfold pseq, pbind at 1 2, call at 1. rewrite E1. rewrite (proj2 (Z.ltb_ge fd 0)) by lia.
    destruct (Hw fd a st bs (opens fd (st, bs) v) (list_elem_of_here _ _) Ea) as (rest & Hr); [apply lookup_insert_eq|].
    destruct (Hr s1 Hs1) as (s2 & E2 & Hs2). unfold pbind at 1. rewrite E2.
    rewrite prints_opens, opens_opens in Hs2.
    destruct (law_close s2 fd (st, rest)) as (r & s3 & E3 & Hs3); [rewrite Hs2; apply lookup_insert_eq|].
    rewrite Hs2, closes_opens in Hs3 by exact Hn. unfold pbind at 1, call at 1. rewrite E3.
    destruct (IH (prints (shown a bs) v) (fun fd' a' st' bs' v' Hin => Hw fd' a' st' bs' v' (list_elem_of_further _ _ _ Hin)) Hfs Hl s3 Hs3) as (s4 & E4 & Hs4). exists s4. split; [exact E4|].
    rewrite Hs4. apply prints_prints.
  - destruct (law_open_none s a) as (fd & s1 & E1 & Hfd & Hs1); [rewrite Hs, Hfs; exact Ea|]. rewrite Hs in Hs1.
    unfold pseq, pbind at 1 2, call at 1. rewrite E1. rewrite (proj2 (Z.ltb_lt fd 0)) by lia.
    destruct (runs_puts1 (default [] (printf msg [str a])) v s1 Hs1) as (s2 & E2 & Hs2). exists s2.
    unfold pbind at 1, print. rewrite E2. auto.
Qed.

(** *** cat *)

Lemma cat_loop_copies fd st fuel : forall bs v,
  v_open v !! fd = Some (st, bs) -> (length bs < fuel)%nat ->
  runs (cat_loop fd fuel) v 0 (opens fd (st, []) (prints bs v)).
Proof.
  induction fuel as [|fuel IH]; intros bs v Hv Hl; [lia|]. cbn [cat_loop].
  eapply runs_then; [apply (runs_read fd 512 st bs v Hv)|]. cbn beta iota.
  destruct (Z.ltb_spec 0 (Z.of_nat (Nat.min 512 (length bs)))) as [Hp | Hp].
  - eapply runs_then; [apply runs_write1|]. rewrite length_take, Z.eqb_refl. cbn [negb].
    rewrite prints_opens. replace (opens fd (st, []) (prints bs v))
      with (opens fd (st, []) (prints (drop 512 bs) (opens fd (st, drop 512 bs) (prints (take 512 bs) v)))).
    2:{ rewrite prints_opens, opens_opens, prints_prints, take_drop. reflexivity. }
    apply IH; [apply lookup_insert_eq | rewrite length_drop; lia].
  - destruct bs; [|cbn in Hp; lia]. rewrite prints_nil. apply runs_ret.
Qed.

Definition cat_output (fs : gmap (list Z) (stat * list Z)) (args : list (list Z)) : list Z :=
  each_shown (chars "cat: cannot open %s" ++ NL) (fun _ bs => bs) fs args.

(** cat prints the contents of the files it is given, one
    after the other, up to one that does not exist, for which it prints a
    message, and exits with no file left open. *)
Lemma cat_prints name args fuel (s : S) :
  args <> [] -> (size (v_open (seen s)) < limit)%nat ->
  map_Forall (fun _ f => length f.2 < fuel)%nat (v_files (seen s)) ->
  exists s', cat_main (name :: args) fuel s = Exited s' /\
    seen s' = prints (cat_output (v_files (seen s)) args) (seen s).
Proof.
  intros Ha Hl Hf. unfold cat_main. destruct args as [|a args]; [congruence|]. cbn [length tail Nat.leb].
  apply (each_file_shows (chars "cat: cannot open %s" ++ NL) _ (fun _ bs => bs) (v_files (seen s)) (a :: args) (seen s)); auto.
  intros fd b st bs v _ Hb Hv. exists []. eapply runs_then; [apply cat_loop_copies; [exact Hv | apply (Hf _ _ Hb)]|]. apply runs_ret.
Qed.

(** *** wc *)

Definition wc_output (a bs : list Z) : list Z :=
  let x := foldl wc_byte (mkCounts 0 0 0 false) bs in
  default [] (printf (chars "%d %d %d %s" ++ NL) [PInt (wc_l x); PInt (wc_w x); PInt (wc_c x); str a]).

Lemma wc_loop_counts fd st fuel : forall x bs v,
  v_open v !! fd = Some (st, bs) -> (length bs < fuel)%nat ->
  runs (wc_loop fd x fuel) v (0, foldl wc_byte x bs) (opens fd (st, []) v).
Proof.
  induction fuel as [|fuel IH]; intros x bs v Hv Hl; [lia|]. cbn [wc_loop].
  eapply runs_then; [apply (runs_read fd 512 st bs v Hv)|]. cbn beta iota.
  destruct (Z.ltb_spec 0 (Z.of_nat (Nat.min 512 (length bs)))) as [Hp | Hp].
  - replace (opens fd (st, []) v) with (opens fd (st, []) (opens fd (st, drop 512 bs) v)) by apply opens_opens.
    rewrite <- (take_drop 512 bs) at 3. rewrite foldl_app. apply IH; [apply lookup_insert_eq | rewrite length_drop; lia].
  - destruct bs; [|cbn in Hp; lia]. apply runs_ret.
Qed.

Lemma wc_prints name args fuel (s : S) :
  args <> [] -> (size (v_open (seen s)) < limit)%nat ->
  map_Forall (fun _ f => length f.2 < fuel)%nat (v_files (seen s)) ->
  exists s', wc_main (name :: args) fuel s = Exited s' /\
    seen s' = prints (each_shown (chars "wc: cannot open %s" ++ NL) wc_output (v_files (seen s)) args) (seen s).
Proof.
  intros Ha Hl Hf. unfold wc_main. destruct args as [|a args]; [congruence|]. cbn [length tail Nat.leb].
  apply (each_file_shows (chars "wc: cannot open %s" ++ NL) _ wc_output (v_files (seen s)) (a :: args) (seen s)); auto.
  intros fd b st bs v _ Hb Hv. exists []. unfold wc_file.
  eapply runs_then; [apply wc_loop_counts; [exact Hv | apply (Hf _ _ Hb)]|]. apply runs_puts1.
Qed.

(** *** grep *)

Lemma cstr_id l : 0 ∉ l -> cstr l = l.
Proof.
  induction l as [|c l IH]; intros H; [reflexivity|]. apply not_elem_of_cons in H as [Hc H]. cbn.
  rewrite (proj2 (Z.eqb_neq c 0)) by congruence. rewrite IH by exact H. reflexivity.
Qed.

Lemma grep_write_prints pattern fuel : forall p v,
  0 ∉ p -> runs (grep_write pattern p fuel) v (grep_lines pattern p fuel).2 (prints (grep_lines pattern p fuel).1 v).
Proof.
  induction fuel as [|fuel IH]; intros p v Hz; cbn [grep_write grep_lines fst snd]; [rewrite prints_nil; apply runs_ret|].
  rewrite cstr_id by exact Hz. destruct (strchr p ch_nl) as [q|] eqn:Eq; [|rewrite prints_nil; apply runs_ret].
  apply strchr_split in Eq as (pre & r' & -> & -> & _). cbn [tail].
  replace (length (pre ++ ch_nl :: r') - length (ch_nl :: r'))%nat with (length pre) by (rewrite length_app; lia).
  rewrite take_app_length. replace (drop (Datatypes.S (length pre)) (pre ++ ch_nl :: r')) with r'
    by (rewrite (cons_middle ch_nl pre r'), app_assoc, drop_app_length' by (rewrite length_app; cbn; lia); reflexivity).
  destruct (grep_lines pattern r' fuel) as [out rest] eqn:El. cbn [fst snd]. rewrite <- prints_prints.
  apply not_elem_of_app in Hz as [_ Hz]. apply not_elem_of_cons in Hz as [_ Hz].
  apply (runs_then _ _ _ tt (prints (if rmatch pattern pre then pre ++ [ch_nl] else []) v)).
  - destruct (rmatch pattern pre); [|rewrite prints_nil; apply runs_ret]. eapply runs_then; [apply runs_write1 | apply runs_ret].
  - specialize (IH r' (prints (if rmatch pattern pre then pre ++ [ch_nl] else []) v) Hz). rewrite El in IH. exact IH.
Qed.

(** On an open file without zero bytes the loop of grep.c is that of Grep.v, each
    [read] filling the buffer. *)
Lemma grep_fd_prints pattern fd st fuel : forall held bs v,
  v_open v !! fd = Some (st, bs) -> 0 ∉ held ++ bs -> (length held <= 1022)%nat -> (length bs < fuel)%nat ->
  exists rest, runs (grep_fd pattern held fd fuel) v tt (opens fd (st, rest) (prints (grep pattern held bs (replicate fuel 1024%nat)) v)).
Proof.
  induction fuel as [|fuel IH]; intros held bs v Hv Hz Hh Hl; [lia|]. cbn [grep_fd replicate grep].
  replace (BUFSZ - Z.of_nat (length held) - 1) with (Z.of_nat (1023 - length held)) by (unfold BUFSZ; lia).
  rewrite Nat2Z.id. set (room := (1023 - length held)%nat).
  replace (Nat.min 1024 (Nat.min room (length bs))) with (Nat.min room (length bs)) by lia.
  pose proof (runs_read fd room st bs v Hv) as Hrd. set (n := Nat.min room (length bs)) in *.
  assert (Ht : take room bs = take n bs) by (subst n; destruct (Nat.le_ge_cases room (length bs));
    [rewrite Nat.min_l by lia; reflexivity | rewrite Nat.min_r, !take_ge by lia; reflexivity]).
  assert (Hd : drop room bs = drop n bs) by (subst n; destruct (Nat.le_ge_cases room (length bs));
    [rewrite Nat.min_l by lia; reflexivity | rewrite Nat.min_r, !drop_ge by lia; reflexivity]).
  rewrite Ht, Hd in Hrd. destruct (Nat.eqb_spec n 0) as [H0 | H0].
  { exists (drop n bs). rewrite prints_nil. eapply runs_then; [exact Hrd|]. cbn beta iota. rewrite H0. apply runs_ret. }
  destruct (grep_lines pattern (held ++ take n bs) (Datatypes.S (length (held ++ take n bs)))) as [out rest] eqn:El.
  destruct (grep_lines_spec pattern _ (held ++ take n bs) [] (Nat.lt_succ_diag_r _)) as (r' & Hr). rewrite El in Hr.
  destruct Hr as (<- & _ & (front & Ef & _) & _).
  assert (Hz1 : 0 ∉ held ++ take n bs) by (rewrite <- (take_drop n bs) in Hz; rewrite app_assoc in Hz; apply not_elem_of_app in Hz; tauto).
  assert (Hz2 : 0 ∉ drop n bs) by (rewrite <- (take_drop n bs) in Hz; rewrite app_assoc in Hz; apply not_elem_of_app in Hz; tauto).
  assert (Hbl : (length front + length rest = length held + n)%nat)
    by (rewrite <- length_app, <- Ef, length_app, length_take; lia).
  set (held' := if (length rest =? length (held ++ take n bs))%nat then [] else rest).
  assert (Hh' : (length held' <= 1022)%nat).
  { subst held'. destruct (Nat.eqb_spec (length rest) (length (held ++ take n bs))) as [|Hne]; [cbn; lia|].
    rewrite length_app, length_take in Hne. lia. }
  assert (Hz' : 0 ∉ held' ++ drop n bs).
  { apply not_elem_of_app. split; [|exact Hz2]. subst held'.
    destruct (length rest =? length (held ++ take n bs))%nat; [apply not_elem_of_nil|].
    rewrite Ef in Hz1. apply not_elem_of_app in Hz1. tauto. }
  destruct (IH held' (drop n bs) (opens fd (st, drop n bs) (prints out v))) as (left & Hrun);
    [apply lookup_insert_eq | exact Hz' | exact Hh' | rewrite length_drop; lia|].
  exists left. eapply runs_then; [exact Hrd|]. cbn beta iota. rewrite (proj2 (Z.ltb_lt 0 (Z.of_nat n))) by lia.
  eapply runs_then; [apply grep_write_prints, Hz1|]. rewrite El. cbn [fst snd]. fold held'. rewrite prints_opens.
  rewrite prints_opens, opens_opens, prints_prints in Hrun. exact Hrun.
Qed.

(** C35 (functional).  grep, given a pattern and files such that those that exist
    have no zero byte and no line longer than its buffer, whatever other files
    there are, prints exactly the lines that match,
    of each file in turn and in their order, up to a file that does not exist,
    for which it prints a message, and exits with no file left open. *)
Theorem grep_prints name pattern args fuel (s : S) :
  args <> [] -> (size (v_open (seen s)) < limit)%nat ->
  (forall a st bs, a ∈ args -> v_files (seen s) !! a = Some (st, bs) -> (0 ∉ bs) /\ short_lines bs /\ (length bs < fuel)%nat) ->
  exists s', grep_main (name :: pattern :: args) fuel s = Exited s' /\
    seen s' = prints (each_shown (chars "grep: cannot open %s" ++ NL) (fun _ bs => matching pattern bs) (v_files (seen s)) args) (seen s).
Proof.
  intros Ha Hl Hf. unfold grep_main. destruct args as [|a args]; [congruence|].
  apply (each_file_shows (chars "grep: cannot open %s" ++ NL) _ (fun _ bs => matching pattern bs) (v_files (seen s)) (a :: args) (seen s)); auto.
  intros fd b st bs v Hin Hb Hv. destruct (Hf _ _ _ Hin Hb) as (Hz & Hs & Hlen).
  destruct (grep_fd_prints pattern fd st fuel [] bs v Hv) as (rest & Hr); [exact Hz | cbn; lia | exact Hlen|].
  exists rest. rewrite (grep_whole pattern (replicate fuel 1024%nat) [] bs) in Hr; [exact Hr | apply not_elem_of_nil | exact Hs | |].
  - apply Forall_replicate. lia.
  - rewrite length_replicate. exact Hlen.
Qed.

(** *** ls *)

(** The entries of a directory, from its bytes. *)
Fixpoint dirents (fuel : nat) (bs : list Z) : list dirent :=
  match fuel with
  | O => []
  | Datatypes.S f => if (length bs <? 16)%nat then [] else decode_dirent (take 16 bs) :: dirents f (drop 16 bs)
  end.

(** The line of ls for the file [path]. *)
Definition line (path : list Z) (st : stat) : list Z :=
  default [] (printf (chars "%s %d %d %d" ++ NL) [str (fmtname path); PInt (st_type st); PInt (st_ino st); PInt (st_size st)]).
Definition entry_output (fs : gmap (list Z) (stat * list Z)) (path : list Z) (de : dirent) : list Z :=
  if de_inum de =? 0 then []
  else
    let file := path ++ [47] ++ cstr (de_name de) in
    match fs !! file with
    | Some (st, _) => line file st
    | None => default [] (printf (chars "ls: cannot stat %s" ++ NL) [str file])
    end.
(** What ls prints for [path]: the file itself, or the files in the directory. *)
Definition ls_output (fs : gmap (list Z) (stat * list Z)) (path : list Z) : list Z :=
  match fs !! path with
  | None => []
  | Some (st, bs) =>
      if st_type st =? T_FILE then line path st
      else if st_type st =? T_DIR then
        if (496 <? length path)%nat then chars "ls: path too long" ++ NL
        else concat (map (entry_output fs path) (dirents (length bs) bs))
      else []
  end.

Lemma runs_stat n v :
  (size (v_open v) < limit)%nat -> runs (user_stat n) v (fst <$> v_files v !! n) v.
Proof.
  intros Hl s Hs. unfold user_stat, pbind, call. destruct (v_files v !! n) as [[st bs]|] eqn:En.
  - destruct (law_open s n (st, bs)) as (fd & s1 & E1 & Hfd & Hn & Hs1); [rewrite Hs; exact En | rewrite Hs; exact Hl|].
    rewrite Hs in Hn, Hs1. rewrite E1. rewrite (proj2 (Z.ltb_ge fd 0)) by lia.
    destruct (law_fstat s1 fd st bs) as (s2 & E2 & Hs2); [rewrite Hs1; apply lookup_insert_eq|]. rewrite E2.
    rewrite Hs1 in Hs2.
    destruct (law_close s2 fd (st, bs)) as (r & s3 & E3 & Hs3); [rewrite Hs2; apply lookup_insert_eq|]. rewrite E3.
    rewrite Hs2, closes_opens in Hs3 by exact Hn. exists s3. auto.
  - destruct (law_open_none s n) as (fd & s1 & E1 & Hfd & Hs1); [rewrite Hs; exact En|]. rewrite Hs in Hs1.
    rewrite E1. rewrite (proj2 (Z.ltb_lt fd 0)) by lia. exists s1. auto.
Qed.

Lemma dirents_fuel n : forall m bs, (length bs <= n)%nat -> (length bs <= m)%nat -> dirents n bs = dirents m bs.
Proof.
  induction n as [|n IH]; intros m bs Hn Hm.
  - destruct bs; [|cbn in Hn; lia]. destruct m; reflexivity.
  - destruct m as [|m]; [destruct bs; [reflexivity | cbn in Hm; lia]|]. cbn [dirents].
    destruct (Nat.ltb_spec (length bs) 16); [reflexivity|]. f_equal. apply IH; rewrite length_drop; lia.
Qed.
Lemma dirents_step bs : (16 <= length bs)%nat ->
  dirents (length bs) bs = decode_dirent (take 16 bs) :: dirents (length (drop 16 bs)) (drop 16 bs).
Proof.
  intros H. rewrite (dirents_fuel (length bs) (Datatypes.S (length bs)) bs) by lia. cbn [dirents].
  rewrite (proj2 (Nat.ltb_ge _ _)) by lia. f_equal. apply dirents_fuel; rewrite length_drop; lia.
Qed.

Lemma ls_entries_print fd path st fuel : forall bs v,
  v_open v !! fd = Some (st, bs) -> (length bs < fuel)%nat -> (size (v_open v) < limit)%nat ->
  exists rest, runs (ls_entries fd path fuel) v tt
    (opens fd (st, rest) (prints (concat (map (entry_output (v_files v) path) (dirents (length bs) bs))) v)).
Proof.
  induction fuel as [|fuel IH]; intros bs v Hv Hl Hsz; [lia|]. cbn [ls_entries].
  pose proof (runs_read fd 16 st bs v Hv) as Hr. change (Z.of_nat 16) with DIRENT_SIZE in Hr.
  destruct (Nat.ltb_spec (length bs) 16) as [Hs | Hs].
  - exists (drop 16 bs). replace (dirents (length bs) bs) with (@nil dirent).
    2:{ destruct (length bs) eqn:E; [reflexivity|]. cbn [dirents]. rewrite E, (proj2 (Nat.ltb_lt _ _)) by lia. reflexivity. }
    cbn [map concat]. rewrite prints_nil. eapply runs_then; [exact Hr|]. cbn beta iota.
    rewrite (proj2 (Z.eqb_neq _ DIRENT_SIZE)) by (unfold DIRENT_SIZE; lia). apply runs_ret.
  - set (de := decode_dirent (take 16 bs)). set (v1 := prints (entry_output (v_files v) path de) (opens fd (st, drop 16 bs) v)).
    assert (Hsz1 : (size (v_open (opens fd (st, drop 16 bs) v)) < limit)%nat)
      by (cbn; rewrite map_size_insert_Some by (rewrite Hv; eauto); exact Hsz).
    destruct (IH (drop 16 bs) v1) as (rest & IHr); [apply lookup_insert_eq | rewrite length_drop; lia | exact Hsz1|].
    exists rest. eapply runs_then; [exact Hr|]. cbn beta iota. rewrite Nat.min_l by lia. cbn [negb Z.eqb Z.of_nat]. fold de.
    apply (runs_then _ _ _ tt v1).
    + subst v1. unfold entry_output. destruct (de_inum de =? 0); [rewrite prints_nil; apply runs_ret|].
      eapply runs_then; [apply runs_stat, Hsz1|]. cbn [v_files opens].
      destruct (v_files v !! (path ++ [47] ++ cstr (de_name de))) as [[st' ?]|]; apply runs_puts1.
    + replace (opens _ _ _) with
        (opens fd (st, rest) (prints (concat (map (entry_output (v_files v1) path) (dirents (length (drop 16 bs)) (drop 16 bs)))) v1)); [exact IHr|].
      subst v1. rewrite !prints_opens, opens_opens, prints_prints. cbn [v_files prints opens]. do 2 f_equal.
      rewrite (dirents_step bs Hs). reflexivity.
Qed.

Lemma ls_prints_path path fuel v :
  (Datatypes.S (size (v_open v)) < limit)%nat -> map_Forall (fun _ f => length f.2 < fuel)%nat (v_files v) ->
  runs (ls path fuel) v tt (prints (ls_output (v_files v) path) v).
Proof.
  intros Hl Hf s Hs. unfold ls, pseq, pbind at 1, call at 1, ls_output. destruct (v_files v !! path) as [[st bs]|] eqn:Ep.
  - destruct (law_open s path (st, bs)) as (fd & s1 & E1 & Hfd & Hn & Hs1); [rewrite Hs; exact Ep | rewrite Hs; lia|].
    rewrite Hs in Hn, Hs1. rewrite E1. rewrite (proj2 (Z.ltb_ge fd 0)) by lia.
    destruct (law_fstat s1 fd st bs) as (s2 & E2 & Hs2); [rewrite Hs1; apply lookup_insert_eq|].
    rewrite Hs1 in Hs2. unfold pbind at 1, call at 1. rewrite E2.
    assert (Hmid : exists rest, runs (if st_type st =? T_FILE then ls_line path st
         else if st_type st =? T_DIR then
           if 512 <? strlen path + 1 + Z.of_nat DIRSIZ + 1 then print 1 (chars "ls: path too long" ++ NL) []
           else ls_entries fd path fuel
         else pret tt) (opens fd (st, bs) v) tt (opens fd (st, rest) (prints (if st_type st =? T_FILE then line path st
      else if st_type st =? T_DIR then
        if (496 <? length path)%nat then chars "ls: path too long" ++ NL
        else concat (map (entry_output (v_files v) path) (dirents (length bs) bs))
      else []) v))).
    { destruct (st_type st =? T_FILE); [exists bs; apply runs_puts1|]. destruct (st_type st =? T_DIR).
      2:{ exists bs. rewrite prints_nil. apply runs_ret. }
      replace (512 <? strlen path + 1 + Z.of_nat DIRSIZ + 1) with (496 <? length path)%nat by (unfold strlen, DIRSIZ; lia).
      destruct (496 <? length path)%nat; [exists bs; apply runs_puts1|].
      destruct (ls_entries_print fd path st fuel bs (opens fd (st, bs) v)) as (rest & Hr);
        [apply lookup_insert_eq | apply (Hf _ _ Ep) | cbn; rewrite map_size_insert_None by exact Hn; exact Hl|].
      exists rest. rewrite prints_opens, opens_opens in Hr. exact Hr. }
    destruct Hmid as (rest & Hm). destruct (Hm s2 Hs2) as (s3 & E3 & Hs3). unfold pbind at 1. rewrite E3.
    destruct (law_close s3 fd (st, rest)) as (r & s4 & E4 & Hs4); [rewrite Hs3; apply lookup_insert_eq|].
    rewrite Hs3, closes_opens in Hs4 by exact Hn. exists s4. unfold pbind, call, pret. rewrite E4. auto.
  - destruct (law_open_none s path) as (fd & s1 & E1 & Hfd & Hs1); [rewrite Hs; exact Ep|]. rewrite Hs in Hs1.
    rewrite E1. rewrite (proj2 (Z.ltb_lt fd 0)) by lia. rewrite prints_nil. apply (runs_puts2 _ v s1 Hs1).
Qed.

Lemma ls_args_print fs fuel l : forall v,
  (Datatypes.S (size (v_open v)) < limit)%nat -> v_files v = fs -> map_Forall (fun _ f => length f.2 < fuel)%nat fs ->
  runs (ls_args l fuel) v tt (prints (concat (map (ls_output fs) l)) v).
Proof.
  induction l as [|p l IH]; intros v Hv Ev Hf; cbn [ls_args map concat]; [rewrite prints_nil; apply runs_ret|].
  eapply runs_then; [apply ls_prints_path; [exact Hv | rewrite Ev; exact Hf]|]. rewrite <- prints_prints, Ev. apply IH; auto.
Qed.

(** C36 (functional).  ls prints, for each path it is given, its line when it is
    a file, and when it is a directory one line for every entry in use, with
    the type, the inode number and the size of the file of that name; nothing
    for a path that does not exist.  It exits with no file left open. *)
Theorem ls_prints name args fuel (s : S) :
  args <> [] -> (Datatypes.S (size (v_open (seen s))) < limit)%nat ->
  map_Forall (fun _ f => length f.2 < fuel)%nat (v_files (seen s)) ->
  exists s', ls_main (name :: args) fuel s = Exited s' /\
    seen s' = prints (concat (map (ls_output (v_files (seen s))) args)) (seen s).
Proof.
  intros Ha Hl Hf. unfold ls_main. destruct args as [|a args]; [congruence|]. cbn [length tail Nat.ltb Nat.leb].
  eapply (exits_bind (ls_args (a :: args) fuel) (fun _ => exit) (seen s)); [|apply exits_exit | reflexivity].
  apply ls_args_print; auto.
Qed.
End Correct.

(** ** Files in memory *)

(** The calls on a view itself: descriptors above the standard ones, thirteen at
    most; no processes, and files that do not change. *)
Definition mem_open (p : list Z) (mode : Z) (v : view) : Z * view :=
  match v_files v !! p with
  | Some f =>
      if (size (v_open v) <? 13)%nat then let fd := 3 + Z.of_nat (fresh (set_map (fun d => Z.to_nat (d - 3)) (dom (v_open v)) : gset nat)) in (fd, opens fd f v)
      else (-1, v)
  | None => (-1, v)
  end.
Definition mem_read (fd n : Z) (v : view) : (Z * list Z) * view :=
  match v_open v !! fd with
  | Some (st, bs) =>
      let k := Nat.min (Z.to_nat n) (length bs) in ((Z.of_nat k, take k bs), opens fd (st, drop k bs) v)
  | None => ((-1, []), v)
  end.
Definition mem_sys : Sys view := {|
  sys_open := mem_open;
  sys_close := fun fd v => (0, closes fd v);
  sys_read := mem_read;
  sys_write := fun fd bs v => (Z.of_nat (length bs), if fd =? 1 then prints bs v else v);
  sys_fstat := fun fd v => (fst <$> v_open v !! fd, v);
  sys_dup := fun _ v => (-1, v);
  sys_mknod := fun _ _ _ v => (-1, v);
  sys_mkdir := fun _ v => (-1, v);
  sys_link := fun _ _ v => (-1, v);
  sys_unlink := fun _ v => (-1, v);
  sys_kill := fun _ v => (-1, v);
  sys_fork := fun v => (-1, v);
  sys_exec := fun _ _ v => (Some (-1), v);
  sys_wait := fun v => (-1, v);
  sys_sleep := fun _ v => (0, v) |}.

Lemma mem_open_fresh (m : gmap Z (stat * list Z)) :
  m !! (3 + Z.of_nat (fresh (set_map (fun d => Z.to_nat (d - 3)) (dom m) : gset nat))) = None.
Proof.
  set (x := fresh _). apply not_elem_of_dom. intros H.
  apply (is_fresh (set_map (fun d => Z.to_nat (d - 3)) (dom m) : gset nat)). fold x.
  apply elem_of_map. exists (3 + Z.of_nat x). split; [lia | exact H].
Qed.

Definition mem_files : @Files view mem_sys.
Proof.
  refine (@Build_Files view mem_sys (fun v => v) 13 _ _ _ _ _ _ _).
  - intros v p f Hp Hl. eexists _, _. split; [|split; [|split; [apply mem_open_fresh | reflexivity]]]; [|lia].
    cbn. unfold mem_open. rewrite Hp, (proj2 (Nat.ltb_lt _ _)) by exact Hl. reflexivity.
  - intros v p Hp. exists (-1), v. cbn. unfold mem_open. rewrite Hp. auto using Z.opp_neg_pos with lia.
  - intros v fd n st bs H. eexists. cbn. unfold mem_read. rewrite H, Nat2Z.id. auto.
  - intros v fd st bs H. eexists. cbn. rewrite H. auto.
  - intros v fd f H. eexists _, _. cbn. auto.
  - intros v bs. eexists. cbn. auto.
  - intros v bs. eexists _, _. cbn. auto.
Defined.

Definition sample_view : view :=
  mkView (list_to_map
    [(chars "a", (mkStat 2 1 7 1 12, chars "one" ++ NL ++ chars "two" ++ NL ++ chars "tree"));
     (chars "b", (mkStat 2 1 8 1 5, chars "noto" ++ NL));
     (chars "d", (mkStat 1 1 9 1 48,
        [9; 0] ++ chars "." ++ replicate 13 0 ++ [0; 0] ++ chars "x" ++ replicate 13 0 ++ [7; 0] ++ chars "a" ++ replicate 13 0));
     (chars "d/a", (mkStat 2 1 7 2 12, []));
     (chars "d/.", (mkStat 1 1 9 1 48, []))]) ∅ [].


Lemma short_small f : (length f <= 1022)%nat -> short_lines f.
Proof. intros H a b c -> _. rewrite !length_app in H. lia. Qed.

Lemma grep_prints_witness :
  exists s', @grep_main view mem_sys [chars "grep"; chars "^t*.o"; chars "b"; chars "a"; chars "c"] 50 sample_view = Exited s' /\
    v_out s' = chars "noto" ++ NL ++ chars "two" ++ NL ++ chars "grep: cannot open c" ++ NL.
Proof.
  destruct (@grep_prints view mem_sys mem_files (chars "grep") (chars "^t*.o") [chars "b"; chars "a"; chars "c"] 50 sample_view)
    as (s' & E & Hs'); [discriminate | vm_compute; lia | |].
  { intros a st bs Ha Hb. rewrite !elem_of_cons, elem_of_nil in Ha.
    destruct Ha as [-> | [-> | [-> | []]]]; vm_compute in Hb; [| |discriminate Hb]; injection Hb as <- <-;
      (split; [apply (bool_decide_unpack _); vm_compute; exact I | split; [apply short_small; cbn; lia | cbn; lia]]). }
  exists s'. split; [exact E|]. cbn [seen mem_files] in Hs'. rewrite Hs'. vm_compute. reflexivity.
Defined.

Lemma ls_prints_witness :
  exists s', @ls_main view mem_sys [chars "ls"; chars "d"; chars "c"; chars "b"] 50 sample_view = Exited s' /\
    v_out s' = chars ".              1 9 48" ++ NL ++ chars "a              2 7 12" ++ NL ++ chars "b              2 8 5" ++ NL.
Proof.
  destruct (@ls_prints view mem_sys mem_files (chars "ls") [chars "d"; chars "c"; chars "b"] 50 sample_view)
    as (s' & E & Hs'); [discriminate | vm_compute; lia | apply (bool_decide_unpack _); vm_compute; exact I |].
  exists s'. split; [exact E|]. cbn [seen mem_files] in Hs'. rewrite Hs'. vm_compute. reflexivity.
Defined.
End Programs.
