(* ===== verification/Shell.v ===== *)
(** * solution/sh.c: the parser of the shell

    Recursive descent over the command line.  A pointer into the line is the
    suffix of the line that starts there, so that [es], the end of the line, is
    the empty suffix and a token is the pair of suffixes [q] and [eq].  [panic]
    prints a message and ends the process. *)

From Stdlib Require Import ZArith Lia ZifyBool ZifyNat.
From stdpp Require Import base list strings.
From S2P Require Import Prelude Mem Console Ulib.

(** ** Definitions *)

Definition MAXARGS : nat := 10.
Definition O_RDONLY : Z := 0.
Definition O_WRONLY : Z := 1.
Definition O_CREATE : Z := 0x200.

(** Commands over words of type [T]: the parser makes them of tokens. *)
Abbreviation token := (list Z * list Z)%type.

Inductive cmd (T : Type) : Type :=
| Exec (argv : list T)
| Redir (c : cmd T) (file : T) (mode fd : Z)
| Pipe (l r : cmd T)
| List (l r : cmd T)
| Back (c : cmd T).
Arguments Exec {T} _.
Arguments Redir {T} _ _ _ _.
Arguments Pipe {T} _ _.
Arguments List {T} _ _.
Arguments Back {T} _.

(** *** Outcomes of parsing *)

Inductive parse (A : Type) : Type :=
| POk (a : A) (ps : list Z)
| PPanic (msg : string)
| PFuel.
Arguments POk {A} _ _.
Arguments PPanic {A} _.
Arguments PFuel {A}.

Definition pbind {A B} (r : parse A) (k : A -> list Z -> parse B) : parse B :=
  match r with
  | POk a s => k a s
  | PPanic msg => PPanic msg
  | PFuel => PFuel
  end.

Notation "'let*' a , s := r 'in' k" := (pbind r (fun a s => k))
  (at level 10, a name, s name, r at level 100, k at level 200).

(** *** Tokens *)

Definition whitespace : list Z := chars " " ++ [9; 13; 10; 11].
Definition symbols : list Z := chars "<|>&;()".
Arguments whitespace : simpl never.
Arguments symbols : simpl never.

Definition in_str (l : list Z) (c : Z) : bool := match strchr l c with Some _ => true | None => false end.

Fixpoint skip_ws (s : list Z) : list Z :=
  match s with
  | c :: s' => if in_str whitespace c then skip_ws s' else s
  | [] => []
  end.

Fixpoint skip_word (s : list Z) : list Z :=
  match s with
  | c :: s' => if negb (in_str whitespace c) && negb (in_str symbols c) then skip_word s' else s
  | [] => []
  end.

Definition ch_bar : Z := 124.
Definition ch_open : Z := 40.
Definition ch_close : Z := 41.
Definition ch_semi : Z := 59.
Definition ch_amp : Z := 38.
Definition ch_lt : Z := 60.
Definition ch_gt : Z := 62.
Definition ch_plus : Z := 43.
Definition ch_a : Z := 97.

(** The result is the kind of the token, the token, and the new [*ps]. *)
Definition gettoken (ps : list Z) : Z * token * list Z :=
  let q := skip_ws ps in
  let '(ret, eq) :=
    match q with
    | [] => (0, q)
    | c :: s =>
        if (c =? ch_bar) || (c =? ch_open) || (c =? ch_close) || (c =? ch_semi) || (c =? ch_amp) || (c =? ch_lt) then (c, s)
        else if c =? ch_gt then
          match s with
          | d :: s' => if d =? ch_gt then (ch_plus, s') else (c, s)
          | [] => (c, s)
          end
        else (ch_a, skip_word q)
    end in
  (ret, (q, eq), skip_ws eq).

(** Whether one of [toks] comes next, and the new [*ps]. *)
Definition peek (ps : list Z) (toks : list Z) : bool * list Z :=
  let s := skip_ws ps in
  (match s with [] => false | c :: _ => in_str toks c end, s).

(** *** Grammar *)

(** [parseredirs] wraps the command it is given.  [parseexec] goes on filling
    in the arguments of the command it has wrapped, through its own pointer to
    it; so the wrappers are collected here, innermost first, and put around the
    command when it is complete. *)
Fixpoint wrap {T} (c : cmd T) (rs : list (T * Z * Z)) : cmd T :=
  match rs with
  | [] => c
  | (file, mode, fd) :: rs' => wrap (Redir c file mode fd) rs'
  end.

Fixpoint parseredirs (rs : list (token * Z * Z)) (ps : list Z) (fuel : nat) : parse (list (token * Z * Z)) :=
  match fuel with
  | O => PFuel
  | S f =>
      let '(b, ps) := peek ps (chars "<>") in
      if b then
        let '(tok, _, ps) := gettoken ps in
        let '(tok2, t, ps) := gettoken ps in
        if negb (tok2 =? ch_a) then PPanic "missing file for redirection"
        else
          let rs :=
            if tok =? ch_lt then rs ++ [(t, O_RDONLY, 0)]
            else if tok =? ch_gt then rs ++ [(t, Z.lor O_WRONLY O_CREATE, 1)]
            else if tok =? ch_plus then rs ++ [(t, Z.lor O_WRONLY O_CREATE, 1)]
            else rs in
          parseredirs rs ps f
      else POk rs ps
  end.

(** The loop of [parseexec]. *)
Fixpoint parseargs (argv : list token) (rs : list (token * Z * Z)) (ps : list Z) (fuel : nat) : parse (list token * list (token * Z * Z)) :=
  match fuel with
  | O => PFuel
  | S f =>
      let '(b, ps) := peek ps (chars "|)&;") in
      if b then POk (argv, rs) ps
      else
        let '(tok, t, ps) := gettoken ps in
        if tok =? 0 then POk (argv, rs) ps
        else if negb (tok =? ch_a) then PPanic "syntax"
        else
          let argv := argv ++ [t] in
          if (MAXARGS <=? length argv)%nat then PPanic "too many args"
          else let* rs, ps := parseredirs rs ps (S (length ps)) in parseargs argv rs ps f
  end.

(** The loop of [parseline] over ampersands. *)
Fixpoint parseback (c : cmd token) (ps : list Z) (fuel : nat) : parse (cmd token) :=
  match fuel with
  | O => PFuel
  | S f =>
      let '(b, ps) := peek ps (chars "&") in
      if b then let '(_, _, ps) := gettoken ps in parseback (Back c) ps f
      else POk c ps
  end.

Fixpoint parseline (ps : list Z) (fuel : nat) : parse (cmd token) :=
  match fuel with
  | O => PFuel
  | S f =>
      let* c, ps := parsepipe ps f in
      let* c, ps := parseback c ps (S (length ps)) in
      let '(b, ps) := peek ps (chars ";") in
      if b then
        let '(_, _, ps) := gettoken ps in
        let* r, ps := parseline ps f in POk (List c r) ps
      else POk c ps
  end
with parsepipe (ps : list Z) (fuel : nat) : parse (cmd token) :=
  match fuel with
  | O => PFuel
  | S f =>
      let* c, ps := parseexec ps f in
      let '(b, ps) := peek ps (chars "|") in
      if b then
        let '(_, _, ps) := gettoken ps in
        let* r, ps := parsepipe ps f in POk (Pipe c r) ps
      else POk c ps
  end
with parseexec (ps : list Z) (fuel : nat) : parse (cmd token) :=
  match fuel with
  | O => PFuel
  | S f =>
      let '(b, ps) := peek ps (chars "(") in
      if b then parseblock ps f
      else
        let* rs, ps := parseredirs [] ps (S (length ps)) in
        let* ar, ps := parseargs [] rs ps (S (length ps)) in
        POk (wrap (Exec (fst ar)) (snd ar)) ps
  end
with parseblock (ps : list Z) (fuel : nat) : parse (cmd token) :=
  match fuel with
  | O => PFuel
  | S f =>
      let '(b, ps) := peek ps (chars "(") in
      if negb b then PPanic "parseblock"
      else
        let '(_, _, ps) := gettoken ps in
        let* c, ps := parseline ps f in
        let '(b, ps) := peek ps (chars ")") in
        if negb b then PPanic "syntax - missing )"
        else
          let '(_, _, ps) := gettoken ps in
          let* rs, ps := parseredirs [] ps (S (length ps)) in
          POk (wrap c rs) ps
  end.

(** *** Ending the words *)

(** The position of a pointer in the line. *)
Definition pos (line p : list Z) : nat := length line - length p.

Fixpoint nulterminate (line : list Z) (c : cmd token) (buf : list Z) : list Z :=
  match c with
  | Exec argv => foldl (fun buf t => <[pos line (snd t) := 0]> buf) buf argv
  | Redir c t _ _ => <[pos line (snd t) := 0]> (nulterminate line c buf)
  | Pipe l r | List l r => nulterminate line r (nulterminate line l buf)
  | Back c => nulterminate line c buf
  end.

(** The result holds the command and the buffer after [nulterminate], the
    terminating zero included.  The message that quotes the leftovers is not
    modelled. *)
Definition parsecmd (line : list Z) : parse (cmd token * list Z) :=
  let* c, ps := parseline line (4 * length line + 4) in
  let '(_, ps) := peek ps [] in
  match ps with
  | _ :: _ => PPanic "syntax"
  | [] => POk (c, nulterminate line c (line ++ [0])) ps
  end.

(** ** What a line means *)

Fixpoint cmd_map {T T'} (f : T -> T') (c : cmd T) : cmd T' :=
  match c with
  | Exec argv => Exec (map f argv)
  | Redir c t mode fd => Redir (cmd_map f c) (f t) mode fd
  | Pipe l r => Pipe (cmd_map f l) (cmd_map f r)
  | List l r => List (cmd_map f l) (cmd_map f r)
  | Back c => Back (cmd_map f c)
  end.

Fixpoint tokens {T} (c : cmd T) : list T :=
  match c with
  | Exec argv => argv
  | Redir c t _ _ => t :: tokens c
  | Pipe l r | List l r => tokens l ++ tokens r
  | Back c => tokens c
  end.

(** The C string at a position of the buffer. *)
Fixpoint until0 (l : list Z) : list Z :=
  match l with
  | [] => []
  | c :: l' => if c =? 0 then [] else c :: until0 l'
  end.
Definition string_at (line buf : list Z) (t : token) : list Z := until0 (drop (pos line (fst t)) buf).

(** The text of a token before the words are ended. *)
Definition text (t : token) : list Z := take (length (fst t) - length (snd t)) (fst t).

Definition wordc (c : Z) : bool := negb (in_str whitespace c) && negb (in_str symbols c).

Definition is_word (w : list Z) : Prop := w <> [] /\ Forall (fun c => wordc c = true /\ c <> 0) w.

(** *** Printing commands

    Every command can be written down: parentheses are needed where the
    grammar does not reach the command directly. *)
Inductive level : Type := LExec | LPipe | LBack | LLine.

Definition print_redir (file : list Z) (fd : Z) : list Z := chars " " ++ (if fd =? 0 then ch_lt else ch_gt) :: file.
Definition paren (b : bool) (s : list Z) : list Z := if b then ch_open :: s ++ [ch_close] else s.

Fixpoint print (lv : level) (c : cmd (list Z)) : list Z :=
  match c with
  | Exec argv => concat (map (fun w => chars " " ++ w) argv)
  | Redir c file _ fd => print LExec c ++ print_redir file fd
  | Pipe l r => paren (match lv with LExec => true | _ => false end) (print LExec l ++ ch_bar :: print LPipe r)
  | Back c => paren (match lv with LExec | LPipe => true | _ => false end) (print LBack c ++ [ch_amp])
  | List l r => paren (match lv with LLine => false | _ => true end) (print LBack l ++ ch_semi :: print LLine r)
  end.

(** Commands that the shell can represent: fewer than MAXARGS words, and the
    two ways of redirecting. *)
Fixpoint cmd_ok (c : cmd (list Z)) : Prop :=
  match c with
  | Exec argv => Forall is_word argv /\ (length argv < MAXARGS)%nat
  | Redir c file mode fd =>
      cmd_ok c /\ is_word file /\ ((mode = O_RDONLY /\ fd = 0) \/ (mode = Z.lor O_WRONLY O_CREATE /\ fd = 1))
  | Pipe l r | List l r => cmd_ok l /\ cmd_ok r
  | Back c => cmd_ok c
  end.

(** ** Lemmas *)

Lemma in_str_spec l c : in_str l c = true <-> c ∈ l.
Proof.
  unfold in_str. destruct (strchr l c) eqn:E.
  - apply strchr_split in E as (pre & r & -> & _ & _). split; [intros _ | reflexivity]. apply elem_of_app. right. apply list_elem_of_here.
  - apply strchr_none in E. split; [discriminate | contradiction].
Qed.

Lemma skip_ws_suffix s : skip_ws s `suffix_of` s.
Proof.
  induction s as [|c s IH]; cbn; [apply suffix_nil|]. destruct (in_str whitespace c); [apply suffix_cons_r, IH | reflexivity].
Qed.

Lemma skip_ws_head s : skip_ws s = [] \/ exists c s', skip_ws s = c :: s' /\ in_str whitespace c = false.
Proof. induction s as [|c s IH]; cbn; [auto|]. destruct (in_str whitespace c) eqn:E; [exact IH | right; eauto]. Qed.

Lemma skip_ws_idem s : skip_ws (skip_ws s) = skip_ws s.
Proof. destruct (skip_ws_head s) as [-> | (c & s' & -> & E)]; [reflexivity|]. cbn. rewrite E. reflexivity. Qed.

Definition delim (s : list Z) : Prop := match s with [] => True | c :: _ => wordc c = false end.

Lemma skip_word_split s : exists w, s = w ++ skip_word s /\ Forall (fun c => wordc c = true) w /\ delim (skip_word s).
Proof.
  induction s as [|c s IH]; cbn [skip_word]; [exists []; repeat constructor|]. fold (wordc c). destruct (wordc c) eqn:E.
  - destruct IH as (w & Ew & Hw & Hd). exists (c :: w). split; [cbn; f_equal; exact Ew|]. split; [constructor; assumption | exact Hd].
  - exists []. split; [reflexivity|]. split; [constructor | exact E].
Qed.

Lemma skip_word_app w s : Forall (fun c => wordc c = true) w -> delim s -> skip_word (w ++ s) = s.
Proof.
  induction w as [|c w IH]; intros Hw Hd; cbn [app skip_word].
  - destruct s as [|c s]; [reflexivity|]. cbn [skip_word]. fold (wordc c). cbn in Hd. rewrite Hd. reflexivity.
  - apply Forall_cons in Hw as [Hc Hw]. fold (wordc c). rewrite Hc. apply IH; assumption.
Qed.

(** *** Any line *)

(** A token inside the line: a word followed by something that is no part of a
    word. *)
Definition good_tok (line : list Z) (t : token) : Prop :=
  fst t `suffix_of` line /\
  exists w, fst t = w ++ snd t /\ w <> [] /\ Forall (fun c => wordc c = true) w /\ delim (snd t).

Lemma gettoken_spec ps ret q eq ps' :
  gettoken ps = (ret, (q, eq), ps') ->
  q = skip_ws ps /\ eq `suffix_of` q /\ ps' = skip_ws eq /\ (ret <> 0 -> (length eq < length q)%nat) /\
  (q <> [] -> (length eq < length q)%nat) /\ (ret = ch_a -> good_tok ps (q, eq)).
Proof.
  unfold gettoken. destruct (skip_ws_head ps) as [E0 | (c & s & E0 & Hc)].
  { rewrite E0. intros [= <- <- <- <-]. split; [reflexivity|]. split; [reflexivity|]. split; [reflexivity|]. repeat split; try contradiction; discriminate. }
  rewrite E0. intros E. pose proof (skip_ws_suffix ps) as Hs. rewrite E0 in Hs.
  assert (Hcase : (q, ps') = (c :: s, skip_ws eq) /\
    ((eq = s /\ ret = c /\ c ∈ symbols) \/ (exists d, s = d :: eq /\ ret = ch_plus) \/ (ret = ch_a /\ wordc c = true /\ eq = skip_word (c :: s)))).
  { destruct (in_str symbols c) eqn:Es.
    - apply in_str_spec in Es. pose proof Es as Es'. change symbols with [60; 124; 62; 38; 59; 40; 41] in Es'. unfold ch_bar, ch_open, ch_close, ch_semi, ch_amp, ch_lt, ch_gt in E.
      repeat rewrite elem_of_cons in Es'. rewrite elem_of_nil in Es'.
      destruct Es' as [-> | [-> | [-> | [-> | [-> | [-> | [-> | []]]]]]]]; cbn in E; try (injection E as <- <- <- <-; split; [reflexivity | left; auto]; fail).
      destruct s as [|d s]; [injection E as <- <- <- <-; split; [reflexivity | left; auto]|].
      destruct (d =? 62); injection E as <- <- <- <-; split; try reflexivity; [right; left; eauto | left; auto].
    - assert (Hn : c ∉ symbols) by (rewrite <- in_str_spec, Es; discriminate).
      assert (Hd : forall d, d ∈ symbols -> (c =? d) = false) by (intros d Hd; apply Z.eqb_neq; intros ->; contradiction).
      rewrite !Hd in E by (unfold symbols, ch_bar, ch_open, ch_close, ch_semi, ch_amp, ch_lt, ch_gt; apply in_str_spec; reflexivity).
      cbn [orb] in E. injection E as <- <- <- <-. split; [reflexivity|]. right. right.
      split; [reflexivity|]. split; [unfold wordc; rewrite Hc, Es; reflexivity | reflexivity]. }
  destruct Hcase as [[= -> ->] Hcase]. split; [reflexivity|].
  destruct Hcase as [(-> & -> & Hsym) | [(d & -> & ->) | (-> & Hw & ->)]].
  - split; [apply suffix_cons_r; reflexivity|]. split; [reflexivity|]. split; [cbn; lia|]. split; [cbn; lia|].
    intros ->. apply in_str_spec in Hsym. discriminate.
  - split; [apply suffix_cons_r, suffix_cons_r; reflexivity|]. split; [reflexivity|]. split; [cbn; lia|]. split; [cbn; lia|]. discriminate.
  - destruct (skip_word_split (c :: s)) as (w & Ew & Hww & Hd).
    assert (Hw0 : w <> []).
    { intros ->. cbn [app] in Ew. rewrite <- Ew in Hd. cbn in Hd. congruence. }
    assert (Hlen : (length (skip_word (c :: s)) < length (c :: s))%nat).
    { rewrite Ew at 2. rewrite length_app. destruct w; [contradiction | cbn; lia]. }
    split; [exists w; exact Ew|]. split; [reflexivity|]. split; [intros _; exact Hlen|]. split; [intros _; exact Hlen|].
    intros _. split; [exact Hs|]. exists w. cbn [fst snd]. auto.
Qed.

(** Outcomes that are not a lack of fuel. *)
Definition psound {A} (Q : A -> list Z -> Prop) (r : parse A) : Prop :=
  match r with POk a ps => Q a ps | PPanic _ => True | PFuel => False end.

Lemma psound_bind {A B} Q (Q' : B -> list Z -> Prop) (r : parse A) k :
  psound Q r -> (forall a ps, Q a ps -> psound Q' (k a ps)) -> psound Q' (pbind r k).
Proof. destruct r; cbn; auto. Qed.

Lemma peek_spec ps toks b ps' :
  peek ps toks = (b, ps') -> ps' = skip_ws ps /\ (b = true -> exists c s, ps' = c :: s /\ c ∈ toks).
Proof.
  unfold peek. intros [= <- <-]. split; [reflexivity|]. destruct (skip_ws ps) as [|c s]; [discriminate|].
  intros E. exists c, s. split; [reflexivity | apply in_str_spec, E].
Qed.

Lemma good_tok_suffix line ps t : ps `suffix_of` line -> good_tok ps t -> good_tok line t.
Proof. intros Hs [H1 H2]. split; [etransitivity; eassumption | exact H2]. Qed.

Section Any.
Context (line : list Z).

Definition in_line {A} (toks : A -> list token) (ps0 : list Z) (a : A) (ps : list Z) : Prop :=
  ps `suffix_of` ps0 /\ Forall (good_tok line) (toks a).

Definition rtoks (rs : list (token * Z * Z)) : list token := map (fun r => fst (fst r)) rs.

(** Steps of the parser: a token taken after [peek] has seen one. *)
Lemma after_peek ps toks ps1 ret q eq ps2 :
  peek ps toks = (true, ps1) -> gettoken ps1 = (ret, (q, eq), ps2) ->
  ps1 `suffix_of` ps /\ ps2 `suffix_of` ps /\ (length ps2 < length ps)%nat.
Proof.
  intros Hp Hg. apply peek_spec in Hp as (-> & Hb). destruct (Hb eq_refl) as (c & s & E & _).
  apply gettoken_spec in Hg as (-> & He & -> & _ & Hlt & _). rewrite skip_ws_idem in *.
  specialize (Hlt ltac:(rewrite E; discriminate)). pose proof (skip_ws_suffix ps) as H1. pose proof (skip_ws_suffix eq) as H2.
  split; [exact H1|]. split; [etransitivity; [exact H2|]; etransitivity; [exact He | exact H1]|].
  apply suffix_length in H1, H2. lia.
Qed.

Lemma parseredirs_any fuel : forall rs ps,
  ps `suffix_of` line -> (length ps < fuel)%nat -> Forall (good_tok line) (rtoks rs) ->
  psound (in_line rtoks ps) (parseredirs rs ps fuel).
Proof.
  induction fuel as [|fuel IH]; intros rs ps Hl Hf Hr; [lia|]. cbn [parseredirs]. destruct (peek ps (chars "<>")) as [b ps1] eqn:Ep.
  destruct b; [|apply peek_spec in Ep as (-> & _); split; [apply skip_ws_suffix | exact Hr]].
  destruct (gettoken ps1) as [[tok [q eq]] ps2] eqn:E1. destruct (after_peek _ _ _ _ _ _ _ Ep E1) as (_ & H2 & Hlt).
  destruct (gettoken ps2) as [[tok2 [q2 eq2]] ps3] eqn:E2. destruct (Z.eqb_spec tok2 ch_a) as [-> | _]; [|exact I].
  cbn [negb]. apply gettoken_spec in E2 as (-> & He & -> & Hlt2 & _ & Hgood). specialize (Hgood eq_refl).
  assert (H3 : skip_ws eq2 `suffix_of` ps2).
  { etransitivity; [apply skip_ws_suffix|]. etransitivity; [exact He | apply skip_ws_suffix]. }
  assert (Hg : good_tok line (skip_ws ps2, eq2)) by (eapply good_tok_suffix; [|exact Hgood]; etransitivity; eassumption).
  assert (Hlen : (length (skip_ws eq2) < fuel)%nat) by (apply suffix_length in H3; lia).
  assert (Hfin : forall rs', Forall (good_tok line) (rtoks rs') -> psound (in_line rtoks ps) (parseredirs rs' (skip_ws eq2) fuel)).
  { intros rs' Hrs'. specialize (IH rs' (skip_ws eq2) ltac:(etransitivity; [exact H3 | etransitivity; eassumption]) Hlen Hrs').
    destruct (parseredirs rs' (skip_ws eq2) fuel); cbn in *; auto. destruct IH as [I1 I2]. split; [|exact I2].
    etransitivity; [exact I1|]. etransitivity; eassumption. }
  apply Hfin. destruct (tok =? ch_lt); [|destruct (tok =? ch_gt); [|destruct (tok =? ch_plus)]]; try exact Hr;
    unfold rtoks; rewrite map_app; apply Forall_app; split; auto; apply Forall_singleton; exact Hg.
Qed.

Lemma parseargs_any fuel : forall argv rs ps,
  ps `suffix_of` line -> (length ps < fuel)%nat -> Forall (good_tok line) argv -> Forall (good_tok line) (rtoks rs) ->
  psound (in_line (fun ar => fst ar ++ rtoks (snd ar)) ps) (parseargs argv rs ps fuel).
Proof.
  induction fuel as [|fuel IH]; intros argv rs ps Hl Hf Ha Hr; [lia|]. cbn [parseargs].
  destruct (peek ps (chars "|)&;")) as [b ps1] eqn:Ep. apply peek_spec in Ep as (-> & _). pose proof (skip_ws_suffix ps) as H1.
  destruct b; [split; [exact H1 | apply Forall_app; auto]|].
  destruct (gettoken (skip_ws ps)) as [[tok [q eq]] ps2] eqn:E1. apply gettoken_spec in E1 as (-> & He & -> & Hlt & _ & Hgood).
  rewrite skip_ws_idem in *. assert (H2 : skip_ws eq `suffix_of` ps) by (etransitivity; [apply skip_ws_suffix|]; etransitivity; eassumption).
  destruct (Z.eqb_spec tok 0) as [-> | Hne]; [split; [exact H2 | apply Forall_app; auto]|]. specialize (Hlt Hne).
  destruct (Z.eqb_spec tok ch_a) as [-> | _]; [|exact I]. cbn [negb]. destruct (MAXARGS <=? length (argv ++ [(skip_ws ps, eq)]))%nat; [exact I|].
  specialize (Hgood eq_refl).
  assert (Hg : good_tok line (skip_ws ps, eq)) by (eapply good_tok_suffix; [|exact Hgood]; etransitivity; eassumption).
  assert (Hl2 : skip_ws eq `suffix_of` line) by (etransitivity; eassumption).
  eapply psound_bind; [apply parseredirs_any; [exact Hl2 | lia | exact Hr]|]. intros rs' ps' [R1 R2].
  assert (Hlen : (length ps' < fuel)%nat).
  { apply suffix_length in R1. pose proof (suffix_length _ _ (skip_ws_suffix eq)). pose proof (suffix_length _ _ H1). lia. }
  specialize (IH (argv ++ [(skip_ws ps, eq)]) rs' ps' ltac:(etransitivity; eassumption) Hlen ltac:(apply Forall_app; split; [exact Ha | apply Forall_singleton, Hg]) R2).
  destruct (parseargs _ rs' ps' fuel); cbn in *; auto. destruct IH as [I1 I2]. split; [|exact I2].
  etransitivity; [exact I1|]. etransitivity; eassumption.
Qed.

Lemma parseback_any fuel : forall c ps,
  (length ps < fuel)%nat -> Forall (good_tok line) (tokens c) -> psound (in_line tokens ps) (parseback c ps fuel).
Proof.
  induction fuel as [|fuel IH]; intros c ps Hf Hc; [lia|]. cbn [parseback]. destruct (peek ps (chars "&")) as [b ps1] eqn:Ep.
  destruct b; [|apply peek_spec in Ep as (-> & _); split; [apply skip_ws_suffix | exact Hc]].
  destruct (gettoken ps1) as [[tok [q eq]] ps2] eqn:E1. destruct (after_peek _ _ _ _ _ _ _ Ep E1) as (_ & H2 & Hlt).
  specialize (IH (Back c) ps2 ltac:(lia) Hc). destruct (parseback (Back c) ps2 fuel); cbn in *; auto. destruct IH as [I1 I2].
  split; [etransitivity; eassumption | exact I2].
Qed.

Lemma wrap_tokens c rs :
  Forall (good_tok line) (tokens c) -> Forall (good_tok line) (rtoks rs) -> Forall (good_tok line) (tokens (wrap c rs)).
Proof.
  revert c. induction rs as [|[[t mode] fd] rs IH]; intros c Hc Hr; [exact Hc|]. cbn in Hr. apply Forall_cons in Hr as [Ht Hr].
  apply IH; [cbn; constructor; assumption | exact Hr].
Qed.

Lemma in_line_trans {A} (toks : A -> list token) ps ps0 a r :
  ps `suffix_of` ps0 -> in_line toks ps a r -> in_line toks ps0 a r.
Proof. intros Hs [H1 H2]. split; [etransitivity; eassumption | exact H2]. Qed.

Lemma psound_weaken {A} (Q Q' : A -> list Z -> Prop) r : (forall a ps, Q a ps -> Q' a ps) -> psound Q r -> psound Q' r.
Proof. destruct r; cbn; auto. Qed.

(** The four functions of the grammar, with a bound on the fuel. *)
Definition total_at (fuel : nat) : Prop := forall ps, ps `suffix_of` line ->
  ((4 * length ps + 4 <= fuel)%nat -> psound (in_line tokens ps) (parseline ps fuel)) /\
  ((4 * length ps + 3 <= fuel)%nat -> psound (in_line tokens ps) (parsepipe ps fuel)) /\
  ((4 * length ps + 2 <= fuel)%nat -> psound (in_line tokens ps) (parseexec ps fuel)) /\
  ((4 * length ps + 1 <= fuel)%nat -> psound (in_line tokens ps) (parseblock ps fuel)).

Lemma line_any f ps : total_at f -> ps `suffix_of` line -> (4 * length ps + 4 <= S f)%nat -> psound (in_line tokens ps) (parseline ps (S f)).
Proof.
  intros IH Hl Hf. cbn [parseline]. eapply psound_bind; [apply IH; [exact Hl | lia]|]. intros c ps1 [S1 G1].
  eapply psound_bind; [apply parseback_any; [lia | exact G1]|]. intros c2 ps2 [S2 G2].
  destruct (peek ps2 (chars ";")) as [b ps3] eqn:Ep. assert (S02 : ps2 `suffix_of` ps) by (etransitivity; eassumption).
  destruct b; [|apply peek_spec in Ep as (-> & _); split; [etransitivity; [apply skip_ws_suffix | exact S02] | exact G2]].
  destruct (gettoken ps3) as [[tok [q eq]] ps4] eqn:E1. destruct (after_peek _ _ _ _ _ _ _ Ep E1) as (_ & H4 & Hlt).
  assert (S04 : ps4 `suffix_of` ps) by (etransitivity; eassumption). pose proof (suffix_length _ _ S02).
  eapply psound_bind; [apply IH; [etransitivity; eassumption | lia]|]. intros c5 ps5 [S5 G5].
  split; [etransitivity; eassumption | cbn; apply Forall_app; auto].
Qed.

Lemma pipe_any f ps : total_at f -> ps `suffix_of` line -> (4 * length ps + 3 <= S f)%nat -> psound (in_line tokens ps) (parsepipe ps (S f)).
Proof.
  intros IH Hl Hf. cbn [parsepipe]. eapply psound_bind; [apply IH; [exact Hl | lia]|]. intros c ps2 [S2 G2].
  destruct (peek ps2 (chars "|")) as [b ps3] eqn:Ep.
  destruct b; [|apply peek_spec in Ep as (-> & _); split; [etransitivity; [apply skip_ws_suffix | exact S2] | exact G2]].
  destruct (gettoken ps3) as [[tok [q eq]] ps4] eqn:E1. destruct (after_peek _ _ _ _ _ _ _ Ep E1) as (_ & H4 & Hlt).
  assert (S04 : ps4 `suffix_of` ps) by (etransitivity; eassumption). pose proof (suffix_length _ _ S2).
  eapply psound_bind; [apply IH; [etransitivity; eassumption | lia]|]. intros c5 ps5 [S5 G5].
  split; [etransitivity; eassumption | cbn; apply Forall_app; auto].
Qed.

Lemma exec_any f ps : total_at f -> ps `suffix_of` line -> (4 * length ps + 2 <= S f)%nat -> psound (in_line tokens ps) (parseexec ps (S f)).
Proof.
  intros IH Hl Hf. cbn [parseexec]. destruct (peek ps (chars "(")) as [b ps1] eqn:Ep. apply peek_spec in Ep as (-> & _).
  pose proof (skip_ws_suffix ps) as S1. assert (L1 : skip_ws ps `suffix_of` line) by (etransitivity; eassumption).
  pose proof (suffix_length _ _ S1). destruct b.
  - eapply psound_weaken; [|apply IH; [exact L1 | lia]]. intros c ps2 Hc. eapply in_line_trans; eassumption.
  - eapply psound_bind; [apply parseredirs_any; [exact L1 | lia | constructor]|]. intros rs ps2 [S2 G2].
    eapply psound_bind; [apply parseargs_any; [etransitivity; eassumption | lia | constructor | exact G2]|].
    intros [argv rs'] ps3 [S3 G3]. apply Forall_app in G3 as [G3 G4]. split; [etransitivity; [exact S3|]; etransitivity; eassumption|].
    apply wrap_tokens; assumption.
Qed.

Lemma block_any f ps : total_at f -> ps `suffix_of` line -> (4 * length ps + 1 <= S f)%nat -> psound (in_line tokens ps) (parseblock ps (S f)).
Proof.
  intros IH Hl Hf. cbn [parseblock]. destruct (peek ps (chars "(")) as [b ps1] eqn:Ep. destruct b; [|exact I]. cbn [negb].
  destruct (gettoken ps1) as [[tok [q eq]] ps2] eqn:E1. destruct (after_peek _ _ _ _ _ _ _ Ep E1) as (_ & S2 & Hlt).
  eapply psound_bind; [apply IH; [etransitivity; eassumption | lia]|]. intros c ps3 [S3 G3].
  destruct (peek ps3 (chars ")")) as [b ps4] eqn:Ep2. destruct b; [|exact I]. cbn [negb].
  destruct (gettoken ps4) as [[tok2 [q2 eq2]] ps5] eqn:E2. destruct (after_peek _ _ _ _ _ _ _ Ep2 E2) as (_ & S5 & Hlt2).
  assert (S05 : ps5 `suffix_of` ps) by (etransitivity; [exact S5|]; etransitivity; eassumption).
  eapply psound_bind; [apply parseredirs_any; [etransitivity; eassumption | lia | constructor]|]. intros rs ps6 [S6 G6].
  split; [etransitivity; eassumption | apply wrap_tokens; assumption].
Qed.

Lemma grammar_any fuel : total_at fuel.
Proof.
  induction fuel as [|fuel IH]; intros ps Hl; [repeat split; intros; lia|].
  repeat split; intros Hf; [apply line_any | apply pipe_any | apply exec_any | apply block_any]; assumption.
Qed.

(** *** Ending the words *)

Definition ends (c : cmd token) : list nat := map (fun t => pos line (snd t)) (tokens c).

Lemma insert_zero (buf : list Z) i j :
  (j < length buf)%nat -> <[i := 0]> buf !! j = if decide (j = i) then Some 0 else buf !! j.
Proof.
  intros Hj. destruct (decide (j = i)) as [-> | Hne]; [apply list_lookup_insert_eq, Hj | apply list_lookup_insert_ne; congruence].
Qed.

Lemma decide_app (l r : list nat) j (x y : option Z) :
  (if decide (j ∈ r) then x else if decide (j ∈ l) then x else y) = if decide (j ∈ l ++ r) then x else y.
Proof.
  destruct (decide (j ∈ l ++ r)) as [H | H]; rewrite elem_of_app in H; repeat case_decide; tauto.
Qed.

Lemma zero_all (l : list nat) : forall buf j,
  length (foldl (fun buf i => <[i := 0]> buf) buf l) = length buf /\
  ((j < length buf)%nat -> foldl (fun buf i => <[i := 0]> buf) buf l !! j = if decide (j ∈ l) then Some 0 else buf !! j).
Proof.
  induction l as [|i l IH]; intros buf j; cbn [foldl].
  - split; [reflexivity|]. intros _. rewrite decide_False by apply not_elem_of_nil. reflexivity.
  - destruct (IH (<[i := 0]> buf) j) as [H1 H2]. rewrite length_insert in *. split; [exact H1|]. intros Hj. rewrite (H2 Hj), insert_zero by exact Hj.
    destruct (decide (j ∈ l)) as [Hin | Hin]; [rewrite decide_True by (right; exact Hin); reflexivity|].
    destruct (decide (j = i)) as [-> | Hne]; [rewrite decide_True by left; reflexivity|].
    rewrite decide_False; [reflexivity|]. rewrite elem_of_cons. tauto.
Qed.

Lemma nulterminate_fold c : forall buf j,
  length (nulterminate line c buf) = length buf /\
  ((j < length buf)%nat -> nulterminate line c buf !! j = if decide (j ∈ ends c) then Some 0 else buf !! j).
Proof.
  unfold ends. induction c as [argv | c IH t mode fd | l IHl r IHr | l IHl r IHr | c IH]; intros buf j; cbn [nulterminate tokens].
  - replace (foldl (fun buf t => <[pos line t.2 := 0]> buf) buf argv) with (foldl (fun buf i => <[i := 0]> buf) buf (map (fun t => pos line t.2) argv)).
    + apply zero_all.
    + revert buf. induction argv as [|t argv IHa]; intros buf; [reflexivity | apply IHa].
  - destruct (IH buf j) as [H1 H2]. rewrite length_insert. split; [exact H1|]. intros Hj. rewrite insert_zero, (H2 Hj) by lia. cbn [map].
    destruct (decide (j = pos line t.2)) as [-> | Hne]; [rewrite decide_True by left; reflexivity|].
    destruct (decide (j ∈ map (fun t0 => pos line t0.2) (tokens c))) as [Hin | Hin]; [rewrite decide_True by (right; exact Hin); reflexivity|].
    rewrite decide_False; [reflexivity|]. rewrite elem_of_cons. tauto.
  - destruct (IHl buf j) as [H1 H2], (IHr (nulterminate line l buf) j) as [H3 H4]. split; [lia|]. intros Hj. rewrite H4, H2 by lia.
    rewrite map_app. apply decide_app.
  - destruct (IHl buf j) as [H1 H2], (IHr (nulterminate line l buf) j) as [H3 H4]. split; [lia|]. intros Hj. rewrite H4, H2 by lia.
    rewrite map_app. apply decide_app.
  - apply IH.
Qed.

Lemma until0_prefix w : forall l,
  Forall (fun c => c <> 0) w -> (forall j, (j < length w)%nat -> l !! j = w !! j) -> l !! length w = Some 0 -> until0 l = w.
Proof.
  induction w as [|c w IH]; intros l Hw Hl H0.
  - destruct l as [|d l]; [discriminate|]. injection H0 as ->. reflexivity.
  - apply Forall_cons in Hw as [Hc Hw]. destruct l as [|d l]; [discriminate|]. pose proof (Hl 0%nat ltac:(cbn; lia)) as Hd. injection Hd as ->.
    cbn [until0]. rewrite (proj2 (Z.eqb_neq c 0) Hc). f_equal. apply IH; [exact Hw | | exact H0].
    intros j Hj. apply (Hl (S j)). cbn. lia.
Qed.

Lemma text_word w s : text (w ++ s, s) = w.
Proof. unfold text. cbn [fst snd]. rewrite length_app. replace (length w + length s - length s)%nat with (length w) by lia. apply take_app_length. Qed.

(** The character of the line at the end of a token is no part of a word. *)
Lemma end_delim t j x : good_tok line t -> pos line (snd t) = j -> line !! j = Some x -> wordc x = false.
Proof.
  intros ((pre & Hl) & w & Hq & _ & _ & Hd) Hj Hx. destruct t as [q eq]. cbn [fst snd] in *. subst q.
  rewrite Hl, app_assoc in Hx. unfold pos in Hj. rewrite Hl, !length_app in Hj.
  rewrite lookup_app_r in Hx by (rewrite length_app; lia).
  replace (j - length (pre ++ w))%nat with 0%nat in Hx by (rewrite length_app; lia). destruct eq as [|y eq]; [discriminate|].
  injection Hx as ->. exact Hd.
Qed.

(** After [nulterminate] every token is a C string. *)
Lemma nulterminate_ends c t :
  Forall (fun x => x <> 0) line -> Forall (good_tok line) (tokens c) -> t ∈ tokens c ->
  string_at line (nulterminate line c (line ++ [0])) t = text t.
Proof.
  intros Hz Hg Ht. rewrite Forall_forall in Hg. pose proof (Hg t Ht) as ((pre & Hl) & w & Hq & Hw0 & Hw & Hd).
  destruct t as [q eq]. cbn [fst snd] in *. subst q. rewrite text_word. unfold string_at, pos. cbn [fst].
  assert (Hp : (length line - length (w ++ eq))%nat = length pre) by (rewrite Hl, !length_app; lia). rewrite Hp.
  assert (Hlook : forall j, (j < length w)%nat -> line !! (length pre + j)%nat = w !! j).
  { intros j Hj. rewrite Hl, lookup_app_r by lia. replace (length pre + j - length pre)%nat with j by lia. apply lookup_app_l, Hj. }
  assert (Hlen : length line = (length pre + length w + length eq)%nat) by (rewrite Hl, !length_app; lia).
  destruct (nulterminate_fold c (line ++ [0]) 0) as [Hln _]. rewrite length_app in Hln. cbn [length] in Hln.
  apply until0_prefix.
  - rewrite Hl in Hz. apply Forall_app in Hz as [_ Hz]. apply Forall_app in Hz as [Hz _]. exact Hz.
  - intros j Hj. rewrite lookup_drop. destruct (nulterminate_fold c (line ++ [0]) (length pre + j)) as [_ E].
    rewrite E by (rewrite length_app; cbn; lia). rewrite decide_False; [rewrite lookup_app_l by lia; apply Hlook, Hj|].
    intros Hin. apply list_elem_of_fmap in Hin as (t' & Ej & Ht'). destruct (lookup_lt_is_Some_2 w j Hj) as (x & Hx).
    pose proof (end_delim t' _ x (Hg t' Ht') (eq_sym Ej) ltac:(rewrite Hlook by exact Hj; exact Hx)) as Hf.
    rewrite Forall_forall in Hw. specialize (Hw x ltac:(eapply list_elem_of_lookup_2; exact Hx)). cbn in Hw. congruence.
  - rewrite lookup_drop. destruct (nulterminate_fold c (line ++ [0]) (length pre + length w)) as [_ E].
    rewrite E by (rewrite length_app; cbn; lia). rewrite decide_True; [reflexivity|].
    apply list_elem_of_fmap. exists (w ++ eq, eq). split; [|exact Ht]. unfold pos. cbn [snd]. lia.
Qed.
End Any.

(** C24 (termination).  The parser ends on every line, with a command or with a
    message: the fuel it is given, four times the length of the line, is
    enough.  In a command that it accepts every word and file name is a token
    of the line, made of word characters, and a C string once [nulterminate]
    has run, whatever else it has overwritten. *)
Theorem parsecmd_total line :
  Forall (fun x => x <> 0) line ->
  match parsecmd line with
  | POk (c, buf) _ => forall t, t ∈ tokens c ->
      fst t `suffix_of` line /\ is_word (text t) /\ string_at line buf t = text t
  | PPanic _ => True
  | PFuel => False
  end.
Proof.
  intros Hz. unfold parsecmd. destruct (grammar_any line (4 * length line + 4) line ltac:(reflexivity)) as (Hp & _).
  specialize (Hp ltac:(lia)). destruct (parseline line (4 * length line + 4)) as [c ps | msg |]; cbn [pbind psound] in *; auto.
  destruct Hp as [_ Hg]. destruct (peek ps []) as [b ps']. destruct ps' as [|x ps']; [|exact I].
  intros t Ht. pose proof (nulterminate_ends line c t Hz Hg Ht) as Hs. rewrite Forall_forall in Hg.
  destruct (Hg t Ht) as (Hl & w & Hq & Hw0 & Hw & Hd). split; [exact Hl|]. split; [|exact Hs].
  destruct t as [q eq]. cbn [fst snd] in *. subst q. rewrite text_word. split; [exact Hw0|].
  destruct Hl as (pre & Hl). rewrite Hl in Hz. apply Forall_app in Hz as [_ Hz]. apply Forall_app in Hz as [Hz _].
  rewrite Forall_forall in *. intros x Hx. split; [apply Hw, Hx | apply Hz, Hx].
Qed.

Lemma parsecmd_total_witness :
  match parsecmd (chars "ls -l|(cat<f ;wc)& ") with
  | POk (c, buf) _ => forall t, t ∈ tokens c -> string_at (chars "ls -l|(cat<f ;wc)& ") buf t = text t
  | _ => False
  end.
Proof.
  pose proof (parsecmd_total (chars "ls -l|(cat<f ;wc)& ") ltac:(repeat constructor; discriminate)) as H.
  destruct (parsecmd (chars "ls -l|(cat<f ;wc)& ")) as [[c buf] ps | msg |] eqn:E; [|vm_compute in E; discriminate | exact H].
  intros t Ht. apply H, Ht.
Defined.
