(* ===== verification/ShellPrint.v ===== *)
(** * The shell parses what is written

    Every command, printed with parentheses where the grammar needs them, is
    parsed back: the parser of sh.c understands the whole command language. *)

From Stdlib Require Import ZArith Lia ZifyBool ZifyNat.
From stdpp Require Import base list strings.
From S2P Require Import Prelude Mem Console Ulib Shell.

(** ** Tokens of printed text *)

Lemma wordc_not c l : wordc c = true -> (forall d, d ∈ l -> d ∈ symbols) -> in_str l c = false.
Proof.
  intros Hw Hl. destruct (in_str l c) eqn:E; [|reflexivity]. apply in_str_spec, Hl, in_str_spec in E.
  unfold wordc in Hw. rewrite E in Hw. destruct (in_str whitespace c); discriminate.
Qed.

Lemma wordc_ne c d : wordc c = true -> d ∈ symbols -> (c =? d) = false.
Proof.
  intros Hw Hd. apply Z.eqb_neq. intros ->. apply in_str_spec in Hd. unfold wordc in Hw. rewrite Hd in Hw.
  destruct (in_str whitespace d); discriminate.
Qed.

Lemma wordc_ws c : wordc c = true -> in_str whitespace c = false.
Proof. unfold wordc. destruct (in_str whitespace c); [discriminate | reflexivity]. Qed.

Lemma word_skip w s : is_word w -> skip_ws (w ++ s) = w ++ s.
Proof.
  intros [H0 Hw]. destruct w as [|c w]; [contradiction|]. apply Forall_cons in Hw as [[Hc _] _]. cbn. rewrite (wordc_ws c Hc). reflexivity.
Qed.

Lemma gettoken_word w s : is_word w -> delim s -> gettoken (w ++ s) = (ch_a, (w ++ s, s), skip_ws s).
Proof.
  intros Hw Hd. unfold gettoken. rewrite word_skip by exact Hw. destruct Hw as [H0 Hw]. destruct w as [|c w]; [contradiction|].
  assert (Hw' : Forall (fun c => wordc c = true) (c :: w)) by (eapply Forall_impl; [exact Hw | intros x [Hx _]; exact Hx]).
  pose proof Hw' as Hw2. apply Forall_cons in Hw2 as [Hc _].
  cbn [app]. rewrite !(wordc_ne c) by (exact Hc || (apply in_str_spec; reflexivity)). cbn [orb].
  change (c :: w ++ s) with ((c :: w) ++ s). rewrite skip_word_app by assumption. reflexivity.
Qed.

Lemma gettoken_sym c s : c ∈ [124; 40; 41; 59; 38; 60] -> gettoken (c :: s) = (c, (c :: s, s), skip_ws s).
Proof.
  intros Hc. repeat rewrite elem_of_cons in Hc. rewrite elem_of_nil in Hc.
  destruct Hc as [-> | [-> | [-> | [-> | [-> | [-> | []]]]]]]; reflexivity.
Qed.

Lemma gettoken_gt w s : is_word w -> gettoken (62 :: w ++ s) = (62, (62 :: w ++ s, w ++ s), skip_ws (w ++ s)).
Proof.
  intros [H0 Hw]. destruct w as [|c w]; [contradiction|]. apply Forall_cons in Hw as [[Hc _] _].
  unfold gettoken. change (skip_ws (62 :: (c :: w) ++ s)) with (62 :: c :: w ++ s). cbn [app].
  rewrite (wordc_ne c ch_gt Hc) by (apply in_str_spec; reflexivity). reflexivity.
Qed.

Lemma gettoken_skip s : gettoken (skip_ws s) = gettoken s.
Proof. unfold gettoken. rewrite skip_ws_idem. reflexivity. Qed.

Lemma peek_skip s toks : peek (skip_ws s) toks = peek s toks.
Proof. unfold peek. rewrite skip_ws_idem. reflexivity. Qed.

(** What may follow a phrase: nothing, or one of the characters. *)
Definition stops (toks rest : list Z) : Prop := rest = [] \/ exists c s, rest = c :: s /\ c ∈ toks.

Definition STOP : list Z := [124; 41; 38; 59].

Lemma stop_ws toks rest : (forall c, c ∈ toks -> c ∈ symbols) -> stops toks rest -> skip_ws rest = rest /\ delim rest.
Proof.
  intros Hs [-> | (c & s & -> & Hc)]; [split; reflexivity|]. apply Hs in Hc. cbn. change symbols with [60; 124; 62; 38; 59; 40; 41] in Hc.
  repeat rewrite elem_of_cons in Hc. rewrite elem_of_nil in Hc.
  destruct Hc as [-> | [-> | [-> | [-> | [-> | [-> | [-> | []]]]]]]]; split; reflexivity.
Qed.

Lemma STOP_sym c : c ∈ STOP -> c ∈ symbols.
Proof.
  unfold STOP. repeat rewrite elem_of_cons. rewrite elem_of_nil.
  intros [-> | [-> | [-> | [-> | []]]]]; apply in_str_spec; reflexivity.
Qed.

(** [peek] on a string that is empty or starts with one of a few characters. *)
Lemma peek_no toks stop s : skip_ws s = s -> stops stop s -> (forall c, c ∈ stop -> in_str toks c = false) -> peek s toks = (false, s).
Proof.
  intros Hw Hs Hn. unfold peek. rewrite Hw. destruct Hs as [-> | (c & s' & -> & Hc)]; [reflexivity|]. rewrite Hn by exact Hc. reflexivity.
Qed.

Lemma peek_word toks w s : is_word w -> (forall d, d ∈ toks -> d ∈ symbols) -> peek (w ++ s) toks = (false, w ++ s).
Proof.
  intros Hw Ht. unfold peek. rewrite word_skip by exact Hw. destruct Hw as [H0 Hw]. destruct w as [|c w]; [contradiction|].
  apply Forall_cons in Hw as [[Hc _] _]. cbn [app]. rewrite (wordc_not c toks Hc Ht). reflexivity.
Qed.

(** ** Redirections and words *)

Definition rtext (r : token * Z * Z) : list Z * Z * Z := (text (fst (fst r)), snd (fst r), snd r).

Definition redir_ok (r : list Z * Z * Z) : Prop :=
  is_word r.1.1 /\ ((r.1.2 = O_RDONLY /\ r.2 = 0) \/ (r.1.2 = Z.lor O_WRONLY O_CREATE /\ r.2 = 1)).

Definition predirs (ds : list (list Z * Z * Z)) : list Z := concat (map (fun r => print_redir r.1.1 r.2) ds).
Definition pwords (ws : list (list Z)) : list Z := concat (map (fun w => chars " " ++ w) ws).

Lemma delim_predirs ds rest : stops STOP rest -> delim (predirs ds ++ rest).
Proof. intros Hr. destruct ds as [|d ds]; [apply (stop_ws STOP rest STOP_sym Hr) | reflexivity]. Qed.

Lemma delim_pwords ws ds rest : stops STOP rest -> delim (pwords ws ++ predirs ds ++ rest).
Proof. intros Hr. destruct ws as [|w ws]; [apply delim_predirs, Hr | reflexivity]. Qed.

Lemma stop_no_redir rest : stops STOP rest -> peek rest (chars "<>") = (false, rest).
Proof.
  intros Hr. apply (peek_no _ STOP); [apply (stop_ws STOP rest STOP_sym Hr) | exact Hr|].
  intros c Hc. unfold STOP in Hc. repeat rewrite elem_of_cons in Hc. rewrite elem_of_nil in Hc. destruct Hc as [-> | [-> | [-> | [-> | []]]]]; reflexivity.
Qed.

Lemma redir_step acc file mode fd s f ps :
  redir_ok (file, mode, fd) -> delim s -> skip_ws ps = skip_ws (print_redir file fd ++ s) ->
  parseredirs acc ps (S f) = parseredirs (acc ++ [((file ++ s, s), mode, fd)]) (skip_ws s) f.
Proof.
  intros [Hw Hm] Hd E. cbn [fst snd] in *. cbn [parseredirs]. rewrite <- peek_skip, E, peek_skip. clear E ps.
  destruct Hm as [[-> ->] | [-> ->]].
  - change (print_redir file 0 ++ s) with (32 :: 60 :: file ++ s). change (peek (32 :: 60 :: file ++ s) (chars "<>")) with (true, 60 :: file ++ s).
    cbv iota beta. rewrite gettoken_sym by (apply in_str_spec; reflexivity). cbv iota beta.
    rewrite gettoken_skip, gettoken_word by assumption. reflexivity.
  - change (print_redir file 1 ++ s) with (32 :: 62 :: file ++ s). change (peek (32 :: 62 :: file ++ s) (chars "<>")) with (true, 62 :: file ++ s).
    cbv iota beta. rewrite gettoken_gt by exact Hw. cbv iota beta. rewrite gettoken_skip, gettoken_word by assumption. reflexivity.
Qed.

Lemma redir_length file fd s : (length s < length (skip_ws (print_redir file fd ++ s)))%nat.
Proof.
  unfold print_redir. rewrite <- app_assoc. change (skip_ws (chars " " ++ ?x)) with (skip_ws x). cbn [app].
  destruct (fd =? 0); [change (skip_ws (ch_lt :: file ++ s)) with (ch_lt :: file ++ s) | change (skip_ws (ch_gt :: file ++ s)) with (ch_gt :: file ++ s)];
    cbn [length]; rewrite length_app; lia.
Qed.

Lemma parseredirs_print ds : forall acc ps rest fuel,
  Forall redir_ok ds -> stops STOP rest -> skip_ws ps = skip_ws (predirs ds ++ rest) ->
  (length (skip_ws (predirs ds ++ rest)) < fuel)%nat ->
  exists ts, parseredirs acc ps fuel = POk (acc ++ ts) rest /\ map rtext ts = ds.
Proof.
  induction ds as [|[[file mode] fd] ds IH]; intros acc ps rest fuel Hds Hr E Hf; (destruct fuel as [|f]; [lia|]).
  - destruct (stop_ws STOP rest STOP_sym Hr) as [Hw _]. cbn [predirs map concat app] in E. rewrite Hw in E.
    exists []. split; [|reflexivity]. cbn [parseredirs]. rewrite <- peek_skip, E, (stop_no_redir rest Hr), app_nil_r. reflexivity.
  - apply Forall_cons in Hds as [Hd Hds].
    assert (Ep : predirs ((file, mode, fd) :: ds) ++ rest = print_redir file fd ++ predirs ds ++ rest) by (unfold predirs; cbn [map concat fst snd]; rewrite <- app_assoc; reflexivity).
    rewrite Ep in E, Hf. rewrite (redir_step acc file mode fd (predirs ds ++ rest) f ps Hd (delim_predirs ds rest Hr) E).
    destruct (IH (acc ++ [((file ++ predirs ds ++ rest, predirs ds ++ rest), mode, fd)]) (skip_ws (predirs ds ++ rest)) rest f Hds Hr) as (ts & Et & Em).
    + apply skip_ws_idem.
    + pose proof (suffix_length _ _ (skip_ws_suffix (predirs ds ++ rest))). pose proof (redir_length file fd (predirs ds ++ rest)). lia.
    + exists (((file ++ predirs ds ++ rest, predirs ds ++ rest), mode, fd) :: ts). rewrite Et, <- app_assoc. split; [reflexivity|].
      cbn [map]. rewrite Em. unfold rtext at 1. cbn [fst snd]. rewrite text_word. reflexivity.
Qed.

(** Nothing to redirect before a word. *)
Lemma parseredirs_word rs ps w s f :
  is_word w -> skip_ws ps = w ++ s -> parseredirs rs ps (S f) = POk rs (w ++ s).
Proof.
  intros Hw E. cbn [parseredirs]. rewrite <- peek_skip, E, peek_word; [reflexivity | exact Hw|].
  intros d Hd. cbn in Hd. repeat rewrite elem_of_cons in Hd. rewrite elem_of_nil in Hd. destruct Hd as [-> | [-> | []]]; apply in_str_spec; reflexivity.
Qed.

Lemma pwords_skip w ws s : is_word w -> skip_ws (pwords (w :: ws) ++ s) = w ++ pwords ws ++ s.
Proof.
  intros Hw. unfold pwords. cbn [map concat]. rewrite <- !app_assoc. change (skip_ws (chars " " ++ ?x)) with (skip_ws x).
  apply word_skip, Hw.
Qed.

Lemma parseargs_end argv rs ps rest f :
  stops STOP rest -> skip_ws ps = rest -> parseargs argv rs ps (S f) = POk (argv, rs) rest.
Proof.
  intros Hr E. cbn [parseargs]. rewrite <- peek_skip, E. destruct (stop_ws STOP rest STOP_sym Hr) as [Hw _]. unfold peek. rewrite Hw.
  destruct Hr as [-> | (c & s & -> & Hc)]; [reflexivity|]. change STOP with (chars "|)&;") in Hc. apply in_str_spec in Hc. rewrite Hc. reflexivity.
Qed.

Lemma parseargs_print ws : forall argv rs ds ps rest fuel,
  Forall is_word ws -> Forall redir_ok ds -> stops STOP rest -> (ws = [] -> ds = []) -> (length argv + length ws < MAXARGS)%nat ->
  skip_ws ps = skip_ws (pwords ws ++ predirs ds ++ rest) ->
  (length (skip_ws (pwords ws ++ predirs ds ++ rest)) < fuel)%nat ->
  exists ats rts, parseargs argv rs ps fuel = POk (argv ++ ats, rs ++ rts) rest /\ map text ats = ws /\ map rtext rts = ds.
Proof.
  induction ws as [|w ws IH]; intros argv rs ds ps rest fuel Hws Hds Hr H0 Hn E Hf; (destruct fuel as [|f]; [lia|]).
  - rewrite H0 in * by reflexivity. exists [], []. rewrite !app_nil_r. split; [|auto]. apply parseargs_end; [exact Hr|]. rewrite E.
    apply (stop_ws STOP rest STOP_sym Hr).
  - apply Forall_cons in Hws as [Hw Hws]. rewrite (pwords_skip w ws) in E, Hf by exact Hw. set (tl := pwords ws ++ predirs ds ++ rest) in *.
    assert (Hd : delim tl) by (apply delim_pwords, Hr).
    assert (Hlt : (length tl < f)%nat).
    { rewrite length_app in Hf. destruct Hw as [Hw0 _]. destruct w; [contradiction | cbn in Hf; lia]. }
    pose proof (suffix_length _ _ (skip_ws_suffix tl)) as Hsl.
    cbn [parseargs]. rewrite <- peek_skip, E, peek_word, gettoken_word; try assumption.
    2:{ intros d Hdd. apply STOP_sym. exact Hdd. }
    cbv iota beta. change (ch_a =? 0) with false. cbn [negb Z.eqb ch_a Pos.eqb]. cbv iota.
    rewrite (proj2 (Nat.leb_gt MAXARGS (length (argv ++ [(w ++ tl, tl)])))) by (rewrite length_app; cbn in *; lia).
    assert (Hn' : (length (argv ++ [(w ++ tl, tl)]) + length ws < MAXARGS)%nat) by (rewrite length_app; cbn in *; lia).
    destruct ws as [|w2 ws].
    + assert (Etl : tl = predirs ds ++ rest) by reflexivity. rewrite Etl in *.
      destruct (parseredirs_print ds rs (skip_ws (predirs ds ++ rest)) rest (S (length (skip_ws (predirs ds ++ rest)))) Hds Hr) as (ts & Et & Em);
        [apply skip_ws_idem | lia |]. rewrite Et. cbn [pbind]. destruct f as [|f]; [lia|].
      rewrite (parseargs_end _ _ rest rest f Hr) by apply (stop_ws STOP rest STOP_sym Hr).
      exists [(w ++ predirs ds ++ rest, predirs ds ++ rest)], ts. split; [reflexivity|]. split; [cbn [map]; rewrite text_word; reflexivity | exact Em].
    + pose proof Hws as Hws2. apply Forall_cons in Hws2 as [Hw2 _].
      assert (Etl : skip_ws tl = w2 ++ pwords ws ++ predirs ds ++ rest) by (apply pwords_skip, Hw2).
      rewrite (parseredirs_word rs (skip_ws tl) w2 (pwords ws ++ predirs ds ++ rest)) by (exact Hw2 || (rewrite skip_ws_idem; exact Etl)).
      cbn [pbind]. rewrite <- Etl.
      destruct (IH (argv ++ [(w ++ tl, tl)]) rs ds (skip_ws tl) rest f Hws Hds Hr ltac:(discriminate) Hn') as (ats & rts & Ea & E1 & E2);
        [apply skip_ws_idem | fold tl; lia |].
      rewrite Ea. exists ((w ++ tl, tl) :: ats), rts. rewrite <- app_assoc. split; [reflexivity|]. split; [|exact E2].
      cbn [map]. rewrite text_word, E1. reflexivity.
Qed.

(** ** The grammar *)

(** Leading white space does not matter. *)
Lemma parseexec_skip s f : parseexec (skip_ws s) f = parseexec s f.
Proof. destruct f as [|f]; [reflexivity|]. cbn [parseexec]. rewrite peek_skip. reflexivity. Qed.
Lemma parsepipe_skip s f : parsepipe (skip_ws s) f = parsepipe s f.
Proof. destruct f as [|f]; [reflexivity|]. cbn [parsepipe]. rewrite parseexec_skip. reflexivity. Qed.
Lemma parseline_skip s f : parseline (skip_ws s) f = parseline s f.
Proof. destruct f as [|f]; [reflexivity|]. cbn [parseline]. rewrite parsepipe_skip. reflexivity. Qed.

Lemma cmd_map_wrap c rs : cmd_map text (wrap c rs) = wrap (cmd_map text c) (map rtext rs).
Proof. revert c. induction rs as [|[[t mode] fd] rs IH]; intros c; [reflexivity | apply IH]. Qed.

Definition exec_spec (c : cmd (list Z)) : Prop := forall ds rest fuel,
  Forall redir_ok ds -> stops STOP rest -> (4 * length (print LExec c ++ predirs ds ++ rest) + 2 <= fuel)%nat ->
  exists c', parseexec (print LExec c ++ predirs ds ++ rest) fuel = POk c' rest /\ cmd_map text c' = wrap c ds.
Definition pipe_spec (c : cmd (list Z)) : Prop := forall rest fuel,
  stops [41; 38; 59] rest -> (4 * length (print LPipe c ++ rest) + 3 <= fuel)%nat ->
  exists c', parsepipe (print LPipe c ++ rest) fuel = POk c' rest /\ cmd_map text c' = c.
Definition back_spec (c : cmd (list Z)) : Prop := forall k rest fuel,
  stops [41; 59] rest -> (4 * length (print LBack c ++ replicate k ch_amp ++ rest) + 3 <= fuel)%nat ->
  exists c', pbind (parsepipe (print LBack c ++ replicate k ch_amp ++ rest) fuel) (fun c ps => parseback c ps (S (length ps))) = POk c' rest /\
    cmd_map text c' = Nat.iter k Back c.
Definition line_spec (c : cmd (list Z)) : Prop := forall rest fuel,
  stops [41] rest -> (4 * length (print LLine c ++ rest) + 4 <= fuel)%nat ->
  exists c', parseline (print LLine c ++ rest) fuel = POk c' rest /\ cmd_map text c' = c.

Lemma stops_sub l l' rest : stops l rest -> (forall c, c ∈ l -> c ∈ l') -> stops l' rest.
Proof. intros [-> | (c & s & -> & Hc)] Hs; [left; reflexivity | right; eauto]. Qed.

(** Membership in a list of constants. *)
Ltac consts := repeat rewrite elem_of_cons in *; rewrite ?elem_of_nil in *; tauto.

Lemma exec_words argv : Forall is_word argv -> (length argv < MAXARGS)%nat -> exec_spec (Exec argv).
Proof.
  intros Hw Hn ds rest fuel Hds Hr Hf. destruct fuel as [|f]; [lia|]. cbn [print]. fold (pwords argv). cbn [parseexec].
  set (s := pwords argv ++ predirs ds ++ rest).
  assert (Hp : peek s (chars "(") = (false, skip_ws s)).
  { unfold peek. f_equal. destruct argv as [|w argv].
    - change s with (predirs ds ++ rest). destruct ds as [|[[file mode] fd] ds].
      + change (predirs [] ++ rest) with rest. destruct (stop_ws STOP rest STOP_sym Hr) as [-> _].
        destruct Hr as [-> | (c & s' & -> & Hc)]; [reflexivity|]. unfold STOP in Hc. repeat rewrite elem_of_cons in Hc. rewrite elem_of_nil in Hc.
        destruct Hc as [-> | [-> | [-> | [-> | []]]]]; reflexivity.
      + apply Forall_cons in Hds as [[_ [[_ E] | [_ E]]] _]; cbn in E; subst fd; reflexivity.
    - apply Forall_cons in Hw as [Hw _]. unfold s. rewrite pwords_skip by exact Hw. destruct Hw as [Hw0 Hw].
      destruct w as [|c w]; [contradiction|]. apply Forall_cons in Hw as [[Hc _] _]. cbn [app]. apply (wordc_not c _ Hc).
      intros d Hd. cbn in Hd. apply list_elem_of_singleton in Hd as ->. apply in_str_spec. reflexivity. }
  rewrite Hp. destruct argv as [|w argv].
  - destruct (parseredirs_print ds [] (skip_ws s) rest (S (length (skip_ws s))) Hds Hr) as (ts & Et & Em); [apply skip_ws_idem | unfold s; cbn; lia |].
    rewrite Et. cbn [pbind app]. rewrite (parseargs_end [] ts rest rest _ Hr) by apply (stop_ws STOP rest STOP_sym Hr). cbn [pbind fst snd].
    exists (wrap (Exec []) ts). split; [reflexivity|]. rewrite cmd_map_wrap, Em. reflexivity.
  - pose proof Hw as Hw'. apply Forall_cons in Hw' as [Hw' _]. assert (Es : skip_ws s = w ++ pwords argv ++ predirs ds ++ rest) by apply (pwords_skip w argv _ Hw').
    rewrite (parseredirs_word [] (skip_ws s) w _ _ Hw') by (rewrite skip_ws_idem; exact Es). cbn [pbind]. rewrite <- Es.
    destruct (parseargs_print (w :: argv) [] [] ds (skip_ws s) rest (S (length (skip_ws s))) Hw Hds Hr) as (ats & rts & Ea & E1 & E2);
      [discriminate | exact Hn | apply skip_ws_idem | fold s; lia |].
    rewrite Ea. cbn [pbind fst snd app]. exists (wrap (Exec ats) rts). split; [reflexivity|]. rewrite cmd_map_wrap, E2. cbn [cmd_map]. rewrite E1. reflexivity.
Qed.

Lemma exec_redir c file mode fd : redir_ok (file, mode, fd) -> exec_spec c -> exec_spec (Redir c file mode fd).
Proof.
  intros Hr Hc ds rest fuel Hds Hs Hf. cbn [print wrap] in *.
  assert (E : (print LExec c ++ print_redir file fd) ++ predirs ds ++ rest = print LExec c ++ predirs ((file, mode, fd) :: ds) ++ rest)
    by (unfold predirs; cbn [map concat fst snd]; rewrite <- !app_assoc; reflexivity).
  rewrite E in *. apply (Hc ((file, mode, fd) :: ds) rest fuel); [constructor; assumption | exact Hs | exact Hf].
Qed.

Lemma pbind_assoc {A B C} (r : parse A) (k : A -> list Z -> parse B) (k' : B -> list Z -> parse C) :
  pbind (pbind r k) k' = pbind r (fun a s => pbind (k a s) k').
Proof. destruct r; reflexivity. Qed.

(** [peek] for a symbol that comes next, and for one that does not. *)
Lemma peek_sym c toks s : in_str whitespace c = false -> peek (c :: s) toks = (in_str toks c, c :: s).
Proof. intros Hc. unfold peek. cbn [skip_ws]. rewrite Hc. reflexivity. Qed.

Lemma stop_skip l rest : (forall c, c ∈ l -> c ∈ STOP) -> stops l rest -> skip_ws rest = rest.
Proof. intros Hl Hs. apply (stop_ws STOP); [exact STOP_sym | eapply stops_sub; eassumption]. Qed.

Lemma pipe_of_exec c : print LPipe c = print LExec c -> exec_spec c -> pipe_spec c.
Proof.
  intros E Hc rest fuel Hs Hf. rewrite E in *. destruct fuel as [|f]; [lia|]. cbn [parsepipe].
  destruct (Hc [] rest f) as (c' & Ec & Em); [constructor | eapply stops_sub; [exact Hs | unfold STOP; intros x Hx; consts] | cbn [predirs map concat app]; lia |].
  change (predirs [] ++ rest) with rest in Ec. rewrite Ec. cbn [pbind].
  rewrite (peek_no _ [41; 38; 59]); [exists c'; auto | eapply stop_skip; [|exact Hs]; unfold STOP; intros x Hx; consts | exact Hs |].
  intros x Hx. repeat rewrite elem_of_cons in Hx. rewrite elem_of_nil in Hx. destruct Hx as [-> | [-> | [-> | []]]]; reflexivity.
Qed.

Lemma pipe_pipe l r : exec_spec l -> pipe_spec r -> pipe_spec (Pipe l r).
Proof.
  intros Hl Hr rest fuel Hs Hf. destruct fuel as [|f]; [lia|]. cbn [print paren] in *. rewrite <- app_assoc in *. cbn [app] in *. rewrite !length_app in Hf. cbn [length] in Hf. rewrite length_app in Hf.
  cbn [parsepipe]. destruct (Hl [] (ch_bar :: print LPipe r ++ rest) f) as (l' & El & Eml).
  - constructor.
  - right. exists ch_bar, (print LPipe r ++ rest). split; [reflexivity | apply list_elem_of_here].
  - change (predirs [] ++ ?x) with x. rewrite length_app. cbn [length]. rewrite length_app. lia.
  - change (predirs [] ++ ?x) with x in El. rewrite El. cbn [pbind]. rewrite peek_sym by reflexivity.
    change (in_str (chars "|") ch_bar) with true. cbv iota. rewrite gettoken_sym by (apply in_str_spec; reflexivity). cbv iota.
    rewrite parsepipe_skip. destruct (Hr rest f Hs) as (r' & Er & Emr); [rewrite length_app; lia|]. rewrite Er. cbn [pbind].
    exists (Pipe l' r'). split; [reflexivity|]. cbn [cmd_map]. rewrite Eml, Emr. reflexivity.
Qed.

Lemma parseback_amps k : forall c rest fuel,
  stops [41; 59] rest -> (length (replicate k ch_amp ++ rest) < fuel)%nat ->
  parseback c (replicate k ch_amp ++ rest) fuel = POk (Nat.iter k Back c) rest.
Proof.
  induction k as [|k IH]; intros c rest fuel Hs Hf; (destruct fuel as [|f]; [lia|]); cbn [replicate app parseback].
  - rewrite (peek_no _ [41; 59]); [reflexivity | eapply stop_skip; [|exact Hs]; unfold STOP; intros x Hx; consts | exact Hs |].
    intros x Hx. repeat rewrite elem_of_cons in Hx. rewrite elem_of_nil in Hx. destruct Hx as [-> | [-> | []]]; reflexivity.
  - rewrite peek_sym by reflexivity. change (in_str (chars "&") ch_amp) with true. cbv iota.
    rewrite gettoken_sym by (apply in_str_spec; reflexivity). cbv iota.
    replace (skip_ws (replicate k ch_amp ++ rest)) with (replicate k ch_amp ++ rest).
    + rewrite IH; [f_equal; symmetry; apply Nat.iter_succ_r | exact Hs | cbn in Hf; lia].
    + symmetry. destruct k as [|k]; [|reflexivity]. eapply stop_skip; [|exact Hs]. unfold STOP. intros x Hx. consts.
Qed.

Lemma cmd_map_iter k c : cmd_map text (Nat.iter k Back c) = Nat.iter k Back (cmd_map text c).
Proof. induction k as [|k IH]; [reflexivity|]. cbn [Nat.iter nat_rect cmd_map] in *. f_equal. exact IH. Qed.

Lemma back_of_pipe c : print LBack c = print LPipe c -> pipe_spec c -> back_spec c.
Proof.
  intros E Hc k rest fuel Hs Hf. rewrite E in *. destruct (Hc (replicate k ch_amp ++ rest) fuel) as (c' & Ec & Em); [| exact Hf |].
  - destruct k as [|k]; [eapply stops_sub; [exact Hs | intros x Hx; consts]|]. right. exists ch_amp, (replicate k ch_amp ++ rest). split; [reflexivity|]. right. left.
  - rewrite Ec. cbn [pbind]. rewrite parseback_amps by (exact Hs || lia). exists (Nat.iter k Back c'). split; [reflexivity|].
    rewrite cmd_map_iter, Em. reflexivity.
Qed.

Lemma back_back c : back_spec c -> back_spec (Back c).
Proof.
  intros Hc k rest fuel Hs Hf. cbn [print paren] in *.
  assert (E : (print LBack c ++ [ch_amp]) ++ replicate k ch_amp ++ rest = print LBack c ++ replicate (S k) ch_amp ++ rest) by (rewrite <- app_assoc; reflexivity).
  rewrite E in *. destruct (Hc (S k) rest fuel Hs Hf) as (c' & Ec & Em). exists c'. split; [exact Ec|].
  rewrite Em. apply Nat.iter_succ_r.
Qed.

Lemma line_of_back c : print LLine c = print LBack c -> back_spec c -> line_spec c.
Proof.
  intros E Hc rest fuel Hs Hf. rewrite E in *. destruct fuel as [|f]; [lia|]. cbn [parseline].
  destruct (Hc 0%nat rest f) as (c' & Ec & Em); [eapply stops_sub; [exact Hs | intros x Hx; consts] | cbn [replicate app]; lia |].
  cbn [replicate app] in Ec. rewrite <- pbind_assoc, Ec. cbn [pbind].
  rewrite (peek_no _ [41]); [exists c'; auto | eapply stop_skip; [|exact Hs]; unfold STOP; intros x Hx; consts | exact Hs |].
  intros x Hx. apply list_elem_of_singleton in Hx as ->. reflexivity.
Qed.

Lemma line_list l r : back_spec l -> line_spec r -> line_spec (List l r).
Proof.
  intros Hl Hr rest fuel Hs Hf. destruct fuel as [|f]; [lia|]. cbn [print paren] in *. rewrite <- app_assoc in *. cbn [app] in *. rewrite !length_app in Hf. cbn [length] in Hf. rewrite length_app in Hf.
  cbn [parseline]. destruct (Hl 0%nat (ch_semi :: print LLine r ++ rest) f) as (l' & El & Eml).
  - right. exists ch_semi, (print LLine r ++ rest). split; [reflexivity|]. right. left.
  - cbn [replicate app]. rewrite length_app. cbn [length]. rewrite length_app. lia.
  - cbn [replicate app] in El. rewrite <- pbind_assoc, El. cbn [pbind]. rewrite peek_sym by reflexivity.
    change (in_str (chars ";") ch_semi) with true. cbv iota. rewrite gettoken_sym by (apply in_str_spec; reflexivity). cbv iota.
    rewrite parseline_skip. destruct (Hr rest f Hs) as (r' & Er & Emr); [rewrite length_app; lia|]. rewrite Er. cbn [pbind].
    exists (List l' r'). split; [reflexivity|]. cbn [cmd_map]. cbn in Eml. rewrite Eml, Emr. reflexivity.
Qed.

Lemma exec_of_line c : print LExec c = paren true (print LLine c) -> line_spec c -> exec_spec c.
Proof.
  intros E Hc ds rest fuel Hds Hs Hf. rewrite E in *. cbn [paren] in *.
  assert (Ea : (ch_open :: print LLine c ++ [ch_close]) ++ predirs ds ++ rest = ch_open :: print LLine c ++ ch_close :: predirs ds ++ rest)
    by (cbn [app]; rewrite <- app_assoc; reflexivity).
  rewrite Ea in *.
  set (tl := ch_close :: predirs ds ++ rest) in *. destruct fuel as [|[|f]]; [lia | lia|]. cbn [parseexec].
  rewrite peek_sym by reflexivity. change (in_str (chars "(") ch_open) with true. cbv iota. cbn [parseblock].
  rewrite peek_sym by reflexivity. change (in_str (chars "(") ch_open) with true. cbn [negb]. cbv iota.
  rewrite gettoken_sym by (apply in_str_spec; reflexivity). cbv iota. rewrite parseline_skip.
  cbn [length] in Hf. destruct (Hc tl f) as (c' & Ec & Em); [right; exists ch_close, (predirs ds ++ rest); split; [reflexivity | left] | lia |].
  rewrite Ec. cbn [pbind]. unfold tl. rewrite peek_sym by reflexivity. change (in_str (chars ")") ch_close) with true. cbn [negb]. cbv iota.
  rewrite gettoken_sym by (apply in_str_spec; reflexivity). cbv iota.
  destruct (parseredirs_print ds [] (skip_ws (predirs ds ++ rest)) rest (S (length (skip_ws (predirs ds ++ rest)))) Hds Hs) as (ts & Et & Ets);
    [apply skip_ws_idem | lia |].
  rewrite Et. cbn [pbind app]. exists (wrap c' ts). split; [reflexivity|]. rewrite cmd_map_wrap, Em, Ets. reflexivity.
Qed.

Lemma cmd_specs c : cmd_ok c -> exec_spec c /\ pipe_spec c /\ back_spec c /\ line_spec c.
Proof.
  induction c as [argv | c IH file mode fd | l IHl r IHr | l IHl r IHr | c IH]; intros Hok; cbn [cmd_ok] in Hok.
  - destruct Hok as [Hw Hn]. assert (He : exec_spec (Exec argv)) by (apply exec_words; assumption).
    assert (Hp : pipe_spec (Exec argv)) by (apply pipe_of_exec; [reflexivity | exact He]).
    assert (Hb : back_spec (Exec argv)) by (apply back_of_pipe; [reflexivity | exact Hp]). auto using line_of_back.
  - destruct Hok as (Hc & Hf & Hm). destruct (IH Hc) as (Hx & _).
    assert (He : exec_spec (Redir c file mode fd)) by (apply exec_redir; [split; assumption | exact Hx]).
    assert (Hp : pipe_spec (Redir c file mode fd)) by (apply pipe_of_exec; [reflexivity | exact He]).
    assert (Hb : back_spec (Redir c file mode fd)) by (apply back_of_pipe; [reflexivity | exact Hp]). auto using line_of_back.
  - destruct Hok as [Hl Hr]. destruct (IHl Hl) as (El & _), (IHr Hr) as (_ & Pr & _).
    assert (Hp : pipe_spec (Pipe l r)) by (apply pipe_pipe; assumption).
    assert (Hb : back_spec (Pipe l r)) by (apply back_of_pipe; [reflexivity | exact Hp]).
    assert (Hn : line_spec (Pipe l r)) by (apply line_of_back; [reflexivity | exact Hb]). auto using exec_of_line.
  - destruct Hok as [Hl Hr]. destruct (IHl Hl) as (_ & _ & Bl & _), (IHr Hr) as (_ & _ & _ & Lr).
    assert (Hn : line_spec (List l r)) by (apply line_list; assumption).
    assert (He : exec_spec (List l r)) by (apply exec_of_line; [reflexivity | exact Hn]).
    assert (Hp : pipe_spec (List l r)) by (apply pipe_of_exec; [reflexivity | exact He]). auto using back_of_pipe.
  - destruct (IH Hok) as (_ & _ & Bc & _). assert (Hb : back_spec (Back c)) by (apply back_back, Bc).
    assert (Hn : line_spec (Back c)) by (apply line_of_back; [reflexivity | exact Hb]).
    assert (He : exec_spec (Back c)) by (apply exec_of_line; [reflexivity | exact Hn]). auto using pipe_of_exec.
Qed.

(** ** Round trip *)

Lemma print_nonzero c : cmd_ok c -> forall lv, Forall (fun x => x <> 0) (print lv c).
Proof.
  assert (Hw : forall w, is_word w -> Forall (fun x => x <> 0) w) by (intros w [_ H]; eapply Forall_impl; [exact H | intros x [_ Hx]; exact Hx]).
  assert (Hp : forall b s, Forall (fun x => x <> 0) s -> Forall (fun x => x <> 0) (paren b s)).
  { intros [] s Hs; cbn [paren]; [|exact Hs]. constructor; [discriminate|]. apply Forall_app. split; [exact Hs | repeat constructor; discriminate]. }
  induction c as [argv | c IH file mode fd | l IHl r IHr | l IHl r IHr | c IH]; cbn [cmd_ok]; intros Hok lv; cbn [print].
  - apply Forall_concat, Forall_fmap. eapply Forall_impl; [apply Hok|]. intros w Hword. apply Forall_app. split; [repeat constructor; discriminate | apply Hw, Hword].
  - destruct Hok as (Hc & Hf & _). apply Forall_app. split; [apply IH, Hc|]. unfold print_redir. apply Forall_app.
    split; [repeat constructor; discriminate|]. constructor; [destruct (fd =? 0); discriminate | apply Hw, Hf].
  - destruct Hok as [Hl Hr]. apply Hp, Forall_app. split; [apply IHl, Hl | constructor; [discriminate | apply IHr, Hr]].
  - destruct Hok as [Hl Hr]. apply Hp, Forall_app. split; [apply IHl, Hl | constructor; [discriminate | apply IHr, Hr]].
  - apply Hp, Forall_app. split; [apply IH, Hok | repeat constructor; discriminate].
Qed.

Lemma cmd_map_ext {T T'} (f g : T -> T') c : (forall t, t ∈ tokens c -> f t = g t) -> cmd_map f c = cmd_map g c.
Proof.
  induction c as [argv | c IH file mode fd | l IHl r IHr | l IHl r IHr | c IH]; cbn [tokens cmd_map]; intros Hfg.
  - f_equal. apply map_ext_in. intros t Ht. apply Hfg, list_elem_of_In, Ht.
  - rewrite (Hfg file) by left. rewrite IH; [reflexivity|]. intros t Ht. apply Hfg. right. exact Ht.
  - rewrite IHl, IHr; [reflexivity | |]; intros t Ht; apply Hfg, elem_of_app; auto.
  - rewrite IHl, IHr; [reflexivity | |]; intros t Ht; apply Hfg, elem_of_app; auto.
  - rewrite IH; [reflexivity | exact Hfg].
Qed.

Lemma reads_back c :
  cmd_ok c ->
  exists t buf, parsecmd (print LLine c) = POk (t, buf) [] /\ cmd_map (string_at (print LLine c) buf) t = c.
Proof.
  intros Hok. set (line := print LLine c). destruct (cmd_specs c Hok) as (_ & _ & _ & Hl).
  destruct (Hl [] (4 * length line + 4)%nat) as (t & Et & Em); [left; reflexivity | rewrite app_nil_r; fold line; lia |].
  rewrite app_nil_r in Et. fold line in Et.
  destruct (grammar_any line (4 * length line + 4) line ltac:(reflexivity)) as (Hg & _). specialize (Hg ltac:(lia)). rewrite Et in Hg.
  destruct Hg as [_ Hg]. exists t, (nulterminate line t (line ++ [0])). split.
  - unfold parsecmd. fold line. rewrite Et. reflexivity.
  - rewrite <- Em. apply cmd_map_ext. intros x Hx. apply nulterminate_ends; [apply print_nonzero, Hok | exact Hg | exact Hx].
Qed.

(** C22 (roundtrip).  Every command of the shell, however its pipes, lists,
    background jobs, redirections and blocks are nested, is read back from its
    printed form: the parser accepts the line, and the strings that [runcmd]
    finds in the buffer are the words and files of the command. *)
Theorem shell_reads_back c :
  cmd_ok c ->
  exists t buf, parsecmd (print LLine c) = POk (t, buf) [] /\ cmd_map (string_at (print LLine c) buf) t = c.
Proof. exact (reads_back c). Qed.

Definition sample_cmd : cmd (list Z) :=
  List (Back (Pipe (Exec [chars "ls"; chars "-l"]) (Redir (Back (Exec [chars "wc"])) (chars "out") (Z.lor O_WRONLY O_CREATE) 1)))
       (Redir (Exec [chars "cat"]) (chars "in") O_RDONLY 0).

Lemma sample_cmd_ok : cmd_ok sample_cmd.
Proof.
  cbn. repeat match goal with
    | |- _ /\ _ => split
    | |- is_word _ => split; [discriminate | repeat constructor; discriminate]
    | |- Forall _ _ => constructor
    end; auto; cbn; unfold MAXARGS; lia.
Qed.

Lemma shell_reads_back_witness :
  cmd_ok sample_cmd /\
  exists t buf, parsecmd (print LLine sample_cmd) = POk (t, buf) [] /\ cmd_map (string_at (print LLine sample_cmd) buf) t = sample_cmd.
Proof.
  split; [exact sample_cmd_ok | exact (shell_reads_back sample_cmd sample_cmd_ok)].
Defined.
