(* ===== verification/ShellRun.v ===== *)
(** * solution/sh.c: running commands

    [runcmd] and the main loop of the shell.  A process of the shell is the
    tree of the system calls it makes, with a branch for each outcome; its file
    descriptors are modelled as the kernel hands them out, lowest free first. *)

From Stdlib Require Import ZArith Lia ZifyBool ZifyNat.
From stdpp Require Import base list strings.
From S2P Require Import Prelude Mem Console Ulib Shell ShellPrint.

(** ** File descriptors *)

(** What a descriptor refers to: the terminal, a file opened in a mode, or an
    end of a pipe. *)
Inductive ofile : Type :=
| Tty
| FileAt (path : list Z) (mode : Z)
| PipeRd (id : nat)
| PipeWr (id : nat).

Definition NOFILE : nat := 16.
Abbreviation fds := (list (option ofile)).

Fixpoint fdalloc (t : fds) (o : ofile) (i : nat) : option (nat * fds) :=
  match t with
  | [] => None
  | None :: t' => Some (i, Some o :: t')
  | x :: t' =>
      match fdalloc t' o (S i) with
      | Some (j, t'') => Some (j, x :: t'')
      | None => None
      end
  end.

Definition close (t : fds) (fd : nat) : fds := <[fd := None]> t.

Definition dup (t : fds) (fd : nat) : fds :=
  match t !! fd with
  | Some (Some o) => match fdalloc t o 0 with Some (_, t') => t' | None => t end
  | _ => t
  end.

(** ** Processes *)

Inductive proc : Type :=
| PExec (argv : list (list Z)) (t : fds) (failed : proc)
| PExit
| PPrint (msg : list Z) (k : proc)
| PFork (child parent failed : proc)
| PWait (t : fds) (k : proc)
| POpen (path : list Z) (mode : Z) (ok failed : proc)
| PPipe (id : nat) (ok failed : proc).

Definition NL : list Z := [10].

Definition panic (msg : string) : proc := PPrint (chars msg ++ NL) PExit.
Definition fork1 (child parent : proc) : proc := PFork child parent (panic "fork").

(** [id] numbers the pipes; the result has the next number. *)
Fixpoint runcmd (c : cmd (list Z)) (t : fds) (id : nat) : proc * nat :=
  match c with
  | Exec argv =>
      match argv with
      | [] => (PExit, id)
      | a0 :: _ => (PExec argv t (PPrint (chars "exec " ++ a0 ++ chars " failed" ++ NL) PExit), id)
      end
  | Redir c file mode fd =>
      let t1 := close t (Z.to_nat fd) in
      let failed := PPrint (chars "open " ++ file ++ chars " failed" ++ NL) PExit in
      match fdalloc t1 (FileAt file mode) 0 with
      | Some (_, t2) => let '(p, id') := runcmd c t2 id in (POpen file mode p failed, id')
      | None => (failed, id)
      end
  | List l r =>
      let '(pl, id1) := runcmd l t id in
      let '(pr, id2) := runcmd r t id1 in
      (fork1 pl (PWait t pr), id2)
  | Pipe l r =>
      match fdalloc t (PipeRd id) 0 with
      | None => (panic "pipe", id)
      | Some (p0, t1) =>
          match fdalloc t1 (PipeWr id) 0 with
          | None => (panic "pipe", id)
          | Some (p1, t2) =>
              let '(pl, id1) := runcmd l (close (close (dup (close t2 1) p1) p0) p1) (S id) in
              let '(pr, id2) := runcmd r (close (close (dup (close t2 0) p0) p0) p1) id1 in
              let t3 := close (close t2 p0) p1 in
              (PPipe id (fork1 pl (fork1 pr (PWait t3 (PWait t3 PExit)))) (panic "pipe"), id2)
          end
      end
  | Back c =>
      let '(p, id1) := runcmd c t id in
      (fork1 p PExit, id1)
  end.

(** *** The main loop *)

(** A line that is read either changes the directory or is run by a child. *)
Inductive action : Type :=
| AChdir (path : list Z)
| ARun (line : list Z).

(** [getcmd]: no line at the end of the input. *)
Definition getcmd (inp : list Z) : option (list Z * list Z) :=
  match gets inp 100 with
  | ([], _) => None
  | (buf, rest) => Some (buf, rest)
  end.

Fixpoint main_loop (inp : list Z) (fuel : nat) : option (list action) :=
  match fuel with
  | O => None
  | S f =>
      match getcmd inp with
      | None => Some []
      | Some (buf, rest) =>
          let a :=
            match buf with
            | 99 :: 100 :: 32 :: _ => AChdir (drop 3 (take (length buf - 1) buf))
            | _ => ARun buf
            end in
          match main_loop rest f with Some l => Some (a :: l) | None => None end
      end
  end.

(** What the child does with its line. *)
Definition run_line (line : list Z) (t : fds) (id : nat) : proc :=
  match parsecmd line with
  | POk (c, buf) _ => fst (runcmd (cmd_map (string_at line buf) c) t id)
  | PPanic msg => panic msg
  | PFuel => PExit
  end.

(** The loop that opens the console until descriptors 0 to 2 are in use. *)
Fixpoint open_console (t : fds) (fuel : nat) : fds :=
  match fuel with
  | O => t
  | S f =>
      match fdalloc t Tty 0 with
      | Some (fd, t') => if (3 <=? fd)%nat then close t' fd else open_console t' f
      | None => t
      end
  end.

(** ** Plumbing *)

(** The programs that a process and its children start when every system call
    succeeds, with their descriptors. *)
Fixpoint execs (p : proc) : list (list (list Z) * fds) :=
  match p with
  | PExec argv t _ => [(argv, t)]
  | PExit => []
  | PPrint _ k => execs k
  | PFork child parent _ => execs child ++ execs parent
  | PWait _ k => execs k
  | POpen _ _ ok _ => execs ok
  | PPipe _ ok _ => execs ok
  end.

(** The descriptors that are open while they wait. *)
Fixpoint waits (p : proc) : list fds :=
  match p with
  | PExec _ _ _ | PExit => []
  | PPrint _ k => waits k
  | PFork child parent _ => waits child ++ waits parent
  | PWait t k => t :: waits k
  | POpen _ _ ok _ => waits ok
  | PPipe _ ok _ => waits ok
  end.

(** Standard input, output and error, and nothing else. *)
Definition std (i o e : ofile) : fds := [Some i; Some o; Some e] ++ replicate (NOFILE - 3) None.

(** The meaning of a command: the programs, each with its input and output. *)
Fixpoint jobs (c : cmd (list Z)) (i o : ofile) (id : nat) : list (list (list Z) * ofile * ofile) * nat :=
  match c with
  | Exec argv => (match argv with [] => [] | _ => [(argv, i, o)] end, id)
  | Redir c file mode fd => if fd =? 0 then jobs c (FileAt file mode) o id else jobs c i (FileAt file mode) id
  | Pipe l r =>
      let '(jl, id1) := jobs l i (PipeWr id) (S id) in
      let '(jr, id2) := jobs r (PipeRd id) o id1 in (jl ++ jr, id2)
  | List l r =>
      let '(jl, id1) := jobs l i o id in
      let '(jr, id2) := jobs r i o id1 in (jl ++ jr, id2)
  | Back c => jobs c i o id
  end.

Definition only_std (e : ofile) (t : fds) : Prop := exists i o, t = std i o e.

Lemma runcmd_jobs e c : forall i o id,
  cmd_ok c ->
  execs (fst (runcmd c (std i o e) id)) = map (fun j => (j.1.1, std j.1.2 j.2 e)) (fst (jobs c i o id)) /\
  snd (runcmd c (std i o e) id) = snd (jobs c i o id) /\
  Forall (only_std e) (waits (fst (runcmd c (std i o e) id))).
Proof.
  induction c as [argv | c IH file mode fd | l IHl r IHr | l IHl r IHr | c IH]; intros i o id Hok; cbn [cmd_ok] in Hok.
  - destruct argv; cbn; repeat constructor.
  - destruct Hok as (Hc & _ & Hm). cbn [runcmd jobs]. destruct Hm as [[-> ->] | [-> ->]].
    + change (fdalloc (close (std i o e) (Z.to_nat 0)) (FileAt file O_RDONLY) 0) with (Some (0%nat, std (FileAt file O_RDONLY) o e)).
      cbv iota. specialize (IH (FileAt file O_RDONLY) o id Hc). change (0 =? 0) with true. cbv iota.
      destruct (runcmd c (std (FileAt file O_RDONLY) o e) id) as [p id']. exact IH.
    + change (fdalloc (close (std i o e) (Z.to_nat 1)) ?f 0) with (Some (1%nat, std i f e)).
      cbv iota. specialize (IH i (FileAt file (Z.lor O_WRONLY O_CREATE)) id Hc). change (1 =? 0) with false. cbv iota.
      destruct (runcmd c (std i (FileAt file (Z.lor O_WRONLY O_CREATE)) e) id) as [p id']. exact IH.
  - destruct Hok as [Hl Hr]. cbn [runcmd jobs].
    change (fdalloc (std i o e) (PipeRd id) 0) with (Some (3%nat, [Some i; Some o; Some e; Some (PipeRd id)] ++ replicate 12 None)). cbv iota.
    change (fdalloc ([Some i; Some o; Some e; Some (PipeRd id)] ++ replicate 12 None) (PipeWr id) 0) with
      (Some (4%nat, [Some i; Some o; Some e; Some (PipeRd id); Some (PipeWr id)] ++ replicate 11 None)). cbv iota.
    set (t2 := [Some i; Some o; Some e; Some (PipeRd id); Some (PipeWr id)] ++ replicate 11 None).
    change (close (close (dup (close t2 1) 4) 3) 4) with (std i (PipeWr id) e).
    change (close (close (dup (close t2 0) 3) 3) 4) with (std (PipeRd id) o e).
    change (close (close t2 3) 4) with (std i o e).
    destruct (IHl i (PipeWr id) (S id) Hl) as (L1 & L2 & L3). destruct (runcmd l (std i (PipeWr id) e) (S id)) as [pl id1].
    destruct (jobs l i (PipeWr id) (S id)) as [jl id1']. cbn [fst snd] in L1, L2, L3. subst id1'.
    destruct (IHr (PipeRd id) o id1 Hr) as (R1 & R2 & R3). destruct (runcmd r (std (PipeRd id) o e) id1) as [pr id2].
    destruct (jobs r (PipeRd id) o id1) as [jr id2']. cbn [fst snd] in R1, R2, R3. subst id2'.
    cbn [fst snd execs waits fork1]. rewrite L1, R1, app_nil_r, map_app. split; [reflexivity|]. split; [reflexivity|].
    apply Forall_app. split; [exact L3|]. apply Forall_app. split; [exact R3|]. repeat constructor; exists i, o; reflexivity.
  - destruct Hok as [Hl Hr]. cbn [runcmd jobs].
    destruct (IHl i o id Hl) as (L1 & L2 & L3). destruct (runcmd l (std i o e) id) as [pl id1].
    destruct (jobs l i o id) as [jl id1']. cbn [fst snd] in L1, L2, L3. subst id1'.
    destruct (IHr i o id1 Hr) as (R1 & R2 & R3). destruct (runcmd r (std i o e) id1) as [pr id2].
    destruct (jobs r i o id1) as [jr id2']. cbn [fst snd] in R1, R2, R3. subst id2'.
    cbn [fst snd execs waits fork1]. rewrite L1, R1, map_app. split; [reflexivity|]. split; [reflexivity|].
    apply Forall_app. split; [exact L3|]. constructor; [exists i, o; reflexivity | exact R3].
  - cbn [runcmd jobs]. destruct (IH i o id Hok) as (L1 & L2 & L3). destruct (runcmd c (std i o e) id) as [p id1].
    destruct (jobs c i o id) as [jl id1']. cbn [fst snd] in *. cbn [execs waits fork1]. rewrite !app_nil_r. auto.
Qed.

(** C23 (functional).  A line that is a printed command, given to a shell with
    standard input, output and error, starts exactly the programs of the
    command: each has the input and output that the pipes and redirections
    around it say, the shell's standard error, and no other descriptor, so that
    no end of a pipe is left open by accident; and whenever a process of the
    shell waits it holds no end of a pipe either. *)
Theorem shell_plumbs c i o e id :
  cmd_ok c ->
  execs (run_line (print LLine c) (std i o e) id) = map (fun j => (j.1.1, std j.1.2 j.2 e)) (fst (jobs c i o id)) /\
  Forall (only_std e) (waits (run_line (print LLine c) (std i o e) id)).
Proof.
  intros Hok. unfold run_line. destruct (reads_back c Hok) as (t & buf & E & Em). rewrite E, Em.
  destruct (runcmd_jobs e c i o id Hok) as (H1 & _ & H3). auto.
Qed.

Lemma shell_plumbs_witness :
  cmd_ok sample_cmd /\
  execs (run_line (print LLine sample_cmd) (std Tty Tty Tty) 0) =
    [([chars "ls"; chars "-l"], std Tty (PipeWr 0) Tty);
     ([chars "wc"], std (PipeRd 0) (FileAt (chars "out") 513) Tty);
     ([chars "cat"], std (FileAt (chars "in") 0) Tty Tty)].
Proof.
  split; [exact sample_cmd_ok | exact (proj1 (shell_plumbs sample_cmd Tty Tty Tty 0 sample_cmd_ok))].
Defined.

(** The fuel of the main loop: every line takes at least one byte. *)
Lemma gets_loop_rest inp : forall room l rest, gets_loop inp room = (l, rest) -> (length l + length rest = length inp)%nat.
Proof.
  induction inp as [|c inp IH]; intros [|room] l rest E; cbn in E; try (injection E as <- <-; reflexivity).
  destruct ((c =? 10) || (c =? 13)); [injection E as <- <-; reflexivity|].
  destruct (gets_loop inp room) as [l' r'] eqn:El. injection E as <- <-. cbn. rewrite <- (IH room l' r' El). lia.
Qed.

Lemma main_loop_ends fuel : forall inp, (length inp < fuel)%nat -> main_loop inp fuel <> None.
Proof.
  induction fuel as [|fuel IH]; intros inp Hf; [lia|]. cbn [main_loop]. unfold getcmd. destruct (gets inp 100) as [[|c l] rest] eqn:E; [discriminate|].
  apply gets_loop_rest in E. cbn in E. specialize (IH rest ltac:(lia)). destruct (main_loop rest fuel); [discriminate | contradiction].
Qed.

(** The main loop takes the last byte of a [cd] line for its newline; at the
    end of the input, or when the line fills the buffer, it is part of the
    path. *)
Lemma cd_chops_path : main_loop (chars "cd tmp") 10 = Some [AChdir (chars "tm")].
Proof. reflexivity. Qed.
